(* ===== verification/_CoqProject ===== *)
-Q . S2P
Prelude.v
Pool.v
Mem.v
CString.v
Ulib.v
Layout.v
Spinlock.v
Kalloc.v
PageTable.v
ShmTable.v
Vm.v
VmFacts.v
ProcState.v
Sched.v
Mutex.v
Shm.v
ShmFacts.v
Proc.v
ProcFacts.v
Pipe.v
Bytes.v
Crash.v
Cache.v
Bio.v
BioFacts.v
BioCache.v
Memide.v
FsFormat.v
File.v
Log.v
LogFacts.v
LogSafe.v
Tx.v
TxLog.v
Fs.v
FsBlocks.v
FsFile.v
FsMap.v
FsRw.v
FsInode.v
FsSafe.v
FsPath.v
FsDir.v
Syscall.v
Sysfile.v
Exec.v
Trap.v
Format.v
User.v
Grep.v
Sh.v
ShPrint.v
ShRun.v
Umalloc.v
UmallocFacts.v
Console.v
ConsoleFacts.v
FileServer.v
FileServerFacts.v
FileServerDemo.v
Ide.v
IdeFacts.v
Mkfs.v
MkfsFacts.v
MkfsImage.v
FirstBoot.v
Devices.v
MpFacts.v
IrqFacts.v
Init.v
Boot.v
Segments.v
Main.v
