(* ===== verification/Prelude.v ===== *)
(** A verification development for the MSBOSS kernel and its user programs.

    The program is the xv6 teaching kernel for x86 (C, one address space shared by all
    processes in kernel mode) with three student modules added to it: a file server with
    checkpoints (Module 1), shared memory between processes (Module 2), and mutexes, condition
    variables and a priority scheduler (Module 3).

    * Parts of the program and the files that model them

    From the hardware up; a file requires only files above it.

    - Common ground.  Prelude.v (this file): machine integers with their wrap-around, the
      resumption monad [M] in which all kernel code is written, array scans and the program
      logics [run], [wp] and [keeps].  Pool.v: processes that run on a shared state until they sleep and are woken.  Mem.v: byte memory and the block routines of string.c.
      CString.v: the string routines of string.c.  Ulib.v: those of ulib.c.  Bytes.v: little-endian fields of
      byte blocks.  Layout.v: memlayout.h, mmu.h, param.h.
    - Spin locks.  Spinlock.v: spinlock.c as routines and as a step relation of several CPUs.
    - Memory.  Kalloc.v: kalloc.c.  PageTable.v: [walkpgdir] and [mappages] of vm.c.
      ShmTable.v: the region table of shm.h.  Vm.v: the other routines of vm.c; VmFacts.v: its
      theorems.  Segments.v: the descriptors of mmu.h, [seginit], [switchuvm], [switchkvm],
      [kvmalloc], [idtinit], what the scheduler does around them with the variable [proc], and the register loads of x86.h.
    - Processors and interrupt controllers.  Devices.v: mp.c, lapic.c, ioapic.c, picirq.c, timer.c
      and [uartinit]; MpFacts.v, IrqFacts.v: their theorems, and a machine that satisfies the laws.
    - Start-up.  Boot.v: bootmain.c over the ports of the disk controller.  Main.v: main.c.
    - Processes.  ProcState.v: proc.h, mutex.h and the globals of proc.c.  Sched.v: the
      scheduler, sleep and wakeup.  Mutex.v: mutexes and condition variables.  Shm.v, ShmFacts.v:
      the shared-memory calls of shm.h.  Proc.v, ProcFacts.v: fork, exit, wait and the rest of
      proc.c.
    - Files.  Pipe.v: pipe.c.  File.v: file.c (over an interface for fs.c, log.c and pipe.c).
    - Disk.  Crash.v: the crash logic [chl].  Cache.v: the interface of the block cache
      ([BlockOps], [BlockLaws]).  Bio.v, BioFacts.v, BioCache.v: bio.c, its linked list, and the
      instance of the interface.  Memide.v: memide.c, the instance of the driver's interface.
      FsFormat.v: fs.h.  Log.v, LogFacts.v, LogSafe.v: log.c, its phases, and crash safety.
      Tx.v, TxLog.v: the interface of the log to the file system and its proof for log.c.
      Ide.v, IdeFacts.v: ide.c over the ports of the controller, an alternative to memide.c.
    - File system.  Fs.v: fs.c.  FsBlocks.v: the free map.  FsFile.v: files as bytes.  FsMap.v:
      [bmap].  FsRw.v, FsInode.v: [readi], [writei], [iupdate].  FsSafe.v: a whole write through
      fs.c, log.c and bio.c.  FsPath.v: path names and the inode cache.  FsDir.v:
      directories and path lookup.  Mkfs.v, MkfsFacts.v, MkfsImage.v: mkfs.c, the program that builds
      the first image on the host.  FirstBoot.v: the kernel's first start on such an image.
    - System calls.  Syscall.v: syscall.c and sysproc.c.  Sysfile.v: sysfile.c.  Exec.v: exec.c
      and elf.h.  Trap.v: trap.c.
    - Text and console.  Format.v: [cprintf] of console.c and printf.c.  Console.v,
      ConsoleFacts.v: the rest of console.c, kbd.c, kbd.h, and uart.c.
    - User programs.  User.v: cat, wc, echo, rm, mkdir, ln, kill, ls and ulib.c.  Grep.v: grep.c.
      Init.v: init.c and zombie.c.
      Sh.v: the parser of sh.c; ShPrint.v: its inverse; ShRun.v: [runcmd] and [main].  Umalloc.v,
      UmallocFacts.v: umalloc.c.
    - File server (Module 1).  FileServer.v: fileserver.c and the client stubs of fss.h;
      FileServerFacts.v: its theorems; FileServerDemo.v: a file system in memory that satisfies the
      laws they use.

    * How the code is rendered

    A routine of the kernel is a function [S -> prog S A] on the state of its component: it
    returns, stops with [panic], runs into undefined behaviour of C ([Undef]: a null or stray
    pointer, an index outside an array, an uninitialised variable), runs out of fuel, or reaches a
    point where other CPUs or processes can act ([Sync]: taking or dropping a lock, sleeping,
    waking, switching to the scheduler).  [run] executes it alone; [run_as] (Pool.v) runs several, one at a time, each up to where it
    sleeps; [wp] executes it with other
    processes changing what the lock protocol allows; [keeps] asks for an invariant at every such
    point; [chl] asks in addition what a crash at such a point leaves on disk.  A component's
    state sits in a larger one through a [Lens].  A pointer to an element of a table is its index;
    kernel virtual addresses are numbers into byte memory.  Messages printed to the console are
    left out of the kernel's routines; Format.v has the text, and the user programs write it.

    Interfaces between components are classes: [Driver] with [DriverLaws], [BlockOps] with
    [BlockLaws], [TxOps], [Backend], [FileOps] and [SysFs] in the kernel, [UserOps] with
    [UserLaws] and [FileLaws] for the system calls a program makes, [FssOps] for the calls of the
    file server, [IdePorts] with [IdeLaws] for the disk controller, [Hardware] with [IrqHw] and
    [RtcHw] for the registers of the other devices; a client's theorems are proved
    from the laws, and the instances (bio.c over memide.c, log.c over the block cache, small machines
    in memory for the user programs and the controller) discharge them.  The shell forks, so a shell process is a tree of the
    calls it makes, and ShRun.v interleaves such processes in every way, with every answer the kernel can give.

    * Fuel and bounds

    Loops over arrays and ranges take as fuel the number of rounds the range allows
    and the theorems show that it is enough: a theorem that a routine returns ([run], [chl]) is
    false of a routine that runs out.  Loops that sleep until another process acts
    (waiting for a busy buffer, for room in a pipe, for a child) take the number of wakeups as
    fuel; [wp] theorems hold for every such number.  Where a loop spins until another processor acts, or processes interleave, the code is a step relation
    without fuel: [startothers] (Main.v) ends in every fair execution, and every run of the shell's processes (ShRun.v) is finite.

    * What the theorems show

    - Crash safety: a commit is atomic under a crash at any point, recovery is idempotent
      ([commit_atomic], [recovery_idempotent]), and so a write to a file leaves the old or the new
      contents ([file_write_atomic]).  [log_reservation_overflow] shows that three operations of
      ten blocks overrun the log.
    - Files: [writei] and [readi] agree and leave every other inode and file alone ([writei_readi_roundtrip]); [balloc_bfree], [skipelem_components],
      [iget_unique]; the block cache has one buffer for a block and recycles the least recently used one ([bcache_lru]); the IDE
      driver serves its queue in order and wakes each process, which then returns ([ide_fifo]); [filewrite] puts each piece
      in a log operation of its own, failures included ([filewrite_inode]); [fileclose_last].  The image mkfs builds holds
      in its root directory every file it was given, with its bytes ([mkfs_image]), and a kernel
      that starts on it reads them back by name ([first_boot_reads]).  [namex] computes the walk through
      the directories that the path describes ([namex_walk]).
    - Start-up and devices: the boot loader copies and clears what the program headers say and
      enters the kernel ([bootmain_loads]); the other processors start on stacks of their own however
      they interleave, and all of them do if every processor keeps acting ([startothers_stacks]); [mpinit] finds the processors and the I/O controller
      of a well-formed table ([mpinit_survey]) and runs past its array on a long one
      ([mpinit_overrun]); an interrupt that is enabled reaches its processor and vector and the
      others stay masked ([irq_routing]); [cmostime] returns one consistent reading
      ([cmostime_reads]); the scheduler's [proc = p; switchuvm(p)] leaves the processor on the process's kernel stack and page
      table, with segments of the right privilege ([processor_for_process]).
    - Memory: [kalloc] is a stack of pages ([kalloc_refines_stack], [kinit_all_pages]);
      [allocuvm_correct], [copyuvm_correct] for address spaces, shared regions included;
      [allocuvm_unmapped_success] is a failure that is not noticed.
    - Processes: process identifiers stay distinct ([pids_unique]); the scheduler
      is round robin ([scheduler_round_robin]) until a process asks for priority and then gets every turn ([scheduler_priority]);
      spin locks exclude each other on several CPUs ([spinlock_mutual_exclusion]); pipes are bounded
      queues ([pipe_fifo], [pipewrite_safe], [piperead_safe]).
    - Modules 2 and 3: what works ([shm_get_new_region], [initmutex_joins]; [cvsignal] wakes those who called [cvwait] and no
      one else, [cvsignal_wakes]) and
      what does not: two holders of one mutex, sleepers that are not woken, shared regions whose
      address is lost.
    - Module 1: [checkpoint] makes complete backups ([checkpoint_copies]); the paths it needs dangle
      ([fss_write_after_open]).
    - System calls: [argptr_bounds], [fetchstr_correct].
    - Text and console: [printint_atoi]; the console is a line discipline over a wrap-around buffer
      ([console_line_discipline], [kbdintr_typed]).
    - User programs: [match] decides the language of its pattern ([match_regexp]), [grep] selects
      lines ([grep_selects]), [wc] counts ([wc_counts]); the shell's parser always ends
      ([parsecmd_total]) and inverts printing ([parsecmd_roundtrip]), and the shell's processes do, in every
      interleaving, what its lines say, without leaks, and end ([shell_session]); [init] keeps a shell running ([init_keeps_a_shell]); [malloc] and [free] keep disjoint, aligned blocks and lose none ([malloc_free]).

    * Not modelled

    - The assembly files (bootasm.S, entry.S, entryother.S, swtch.S, trapasm.S, vectors.pl, usys.S,
      initcode.S), but for the words entryother.S reads (Main.v).  [consoleinit], [procdump] and [panic]
      only set two pointers, print or stop.
    - The copies of [walkpgdir] and [mappages] at the end of shm.h, which are those of vm.c
      (PageTable.v).
    - The instance of [SysFs] (Sysfile.v) for fs.c and file.c: the calls of sysfile.c are proved
      against the interface, fs.c and file.c against theirs, and the two are not joined.
    - usertests.c, forktest.c, stressfs.c, shmTest.c, shmTest2.c, mxtest.c, prio_test.c,
      fssapplication.c, fsapplication.c: tests.  mutex.c and fileservice.c are not built.
  *)

From stdpp Require Import base tactics option list gmap strings numbers.
From Stdlib Require Import ZArith Lia.

Declare Scope kernel_scope.
Delimit Scope kernel_scope with kernel.
Open Scope Z_scope.
Open Scope list_scope.

(** * Machine integers

    C's [uint], [int], [ushort], [short] and [uchar] are kept as [Z] with the
    wrap-around of each conversion written out. *)

Definition u32 (x : Z) : Z := x mod 2 ^ 32.
Definition s32 (x : Z) : Z := (x + 2 ^ 31) mod 2 ^ 32 - 2 ^ 31.
Definition u16 (x : Z) : Z := x mod 2 ^ 16.
Definition s16 (x : Z) : Z := (x + 2 ^ 15) mod 2 ^ 16 - 2 ^ 15.
Definition u8 (x : Z) : Z := x mod 2 ^ 8.

(** * Effects of kernel code: the resumption monad

    A kernel routine runs on a state [S].  It can return, stop the machine with
    [panic], run into undefined behaviour of C, or reach a point where other
    CPUs and processes can act: taking or dropping a spin lock, sleeping on a
    channel, waking a channel, switching to the scheduler.  At such a point the
    routine publishes its state and continues from the state it finds
    afterwards. *)

Inductive lockid :=
| LK_ptable | LK_kmem | LK_ftable | LK_icache | LK_bcache | LK_log
| LK_ticks | LK_ide | LK_cons | LK_pipe (p : Z).

(** A sleep channel is an address in the C code; the addresses it uses belong to
    distinct objects and fields, one constructor for each. *)
Inductive chan :=
| CH_proc (i : Z) | CH_buf (i : Z) | CH_inode (i : Z) | CH_log | CH_ticks
| CH_nread (p : Z) | CH_nwrite (p : Z) | CH_mxname (g : Z) | CH_mx (g : Z)
| CH_input.

#[export] Instance lockid_eq_dec : EqDecision lockid.
Proof. solve_decision. Defined.
#[export] Instance chan_eq_dec : EqDecision chan.
Proof. solve_decision. Defined.

Inductive event :=
| EAcquire (l : lockid)
| ERelease (l : lockid)
| ESleep (c : chan) (l : lockid)
| EWakeup (c : chan)
| ESwtch.

Inductive prog (S A : Type) : Type :=
| Ret (a : A) (s : S)
| Panic (msg : string)
| Undef (what : string)
| OutOfFuel
| Sync (e : event) (s : S) (k : S -> prog S A).
Arguments Ret {S A} a s.
Arguments Panic {S A} msg.
Arguments Undef {S A} what.
Arguments OutOfFuel {S A}.
Arguments Sync {S A} e s k.

Definition M (S A : Type) : Type := S -> prog S A.

Fixpoint pbind {S A B} (p : prog S A) (f : A -> M S B) : prog S B :=
  match p with
  | Ret a s => f a s
  | Panic m => Panic m
  | Undef m => Undef m
  | OutOfFuel => OutOfFuel
  | Sync e s k => Sync e s (fun s' => pbind (k s') f)
  end.

Definition ret {S A} (a : A) : M S A := fun s => Ret a s.
Definition bind {S A B} (m : M S A) (f : A -> M S B) : M S B :=
  fun s => pbind (m s) f.
Definition panic {S A} (msg : string) : M S A := fun _ => Panic msg.
Definition undef {S A} (what : string) : M S A := fun _ => Undef what.
Definition nofuel {S A} : M S A := fun _ => OutOfFuel.
Definition gets {S A} (f : S -> A) : M S A := fun s => Ret (f s) s.
Definition modify {S} (f : S -> S) : M S unit := fun s => Ret tt (f s).
Definition sync {S} (e : event) : M S unit := fun s => Sync e s (Ret tt).
Definition acquire {S} (l : lockid) : M S unit := sync (EAcquire l).
Definition release {S} (l : lockid) : M S unit := sync (ERelease l).
Definition sleep_on {S} (c : chan) (l : lockid) : M S unit := sync (ESleep c l).
Definition wakeup {S} (c : chan) : M S unit := sync (EWakeup c).
Definition swtch {S} : M S unit := sync ESwtch.
Definition when {S} (b : bool) (m : M S unit) : M S unit :=
  if b then m else ret tt.

Notation "x <- m ;; k" := (bind m (fun x => k))
  (at level 100, m at next level, right associativity) : kernel_scope.
Notation "' p <- m ;; k" := (bind m (fun x => match x with p => k end))
 (at level 20, p pattern, m at level 99, k at level 200) : kernel_scope.
Notation "m ;; k" := (bind m (fun _ => k))
  (at level 100, right associativity) : kernel_scope.
Open Scope kernel_scope.

(** A loop over the elements of a list, in order. *)
Fixpoint for_each {S A} (l : list A) (f : A -> M S unit) : M S unit :=
  match l with
  | [] => ret tt
  | x :: l' => f x ;; for_each l' f
  end.

(** * Running a routine alone

    [run] executes a routine with no other CPU or process acting: locks are
    free, and a sleep or a switch to the scheduler is reported with the state the
    routine left. *)

Inductive res (S A : Type) : Type :=
| ROk (a : A) (s : S)
| RPanic (msg : string)
| RUndef (what : string)
| RBlocked (c : chan) (s : S)
| RSwitched (s : S)
| RFuel.
Arguments ROk {S A} a s.
Arguments RPanic {S A} msg.
Arguments RUndef {S A} what.
Arguments RBlocked {S A} c s.
Arguments RSwitched {S A} s.
Arguments RFuel {S A}.

Fixpoint run {S A} (p : prog S A) : res S A :=
  match p with
  | Ret a s => ROk a s
  | Panic m => RPanic m
  | Undef m => RUndef m
  | OutOfFuel => RFuel
  | Sync (ESleep c _) s _ => RBlocked c s
  | Sync ESwtch s _ => RSwitched s
  | Sync _ s k => run (k s)
  end.

Definition rbind {S A B} (r : res S A) (f : A -> S -> res S B) : res S B :=
  match r with
  | ROk a s => f a s
  | RPanic m => RPanic m
  | RUndef m => RUndef m
  | RBlocked c s => RBlocked c s
  | RSwitched s => RSwitched s
  | RFuel => RFuel
  end.

(** The channels a routine wakes on its way, run alone. *)
Fixpoint signals {S A} (p : prog S A) : list chan :=
  match p with
  | Sync (ESleep _ _) _ _ | Sync ESwtch _ _ => []
  | Sync (EWakeup c) s k => c :: signals (k s)
  | Sync _ s k => signals (k s)
  | _ => []
  end.

(** * Running a routine of a smaller state inside a larger one *)

Section lift.
Context {S T A : Type} (get : T -> S) (put : S -> T -> T).
Fixpoint plift (p : prog S A) (t : T) : prog T A :=
  match p with
  | Ret a s => Ret a (put s t)
  | Panic m => Panic m
  | Undef m => Undef m
  | OutOfFuel => OutOfFuel
  | Sync e s k => Sync e (put s t) (fun t' => plift (k (get t')) t')
  end.
Definition lift (m : M S A) : M T A := fun t => plift (m (get t)) t.
End lift.

(** A component's state inside a larger state. *)
Class Lens (T S : Type) := {
  lget : T -> S;
  lput : S -> T -> T;
  lget_lput : forall s t, lget (lput s t) = s;
  lput_lget : forall t, lput (lget t) t = t;
  lput_lput : forall s s' t, lput s (lput s' t) = lput s t
}.

Definition zoom {T S A} {L : Lens T S} (m : M S A) : M T A := lift lget lput m.

Definition rzoom {T S A} {L : Lens T S} (r : res S A) (t : T) : res T A :=
  match r with
  | ROk a s => ROk a (lput s t)
  | RPanic m => RPanic m
  | RUndef m => RUndef m
  | RBlocked c s => RBlocked c (lput s t)
  | RSwitched s => RSwitched (lput s t)
  | RFuel => RFuel
  end.

(** * Lock protocols and weakest preconditions

    A protocol says what other CPUs and processes may change while the routine
    holds the locks [H] ([rely]) and what holds of the data behind a lock when
    nobody holds it ([linv]).  [wp P H p Q]: started with the locks [H], [p]
    never panics and never runs into undefined behaviour; it runs out of fuel only
    if the protocol is [patient], for loops that sleep until another process acts;
    it takes no lock it already holds (the [panic("acquire")] of
    spinlock.c), drops only locks it holds ([panic("release")]), sleeps with
    exactly the lock it gives up and switches with exactly [ptable.lock]
    ([panic("sched locks")] of proc.c), wakes no one while it holds [ptable.lock], re-establishes a lock's invariant before it
    gives the lock up, and satisfies [Q] when it returns. *)

Record proto (S : Type) := mkProto {
  rely : list lockid -> S -> S -> Prop;
  linv : lockid -> S -> Prop;
  patient : Prop
}.
Arguments mkProto {S} rely linv patient.
Arguments rely {S} p _ _ _.
Arguments linv {S} p _ _.
Arguments patient {S} p.

Definition drop_lock (l : lockid) (H : list lockid) : list lockid :=
  list_difference H [l].

Fixpoint wp {S A} (P : proto S) (H : list lockid) (p : prog S A)
    (Q : A -> S -> list lockid -> Prop) : Prop :=
  match p with
  | Ret a s => Q a s H
  | Panic _ | Undef _ => False
  | OutOfFuel => patient P
  | Sync (EAcquire l) s k =>
      l ∉ H /\ forall s', rely P H s s' -> linv P l s' -> wp P (l :: H) (k s') Q
  | Sync (ERelease l) s k =>
      l ∈ H /\ linv P l s /\
      forall s', rely P (drop_lock l H) s s' -> wp P (drop_lock l H) (k s') Q
  | Sync (ESleep c l) s k =>
      H = [l] /\ linv P l s /\
      forall s', rely P [] s s' -> linv P l s' -> wp P [l] (k s') Q
  | Sync (EWakeup c) s k =>
      LK_ptable ∉ H /\ forall s', rely P H s s' -> wp P H (k s') Q
  | Sync ESwtch s k =>
      H = [LK_ptable] /\ linv P LK_ptable s /\
      forall s', rely P [] s s' -> linv P LK_ptable s' -> wp P [LK_ptable] (k s') Q
  end.

(** * Invariants at every point of interaction

    [pres I p]: [I] holds in every state [p] publishes and in the state it returns,
    provided whatever happens in between re-establishes [I].  A routine that [keeps]
    an invariant keeps it however it is interleaved with others that keep it. *)

Fixpoint pres {S A} (I : S -> Prop) (p : prog S A) : Prop :=
  match p with
  | Ret _ s => I s
  | Panic _ | Undef _ | OutOfFuel => True
  | Sync _ s k => I s /\ forall s', I s' -> pres I (k s')
  end.

Definition keeps {S A} (I : S -> Prop) (m : M S A) : Prop := forall s, I s -> pres I (m s).

(** * Array scans

    [for (i = 0; i < N; i++) if (cond(a[i])) return i;] *)

Fixpoint find_index {A} (f : A -> bool) (l : list A) : option nat :=
  match l with
  | [] => None
  | x :: l' => if f x then Some O else S <$> find_index f l'
  end.

(** [-1] for "not found", as the C code returns it. *)
Definition index_or_m1 (o : option nat) : Z :=
  match o with Some i => Z.of_nat i | None => -1 end.

(** Lookup at an [int] index: [None] outside the array. *)
Definition zlookup {A} (l : list A) (i : Z) : option A :=
  if i <? 0 then None else l !! Z.to_nat i.
Definition zinsert {A} (i : Z) (x : A) (l : list A) : list A :=
  if i <? 0 then l else <[Z.to_nat i := x]> l.

(** * Theorems *)

Section run_lemmas.
Context {S : Type}.

Lemma run_pbind {A B} (p : prog S A) (f : A -> M S B) :
  run (pbind p f) = rbind (run p) (fun a s => run (f a s)).
Proof.
  induction p as [| | | |e s k IH]; simpl; try done.
  destruct e; simpl; auto.
Qed.

Lemma run_bind {A B} (m : M S A) (f : A -> M S B) s :
  run (bind m f s) = rbind (run (m s)) (fun a s' => run (f a s')).
Proof. apply run_pbind. Qed.

Lemma signals_bind {A B} (m : M S A) (f : A -> M S B) s :
  signals (bind m f s) = signals (m s) ++ match run (m s) with ROk a s' => signals (f a s') | _ => [] end.
Proof.
  unfold bind. induction (m s) as [| | | |e t k IH]; simpl; try done.
  destruct e; simpl; rewrite ?IH; done.
Qed.

Lemma run_ret {A} (a : A) (s : S) : run (ret a s) = ROk a s.
Proof. done. Qed.
Lemma run_gets {A} (f : S -> A) s : run (gets f s) = ROk (f s) s.
Proof. done. Qed.
Lemma run_modify (f : S -> S) s : run (modify f s) = ROk tt (f s).
Proof. done. Qed.
Lemma run_acquire l (s : S) : run (acquire l s) = ROk tt s.
Proof. done. Qed.
Lemma run_release l (s : S) : run (release l s) = ROk tt s.
Proof. done. Qed.
Lemma run_wakeup c (s : S) : run (wakeup c s) = ROk tt s.
Proof. done. Qed.
Lemma run_sleep_on c l (s : S) : run (sleep_on c l s) = RBlocked c s.
Proof. done. Qed.
Lemma run_swtch (s : S) : run (swtch s) = RSwitched s.
Proof. done. Qed.
Lemma run_panic {A} msg (s : S) : run (panic (A:=A) msg s) = RPanic msg.
Proof. done. Qed.
Lemma run_undef {A} msg (s : S) : run (undef (A:=A) msg s) = RUndef msg.
Proof. done. Qed.
Lemma run_when (b : bool) (m : M S unit) s :
  run (when b m s) = if b then run (m s) else ROk tt s.
Proof. by destruct b. Qed.

End run_lemmas.

Lemma run_plift {T S A} {L : Lens T S} (p : prog S A) t :
  run (plift lget lput p t) = rzoom (run p) t.
Proof.
  revert t; induction p as [| | | |e s k IH]; intros t; simpl; try done.
  destruct e; simpl; try done;
    rewrite lget_lput, IH; destruct (run (k s)); simpl; by rewrite ?lput_lput.
Qed.

Lemma run_zoom {T S A} {L : Lens T S} (m : M S A) t :
  run (zoom m t) = rzoom (run (m (lget t))) t.
Proof. apply run_plift. Qed.

(** [mstep] runs one operation of a monadic routine; [mrun] as many as it can. *)
Ltac mstep :=
  first
    [ rewrite run_bind | rewrite run_ret | rewrite run_gets | rewrite run_modify
    | rewrite run_acquire | rewrite run_release | rewrite run_wakeup
    | rewrite run_sleep_on | rewrite run_swtch | rewrite run_panic | rewrite run_undef
    | rewrite run_when | rewrite run_zoom ];
  cbn [rbind rzoom].
Ltac mrun := repeat mstep.

Lemma drop_lock_single l : drop_lock l [l] = [].
Proof.
  unfold drop_lock. simpl. destruct (decide_rel _ l [l]) as [|Hn]; [done|].
  exfalso. apply Hn. by left.
Qed.

Section wp_lemmas.
Context {S : Type} (P : proto S).

Lemma wp_mono {A} H (p : prog S A) (Q Q' : A -> S -> list lockid -> Prop) :
  (forall a s H', Q a s H' -> Q' a s H') -> wp P H p Q -> wp P H p Q'.
Proof.
  intros HQ. revert H. induction p as [| | | |e s k IH]; intros H; simpl; auto.
  destruct e; naive_solver.
Qed.

Lemma wp_pbind {A B} H (p : prog S A) (f : A -> M S B) Q :
  wp P H p (fun a s H' => wp P H' (f a s) Q) -> wp P H (pbind p f) Q.
Proof.
  revert H. induction p as [| | | |e s k IH]; intros H; simpl; auto.
  destruct e; naive_solver.
Qed.

Lemma wp_bind {A B} H (m : M S A) (f : A -> M S B) s Q :
  wp P H (m s) (fun a s' H' => wp P H' (f a s') Q) -> wp P H (bind m f s) Q.
Proof. apply wp_pbind. Qed.

End wp_lemmas.

Section keeps_lemmas.
Context {S : Type} (I : S -> Prop).

Lemma pres_bind {A B} (m : M S A) (f : A -> M S B) s :
  pres I (m s) -> (forall a s', I s' -> pres I (f a s')) -> pres I (bind m f s).
Proof.
  unfold bind. induction (m s) as [| | | |e t k IH]; simpl; auto.
  intros [Ht Hk] Hf. split; [done|]. intros s' Hs'. by apply IH; [apply Hk|].
Qed.

Lemma keeps_bind {A B} (m : M S A) (f : A -> M S B) :
  keeps I m -> (forall a, keeps I (f a)) -> keeps I (bind m f).
Proof. intros Hm Hf s Hs. apply pres_bind; [by apply Hm|]. intros a s' Hs'. by apply Hf. Qed.

Lemma keeps_ret {A} (a : A) : keeps I (ret a).
Proof. by intros s Hs. Qed.
Lemma keeps_panic {A} msg : keeps I (panic (A:=A) msg).
Proof. by intros s Hs. Qed.
Lemma keeps_undef {A} msg : keeps I (undef (A:=A) msg).
Proof. by intros s Hs. Qed.
Lemma keeps_nofuel {A} : keeps I (nofuel (A:=A)).
Proof. by intros s Hs. Qed.
Lemma keeps_gets {A} (f : S -> A) : keeps I (gets f).
Proof. by intros s Hs. Qed.
Lemma keeps_modify (f : S -> S) : (forall s, I s -> I (f s)) -> keeps I (modify f).
Proof. intros Hf s Hs. by apply Hf. Qed.
Lemma keeps_sync e : keeps I (sync e).
Proof. by intros s Hs. Qed.
Lemma keeps_when b (m : M S unit) : keeps I m -> keeps I (when b m).
Proof. intros Hm. destruct b; [done|apply keeps_ret]. Qed.
Lemma keeps_for_each {A} (l : list A) (f : A -> M S unit) :
  (forall x, keeps I (f x)) -> keeps I (for_each l f).
Proof. intros Hf. induction l; [apply keeps_ret|]. by apply keeps_bind. Qed.

Lemma pres_plift {T A} {L : Lens S T} (J : T -> Prop) (p : prog T A) :
  (forall s, I s -> J (lget s)) -> (forall t s, I s -> J t -> I (lput t s)) ->
  pres J p -> forall s, I s -> pres I (plift lget lput p s).
Proof.
  intros HJ HI. induction p as [a t| | | |e t k IH]; intros Hp s Hs; simpl in *; auto.
  destruct Hp as [Ht Hk]. split; [by apply HI|]. intros s2 Hs2. apply IH; [|done]. by apply Hk, HJ.
Qed.

(** A routine of a component: [J] is what it keeps of its own state. *)
Lemma keeps_zoom_inv {T A} {L : Lens S T} (J : T -> Prop) (m : M T A) :
  (forall s, I s -> J (lget s)) -> (forall t s, I s -> J t -> I (lput t s)) ->
  keeps J m -> keeps I (zoom m).
Proof. intros HJ HI Hm s Hs. apply (pres_plift J); auto. Qed.

(** A component whose state the invariant does not look at. *)
Lemma keeps_zoom {T A} {L : Lens S T} (m : M T A) :
  (forall t s, I s -> I (lput t s)) -> keeps I (zoom m).
Proof.
  intros HI. apply (keeps_zoom_inv (fun _ => True)); [done|auto|].
  intros t _. induction (m t) as [| | | |e t' k IH]; simpl; auto.
Qed.

End keeps_lemmas.

Create HintDb keeps discriminated.
#[export] Hint Resolve keeps_ret keeps_panic keeps_undef keeps_nofuel keeps_gets keeps_sync
  keeps_when keeps_for_each : keeps.

(** Splits a routine into its operations and discharges the ones that change nothing;
    what remains are the updates. *)
Ltac keeps_split :=
  intros;
  repeat (
    match goal with
    | |- keeps _ (bind _ _) => apply keeps_bind; [|intro]
    | |- keeps _ (acquire _) => apply keeps_sync
    | |- keeps _ (release _) => apply keeps_sync
    | |- keeps _ (sleep_on _ _) => apply keeps_sync
    | |- keeps _ (Prelude.wakeup _) => apply keeps_sync
    | |- keeps _ swtch => apply keeps_sync
    | |- keeps _ (when _ _) => apply keeps_when
    | |- keeps _ (for_each _ _) => apply keeps_for_each; intro
    | |- keeps _ (if ?b then _ else _) => destruct b
    | |- keeps _ (match ?x with _ => _ end) => destruct x
    | |- keeps _ (let _ := _ in _) => cbv zeta
    end || solve [eauto 2 with keeps]).

Lemma filter_ext_elem {A} (P Q : A -> Prop) `{forall x, Decision (P x)} `{forall x, Decision (Q x)} (l : list A) :
  (forall x, x ∈ l -> P x <-> Q x) -> filter P l = filter Q l.
Proof.
  induction l as [|x l IH]; intros E; [done|]. rewrite !filter_cons, IH by set_solver.
  destruct (decide (P x)), (decide (Q x)); naive_solver set_solver.
Qed.

(** ** Array scans *)

Lemma alter_lookup {A} (f : A -> A) i (l : list A) x : l !! i = Some x -> alter f i l = <[i := f x]> l.
Proof.
  intros Hx. apply list_eq. intros j. destruct (decide (i = j)) as [<-|].
  - rewrite list_lookup_alter_eq, Hx, list_lookup_insert_eq; [done|by eapply lookup_lt_Some].
  - by rewrite list_lookup_alter_ne, list_lookup_insert_ne.
Qed.


Lemma find_index_fmap {A B} (g : A -> B) (f : B -> bool) l :
  find_index (fun x => f (g x)) l = find_index f (g <$> l).
Proof. induction l as [|x l IH]; simpl; [done|]. by rewrite IH. Qed.

Lemma find_index_Some {A} (f : A -> bool) l i :
  find_index f l = Some i <->
  (exists x, l !! i = Some x /\ f x = true) /\
  (forall j y, (j < i)%nat -> l !! j = Some y -> f y = false).
Proof.
  revert i. induction l as [|x l IH]; intros i; simpl.
  { split; [done|]. intros [(x & Hx & _) _]. done. }
  destruct (f x) eqn:Hf.
  - split.
    + intros [= <-]. split; [by exists x|]. lia.
    + intros [(y & Hy & Hfy) Hlt]. destruct i as [|i]; [done|].
      specialize (Hlt O x ltac:(lia) eq_refl). congruence.
  - destruct (find_index f l) as [k|] eqn:Hk; simpl.
    + split.
      * intros [= <-]. destruct (proj1 (IH k) eq_refl) as [He Hlt].
        split; [done|]. intros [|j] y Hj; simpl; [congruence|].
        apply Hlt. lia.
      * intros [(y & Hy & Hfy) Hlt]. destruct i as [|i]; [simpl in *; congruence|].
        f_equal. enough (Some k = Some i) by congruence.
        apply IH. split; [by exists y|]. intros j z Hj Hz.
        apply (Hlt (Datatypes.S j) z); [lia|done].
    + split; [done|].
      intros [(y & Hy & Hfy) Hlt]. destruct i as [|i]; [simpl in *; congruence|].
      enough (None = Some i) by done. apply IH. split; [by exists y|].
      intros j z Hj Hz. apply (Hlt (Datatypes.S j) z); [lia|done].
Qed.

Lemma find_index_None {A} (f : A -> bool) l :
  find_index f l = None <-> forall i x, l !! i = Some x -> f x = false.
Proof.
  induction l as [|y l IH]; simpl; [done|].
  destruct (f y) eqn:Hf.
  - split; [done|]. intros Hall. specialize (Hall O y eq_refl). congruence.
  - rewrite fmap_None, IH. split.
    + intros Hall [|i] x; simpl; [congruence|]. apply Hall.
    + intros Hall i x Hi. by apply (Hall (Datatypes.S i)).
Qed.

Lemma find_index_lt {A} (f : A -> bool) l i :
  find_index f l = Some i -> (i < length l)%nat.
Proof.
  intros ((x & Hx & _) & _)%find_index_Some. by eapply lookup_lt_Some.
Qed.

(** ** Machine integers *)

Lemma u32_small x : 0 <= x < 2 ^ 32 -> u32 x = x.
Proof. intros. by apply Z.mod_small. Qed.
Lemma u32_range x : 0 <= u32 x < 2 ^ 32.
Proof. by apply Z.mod_pos_bound. Qed.
Lemma u32_idemp x : u32 (u32 x) = u32 x.
Proof. apply u32_small, u32_range. Qed.
Lemma s32_range x : - 2 ^ 31 <= s32 x < 2 ^ 31.
Proof.
  unfold s32. pose proof (Z.mod_pos_bound (x + 2 ^ 31) (2 ^ 32) ltac:(lia)). lia.
Qed.
Lemma s32_small x : - 2 ^ 31 <= x < 2 ^ 31 -> s32 x = x.
Proof. intros. unfold s32. rewrite Z.mod_small; lia. Qed.
Lemma u8_range x : 0 <= u8 x < 256.
Proof. by apply (Z.mod_pos_bound x 256). Qed.
Lemma u8_small x : 0 <= x < 256 -> u8 x = x.
Proof. intros. by apply (Z.mod_small x 256). Qed.

(** ** Arrays indexed by an [int] *)

Lemma zlookup_lookup {A} (l : list A) (i : Z) x : 0 <= i -> zlookup l i = Some x <-> l !! Z.to_nat i = Some x.
Proof. intros Hi. unfold zlookup. destruct (Z.ltb_spec i 0); [lia|done]. Qed.
Lemma zinsert_nat {A} (i : nat) (x : A) l : zinsert (Z.of_nat i) x l = <[i := x]> l.
Proof. unfold zinsert. destruct (Z.ltb_spec (Z.of_nat i) 0); [lia|]. by rewrite Nat2Z.id. Qed.
Lemma zlookup_nat {A} (i : nat) (l : list A) : zlookup l (Z.of_nat i) = l !! i.
Proof. unfold zlookup. destruct (Z.ltb_spec (Z.of_nat i) 0); [lia|]. by rewrite Nat2Z.id. Qed.
Lemma zlookup_Some_range {A} (l : list A) i x : zlookup l i = Some x -> 0 <= i < Z.of_nat (length l).
Proof. unfold zlookup. destruct (Z.ltb_spec i 0); [done|]. intros ?%lookup_lt_Some. lia. Qed.
Lemma zlookup_in {A} (l : list A) i x : zlookup l i = Some x -> x ∈ l.
Proof. unfold zlookup. destruct (i <? 0); [done|]. apply list_elem_of_lookup_2. Qed.
Lemma zlookup_range_Some {A} (l : list A) i : 0 <= i < Z.of_nat (length l) -> exists x, zlookup l i = Some x.
Proof. intros H. unfold zlookup. destruct (Z.ltb_spec i 0); [lia|]. apply lookup_lt_is_Some. lia. Qed.
Lemma length_zinsert {A} (l : list A) i x : length (zinsert i x l) = length l.
Proof. unfold zinsert. destruct (i <? 0); [done|]. apply length_insert. Qed.
Lemma zlookup_zinsert_eq {A} (l : list A) i x :
  0 <= i < Z.of_nat (length l) -> zlookup (zinsert i x l) i = Some x.
Proof. intros H. unfold zlookup, zinsert. destruct (Z.ltb_spec i 0); [lia|]. apply list_lookup_insert_eq. lia. Qed.
Lemma zlookup_zinsert_ne {A} (l : list A) i j x : i <> j -> zlookup (zinsert i x l) j = zlookup l j.
Proof.
  intros H. unfold zlookup, zinsert. destruct (Z.ltb_spec i 0), (Z.ltb_spec j 0); try done.
  apply list_lookup_insert_ne. lia.
Qed.
Lemma elem_of_zinsert {A} (l : list A) i x y : y ∈ zinsert i x l -> y = x \/ y ∈ l.
Proof.
  unfold zinsert. destruct (i <? 0); [by right|].
  intros (j & Hj)%list_elem_of_lookup. destruct (decide (Z.to_nat i = j)) as [<-|].
  - left. rewrite list_lookup_insert_eq in Hj; [congruence|]. apply lookup_lt_Some in Hj. by rewrite length_insert in Hj.
  - right. rewrite list_lookup_insert_ne in Hj by done. by eapply list_elem_of_lookup_2.
Qed.
Lemma zlookup_zinsert {A} (l : list A) i x y :
  zlookup l i = Some y -> zlookup (zinsert i x l) i = Some x.
Proof.
  unfold zlookup, zinsert. destruct (i <? 0); [done|]. intros H.
  apply list_lookup_insert_eq. by eapply lookup_lt_Some.
Qed.
