(* ===== verification/Pool.v ===== *)
(** Processes that sleep and are woken.

    [run] executes one routine alone.  Here several processes share a state: each runs until it sleeps or returns, and its
    continuation is kept; a wakeup makes the sleepers on the channel ready, and each of them goes on from the state it
    finds when it is its turn.  Which process runs when is up to the caller. *)

From Stdlib Require Import ZArith Lia.
From stdpp Require Import base tactics option list sets.
From S2P Require Import Prelude.

(** Where a routine that is run alone falls asleep: the channel, the state it leaves and its continuation. *)
Fixpoint blocked {S A} (p : prog S A) : option (chan * S * (S -> prog S A)) :=
  match p with
  | Sync (ESleep c _) s k => Some (c, s, k)
  | Sync ESwtch _ _ => None
  | Sync _ s k => blocked (k s)
  | _ => None
  end.

Lemma filter_none {A} (P : A -> Prop) `{forall x, Decision (P x)} (l : list A) : (forall x, x ∈ l -> ~ P x) -> filter P l = [].
Proof. induction l as [|x l IH]; intros HP; [done|]. rewrite filter_cons, decide_False by (apply HP; by left). apply IH. set_solver. Qed.
Lemma filter_all {A} (P : A -> Prop) `{forall x, Decision (P x)} (l : list A) : (forall x, x ∈ l -> P x) -> filter P l = l.
Proof. induction l as [|x l IH]; intros HP; [done|]. rewrite filter_cons, decide_True by (apply HP; by left). f_equal. apply IH. set_solver. Qed.
Lemma delete_nodup {A} `{EqDecision A} (l : list A) n x : NoDup l -> l !! n = Some x -> delete n l = filter (fun y => y <> x) l.
Proof.
  revert n. induction l as [|y l IH]; intros n Hl Hn; [done|]. apply NoDup_cons in Hl as [Hy Hl]. rewrite filter_cons. destruct n as [|n]; cbn in *.
  - injection Hn as ->. rewrite decide_False by naive_solver. rewrite filter_all; [done|]. intros z Hz ->. done.
  - rewrite decide_True by (intros ->; apply Hy; by eapply list_elem_of_lookup_2). f_equal. by apply IH.
Qed.

Section pool.
Context {S : Type}.

Record pool := mkPool {
  shared : S;
  asleep : list (nat * chan * (S -> prog S unit));
  ready : list (nat * (S -> prog S unit));
  returned : list nat
}.

(** [wakeup(c)] *)
Definition wake (c : chan) (y : pool) : pool :=
  mkPool (shared y) (filter (fun x => x.1.2 <> c) (asleep y))
    (ready y ++ ((fun x => (x.1.1, x.2)) <$> filter (fun x => x.1.2 = c) (asleep y))) (returned y).

(** The process [who], or an interrupt handler, runs until it sleeps or returns; a handler must not sleep, and nothing may panic. *)
Fixpoint run_as (who : option nat) (p : prog S unit) (y : pool) : option pool :=
  match p with
  | Ret _ s => Some (mkPool s (asleep y) (ready y) (returned y ++ option_list who))
  | Sync (ESleep c _) s k =>
      match who with
      | Some i => Some (mkPool s (asleep y ++ [(i, c, k)]) (ready y) (returned y))
      | None => None
      end
  | Sync (EWakeup c) s k => run_as who (k s) (wake c y)
  | Sync (EAcquire _) s k | Sync (ERelease _) s k => run_as who (k s) y
  | _ => None
  end.

(** A ready process gets its turn. *)
Definition resume (i : nat) (y : pool) : option pool :=
  match list_find (fun x => x.1 = i) (ready y) with
  | Some (n, (_, k)) => run_as (Some i) (k (shared y)) (mkPool (shared y) (asleep y) (delete n (ready y)) (returned y))
  | None => Some y
  end.

(** ** [run_as] and [run] *)

Definition wakes (cs : list chan) (y : pool) : pool := foldl (fun y c => wake c y) y cs.

Lemma run_as_returns who p y a s : run p = ROk a s ->
  run_as who p y = Some (mkPool s (asleep (wakes (signals p) y)) (ready (wakes (signals p) y)) (returned (wakes (signals p) y) ++ option_list who)).
Proof.
  revert y. induction p as [b t| | | |e t k IH]; intros y; cbn [run]; try done.
  - intros [= _ ->]. done.
  - destruct e; try done; cbn [run_as signals]; intros H; by rewrite IH by done.
Qed.
Lemma run_as_sleeps i p y c s k : blocked p = Some (c, s, k) ->
  run_as (Some i) p y = Some (mkPool s (asleep (wakes (signals p) y) ++ [(i, c, k)]) (ready (wakes (signals p) y)) (returned (wakes (signals p) y))).
Proof.
  revert y. induction p as [b t| | | |e t k' IH]; intros y; cbn [blocked]; try done.
  destruct e; try done; cbn [run_as signals]; intros H; [by rewrite IH by done..| |by rewrite IH by done]. by injection H as -> -> ->.
Qed.
End pool.
Arguments pool S : clear implicits.

(** * Routines that neither sleep nor wake *)

Section calm.
Context {S : Type}.

Definition calm {A} (m : M S A) : Prop := forall s, blocked (m s) = None /\ signals (m s) = [].

Lemma blocked_bind {A B} (m : M S A) (f : A -> M S B) s :
  blocked (bind m f s) =
    match run (m s) with
    | ROk a s' => blocked (f a s')
    | _ => (fun x => (x.1, fun s' => pbind (x.2 s') f)) <$> blocked (m s)
    end.
Proof.
  unfold bind. induction (m s) as [| | | |e t k IH]; simpl; try done.
  destruct e; simpl; try done; apply IH.
Qed.
Lemma blocked_not_ok {A} (p : prog S A) a s : run p = ROk a s -> blocked p = None.
Proof. induction p as [| | | |e t k IH]; simpl; try done. destruct e; try done; apply IH. Qed.

Lemma run_blocked {A} (p : prog S A) c s : run p = RBlocked c s -> exists k, blocked p = Some (c, s, k).
Proof. induction p as [| | | |e t k IH]; simpl; try done. destruct e; try done; first [apply IH | intros [= -> ->]; eauto]. Qed.

Lemma calm_bind {A B} (m : M S A) (f : A -> M S B) : calm m -> (forall a, calm (f a)) -> calm (bind m f).
Proof.
  intros Hm Hf s. destruct (Hm s) as [H1 H2]. rewrite blocked_bind, signals_bind, H1, H2.
  destruct (run (m s)) as [a s'| | | | |]; try done. destruct (Hf a s') as [-> ->]. done.
Qed.
Lemma calm_ret {A} (a : A) : calm (ret a).
Proof. done. Qed.
Lemma calm_panic {A} msg : calm (panic (A := A) msg).
Proof. done. Qed.
Lemma calm_undef {A} msg : calm (undef (A := A) msg).
Proof. done. Qed.
Lemma calm_nofuel {A} : calm (nofuel (A := A)).
Proof. done. Qed.
Lemma calm_gets {A} (f : S -> A) : calm (gets f).
Proof. done. Qed.
Lemma calm_modify (f : S -> S) : calm (modify f).
Proof. done. Qed.
Lemma calm_acquire l : calm (acquire l).
Proof. done. Qed.
Lemma calm_release l : calm (release l).
Proof. done. Qed.
Lemma calm_when b (m : M S unit) : calm m -> calm (when b m).
Proof. by destruct b. Qed.

(** What follows a calm routine. *)
Lemma calm_blocked {A B} (m : M S A) (f : A -> M S B) s x : calm m -> blocked (bind m f s) = Some x ->
  exists a s', run (m s) = ROk a s' /\ blocked (f a s') = Some x /\ signals (bind m f s) = signals (f a s').
Proof.
  intros Hm. destruct (Hm s) as [H1 H2]. rewrite blocked_bind, signals_bind, H1, H2. destruct (run (m s)) as [a s'| | | | |]; try done. eauto.
Qed.
Lemma calm_signals {A B} (m : M S A) (f : A -> M S B) s b s' : calm m -> run (bind m f s) = ROk b s' ->
  exists a s1, run (m s) = ROk a s1 /\ run (f a s1) = ROk b s' /\ signals (bind m f s) = signals (f a s1).
Proof.
  intros Hm. destruct (Hm s) as [_ H2]. rewrite run_bind, signals_bind, H2. destruct (run (m s)) as [a s1| | | | |]; try done. cbn [rbind]. eauto.
Qed.
End calm.

Create HintDb calm discriminated.
#[export] Hint Resolve calm_bind calm_ret calm_panic calm_undef calm_nofuel calm_gets calm_modify calm_acquire calm_release calm_when : calm.

(** Splits a routine into its operations. *)
Ltac calm_split :=
  intros;
  repeat (
    match goal with
    | |- calm (bind _ _) => apply calm_bind; [|intro]
    | |- calm (when _ _) => apply calm_when
    | |- calm (if ?b then _ else _) => destruct b
    | |- calm (match ?x with _ => _ end) => destruct x
    | |- calm (let _ := _ in _) => cbv zeta
    end || solve [eauto 2 with calm]).
