(* ===== verification/Mem.v ===== *)
(** Byte memory and the block routines of string.c.

    Kernel memory is a finite map from addresses to bytes, zero where nothing was
    written.  The x86 string instructions of x86.h ([stosb], [stosl]) and the C
    loops of [memset], [memcmp] and [memmove] (string.c) act on it; the theorems
    give each of them the one-line meaning its callers rely on, overlapping
    copies included.  Addresses do not wrap: a C object never spans address 0. *)

From stdpp Require Import base tactics option list gmap numbers.
From Stdlib Require Import ZArith Lia.
From S2P Require Import Prelude.
Open Scope Z_scope.

(** * Loads and stores *)

Abbreviation mem := (gmap Z Z).

Definition ld8 (m : mem) (a : Z) : Z := u8 (default 0 (m !! a)).
Definition st8 (m : mem) (a v : Z) : mem := <[a := u8 v]> m.

Definition ld32 (m : mem) (a : Z) : Z :=
  ld8 m a + 2 ^ 8 * ld8 m (a + 1) + 2 ^ 16 * ld8 m (a + 2) + 2 ^ 24 * ld8 m (a + 3).
Definition st32 (m : mem) (a v : Z) : mem :=
  st8 (st8 (st8 (st8 m a v) (a + 1) (Z.shiftr v 8)) (a + 2) (Z.shiftr v 16))
    (a + 3) (Z.shiftr v 24).

(** * The string instructions (x86.h) *)

Fixpoint stosb (m : mem) (addr data : Z) (cnt : nat) : mem :=
  match cnt with
  | O => m
  | S k => stosb (st8 m addr data) (addr + 1) data k
  end.

Fixpoint stosl (m : mem) (addr data : Z) (cnt : nat) : mem :=
  match cnt with
  | O => m
  | S k => stosl (st32 m addr data) (addr + 4) data k
  end.

(** * string.c on blocks of memory *)

Definition memset (m : mem) (dst c n : Z) : mem :=
  if (Z.rem (s32 dst) 4 =? 0) && (n mod 4 =? 0) then
    let c := Z.land c 255 in
    stosl m dst
      (Z.lor (Z.lor (Z.lor (Z.shiftl c 24) (Z.shiftl c 16)) (Z.shiftl c 8)) c)
      (Z.to_nat (n / 4))
  else stosb m dst c (Z.to_nat n).

Fixpoint memcmp_loop (m : mem) (s1 s2 : Z) (n : nat) : Z :=
  match n with
  | O => 0
  | S k =>
      if ld8 m s1 =? ld8 m s2 then memcmp_loop m (s1 + 1) (s2 + 1) k
      else ld8 m s1 - ld8 m s2
  end.
Definition memcmp (m : mem) (v1 v2 n : Z) : Z := memcmp_loop m v1 v2 (Z.to_nat n).

(** [while (n-- > 0) *d++ = *s++;] *)
Fixpoint copy_up (m : mem) (d s : Z) (n : nat) : mem :=
  match n with
  | O => m
  | S k => copy_up (st8 m d (ld8 m s)) (d + 1) (s + 1) k
  end.
(** [while (n-- > 0) *--d = *--s;] *)
Fixpoint copy_down (m : mem) (d s : Z) (n : nat) : mem :=
  match n with
  | O => m
  | S k => copy_down (st8 m (d - 1) (ld8 m (s - 1))) (d - 1) (s - 1) k
  end.

Definition memmove (m : mem) (dst src n : Z) : mem :=
  if (src <? dst) && (dst <? src + n) then
    copy_down m (dst + n) (src + n) (Z.to_nat n)
  else copy_up m dst src (Z.to_nat n).

(** Writing a list of bytes, and reading one. *)
Fixpoint st_bytes (m : mem) (a : Z) (bs : list Z) : mem :=
  match bs with
  | [] => m
  | b :: bs' => st_bytes (st8 m a b) (a + 1) bs'
  end.
Definition ld_bytes (m : mem) (a : Z) (n : nat) : list Z :=
  (fun i => ld8 m (a + Z.of_nat i)) <$> seq 0 n.

(** * Theorems *)

Definition in_range (a lo n : Z) : bool := (lo <=? a) && (a <? lo + n).

Lemma in_range_spec a lo n : in_range a lo n = true <-> lo <= a < lo + n.
Proof. unfold in_range. lia. Qed.

(** Decide a memory goal by splitting every address test in sight. *)
Ltac addr_cases :=
  repeat match goal with
  | |- context [in_range ?a ?lo ?n] =>
      let H := fresh "Hr" in
      destruct (in_range a lo n) eqn:H;
      [apply in_range_spec in H | apply not_true_iff_false in H; rewrite in_range_spec in H]
  | |- context [?a =? ?b] => destruct (Z.eqb_spec a b)
  end; try lia; try (f_equal; lia); try done.

Lemma ld8_range m a : 0 <= ld8 m a < 256.
Proof. apply u8_range. Qed.

Lemma u8_ld8 m a : u8 (ld8 m a) = ld8 m a.
Proof. apply u8_small, ld8_range. Qed.

Lemma ld8_st8 m a v b : ld8 (st8 m a v) b = if a =? b then u8 v else ld8 m b.
Proof.
  unfold ld8, st8. rewrite lookup_insert. destruct (Z.eqb_spec a b) as [->|].
  - rewrite decide_True by done. simpl. apply u8_small, u8_range.
  - by rewrite decide_False.
Qed.

Lemma ld8_empty a : ld8 ∅ a = 0.
Proof. unfold ld8. by rewrite lookup_empty. Qed.

Lemma ld8_st32 m a v b :
  ld8 (st32 m a v) b =
    if in_range b a 4 then u8 (Z.shiftr v (8 * (b - a))) else ld8 m b.
Proof.
  unfold st32. rewrite !ld8_st8. addr_cases; subst; try done.
  - replace (8 * (a + 3 - a)) with 24 by lia. done.
  - replace (8 * (a + 2 - a)) with 16 by lia. done.
  - replace (8 * (a + 1 - a)) with 8 by lia. done.
  - replace (8 * (b - b)) with 0 by lia. by rewrite Z.shiftr_0_r.
Qed.

Lemma bytes_of_word v :
  u8 v + 2 ^ 8 * u8 (Z.shiftr v 8) + 2 ^ 16 * u8 (Z.shiftr v 16)
    + 2 ^ 24 * u8 (Z.shiftr v 24) = u32 v.
Proof.
  unfold u8, u32. rewrite !Z.shiftr_div_pow2 by lia.
  Z.div_mod_to_equations; lia.
Qed.

Lemma ld32_range m a : 0 <= ld32 m a < 2 ^ 32.
Proof.
  unfold ld32.
  pose proof (ld8_range m a). pose proof (ld8_range m (a + 1)).
  pose proof (ld8_range m (a + 2)). pose proof (ld8_range m (a + 3)). lia.
Qed.

Lemma u32_ld32 m a : u32 (ld32 m a) = ld32 m a.
Proof. apply u32_small, ld32_range. Qed.

(** A word depends on its four bytes only. *)
Lemma ld32_ext m m' a a' :
  (forall i, 0 <= i < 4 -> ld8 m (a + i) = ld8 m' (a' + i)) -> ld32 m a = ld32 m' a'.
Proof.
  intros E. unfold ld32.
  pose proof (E 0 ltac:(lia)) as E0. rewrite !Z.add_0_r in E0.
  by rewrite E0, !E by lia.
Qed.

Lemma ld32_st32_eq m a v : ld32 (st32 m a v) a = u32 v.
Proof.
  rewrite <- bytes_of_word. unfold ld32. rewrite !ld8_st32. addr_cases.
  replace (8 * (a - a)) with 0 by lia.
  replace (8 * (a + 1 - a)) with 8 by lia.
  replace (8 * (a + 2 - a)) with 16 by lia.
  replace (8 * (a + 3 - a)) with 24 by lia.
  by rewrite Z.shiftr_0_r.
Qed.

Lemma ld32_st32_ne m a b v : a + 4 <= b \/ b + 4 <= a -> ld32 (st32 m a v) b = ld32 m b.
Proof. intros D. apply ld32_ext. intros i Hi. rewrite ld8_st32. addr_cases. Qed.

Lemma ld8_stosb m dst c n a :
  ld8 (stosb m dst c n) a = if in_range a dst (Z.of_nat n) then u8 c else ld8 m a.
Proof.
  revert m dst. induction n as [|n IH]; intros m dst; cbn [stosb].
  - addr_cases.
  - rewrite IH, ld8_st8. addr_cases.
Qed.

Lemma ld8_stosl m dst w n a :
  ld8 (stosl m dst w n) a =
    if in_range a dst (4 * Z.of_nat n)
    then u8 (Z.shiftr w (8 * ((a - dst) mod 4))) else ld8 m a.
Proof.
  revert m dst. induction n as [|n IH]; intros m dst; cbn [stosl].
  - addr_cases.
  - rewrite IH, ld8_st32. addr_cases.
    + f_equal. f_equal. f_equal.
      replace (a - (dst + 4)) with (a - dst + (-1) * 4) by lia. by rewrite Z.mod_add.
    + f_equal. f_equal. f_equal. rewrite Z.mod_small; lia.
Qed.

Lemma splat_byte c k :
  0 <= c < 256 -> 0 <= k < 4 ->
  u8 (Z.shiftr (Z.lor (Z.lor (Z.lor (Z.shiftl c 24) (Z.shiftl c 16)) (Z.shiftl c 8)) c)
        (8 * k)) = c.
Proof.
  intros Hc Hk. unfold u8. rewrite <- (Z.land_ones _ 8) by lia.
  apply Z.bits_inj'. intros i Hi.
  rewrite Z.land_spec, Z.shiftr_spec, !Z.lor_spec, !Z.shiftl_spec by lia.
  assert (forall j, 8 <= j -> Z.testbit c j = false) as Hhi.
  { intros j Hj. destruct (decide (c = 0)) as [->|]; [by rewrite Z.bits_0|].
    apply Z.bits_above_log2; [lia|]. apply Z.log2_lt_pow2; [lia|].
    apply Z.lt_le_trans with (2 ^ 8); [simpl; lia|]. by apply Z.pow_le_mono_r. }
  destruct (decide (i < 8)).
  - rewrite Z.ones_spec_low, andb_true_r by lia.
    assert (k = 0 \/ k = 1 \/ k = 2 \/ k = 3) as [->|[->|[->| ->]]] by lia; simpl;
      rewrite ?(Hhi (i + _)) by lia;
      repeat match goal with
      | |- context [Z.testbit c (i + ?x - ?y)] =>
          first [ rewrite (Z.testbit_neg_r c (i + x - y)) by lia
                | rewrite (Hhi (i + x - y)) by lia
                | replace (i + x - y) with i by lia ]
      end; rewrite ?Z.add_0_r, ?orb_false_r; try done; by destruct (Z.testbit c i).
  - rewrite Z.ones_spec_high, andb_false_r by lia. symmetry. apply Hhi. lia.
Qed.

(** [memset] fills exactly [n] bytes with [c], whichever instruction it picks. *)
Lemma ld8_memset m dst c n a :
  0 <= n ->
  ld8 (memset m dst c n) a = if in_range a dst n then u8 c else ld8 m a.
Proof.
  intros Hn. unfold memset.
  destruct ((Z.rem (s32 dst) 4 =? 0) && (n mod 4 =? 0)) eqn:E.
  - apply andb_true_iff in E as [_ E]. apply Z.eqb_eq in E.
    rewrite ld8_stosl.
    replace (4 * Z.of_nat (Z.to_nat (n / 4))) with n
      by (Z.div_mod_to_equations; lia).
    addr_cases. rewrite splat_byte.
    + unfold u8. change 255 with (Z.ones 8). by rewrite Z.land_ones.
    + change 255 with (Z.ones 8). rewrite Z.land_ones by lia.
      apply (Z.mod_pos_bound c (2 ^ 8)). lia.
    + apply (Z.mod_pos_bound _ 4). lia.
  - rewrite ld8_stosb, Z2Nat.id by lia. done.
Qed.

Lemma ld32_memset_out m dst c n a :
  0 <= n -> a + 4 <= dst \/ dst + n <= a -> ld32 (memset m dst c n) a = ld32 m a.
Proof.
  intros Hn D. apply ld32_ext. intros i Hi. rewrite ld8_memset by done. addr_cases.
Qed.

Lemma ld32_memset_0 m dst n a :
  0 <= n -> dst <= a -> a + 4 <= dst + n -> ld32 (memset m dst 0 n) a = 0.
Proof.
  intros Hn H1 H2. unfold ld32. rewrite !ld8_memset by done. addr_cases.
Qed.

Lemma ld8_copy_up m d s n a :
  d <= s \/ s + Z.of_nat n <= d ->
  ld8 (copy_up m d s n) a = if in_range a d (Z.of_nat n) then ld8 m (s + (a - d)) else ld8 m a.
Proof.
  revert m d s. induction n as [|n IH]; intros m d s D; cbn [copy_up].
  - addr_cases.
  - rewrite IH by lia. rewrite !ld8_st8, u8_ld8. addr_cases.
Qed.

Lemma ld8_copy_down m d s n a :
  s <= d \/ d + Z.of_nat n <= s ->
  ld8 (copy_down m d s n) a =
    if in_range a (d - Z.of_nat n) (Z.of_nat n) then ld8 m (s + (a - d)) else ld8 m a.
Proof.
  revert m d s. induction n as [|n IH]; intros m d s D; cbn [copy_down].
  - addr_cases.
  - rewrite IH by lia. rewrite !ld8_st8, u8_ld8. addr_cases.
Qed.

(** [memmove] copies the old contents of the source, also when the blocks
    overlap, and changes nothing else. *)
Lemma ld8_memmove m dst src n a :
  0 <= n ->
  ld8 (memmove m dst src n) a = if in_range a dst n then ld8 m (src + (a - dst)) else ld8 m a.
Proof.
  intros Hn. unfold memmove.
  destruct ((src <? dst) && (dst <? src + n)) eqn:E.
  - rewrite ld8_copy_down by lia. addr_cases.
  - rewrite ld8_copy_up by lia. addr_cases.
Qed.

Lemma ld8_st_bytes m a bs b :
  ld8 (st_bytes m a bs) b =
    if in_range b a (Z.of_nat (length bs))
    then u8 (default 0 (bs !! Z.to_nat (b - a))) else ld8 m b.
Proof.
  revert m a. induction bs as [|x bs IH]; intros m a; cbn [st_bytes length].
  - addr_cases.
  - rewrite IH, ld8_st8. addr_cases.
    + replace (Z.to_nat (b - a)) with (S (Z.to_nat (b - (a + 1)))) by lia. done.
    + subst. by rewrite Z.sub_diag.
Qed.

Lemma length_ld_bytes m a n : length (ld_bytes m a n) = n.
Proof. unfold ld_bytes. by rewrite length_fmap, length_seq. Qed.

Lemma lookup_ld_bytes m a n i :
  (i < n)%nat -> ld_bytes m a n !! i = Some (ld8 m (a + Z.of_nat i)).
Proof. intros Hi. unfold ld_bytes. by rewrite list_lookup_fmap, lookup_seq_lt. Qed.

Lemma ld_bytes_ext m m' a a' n :
  (forall i, 0 <= i < Z.of_nat n -> ld8 m (a + i) = ld8 m' (a' + i)) ->
  ld_bytes m a n = ld_bytes m' a' n.
Proof.
  intros E. apply list_fmap_ext. intros i j Hj.
  apply lookup_seq in Hj as [-> Hj]. apply E. lia.
Qed.

(** Bytes written are bytes read back. *)
Lemma ld_st_bytes m a bs :
  Forall (fun b => 0 <= b < 256) bs -> ld_bytes (st_bytes m a bs) a (length bs) = bs.
Proof.
  intros Hb. apply list_eq_same_length with (n := length bs);
    [done | apply length_ld_bytes |].
  intros i x y Hi Hx Hy.
  rewrite lookup_ld_bytes in Hx by done. injection Hx as <-.
  rewrite ld8_st_bytes. addr_cases.
  replace (Z.to_nat (a + Z.of_nat i - a)) with i by lia. rewrite Hy. simpl.
  apply u8_small. by eapply Forall_lookup_1 in Hb.
Qed.

(** [memcmp] is zero exactly on equal blocks. *)
Lemma memcmp_loop_0 m s1 s2 n :
  memcmp_loop m s1 s2 n = 0 <->
  forall i, 0 <= i < Z.of_nat n -> ld8 m (s1 + i) = ld8 m (s2 + i).
Proof.
  revert s1 s2. induction n as [|n IH]; intros s1 s2; cbn [memcmp_loop].
  - split; [lia|done].
  - destruct (Z.eqb_spec (ld8 m s1) (ld8 m s2)) as [E|E].
    + rewrite IH. split.
      * intros Hall i Hi. destruct (decide (i = 0)) as [->|]; [by rewrite !Z.add_0_r|].
        replace (s1 + i) with (s1 + 1 + (i - 1)) by lia.
        replace (s2 + i) with (s2 + 1 + (i - 1)) by lia. apply Hall. lia.
      * intros Hall i Hi.
        replace (s1 + 1 + i) with (s1 + (i + 1)) by lia.
        replace (s2 + 1 + i) with (s2 + (i + 1)) by lia. apply Hall. lia.
    + split; [lia|]. intros Hall. specialize (Hall 0 ltac:(lia)).
      rewrite !Z.add_0_r in Hall. lia.
Qed.

Arguments ld8 : simpl never.
Arguments st8 : simpl never.
Arguments ld32 : simpl never.
Arguments st32 : simpl never.
Arguments stosb : simpl never.
Arguments stosl : simpl never.
Arguments memset : simpl never.
Arguments memmove : simpl never.
Arguments memcmp : simpl never.
