(* ===== verification/CString.v ===== *)
(** C strings: the [str*] routines of string.c (kernel) and ulib.c (user).

    A [char *] that is read is the list of bytes found from it on, with a NUL
    after the last one listed; a [char] array that is written is a list of its
    full length.  [cstr n s] is the text a reader limited to [n] bytes sees. *)

From stdpp Require Import base tactics option list sets numbers.
From Stdlib Require Import ZArith Lia.
From S2P Require Import Prelude.
Open Scope Z_scope.

Definition first_char (s : list Z) : Z := default 0 (head s).

(** * string.c *)

Fixpoint strncmp_loop (p q : list Z) (n : nat) : Z :=
  match n with
  | O => 0
  | S k =>
      if negb (first_char p =? 0) && (first_char p =? first_char q)
      then strncmp_loop (tail p) (tail q) k
      else u8 (first_char p) - u8 (first_char q)
  end.
Definition strncmp (p q : list Z) (n : Z) : Z := strncmp_loop p q (Z.to_nat n).

(** [while (n-- > 0 && ( *s++ = *t++ ) != 0);] from index [j] of the array: the index
    reached and the array. *)
Fixpoint copy_chars (n j : nat) (t dst : list Z) : nat * list Z :=
  match n with
  | O => (j, dst)
  | S k =>
      let c := first_char t in
      let dst := <[j := c]> dst in
      if c =? 0 then (S j, dst) else copy_chars k (S j) (tail t) dst
  end.

(** [while (n-- > 0) *s++ = 0;] *)
Fixpoint zero_chars (n j : nat) (dst : list Z) : list Z :=
  match n with
  | O => dst
  | S k => zero_chars k (S j) (<[j := 0]> dst)
  end.

Definition strncpy (s t : list Z) (n : Z) : list Z :=
  let '(j, d) := copy_chars (Z.to_nat n) 0 t s in
  zero_chars (Z.to_nat n - j) j d.

Definition safestrcpy (s t : list Z) (n : Z) : list Z :=
  if n <=? 0 then s else
  let '(j, d) := copy_chars (Z.to_nat (n - 1)) 0 t s in
  <[j := 0]> d.

Fixpoint strlen (s : list Z) : Z :=
  match s with
  | [] => 0
  | c :: s' => if c =? 0 then 0 else 1 + strlen s'
  end.

(** * ulib.c *)

Fixpoint strcmp (p q : list Z) : Z :=
  match p with
  | [] => u8 0 - u8 (first_char q)
  | c :: p' =>
      if negb (c =? 0) && (c =? first_char q) then strcmp p' (tail q)
      else u8 c - u8 (first_char q)
  end.

(** The suffix that starts at the first [c], [None] for the null pointer. *)
Fixpoint strchr (s : list Z) (c : Z) : option (list Z) :=
  match s with
  | [] => None
  | x :: s' => if x =? 0 then None else if x =? c then Some s else strchr s' c
  end.

Fixpoint atoi_loop (s : list Z) (n : Z) : Z :=
  match s with
  | [] => n
  | c :: s' =>
      if (48 <=? c) && (c <=? 57) then atoi_loop s' (s32 (n * 10 + c - 48)) else n
  end.
Definition atoi (s : list Z) : Z := atoi_loop s 0.

(** * Theorems *)

(** The text of at most [n] bytes at [s]. *)
Fixpoint cstr (n : nat) (s : list Z) : list Z :=
  match n, s with
  | S k, c :: s' => if c =? 0 then [] else c :: cstr k s'
  | _, _ => []
  end.

(** A C string: no byte is NUL. *)
Definition is_text (p : list Z) : Prop := Forall (fun c => c <> 0) p.

(** The parts of a text between separators, empty parts left out; [cur] is what the part at the
    front has already. *)
Definition emit (cur : list Z) (l : list (list Z)) : list (list Z) := if decide (cur = []) then l else cur :: l.
Fixpoint parts_by (sep : Z -> bool) (cur p : list Z) : list (list Z) :=
  match p with
  | [] => emit cur []
  | c :: p' => if sep c then emit cur (parts_by sep [] p') else parts_by sep (cur ++ [c]) p'
  end.

Definition bytes (s : list Z) : Prop := Forall (fun c => 0 <= c < 256) s.

Lemma bytes_first s : bytes s -> 0 <= first_char s < 256.
Proof. intros H. destruct s; [done|]. by inversion H. Qed.

Lemma bytes_tail s : bytes s -> bytes (tail s).
Proof. intros H. destruct s; [done|]. by inversion H. Qed.

Lemma cstr_S n s :
  cstr (S n) s = if first_char s =? 0 then [] else first_char s :: cstr n (tail s).
Proof. by destruct s. Qed.

Lemma length_cstr n s : (length (cstr n s) <= n)%nat.
Proof.
  revert s. induction n as [|n IH]; intros s; [done|].
  rewrite cstr_S. destruct (first_char s =? 0); simpl; [lia|]. specialize (IH (tail s)). lia.
Qed.

Lemma cstr_nonzero n s c : c ∈ cstr n s -> c <> 0.
Proof.
  revert s. induction n as [|n IH]; intros s; [set_solver|].
  rewrite cstr_S. destruct (Z.eqb_spec (first_char s) 0); [set_solver|].
  intros [->|Hin]%elem_of_cons; [done|by eapply IH].
Qed.

(** The text is all of a string that fits. *)
Lemma cstr_all n s : (forall c, c ∈ s -> c <> 0) -> (length s <= n)%nat -> cstr n s = s.
Proof.
  revert s. induction n as [|n IH]; intros [|c s] Hs Hn; simpl in *; try done; [lia|].
  destruct (Z.eqb_spec c 0); [exfalso; set_solver|]. f_equal. apply IH; [set_solver|lia].
Qed.

(** [strncmp] is zero exactly when the two texts of at most [n] bytes agree. *)
Lemma strncmp_0 p q n :
  bytes p -> bytes q ->
  strncmp p q n = 0 <-> cstr (Z.to_nat n) p = cstr (Z.to_nat n) q.
Proof.
  unfold strncmp. generalize (Z.to_nat n) as k. intros k. revert p q.
  induction k as [|k IH]; intros p q Hp Hq; [done|].
  rewrite !cstr_S. cbn [strncmp_loop].
  pose proof (bytes_first p Hp). pose proof (bytes_first q Hq).
  destruct (Z.eqb_spec (first_char p) 0) as [E|E]; simpl.
  - rewrite !u8_small by lia. destruct (Z.eqb_spec (first_char q) 0); split; try done; lia.
  - destruct (Z.eqb_spec (first_char p) (first_char q)) as [E'|E'].
    + rewrite <- E'. destruct (Z.eqb_spec (first_char p) 0); [done|].
      rewrite IH by (by apply bytes_tail). split; congruence.
    + rewrite !u8_small by lia.
      destruct (Z.eqb_spec (first_char q) 0); split; try lia; try done. congruence.
Qed.

Lemma length_copy_chars n j t dst :
  length (snd (copy_chars n j t dst)) = length dst.
Proof.
  revert j t dst. induction n as [|n IH]; intros j t dst; cbn [copy_chars]; [done|].
  destruct (first_char t =? 0); simpl; [by rewrite length_insert|].
  by rewrite IH, length_insert.
Qed.

Lemma length_zero_chars n j dst : length (zero_chars n j dst) = length dst.
Proof.
  revert j dst. induction n as [|n IH]; intros j dst; cbn [zero_chars]; [done|].
  by rewrite IH, length_insert.
Qed.

(** What [copy_chars] leaves: the text of [t], its NUL if there was room, and the
    rest of the array as it was. *)
Lemma copy_chars_spec n t pre dst :
  (n <= length dst)%nat ->
  copy_chars n (length pre) t (pre ++ dst) =
    let txt := cstr n t in
    if decide (length txt < n)%nat
    then ((length pre + S (length txt))%nat,
          pre ++ txt ++ 0 :: drop (S (length txt)) dst)
    else ((length pre + n)%nat, pre ++ txt ++ drop n dst).
Proof.
  revert t pre dst. induction n as [|n IH]; intros t pre dst Hn.
  { simpl. rewrite Nat.add_0_r, drop_0. done. }
  destruct dst as [|d dst]; [simpl in Hn; lia|].
  cbn [copy_chars]. rewrite cstr_S.
  rewrite insert_app_r_alt, Nat.sub_diag by done. simpl.
  destruct (Z.eqb_spec (first_char t) 0) as [->|E]; simpl.
  - rewrite drop_0. do 2 f_equal. lia.
  - specialize (IH (tail t) (pre ++ [first_char t]) dst ltac:(simpl in Hn; lia)).
    rewrite <- app_assoc in IH. simpl in IH.
    rewrite length_app, Nat.add_1_r in IH. rewrite IH. simpl.
    destruct (decide (length (cstr n (tail t)) < n)%nat);
      destruct (decide (S (length (cstr n (tail t))) < S n)%nat); try lia;
      f_equal; try lia; rewrite <- app_assoc; done.
Qed.

(** [safestrcpy] writes the text cut to [n - 1] bytes and a NUL, inside the array,
    so a reader of the array sees that text. *)
Lemma cstr_app_nul k s tl :
  (forall c, c ∈ s -> c <> 0) -> (length s < k)%nat -> cstr k (s ++ 0 :: tl) = s.
Proof.
  revert s. induction k as [|k IH]; intros s Hs Hk; [lia|].
  destruct s as [|c s]; [done|]. simpl. simpl in Hk.
  destruct (Z.eqb_spec c 0); [exfalso; set_solver|].
  f_equal. apply IH; [set_solver|lia].
Qed.

Lemma safestrcpy_text s t n :
  0 < n <= Z.of_nat (length s) ->
  length (safestrcpy s t n) = length s /\
  cstr (Z.to_nat n) (safestrcpy s t n) = cstr (Z.to_nat (n - 1)) t.
Proof.
  intros Hn. unfold safestrcpy. destruct (Z.leb_spec n 0); [lia|].
  replace (Z.to_nat n) with (S (Z.to_nat (n - 1))) by lia.
  set (k := Z.to_nat (n - 1)). assert (k < length s)%nat as Hk by lia.
  pose proof (copy_chars_spec k t [] s ltac:(lia)) as E. simpl in E. rewrite E. clear E.
  pose proof (length_cstr k t) as Hl. pose proof (cstr_nonzero k t) as Hz.
  set (txt := cstr k t) in *.
  assert (exists tl, s = take (length txt) s ++ tl /\ (0 < length tl)%nat) as (tl & _ & _).
  { exists (drop (length txt) s). rewrite take_drop, length_drop. split; [done|lia]. }
  destruct (decide (length txt < k)%nat) as [Hlt|Hge]; simpl.
  - split.
    + rewrite length_insert, length_app. simpl. rewrite length_drop. lia.
    + rewrite insert_app_r_alt by lia.
      replace (S (length txt) - length txt)%nat with 1%nat by lia. simpl.
      apply (cstr_app_nul (S k)); [done|lia].
  - assert (length txt = k) as Ek by lia.
    destruct (drop k s) as [|d rest] eqn:Ed.
    { apply (f_equal length) in Ed. rewrite length_drop in Ed. simpl in Ed. lia. }
    split.
    + rewrite length_insert, length_app, <- Ed, length_drop. lia.
    + rewrite insert_app_r_alt by lia. rewrite Ek, Nat.sub_diag. simpl.
      apply (cstr_app_nul (S k)); [done|lia].
Qed.

Lemma zero_chars_spec n pre dst :
  (n <= length dst)%nat ->
  zero_chars n (length pre) (pre ++ dst) = pre ++ replicate n 0 ++ drop n dst.
Proof.
  revert pre dst. induction n as [|n IH]; intros pre dst Hn; [by rewrite drop_0|].
  destruct dst as [|d dst]; simpl in Hn; [lia|]. cbn [zero_chars].
  rewrite insert_app_r_alt, Nat.sub_diag by done. simpl.
  specialize (IH (pre ++ [0]) dst ltac:(lia)).
  rewrite length_app, Nat.add_1_r, <- !app_assoc in IH. simpl in IH. exact IH.
Qed.

(** [strncpy] writes exactly [n] bytes: the text, padded with NULs. *)
Lemma strncpy_spec s t n :
  0 <= n <= Z.of_nat (length s) ->
  let txt := cstr (Z.to_nat n) t in
  strncpy s t n =
    txt ++ replicate (Z.to_nat n - length txt) 0 ++ drop (Z.to_nat n) s.
Proof.
  intros Hn txt. unfold strncpy. set (k := Z.to_nat n) in *.
  pose proof (copy_chars_spec k t [] s ltac:(lia)) as E. simpl in E. rewrite E. clear E.
  pose proof (length_cstr k t) as Hl. fold txt in Hl. fold txt.
  destruct (decide (length txt < k)%nat) as [Hlt|Hge]; simpl.
  - replace (txt ++ 0 :: drop (S (length txt)) s)
      with ((txt ++ [0]) ++ drop (S (length txt)) s) by (by rewrite <- app_assoc).
    replace (S (length txt)) with (length (txt ++ [0])) at 2
      by (rewrite length_app; simpl; lia).
    rewrite zero_chars_spec by (rewrite length_drop; lia).
    rewrite <- app_assoc. f_equal. simpl.
    replace (k - length txt)%nat with (S (k - S (length txt))) by lia. simpl.
    f_equal. f_equal. rewrite drop_drop. f_equal. lia.
  - replace (k - k)%nat with O by lia. replace (k - length txt)%nat with O by lia. done.
Qed.

Lemma strlen_cstr s n : (length s <= n)%nat -> strlen s = Z.of_nat (length (cstr n s)).
Proof.
  revert n. induction s as [|c s IH]; intros n Hn; [by destruct n|].
  destruct n as [|n]; simpl in *; [lia|].
  destruct (c =? 0); [done|]. simpl. rewrite (IH n) by lia. lia.
Qed.

(** [strchr] finds the first occurrence before the NUL. *)
Lemma strchr_Some s c r :
  strchr s c = Some r <->
  exists pre tl, s = pre ++ c :: tl /\ r = c :: tl /\ c <> 0 /\ 0 ∉ pre /\ c ∉ pre.
Proof.
  induction s as [|x s IH]; simpl.
  { split; [done|]. intros (pre & tl & E & _). by destruct pre. }
  destruct (Z.eqb_spec x 0) as [->|Hx].
  { split; [done|]. intros (pre & tl & E & _ & Hc & H0 & _).
    destruct pre; simplify_eq/=. exfalso. set_solver. }
  destruct (Z.eqb_spec x c) as [->|Hxc].
  - split.
    + intros [= <-]. exists [], s. set_solver.
    + intros (pre & tl & E & -> & Hc & H0 & Hp). destruct pre; simplify_eq/=; [done|].
      exfalso. set_solver.
  - rewrite IH. split.
    + intros (pre & tl & -> & -> & Hc & H0 & Hp). exists (x :: pre), tl. set_solver.
    + intros (pre & tl & E & -> & Hc & H0 & Hp). destruct pre as [|y pre]; simplify_eq/=.
      exists pre, tl. set_solver.
Qed.
Lemma strchr_None s c : is_text s -> strchr s c = None -> c ∉ s.
Proof.
  intros Ht. induction Ht as [|x s Hx Hs IH]; cbn [strchr]; [set_solver|].
  destruct (Z.eqb_spec x 0); [done|]. destruct (Z.eqb_spec x c); [done|]. intros E. apply not_elem_of_cons. split; [congruence|by apply IH].
Qed.
