(* ===== verification/Ulib.v ===== *)
(** The memory and copying routines of ulib.c, and [memcpy] of string.c.

    User programs link these instead of the routines of the kernel.  [memset] agrees with the kernel's
    on every byte; [memmove] copies upwards only, and so agrees with the kernel's only when the
    destination is not above the source within the range. *)

From Stdlib Require Import ZArith Lia.
From stdpp Require Import base tactics option gmap numbers list.
From S2P Require Import Prelude Mem CString.
Open Scope Z_scope.

(** [while (( *s++ = *t++) != 0);] into the array [s], which the source must fit in. *)
Definition strcpy (s t : list Z) : list Z := (copy_chars (S (length t)) 0 t s).2.
(** [for (n = 0; s[n]; n++);] *)
Fixpoint strlen_loop (s : list Z) (n : Z) : Z :=
  match s with
  | [] => n
  | c :: s => if c =? 0 then n else strlen_loop s (n + 1)
  end.
Definition ustrlen (s : list Z) : Z := strlen_loop s 0.
Definition umemset (m : mem) (dst c n : Z) : mem := stosb m dst c (Z.to_nat n).
Definition umemmove (m : mem) (vdst vsrc n : Z) : mem := copy_up m vdst vsrc (Z.to_nat n).
Definition memcpy (m : mem) (dst src n : Z) : mem := memmove m dst src n.

(** * Theorems *)

Lemma strcpy_text s t : is_text t -> (length t < length s)%nat -> strcpy s t = t ++ 0 :: drop (S (length t)) s.
Proof.
  intros Ht Hl. unfold strcpy. pose proof (copy_chars_spec (S (length t)) t [] s ltac:(lia)) as E. cbn [length app] in E. rewrite E. cbv zeta.
  rewrite cstr_all by (try lia; intros c Hc; unfold is_text in Ht; rewrite Forall_forall in Ht; by apply Ht). by rewrite decide_True by lia.
Qed.

Lemma ustrlen_strlen s : ustrlen s = strlen s.
Proof.
  unfold ustrlen. assert (forall n, strlen_loop s n = n + strlen s) as E; [|rewrite E; lia].
  induction s as [|c s IH]; intros n; cbn [strlen_loop strlen]; [lia|]. destruct (c =? 0); [lia|]. rewrite IH. lia.
Qed.

(** Both write the byte [c] over the range. *)
Lemma umemset_spec m dst c n a : 0 <= n -> ld8 (umemset m dst c n) a = if in_range a dst n then u8 c else ld8 m a.
Proof. intros Hn. unfold umemset. by rewrite ld8_stosb, Z2Nat.id by lia. Qed.

Theorem umemmove_memmove m dst src n a :
  0 <= n -> dst <= src \/ src + n <= dst -> ld8 (umemmove m dst src n) a = ld8 (memmove m dst src n) a.
Proof. intros Hn Hd. unfold umemmove. by rewrite ld8_copy_up, ld8_memmove, Z2Nat.id by (rewrite ?Z2Nat.id; lia). Qed.

(** A range moved up by one byte: the kernel's routine moves it, that of user programs repeats its first byte. *)
Example umemmove_overlap : let m := st_bytes ∅ 0 [1; 2; 3] in
  ld_bytes (memmove m 1 0 3) 0 4 = [1; 1; 2; 3] /\ ld_bytes (umemmove m 1 0 3) 0 4 = [1; 1; 1; 1].
Proof. split; vm_compute; reflexivity. Qed.
