(* ===== verification/Layout.v ===== *)
(** Address-space layout and page-table arithmetic: memlayout.h, mmu.h and the
    limits of param.h.

    The macros are kept as the bit expressions of the headers; the theorems give
    them as quotients and remainders and show that an address is recovered from
    its directory index, table index and offset. *)

From stdpp Require Import base tactics numbers.
From Stdlib Require Import ZArith Lia.
From S2P Require Import Prelude.
Open Scope Z_scope.

(** * param.h *)

Definition NPROC : Z := 64.
Definition KSTACKSIZE : Z := 4096.
Definition NOFILE : Z := 16.
Definition NFILE : Z := 100.
Definition NINODE : Z := 50.
Definition NDEV : Z := 10.
Definition ROOTDEV : Z := 1.
Definition MAXARG : Z := 32.
Definition MAXOPBLOCKS : Z := 10.
Definition LOGSIZE : Z := MAXOPBLOCKS * 3.
Definition NBUF : Z := MAXOPBLOCKS * 3.
Definition FSSIZE : Z := 1000.
Definition SHM_MAXNUM : Z := NPROC / 2.
Definition MUX_MAXNUM : Z := 10.

(** * memlayout.h *)

Definition EXTMEM : Z := 0x100000.
Definition PHYSTOP : Z := 0xE000000.
Definition DEVSPACE : Z := 0xFE000000.
Definition KERNBASE : Z := 0x80000000.
Definition KERNLINK : Z := KERNBASE + EXTMEM.

Definition v2p (a : Z) : Z := u32 (a - KERNBASE).
Definition p2v (a : Z) : Z := u32 (a + KERNBASE).

(** * mmu.h *)

Definition NPDENTRIES : Z := 1024.
Definition NPTENTRIES : Z := 1024.
Definition PGSIZE : Z := 4096.
Definition PTXSHIFT : Z := 12.
Definition PDXSHIFT : Z := 22.

Definition PDX (va : Z) : Z := Z.land (Z.shiftr (u32 va) PDXSHIFT) 0x3FF.
Definition PTX (va : Z) : Z := Z.land (Z.shiftr (u32 va) PTXSHIFT) 0x3FF.
Definition PGADDR (d t o : Z) : Z :=
  u32 (Z.lor (Z.lor (Z.shiftl d PDXSHIFT) (Z.shiftl t PTXSHIFT)) o).
Definition PGROUNDUP (sz : Z) : Z := Z.land (u32 (sz + PGSIZE - 1)) (Z.lnot (PGSIZE - 1)).
Definition PGROUNDDOWN (a : Z) : Z := Z.land (u32 a) (Z.lnot (PGSIZE - 1)).

Definition PTE_P : Z := 0x001.
Definition PTE_W : Z := 0x002.
Definition PTE_U : Z := 0x004.
Definition PTE_ADDR (pte : Z) : Z := Z.land (u32 pte) (Z.lnot 0xFFF).
Definition PTE_FLAGS (pte : Z) : Z := Z.land (u32 pte) 0xFFF.

(** * Theorems *)

Lemma land_lnot_4095 x : Z.land x (Z.lnot 4095) = 4096 * (x / 4096).
Proof.
  change 4095 with (Z.ones 12). rewrite <- Z.ldiff_land, Z.ldiff_ones_r by lia.
  rewrite Z.shiftl_mul_pow2, Z.shiftr_div_pow2 by lia.
  change (2 ^ 12) with 4096. lia.
Qed.

Lemma land_4095 x : Z.land x 4095 = x mod 4096.
Proof. change 4095 with (Z.ones 12). by rewrite Z.land_ones. Qed.

Lemma land_1023 x : Z.land x 1023 = x mod 1024.
Proof. change 1023 with (Z.ones 10). by rewrite Z.land_ones. Qed.

Lemma PDX_eq va : 0 <= va < 2 ^ 32 -> PDX va = va / 2 ^ 22.
Proof.
  intros H. unfold PDX, PDXSHIFT. rewrite u32_small by done.
  rewrite land_1023, Z.shiftr_div_pow2 by lia. apply Z.mod_small.
  split; [apply Z.div_pos; lia|]. apply Z.div_lt_upper_bound; lia.
Qed.

Lemma PTX_eq va : 0 <= va < 2 ^ 32 -> PTX va = va / 4096 mod 1024.
Proof.
  intros H. unfold PTX, PTXSHIFT. rewrite u32_small by done.
  by rewrite land_1023, Z.shiftr_div_pow2 by lia.
Qed.

Lemma PDX_range va : 0 <= PDX va < 1024.
Proof. unfold PDX. rewrite land_1023. by apply Z.mod_pos_bound. Qed.
Lemma PTX_range va : 0 <= PTX va < 1024.
Proof. unfold PTX. rewrite land_1023. by apply Z.mod_pos_bound. Qed.

(** The two indices of a page-aligned address determine it. *)
Lemma page_of_indices va :
  0 <= va < 2 ^ 32 -> va mod 4096 = 0 -> va = PDX va * 2 ^ 22 + PTX va * 4096.
Proof.
  intros H Ha. rewrite PDX_eq, PTX_eq by done. Z.div_mod_to_equations; lia.
Qed.

Lemma PDX_PTX_inj a b :
  0 <= a < 2 ^ 32 -> 0 <= b < 2 ^ 32 -> a mod 4096 = 0 -> b mod 4096 = 0 ->
  PDX a = PDX b -> PTX a = PTX b -> a = b.
Proof.
  intros Ha Hb Ha' Hb' E1 E2.
  rewrite (page_of_indices a), (page_of_indices b) by done. by rewrite E1, E2.
Qed.

Lemma PGROUNDDOWN_eq a : 0 <= a < 2 ^ 32 -> PGROUNDDOWN a = 4096 * (a / 4096).
Proof.
  intros H. unfold PGROUNDDOWN, PGSIZE. rewrite u32_small by done.
  apply land_lnot_4095.
Qed.

Lemma PGROUNDUP_eq a :
  0 <= a <= 2 ^ 32 - 4096 -> PGROUNDUP a = 4096 * ((a + 4095) / 4096).
Proof.
  intros H. unfold PGROUNDUP, PGSIZE.
  replace (a + 4096 - 1) with (a + 4095) by lia.
  rewrite u32_small by lia. apply land_lnot_4095.
Qed.

Lemma PGROUNDUP_aligned a : PGROUNDUP a mod 4096 = 0.
Proof.
  unfold PGROUNDUP, PGSIZE. change (4096 - 1) with 4095.
  rewrite land_lnot_4095, Z.mul_comm. by apply Z.mod_mul.
Qed.

Lemma PGROUNDUP_of_aligned a :
  0 <= a <= 2 ^ 32 - 4096 -> a mod 4096 = 0 -> PGROUNDUP a = a.
Proof. intros H Ha. rewrite PGROUNDUP_eq by done. Z.div_mod_to_equations; lia. Qed.

Lemma PTE_ADDR_eq x : 0 <= x < 2 ^ 32 -> PTE_ADDR x = 4096 * (x / 4096).
Proof. intros H. unfold PTE_ADDR. rewrite u32_small by done. apply land_lnot_4095. Qed.

Lemma PTE_FLAGS_eq x : 0 <= x < 2 ^ 32 -> PTE_FLAGS x = x mod 4096.
Proof. intros H. unfold PTE_FLAGS. rewrite u32_small by done. apply land_4095. Qed.

(** A page-aligned address and flag bits share no bit: [|] is [+]. *)
Lemma lor_page_flags pa fl :
  0 <= pa -> pa mod 4096 = 0 -> 0 <= fl < 4096 -> Z.lor pa fl = pa + fl.
Proof.
  intros Hpa Ha Hfl. rewrite Z.add_comm, Z.lor_comm.
  assert (pa = Z.shiftl (pa / 4096) 12) as ->.
  { rewrite Z.shiftl_mul_pow2 by lia. change (2 ^ 12) with 4096.
    Z.div_mod_to_equations; lia. }
  generalize (pa / 4096) as q. intros q.
  assert (Z.land fl (Z.shiftl q 12) = 0) as Hd.
  { apply Z.bits_inj'; intros i Hi. rewrite Z.land_spec, Z.bits_0.
    destruct (decide (i < 12)).
    - rewrite Z.shiftl_spec_low by lia. apply andb_false_r.
    - assert (Z.testbit fl i = false) as ->; [|done].
      destruct (decide (fl = 0)) as [->|]; [by rewrite Z.bits_0|].
      apply Z.bits_above_log2; [lia|]. apply Z.log2_lt_pow2; [lia|].
      apply Z.lt_le_trans with (2 ^ 12); [simpl; lia|]. apply Z.pow_le_mono_r; lia. }
  by rewrite Z.add_nocarry_lxor, Z.lxor_lor.
Qed.

Lemma PTE_ADDR_lor pa fl :
  0 <= pa < 2 ^ 32 -> pa mod 4096 = 0 -> 0 <= fl < 4096 -> PTE_ADDR (Z.lor pa fl) = pa.
Proof.
  intros Hpa Ha Hfl. rewrite lor_page_flags by lia.
  rewrite PTE_ADDR_eq by (Z.div_mod_to_equations; lia). Z.div_mod_to_equations; lia.
Qed.

Lemma PTE_FLAGS_lor pa fl :
  0 <= pa < 2 ^ 32 -> pa mod 4096 = 0 -> 0 <= fl < 4096 -> PTE_FLAGS (Z.lor pa fl) = fl.
Proof.
  intros Hpa Ha Hfl. rewrite lor_page_flags by lia.
  rewrite PTE_FLAGS_eq by (Z.div_mod_to_equations; lia). Z.div_mod_to_equations; lia.
Qed.

Lemma v2p_p2v pa : 0 <= pa < 2 ^ 32 -> v2p (p2v pa) = pa.
Proof.
  intros H. unfold v2p, p2v, u32, KERNBASE.
  rewrite Zminus_mod_idemp_l. replace (pa + 0x80000000 - 0x80000000) with pa by lia.
  by apply Z.mod_small.
Qed.

Lemma p2v_v2p va : 0 <= va < 2 ^ 32 -> p2v (v2p va) = va.
Proof.
  intros H. unfold v2p, p2v, u32, KERNBASE.
  rewrite Zplus_mod_idemp_l. replace (va - 0x80000000 + 0x80000000) with va by lia.
  by apply Z.mod_small.
Qed.
