(* ===== verification/Spinlock.v ===== *)
(** Spin locks and nested interrupt disabling: spinlock.c.

    Part 1 translates the routines: [initlock], [holding], [pushcli], [popcli],
    [getcallerpcs], and [acquire] and [release] cut at their accesses to shared
    memory.  Part 2 runs them on several CPUs as a step relation with a step for each
    exchange of the lock word and for each change of the owner, with any code acquiring and releasing any locks in between
    ([pushcli] and [popcli] touch only the CPU's own data and are done together with the access next to them:
    [pushcli] with the test of [holding], [popcli] with the exchange that frees the lock), and
    proves by induction over the steps that a lock has at most one owner, that its
    owner runs with interrupts off, and that the panics of [release] and [popcli]
    are reached only by code that drops a lock it does not hold. *)

From stdpp Require Import base tactics option list gmap sets strings numbers.
From Stdlib Require Import ZArith Lia.
From S2P Require Import Prelude Mem Layout.
Open Scope Z_scope.

Definition FL_IF : Z := 0x200.

(** * The routines *)

(** The part of [struct cpu] (proc.h) spinlock.c uses, and the flags register. *)
Record cpu := mkCpu { ncli : Z; intena : Z; eflags : Z }.

Record spinlock := mkLock {
  locked : Z;
  lname : string;
  lcpu : option nat;
  pcs : list Z
}.

Definition initlock (name : string) (lk : spinlock) : spinlock :=
  mkLock 0 name None (pcs lk).

(** The [cli] and [sti] instructions, and the test of the interrupt flag. *)
Definition cli (c : cpu) : cpu := mkCpu (ncli c) (intena c) (Z.land (eflags c) (Z.lnot FL_IF)).
Definition sti (c : cpu) : cpu := mkCpu (ncli c) (intena c) (Z.lor (eflags c) FL_IF).
Definition if_set (c : cpu) : bool := negb (Z.land (eflags c) FL_IF =? 0).

Definition pushcli (c : cpu) : cpu :=
  let ef := eflags c in
  let c := cli c in
  mkCpu (ncli c + 1) (if ncli c =? 0 then Z.land ef FL_IF else intena c) (eflags c).

Definition popcli (c : cpu) : string + cpu :=
  if if_set c then inl "popcli - interruptible"%string else
  let c := mkCpu (ncli c - 1) (intena c) (eflags c) in
  if ncli c <? 0 then inl "popcli"%string else
  if (ncli c =? 0) && negb (intena c =? 0) then inr (sti c) else inr c.

Definition holding (me : nat) (lk : spinlock) : bool :=
  negb (locked lk =? 0) && bool_decide (lcpu lk = Some me).

(** [xchg(&lk->locked, v)]: the old value and the lock. *)
Definition xchg (lk : spinlock) (v : Z) : Z * spinlock :=
  (locked lk, mkLock v (lname lk) (lcpu lk) (pcs lk)).

(** Following the chain of saved frame pointers from [v]. *)
Fixpoint callerpcs_loop (m : mem) (ebp : Z) (i : nat) : list Z :=
  match i with
  | O => []
  | S k =>
      if (ebp =? 0) || (ebp <? KERNBASE) || (ebp =? 0xffffffff)
      then replicate i 0
      else ld32 m (ebp + 4) :: callerpcs_loop m (ld32 m ebp) k
  end.
Definition getcallerpcs (m : mem) (v : Z) : list Z := callerpcs_loop m (u32 (v - 8)) 10.

(** [lk->cpu = cpu; getcallerpcs(&lk, lk->pcs);] with [tr] the trace recorded. *)
Definition record_owner (me : nat) (tr : list Z) (lk : spinlock) : spinlock :=
  mkLock (locked lk) (lname lk) (Some me) tr.
(** [lk->pcs[0] = 0; lk->cpu = 0;] *)
Definition clear_owner (lk : spinlock) : spinlock :=
  mkLock (locked lk) (lname lk) None (<[0%nat := 0]> (pcs lk)).

(** * CPUs that interleave *)

(** Where a CPU is: outside the lock routines, in [acquire]'s spin loop, between
    the successful [xchg] and the end of [acquire], or in [release] after the
    owner was cleared.  [own] lists the locks the CPU owns; the code has no such
    field, the invariant ties it to what the code has. *)
Inductive pc := Run | Spin (l : lockid) | Got (l : lockid) | Rel (l : lockid).

Record thread := mkThread { tcpu : cpu; tpc : pc; own : list lockid }.

Record machine := mkMachine {
  threads : list thread;
  locks : lockid -> spinlock;
  panicked : option string
}.

Definition upd_lock (l : lockid) (lk : spinlock) (f : lockid -> spinlock) : lockid -> spinlock :=
  fun l' => if decide (l' = l) then lk else f l'.

Definition init_machine (n : nat) : machine :=
  mkMachine (replicate n (mkThread (mkCpu 0 0 FL_IF) Run []))
    (fun _ => initlock "" (mkLock 0 "" None (replicate 10 0))) None.

(** One access of CPU [me] to a lock, with what it does to its own data before or after.  A CPU outside the routines may call [acquire] or
    [release] on any lock: what the surrounding kernel code does is left open. *)
Inductive step : machine -> machine -> Prop :=
| step_acquire me t l ths lks :
    ths !! me = Some t -> tpc t = Run -> holding me (lks l) = false ->
    step (mkMachine ths lks None)
      (mkMachine (<[me := mkThread (pushcli (tcpu t)) (Spin l) (own t)]> ths) lks None)
| step_acquire_panic me t l ths lks :
    ths !! me = Some t -> tpc t = Run -> holding me (lks l) = true ->
    step (mkMachine ths lks None) (mkMachine ths lks (Some "acquire"%string))
| step_spin me t l old lk ths lks :
    ths !! me = Some t -> tpc t = Spin l -> xchg (lks l) 1 = (old, lk) -> old <> 0 ->
    step (mkMachine ths lks None) (mkMachine ths (upd_lock l lk lks) None)
| step_xchg me t l old lk ths lks :
    ths !! me = Some t -> tpc t = Spin l -> xchg (lks l) 1 = (old, lk) -> old = 0 ->
    step (mkMachine ths lks None)
      (mkMachine (<[me := mkThread (tcpu t) (Got l) (l :: own t)]> ths) (upd_lock l lk lks) None)
| step_record me t l tr ths lks :
    ths !! me = Some t -> tpc t = Got l ->
    step (mkMachine ths lks None)
      (mkMachine (<[me := mkThread (tcpu t) Run (own t)]> ths)
         (upd_lock l (record_owner me tr (lks l)) lks) None)
| step_release me t l ths lks :
    ths !! me = Some t -> tpc t = Run -> holding me (lks l) = true ->
    step (mkMachine ths lks None)
      (mkMachine (<[me := mkThread (tcpu t) (Rel l) (own t)]> ths)
         (upd_lock l (clear_owner (lks l)) lks) None)
| step_release_panic me t l ths lks :
    ths !! me = Some t -> tpc t = Run -> holding me (lks l) = false ->
    step (mkMachine ths lks None) (mkMachine ths lks (Some "release"%string))
| step_unlock me t l old lk c ths lks :
    ths !! me = Some t -> tpc t = Rel l -> xchg (lks l) 0 = (old, lk) ->
    popcli (tcpu t) = inr c ->
    step (mkMachine ths lks None)
      (mkMachine (<[me := mkThread c Run (drop_lock l (own t))]> ths) (upd_lock l lk lks) None)
| step_popcli_panic me t l msg ths lks :
    ths !! me = Some t -> tpc t = Rel l -> popcli (tcpu t) = inl msg ->
    step (mkMachine ths lks None) (mkMachine ths lks (Some msg)).

Inductive reachable (n : nat) : machine -> Prop :=
| reach_init : reachable n (init_machine n)
| reach_step m m' : reachable n m -> step m m' -> reachable n m'.

(** * Theorems *)

(** A matched [pushcli]/[popcli] pair leaves the CPU as it was, interrupt flag
    included, at any nesting depth. *)
Definition cpu_wf (c : cpu) : Prop :=
  0 <= ncli c /\ (0 < ncli c -> if_set c = false) /\ 0 <= eflags c.

Lemma land_FL_IF_cases x : Z.land x FL_IF = 0 \/ Z.land x FL_IF = FL_IF.
Proof.
  assert (Z.land x FL_IF = if Z.testbit x 9 then FL_IF else 0) as ->.
  { apply Z.bits_inj'. intros i Hi. rewrite Z.land_spec. unfold FL_IF.
    destruct (decide (i = 9)) as [->|Hne].
    - by destruct (Z.testbit x 9).
    - change 512 with (2 ^ 9). rewrite Z.pow2_bits_false by done.
      rewrite andb_false_r. destruct (Z.testbit x 9); [|by rewrite Z.bits_0].
      by rewrite Z.pow2_bits_false. }
  destruct (Z.testbit x 9); auto.
Qed.

Lemma cli_clears c : if_set (cli c) = false.
Proof.
  unfold if_set, cli; simpl.
  rewrite <- Z.land_assoc, (Z.land_comm (Z.lnot FL_IF)), Z.land_lnot_diag, Z.land_0_r.
  done.
Qed.

Lemma cli_id c : if_set c = false -> cli c = c.
Proof.
  destruct c as [n i e]. unfold if_set, cli; simpl. intros H.
  apply negb_false_iff, Z.eqb_eq in H. f_equal.
  rewrite <- Z.ldiff_land. apply Z.bits_inj'. intros j Hj.
  rewrite Z.ldiff_spec. apply (f_equal (fun z => Z.testbit z j)) in H.
  rewrite Z.land_spec, Z.bits_0 in H.
  destruct (Z.testbit e j), (Z.testbit FL_IF j); done.
Qed.

Lemma sti_cli c : if_set c = true -> eflags (sti (cli c)) = eflags c.
Proof.
  destruct c as [n i e]. unfold if_set, cli, sti; simpl. intros H.
  apply negb_true_iff, Z.eqb_neq in H.
  destruct (land_FL_IF_cases e) as [|E]; [done|].
  apply Z.bits_inj'. intros j Hj.
  rewrite Z.lor_spec, Z.land_spec, Z.lnot_spec by done.
  apply (f_equal (fun z => Z.testbit z j)) in E. rewrite Z.land_spec in E.
  destruct (Z.testbit e j), (Z.testbit FL_IF j); done.
Qed.

Lemma pushcli_popcli_roundtrip c :
  cpu_wf c ->
  exists c', popcli (pushcli c) = inr c' /\ ncli c' = ncli c /\ eflags c' = eflags c /\
    (0 < ncli c -> c' = c).
Proof.
  intros (Hn & Hif & He).
  unfold popcli. assert (if_set (pushcli c) = false) as -> by apply (cli_clears c).
  cbn [pushcli ncli intena eflags cli].
  destruct (Z.ltb_spec (ncli c + 1 - 1) 0); [lia|].
  replace (ncli c + 1 - 1) with (ncli c) by lia.
  destruct (Z.eqb_spec (ncli c) 0) as [E|E]; simpl.
  - destruct (if_set c) eqn:Hs.
    + assert ((Z.land (eflags c) FL_IF =? 0) = false) as ->
        by (unfold if_set in Hs; by apply negb_true_iff in Hs).
      simpl. eexists; split_and!; [done|done| |lia].
      apply (sti_cli c Hs).
    + assert ((Z.land (eflags c) FL_IF =? 0) = true) as ->
        by (unfold if_set in Hs; by apply negb_false_iff in Hs).
      simpl. eexists; split_and!; [done|done| |lia].
      change (eflags (cli c) = eflags c). by rewrite cli_id.
  - eexists; split_and!; [done|done| |].
    + change (eflags (cli c) = eflags c). by rewrite cli_id by (apply Hif; lia).
    + intros _. change (mkCpu (ncli c) (intena c) (eflags (cli c)) = c).
      rewrite cli_id by (apply Hif; lia). by destruct c.
Qed.

Lemma pushcli_wf c : cpu_wf c -> cpu_wf (pushcli c).
Proof.
  intros (Hn & _ & He). split_and!; simpl; [lia| |].
  - intros _. apply (cli_clears c).
  - apply Z.land_nonneg. by left.
Qed.

Lemma popcli_wf c c' : cpu_wf c -> popcli c = inr c' -> cpu_wf c' /\ ncli c' = ncli c - 1.
Proof.
  intros (Hn & Hif & He). unfold popcli.
  destruct (if_set c) eqn:Hs; [done|]. simpl.
  destruct (Z.ltb_spec (ncli c - 1) 0); [done|].
  destruct ((ncli c - 1 =? 0) && negb (intena c =? 0)) eqn:E; intros [= <-];
    (split; [|done]); unfold cpu_wf; simpl.
  - apply andb_true_iff in E as [E _]. apply Z.eqb_eq in E.
    split_and!; [lia|intros; lia|]. by apply Z.lor_nonneg.
  - split_and!; [lia|done|done].
Qed.

Lemma popcli_total c : cpu_wf c -> 0 < ncli c -> exists c', popcli c = inr c'.
Proof.
  intros (Hn & Hif & He) Hpos. unfold popcli. rewrite Hif by done. simpl.
  destruct (Z.ltb_spec (ncli c - 1) 0); [lia|].
  destruct (_ && _); eauto.
Qed.

Lemma length_getcallerpcs m v : length (getcallerpcs m v) = 10%nat.
Proof.
  unfold getcallerpcs. generalize (u32 (v - 8)) as ebp. generalize 10%nat as n.
  induction n as [|n IH]; intros ebp; [done|]. cbn [callerpcs_loop].
  destruct (_ || _); [by rewrite length_replicate|]. simpl. by rewrite IH.
Qed.

(** ** The invariant *)

(** What the code's fields say about the owner of a lock. *)
Definition lock_agrees (me : nat) (t : thread) (l : lockid) (lk : spinlock) : Prop :=
  locked lk = 1 /\
  match tpc t with
  | Got l' | Rel l' => if decide (l' = l) then lcpu lk = None else lcpu lk = Some me
  | _ => lcpu lk = Some me
  end.

Record inv (m : machine) : Prop := {
  (** [locked] and [cpu] of a lock tell who owns it *)
  inv_owned : forall me t l, threads m !! me = Some t -> l ∈ own t -> lock_agrees me t l (locks m l);
  inv_free : forall l, (forall me t, threads m !! me = Some t -> l ∉ own t) ->
    locked (locks m l) = 0 /\ lcpu (locks m l) = None;
  (** at most one owner *)
  inv_excl : forall me me' t t' l, threads m !! me = Some t -> threads m !! me' = Some t' ->
    l ∈ own t -> l ∈ own t' -> me = me';
  inv_nodup : forall me t, threads m !! me = Some t -> NoDup (own t);
  (** a CPU inside a routine owns the lock the routine works on, or spins for it *)
  inv_pc : forall me t, threads m !! me = Some t ->
    match tpc t with Got l | Rel l => l ∈ own t | Spin l => l ∉ own t | Run => True end;
  (** every owned lock and every spin counts one [pushcli] *)
  inv_ncli : forall me t, threads m !! me = Some t ->
    cpu_wf (tcpu t) /\
    ncli (tcpu t) = Z.of_nat (length (own t)) + (match tpc t with Spin _ => 1 | _ => 0 end)
}.

Lemma inv_init n : inv (init_machine n).
Proof.
  split; simpl; intros.
  - apply lookup_replicate in H as [-> _]. set_solver.
  - done.
  - apply lookup_replicate in H as [-> _]. set_solver.
  - apply lookup_replicate in H as [-> _]. constructor.
  - by apply lookup_replicate in H as [-> _].
  - apply lookup_replicate in H as [-> _]. simpl. split; [|done].
    split_and!; simpl; [lia|lia|done].
Qed.

Lemma insert_thread_lookup (ths : list thread) me t me' t' :
  (exists t0, ths !! me = Some t0) ->
  <[me := t]> ths !! me' = Some t' ->
  (me' = me /\ t' = t) \/ (me' <> me /\ ths !! me' = Some t').
Proof.
  intros [t0 H0] H. apply lookup_lt_Some in H0.
  destruct (decide (me' = me)) as [->|Hne].
  - rewrite list_lookup_insert_eq in H by done. left. naive_solver.
  - rewrite list_lookup_insert_ne in H by done. auto.
Qed.

(** Steps that change one CPU and no lock's owner. *)
Lemma inv_same_own ths lks me t c p' :
  inv (mkMachine ths lks None) -> ths !! me = Some t ->
  (forall l, l ∈ own t -> lock_agrees me (mkThread c p' (own t)) l (lks l)) ->
  match p' with Got l | Rel l => l ∈ own t | Spin l => l ∉ own t | Run => True end ->
  cpu_wf c ->
  ncli c = Z.of_nat (length (own t)) + (match p' with Spin _ => 1 | _ => 0 end) ->
  inv (mkMachine (<[me := mkThread c p' (own t)]> ths) lks None).
Proof.
  intros I Ht Hag Hpc Hwf Hn.
  assert (forall me' t', <[me:=mkThread c p' (own t)]> ths !! me' = Some t' ->
    exists t0, ths !! me' = Some t0 /\ own t0 = own t') as Hown.
  { intros me' t' H. apply insert_thread_lookup in H as [[-> ->]|[? ?]]; eauto. }
  split; simpl.
  - intros me' t' l H Hl. apply insert_thread_lookup in H as [[-> ->]|[? ?]]; eauto.
    by apply (inv_owned _ I me' t' l).
  - intros l Hl. apply (inv_free _ I). simpl. intros me' t' H' Hin.
    destruct (decide (me' = me)) as [->|Hne].
    + replace t' with t in * by congruence.
      apply (Hl me (mkThread c p' (own t))); [|done].
      apply list_lookup_insert_eq. by eapply lookup_lt_Some.
    + apply (Hl me' t'); [|done]. by rewrite list_lookup_insert_ne.
  - intros me1 me2 t1 t2 l H1 H2 Hl1 Hl2.
    destruct (Hown _ _ H1) as (u1 & ? & E1). destruct (Hown _ _ H2) as (u2 & ? & E2).
    rewrite <- E1 in Hl1. rewrite <- E2 in Hl2. by eapply (inv_excl _ I me1 me2 u1 u2 l).
  - intros me' t' H. destruct (Hown _ _ H) as (u & ? & <-). by eapply (inv_nodup _ I).
  - intros me' t' H. apply insert_thread_lookup in H as [[-> ->]|[? ?]]; eauto.
    by apply (inv_pc _ I me' t').
  - intros me' t' H. apply insert_thread_lookup in H as [[-> ->]|[? ?]]; eauto.
    by apply (inv_ncli _ I me' t').
Qed.

Lemma lock_agrees_ext me t l lk lk' :
  locked lk = locked lk' -> lcpu lk = lcpu lk' -> lock_agrees me t l lk -> lock_agrees me t l lk'.
Proof. unfold lock_agrees. intros -> ->. done. Qed.

(** Rewriting a lock's record without changing what it says of the owner. *)
Lemma inv_lock_ext ths lks l lk :
  inv (mkMachine ths lks None) ->
  locked lk = locked (lks l) -> lcpu lk = lcpu (lks l) ->
  inv (mkMachine ths (upd_lock l lk lks) None).
Proof.
  intros I E1 E2.
  assert (forall l', locked (upd_lock l lk lks l') = locked (lks l') /\
                     lcpu (upd_lock l lk lks l') = lcpu (lks l')) as E.
  { intros l'. unfold upd_lock. destruct (decide (l' = l)) as [->|]; done. }
  split; simpl.
  - intros me t l' Ht Hl. destruct (E l') as [? ?].
    eapply lock_agrees_ext; [| |by eapply (inv_owned _ I)]; done.
  - intros l' Hl. destruct (E l') as [-> ->]. by apply (inv_free _ I).
  - apply (inv_excl _ I).
  - apply (inv_nodup _ I).
  - apply (inv_pc _ I).
  - apply (inv_ncli _ I).
Qed.

Lemma holding_spec m me t l :
  inv m -> threads m !! me = Some t -> tpc t = Run ->
  holding me (locks m l) = true <-> l ∈ own t.
Proof.
  intros I Ht Hpc. unfold holding. split.
  - intros [Hl Hc]%andb_true_iff. apply negb_true_iff, Z.eqb_neq in Hl.
    apply bool_decide_eq_true in Hc.
    destruct (decide (l ∈ own t)) as [|Hno]; [done|exfalso].
    destruct (decide (Exists (fun t => l ∈ own t) (threads m))) as [He|He].
    + apply Exists_exists in He as (t' & Hin & Hl').
      apply list_elem_of_In, list_elem_of_lookup in Hin as [me' Hme'].
      destruct (inv_owned _ I _ _ _ Hme' Hl') as [_ Hag].
      destruct (tpc t'); try destruct (decide _); simplify_eq; congruence.
    + apply Hl. apply (inv_free _ I). intros me' t' H' Hin. apply He.
      apply Exists_exists. exists t'. split; [|done].
      apply list_elem_of_In, list_elem_of_lookup. eauto.
  - intros Hin. destruct (inv_owned _ I _ _ _ Ht Hin) as [-> Hag].
    rewrite Hpc in Hag. rewrite Hag. simpl. by apply bool_decide_eq_true.
Qed.

(** The winning [xchg]: the lock was free, this CPU owns it now. *)
Lemma inv_xchg ths lks me t l :
  inv (mkMachine ths lks None) -> ths !! me = Some t -> tpc t = Spin l ->
  locked (lks l) = 0 ->
  inv (mkMachine (<[me := mkThread (tcpu t) (Got l) (l :: own t)]> ths)
        (upd_lock l (mkLock 1 (lname (lks l)) (lcpu (lks l)) (pcs (lks l))) lks) None).
Proof.
  intros I Ht Hpc Hfree.
  assert (forall me' t', ths !! me' = Some t' -> l ∉ own t') as Hno.
  { intros me' t' H' Hin. destruct (inv_owned _ I _ _ _ H' Hin) as [E _].
    simpl in E. lia. }
  pose proof (inv_free _ I l Hno) as [_ Hcpu]. simpl in Hcpu.
  destruct (inv_ncli _ I _ _ Ht) as [Hwf Hn]. rewrite Hpc in Hn.
  split; simpl.
  - intros me' t' l' H Hl. apply insert_thread_lookup in H as [[-> ->]|[? H]]; eauto.
    + unfold lock_agrees, upd_lock; simpl. simpl in Hl.
      destruct (decide (l' = l)) as [->|Hne]; simpl.
      * by rewrite decide_True.
      * rewrite decide_False by done. apply elem_of_cons in Hl as [->|Hl]; [done|].
        pose proof (inv_owned _ I _ _ _ Ht Hl) as [? Hag]. rewrite Hpc in Hag. done.
    + unfold upd_lock. destruct (decide (l' = l)) as [->|]; [by apply Hno in H|].
      by apply (inv_owned _ I me' t' l').
  - intros l' Hl'. unfold upd_lock. destruct (decide (l' = l)) as [->|Hne].
    + exfalso. apply (Hl' me (mkThread (tcpu t) (Got l) (l :: own t))); [|set_solver].
      apply list_lookup_insert_eq. by eapply lookup_lt_Some.
    + apply (inv_free _ I). simpl. intros me' t' H' Hin.
      destruct (decide (me' = me)) as [->|].
      * replace t' with t in * by congruence.
        apply (Hl' me (mkThread (tcpu t) (Got l) (l :: own t))); [|set_solver].
        apply list_lookup_insert_eq. by eapply lookup_lt_Some.
      * apply (Hl' me' t'); [|done]. by rewrite list_lookup_insert_ne.
  - intros me1 me2 t1 t2 l' H1 H2 Hl1 Hl2.
    apply insert_thread_lookup in H1 as [[-> ->]|[? H1]]; eauto;
      apply insert_thread_lookup in H2 as [[-> ->]|[? H2]]; eauto; simpl in *.
    + apply elem_of_cons in Hl1 as [->|Hl1]; [by apply Hno in H2|].
      by apply (inv_excl _ I me me2 t t2 l').
    + apply elem_of_cons in Hl2 as [->|Hl2]; [by apply Hno in H1|].
      by apply (inv_excl _ I me1 me t1 t l').
    + by apply (inv_excl _ I me1 me2 t1 t2 l').
  - intros me' t' H. apply insert_thread_lookup in H as [[-> ->]|[? H]]; eauto; simpl.
    + constructor; [by eapply Hno|by apply (inv_nodup _ I me t)].
    + by apply (inv_nodup _ I me' t').
  - intros me' t' H. apply insert_thread_lookup in H as [[-> ->]|[? H]]; eauto; simpl.
    + set_solver.
    + by apply (inv_pc _ I me' t').
  - intros me' t' H. apply insert_thread_lookup in H as [[-> ->]|[? H]]; eauto; simpl.
    + split; [done|]. lia.
    + by apply (inv_ncli _ I me' t').
Qed.

Lemma elem_of_drop_lock l l' H : l' ∈ drop_lock l H <-> l' ∈ H /\ l' <> l.
Proof. unfold drop_lock. rewrite list_elem_of_difference. set_solver. Qed.

Lemma NoDup_drop_lock l H : NoDup H -> NoDup (drop_lock l H).
Proof. apply NoDup_list_difference. Qed.

Lemma length_drop_lock l H :
  NoDup H -> l ∈ H -> length H = S (length (drop_lock l H)).
Proof.
  intros Hnd Hin.
  apply (Permutation_length (l' := l :: drop_lock l H)).
  apply NoDup_Permutation; [done| |].
  - constructor; [rewrite elem_of_drop_lock; naive_solver|by apply NoDup_drop_lock].
  - intros x. rewrite elem_of_cons, elem_of_drop_lock.
    destruct (decide (x = l)) as [->|]; naive_solver.
Qed.

(** The closing [xchg] of [release]: nobody owns the lock any more. *)
Lemma inv_unlock ths lks me t l c :
  inv (mkMachine ths lks None) -> ths !! me = Some t -> tpc t = Rel l ->
  popcli (tcpu t) = inr c ->
  inv (mkMachine (<[me := mkThread c Run (drop_lock l (own t))]> ths)
        (upd_lock l (mkLock 0 (lname (lks l)) (lcpu (lks l)) (pcs (lks l))) lks) None).
Proof.
  intros I Ht Hpc Hpop.
  pose proof (inv_pc _ I _ _ Ht) as Hmine. rewrite Hpc in Hmine.
  destruct (inv_ncli _ I _ _ Ht) as [Hwf Hn]. rewrite Hpc in Hn.
  destruct (popcli_wf _ _ Hwf Hpop) as [Hwf' Hn'].
  pose proof (inv_nodup _ I _ _ Ht) as Hnd.
  pose proof (inv_owned _ I _ _ _ Ht Hmine) as [_ Hcpu].
  rewrite Hpc, decide_True in Hcpu by done. simpl in Hcpu.
  assert (forall me' t', me' <> me -> ths !! me' = Some t' -> l ∉ own t') as Hno.
  { intros me' t' Hne H' Hin. apply Hne. by apply (inv_excl _ I me' me t' t l). }
  split; simpl.
  - intros me' t' l' H Hl. apply insert_thread_lookup in H as [[-> ->]|[? H]]; eauto.
    + simpl in Hl. apply elem_of_drop_lock in Hl as [Hl Hne].
      unfold lock_agrees, upd_lock; simpl. rewrite decide_False by done.
      pose proof (inv_owned _ I _ _ _ Ht Hl) as [? Hag].
      rewrite Hpc, decide_False in Hag by done. done.
    + unfold upd_lock. destruct (decide (l' = l)) as [->|]; [by apply Hno in H|].
      by apply (inv_owned _ I me' t' l').
  - intros l' Hl'. unfold upd_lock. destruct (decide (l' = l)) as [->|Hne]; [done|].
    apply (inv_free _ I). simpl. intros me' t' H' Hin.
    destruct (decide (me' = me)) as [->|].
    + replace t' with t in * by congruence.
      apply (Hl' me (mkThread c Run (drop_lock l (own t)))).
      * apply list_lookup_insert_eq. by eapply lookup_lt_Some.
      * by apply elem_of_drop_lock.
    + apply (Hl' me' t'); [|done]. by rewrite list_lookup_insert_ne.
  - intros me1 me2 t1 t2 l' H1 H2 Hl1 Hl2.
    apply insert_thread_lookup in H1 as [[-> ->]|[? H1]]; eauto;
      apply insert_thread_lookup in H2 as [[-> ->]|[? H2]]; eauto; simpl in *;
      try (apply elem_of_drop_lock in Hl1 as [Hl1 _]);
      try (apply elem_of_drop_lock in Hl2 as [Hl2 _]).
    + by apply (inv_excl _ I me me2 t t2 l').
    + by apply (inv_excl _ I me1 me t1 t l').
    + by apply (inv_excl _ I me1 me2 t1 t2 l').
  - intros me' t' H. apply insert_thread_lookup in H as [[-> ->]|[? H]]; eauto; simpl.
    + by apply NoDup_drop_lock.
    + by apply (inv_nodup _ I me' t').
  - intros me' t' H. apply insert_thread_lookup in H as [[-> ->]|[? H]]; eauto; simpl.
    + done.
    + by apply (inv_pc _ I me' t').
  - intros me' t' H. apply insert_thread_lookup in H as [[-> ->]|[? H]]; eauto; simpl.
    + split; [done|]. pose proof (length_drop_lock l (own t) Hnd Hmine). lia.
    + by apply (inv_ncli _ I me' t').
Qed.

Lemma inv_panicked ths lks msg msg' :
  inv (mkMachine ths lks msg) -> inv (mkMachine ths lks msg').
Proof. intros [I1 I2 I3 I4 I5 I6]. by split. Qed.

(** Moving between [Run] and the owner-recording points of a lock this CPU owns:
    only the lock's [cpu] field changes, together with the position. *)
Lemma inv_owner_field ths lks me t l p' lk :
  inv (mkMachine ths lks None) -> ths !! me = Some t -> l ∈ own t ->
  (match tpc t with Got l' | Rel l' => l' = l | Run => True | Spin _ => False end) ->
  (match p' with Got l' | Rel l' => l' = l | Run => True | Spin _ => False end) ->
  locked lk = locked (lks l) ->
  lcpu lk = (match p' with Run => Some me | _ => None end) ->
  inv (mkMachine (<[me := mkThread (tcpu t) p' (own t)]> ths) (upd_lock l lk lks) None).
Proof.
  intros I Ht Hin Hpc Hp' Elk Ecpu.
  destruct (inv_ncli _ I _ _ Ht) as [Hwf Hn].
  assert (forall l', l' <> l -> l' ∈ own t -> locked (lks l') = 1 /\ lcpu (lks l') = Some me) as Hoth.
  { intros l' Hne Hl'. destruct (inv_owned _ I _ _ _ Ht Hl') as [? Hag]. split; [done|].
    destruct (tpc t); try done; subst; by rewrite decide_False in Hag. }
  assert (locked (lks l) = 1) as H1 by (by destruct (inv_owned _ I _ _ _ Ht Hin)).
  split; simpl.
  - intros me' t' l' H Hl. unfold upd_lock.
    apply insert_thread_lookup in H as [[-> ->]|[? H]]; eauto; simpl in *.
    + unfold lock_agrees; simpl. destruct (decide (l' = l)) as [->|Hne].
      * split; [by rewrite Elk|]. rewrite Ecpu.
        destruct p'; try done; subst; by rewrite decide_True.
      * destruct (Hoth l' Hne Hl) as [? E]. split; [done|].
        destruct p'; try done; subst; by rewrite decide_False.
    + destruct (decide (l' = l)) as [->|].
      * exfalso. assert (me' = me); [|done]. by apply (inv_excl _ I me' me t' t l).
      * by apply (inv_owned _ I me' t' l').
  - intros l' Hl'. unfold upd_lock.
    assert (l' <> l) as Hne.
    { intros ->. apply (Hl' me (mkThread (tcpu t) p' (own t))); [|done].
      apply list_lookup_insert_eq. by eapply lookup_lt_Some. }
    rewrite decide_False by done. apply (inv_free _ I). simpl. intros me' t' H' Hin'.
    destruct (decide (me' = me)) as [->|].
    + replace t' with t in * by congruence.
      apply (Hl' me (mkThread (tcpu t) p' (own t))); [|done].
      apply list_lookup_insert_eq. by eapply lookup_lt_Some.
    + apply (Hl' me' t'); [|done]. by rewrite list_lookup_insert_ne.
  - intros me1 me2 t1 t2 l' H1' H2 Hl1 Hl2.
    apply insert_thread_lookup in H1' as [[-> ->]|[? H1']]; eauto;
      apply insert_thread_lookup in H2 as [[-> ->]|[? H2]]; eauto; simpl in *.
    + by apply (inv_excl _ I me me2 t t2 l').
    + by apply (inv_excl _ I me1 me t1 t l').
    + by apply (inv_excl _ I me1 me2 t1 t2 l').
  - intros me' t' H. apply insert_thread_lookup in H as [[-> ->]|[? H]]; eauto; simpl.
    + by apply (inv_nodup _ I me t).
    + by apply (inv_nodup _ I me' t').
  - intros me' t' H. apply insert_thread_lookup in H as [[-> ->]|[? H]]; eauto; simpl.
    + destruct p'; subst; done.
    + by apply (inv_pc _ I me' t').
  - intros me' t' H. apply insert_thread_lookup in H as [[-> ->]|[? H]]; eauto; simpl.
    + split; [done|]. destruct (tpc t), p'; try done; lia.
    + by apply (inv_ncli _ I me' t').
Qed.

Lemma inv_step m m' : inv m -> step m m' -> inv m'.
Proof.
  intros I Hs. destruct Hs as
    [me t l ths lks Ht Hpc Hh | | me t l old lk ths lks Ht Hpc [= <- <-] Hold
    | me t l old lk ths lks Ht Hpc [= <- <-] Hold | me t l tr ths lks Ht Hpc
    | me t l ths lks Ht Hpc Hh | | me t l old lk c ths lks Ht Hpc [= <- <-] Hpop |].
  - destruct (inv_ncli _ I _ _ Ht) as [Hwf Hn]. rewrite Hpc in Hn.
    assert (l ∉ own t) as Hno.
    { intros Hin. apply (holding_spec _ _ _ l I Ht Hpc) in Hin. simpl in Hin. congruence. }
    apply inv_same_own; [done|done| |done|by apply pushcli_wf|].
    + intros l' Hl'. pose proof (inv_owned _ I _ _ _ Ht Hl') as [? Hag].
      rewrite Hpc in Hag. done.
    + simpl. lia.
  - by eapply inv_panicked.
  - apply inv_lock_ext; [done| |done]. simpl.
    destruct (decide (Exists (fun t => l ∈ own t) ths)) as [He|He].
    + apply Exists_exists in He as (t' & Hin & Hl').
      apply list_elem_of_In, list_elem_of_lookup in Hin as [me' Hme'].
      destruct (inv_owned _ I _ _ _ Hme' Hl') as [E _]. by simpl in E.
    + exfalso. apply Hold. apply (inv_free _ I). simpl. intros me' t' H' Hin. apply He.
      apply Exists_exists. exists t'. split; [|done].
      apply list_elem_of_In, list_elem_of_lookup. eauto.
  - by apply inv_xchg.
  - apply inv_owner_field; try done; [|by rewrite Hpc].
    pose proof (inv_pc _ I _ _ Ht) as Hp. by rewrite Hpc in Hp.
  - apply (holding_spec _ _ _ l I Ht Hpc) in Hh.
    apply inv_owner_field; try done. by rewrite Hpc.
  - by eapply inv_panicked.
  - by apply inv_unlock.
  - by eapply inv_panicked.
Qed.

Lemma inv_reachable n m : reachable n m -> inv m.
Proof. induction 1; [apply inv_init|by eapply inv_step]. Qed.

(** A CPU is in the critical section of a lock from the winning [xchg] of
    [acquire] to the [xchg] of [release]. *)
Definition in_critical (m : machine) (me : nat) (l : lockid) : Prop :=
  exists t, threads m !! me = Some t /\ l ∈ own t.

(** The panics of spinlock.c in the code's own words: which routine reports them. *)
Lemma step_panic_inv m m' msg :
  inv m -> step m m' -> panicked m = None -> panicked m' = Some msg ->
  (msg = "acquire"%string /\ exists me l, in_critical m me l) \/
  (msg = "release"%string /\ exists me t l, threads m !! me = Some t /\ tpc t = Run /\ l ∉ own t).
Proof.
  intros I Hs H0 Hp. inversion Hs; subst; simpl in *; simplify_eq.
  - left. split; [done|]. exists me, l. exists t. split; [done|].
    by apply (holding_spec (mkMachine ths lks None) me t l).
  - right. split; [done|]. exists me, t, l. split_and!; [done|done|].
    intros Hin. apply (holding_spec (mkMachine ths lks None) me t l) in Hin; try done.
    simpl in Hin. congruence.
  - exfalso. destruct (inv_ncli _ I _ _ H) as [Hwf Hn].
    pose proof (inv_pc _ I _ _ H) as Hin. rewrite H1 in Hn, Hin.
    destruct (popcli_total _ Hwf) as [c Hc]; [|congruence].
    destruct (own t); [set_solver|simpl in Hn; lia].
Qed.

(** C17.  Mutual exclusion on any number of CPUs: in every state the lock code can
    reach, whatever locks the kernel takes and drops and however the CPUs
    interleave at their memory accesses, no two CPUs are in the critical section of
    one lock, and a CPU in a critical section has interrupts off and a positive
    [pushcli] depth. *)
Theorem spinlock_mutual_exclusion n m me l :
  reachable n m -> in_critical m me l ->
  (forall me', in_critical m me' l -> me' = me) /\
  exists t, threads m !! me = Some t /\ if_set (tcpu t) = false /\ 0 < ncli (tcpu t).
Proof.
  intros Hr (t & Ht & Hl). apply inv_reachable in Hr as I. split.
  - intros me' (t' & Ht' & Hl'). by apply (inv_excl _ I me' me t' t l).
  - exists t. split; [done|]. destruct (inv_ncli _ I _ _ Ht) as [(? & Hif & ?) Hn].
    assert (0 < ncli (tcpu t)); [|naive_solver].
    destruct (own t); [set_solver|]. simpl in Hn. destruct (tpc t); lia.
Qed.

(** Two CPUs; the first has taken [kmem.lock] and is about to record itself. *)
Lemma spinlock_mutual_exclusion_witness :
  exists m, reachable 2 m /\ in_critical m 0 LK_kmem /\
    forall me', in_critical m me' LK_kmem -> me' = 0%nat.
Proof.
  assert (reachable 2 (mkMachine
    [mkThread (pushcli (mkCpu 0 0 FL_IF)) (Got LK_kmem) [LK_kmem]; mkThread (mkCpu 0 0 FL_IF) Run []]
    (upd_lock LK_kmem (snd (xchg (locks (init_machine 2) LK_kmem) 1)) (locks (init_machine 2))) None))
    as Hr.
  { eapply reach_step; [eapply reach_step; [apply reach_init|]|].
    - apply (step_acquire 0 (mkThread (mkCpu 0 0 FL_IF) Run []) LK_kmem); done.
    - by eapply (step_xchg 0 (mkThread (pushcli (mkCpu 0 0 FL_IF)) (Spin LK_kmem) []) LK_kmem). }
  eexists. split; [exact Hr|].
  assert (in_critical (mkMachine
    [mkThread (pushcli (mkCpu 0 0 FL_IF)) (Got LK_kmem) [LK_kmem]; mkThread (mkCpu 0 0 FL_IF) Run []]
    (upd_lock LK_kmem (snd (xchg (locks (init_machine 2) LK_kmem) 1)) (locks (init_machine 2))) None)
    0 LK_kmem) as Hc.
  { eexists. split; [reflexivity|]. apply elem_of_cons. by left. }
  split; [exact Hc|]. apply (spinlock_mutual_exclusion 2 _ 0 LK_kmem Hr Hc).
Defined.
