(* ===== verification/Kalloc.v ===== *)
(** The physical page allocator: kalloc.c.

    The free list is threaded through the free pages themselves: [kmem] holds the
    head pointer and the byte memory the links live in.  [free_pages] is the
    abstraction: the free list as a sequence of pages.  The theorems show that the
    routines implement a stack of pages on it, keep the pages distinct, aligned
    and inside the kernel's range, and touch no page but the one they are given. *)

From stdpp Require Import base tactics option list gmap sets strings numbers.
From Stdlib Require Import ZArith Lia.
From S2P Require Import Prelude Mem Layout.
Open Scope Z_scope.

Record kmem := mkKmem { use_lock : bool; freelist : Z; kmemory : mem }.

Definition set_freelist (v : Z) (s : kmem) : kmem := mkKmem (use_lock s) v (kmemory s).
Definition set_kmemory (m : mem) (s : kmem) : kmem := mkKmem (use_lock s) (freelist s) m.
Definition set_use_lock (b : bool) (s : kmem) : kmem := mkKmem b (freelist s) (kmemory s).

(** Word access of kernel code. *)
Definition load32 (a : Z) : M kmem Z := gets (fun s => ld32 (kmemory s) a).
Definition store32 (a v : Z) : M kmem unit :=
  modify (fun s => set_kmemory (st32 (kmemory s) a v) s).
Definition kmemset (dst c n : Z) : M kmem unit :=
  modify (fun s => set_kmemory (memset (kmemory s) dst c n) s).

Section kalloc.
(** [end], the first address after the kernel, is fixed by the linker. *)
Variable kend : Z.

Definition kfree (v : Z) : M kmem unit :=
  if negb (u32 v mod PGSIZE =? 0) || (v <? kend) || (PHYSTOP <=? v2p v)
  then panic "kfree"
  else
    kmemset v 1 PGSIZE ;;
    ul <- gets use_lock ;;
    when ul (acquire LK_kmem) ;;
    fl <- gets freelist ;;
    store32 v fl ;;
    modify (set_freelist v) ;;
    ul <- gets use_lock ;;
    when ul (release LK_kmem).

Definition kalloc : M kmem Z :=
  ul <- gets use_lock ;;
  when ul (acquire LK_kmem) ;;
  r <- gets freelist ;;
  when (negb (r =? 0)) (nx <- load32 r ;; modify (set_freelist nx)) ;;
  ul <- gets use_lock ;;
  when ul (release LK_kmem) ;;
  ret r.

(** [for (; p + PGSIZE <= vend; p += PGSIZE) kfree(p);], [n] rounds. *)
Fixpoint freerange_loop (n : nat) (p vend : Z) : M kmem unit :=
  if p + PGSIZE <=? vend then
    match n with
    | O => nofuel
    | S k => kfree p ;; freerange_loop k (p + PGSIZE) vend
    end
  else ret tt.

Definition freerange (vstart vend : Z) : M kmem unit :=
  let p := PGROUNDUP vstart in
  freerange_loop (Z.to_nat ((vend - p) / PGSIZE)) p vend.

Definition kinit1 (vstart vend : Z) : M kmem unit :=
  modify (set_use_lock false) ;;
  freerange vstart vend.

Definition kinit2 (vstart vend : Z) : M kmem unit :=
  freerange vstart vend ;;
  modify (set_use_lock true).

(** * The free list as a sequence *)

(** A page the allocator manages. *)
Definition valid_page (p : Z) : Prop :=
  p mod PGSIZE = 0 /\ kend <= p /\ KERNBASE <= p /\ p + PGSIZE <= KERNBASE + PHYSTOP.

Fixpoint free_pages (m : mem) (head : Z) (l : list Z) : Prop :=
  match l with
  | [] => head = 0
  | p :: l' => head = p /\ valid_page p /\ (p ∉ l') /\ free_pages m (ld32 m p) l'
  end.

Definition kmem_ok (s : kmem) (l : list Z) : Prop :=
  free_pages (kmemory s) (freelist s) l.

(** * Theorems *)

Lemma valid_page_pos p : valid_page p -> 0 < p < 2 ^ 32.
Proof. unfold valid_page, KERNBASE, PHYSTOP, PGSIZE. lia. Qed.

Lemma valid_pages_disjoint p q :
  valid_page p -> valid_page q -> p <> q -> p + PGSIZE <= q \/ q + PGSIZE <= p.
Proof. unfold valid_page, PGSIZE. intros. Z.div_mod_to_equations; lia. Qed.

Lemma free_pages_valid m head l p : free_pages m head l -> p ∈ l -> valid_page p.
Proof.
  revert head. induction l as [|q l IH]; intros head Hf Hin; [set_solver|].
  destruct Hf as (-> & Hv & _ & Hf). apply elem_of_cons in Hin as [->|Hin]; eauto.
Qed.

Lemma free_pages_NoDup m head l : free_pages m head l -> NoDup l.
Proof.
  revert head. induction l as [|q l IH]; intros head Hf; constructor.
  - by destruct Hf as (_ & _ & ? & _).
  - destruct Hf as (_ & _ & _ & Hf). eauto.
Qed.

(** The list depends on the first word of its pages only. *)
Lemma free_pages_ext m m' head l :
  free_pages m head l -> (forall p, p ∈ l -> ld32 m' p = ld32 m p) -> free_pages m' head l.
Proof.
  revert head. induction l as [|q l IH]; intros head Hf E; [done|].
  destruct Hf as (-> & Hv & Hn & Hf). simpl. split_and!; [done|done|done|].
  rewrite E by set_solver. apply IH; [done|]. set_solver.
Qed.

(** [kalloc] pops the first free page, or returns 0 and changes nothing. *)
Lemma kalloc_spec s l :
  kmem_ok s l ->
  run (kalloc s) =
    match l with
    | [] => ROk 0 s
    | p :: _ => ROk p (set_freelist (ld32 (kmemory s) p) s)
    end.
Proof.
  unfold kmem_ok. intros Hf. destruct s as [ul fl m]. unfold kalloc, load32.
  destruct l as [|p l]; simpl in Hf.
  - subst fl. destruct ul; repeat (mrun; simpl); done.
  - destruct Hf as (-> & Hv & _). pose proof (valid_page_pos p Hv).
    destruct ul; repeat (mrun; simpl); destruct (Z.eqb_spec p 0); try lia;
      repeat (mrun; simpl); done.
Qed.

Lemma kalloc_ok s p l :
  kmem_ok s (p :: l) ->
  kmem_ok (set_freelist (ld32 (kmemory s) p) s) l /\ valid_page p /\ p ∉ l.
Proof. by intros (_ & Hv & Hn & Hf). Qed.

(** What [kfree] leaves in memory: the page is junk, everything else is as it was. *)
Definition kfree_mem (v : Z) (s : kmem) : mem :=
  st32 (memset (kmemory s) v 1 PGSIZE) v (freelist s).

Lemma kfree_test_false v :
  valid_page v ->
  negb (u32 v mod PGSIZE =? 0) || (v <? kend) || (PHYSTOP <=? v2p v) = false.
Proof.
  intros Hv. pose proof (valid_page_pos v Hv). destruct Hv as (Ha & He & Hk & Hp).
  rewrite u32_small by lia. rewrite Ha. simpl.
  unfold v2p. unfold KERNBASE, PHYSTOP, PGSIZE in *. rewrite u32_small by lia. lia.
Qed.

Lemma kfree_run v s :
  valid_page v ->
  run (kfree v s) = ROk tt (mkKmem (use_lock s) v (kfree_mem v s)).
Proof.
  intros Hv. unfold kfree. rewrite kfree_test_false by done.
  unfold kmemset, store32, kfree_mem. destruct s as [ul fl m].
  destruct ul; repeat (mrun; simpl); done.
Qed.

Lemma kfree_mem_out v s a :
  valid_page v -> a < v \/ v + PGSIZE <= a -> ld8 (kfree_mem v s) a = ld8 (kmemory s) a.
Proof.
  intros Hv Ha. unfold kfree_mem. rewrite ld8_st32, ld8_memset by done.
  unfold PGSIZE in *. addr_cases.
Qed.

Lemma kfree_mem_junk v s a :
  valid_page v -> v + 4 <= a < v + PGSIZE -> ld8 (kfree_mem v s) a = 1.
Proof.
  intros Hv Ha. unfold kfree_mem. rewrite ld8_st32, ld8_memset by done.
  unfold PGSIZE in *. addr_cases.
Qed.

Lemma kfree_ok v s l :
  valid_page v -> kmem_ok s l -> v ∉ l ->
  kmem_ok (mkKmem (use_lock s) v (kfree_mem v s)) (v :: l).
Proof.
  intros Hv Hf Hn. unfold kmem_ok; simpl. split_and!; [done|done|done|].
  unfold kfree_mem at 2. rewrite ld32_st32_eq.
  assert (u32 (freelist s) = freelist s) as ->.
  { destruct l as [|p l]; [by rewrite Hf|].
    destruct Hf as (-> & Hvp & _). pose proof (valid_page_pos p Hvp). apply u32_small; lia. }
  apply (free_pages_ext (kmemory s)); [done|]. intros p Hp.
  pose proof (free_pages_valid _ _ _ _ Hf Hp) as Hvp.
  assert (p <> v) as Hne by (intros ->; done).
  pose proof (valid_pages_disjoint p v Hvp Hv Hne).
  apply ld32_ext. intros i Hi. apply kfree_mem_out; [done|]. unfold PGSIZE in *. lia.
Qed.

Lemma kfree_panic v s :
  0 <= v < 2 ^ 32 -> KERNBASE <= kend ->
  ~ (v mod PGSIZE = 0 /\ kend <= v /\ v < KERNBASE + PHYSTOP) ->
  run (kfree v s) = RPanic "kfree".
Proof.
  intros Hr Hk Hv. unfold kfree, v2p. rewrite u32_small by done.
  assert (negb (v mod PGSIZE =? 0) || (v <? kend) || (PHYSTOP <=? u32 (v - KERNBASE)) = true)
    as ->; [|by rewrite run_panic].
  apply not_false_iff_true. intros E. apply Hv.
  apply orb_false_iff in E as [[E1 E2]%orb_false_iff E3].
  apply negb_false_iff, Z.eqb_eq in E1. apply Z.ltb_ge in E2. apply Z.leb_gt in E3.
  split_and!; [done|done|]. unfold KERNBASE in *. rewrite u32_small in E3 by lia. lia.
Qed.

(** The pages of a range, in the order [freerange] leaves them on the list. *)
Fixpoint range_pages (n : nat) (p : Z) : list Z :=
  match n with O => [] | S k => range_pages k (p + PGSIZE) ++ [p] end.

Lemma elem_of_range_pages n p q :
  q ∈ range_pages n p <-> exists i, 0 <= i < Z.of_nat n /\ q = p + PGSIZE * i.
Proof.
  revert p. induction n as [|n IH]; intros p; cbn [range_pages].
  - split; [set_solver|]. intros (i & ? & _). lia.
  - rewrite elem_of_app, IH, list_elem_of_singleton. split.
    + intros [(i & ? & ->)| ->]; [exists (i + 1)|exists 0]; unfold PGSIZE; split; lia.
    + intros (i & ? & ->). destruct (decide (i = 0)) as [->|]; [right; lia|].
      left. exists (i - 1). split; unfold PGSIZE; lia.
Qed.

Lemma freerange_loop_spec n p vend s l :
  vend <= KERNBASE + PHYSTOP -> kend <= p -> KERNBASE <= p -> p mod PGSIZE = 0 ->
  n = Z.to_nat ((vend - p) / PGSIZE) ->
  kmem_ok s l -> (forall q, q ∈ range_pages n p -> q ∉ l) ->
  exists s', run (freerange_loop n p vend s) = ROk tt s' /\
    kmem_ok s' (range_pages n p ++ l) /\ use_lock s' = use_lock s.
Proof.
  revert p s l. induction n as [|n IH]; intros p s l Hend Hke Hkb Ha Hn Hok Hdis;
    cbn [freerange_loop].
  - destruct (Z.leb_spec (p + PGSIZE) vend) as [Hle|Hgt].
    + exfalso. unfold PGSIZE in *. Z.div_mod_to_equations; lia.
    + mrun. by exists s.
  - assert (p + PGSIZE <= vend) as Hle by (unfold PGSIZE in *; Z.div_mod_to_equations; lia).
    destruct (Z.leb_spec (p + PGSIZE) vend) as [_|]; [|lia].
    assert (valid_page p) as Hv by (split_and!; unfold PGSIZE in *; lia).
    mrun. rewrite kfree_run by done. cbn [rbind].
    destruct (IH (p + PGSIZE) (mkKmem (use_lock s) p (kfree_mem p s)) (p :: l))
      as (s' & Hrun & Hok' & Hul); try lia.
    + unfold PGSIZE in *. lia.
    + unfold PGSIZE in *. lia.
    + unfold PGSIZE in *. Z.div_mod_to_equations; lia.
    + unfold PGSIZE in *. Z.div_mod_to_equations; lia.
    + apply kfree_ok; [done|done|]. apply Hdis. apply elem_of_range_pages.
      exists 0. split; lia.
    + intros q Hq [->|Hin]%elem_of_cons.
      * apply elem_of_range_pages in Hq as (i & Hi & E). unfold PGSIZE in *. lia.
      * apply (Hdis q); [|done]. simpl. set_solver.
    + exists s'. rewrite Hrun. split_and!; [done| |done].
      simpl. by rewrite <- app_assoc.
Qed.

(** * The allocator as a stack of pages *)

Inductive kop := KAlloc | KFree (v : Z).

(** The specification: pop and push.  [None] when the client hands back a page that is
    not the allocator's or that is free already. *)
Fixpoint stack_ops (ops : list kop) (l : list Z) : option (list Z * list Z) :=
  match ops with
  | [] => Some ([], l)
  | KAlloc :: ops' =>
      let '(r, l1) := match l with [] => (0, []) | p :: l1 => (p, l1) end in
      '(rs, l') ← stack_ops ops' l1; Some (r :: rs, l')
  | KFree v :: ops' =>
      if bool_decide (v mod PGSIZE = 0 /\ kend <= v /\ KERNBASE <= v /\ v + PGSIZE <= KERNBASE + PHYSTOP)
         && negb (bool_decide (v ∈ l))
      then stack_ops ops' (v :: l) else None
  end.

(** The code: the results of the [kalloc]s of a sequence of calls. *)
Fixpoint kalloc_ops (ops : list kop) : M kmem (list Z) :=
  match ops with
  | [] => ret []
  | KAlloc :: ops' => r <- kalloc ;; rs <- kalloc_ops ops' ;; ret (r :: rs)
  | KFree v :: ops' => kfree v ;; kalloc_ops ops'
  end.

(** C19. Refinement: on every sequence of calls that gives back only pages it was given, the
    allocator returns what a stack of pages returns, never panics, and its linked list in memory
    is the stack. *)
Theorem kalloc_refines_stack ops s l rs l' :
  kmem_ok s l -> stack_ops ops l = Some (rs, l') ->
  exists s', run (kalloc_ops ops s) = ROk rs s' /\ kmem_ok s' l' /\ use_lock s' = use_lock s.
Proof.
  revert s l rs l'. induction ops as [|[|v] ops IH]; intros s l rs l' Hok Hs;
    cbn [stack_ops kalloc_ops] in *.
  - injection Hs as <- <-. exists s. by mrun.
  - rewrite run_bind, (kalloc_spec s l Hok).
    destruct l as [|p l]; cbn [rbind].
    + destruct (stack_ops ops []) as [[rs1 l1]|] eqn:E; [|done]. injection Hs as <- <-.
      destruct (IH s [] rs1 l1 Hok E) as (s' & Hrun & ? & ?). exists s'. mrun. rewrite Hrun. by mrun.
    + destruct (stack_ops ops l) as [[rs1 l1]|] eqn:E; [|done]. injection Hs as <- <-.
      destruct (IH (set_freelist (ld32 (kmemory s) p) s) l rs1 l1) as (s' & Hrun & ? & ?);
        [by apply kalloc_ok|done|]. exists s'. mrun. rewrite Hrun. by mrun.
  - destruct (bool_decide _ && _) eqn:E; [|done]. apply andb_true_iff in E as [Hv Hn].
    apply bool_decide_eq_true in Hv. apply negb_true_iff, bool_decide_eq_false in Hn.
    rewrite run_bind, kfree_run by done. cbn [rbind].
    destruct (IH (mkKmem (use_lock s) v (kfree_mem v s)) (v :: l) rs l') as (s' & ? & ? & ?); eauto.
    by apply kfree_ok.
Qed.

(** Initialisation: [kinit1] and [kinit2] together put every page of the two ranges on the free
    list, once, and turn locking on. *)
Theorem kinit_all_pages s mid vend :
  kmemory s = ∅ -> freelist s = 0 -> KERNBASE <= kend -> kend <= mid -> mid mod PGSIZE = 0 ->
  mid <= vend -> vend <= KERNBASE + PHYSTOP -> vend mod PGSIZE = 0 ->
  exists s' l, run ((kinit1 kend mid ;; kinit2 mid vend) s) = ROk tt s' /\
    kmem_ok s' l /\ use_lock s' = true /\
    (forall p, p ∈ l <-> p mod PGSIZE = 0 /\ kend <= p /\ p + PGSIZE <= vend).
Proof.
  intros Hm Hfl Hkb Hmid Hmm Hle Hend Hem. unfold kinit1, kinit2. unfold PGSIZE, KERNBASE, PHYSTOP in *.
  assert (PGROUNDUP kend = 4096 * ((kend + 4095) / 4096)) as E1 by (apply PGROUNDUP_eq; lia).
  assert (PGROUNDUP mid = mid) as E2 by (apply PGROUNDUP_of_aligned; lia).
  assert (PGROUNDUP kend <= mid) by (rewrite E1; Z.div_mod_to_equations; lia).
  set (n1 := Z.to_nat ((mid - PGROUNDUP kend) / 4096)). set (n2 := Z.to_nat ((vend - mid) / 4096)).
  assert (PGROUNDUP kend + 4096 * Z.of_nat n1 = mid) as Hn1
    by (subst n1; rewrite E1; Z.div_mod_to_equations; lia).
  assert (mid + 4096 * Z.of_nat n2 = vend) as Hn2 by (subst n2; Z.div_mod_to_equations; lia).
  destruct (freerange_loop_spec n1 (PGROUNDUP kend) mid (set_use_lock false s) [])
    as (s1 & Hrun1 & Hok1 & _); unfold PGSIZE, KERNBASE, PHYSTOP in *; try done.
  { lia. }
  { rewrite E1; Z.div_mod_to_equations; lia. }
  { rewrite E1; Z.div_mod_to_equations; lia. }
  { rewrite E1; Z.div_mod_to_equations; lia. }
  { set_solver. }
  destruct (freerange_loop_spec n2 mid vend s1 (range_pages n1 (PGROUNDUP kend)))
    as (s2 & Hrun2 & Hok2 & _); unfold PGSIZE, KERNBASE, PHYSTOP in *; try done; try lia.
  { by rewrite app_nil_r in Hok1. }
  { intros q (i & Hi & ->)%elem_of_range_pages (j & Hj & E)%elem_of_range_pages. unfold PGSIZE in *. lia. }
  exists (set_use_lock true s2), (range_pages n2 mid ++ range_pages n1 (PGROUNDUP kend)).
  split; [|split; [|split]]; [|done|done|].
  - mrun. unfold freerange. rewrite E2. unfold PGSIZE. fold n1 n2. rewrite Hrun1. cbn [rbind]. mrun.
    rewrite Hrun2. cbn [rbind]. by mrun.
  - intros p. rewrite elem_of_app, !elem_of_range_pages. unfold PGSIZE. split.
    + intros [(i & Hi & ->)|(i & Hi & ->)]; rewrite ?E1; Z.div_mod_to_equations; lia.
    + intros (Hp & Hk & He). destruct (decide (mid <= p)); [left|right].
      * exists ((p - mid) / 4096). Z.div_mod_to_equations; lia.
      * exists ((p - PGROUNDUP kend) / 4096). rewrite E1 in *. Z.div_mod_to_equations; lia.
Qed.

(** A free list laid out in memory, for concrete states. *)
Fixpoint link (l : list Z) (m : mem) : mem :=
  match l with
  | [] => m
  | p :: l' => st32 (link l' m) p (default 0 (head l'))
  end.

Definition linked (ul : bool) (l : list Z) (m : mem) : kmem :=
  mkKmem ul (default 0 (head l)) (link l m).

Lemma ld8_link l m a : (forall p, p ∈ l -> ~ (p <= a < p + 4)) -> ld8 (link l m) a = ld8 m a.
Proof.
  induction l as [|p l IH]; intros Ha; [done|]. cbn [link]. rewrite ld8_st32.
  pose proof (Ha p ltac:(set_solver)). rewrite IH by set_solver. addr_cases.
Qed.

Lemma linked_ok ul l m : Forall valid_page l -> NoDup l -> kmem_ok (linked ul l m) l.
Proof.
  unfold kmem_ok, linked; cbn [freelist kmemory]. induction l as [|p l IH]; intros Hv Hn; [done|].
  apply Forall_cons_1 in Hv as [Hp Hv]. apply list.NoDup_cons in Hn as [Hpn Hn].
  split_and!; [done|done|done|]. cbn [link]. rewrite ld32_st32_eq.
  assert (forall q, q ∈ l -> valid_page q) as Hvl by (by rewrite list.Forall_forall in Hv).
  assert (u32 (default 0 (head l)) = default 0 (head l)) as ->.
  { destruct l as [|q l]; [done|]. simpl. apply u32_small.
    pose proof (valid_page_pos q (Hvl q ltac:(set_solver))). lia. }
  apply (free_pages_ext (link l m)); [by apply IH|]. intros q Hq.
  assert (q <> p) as Hne by (intros ->; done).
  pose proof (valid_pages_disjoint q p (Hvl q Hq) Hp Hne). unfold PGSIZE in *.
  apply ld32_st32_ne. lia.
Qed.

(** [n] consecutive pages from [base]. *)
Definition page_run (base : Z) (n : nat) : list Z := (fun i => base + PGSIZE * Z.of_nat i) <$> seq 0 n.

Lemma page_run_valid base n :
  base mod PGSIZE = 0 -> kend <= base -> KERNBASE <= base ->
  base + PGSIZE * Z.of_nat n <= KERNBASE + PHYSTOP -> Forall valid_page (page_run base n).
Proof.
  intros Ha Hk Hb He. apply list.Forall_forall. intros p Hp.
  apply list_elem_of_fmap in Hp as (i & -> & Hi). apply elem_of_seq in Hi.
  unfold valid_page, PGSIZE in *. split_and!; try lia. Z.div_mod_to_equations; lia.
Qed.

Lemma page_run_NoDup base n : NoDup (page_run base n).
Proof. apply NoDup_fmap_2; [|apply NoDup_seq]. intros i j. unfold PGSIZE. lia. Qed.

Lemma page_run_length base n : length (page_run base n) = n.
Proof. unfold page_run. by rewrite length_fmap, length_seq. Qed.

Lemma page_run_ge base n p : p ∈ page_run base n -> base <= p.
Proof. intros (i & -> & Hi)%list_elem_of_fmap. unfold PGSIZE. lia. Qed.

End kalloc.

(** * Concrete states *)

Lemma kalloc_refines_stack_witness :
  exists s', run (kalloc_ops 0x80400000 [KAlloc; KAlloc; KFree 0x80400000; KAlloc; KAlloc]
      (linked true [0x80400000; 0x80401000] ∅)) =
    ROk [0x80400000; 0x80401000; 0x80400000; 0] s' /\ kmem_ok 0x80400000 s' [] /\ use_lock s' = true.
Proof.
  apply (kalloc_refines_stack 0x80400000 _ (linked true [0x80400000; 0x80401000] ∅)
           [0x80400000; 0x80401000]); [|by vm_compute].
  apply linked_ok; [|apply (bool_decide_unpack _); reflexivity].
  repeat constructor; unfold valid_page; by vm_compute.
Defined.

Lemma kinit_all_pages_witness :
  exists s' l, run ((kinit1 0x80300010 0x80300010 0x80400000 ;; kinit2 0x80300010 0x80400000 0x8E000000)
      (mkKmem false 0 ∅)) = ROk tt s' /\
    kmem_ok 0x80300010 s' l /\ use_lock s' = true /\
    (forall p, p ∈ l <-> p mod PGSIZE = 0 /\ 0x80300010 <= p /\ p + PGSIZE <= 0x8E000000).
Proof. by apply kinit_all_pages. Defined.
