(* ===== verification/PageTable.v ===== *)
(** Two-level page tables: [walkpgdir] and [mappages] of vm.c, copied verbatim at
    the end of shm.h.

    Directories and tables live in kernel memory.  [pte] is the abstraction: the
    page-table entry the hardware finds for an address, 0 where there is no table.
    [pt_ok] says that the tables of a directory are distinct allocator pages, none
    of them free; the theorems give the effect of the two routines on [pte] and
    show that no other memory changes. *)

From stdpp Require Import base tactics option list gmap sets strings numbers.
From Stdlib Require Import ZArith Lia.
From S2P Require Import Prelude Mem Layout Kalloc.
Open Scope Z_scope.

Definition present (e : Z) : bool := negb (Z.land e PTE_P =? 0).

Definition walkpgdir (pgdir va : Z) (alloc : bool) : M kmem Z :=
  let pde := pgdir + 4 * PDX va in
  e <- load32 pde ;;
  if present e then ret (p2v (PTE_ADDR e) + 4 * PTX va)
  else if negb alloc then ret 0 else
  pgtab <- kalloc ;;
  if pgtab =? 0 then ret 0 else
  kmemset pgtab 0 PGSIZE ;;
  store32 pde (Z.lor (Z.lor (Z.lor (v2p pgtab) PTE_P) PTE_W) PTE_U) ;;
  ret (pgtab + 4 * PTX va).

(** The loop of [mappages] from page [a] to page [last]. *)
Fixpoint mappages_loop (fuel : nat) (pgdir a last pa perm : Z) : M kmem Z :=
  match fuel with
  | O => nofuel
  | S k =>
      pte <- walkpgdir pgdir a true ;;
      if pte =? 0 then ret (-1) else
      e <- load32 pte ;;
      if present e then panic "remap" else
      store32 pte (Z.lor (Z.lor pa perm) PTE_P) ;;
      if a =? last then ret 0
      else mappages_loop k pgdir (u32 (a + PGSIZE)) last (u32 (pa + PGSIZE)) perm
  end.

(** The loop visits [(last - a) / PGSIZE + 1] pages, counted modulo the word size. *)
Definition mappages (pgdir va size pa perm : Z) : M kmem Z :=
  let a := PGROUNDDOWN va in
  let last := PGROUNDDOWN (u32 (u32 va + size - 1)) in
  mappages_loop (S (Z.to_nat (u32 (last - a) / PGSIZE))) pgdir a last pa perm.

(** * The entry the hardware finds *)

Definition pgtab_of (m : mem) (pgdir i : Z) : option Z :=
  let e := ld32 m (pgdir + 4 * i) in
  if present e then Some (p2v (PTE_ADDR e)) else None.

Definition pte (m : mem) (pgdir va : Z) : Z :=
  match pgtab_of m pgdir (PDX va) with
  | Some t => ld32 m (t + 4 * PTX va)
  | None => 0
  end.

Section pagetable.
Variable kend : Z.
Abbreviation valid_page := (valid_page kend).
Abbreviation kmem_ok := (kmem_ok kend).

Record pt_ok (m : mem) (pgdir : Z) (l : list Z) : Prop := {
  pt_dir : valid_page pgdir;
  pt_dir_used : pgdir ∉ l;
  pt_tab : forall i t, 0 <= i < 1024 -> pgtab_of m pgdir i = Some t ->
    valid_page t /\ t <> pgdir /\ (t ∉ l);
  pt_inj : forall i j t, 0 <= i < 1024 -> 0 <= j < 1024 ->
    pgtab_of m pgdir i = Some t -> pgtab_of m pgdir j = Some t -> i = j
}.

(** The memory of a page table: its directory and its tables. *)
Definition in_page (a p : Z) : Prop := p <= a < p + PGSIZE.
Definition pt_memory (m : mem) (pgdir a : Z) : Prop :=
  in_page a pgdir \/ exists i t, 0 <= i < 1024 /\ pgtab_of m pgdir i = Some t /\ in_page a t.

(** Nothing changed but the page table and pages taken from the free list. *)
Definition pt_frame (m m' : mem) (pgdir : Z) (l : list Z) : Prop :=
  forall a, ~ pt_memory m pgdir a -> (forall p, p ∈ l -> ~ in_page a p) -> ld8 m' a = ld8 m a.

(** How many tables the directory has yet to get. *)
Definition absent (m : mem) (pgdir : Z) : nat :=
  length (filter (fun i => pgtab_of m pgdir i = None) (seqZ 0 1024)).

(** * Theorems *)

Lemma present_spec e : present e = Z.odd e.
Proof.
  unfold present, PTE_P. change 1 with (Z.ones 1). rewrite Z.land_ones by lia.
  change (2 ^ 1) with 2. rewrite Zmod_odd. by destruct (Z.odd e).
Qed.

Lemma present_0 : present 0 = false.
Proof. done. Qed.

Lemma lor_flags pa f : Z.lor (Z.lor pa f) PTE_P = Z.lor pa (Z.lor f PTE_P).
Proof. symmetry. apply Z.lor_assoc. Qed.

Lemma flags_P_range f : 0 <= f < 4096 -> 0 <= Z.lor f PTE_P < 4096.
Proof.
  intros Hf. split; [apply Z.lor_nonneg; unfold PTE_P; lia|].
  destruct (decide (f = 0)) as [->|]; [done|].
  change 4096 with (2 ^ 12). apply Z.log2_lt_pow2.
  - apply Z.le_neq. split; [apply Z.lor_nonneg; unfold PTE_P; lia|].
    intros E. symmetry in E. by apply Z.lor_eq_0_iff in E as [_ ?].
  - rewrite Z.log2_lor by (unfold PTE_P; lia).
    apply Z.max_lub_lt; [apply Z.log2_lt_pow2; lia|done].
Qed.

Lemma present_mapped pa f : present (Z.lor (Z.lor pa f) PTE_P) = true.
Proof.
  unfold present. apply negb_true_iff, Z.eqb_neq. intros E.
  apply (f_equal (fun z => Z.testbit z 0)) in E.
  rewrite Z.land_spec, Z.lor_spec in E. unfold PTE_P in E.
  change (Z.testbit 1 0) with true in E. rewrite orb_true_r in E. done.
Qed.

Lemma walkpgdir_find pgdir va s :
  run (walkpgdir pgdir va false s) =
    ROk (match pgtab_of (kmemory s) pgdir (PDX va) with
         | Some t => t + 4 * PTX va
         | None => 0 end) s.
Proof.
  unfold walkpgdir, load32, pgtab_of. mrun. destruct (present _); by mrun.
Qed.

(** A directory entry built from a table page points back at the page. *)
Lemma pde_of_page p :
  valid_page p ->
  let e := u32 (Z.lor (Z.lor (Z.lor (v2p p) PTE_P) PTE_W) PTE_U) in
  present e = true /\ p2v (PTE_ADDR e) = p.
Proof.
  intros Hv e. pose proof (valid_page_pos _ _ Hv) as Hp.
  destruct Hv as (Ha & _ & Hk & Hs).
  assert (v2p p = p - KERNBASE) as E.
  { unfold v2p, KERNBASE, PHYSTOP, PGSIZE in *. apply u32_small. lia. }
  assert (0 <= v2p p < 2 ^ 31 /\ v2p p mod 4096 = 0) as [Hr Hm].
  { rewrite E. unfold KERNBASE, PHYSTOP, PGSIZE in *. split; [lia|].
    rewrite Zminus_mod, Ha. done. }
  assert (e = Z.lor (v2p p) 7) as ->.
  { subst e. rewrite <- !Z.lor_assoc. apply u32_small.
    change (Z.lor PTE_P (Z.lor PTE_W PTE_U)) with 7.
    rewrite lor_page_flags by lia. lia. }
  split.
  - rewrite lor_page_flags by lia. rewrite present_spec, Z.odd_add.
    assert (Z.odd (v2p p) = false) as ->; [|done].
    pose proof (Zmod_odd (v2p p)) as Ho. destruct (Z.odd (v2p p)); [|done].
    Z.div_mod_to_equations; lia.
  - rewrite PTE_ADDR_lor by lia. apply p2v_v2p. lia.
Qed.

(** Where the words of a page table are. *)
Lemma pde_in_page pgdir i : 0 <= i < 1024 -> forall k, 0 <= k < 4 -> in_page (pgdir + 4 * i + k) pgdir.
Proof. unfold in_page, PGSIZE. lia. Qed.

Lemma in_page_disjoint a p q : valid_page p -> valid_page q -> p <> q -> in_page a p -> ~ in_page a q.
Proof.
  intros Hp Hq Hne Ha Ha'.
  pose proof (valid_pages_disjoint _ p q Hp Hq Hne). unfold in_page in *. lia.
Qed.

(** A memory that agrees on the directory has the same tables. *)
Lemma pgtab_of_ext m m' pgdir i :
  0 <= i < 1024 -> (forall a, in_page a pgdir -> ld8 m' a = ld8 m a) ->
  pgtab_of m' pgdir i = pgtab_of m pgdir i.
Proof.
  intros Hi E. unfold pgtab_of.
  assert (ld32 m' (pgdir + 4 * i) = ld32 m (pgdir + 4 * i)) as ->; [|done].
  apply ld32_ext. intros k Hk. by apply E, pde_in_page.
Qed.

Lemma absent_ext m m' pgdir :
  (forall i, 0 <= i < 1024 -> pgtab_of m' pgdir i = pgtab_of m pgdir i) ->
  absent m' pgdir = absent m pgdir.
Proof.
  intros E. unfold absent. f_equal. apply filter_ext_elem.
  intros i Hi%elem_of_seqZ. by rewrite E by lia.
Qed.

(** A table for a directory entry that had none. *)
Lemma absent_insert m m' pgdir i t :
  0 <= i < 1024 -> pgtab_of m pgdir i = None ->
  (forall j, 0 <= j < 1024 ->
     pgtab_of m' pgdir j = if j =? i then Some t else pgtab_of m pgdir j) ->
  absent m pgdir = S (absent m' pgdir).
Proof.
  intros Hi Hn E. unfold absent.
  replace 1024 with (i + (1 + (1023 - i))) by lia.
  rewrite (seqZ_app 0 i), (seqZ_app _ 1) by lia. rewrite !list.filter_app, !length_app.
  assert (seqZ (0 + i) 1 = [i]) as ->.
  { rewrite (seqZ_cons (0 + i) 1) by lia. rewrite seqZ_nil by lia. f_equal; lia. }
  rewrite !filter_cons, !filter_nil, decide_True by done.
  rewrite decide_False by (rewrite E, Z.eqb_refl by done; done).
  enough (forall lo n, (forall j, lo <= j < lo + n -> 0 <= j < 1024 /\ j <> i) ->
    filter (fun j => pgtab_of m' pgdir j = None) (seqZ lo n) =
    filter (fun j => pgtab_of m pgdir j = None) (seqZ lo n)) as Ef.
  { rewrite !Ef by (intros; lia). simpl. lia. }
  intros lo n Hr. apply filter_ext_elem. intros j [Hj1 Hj2]%elem_of_seqZ.
  destruct (Hr j ltac:(lia)) as [Hj3 Hne]. rewrite E by done.
  by destruct (Z.eqb_spec j i).
Qed.

Lemma absent_pos m pgdir i :
  0 <= i < 1024 -> pgtab_of m pgdir i = None -> (0 < absent m pgdir)%nat.
Proof.
  intros Hi Hn. unfold absent. destruct (filter _ _) eqn:E; simpl; [|lia].
  exfalso. apply (not_elem_of_nil i). rewrite <- E. apply list_elem_of_filter.
  split; [done|]. apply elem_of_seqZ. lia.
Qed.

Lemma pt_ok_shrink m pgdir p l : pt_ok m pgdir (p :: l) -> pt_ok m pgdir l.
Proof.
  intros [H1 H2 H3 H4]. split; [done|set_solver| |done].
  intros i t Hi Ht. destruct (H3 i t Hi Ht) as (? & ? & ?). set_solver.
Qed.

(** The state after [walkpgdir] made a table out of the free page [p]. *)
Definition with_table (pgdir i p : Z) (s : kmem) : kmem :=
  mkKmem (use_lock s) (ld32 (kmemory s) p)
    (st32 (memset (kmemory s) p 0 PGSIZE) (pgdir + 4 * i)
       (Z.lor (Z.lor (Z.lor (v2p p) PTE_P) PTE_W) PTE_U)).

Lemma walkpgdir_alloc_run pgdir va s l :
  kmem_ok s l ->
  run (walkpgdir pgdir va true s) =
    match pgtab_of (kmemory s) pgdir (PDX va), l with
    | Some t, _ => ROk (t + 4 * PTX va) s
    | None, [] => ROk 0 s
    | None, p :: _ => ROk (p + 4 * PTX va) (with_table pgdir (PDX va) p s)
    end.
Proof.
  intros Hok. unfold walkpgdir, load32, pgtab_of. mrun.
  destruct (present _); [by mrun|]. cbn [negb]. mrun.
  rewrite (kalloc_spec kend s l Hok). destruct l as [|p l]; cbn [rbind]; [by mrun|].
  destruct Hok as (_ & Hv & _). pose proof (valid_page_pos _ _ Hv).
  destruct (Z.eqb_spec p 0); [lia|]. unfold kmemset, store32. mrun. simpl. done.
Qed.

Section with_table.
Context (s : kmem) (pgdir i p : Z) (l : list Z).
Hypothesis Hi : 0 <= i < 1024.
Hypothesis Hok : kmem_ok s (p :: l).
Hypothesis Hpt : pt_ok (kmemory s) pgdir (p :: l).
Hypothesis Hnone : pgtab_of (kmemory s) pgdir i = None.
Let m' := kmemory (with_table pgdir i p s).

Local Lemma wt_valid : valid_page p.
Proof. by destruct Hok as (_ & ? & _). Qed.

Local Lemma wt_ne : p <> pgdir.
Proof. intros ->. apply (pt_dir_used _ _ _ Hpt). set_solver. Qed.

Lemma with_table_out a : ~ in_page a pgdir -> ~ in_page a p -> ld8 m' a = ld8 (kmemory s) a.
Proof.
  intros H1 H2. subst m'. unfold with_table; simpl. rewrite ld8_st32, ld8_memset by done.
  unfold in_page, PGSIZE in *. addr_cases.
Qed.

Lemma with_table_pgtab j :
  0 <= j < 1024 ->
  pgtab_of m' pgdir j = if j =? i then Some p else pgtab_of (kmemory s) pgdir j.
Proof.
  intros Hj. subst m'. unfold pgtab_of, with_table; cbn [kmemory].
  pose proof wt_valid as Hv. pose proof wt_ne as Hne.
  pose proof (valid_pages_disjoint _ _ _ Hv (pt_dir _ _ _ Hpt) Hne) as Hd.
  unfold PGSIZE in *. destruct (Z.eqb_spec j i) as [->|Hji].
  - rewrite ld32_st32_eq. destruct (pde_of_page p Hv) as [-> ->]. done.
  - rewrite ld32_st32_ne, ld32_memset_out by (unfold PGSIZE in *; lia). done.
Qed.

Lemma with_table_kmem_ok : kmem_ok (with_table pgdir i p s) l.
Proof.
  destruct Hok as (_ & Hv & Hn & Hf). unfold kmem_ok, with_table; simpl.
  apply (free_pages_ext _ (kmemory s)); [done|]. intros q Hq.
  assert (valid_page q) as Hvq by (by eapply free_pages_valid).
  assert (q <> p) by (intros ->; done).
  assert (q <> pgdir) by (intros ->; apply (pt_dir_used _ _ _ Hpt); set_solver).
  apply ld32_ext. intros k Hk. apply with_table_out.
  - apply (in_page_disjoint _ q); [done|apply (pt_dir _ _ _ Hpt)|done|].
    unfold in_page, PGSIZE. lia.
  - apply (in_page_disjoint _ q); [done|done|done|]. unfold in_page, PGSIZE. lia.
Qed.

Lemma with_table_pt_ok : pt_ok m' pgdir l.
Proof.
  destruct Hok as (_ & Hv & Hn & Hf). pose proof wt_ne.
  split.
  - apply (pt_dir _ _ _ Hpt).
  - pose proof (pt_dir_used _ _ _ Hpt). set_solver.
  - intros j t Hj. rewrite with_table_pgtab by done.
    destruct (Z.eqb_spec j i) as [->|].
    + intros [= <-]. done.
    + intros Ht. destruct (pt_tab _ _ _ Hpt j t Hj Ht) as (? & ? & ?). set_solver.
  - intros j k t Hj Hk. rewrite !with_table_pgtab by done.
    destruct (Z.eqb_spec j i) as [->|], (Z.eqb_spec k i) as [->|]; intros Ht Ht'; try done.
    + injection Ht as <-. destruct (pt_tab _ _ _ Hpt k p Hk Ht') as (_ & _ & Hx). set_solver.
    + injection Ht' as <-. destruct (pt_tab _ _ _ Hpt j p Hj Ht) as (_ & _ & Hx). set_solver.
    + by eapply (pt_inj _ _ _ Hpt).
Qed.

(** A fresh table maps nothing, so no translation changes. *)
Lemma with_table_pte va : pte m' pgdir va = pte (kmemory s) pgdir va.
Proof.
  pose proof (PDX_range va). pose proof (PTX_range va).
  unfold pte. rewrite with_table_pgtab by done.
  pose proof wt_valid as Hv. pose proof wt_ne as Hne.
  pose proof (valid_pages_disjoint _ _ _ Hv (pt_dir _ _ _ Hpt) Hne) as Hd.
  destruct (Z.eqb_spec (PDX va) i) as [E|E].
  - rewrite E, Hnone. subst m'. unfold with_table; simpl. unfold PGSIZE in *.
    rewrite ld32_st32_ne by lia. apply ld32_memset_0; unfold PGSIZE; lia.
  - destruct (pgtab_of (kmemory s) pgdir (PDX va)) as [t|] eqn:Ht; [|done].
    destruct (pt_tab _ _ _ Hpt (PDX va) t ltac:(done) Ht) as (Hvt & Hnt & Hnl).
    apply ld32_ext. intros k Hk. apply with_table_out.
    + apply (in_page_disjoint _ t); [done|apply (pt_dir _ _ _ Hpt)|done|].
      unfold in_page, PGSIZE. lia.
    + apply (in_page_disjoint _ t); [done|done|set_solver|]. unfold in_page, PGSIZE. lia.
Qed.

Lemma with_table_frame : pt_frame (kmemory s) m' pgdir (p :: l).
Proof.
  intros a Ha Hl. apply with_table_out.
  - intros Hin. apply Ha. by left.
  - apply Hl. set_solver.
Qed.
End with_table.

(** Writing one entry of an existing table. *)
Section set_pte.
Context (s : kmem) (pgdir va t v : Z) (l : list Z).
Hypothesis Hok : kmem_ok s l.
Hypothesis Hpt : pt_ok (kmemory s) pgdir l.
Hypothesis Ht : pgtab_of (kmemory s) pgdir (PDX va) = Some t.
Let m' := st32 (kmemory s) (t + 4 * PTX va) v.

Local Lemma sp_tab : valid_page t /\ t <> pgdir /\ (t ∉ l).
Proof. exact (pt_tab _ _ _ Hpt (PDX va) t (PDX_range va) Ht). Qed.

Lemma set_pte_out a : ~ in_page a t -> ld8 m' a = ld8 (kmemory s) a.
Proof.
  intros Ha. pose proof (PTX_range va). subst m'. rewrite ld8_st32.
  unfold in_page, PGSIZE in *. addr_cases.
Qed.

Lemma set_pte_pgtab j : 0 <= j < 1024 -> pgtab_of m' pgdir j = pgtab_of (kmemory s) pgdir j.
Proof.
  intros Hj. destruct sp_tab as (Hv & Hne & _). apply pgtab_of_ext; [done|].
  intros a Ha. apply set_pte_out.
  apply (in_page_disjoint _ pgdir); [apply (pt_dir _ _ _ Hpt)|done|done|done].
Qed.

Lemma set_pte_kmem_ok : kmem_ok (set_kmemory m' s) l.
Proof.
  destruct sp_tab as (Hv & Hne & Hn). unfold kmem_ok; simpl.
  apply (free_pages_ext _ (kmemory s)); [done|]. intros q Hq.
  assert (valid_page q) as Hvq by (by eapply free_pages_valid).
  apply ld32_ext. intros k Hk. apply set_pte_out.
  apply (in_page_disjoint _ q); [done|done| |unfold in_page, PGSIZE; lia].
  intros ->. done.
Qed.

Lemma set_pte_pt_ok : pt_ok m' pgdir l.
Proof.
  split; [apply (pt_dir _ _ _ Hpt)|apply (pt_dir_used _ _ _ Hpt)| |].
  - intros j t' Hj. rewrite set_pte_pgtab by done. by apply (pt_tab _ _ _ Hpt).
  - intros j k t' Hj Hk. rewrite !set_pte_pgtab by done. by apply (pt_inj _ _ _ Hpt).
Qed.

Lemma set_pte_pte va' :
  pte m' pgdir va' =
    if (PDX va' =? PDX va) && (PTX va' =? PTX va) then u32 v else pte (kmemory s) pgdir va'.
Proof.
  pose proof (PDX_range va'). pose proof (PTX_range va'). pose proof (PTX_range va).
  destruct sp_tab as (Hv & Hne & _).
  unfold pte. rewrite set_pte_pgtab by done.
  destruct (Z.eqb_spec (PDX va') (PDX va)) as [E|E]; simpl.
  - rewrite E, Ht. subst m'. destruct (Z.eqb_spec (PTX va') (PTX va)) as [->|].
    + apply ld32_st32_eq.
    + apply ld32_st32_ne. lia.
  - destruct (pgtab_of (kmemory s) pgdir (PDX va')) as [t'|] eqn:Ht'; [|done].
    destruct (pt_tab _ _ _ Hpt (PDX va') t' ltac:(done) Ht') as (Hv' & Hne' & _).
    apply ld32_ext. intros k Hk. apply set_pte_out.
    apply (in_page_disjoint _ t'); [done|done| |unfold in_page, PGSIZE; lia].
    intros ->. apply E. by apply (pt_inj _ _ _ Hpt _ _ t); [|apply PDX_range|..].
Qed.

Lemma set_pte_frame : pt_frame (kmemory s) m' pgdir l.
Proof.
  intros a Ha _. apply set_pte_out. intros Hin. apply Ha. right.
  exists (PDX va), t. split; [apply PDX_range|done].
Qed.
End set_pte.

(** Page-table memory only grows, by pages of the free list. *)
Lemma pt_memory_with_table s pgdir i p l a :
  0 <= i < 1024 -> kmem_ok s (p :: l) -> pt_ok (kmemory s) pgdir (p :: l) ->
  pgtab_of (kmemory s) pgdir i = None ->
  pt_memory (kmemory (with_table pgdir i p s)) pgdir a ->
  pt_memory (kmemory s) pgdir a \/ in_page a p.
Proof.
  intros Hi Hok Hpt Hnone [Ha|(j & t & Hj & Ht & Ha)]; [by left; left|].
  rewrite (with_table_pgtab _ _ _ _ l) in Ht by done.
  destruct (Z.eqb_spec j i) as [->|].
  - injection Ht as <-. by right.
  - left. right. by exists j, t.
Qed.

Lemma pt_memory_set_pte s pgdir va t v l a :
  pt_ok (kmemory s) pgdir l -> pgtab_of (kmemory s) pgdir (PDX va) = Some t ->
  pt_memory (st32 (kmemory s) (t + 4 * PTX va) v) pgdir a -> pt_memory (kmemory s) pgdir a.
Proof.
  intros Hpt Ht [Ha|(j & t' & Hj & Ht' & Ha)]; [by left|].
  rewrite (set_pte_pgtab _ _ _ _ _ l) in Ht' by done. right. by exists j, t'.
Qed.

(** What every sequence of page-table updates preserves: the invariants hold with
    fewer free pages, and only the page table and the pages taken changed. *)
Record pt_ext (pgdir : Z) (s : kmem) (l : list Z) (s' : kmem) (l' taken : list Z) : Prop := {
  ext_list : l = taken ++ l';
  ext_kmem : kmem_ok s' l';
  ext_pt : pt_ok (kmemory s') pgdir l';
  ext_lock : use_lock s' = use_lock s;
  ext_frame : forall a, ~ pt_memory (kmemory s) pgdir a ->
    (forall p, p ∈ taken -> ~ in_page a p) -> ld8 (kmemory s') a = ld8 (kmemory s) a;
  ext_grow : forall a, pt_memory (kmemory s') pgdir a ->
    pt_memory (kmemory s) pgdir a \/ exists p, p ∈ taken /\ in_page a p
}.

Lemma pt_ext_refl pgdir s l :
  kmem_ok s l -> pt_ok (kmemory s) pgdir l -> pt_ext pgdir s l s l [].
Proof. intros Hok Hpt. split; auto. Qed.

Lemma pt_ext_trans pgdir s l s1 l1 s2 l2 t1 t2 :
  pt_ext pgdir s l s1 l1 t1 -> pt_ext pgdir s1 l1 s2 l2 t2 -> pt_ext pgdir s l s2 l2 (t1 ++ t2).
Proof.
  intros E1 E2. split.
  - rewrite (ext_list _ _ _ _ _ _ E1), (ext_list _ _ _ _ _ _ E2). by rewrite app_assoc.
  - apply (ext_kmem _ _ _ _ _ _ E2).
  - apply (ext_pt _ _ _ _ _ _ E2).
  - rewrite (ext_lock _ _ _ _ _ _ E2). apply (ext_lock _ _ _ _ _ _ E1).
  - intros a Ha Ht. rewrite (ext_frame _ _ _ _ _ _ E2).
    + apply (ext_frame _ _ _ _ _ _ E1); [done|]. set_solver.
    + intros Hm. apply (ext_grow _ _ _ _ _ _ E1) in Hm as [?|(p & ? & ?)]; [done|].
      apply (Ht p); set_solver.
    + set_solver.
  - intros a Ha. apply (ext_grow _ _ _ _ _ _ E2) in Ha as [Ha|(p & ? & ?)].
    + apply (ext_grow _ _ _ _ _ _ E1) in Ha as [?|(p & ? & ?)]; [by left|].
      right. exists p. set_solver.
    + right. exists p. set_solver.
Qed.

Lemma pt_ext_set_pte pgdir va t v s l :
  kmem_ok s l -> pt_ok (kmemory s) pgdir l ->
  pgtab_of (kmemory s) pgdir (PDX va) = Some t ->
  pt_ext pgdir s l (set_kmemory (st32 (kmemory s) (t + 4 * PTX va) v) s) l [].
Proof.
  intros Hok Hpt Ht. split; [done| | |done| |]; simpl.
  - by apply (set_pte_kmem_ok _ pgdir).
  - by apply set_pte_pt_ok.
  - intros a Ha _. apply set_pte_out. intros Hin. apply Ha. right.
    exists (PDX va), t. split; [apply PDX_range|done].
  - intros a Ha. left. by eapply pt_memory_set_pte.
Qed.

Lemma pt_ext_with_table pgdir i p s l :
  0 <= i < 1024 -> kmem_ok s (p :: l) -> pt_ok (kmemory s) pgdir (p :: l) ->
  pgtab_of (kmemory s) pgdir i = None ->
  pt_ext pgdir s (p :: l) (with_table pgdir i p s) l [p].
Proof.
  intros Hi Hok Hpt Hn. split; [done| | |done| |].
  - by apply with_table_kmem_ok.
  - by apply with_table_pt_ok.
  - intros a Ha Hp. apply with_table_out; [done| |apply Hp; set_solver].
    intros Hin. apply Ha. by left.
  - intros a Ha. apply (pt_memory_with_table s pgdir i p l) in Ha as [?|?]; try done.
    + by left.
    + right. exists p. split; [set_solver|done].
Qed.

(** [walkpgdir] with [alloc] set: fails only when the allocator is empty, and
    otherwise returns the address of the entry without changing any entry. *)
Lemma walkpgdir_alloc pgdir va s l :
  kmem_ok s l -> pt_ok (kmemory s) pgdir l ->
  exists r s' l' taken, run (walkpgdir pgdir va true s) = ROk r s' /\
    pt_ext pgdir s l s' l' taken /\
    (length taken + absent (kmemory s') pgdir = absent (kmemory s) pgdir)%nat /\
    (forall va', pte (kmemory s') pgdir va' = pte (kmemory s) pgdir va') /\
    ((r = 0 /\ l' = [] /\ s' = s /\ (0 < absent (kmemory s) pgdir)%nat) \/
     exists t, r = t + 4 * PTX va /\ 0 < t /\ pgtab_of (kmemory s') pgdir (PDX va) = Some t).
Proof.
  intros Hok Hpt. rewrite (walkpgdir_alloc_run pgdir va s l Hok).
  destruct (pgtab_of (kmemory s) pgdir (PDX va)) as [t|] eqn:Ht.
  - eexists _, s, l, []. split; [done|]. split; [by apply pt_ext_refl|].
    split; [done|]. split; [done|].
    right. exists t. split_and!; [done| |done].
    destruct (pt_tab _ _ _ Hpt _ _ (PDX_range va) Ht) as (Hv & _).
    pose proof (valid_page_pos _ _ Hv). lia.
  - destruct l as [|p l].
    + eexists _, s, [], []. split; [done|]. split; [by apply pt_ext_refl|].
      split; [done|]. split; [done|]. left. split_and!; [done..|].
      eapply absent_pos; [|done]. apply PDX_range.
    + eexists _, _, l, [p]. split; [done|].
      split; [apply pt_ext_with_table; [apply PDX_range|done..]|].
      split; [symmetry; apply (absent_insert _ _ _ (PDX va) p); [apply PDX_range|done|];
        intros; apply (with_table_pgtab _ _ _ _ l); [apply PDX_range|done..]|].
      split; [intros va'; apply (with_table_pte _ _ _ _ l); [apply PDX_range|done..]|].
      right. exists p. split_and!; [done| |].
      * destruct Hok as (_ & Hv & _). pose proof (valid_page_pos _ _ Hv). lia.
      * rewrite (with_table_pgtab _ _ _ _ l); [|apply PDX_range|done..|apply PDX_range].
        by rewrite Z.eqb_refl.
Qed.

Lemma same_page va a :
  0 <= va < 2 ^ 32 -> 0 <= a < 2 ^ 32 -> a mod 4096 = 0 ->
  (PDX va =? PDX a) && (PTX va =? PTX a) = in_range va a PGSIZE.
Proof.
  intros Hv Ha Hm. rewrite !PDX_eq, !PTX_eq by done. unfold in_range, PGSIZE.
  apply Bool.eq_iff_eq_true. rewrite !andb_true_iff, !Z.eqb_eq, Z.leb_le, Z.ltb_lt.
  split; intros; Z.div_mod_to_equations; lia.
Qed.

(** The entry [mappages] writes for page [va] of a mapping of [base] to [pa]. *)
Definition mapped_entry (base pa perm va : Z) : Z :=
  Z.lor (Z.lor (pa + (4096 * (va / 4096) - base)) perm) PTE_P.

Lemma mapped_entry_range base pa perm va :
  0 <= pa + (4096 * (va / 4096) - base) < 2 ^ 32 ->
  (pa + (4096 * (va / 4096) - base)) mod 4096 = 0 -> 0 <= perm < 4096 ->
  0 <= mapped_entry base pa perm va < 2 ^ 32.
Proof.
  intros H1 H2 H3. unfold mapped_entry. rewrite lor_flags.
  pose proof (flags_P_range perm H3). rewrite lor_page_flags by lia.
  Z.div_mod_to_equations; lia.
Qed.

Lemma mapped_entry_shift base pa perm va k :
  mapped_entry (base + k) (pa + k) perm va = mapped_entry base pa perm va.
Proof.
  unfold mapped_entry.
  by replace (pa + k + (4096 * (va / 4096) - (base + k)))
    with (pa + (4096 * (va / 4096) - base)) by lia.
Qed.

(** One round of the loop on an unmapped page. *)
Lemma mappages_loop_S fuel pgdir a last pa perm s l :
  kmem_ok s l -> pt_ok (kmemory s) pgdir l ->
  0 <= a < 2 ^ 32 -> a mod 4096 = 0 -> 0 <= pa < 2 ^ 32 -> pa mod 4096 = 0 ->
  0 <= perm < 4096 -> present (pte (kmemory s) pgdir a) = false ->
  (run (mappages_loop (S fuel) pgdir a last pa perm s) = ROk (-1) s /\ l = [] /\
    (0 < absent (kmemory s) pgdir)%nat) \/
  exists s' l' taken,
    run (mappages_loop (S fuel) pgdir a last pa perm s) =
      (if a =? last then ROk 0 s'
       else run (mappages_loop fuel pgdir (u32 (a + PGSIZE)) last (u32 (pa + PGSIZE)) perm s')) /\
    pt_ext pgdir s l s' l' taken /\
    (length taken + absent (kmemory s') pgdir = absent (kmemory s) pgdir)%nat /\
    (forall va', 0 <= va' < 2 ^ 32 -> pte (kmemory s') pgdir va' =
       if in_range va' a PGSIZE then mapped_entry a pa perm va' else pte (kmemory s) pgdir va').
Proof.
  intros Hok Hpt Ha Ham Hpa Hpam Hperm Hun. cbn [mappages_loop]. rewrite run_bind.
  destruct (walkpgdir_alloc pgdir a s l Hok Hpt)
    as (r & s1 & l1 & taken & Hrun & Hext & Habs & Hpte & [(-> & -> & -> & Hpos)|(t & -> & Htp & Ht)]).
  - left. rewrite Hrun. cbn [rbind]. simpl. mrun. split; [done|]. split; [|done].
    pose proof (ext_list _ _ _ _ _ _ Hext) as E. rewrite app_nil_r in E.
    destruct l as [|p l]; [done|exfalso].
    pose proof (ext_kmem _ _ _ _ _ _ Hext) as H1. destruct Hok as (E1 & Hv & _).
    unfold kmem_ok in H1. simpl in H1. pose proof (valid_page_pos _ _ Hv). lia.
  - right. rewrite Hrun. cbn [rbind]. pose proof (PTX_range a).
    destruct (Z.eqb_spec (t + 4 * PTX a) 0); [lia|].
    unfold load32, store32. mrun.
    assert (ld32 (kmemory s1) (t + 4 * PTX a) = pte (kmemory s1) pgdir a) as ->
      by (unfold pte; by rewrite Ht).
    rewrite Hpte, Hun. mrun.
    set (s2 := set_kmemory _ s1). exists s2, l1, (taken ++ []). split; [|split; [|split]].
    + destruct (a =? last); by mrun.
    + eapply pt_ext_trans; [done|].
      apply pt_ext_set_pte; [apply (ext_kmem _ _ _ _ _ _ Hext)|apply (ext_pt _ _ _ _ _ _ Hext)|done].
    + rewrite app_nil_r, <- Habs. f_equal. apply absent_ext. intros i Hi. subst s2.
      by apply (set_pte_pgtab s1 pgdir a t _ l1); [apply (ext_pt _ _ _ _ _ _ Hext)|..].
    + intros va' Hva'. subst s2; simpl.
      rewrite (set_pte_pte s1 pgdir a t _ l1) by (try done; apply (ext_pt _ _ _ _ _ _ Hext)).
      rewrite same_page by done. destruct (in_range va' a PGSIZE) eqn:Hr; [|by rewrite Hpte].
      apply in_range_spec in Hr. unfold PGSIZE in Hr.
      assert (4096 * (va' / 4096) - a = 0) as E by (Z.div_mod_to_equations; lia).
      unfold mapped_entry. rewrite E, Z.add_0_r, lor_flags.
      pose proof (flags_P_range perm Hperm).
      apply u32_small. rewrite lor_page_flags by lia. Z.div_mod_to_equations; lia.
Qed.

Lemma mappages_loop_spec n pgdir a pa perm s l :
  kmem_ok s l -> pt_ok (kmemory s) pgdir l ->
  0 <= a -> a mod 4096 = 0 -> a + 4096 * Z.of_nat n < 2 ^ 32 ->
  0 <= pa -> pa mod 4096 = 0 -> pa + 4096 * Z.of_nat n < 2 ^ 32 ->
  0 <= perm < 4096 ->
  (forall va, a <= va <= a + 4096 * Z.of_nat n -> va mod 4096 = 0 ->
     present (pte (kmemory s) pgdir va) = false) ->
  exists r s' l' taken,
    run (mappages_loop (S n) pgdir a (a + 4096 * Z.of_nat n) pa perm s) = ROk r s' /\
    pt_ext pgdir s l s' l' taken /\
    (length taken + absent (kmemory s') pgdir = absent (kmemory s) pgdir)%nat /\
    ((r = 0 /\ forall va, 0 <= va < 2 ^ 32 -> pte (kmemory s') pgdir va =
        if in_range va a (4096 * (Z.of_nat n + 1)) then mapped_entry a pa perm va
        else pte (kmemory s) pgdir va) \/
     (r = -1 /\ l' = [] /\ (0 < absent (kmemory s') pgdir)%nat /\ forall va, 0 <= va < 2 ^ 32 ->
        in_range va a (4096 * (Z.of_nat n + 1)) = false ->
        pte (kmemory s') pgdir va = pte (kmemory s) pgdir va)).
Proof.
  revert a pa s l. induction n as [|n IH];
    intros a pa s l Hok Hpt Ha Ham Hal Hpa Hpam Hpal Hperm Hun;
    lazymatch goal with |- context [mappages_loop (S ?k) _ _ ?last _ _ _] =>
      destruct (mappages_loop_S k pgdir a last pa perm s l Hok Hpt ltac:(lia) Ham
        ltac:(lia) Hpam Hperm ltac:(apply Hun; [lia|done]))
        as [(Hrun & -> & Hpos)|(s1 & l1 & tk & Hrun & Hext & Habs & Hpte)] end.
  - exists (-1), s, [], []. rewrite Hrun. split; [done|]. split; [by apply pt_ext_refl|].
    split; [done|]. right. done.
  - rewrite Hrun. destruct (Z.eqb_spec a (a + 4096 * Z.of_nat 0)); [|lia].
    exists 0, s1, l1, tk. split; [done|]. split; [done|]. split; [done|]. left. split; [done|].
    intros va Hva. rewrite Hpte by done. unfold PGSIZE. done.
  - exists (-1), s, [], []. rewrite Hrun. split; [done|]. split; [by apply pt_ext_refl|].
    split; [done|]. right. done.
  - rewrite Hrun. destruct (Z.eqb_spec a (a + 4096 * Z.of_nat (S n))); [lia|].
    rewrite !u32_small by (unfold PGSIZE; lia).
    destruct (IH (a + PGSIZE) (pa + PGSIZE) s1 l1) as (r & s2 & l2 & tk2 & Hrun2 & Hext2 & Habs2 & Hres);
      try (unfold PGSIZE; lia).
    + apply (ext_kmem _ _ _ _ _ _ Hext).
    + apply (ext_pt _ _ _ _ _ _ Hext).
    + unfold PGSIZE. Z.div_mod_to_equations; lia.
    + unfold PGSIZE. Z.div_mod_to_equations; lia.
    + intros va Hva Hvm. unfold PGSIZE in Hva. rewrite Hpte by lia.
      unfold in_range, PGSIZE. destruct (_ && _) eqn:E; [lia|]. apply Hun; [lia|done].
    + replace (a + 4096 * Z.of_nat (S n)) with (a + PGSIZE + 4096 * Z.of_nat n)
        by (unfold PGSIZE; lia).
      exists r, s2, l2, (tk ++ tk2). split; [done|]. split; [by eapply pt_ext_trans|].
      split; [rewrite length_app; lia|].
      destruct Hres as [[-> Hp2]|(-> & Hl2 & Hpos & Hp2)]; [left|right]; (split; [done|]).
      * intros va Hva. rewrite Hp2, Hpte by done. rewrite mapped_entry_shift.
        unfold PGSIZE. addr_cases.
      * split; [done|]. split; [done|]. intros va Hva Hr. apply not_true_iff_false in Hr.
        rewrite in_range_spec in Hr. rewrite Hp2, Hpte; [|done|done|].
        -- unfold PGSIZE. addr_cases.
        -- apply not_true_iff_false. rewrite in_range_spec. unfold PGSIZE. lia.
Qed.

Definition unmapped (m : mem) (pgdir lo hi : Z) : Prop :=
  forall va, lo <= va < hi -> present (pte m pgdir va) = false.

(** [mappages] on a page-aligned range of unmapped pages, with a free page for every
    table the directory lacks: the range is mapped, and nothing else changes. *)
Lemma mappages_spec n pgdir va pa perm s l :
  kmem_ok s l -> pt_ok (kmemory s) pgdir l ->
  0 <= va -> va mod 4096 = 0 -> va + 4096 * Z.of_nat (S n) <= 2 ^ 32 ->
  0 <= pa -> pa mod 4096 = 0 -> pa + 4096 * Z.of_nat (S n) <= 2 ^ 32 ->
  0 <= perm < 4096 ->
  unmapped (kmemory s) pgdir va (va + 4096 * Z.of_nat (S n)) ->
  (absent (kmemory s) pgdir <= length l)%nat ->
  exists s' l' taken,
    run (mappages pgdir va (4096 * Z.of_nat (S n)) pa perm s) = ROk 0 s' /\
    pt_ext pgdir s l s' l' taken /\
    (length taken + absent (kmemory s') pgdir = absent (kmemory s) pgdir)%nat /\
    forall v, 0 <= v < 2 ^ 32 -> pte (kmemory s') pgdir v =
      if in_range v va (4096 * Z.of_nat (S n)) then mapped_entry va pa perm v
      else pte (kmemory s) pgdir v.
Proof.
  intros Hok Hpt Hva Hvm Hvl Hpa Hpm Hpl Hperm Hun Hroom. unfold mappages.
  rewrite (u32_small va), (u32_small (va + _ - 1)) by lia.
  rewrite !PGROUNDDOWN_eq by lia.
  replace (4096 * (va / 4096)) with va by (Z.div_mod_to_equations; lia).
  replace (4096 * ((va + 4096 * Z.of_nat (S n) - 1) / 4096)) with (va + 4096 * Z.of_nat n)
    by (Z.div_mod_to_equations; lia).
  rewrite u32_small by lia.
  replace (Z.to_nat ((va + 4096 * Z.of_nat n - va) / PGSIZE)) with n
    by (unfold PGSIZE; Z.div_mod_to_equations; lia).
  destruct (mappages_loop_spec n pgdir va pa perm s l)
    as (r & s' & l' & tk & Hrun & Hext & Habs & Hres); try done; try lia.
  - intros v Hv _. apply Hun. lia.
  - exists s', l', tk. rewrite Hrun.
    destruct Hres as [[-> Hp]|(-> & -> & Hpos & _)].
    + split_and!; [done..|]. intros v Hv. rewrite Hp by done.
      by replace (Z.of_nat n + 1) with (Z.of_nat (S n)) by lia.
    + exfalso. rewrite (ext_list _ _ _ _ _ _ Hext), app_nil_r in Hroom. lia.
Qed.

Lemma present_pgtab m pgdir va : present (pte m pgdir va) = true -> exists t, pgtab_of m pgdir (PDX va) = Some t.
Proof. unfold pte. destruct (pgtab_of m pgdir (PDX va)) as [t|]; [by exists t|done]. Qed.

(** Mapping a page that is mapped stops the machine. *)
Lemma mappages_remap pgdir va pa perm s l :
  kmem_ok s l -> pt_ok (kmemory s) pgdir l -> 0 <= va -> va mod 4096 = 0 -> va + 4096 <= 2 ^ 32 ->
  present (pte (kmemory s) pgdir va) = true ->
  run (mappages pgdir va PGSIZE pa perm s) = RPanic "remap".
Proof.
  intros Hok Hpt H0 Hm Hl Hp. unfold mappages. rewrite (PGROUNDDOWN_eq va) by lia.
  replace (4096 * (va / 4096)) with va by (Z.div_mod_to_equations; lia).
  cbn [mappages_loop]. rewrite run_bind, (walkpgdir_alloc_run pgdir va s l Hok).
  destruct (present_pgtab _ _ _ Hp) as [t Ht]. rewrite Ht. cbn [rbind].
  destruct (pt_tab _ _ _ Hpt _ t (PDX_range va) Ht) as (Hv & _). pose proof (valid_page_pos _ _ Hv).
  pose proof (PTX_range va). destruct (Z.eqb_spec (t + 4 * PTX va) 0); [lia|]. unfold load32. mrun.
  unfold pte in Hp. rewrite Ht in Hp. by rewrite Hp.
Qed.

(** The entry [walkpgdir] finds. *)
Lemma walkpgdir_entry pgdir va s l :
  pt_ok (kmemory s) pgdir l -> present (pte (kmemory s) pgdir va) = true ->
  exists t, pgtab_of (kmemory s) pgdir (PDX va) = Some t /\ t + 4 * PTX va <> 0 /\
    run (walkpgdir pgdir va false s) = ROk (t + 4 * PTX va) s /\
    ld32 (kmemory s) (t + 4 * PTX va) = pte (kmemory s) pgdir va.
Proof.
  intros Hpt Hp. destruct (present_pgtab _ _ _ Hp) as [t Ht]. exists t. split; [done|].
  destruct (pt_tab _ _ _ Hpt _ t (PDX_range va) Ht) as (Hv & _). pose proof (valid_page_pos _ _ Hv).
  pose proof (PTX_range va). split; [lia|]. rewrite walkpgdir_find, Ht. split; [done|].
  unfold pte. by rewrite Ht.
Qed.
End pagetable.
