(* ===== verification/ShmTable.v ===== *)
(** The kernel's table of shared-memory regions: the first part of shm.h.

    [shm_arr] has one slot per region with its name, its physical page and the
    number of processes that map it; a free slot carries the name "DNE".  This
    file holds the slots, the searches and [shm_arr_findPA], which vm.c calls when
    it copies or frees an address space.  The system calls are in Shm.v. *)

From stdpp Require Import base tactics option list sets numbers.
From Stdlib Require Import ZArith Lia.
From S2P Require Import Prelude CString Layout.
Open Scope Z_scope.

Record shm := mkShm {
  name_length : Z;
  name : list Z;
  numAccess : Z;
  shmPhys : Z
}.

Definition NAME_SIZE : Z := 16.
Definition DNE : list Z := [68; 78; 69].

(** One slot of [shm_init]. *)
Definition shm_reset (e : shm) : shm := mkShm 0 (safestrcpy (name e) DNE NAME_SIZE) 0 0.

(** The zeroed array the kernel image starts with. *)
Definition shm_zero : list shm :=
  replicate (Z.to_nat SHM_MAXNUM) (mkShm 0 (replicate (Z.to_nat NAME_SIZE) 0) 0 0).

Definition shm_init (arr : list shm) : list shm := shm_reset <$> arr.

Definition name_is (str : list Z) (e : shm) : bool := strncmp (name e) str NAME_SIZE =? 0.

Definition shm_find (str : list Z) (arr : list shm) : Z :=
  index_or_m1 (find_index (name_is str) arr).

Definition shm_findFree (arr : list shm) : Z :=
  index_or_m1 (find_index (name_is DNE) arr).

(** [(uint) -1], the "no such page" answer. *)
Definition NOPA : Z := u32 (-1).

Definition shm_arr_findPA (pa refChange : Z) (arr : list shm) : Z * list shm :=
  match find_index (fun e => pa =? shmPhys e) arr with
  | Some i =>
      match arr !! i with
      | Some e =>
          (shmPhys e,
           <[i := mkShm (name_length e) (name e) (s32 (numAccess e + refChange)) (shmPhys e)]> arr)
      | None => (NOPA, arr)
      end
  | None => (NOPA, arr)
  end.

(** * Theorems *)

(** Is [pa] the page of a region? *)
Definition is_shm (arr : list shm) (pa : Z) : Prop := exists e, e ∈ arr /\ shmPhys e = pa.

(** The number of processes on record for the region with page [pa]. *)
Definition shm_refs (arr : list shm) (pa : Z) : option Z :=
  match find_index (fun e => pa =? shmPhys e) arr with
  | Some i => numAccess <$> arr !! i
  | None => None
  end.

Lemma NOPA_eq : NOPA = 0xFFFFFFFF.
Proof. done. Qed.

Lemma find_pa_Some arr pa i :
  find_index (fun e => pa =? shmPhys e) arr = Some i ->
  exists e, arr !! i = Some e /\ shmPhys e = pa.
Proof.
  intros ((e & He & Hp) & _)%find_index_Some. exists e. split; [done|]. lia.
Qed.

Lemma findPA_found arr pa c :
  is_shm arr pa ->
  exists i e, arr !! i = Some e /\ shmPhys e = pa /\
    shm_arr_findPA pa c arr =
      (pa, <[i := mkShm (name_length e) (name e) (s32 (numAccess e + c)) pa]> arr) /\
    shm_refs arr pa = Some (numAccess e).
Proof.
  intros (e0 & Hin & Hp0). unfold shm_arr_findPA, shm_refs.
  destruct (find_index _ arr) as [i|] eqn:Hf.
  - destruct (find_pa_Some _ _ _ Hf) as (e & He & Hp).
    exists i, e. rewrite He, Hp. done.
  - exfalso. apply list_elem_of_lookup in Hin as [j Hj].
    rewrite find_index_None in Hf. specialize (Hf j e0 Hj). simpl in Hf. lia.
Qed.

Lemma findPA_none arr pa c : ~ is_shm arr pa -> shm_arr_findPA pa c arr = (NOPA, arr).
Proof.
  intros Hno. unfold shm_arr_findPA. destruct (find_index _ arr) as [i|] eqn:Hf; [|done].
  destruct (find_pa_Some _ _ _ Hf) as (e & He & Hp). exfalso. apply Hno. exists e.
  split; [|done]. apply list_elem_of_lookup. eauto.
Qed.

(** The answer is [-1] exactly for a page of no region. *)
Lemma findPA_m1 arr pa c :
  pa <> NOPA -> fst (shm_arr_findPA pa c arr) = NOPA <-> ~ is_shm arr pa.
Proof.
  intros Hpa. split.
  - intros E Hs. destruct (findPA_found arr pa c Hs) as (i & e & _ & _ & Ef & _).
    rewrite Ef in E. done.
  - intros Hno. by rewrite findPA_none.
Qed.

(** Counting changes no page, name or order. *)
Lemma findPA_pages arr pa c : shmPhys <$> snd (shm_arr_findPA pa c arr) = shmPhys <$> arr.
Proof.
  unfold shm_arr_findPA. destruct (find_index _ arr) as [i|] eqn:Hf; [|done].
  destruct (arr !! i) as [e|] eqn:He; [|done]. simpl.
  rewrite list_fmap_insert. simpl. apply list_insert_id.
  by rewrite list_lookup_fmap, He.
Qed.

Lemma findPA_is_shm arr pa c pa' :
  is_shm (snd (shm_arr_findPA pa c arr)) pa' <-> is_shm arr pa'.
Proof.
  assert (forall a, is_shm a pa' <-> pa' ∈ (shmPhys <$> a)) as E.
  { intros a. rewrite list_elem_of_fmap. unfold is_shm. naive_solver. }
  by rewrite !E, findPA_pages.
Qed.

Lemma findPA_refs arr pa c :
  is_shm arr pa ->
  exists r, shm_refs arr pa = Some r /\
    shm_refs (snd (shm_arr_findPA pa c arr)) pa = Some (s32 (r + c)).
Proof.
  intros Hs. unfold shm_refs, shm_arr_findPA.
  destruct (find_index (fun e => pa =? shmPhys e) arr) as [i|] eqn:Hf.
  - destruct (find_pa_Some _ _ _ Hf) as (e & He & Hp). rewrite He. simpl.
    exists (numAccess e). split; [done|].
    assert (find_index (fun e => pa =? shmPhys e)
      (<[i:=mkShm (name_length e) (name e) (s32 (numAccess e + c)) (shmPhys e)]> arr) = Some i) as ->.
    { apply find_index_Some in Hf as [_ Hlt]. apply find_index_Some. split.
      - eexists. rewrite list_lookup_insert_eq by (by eapply lookup_lt_Some).
        split; [done|]. simpl. lia.
      - intros j y Hj. rewrite list_lookup_insert_ne by lia. by apply Hlt. }
    by rewrite list_lookup_insert_eq by (by eapply lookup_lt_Some).
  - exfalso. destruct Hs as (e0 & Hin & Hp0). apply list_elem_of_lookup in Hin as [j Hj].
    rewrite find_index_None in Hf. specialize (Hf j e0 Hj). simpl in Hf. lia.
Qed.

Lemma shm_refs_is_shm arr pa : is_shm arr pa <-> is_Some (shm_refs arr pa).
Proof.
  unfold shm_refs. split.
  - intros Hs. destruct (findPA_refs arr pa 0 Hs) as (r & Hr & _). unfold shm_refs in Hr. eauto.
  - destruct (find_index _ arr) as [i|] eqn:Hf; [|intros [? [=]]].
    destruct (find_pa_Some _ _ _ Hf) as (e & He & Hp). intros _. exists e.
    split; [|done]. by eapply list_elem_of_lookup_2.
Qed.

(** Counting one region leaves the counts of the others. *)
Lemma findPA_refs_ne arr pa c pa' :
  pa' <> pa -> shm_refs (snd (shm_arr_findPA pa c arr)) pa' = shm_refs arr pa'.
Proof.
  intros Hne. unfold shm_arr_findPA.
  destruct (find_index (fun e => pa =? shmPhys e) arr) as [i|] eqn:Hf; [|done].
  destruct (find_pa_Some _ _ _ Hf) as (e & He & Hp). rewrite He. simpl. unfold shm_refs.
  assert (forall j, shmPhys <$> (<[i:=mkShm (name_length e) (name e) (s32 (numAccess e + c)) (shmPhys e)]> arr) !! j
    = shmPhys <$> arr !! j) as Eph.
  { intros j. destruct (decide (i = j)) as [<-|].
    - rewrite list_lookup_insert_eq by (by eapply lookup_lt_Some). by rewrite He.
    - by rewrite list_lookup_insert_ne. }
  rewrite (find_index_fmap shmPhys (fun x => pa' =? x) arr).
  rewrite (find_index_fmap shmPhys (fun x => pa' =? x) (<[i:=_]> arr)).
  assert (shmPhys <$> (<[i:=mkShm (name_length e) (name e) (s32 (numAccess e + c)) (shmPhys e)]> arr)
    = shmPhys <$> arr) as ->.
  { apply list_eq. intros j. by rewrite !list_lookup_fmap. }
  destruct (find_index _ (shmPhys <$> arr)) as [j|] eqn:Hj; [|done].
  destruct (decide (i = j)) as [<-|]; [|by rewrite list_lookup_insert_ne].
  apply find_index_Some in Hj as [(x & Hx & Ex) _].
  rewrite list_lookup_fmap, He in Hx. injection Hx as <-. lia.
Qed.
