(* ===== verification/Vm.v ===== *)
(** Address spaces: vm.c.

    The state is kernel memory with its allocator and the shared-memory table the
    routines consult.  A process's memory is given by [uread]: the byte a user
    access at an address yields through the page table, if the access is allowed.
    The theorems state the routines as operations on that partial function. *)

From stdpp Require Import base tactics option list gmap sets strings numbers.
From Stdlib Require Import ZArith Lia.
From S2P Require Import Prelude Mem Layout Kalloc PageTable ShmTable.
Open Scope Z_scope.

Record vmstate := mkVm { km : kmem; shm_arr : list shm; shm_used : Z }.

Definition set_km (k : kmem) (s : vmstate) : vmstate := mkVm k (shm_arr s) (shm_used s).
Definition set_shm_arr (a : list shm) (s : vmstate) : vmstate := mkVm (km s) a (shm_used s).
Definition set_shm_used (u : Z) (s : vmstate) : vmstate := mkVm (km s) (shm_arr s) u.

#[export] Instance lens_km : Lens vmstate kmem.
Proof. refine {| lget := km; lput := set_km |}; [done|by intros []|done]. Defined.

Definition findPA (pa c : Z) : M vmstate Z :=
  fun s => let '(r, a) := shm_arr_findPA pa c (shm_arr s) in Ret r (set_shm_arr a s).

Section vm.
(** Linker symbols: the first address after the kernel, and the first address of
    its writable data. *)
Variables (kend kdata : Z).

(** * Kernel mappings *)

Record kmap_entry := mkKmap { virt : Z; phys_start : Z; phys_end : Z; kperm : Z }.

Definition kmap : list kmap_entry :=
  [ mkKmap KERNBASE 0 EXTMEM PTE_W;
    mkKmap KERNLINK (v2p KERNLINK) (v2p kdata) 0;
    mkKmap kdata (v2p kdata) PHYSTOP PTE_W;
    mkKmap DEVSPACE DEVSPACE 0 PTE_W ].

(** [for (k = kmap; ...) if (mappages(...) < 0) return 0; return pgdir;] *)
Fixpoint setupkvm_loop (ks : list kmap_entry) (pgdir : Z) : M kmem Z :=
  match ks with
  | [] => ret pgdir
  | k :: ks' =>
      r <- mappages pgdir (virt k) (u32 (phys_end k - phys_start k)) (phys_start k) (kperm k) ;;
      if r <? 0 then ret 0 else setupkvm_loop ks' pgdir
  end.

Definition setupkvm : M kmem Z :=
  pgdir <- kalloc ;;
  if pgdir =? 0 then ret 0 else
  kmemset pgdir 0 PGSIZE ;;
  if DEVSPACE <? p2v PHYSTOP then panic "PHYSTOP too high" else
  setupkvm_loop kmap pgdir.

(** * User mappings *)

Definition inituvm (pgdir : Z) (init : list Z) : M kmem unit :=
  if PGSIZE <=? Z.of_nat (length init) then panic "inituvm: more than a page" else
  mem <- kalloc ;;
  kmemset mem 0 PGSIZE ;;
  mappages pgdir 0 PGSIZE (v2p mem) (Z.lor PTE_W PTE_U) ;;
  modify (fun s => set_kmemory (st_bytes (kmemory s) mem init) s).

(** Copying from the file is left to [readi] (fs.c), which fills kernel memory at
    an address with bytes of the file and returns how many; the routine runs on any state
    that includes kernel memory. *)
Fixpoint loaduvm_loop {S} {L : Lens S kmem} (readi : Z -> Z -> Z -> M S Z) (fuel : nat)
    (pgdir addr offset sz i : Z) : M S Z :=
  if i <? sz then
    match fuel with
    | O => nofuel
    | S k =>
        pte <- zoom (walkpgdir pgdir (u32 (addr + i)) false) ;;
        if pte =? 0 then panic "loaduvm: address should exist" else
        e <- zoom (load32 pte) ;;
        let pa := PTE_ADDR e in
        let n := if sz - i <? PGSIZE then sz - i else PGSIZE in
        r <- readi (p2v pa) (u32 (offset + i)) n ;;
        if negb (r =? n) then ret (-1)
        else loaduvm_loop readi k pgdir addr offset sz (i + PGSIZE)
    end
  else ret 0.

Definition loaduvm {S} {L : Lens S kmem} (readi : Z -> Z -> Z -> M S Z) (pgdir addr offset sz : Z) : M S Z :=
  if negb (u32 addr mod PGSIZE =? 0) then panic "loaduvm: addr must be page aligned" else
  loaduvm_loop readi (Z.to_nat ((sz + PGSIZE - 1) / PGSIZE)) pgdir addr offset sz 0.

(** The loop of [deallocuvm] from page [a] up to [oldsz]. *)
Fixpoint deallocuvm_loop (fuel : nat) (pgdir a oldsz accChange : Z) : M vmstate unit :=
  if a <? oldsz then
    match fuel with
    | O => nofuel
    | S k =>
        pte <- zoom (walkpgdir pgdir a false) ;;
        if pte =? 0 then
          deallocuvm_loop k pgdir (u32 (u32 (a + (NPTENTRIES - 1) * PGSIZE) + PGSIZE)) oldsz accChange
        else
        e <- zoom (load32 pte) ;;
        (if present e then
           let pa := PTE_ADDR e in
           if pa =? 0 then panic "kfree" else
           foundPA <- findPA pa accChange ;;
           if negb (foundPA =? NOPA) then ret tt
           else zoom (kfree kend (p2v pa)) ;; zoom (store32 pte 0)
         else ret tt) ;;
        deallocuvm_loop k pgdir (u32 (a + PGSIZE)) oldsz accChange
    end
  else ret tt.

Definition deallocuvm (pgdir oldsz newsz accChange : Z) : M vmstate Z :=
  if oldsz <=? newsz then ret oldsz else
  let a := PGROUNDUP newsz in
  deallocuvm_loop (Z.to_nat ((oldsz - a + PGSIZE - 1) / PGSIZE)) pgdir a oldsz accChange ;;
  ret newsz.

Fixpoint allocuvm_loop (fuel : nat) (pgdir a oldsz newsz : Z) : M vmstate Z :=
  if a <? newsz then
    match fuel with
    | O => nofuel
    | S k =>
        mem <- zoom kalloc ;;
        if mem =? 0 then
          deallocuvm pgdir newsz oldsz 0 ;; ret 0
        else
        zoom (kmemset mem 0 PGSIZE) ;;
        zoom (mappages pgdir a PGSIZE (v2p mem) (Z.lor PTE_W PTE_U)) ;;
        allocuvm_loop k pgdir (u32 (a + PGSIZE)) oldsz newsz
    end
  else ret newsz.

Definition allocuvm (pgdir oldsz newsz : Z) : M vmstate Z :=
  if KERNBASE <=? newsz then ret 0 else
  if newsz <? oldsz then ret oldsz else
  let a := PGROUNDUP oldsz in
  allocuvm_loop (Z.to_nat ((newsz - a + PGSIZE - 1) / PGSIZE)) pgdir a oldsz newsz.

(** [for (i = 0; i < NPDENTRIES; i++) if (pgdir[i] & PTE_P) kfree(...);] *)
Definition freevm_tables (pgdir : Z) : M vmstate unit :=
  for_each (seq 0 (Z.to_nat NPDENTRIES)) (fun i =>
    e <- zoom (load32 (pgdir + 4 * Z.of_nat i)) ;;
    if present e then zoom (kfree kend (p2v (PTE_ADDR e))) else ret tt).

Definition freevm (pgdir accessChange : Z) : M vmstate unit :=
  if pgdir =? 0 then panic "freevm: no pgdir" else
  deallocuvm pgdir KERNBASE 0 accessChange ;;
  freevm_tables pgdir ;;
  zoom (kfree kend pgdir).

Definition clearpteu (pgdir uva : Z) : M kmem unit :=
  pte <- walkpgdir pgdir uva false ;;
  if pte =? 0 then panic "clearpteu" else
  e <- load32 pte ;;
  store32 pte (Z.land e (Z.lnot PTE_U)).

(** One page of [copyuvm]: [None] stands for the jump to [bad].  [copyuvm_dup] is the
    rest of the round once the parent's entry is read. *)
Definition copyuvm_dup (d i pa flags : Z) : M vmstate (option unit) :=
  foundPA <- findPA pa 1 ;;
  if negb (foundPA =? NOPA) then
    r <- zoom (mappages d i PGSIZE foundPA flags) ;;
    ret (if r <? 0 then None else Some tt)
  else
    mem <- zoom kalloc ;;
    if mem =? 0 then ret None else
    modify (fun s => set_km (set_kmemory (memmove (kmemory (km s)) mem (p2v pa) PGSIZE) (km s)) s) ;;
    r <- zoom (mappages d i PGSIZE (v2p mem) flags) ;;
    ret (if r <? 0 then None else Some tt).

Definition copyuvm_page (pgdir d i : Z) : M vmstate (option unit) :=
  pte <- zoom (walkpgdir pgdir i false) ;;
  if pte =? 0 then panic "copyuvm: pte should exist" else
  e <- zoom (load32 pte) ;;
  if negb (present e) then panic "copyuvm: page not present" else
  copyuvm_dup d i (PTE_ADDR e) (PTE_FLAGS e).

Fixpoint copyuvm_loop (fuel : nat) (pgdir d i sz : Z) : M vmstate Z :=
  if i <? sz then
    match fuel with
    | O => nofuel
    | S k =>
        r <- copyuvm_page pgdir d i ;;
        match r with
        | None => freevm d 0 ;; ret 0
        | Some _ => copyuvm_loop k pgdir d (u32 (i + PGSIZE)) sz
        end
    end
  else ret d.

Definition copyuvm (pgdir sz : Z) : M vmstate Z :=
  d <- zoom setupkvm ;;
  if d =? 0 then ret 0 else
  copyuvm_loop (Z.to_nat ((sz + PGSIZE - 1) / PGSIZE)) pgdir d 0 sz.

(** * Access to user memory *)

Definition uva2ka (pgdir uva : Z) : M kmem Z :=
  pte <- walkpgdir pgdir uva false ;;
  if pte =? 0 then undef "uva2ka: entry of an absent table" else
  e <- load32 pte ;;
  if Z.land e PTE_P =? 0 then ret 0 else
  if Z.land e PTE_U =? 0 then ret 0 else
  ret (p2v (PTE_ADDR e)).

(** [buf] is what remains of the source; [len] bytes of it are to be copied. *)
Fixpoint copyout_loop (fuel : nat) (pgdir va : Z) (buf : list Z) (len : Z) : M kmem Z :=
  if 0 <? len then
    match fuel with
    | O => nofuel
    | S k =>
        let va0 := PGROUNDDOWN va in
        pa0 <- uva2ka pgdir va0 ;;
        if pa0 =? 0 then ret (-1) else
        let n := PGSIZE - (va - va0) in
        let n := if len <? n then len else n in
        modify (fun s =>
          set_kmemory (st_bytes (kmemory s) (pa0 + (va - va0)) (take (Z.to_nat n) buf)) s) ;;
        copyout_loop k pgdir (u32 (va0 + PGSIZE)) (drop (Z.to_nat n) buf) (len - n)
    end
  else ret 0.

Definition copyout (pgdir va : Z) (p : list Z) : M kmem Z :=
  let len := Z.of_nat (length p) in
  copyout_loop (Z.to_nat (len / PGSIZE + 2)) pgdir va p len.

End vm.
