(* ===== verification/VmFacts.v ===== *)
(** Theorems about vm.c: address spaces as partial functions.

    [uread] is the byte a user access at an address yields through a page table.
    The routines of Vm.v are described by what they do to it: [allocuvm] extends it
    with zeros, [copyuvm] duplicates it, [copyout] updates it, and each of them
    leaves the rest of memory alone. *)

From stdpp Require Import base tactics option list gmap sets strings numbers.
From Stdlib Require Import ZArith Lia.
From S2P Require Import Prelude Mem Layout Kalloc PageTable ShmTable Vm.
Open Scope Z_scope.

(** * User memory *)

Definition user (e : Z) : bool := negb (Z.land e PTE_U =? 0).

(** The page of kernel memory behind an entry. *)
Definition frame (e : Z) : Z := p2v (PTE_ADDR e).

Definition uframe (m : mem) (pgdir va : Z) : option Z :=
  let e := pte m pgdir va in
  if present e && user e then Some (frame e + va mod PGSIZE) else None.

Definition uread (m : mem) (pgdir va : Z) : option Z := ld8 m <$> uframe m pgdir va.

Section vmfacts.
Variables (kend kdata : Z).
Abbreviation valid_page := (valid_page kend).
Abbreviation kmem_ok := (kmem_ok kend).
Abbreviation pt_ok := (pt_ok kend).
Abbreviation pt_ext := (pt_ext kend).

(** The user half of an address space: every mapped page is a page of its own, in
    use, and not part of the page table. *)
Record as_ok (m : mem) (pgdir : Z) (l : list Z) : Prop := {
  as_page : forall va, 0 <= va < KERNBASE -> present (pte m pgdir va) = true ->
    let p := frame (pte m pgdir va) in
    valid_page p /\ (p ∉ l) /\ ~ pt_memory m pgdir p;
  as_inj : forall va va', 0 <= va < KERNBASE -> 0 <= va' < KERNBASE ->
    present (pte m pgdir va) = true -> present (pte m pgdir va') = true ->
    frame (pte m pgdir va) = frame (pte m pgdir va') -> va / 4096 = va' / 4096
}.

(** * Entries *)

Lemma entry_of_page p f :
  valid_page p -> 0 <= f < 4096 ->
  let e := Z.lor (Z.lor (v2p p) f) PTE_P in
  frame e = p /\ present e = true /\ user e = user f.
Proof.
  intros Hv Hf e. pose proof (valid_page_pos _ _ Hv) as Hp. split; [|split].
  - subst e. rewrite lor_flags. unfold frame. pose proof (flags_P_range f Hf).
    assert (v2p p = p - KERNBASE /\ v2p p mod 4096 = 0) as [E Em].
    { destruct Hv as (Ha & _ & Hk & Hs). unfold v2p, KERNBASE, PHYSTOP, PGSIZE in *.
      rewrite u32_small by lia. split; [done|]. rewrite Zminus_mod, Ha. done. }
    rewrite PTE_ADDR_lor; [by apply p2v_v2p; lia| |done|done].
    destruct Hv as (_ & _ & Hk & Hs). unfold KERNBASE, PHYSTOP, PGSIZE in *. lia.
  - apply present_mapped.
  - unfold user. subst e. f_equal. f_equal. apply Z.bits_inj'. intros n Hn.
    rewrite !Z.land_spec, !Z.lor_spec. unfold PTE_U, PTE_P.
    destruct (decide (n = 2)) as [->|].
    + change (Z.testbit 1 2) with false. change (Z.testbit 4 2) with true.
      rewrite !andb_true_r, orb_false_r.
      assert (Z.testbit (v2p p) 2 = false) as ->; [|done].
      assert (v2p p mod 4096 = 0) as Em.
      { destruct Hv as (Ha & _ & Hk & Hs). unfold v2p, KERNBASE, PHYSTOP, PGSIZE in *.
        rewrite u32_small by lia. rewrite Zminus_mod, Ha. done. }
      rewrite Z.testbit_eqb by lia. apply Z.eqb_neq. change (2 ^ 2) with 4.
      Z.div_mod_to_equations; lia.
    + assert (Z.testbit 4 n = false) as ->; [|by rewrite !andb_false_r].
      change 4 with (2 ^ 2). apply Z.pow2_bits_false. lia.
Qed.

(** * Kernel mappings *)

Fixpoint kmap_ok (lo : Z) (ks : list kmap_entry) : Prop :=
  match ks with
  | [] => True
  | k :: ks' =>
      let size := u32 (phys_end k - phys_start k) in
      lo <= virt k /\ virt k mod 4096 = 0 /\ 0 < size /\ size mod 4096 = 0 /\
      virt k + size <= 2 ^ 32 /\
      0 <= phys_start k /\ phys_start k mod 4096 = 0 /\ phys_start k + size <= 2 ^ 32 /\
      0 <= kperm k < 4096 /\ kmap_ok (virt k + size) ks'
  end.

(** The linker script aligns the data segment to a page. *)
Definition kdata_ok : Prop :=
  kdata mod 4096 = 0 /\ KERNLINK < kdata /\ kdata < KERNBASE + PHYSTOP.

Lemma kmap_layout : kdata_ok -> kmap_ok KERNBASE (kmap kdata).
Proof.
  unfold kdata_ok. intros (Ha & Hlo & Hhi). unfold kmap_ok, kmap; cbn [virt phys_start phys_end kperm].
  unfold v2p, KERNLINK, KERNBASE, PHYSTOP, DEVSPACE, EXTMEM, PTE_W in *.
  assert (u32 (kdata - 2147483648) = kdata - 2147483648) as -> by (apply u32_small; lia).
  change (u32 (2147483648 + 1048576 - 2147483648)) with 1048576.
  change (u32 (1048576 - 0)) with 1048576. change (u32 (0 - 4261412864)) with 33554432.
  rewrite !u32_small by lia. split_and!; try lia; try done; Z.div_mod_to_equations; lia.
Qed.

Lemma setupkvm_loop_spec ks lo pgdir s l :
  0 <= lo -> kmap_ok lo ks -> kmem_ok s l -> pt_ok (kmemory s) pgdir l ->
  unmapped (kmemory s) pgdir lo (2 ^ 32) -> (absent (kmemory s) pgdir <= length l)%nat ->
  exists s' l' taken, run (setupkvm_loop ks pgdir s) = ROk pgdir s' /\
    pt_ext pgdir s l s' l' taken /\
    (length taken + absent (kmemory s') pgdir = absent (kmemory s) pgdir)%nat /\
    (forall va, 0 <= va < lo -> pte (kmemory s') pgdir va = pte (kmemory s) pgdir va) /\
    Forall (fun k => forall va,
      in_range va (virt k) (u32 (phys_end k - phys_start k)) = true ->
      pte (kmemory s') pgdir va = mapped_entry (virt k) (phys_start k) (kperm k) va) ks.
Proof.
  revert lo s l. induction ks as [|k ks IH]; intros lo s l Hlo Hk Hok Hpt Hun Hroom;
    cbn [setupkvm_loop].
  { exists s, l, []. mrun. split_and!; [done|by apply pt_ext_refl|done|done|constructor]. }
  destruct Hk as (Hl & Hvm & Hs0 & Hsm & Hvs & Hp0 & Hpm & Hps & Hperm & Hks).
  remember (u32 (phys_end k - phys_start k)) as size eqn:Es.
  destruct (mappages_spec kend (Z.to_nat (size / 4096 - 1)) pgdir (virt k) (phys_start k) (kperm k) s l)
    as (s1 & l1 & t1 & Hrun & Hext & Habs & Hpte); try done; try lia;
    replace (4096 * Z.of_nat (S (Z.to_nat (size / 4096 - 1)))) with size in *
      by (Z.div_mod_to_equations; lia); try lia.
  { intros va Hva. apply Hun. lia. }
  rewrite run_bind, Hrun. cbn [rbind Z.ltb Z.compare].
  destruct (IH (virt k + size) s1 l1) as (s2 & l2 & t2 & Hrun2 & Hext2 & Habs2 & Hlow & Hall);
    [lia|done|apply (ext_kmem _ _ _ _ _ _ _ Hext)|apply (ext_pt _ _ _ _ _ _ _ Hext)| | |].
  { intros va Hva. rewrite Hpte by lia. unfold in_range. destruct (_ && _) eqn:E; [lia|].
    apply Hun. lia. }
  { rewrite (ext_list _ _ _ _ _ _ _ Hext), length_app in Hroom. lia. }
  exists s2, l2, (t1 ++ t2). split_and!; [done|by eapply pt_ext_trans|rewrite length_app; lia| |].
  - intros va Hva. rewrite Hlow, Hpte by lia. unfold in_range. destruct (_ && _) eqn:E; [lia|done].
  - constructor; [|done]. intros va Hva. rewrite <- Es in Hva. apply in_range_spec in Hva as Hva'.
    rewrite Hlow, Hpte by lia. by rewrite Hva.
Qed.

(** Taking a page off the free list and filling it, as seen by a page table that
    does not own it. *)
Lemma pt_ext_kalloc pgdir s p l m1 :
  kmem_ok s (p :: l) -> pt_ok (kmemory s) pgdir (p :: l) ->
  (forall a, ~ in_page a p -> ld8 m1 a = ld8 (kmemory s) a) ->
  pt_ext pgdir s (p :: l) (mkKmem (use_lock s) (ld32 (kmemory s) p) m1) l [p] /\
  (forall va, pte m1 pgdir va = pte (kmemory s) pgdir va) /\
  (forall i, 0 <= i < 1024 -> pgtab_of m1 pgdir i = pgtab_of (kmemory s) pgdir i).
Proof.
  intros Hok Hpt Hm1. destruct Hok as (E0 & Hv & Hn & Hf).
  pose proof (pt_dir _ _ _ _ Hpt) as Hvd. pose proof (pt_dir_used _ _ _ _ Hpt) as Hdu.
  assert (forall q, valid_page q -> q <> p -> forall a, in_page a q -> ld8 m1 a = ld8 (kmemory s) a) as Hq.
  { intros q Hvq Hne a Ha. apply Hm1. by apply (in_page_disjoint kend a q p). }
  assert (forall i, 0 <= i < 1024 -> pgtab_of m1 pgdir i = pgtab_of (kmemory s) pgdir i) as Htab.
  { intros i Hi. apply pgtab_of_ext; [done|]. apply Hq; [done|]. intros ->. set_solver. }
  split_and!; [split; cbn [kmemory use_lock freelist]|..]; auto.
  - apply (free_pages_ext _ (kmemory s)); [done|]. intros q Hq'.
    apply ld32_ext. intros k Hk. apply (Hq q); [by eapply free_pages_valid|by intros ->|].
    unfold in_page, PGSIZE. lia.
  - split; [done|set_solver| |].
    + intros i t Hi. rewrite Htab by done. intros Ht.
      destruct (pt_tab _ _ _ _ Hpt i t Hi Ht) as (? & ? & ?). set_solver.
    + intros i j t Hi Hj. rewrite !Htab by done. by apply (pt_inj _ _ _ _ Hpt).
  - intros a _ Ha. apply Hm1, Ha. set_solver.
  - intros a [Ha|(i & t & Hi & Ht & Ha)]; [by left; left|].
    rewrite Htab in Ht by done. left. right. eauto.
  - intros va. unfold pte. rewrite Htab by apply PDX_range.
    destruct (pgtab_of _ _ _) as [t|] eqn:Ht; [|done].
    destruct (pt_tab _ _ _ _ Hpt _ t (PDX_range va) Ht) as (Hvt & _ & Hnt).
    apply ld32_ext. intros k Hk. apply (Hq t); [done|set_solver|].
    pose proof (PTX_range va). unfold in_page, PGSIZE. lia.
Qed.

(** A zeroed page is a directory without tables. *)
Lemma empty_dir m p :
  (forall a, in_page a p -> ld8 m a = 0) -> forall i, 0 <= i < 1024 -> pgtab_of m p i = None.
Proof.
  intros Hz i Hi. unfold pgtab_of.
  assert (ld32 m (p + 4 * i) = 0) as ->; [|done].
  rewrite (ld32_ext m ∅ (p + 4 * i) (p + 4 * i)); [done|]. intros k Hk.
  rewrite Hz by (by apply pde_in_page). done.
Qed.

Record kvm_new (s : kmem) (l : list Z) (d : Z) (s' : kmem) (l' taken : list Z) : Prop := {
  kn_list : l = d :: taken ++ l';
  kn_kmem : kmem_ok s' l';
  kn_pt : pt_ok (kmemory s') d l';
  kn_lock : use_lock s' = use_lock s;
  kn_user : forall va, 0 <= va < KERNBASE -> pte (kmemory s') d va = 0;
  kn_kern : Forall (fun k => forall va,
      in_range va (virt k) (u32 (phys_end k - phys_start k)) = true ->
      pte (kmemory s') d va = mapped_entry (virt k) (phys_start k) (kperm k) va) (kmap kdata);
  kn_frame : forall a, (forall p, p ∈ d :: taken -> ~ in_page a p) ->
    ld8 (kmemory s') a = ld8 (kmemory s) a;
  kn_own : forall a, pt_memory (kmemory s') d a -> exists p, p ∈ d :: taken /\ in_page a p;
  kn_absent : (length taken + absent (kmemory s') d <= 1024)%nat
}.

Lemma setupkvm_new s l :
  kdata_ok -> kmem_ok s l -> (1025 <= length l)%nat ->
  exists d s' l' taken, run (setupkvm kdata s) = ROk d s' /\ kvm_new s l d s' l' taken.
Proof.
  intros Hkd Hok Hlen. destruct l as [|d l]; [simpl in Hlen; lia|].
  unfold setupkvm. rewrite run_bind, (kalloc_spec kend s _ Hok). cbn [rbind].
  pose proof Hok as (E0 & Hv & Hn & Hf). pose proof (valid_page_pos _ _ Hv).
  destruct (Z.eqb_spec d 0); [lia|]. unfold kmemset. mrun.
  destruct (Z.ltb_spec DEVSPACE (p2v PHYSTOP)) as [Hx|_]; [by vm_compute in Hx|].
  set (s1 := set_kmemory _ _).
  assert (kmemory s1 = memset (kmemory s) d 0 PGSIZE) as Em by done.
  assert (forall a, ~ in_page a d -> ld8 (kmemory s1) a = ld8 (kmemory s) a) as Hout.
  { intros a Ha. rewrite Em, ld8_memset by done. unfold in_page, PGSIZE in *. addr_cases. }
  assert (forall i, 0 <= i < 1024 -> pgtab_of (kmemory s1) d i = None) as Hnone.
  { apply empty_dir. intros a Ha. rewrite Em, ld8_memset by done.
    unfold in_page, PGSIZE in *. addr_cases. }
  assert (kmem_ok s1 l) as Hok1.
  { apply (free_pages_ext _ (kmemory s)); [done|]. intros q Hq. apply ld32_ext.
    intros k Hk. apply Hout. apply (in_page_disjoint kend _ q d);
      [by eapply free_pages_valid|done|by intros ->|unfold in_page, PGSIZE; lia]. }
  assert (pt_ok (kmemory s1) d l) as Hpt1.
  { split; [done|done| |]; intros i *; intros; by rewrite Hnone in *. }
  assert (absent (kmemory s1) d <= 1024)%nat as Hab.
  { unfold absent. etrans; [apply length_filter|]. by rewrite length_seqZ. }
  assert (forall va, pte (kmemory s1) d va = 0) as Hpte0.
  { intros va. unfold pte. by rewrite Hnone by apply PDX_range. }
  destruct (setupkvm_loop_spec (kmap kdata) KERNBASE d s1 l)
    as (s2 & l2 & tk & Hrun & Hext & Habs & Hlow & Hall); try done.
  { by apply kmap_layout. }
  { intros va _. by rewrite Hpte0. }
  { simpl in Hlen. lia. }
  exists d, s2, l2, tk. split; [done|]. split.
  - by rewrite (ext_list _ _ _ _ _ _ _ Hext).
  - apply (ext_kmem _ _ _ _ _ _ _ Hext).
  - apply (ext_pt _ _ _ _ _ _ _ Hext).
  - apply (ext_lock _ _ _ _ _ _ _ Hext).
  - intros va Hva. by rewrite Hlow.
  - done.
  - intros a Ha. rewrite (ext_frame _ _ _ _ _ _ _ Hext).
    + apply Hout, Ha. apply elem_of_cons. by left.
    + intros [Hin|(i & t & Hi & Ht & _)]; [|by rewrite Hnone in Ht].
      apply (Ha d); [|done]. apply elem_of_cons. by left.
    + intros p Hp. apply Ha. apply elem_of_cons. by right.
  - intros a Ha. apply (ext_grow _ _ _ _ _ _ _ Hext) in Ha as [[Hin|(i & t & Hi & Ht & _)]|(p & Hp & Hin)].
    + exists d. split; [apply elem_of_cons; by left|done].
    + by rewrite Hnone in Ht.
    + exists p. split; [apply elem_of_cons; by right|done].
  - lia.
Qed.

(** * Adding a page to an address space *)

Lemma in_page_base p : in_page p p.
Proof. unfold in_page, PGSIZE. lia. Qed.

Lemma in_page_offset p va : in_page (p + va mod PGSIZE) p.
Proof. unfold in_page, PGSIZE. pose proof (Z.mod_pos_bound va 4096). lia. Qed.

Lemma pt_memory_tabs m m' pgdir a :
  (forall i, 0 <= i < 1024 -> pgtab_of m pgdir i = pgtab_of m' pgdir i) ->
  pt_memory m pgdir a -> pt_memory m' pgdir a.
Proof.
  intros E [Hd|(i & t & Hi & Ht & Ha)]; [by left|]. right. exists i, t.
  split; [done|]. by rewrite <- E.
Qed.

(** Page-table memory consists of whole pages. *)
Lemma pt_memory_page m pgdir l p a :
  pt_ok m pgdir l -> valid_page p -> in_page a p -> pt_memory m pgdir a -> pt_memory m pgdir p.
Proof.
  intros Hpt Hv Ha [Hd|(i & t & Hi & Ht & Hin)].
  - left. destruct (decide (p = pgdir)) as [->|Hne]; [apply in_page_base|].
    exfalso. by apply (in_page_disjoint kend a p pgdir Hv (pt_dir _ _ _ _ Hpt) Hne).
  - right. exists i, t. split; [done|]. split; [done|].
    destruct (pt_tab _ _ _ _ Hpt i t Hi Ht) as (Hvt & _).
    destruct (decide (p = t)) as [->|Hne]; [apply in_page_base|].
    exfalso. by apply (in_page_disjoint kend a p t Hv Hvt Hne).
Qed.

(** Memory behind a mapped page survives any extension of the page table. *)
Lemma as_frame pgdir s l s' l' taken va a :
  pt_ok (kmemory s) pgdir l -> as_ok (kmemory s) pgdir l -> kmem_ok s l ->
  pt_ext pgdir s l s' l' taken ->
  0 <= va < KERNBASE -> present (pte (kmemory s) pgdir va) = true ->
  in_page a (frame (pte (kmemory s) pgdir va)) -> ld8 (kmemory s') a = ld8 (kmemory s) a.
Proof.
  intros Hpt Has Hok Hext Hva Hp Ha. destruct (as_page _ _ _ Has va Hva Hp) as (Hv & Hl & Hm).
  apply (ext_frame _ _ _ _ _ _ _ Hext).
  - intros Hx. apply Hm. by eapply pt_memory_page.
  - intros q Hq. assert (q ∈ l) as Hql by (rewrite (ext_list _ _ _ _ _ _ _ Hext); set_solver).
    apply (in_page_disjoint kend a (frame (pte (kmemory s) pgdir va)) q); [done| |set_solver|done].
    by eapply free_pages_valid.
Qed.

Lemma uread_ext pgdir s l s' l' taken va :
  pt_ok (kmemory s) pgdir l -> as_ok (kmemory s) pgdir l -> kmem_ok s l ->
  pt_ext pgdir s l s' l' taken -> 0 <= va < KERNBASE ->
  pte (kmemory s') pgdir va = pte (kmemory s) pgdir va ->
  uread (kmemory s') pgdir va = uread (kmemory s) pgdir va.
Proof.
  intros Hpt Has Hok Hext Hva E. unfold uread, uframe. rewrite E.
  destruct (present _) eqn:Hp; [|done]. destruct (user _); simpl; [|done]. f_equal.
  eapply as_frame; [exact Hpt|exact Has|exact Hok|exact Hext|exact Hva|exact Hp|apply in_page_offset].
Qed.

Section add_page.
Context (pgdir : Z) (s s1 : kmem) (l l1 : list Z) (t1 : list Z) (a p f : Z).
Hypothesis Hok : kmem_ok s l.
Hypothesis Hpt : pt_ok (kmemory s) pgdir l.
Hypothesis Has : as_ok (kmemory s) pgdir l.
(** From [s] to [s1] pages were taken and filled, but no entry changed. *)
Hypothesis Hext1 : pt_ext pgdir s l s1 l1 t1.
Hypothesis Hpte1 : forall va, pte (kmemory s1) pgdir va = pte (kmemory s) pgdir va.
Hypothesis Ha : 0 <= a < KERNBASE.
Hypothesis Ham : a mod 4096 = 0.
Hypothesis Hun : unmapped (kmemory s) pgdir a (a + 4096).
(** The page: in use, not yet in this address space. *)
Hypothesis Hv : valid_page p.
Hypothesis Hpl : p ∉ l1.
Hypothesis Hpm : ~ pt_memory (kmemory s1) pgdir p.
Hypothesis Hpf : forall va, 0 <= va < KERNBASE -> present (pte (kmemory s) pgdir va) = true ->
  frame (pte (kmemory s) pgdir va) <> p.
Hypothesis Hf : 0 <= f < 4096.
Hypothesis Hroom : (absent (kmemory s1) pgdir <= length l1)%nat.

Lemma add_page :
  exists s' l' t, run (mappages pgdir a PGSIZE (v2p p) f s1) = ROk 0 s' /\
    pt_ext pgdir s l s' l' (t1 ++ t) /\
    (length t + absent (kmemory s') pgdir = absent (kmemory s1) pgdir)%nat /\
    (forall va, 0 <= va < 2 ^ 32 -> pte (kmemory s') pgdir va =
       if in_range va a PGSIZE then Z.lor (Z.lor (v2p p) f) PTE_P
       else pte (kmemory s) pgdir va) /\
    as_ok (kmemory s') pgdir l' /\
    (forall b, in_page b p -> ld8 (kmemory s') b = ld8 (kmemory s1) b) /\
    (forall va, 0 <= va < KERNBASE -> uread (kmemory s') pgdir va =
       if in_range va a PGSIZE
       then if user f then Some (ld8 (kmemory s1) (p + (va - a))) else None
       else uread (kmemory s) pgdir va).
Proof.
  destruct (entry_of_page p f Hv Hf) as (Efr & Epr & Eus).
  pose proof (ext_kmem _ _ _ _ _ _ _ Hext1) as Hok1.
  pose proof (ext_pt _ _ _ _ _ _ _ Hext1) as Hpt1.
  assert (0 <= v2p p /\ v2p p mod 4096 = 0 /\ v2p p + 4096 <= 2 ^ 32) as (Hp0 & Hpm0 & Hps).
  { destruct Hv as (Hva & _ & Hk & Hs). unfold v2p, KERNBASE, PHYSTOP, PGSIZE in *.
    rewrite u32_small by lia. split_and!; [lia| |lia]. rewrite Zminus_mod, Hva. done. }
  destruct (mappages_spec kend 0 pgdir a (v2p p) f s1 l1)
    as (s' & l' & t & Hrun & Hext & Habs & Hpte); try done; try lia.
  { unfold KERNBASE in *. lia. }
  { intros va Hva. rewrite Hpte1. apply Hun. lia. }
  assert (pt_ext pgdir s l s' l' (t1 ++ t)) as Hext' by (by eapply pt_ext_trans).
  assert (forall va, 0 <= va < 2 ^ 32 -> pte (kmemory s') pgdir va =
       if in_range va a PGSIZE then Z.lor (Z.lor (v2p p) f) PTE_P
       else pte (kmemory s) pgdir va) as Hpte'.
  { intros va Hva. rewrite Hpte, Hpte1 by done. change (4096 * Z.of_nat 1) with PGSIZE.
    destruct (in_range va a PGSIZE) eqn:E; [|done]. apply in_range_spec in E.
    unfold mapped_entry, PGSIZE in *. do 2 f_equal. Z.div_mod_to_equations; lia. }
  assert (forall b, in_page b p -> ld8 (kmemory s') b = ld8 (kmemory s1) b) as Hpg.
  { intros b Hb. apply (ext_frame _ _ _ _ _ _ _ Hext).
    - intros Hx. apply Hpm. by eapply pt_memory_page.
    - intros q Hq. assert (q ∈ l1) by (rewrite (ext_list _ _ _ _ _ _ _ Hext); set_solver).
      apply (in_page_disjoint kend b p q); [done| |set_solver|done]. by eapply free_pages_valid. }
  assert (forall b, ~ pt_memory (kmemory s) pgdir b -> (forall q, q ∈ l -> ~ in_page b q) ->
    ~ pt_memory (kmemory s') pgdir b) as Hnot.
  { intros b H1 H2 H3. apply (ext_grow _ _ _ _ _ _ _ Hext') in H3 as [?|(q & Hq & Hb)]; [done|].
    apply (H2 q); [|done]. rewrite (ext_list _ _ _ _ _ _ _ Hext'). set_solver. }
  exists s', l', t. split_and!; try done.
  - split.
    + intros va Hva. rewrite Hpte' by (unfold KERNBASE in *; lia).
      destruct (in_range va a PGSIZE) eqn:E.
      * intros _. cbv zeta. rewrite Efr. split_and!; [done| |].
        -- rewrite (ext_list _ _ _ _ _ _ _ Hext) in Hpl. set_solver.
        -- intros Hx. apply (ext_grow _ _ _ _ _ _ _ Hext) in Hx as [?|(q & Hq & Hb)]; [done|].
           assert (q ∈ l1) by (rewrite (ext_list _ _ _ _ _ _ _ Hext); set_solver).
           apply (in_page_disjoint kend p p q); [done| |set_solver|apply in_page_base|done].
           by eapply free_pages_valid.
      * intros Hpr. destruct (as_page _ _ _ Has va Hva Hpr) as (Hv' & Hl' & Hm').
        split_and!; [done| |].
        -- rewrite (ext_list _ _ _ _ _ _ _ Hext') in Hl'. set_solver.
        -- apply Hnot; [done|]. intros q Hq.
           apply (in_page_disjoint kend _ (frame (pte (kmemory s) pgdir va)) q);
             [exact Hv'|eapply free_pages_valid; [exact Hok|exact Hq]|set_solver|apply in_page_base].
    + intros va va' Hva Hva'. rewrite !Hpte' by (unfold KERNBASE in *; lia).
      destruct (in_range va a PGSIZE) eqn:E, (in_range va' a PGSIZE) eqn:E'; intros H1 H2.
      * apply in_range_spec in E, E'. unfold PGSIZE in *. intros _. Z.div_mod_to_equations; lia.
      * rewrite Efr. intros Hx. by destruct (Hpf va' Hva' H2).
      * rewrite Efr. intros Hx. by destruct (Hpf va Hva H1).
      * by apply (as_inj _ _ _ Has).
  - intros va Hva. destruct (in_range va a PGSIZE) eqn:E.
    + unfold uread, uframe. rewrite Hpte', E by (unfold KERNBASE in *; lia).
      rewrite Epr, Efr, Eus. simpl. destruct (user f); simpl; [|done]. f_equal.
      rewrite Hpg by apply in_page_offset. f_equal. apply in_range_spec in E.
      unfold PGSIZE in *. Z.div_mod_to_equations; lia.
    + eapply uread_ext; try done. by rewrite Hpte', E by (unfold KERNBASE in *; lia).
Qed.
End add_page.

(** * allocuvm *)

Lemma free_not_in_page q l k a :
  kmem_ok k l -> valid_page q -> q ∉ l -> in_page a q -> forall p, p ∈ l -> ~ in_page a p.
Proof.
  intros Hok Hv Hn Ha p Hp. apply (in_page_disjoint kend a q p);
    [done|eapply free_pages_valid; [exact Hok|done]|set_solver|done].
Qed.

(** A page just taken from the free list belongs to nobody. *)
Lemma fresh_page pgdir k p l :
  kmem_ok k (p :: l) -> pt_ok (kmemory k) pgdir (p :: l) -> as_ok (kmemory k) pgdir (p :: l) ->
  valid_page p /\ (p ∉ l) /\ ~ pt_memory (kmemory k) pgdir p /\
  (forall va, 0 <= va < KERNBASE -> present (pte (kmemory k) pgdir va) = true ->
     frame (pte (kmemory k) pgdir va) <> p).
Proof.
  intros (_ & Hv & Hn & _) Hpt Has. split_and!; [done|done| |].
  - intros [Hd|(i & t & Hi & Ht & Hin)].
    + apply (pt_dir_used _ _ _ _ Hpt). destruct (decide (pgdir = p)) as [->|Hne]; [set_solver|].
      exfalso. apply (in_page_disjoint kend p p pgdir); [done|apply (pt_dir _ _ _ _ Hpt)|done|apply in_page_base|done].
    + destruct (pt_tab _ _ _ _ Hpt i t Hi Ht) as (Hvt & _ & Hnt).
      apply (in_page_disjoint kend p p t); [done|done|set_solver|apply in_page_base|done].
  - intros va Hva Hp E. destruct (as_page _ _ _ Has va Hva Hp) as (_ & Hl & _).
    rewrite E in Hl. set_solver.
Qed.

Lemma allocuvm_loop_spec n pgdir a oldsz newsz k arr u l :
  kmem_ok k l -> pt_ok (kmemory k) pgdir l -> as_ok (kmemory k) pgdir l ->
  0 <= a -> a mod 4096 = 0 -> newsz < KERNBASE -> a < newsz + 4096 ->
  n = Z.to_nat ((newsz - a + 4095) / 4096) ->
  unmapped (kmemory k) pgdir a (a + 4096 * Z.of_nat n) ->
  (absent (kmemory k) pgdir + n <= length l)%nat ->
  exists k' l' taken,
    run (allocuvm_loop kend n pgdir a oldsz newsz (mkVm k arr u)) = ROk newsz (mkVm k' arr u) /\
    pt_ext pgdir k l k' l' taken /\ as_ok (kmemory k') pgdir l' /\
    (length taken + absent (kmemory k') pgdir <= absent (kmemory k) pgdir + n)%nat /\
    (forall va, 0 <= va < KERNBASE -> uread (kmemory k') pgdir va =
       if in_range va a (4096 * Z.of_nat n) then Some 0 else uread (kmemory k) pgdir va).
Proof.
  revert a k l. induction n as [|n IH];
    intros a k l Hok Hpt Has Ha Ham Hnew Hlt Hn Hun Hroom; cbn [allocuvm_loop].
  { destruct (Z.ltb_spec a newsz); [Z.div_mod_to_equations; lia|].
    exists k, l, []. mrun. split_and!; [done|by apply pt_ext_refl|done|simpl; lia|].
    intros va Hva. change (4096 * Z.of_nat 0) with 0. destruct (in_range va a 0) eqn:E; [|done].
    apply in_range_spec in E. lia. }
  assert (a < newsz) as Haz by (Z.div_mod_to_equations; lia).
  destruct (Z.ltb_spec a newsz) as [_|]; [|lia].
  destruct l as [|p l]; [simpl in Hroom; lia|].
  destruct (fresh_page pgdir k p l Hok Hpt Has) as (Hv & Hpl & Hpm & Hpf).
  pose proof (valid_page_pos _ _ Hv) as Hp0.
  rewrite run_bind, run_zoom. cbn [lget lens_km km].
  rewrite (kalloc_spec kend k (p :: l)) by done. cbn [rzoom rbind].
  destruct (Z.eqb_spec p 0); [lia|]. unfold kmemset. mrun.
  cbn [lget lput lens_km km set_km shm_arr shm_used].
  set (k1 := set_kmemory _ _). cbn [set_freelist kmemory use_lock freelist] in k1.
  destruct (pt_ext_kalloc pgdir k p l (memset (kmemory k) p 0 PGSIZE) Hok Hpt) as (Hext1 & Hpte1 & Htab1).
  { intros b Hb. rewrite ld8_memset by done. unfold in_page, PGSIZE in *. addr_cases. }
  change (mkKmem (use_lock k) (ld32 (kmemory k) p) (memset (kmemory k) p 0 PGSIZE)) with k1 in Hext1.
  assert (absent (kmemory k1) pgdir = absent (kmemory k) pgdir) as Eab by (by apply absent_ext).
  destruct (add_page pgdir k k1 (p :: l) l [p] a p (Z.lor PTE_W PTE_U))
    as (k2 & l2 & t & Hrun & Hext & Habs & Hpte & Has2 & _ & Hrd); try done.
  { unfold KERNBASE in *. lia. }
  { intros va Hva. apply Hun. lia. }
  { intros Hx. apply Hpm. by apply (pt_memory_tabs (kmemory k1)). }
  { rewrite Eab. simpl in Hroom. lia. }
  rewrite Hrun. cbn [rzoom rbind lput lens_km set_km shm_arr shm_used].
  rewrite u32_small by (unfold PGSIZE, KERNBASE in *; lia). unfold PGSIZE.
  destruct (IH (a + 4096) k2 l2) as (k3 & l3 & t3 & Hrun3 & Hext3 & Has3 & Hab3 & Hrd3);
    [apply (ext_kmem _ _ _ _ _ _ _ Hext)|apply (ext_pt _ _ _ _ _ _ _ Hext)|done|lia| |done|lia| | | |].
  { Z.div_mod_to_equations; lia. }
  { Z.div_mod_to_equations; lia. }
  { intros va Hva. rewrite Hpte by (unfold KERNBASE in *; Z.div_mod_to_equations; lia).
    unfold in_range, PGSIZE. destruct (_ && _) eqn:E; [lia|]. apply Hun. lia. }
  { pose proof (ext_list _ _ _ _ _ _ _ Hext) as El. apply (f_equal length) in El.
    rewrite !length_app in El. simpl in *. lia. }
  exists k3, l3, (([p] ++ t) ++ t3). split_and!; [done|by eapply pt_ext_trans|done| |].
  { rewrite !length_app. simpl. lia. }
  intros va Hva. rewrite Hrd3, Hrd by done.
  change (user (Z.lor PTE_W PTE_U)) with true. cbv iota. cbn [kmemory k1 set_kmemory].
  rewrite ld8_memset by done. unfold PGSIZE. addr_cases.
Qed.

(** C16. [allocuvm] grows a process from [oldsz] to [newsz]: with enough free pages it returns
    [newsz], the new pages read as zeros, and every other user byte is what it was; page tables and
    the free list stay well formed. *)
Theorem allocuvm_correct k arr u l pgdir oldsz newsz :
  kmem_ok k l -> pt_ok (kmemory k) pgdir l -> as_ok (kmemory k) pgdir l ->
  0 <= oldsz <= newsz -> newsz < KERNBASE ->
  let pages := Z.to_nat ((newsz - PGROUNDUP oldsz + 4095) / 4096) in
  unmapped (kmemory k) pgdir (PGROUNDUP oldsz) (PGROUNDUP oldsz + 4096 * Z.of_nat pages) ->
  (absent (kmemory k) pgdir + pages <= length l)%nat ->
  exists k' l', run (allocuvm kend pgdir oldsz newsz (mkVm k arr u)) = ROk newsz (mkVm k' arr u) /\
    kmem_ok k' l' /\ pt_ok (kmemory k') pgdir l' /\ as_ok (kmemory k') pgdir l' /\
    (forall va, 0 <= va < KERNBASE -> uread (kmemory k') pgdir va =
       if in_range va (PGROUNDUP oldsz) (4096 * Z.of_nat pages) then Some 0
       else uread (kmemory k) pgdir va).
Proof.
  intros Hok Hpt Has Hsz Hnew pages Hun Hroom. unfold allocuvm.
  destruct (Z.leb_spec KERNBASE newsz); [lia|]. destruct (Z.ltb_spec newsz oldsz); [lia|].
  pose proof (PGROUNDUP_aligned oldsz).
  pose proof (PGROUNDUP_eq oldsz ltac:(unfold KERNBASE in *; lia)) as Er.
  destruct (allocuvm_loop_spec pages pgdir (PGROUNDUP oldsz) oldsz newsz k arr u l)
    as (k' & l' & tk & Hrun & Hext & Has' & _ & Hrd); try done.
  - rewrite Er. Z.div_mod_to_equations; lia.
  - rewrite Er. Z.div_mod_to_equations; lia.
  - exists k', l'. split_and!; [|apply (ext_kmem _ _ _ _ _ _ _ Hext)|apply (ext_pt _ _ _ _ _ _ _ Hext)|done|done].
    rewrite <- Hrun. do 2 f_equal. subst pages. unfold PGSIZE. f_equal. f_equal. lia.
Qed.

(** [allocuvm] does not look at the result of [mappages]: with one free page and no table for
    the new page, the page is taken off the free list, the table cannot be allocated, and the call
    still reports success although the new page is not mapped. *)
Theorem allocuvm_unmapped_success k arr u p pgdir :
  kmem_ok k [p] -> pt_ok (kmemory k) pgdir [p] -> pgtab_of (kmemory k) pgdir 0 = None ->
  exists k', run (allocuvm kend pgdir 0 PGSIZE (mkVm k arr u)) = ROk PGSIZE (mkVm k' arr u) /\
    kmem_ok k' [] /\ uread (kmemory k') pgdir 0 = None.
Proof.
  intros Hok Hpt Hnone. unfold allocuvm. change (KERNBASE <=? PGSIZE) with false.
  change (PGSIZE <? 0) with false. cbv iota. change (PGROUNDUP 0) with 0.
  change (Z.to_nat ((PGSIZE - 0 + PGSIZE - 1) / PGSIZE)) with 1%nat. cbn [allocuvm_loop].
  change (0 <? PGSIZE) with true. cbv iota.
  pose proof Hok as (_ & Hv & _). pose proof (valid_page_pos _ _ Hv).
  rewrite run_bind, run_zoom. cbn [lget lens_km km].
  rewrite (kalloc_spec kend k [p]) by done. cbn [rzoom rbind].
  destruct (Z.eqb_spec p 0); [lia|]. unfold kmemset. mrun.
  cbn [lget lput lens_km km set_km shm_arr shm_used].
  set (k1 := set_kmemory _ _). cbn [set_freelist kmemory use_lock freelist] in k1.
  destruct (pt_ext_kalloc pgdir k p [] (memset (kmemory k) p 0 PGSIZE) Hok Hpt) as (Hext1 & Hpte1 & Htab1).
  { intros b Hb. rewrite ld8_memset by done. unfold in_page, PGSIZE in *. addr_cases. }
  change (mkKmem (use_lock k) (ld32 (kmemory k) p) (memset (kmemory k) p 0 PGSIZE)) with k1 in Hext1.
  assert (run (mappages pgdir 0 PGSIZE (v2p p) (Z.lor PTE_W PTE_U) k1) = ROk (-1) k1) as ->.
  { unfold mappages. change (PGROUNDDOWN 0) with 0. change (PGROUNDDOWN (u32 (u32 0 + PGSIZE - 1))) with 0.
    cbn [mappages_loop]. rewrite run_bind, (walkpgdir_alloc_run kend _ _ _ []) by apply (ext_kmem _ _ _ _ _ _ _ Hext1).
    rewrite Htab1 by done. change (PDX 0) with 0. rewrite Hnone. done. }
  cbn [rzoom rbind lput lens_km set_km]. change (u32 (0 + PGSIZE) <? PGSIZE) with false. cbv iota. mrun.
  exists k1. split; [done|]. split; [apply (ext_kmem _ _ _ _ _ _ _ Hext1)|].
  unfold uread, uframe. assert (pte (kmemory k1) pgdir 0 = 0) as ->; [|done].
  rewrite Hpte1. unfold pte. change (PDX 0) with 0. by rewrite Hnone.
Qed.

(** * copyuvm *)

Lemma pte_range m pgdir va : 0 <= pte m pgdir va < 2 ^ 32.
Proof. unfold pte. destruct (pgtab_of _ _ _); [apply ld32_range|lia]. Qed.

Lemma frame_v2p m pgdir va : v2p (frame (pte m pgdir va)) = PTE_ADDR (pte m pgdir va).
Proof.
  unfold frame. apply v2p_p2v. pose proof (pte_range m pgdir va).
  rewrite PTE_ADDR_eq by done. Z.div_mod_to_equations; lia.
Qed.

Lemma PTE_ADDR_not_NOPA m pgdir va : PTE_ADDR (pte m pgdir va) =? NOPA = false.
Proof.
  apply Z.eqb_neq. rewrite PTE_ADDR_eq by apply pte_range. rewrite NOPA_eq.
  Z.div_mod_to_equations; lia.
Qed.

Lemma PTE_FLAGS_range e : 0 <= PTE_FLAGS e < 4096.
Proof. unfold PTE_FLAGS. rewrite land_4095. by apply Z.mod_pos_bound. Qed.

Lemma user_flags m pgdir va : user (PTE_FLAGS (pte m pgdir va)) = user (pte m pgdir va).
Proof.
  unfold user, PTE_FLAGS. rewrite u32_small by apply pte_range.
  by rewrite <- Z.land_assoc.
Qed.

(** An address depends on the low bits of its page only. *)
Lemma pte_same_page m pgdir va va' :
  0 <= va < 2 ^ 32 -> 0 <= va' < 2 ^ 32 -> va / 4096 = va' / 4096 ->
  pte m pgdir va = pte m pgdir va'.
Proof.
  intros Hv Hv' E. unfold pte. rewrite !PDX_eq, !PTX_eq, E by done.
  replace (va / 2 ^ 22) with (va' / 2 ^ 22); [done|].
  change (2 ^ 22) with (4096 * 1024). rewrite <- !Z.div_div by lia. by rewrite E.
Qed.

Section copy.
(** The parent's address space, in the memory [m0] with free pages [l0]. *)
Context (m0 : mem) (k0 : kmem) (pgdir : Z) (l0 : list Z) (arr0 : list shm) (u : Z).
Hypothesis Em0 : kmemory k0 = m0.
Hypothesis Hok0 : kmem_ok k0 l0.
Hypothesis Hpt0 : pt_ok m0 pgdir l0.
Hypothesis Has0 : as_ok m0 pgdir l0.

Definition same_outside (m : mem) : Prop :=
  forall a, (forall p, p ∈ l0 -> ~ in_page a p) -> ld8 m a = ld8 m0 a.

Lemma parent_used q a : valid_page q -> q ∉ l0 -> in_page a q -> forall p, p ∈ l0 -> ~ in_page a p.
Proof. intros Hv Hn Ha. by apply (free_not_in_page q l0 k0 a Hok0). Qed.

Lemma parent_tab m i : same_outside m -> 0 <= i < 1024 -> pgtab_of m pgdir i = pgtab_of m0 pgdir i.
Proof.
  intros Hm Hi. apply pgtab_of_ext; [done|]. intros a Ha. apply Hm.
  eapply parent_used; [apply (pt_dir _ _ _ _ Hpt0)|apply (pt_dir_used _ _ _ _ Hpt0)|done].
Qed.

Lemma parent_pte m va : same_outside m -> pte m pgdir va = pte m0 pgdir va.
Proof.
  intros Hm. unfold pte. rewrite parent_tab by (try done; apply PDX_range).
  destruct (pgtab_of _ _ _) as [t|] eqn:Ht; [|done].
  destruct (pt_tab _ _ _ _ Hpt0 _ t (PDX_range va) Ht) as (Hv & _ & Hn).
  apply ld32_ext. intros j Hj. apply Hm. eapply parent_used; [exact Hv|done|].
  pose proof (PTX_range va). unfold in_page, PGSIZE. lia.
Qed.

Lemma parent_byte m va a :
  same_outside m -> 0 <= va < KERNBASE -> present (pte m0 pgdir va) = true ->
  in_page a (frame (pte m0 pgdir va)) -> ld8 m a = ld8 m0 a.
Proof.
  intros Hm Hva Hp Ha. destruct (as_page _ _ _ Has0 va Hva Hp) as (Hv & Hl & _).
  apply Hm. by eapply parent_used.
Qed.

(** What the child's entry for [va] is, given the parent's. *)
Definition copied_entry (m : mem) (d va : Z) : Prop :=
  let e0 := pte m0 pgdir va in
  let e := pte m d va in
  present e = true /\
  (is_shm arr0 (PTE_ADDR e0) -> frame e = frame e0) /\
  (~ is_shm arr0 (PTE_ADDR e0) -> frame e ∈ l0) /\
  uread m d va = uread m0 pgdir va.

(** Reference counts after the pages below [hi] were copied. *)
Definition counted (arr : list shm) (hi : Z) : Prop :=
  (forall pa, is_shm arr pa <-> is_shm arr0 pa) /\
  forall pa r, shm_refs arr0 pa = Some r ->
    ((exists va, 0 <= va < hi /\ PTE_ADDR (pte m0 pgdir va) = pa) ->
       shm_refs arr pa = Some (s32 (r + 1))) /\
    (~ (exists va, 0 <= va < hi /\ PTE_ADDR (pte m0 pgdir va) = pa) ->
       shm_refs arr pa = Some r).

Record copy_state (d hi : Z) (k : kmem) (arr : list shm) (l : list Z) : Prop := {
  cs_kmem : kmem_ok k l;
  cs_pt : pt_ok (kmemory k) d l;
  cs_as : as_ok (kmemory k) d l;
  cs_suffix : exists t, l0 = t ++ l;
  cs_same : same_outside (kmemory k);
  cs_own : forall a, pt_memory (kmemory k) d a -> exists p, p ∈ l0 /\ in_page a p;
  cs_done : forall va, 0 <= va < hi -> copied_entry (kmemory k) d va;
  cs_todo : unmapped (kmemory k) d hi KERNBASE;
  cs_refs : counted arr hi
}.

(** Counting the page at [hi]; no other page of the parent has the same frame. *)
Lemma counted_step arr hi :
  0 <= hi -> hi mod 4096 = 0 -> hi + 4096 <= KERNBASE ->
  (forall va, 0 <= va < hi + 4096 -> present (pte m0 pgdir va) = true) ->
  counted arr hi -> counted (snd (shm_arr_findPA (PTE_ADDR (pte m0 pgdir hi)) 1 arr)) (hi + 4096).
Proof.
  intros H0 Hm Hk Hpres [His Hc]. set (pa0 := PTE_ADDR (pte m0 pgdir hi)).
  split; [intros pa; by rewrite findPA_is_shm|]. intros pa r Hr.
  assert (forall va, hi <= va < hi + 4096 -> pte m0 pgdir va = pte m0 pgdir hi) as Hpage.
  { intros va Hva. apply pte_same_page; unfold KERNBASE in *; try lia. Z.div_mod_to_equations; lia. }
  destruct (decide (pa = pa0)) as [->|Hne].
  - split; [|intros Hx; exfalso; apply Hx; exists hi; split; [lia|done]]. intros _.
    assert (is_shm arr pa0) as Hs by (apply His, shm_refs_is_shm; eauto).
    destruct (findPA_refs arr pa0 1 Hs) as (r' & Hr' & ->).
    destruct (Hc pa0 r Hr) as [_ Hc2]. rewrite Hc2 in Hr'; [congruence|].
    intros (va & Hva & E). assert (va / 4096 = hi / 4096); [|Z.div_mod_to_equations; lia].
    apply (as_inj _ _ _ Has0); unfold KERNBASE in *; try lia; try (apply Hpres; lia).
    unfold frame. by rewrite E.
  - rewrite findPA_refs_ne by done. destruct (Hc pa r Hr) as [Hc1 Hc2]. split.
    + intros (va & Hva & E). apply Hc1. exists va. split; [|done].
      destruct (decide (va < hi)); [lia|]. rewrite Hpage in E by lia. done.
    + intros Hx. apply Hc2. intros (va & Hva & E). apply Hx. exists va. split; [lia|done].
Qed.

Section copy_step.
Context (d i : Z) (k k1 k' : kmem) (arr : list shm) (l l1 l' t1 t : list Z) (p : Z).
Let e0 := pte m0 pgdir i.
Hypothesis Hcs : copy_state d i k arr l.
Hypothesis Hi : 0 <= i.
Hypothesis Him : i mod 4096 = 0.
Hypothesis Hik : i + 4096 <= KERNBASE.
Hypothesis Hpres : forall va, 0 <= va < i + 4096 -> present (pte m0 pgdir va) = true.
Hypothesis Hext : pt_ext d k l k' l' (t1 ++ t).
Hypothesis Hpte : forall va, 0 <= va < 2 ^ 32 -> pte (kmemory k') d va =
  if in_range va i PGSIZE then Z.lor (Z.lor (v2p p) (PTE_FLAGS e0)) PTE_P else pte (kmemory k) d va.
Hypothesis Has : as_ok (kmemory k') d l'.
Hypothesis Hrd : forall va, 0 <= va < KERNBASE -> uread (kmemory k') d va =
  if in_range va i PGSIZE
  then if user (PTE_FLAGS e0) then Some (ld8 (kmemory k1) (p + (va - i))) else None
  else uread (kmemory k) d va.
Hypothesis Hv : valid_page p.
Hypothesis Hshm : is_shm arr0 (PTE_ADDR e0) -> p = frame e0.
Hypothesis Hpriv : ~ is_shm arr0 (PTE_ADDR e0) -> p ∈ l0.
Hypothesis Hbytes : forall o, 0 <= o < 4096 -> ld8 (kmemory k1) (p + o) = ld8 m0 (frame e0 + o).

Lemma copy_step :
  copy_state d (i + 4096) k' (snd (shm_arr_findPA (PTE_ADDR e0) 1 arr)) l'.
Proof.
  destruct (cs_suffix _ _ _ _ _ Hcs) as [t0 Et0].
  assert (forall q, q ∈ t1 ++ t -> q ∈ l0) as Htk.
  { intros q Hq. rewrite Et0, (ext_list _ _ _ _ _ _ _ Hext). set_solver. }
  split.
  - apply (ext_kmem _ _ _ _ _ _ _ Hext).
  - apply (ext_pt _ _ _ _ _ _ _ Hext).
  - done.
  - exists (t0 ++ (t1 ++ t)). rewrite Et0, (ext_list _ _ _ _ _ _ _ Hext). by rewrite app_assoc.
  - intros a Ha. rewrite (ext_frame _ _ _ _ _ _ _ Hext).
    + by apply (cs_same _ _ _ _ _ Hcs).
    + intros Hx. destruct (cs_own _ _ _ _ _ Hcs a Hx) as (q & Hq & Hin). by apply (Ha q).
    + intros q Hq. by apply Ha, Htk.
  - intros a Hx. apply (ext_grow _ _ _ _ _ _ _ Hext) in Hx as [Hx|(q & Hq & Hin)].
    + by apply (cs_own _ _ _ _ _ Hcs).
    + exists q. split; [by apply Htk|done].
  - intros va Hva. unfold copied_entry. cbv zeta.
    rewrite Hpte, Hrd by (unfold KERNBASE in *; lia).
    destruct (in_range va i PGSIZE) eqn:E.
    + apply in_range_spec in E. unfold PGSIZE in E.
      assert (pte m0 pgdir va = e0) as Ee.
      { apply pte_same_page; unfold KERNBASE in *; try lia. Z.div_mod_to_equations; lia. }
      destruct (entry_of_page p (PTE_FLAGS e0) Hv (PTE_FLAGS_range _)) as (Efr & Epr & _).
      rewrite Ee, Epr, Efr. split; [done|]. split; [done|]. split; [done|].
      unfold uread, uframe. rewrite Ee. subst e0. rewrite user_flags, Hpres by lia. cbn [andb].
      destruct (user (pte m0 pgdir i)); [|reflexivity]. simpl. f_equal. rewrite Hbytes by lia. f_equal. f_equal.
      unfold PGSIZE. Z.div_mod_to_equations; lia.
    + apply not_true_iff_false in E. rewrite in_range_spec in E. unfold PGSIZE in E.
      apply (cs_done _ _ _ _ _ Hcs). lia.
  - intros va Hva. rewrite Hpte by (unfold KERNBASE in *; lia).
    destruct (in_range va i PGSIZE) eqn:E.
    + apply in_range_spec in E. unfold PGSIZE in E. lia.
    + apply (cs_todo _ _ _ _ _ Hcs). lia.
  - apply counted_step; try done. apply (cs_refs _ _ _ _ _ Hcs).
Qed.
End copy_step.

(** The parent's pages are not among the child's. *)
Lemma parent_page_free d i k arr l va :
  copy_state d i k arr l -> 0 <= va < KERNBASE -> present (pte m0 pgdir va) = true ->
  let p := frame (pte m0 pgdir va) in
  valid_page p /\ (p ∉ l0) /\ (p ∉ l) /\ ~ pt_memory (kmemory k) d p.
Proof.
  intros Hcs Hva Hp p. destruct (as_page _ _ _ Has0 va Hva Hp) as (Hv & Hn & _).
  split; [done|]. split; [done|]. split.
  - destruct (cs_suffix _ _ _ _ _ Hcs) as [t0 E]. rewrite E in Hn. set_solver.
  - intros Hx. destruct (cs_own _ _ _ _ _ Hcs p Hx) as (q & Hq & Hin).
    by apply (parent_used p p Hv Hn (in_page_base p) q Hq).
Qed.

Lemma is_shm_dec arr pa : is_shm arr pa \/ ~ is_shm arr pa.
Proof.
  destruct (decide (pa ∈ (shmPhys <$> arr))) as [Hin|Hn]; [left|right].
  - apply list_elem_of_fmap in Hin as (e & -> & He). by exists e.
  - intros (e & He & <-). apply Hn. apply list_elem_of_fmap. eauto.
Qed.

Section copy_page.
Context (d i : Z) (k : kmem) (arr : list shm) (l : list Z).
Hypothesis Hcs : copy_state d i k arr l.
Hypothesis Hi : 0 <= i.
Hypothesis Him : i mod 4096 = 0.
Hypothesis Hik : i + 4096 <= KERNBASE.
Hypothesis Hpres : forall va, 0 <= va < i + 4096 -> present (pte m0 pgdir va) = true.
Hypothesis Hroom : (absent (kmemory k) d + 1 <= length l)%nat.
Let e0 := pte m0 pgdir i.

Definition copied_page (r : res vmstate (option unit)) : Prop :=
  exists k' arr' l', r = ROk (Some tt) (mkVm k' arr' u) /\
    copy_state d (i + 4096) k' arr' l' /\
    (absent (kmemory k') d + length l <= absent (kmemory k) d + length l' + 1)%nat.

Local Lemma cp_unmapped : unmapped (kmemory k) d i (i + 4096).
Proof. intros va Hva. apply (cs_todo _ _ _ _ _ Hcs). lia. Qed.

Local Lemma cp_count k' l' t1 t :
  pt_ext d k l k' l' (t1 ++ t) -> (length t1 <= 1)%nat ->
  (length t + absent (kmemory k') d = absent (kmemory k) d)%nat ->
  (absent (kmemory k') d + length l <= absent (kmemory k) d + length l' + 1)%nat.
Proof.
  intros Hext Ht1 Habs. pose proof (ext_list _ _ _ _ _ _ _ Hext) as El.
  apply (f_equal length) in El. rewrite !length_app in El. lia.
Qed.

(** The child's page at [va] is never the parent's page at [i]. *)
Local Lemma cp_new_frame va :
  0 <= va < KERNBASE -> present (pte (kmemory k) d va) = true ->
  frame (pte (kmemory k) d va) <> frame e0.
Proof.
  intros Hva Hpv E. destruct (decide (va < i)) as [Hlt|].
  - destruct (cs_done _ _ _ _ _ Hcs va ltac:(lia)) as (_ & Hc1 & Hc2 & _).
    destruct (is_shm_dec arr0 (PTE_ADDR (pte m0 pgdir va))) as [Hs|Hs].
    + rewrite (Hc1 Hs) in E.
      assert (va / 4096 = i / 4096); [|Z.div_mod_to_equations; lia].
      apply (as_inj _ _ _ Has0); [lia|lia|apply Hpres; lia|apply Hpres; lia|done].
    + destruct (as_page _ _ _ Has0 i ltac:(lia) (Hpres i ltac:(lia))) as (_ & Hn & _).
      apply Hn. fold e0. rewrite <- E. by apply Hc2.
  - by rewrite (cs_todo _ _ _ _ _ Hcs va ltac:(lia)) in Hpv.
Qed.

(** A page of a region is shared. *)
Lemma copyuvm_dup_shared :
  is_shm arr (PTE_ADDR e0) ->
  copied_page (run (copyuvm_dup d i (PTE_ADDR e0) (PTE_FLAGS e0) (mkVm k arr u))).
Proof.
  intros Hs. unfold copyuvm_dup, findPA. rewrite run_bind. cbn [shm_arr].
  destruct (parent_page_free d i k arr l i Hcs ltac:(lia) (Hpres i ltac:(lia))) as (Hv0 & Hn0 & Hnl & Hnm).
  pose proof (findPA_found arr _ 1 Hs) as (j & e & _ & _ & Ef & _).
  destruct (shm_arr_findPA (PTE_ADDR e0) 1 arr) as [r arr'] eqn:Efp.
  injection Ef as -> Earr. cbn [run rbind].
  assert (PTE_ADDR e0 =? NOPA = false) as -> by apply PTE_ADDR_not_NOPA. cbn [negb].
  rewrite run_bind, run_zoom. cbn [lget lens_km km set_shm_arr].
  destruct (add_page d k k l l [] i (frame e0) (PTE_FLAGS e0))
    as (k' & l' & t & Hrun & Hext & Habs & Hpte & Has & Hpg & Hrd);
    [apply (cs_kmem _ _ _ _ _ Hcs)|apply (cs_pt _ _ _ _ _ Hcs)|apply (cs_as _ _ _ _ _ Hcs)
    |apply pt_ext_refl; [apply (cs_kmem _ _ _ _ _ Hcs)|apply (cs_pt _ _ _ _ _ Hcs)]
    |done|lia|done|exact cp_unmapped|done|done|done|exact cp_new_frame|apply PTE_FLAGS_range|lia|].
  assert (v2p (frame e0) = PTE_ADDR e0) as Efr by apply frame_v2p.
  rewrite Efr in Hrun. rewrite Hrun. cbn [rzoom rbind]. mrun.
  change (0 <? 0) with false. cbv iota. exists k', arr', l'. split; [done|]. split.
  - replace arr' with (snd (shm_arr_findPA (PTE_ADDR e0) 1 arr)) by (by rewrite Efp).
    apply (copy_step d i k k k' arr l l' [] t (frame e0)); try done.
    + intros Hx. exfalso. apply Hx. by apply (proj1 (cs_refs _ _ _ _ _ Hcs)).
    + intros o Ho. apply (parent_byte _ i); [apply (cs_same _ _ _ _ _ Hcs)|lia|apply Hpres; lia|].
      unfold in_page, PGSIZE. lia.
  - by apply (cp_count k' l' [] t); [|simpl; lia|].
Qed.

(** Any other page is copied to a new one. *)
Lemma copyuvm_dup_private :
  ~ is_shm arr (PTE_ADDR e0) ->
  copied_page (run (copyuvm_dup d i (PTE_ADDR e0) (PTE_FLAGS e0) (mkVm k arr u))).
Proof.
  intros Hs. unfold copyuvm_dup, findPA. rewrite run_bind. cbn [shm_arr].
  pose proof (findPA_none arr _ 1 Hs) as Efp. rewrite Efp. cbn [run rbind].
  change (NOPA =? NOPA) with true. cbn [negb].
  assert (exists p l1, l = p :: l1) as (p & l1 & El).
  { destruct l as [|p l1]; [simpl in Hroom; lia|eauto]. }
  pose proof (cs_kmem _ _ _ _ _ Hcs) as Hk. pose proof (cs_pt _ _ _ _ _ Hcs) as Hkp.
  pose proof (cs_as _ _ _ _ _ Hcs) as Hka. pose proof Hroom as Hroom'.
  rewrite El in Hk, Hkp, Hka, Hroom'.
  destruct (fresh_page d k p l1 Hk Hkp Hka) as (Hv & Hpl & Hpm & Hpf).
  pose proof (valid_page_pos _ _ Hv).
  rewrite run_bind, run_zoom. cbn [lget lens_km km set_shm_arr].
  rewrite (kalloc_spec kend k (p :: l1)) by done. cbn [rzoom rbind].
  destruct (Z.eqb_spec p 0); [lia|]. mrun. cbn [lget lput lens_km km set_km shm_arr shm_used set_shm_arr].
  set (m1 := memmove _ _ _ _). set (k1 := set_kmemory _ _).
  cbn [set_freelist kmemory use_lock freelist] in m1, k1.
  assert (forall a, ~ in_page a p -> ld8 m1 a = ld8 (kmemory k) a) as Hm1.
  { intros b Hb. subst m1. rewrite ld8_memmove by done. unfold in_page, PGSIZE in *. addr_cases. }
  destruct (pt_ext_kalloc d k p l1 m1 Hk Hkp Hm1)
    as (Hext1 & Hpte1 & Htab1).
  change (mkKmem (use_lock k) (ld32 (kmemory k) p) m1) with k1 in Hext1.
  assert (absent (kmemory k1) d = absent (kmemory k) d) as Eab by (by apply absent_ext).
  destruct (add_page d k k1 (p :: l1) l1 [p] i p (PTE_FLAGS e0))
    as (k' & l' & t & Hrun & Hext & Habs & Hpte & Has & Hpg & Hrd);
    [done|done|done|done|done|lia|done|exact cp_unmapped|done|done
    |intros Hx; apply Hpm; by apply (pt_memory_tabs (kmemory k1))|done|apply PTE_FLAGS_range
    |rewrite Eab; simpl in Hroom'; lia|].
  rewrite <- El in Hext.
  rewrite Hrun. cbn [rzoom rbind]. mrun. change (0 <? 0) with false. cbv iota.
  exists k', arr, l'. split; [done|]. split.
  - replace arr with (snd (shm_arr_findPA (PTE_ADDR e0) 1 arr)) by (by rewrite Efp).
    apply (copy_step d i k k1 k' arr l l' [p] t p); try done.
    + intros Hx. exfalso. apply Hs. by apply (proj1 (cs_refs _ _ _ _ _ Hcs)).
    + intros _. destruct (cs_suffix _ _ _ _ _ Hcs) as [t0 ->].
      apply elem_of_app. right. rewrite El. apply elem_of_cons. by left.
    + intros o Ho. change (kmemory k1) with m1. subst m1. rewrite ld8_memmove by done.
      unfold in_range, PGSIZE. destruct (_ && _) eqn:E; [|lia].
      replace (p + o - p) with o by lia. change (p2v _) with (frame e0).
      apply (parent_byte _ i); [apply (cs_same _ _ _ _ _ Hcs)|lia|apply Hpres; lia|].
      unfold in_page, PGSIZE. lia.
  - apply (cp_count k' l' [p] t); [done|simpl; lia|by rewrite Habs].
Qed.

Lemma copyuvm_page_spec : copied_page (run (copyuvm_page pgdir d i (mkVm k arr u))).
Proof.
  unfold copyuvm_page. pose proof (Hpres i ltac:(lia)) as Hp.
  pose proof (cs_same _ _ _ _ _ Hcs) as Hsame.
  rewrite run_bind, run_zoom. cbn [lget lens_km km]. rewrite walkpgdir_find.
  pose proof (parent_pte (kmemory k) i Hsame) as Ep. unfold pte at 1 in Ep.
  destruct (pgtab_of (kmemory k) pgdir (PDX i)) as [tb|] eqn:Etb;
    [|exfalso; rewrite <- Ep in Hp; by vm_compute in Hp].
  cbn [rzoom rbind].
  assert (0 < tb) as Htb.
  { rewrite parent_tab in Etb by (try done; apply PDX_range).
    destruct (pt_tab _ _ _ _ Hpt0 _ tb (PDX_range i) Etb) as (Hvt & _).
    pose proof (valid_page_pos _ _ Hvt). lia. }
  pose proof (PTX_range i). destruct (Z.eqb_spec (tb + 4 * PTX i) 0); [lia|].
  unfold load32. mrun. cbn [lget lput lens_km km set_km shm_arr shm_used]. rewrite Ep, Hp. cbn [negb].
  destruct (is_shm_dec arr (PTE_ADDR e0));
    [by apply copyuvm_dup_shared|by apply copyuvm_dup_private].
Qed.
End copy_page.

Lemma copyuvm_loop_spec n d i sz k arr l :
  copy_state d i k arr l -> 0 <= i -> i mod 4096 = 0 -> sz <= KERNBASE -> i < sz + 4096 ->
  n = Z.to_nat ((sz - i + 4095) / 4096) ->
  (forall va, 0 <= va < i + 4096 * Z.of_nat n -> present (pte m0 pgdir va) = true) ->
  (absent (kmemory k) d + n <= length l)%nat ->
  exists k' arr' l', run (copyuvm_loop kend n pgdir d i sz (mkVm k arr u)) = ROk d (mkVm k' arr' u) /\
    copy_state d (i + 4096 * Z.of_nat n) k' arr' l'.
Proof.
  revert i k arr l. induction n as [|n IH]; intros i k arr l Hcs Hi Him Hsz Hlt Hn Hpres Hroom;
    cbn [copyuvm_loop].
  { destruct (Z.ltb_spec i sz); [Z.div_mod_to_equations; lia|].
    exists k, arr, l. mrun. split; [done|]. by replace (i + 4096 * Z.of_nat 0) with i by lia. }
  assert (i < sz) as Hisz by (Z.div_mod_to_equations; lia).
  destruct (Z.ltb_spec i sz) as [_|]; [|lia].
  assert (i + 4096 <= KERNBASE) as Hik by (unfold KERNBASE in *; Z.div_mod_to_equations; lia).
  destruct (copyuvm_page_spec d i k arr l) as (k1 & arr1 & l1 & Hrun & Hcs1 & Hcnt); try done; try lia.
  { intros va Hva. apply Hpres. lia. }
  rewrite run_bind, Hrun. cbn [rbind].
  rewrite u32_small by (unfold PGSIZE, KERNBASE in *; lia). unfold PGSIZE.
  destruct (IH (i + 4096) k1 arr1 l1) as (k2 & arr2 & l2 & Hrun2 & Hcs2); try done; try lia.
  - Z.div_mod_to_equations; lia.
  - Z.div_mod_to_equations; lia.
  - intros va Hva. apply Hpres. lia.
  - exists k2, arr2, l2. split; [done|].
    by replace (i + 4096 * Z.of_nat (S n)) with (i + 4096 + 4096 * Z.of_nat n) by lia.
Qed.
End copy.

(** A fresh page table is an empty address space, ready to be copied into. *)
Lemma copy_state_init k l pgdir arr d k' l' taken :
  kmem_ok k l -> kvm_new k l d k' l' taken ->
  copy_state (kmemory k) pgdir l arr d 0 k' arr l'.
Proof.
  intros Hok Hn. split.
  - apply (kn_kmem _ _ _ _ _ _ Hn).
  - apply (kn_pt _ _ _ _ _ _ Hn).
  - split; intros *; intros; exfalso;
      rewrite (kn_user _ _ _ _ _ _ Hn) in * by done; done.
  - exists (d :: taken). apply (kn_list _ _ _ _ _ _ Hn).
  - intros a Ha. apply (kn_frame _ _ _ _ _ _ Hn). intros p Hp. apply Ha.
    rewrite (kn_list _ _ _ _ _ _ Hn). change (d :: taken ++ l') with ((d :: taken) ++ l').
    apply elem_of_app. by left.
  - intros a Ha. destruct (kn_own _ _ _ _ _ _ Hn a Ha) as (p & Hp & Hin). exists p. split; [|done].
    rewrite (kn_list _ _ _ _ _ _ Hn). change (d :: taken ++ l') with ((d :: taken) ++ l').
    apply elem_of_app. by left.
  - intros va Hva. lia.
  - intros va Hva. by rewrite (kn_user _ _ _ _ _ _ Hn).
  - split; [done|]. intros pa r Hr. split; [intros (va & Hva & _); lia|done].
Qed.

(** C15. [copyuvm] gives the child the parent's memory: with enough free pages it returns a new
    page table through which every user access below the (page-rounded) size yields the byte it
    yields in the parent, and no access above it is allowed; pages of shared-memory regions are
    mapped to the same physical page and their reference counts go up by one, every other page is a
    page that was free before; the parent's own memory is unchanged. *)
Theorem copyuvm_correct k arr u l pgdir sz :
  kdata_ok -> kmem_ok k l -> pt_ok (kmemory k) pgdir l -> as_ok (kmemory k) pgdir l ->
  0 <= sz <= KERNBASE ->
  let pages := Z.to_nat ((sz + 4095) / 4096) in
  let hi := 4096 * Z.of_nat pages in
  (forall va, 0 <= va < hi -> present (pte (kmemory k) pgdir va) = true) ->
  (1025 + pages <= length l)%nat ->
  exists d k' arr' l', run (copyuvm kend kdata pgdir sz (mkVm k arr u)) = ROk d (mkVm k' arr' u) /\
    kmem_ok k' l' /\ pt_ok (kmemory k') d l' /\ as_ok (kmemory k') d l' /\
    (forall va, 0 <= va < hi ->
       uread (kmemory k') d va = uread (kmemory k) pgdir va /\
       (is_shm arr (PTE_ADDR (pte (kmemory k) pgdir va)) ->
          frame (pte (kmemory k') d va) = frame (pte (kmemory k) pgdir va)) /\
       (~ is_shm arr (PTE_ADDR (pte (kmemory k) pgdir va)) -> frame (pte (kmemory k') d va) ∈ l)) /\
    (forall va, hi <= va < KERNBASE -> uread (kmemory k') d va = None) /\
    (forall va, 0 <= va < KERNBASE -> uread (kmemory k') pgdir va = uread (kmemory k) pgdir va) /\
    counted (kmemory k) pgdir arr arr' hi.
Proof.
  intros Hkd Hok Hpt Has Hsz pages hi Hpres Hroom.
  destruct (setupkvm_new k l Hkd Hok ltac:(lia)) as (d & k1 & l1 & tk & Hrun & Hn).
  unfold copyuvm. rewrite run_bind, run_zoom. cbn [lget lens_km km]. rewrite Hrun. cbn [rzoom rbind].
  pose proof (valid_page_pos _ _ (pt_dir _ _ _ _ (kn_pt _ _ _ _ _ _ Hn))).
  destruct (Z.eqb_spec d 0); [lia|]. cbn [lput lens_km set_km shm_arr shm_used].
  pose proof (kn_list _ _ _ _ _ _ Hn) as El. apply (f_equal length) in El.
  simpl in El. rewrite length_app in El. pose proof (kn_absent _ _ _ _ _ _ Hn) as Hab.
  replace (Z.to_nat ((sz + PGSIZE - 1) / PGSIZE)) with pages
    by (subst pages; unfold PGSIZE; f_equal; f_equal; lia).
  destruct (copyuvm_loop_spec (kmemory k) k pgdir l arr u eq_refl Hok Hpt Has pages d 0 sz k1 arr l1)
    as (k2 & arr2 & l2 & Hrun2 & Hcs); try done; try lia.
  { by apply (copy_state_init k l pgdir arr d k1 l1 tk). }
  { subst pages. f_equal. f_equal. lia. }
  change (0 + 4096 * Z.of_nat pages) with hi in Hcs.
  exists d, k2, arr2, l2. split; [done|].
  split; [apply (cs_kmem _ _ _ _ _ _ _ _ _ Hcs)|]. split; [apply (cs_pt _ _ _ _ _ _ _ _ _ Hcs)|].
  split; [apply (cs_as _ _ _ _ _ _ _ _ _ Hcs)|]. split; [|split; [|split]].
  - intros va Hva. destruct (cs_done _ _ _ _ _ _ _ _ _ Hcs va Hva) as (_ & H1 & H2 & H3). done.
  - intros va Hva. unfold uread, uframe. by rewrite (cs_todo _ _ _ _ _ _ _ _ _ Hcs va Hva).
  - intros va Hva. pose proof (cs_same _ _ _ _ _ _ _ _ _ Hcs) as Hsame. unfold uread, uframe.
    rewrite (parent_pte (kmemory k) k pgdir l Hok Hpt) by done.
    destruct (present _) eqn:Hp; [|done]. destruct (user _); [|done]. simpl. f_equal.
    apply (parent_byte (kmemory k) k pgdir l Hok Has _ va); try done. apply in_page_offset.
  - apply (cs_refs _ _ _ _ _ _ _ _ _ Hcs).
Qed.

End vmfacts.

(** * Concrete states *)

(** A kernel that ends at 4 MB, a directory right behind it, and free pages after that. *)
Definition demo_kend : Z := 0x80400000.
Definition demo_dir : Z := 0x80400000.
Definition demo_data : Z := 0x80109000.
Definition demo_pages (n : nat) : list Z := page_run 0x80401000 n.
Definition demo_state (n : nat) : kmem := linked true (demo_pages n) ∅.

Lemma demo_state_ok n : (n <= 2200)%nat -> kmem_ok demo_kend (demo_state n) (demo_pages n).
Proof.
  intros Hn. apply linked_ok; [|apply page_run_NoDup].
  apply page_run_valid; [done|done|done|]. unfold PGSIZE, KERNBASE, PHYSTOP. lia.
Qed.

Lemma demo_state_dir n a : in_page a demo_dir -> ld8 (kmemory (demo_state n)) a = 0.
Proof.
  intros Ha. cbn [demo_state linked kmemory]. rewrite ld8_link; [done|].
  intros p Hp%page_run_ge. unfold in_page, PGSIZE, demo_dir in *. lia.
Qed.

Lemma demo_state_tab n i : 0 <= i < 1024 -> pgtab_of (kmemory (demo_state n)) demo_dir i = None.
Proof. apply empty_dir. apply demo_state_dir. Qed.

Lemma demo_state_pt n : pt_ok demo_kend (kmemory (demo_state n)) demo_dir (demo_pages n).
Proof.
  split.
  - done.
  - intros Hp%page_run_ge. unfold demo_dir in *. lia.
  - intros i t Hi. by rewrite demo_state_tab.
  - intros i j t Hi Hj. by rewrite demo_state_tab.
Qed.

Lemma demo_state_pte n va : pte (kmemory (demo_state n)) demo_dir va = 0.
Proof. unfold pte. by rewrite demo_state_tab by apply PDX_range. Qed.

Lemma demo_state_as n : as_ok demo_kend (kmemory (demo_state n)) demo_dir (demo_pages n).
Proof. split; intros *; rewrite ?demo_state_pte; done. Qed.

Lemma demo_state_absent n : (absent (kmemory (demo_state n)) demo_dir <= 1024)%nat.
Proof. unfold absent. etrans; [apply length_filter|]. by rewrite length_seqZ. Qed.

(** The first two pages of an empty address space. *)
Lemma allocuvm_correct_witness :
  exists k' l', run (allocuvm demo_kend demo_dir 0 8192 (mkVm (demo_state 1100) [] 0)) = ROk 8192 (mkVm k' [] 0) /\
    kmem_ok demo_kend k' l' /\ pt_ok demo_kend (kmemory k') demo_dir l' /\ as_ok demo_kend (kmemory k') demo_dir l' /\
    (forall va, 0 <= va < KERNBASE -> uread (kmemory k') demo_dir va =
       if in_range va 0 8192 then Some 0 else uread (kmemory (demo_state 1100)) demo_dir va).
Proof.
  apply (allocuvm_correct demo_kend (demo_state 1100) [] 0 (demo_pages 1100) demo_dir 0 8192).
  - apply demo_state_ok. lia.
  - apply demo_state_pt.
  - apply demo_state_as.
  - lia.
  - done.
  - intros va _. by rewrite demo_state_pte.
  - pose proof (demo_state_absent 1100). unfold demo_pages. rewrite page_run_length.
    change (Z.to_nat ((8192 - PGROUNDUP 0 + 4095) / 4096)) with 2%nat. lia.
Defined.

Lemma allocuvm_unmapped_success_witness :
  exists k', run (allocuvm demo_kend demo_dir 0 PGSIZE (mkVm (demo_state 1) [] 0)) = ROk PGSIZE (mkVm k' [] 0) /\
    kmem_ok demo_kend k' [] /\ uread (kmemory k') demo_dir 0 = None.
Proof.
  apply (allocuvm_unmapped_success demo_kend (demo_state 1) [] 0 0x80401000 demo_dir).
  - apply (demo_state_ok 1). lia.
  - apply (demo_state_pt 1).
  - by apply demo_state_tab.
Defined.

(** A parent with one page, copied. *)
Lemma copyuvm_correct_witness :
  exists (k : kmem) (l : list Z) (d : Z) (k' : kmem) (arr' : list shm) (l' : list Z),
    uread (kmemory k) demo_dir 5 = Some 0 /\ (1026 <= length l)%nat /\
    run (copyuvm demo_kend demo_data demo_dir 4096 (mkVm k [] 0)) = ROk d (mkVm k' arr' 0) /\
    kmem_ok demo_kend k' l' /\ uread (kmemory k') d 5 = Some 0 /\ uread (kmemory k') d 4096 = None.
Proof.
  assert (kdata_ok demo_data) as Hkd by done.
  destruct (allocuvm_loop_spec demo_kend 1 demo_dir 0 0 4096 (demo_state 2100) [] 0 (page_run 0x80401000 2100))
    as (k & l & tk & Hrun & Hext & Has & Hab & Hrd);
    [apply demo_state_ok; lia|apply demo_state_pt|apply demo_state_as|lia|reflexivity|reflexivity|lia|reflexivity
    |intros va _; by rewrite demo_state_pte
    |pose proof (demo_state_absent 2100); rewrite page_run_length; lia|].
  assert (1026 <= length l)%nat as Hlen.
  { pose proof (ext_list _ _ _ _ _ _ _ Hext) as E. apply (f_equal length) in E.
    rewrite page_run_length, length_app in E. pose proof (demo_state_absent 2100). lia. }
  assert (forall va, 0 <= va < 4096 -> present (pte (kmemory k) demo_dir va) = true) as Hp.
  { intros va Hva. pose proof (Hrd va ltac:(unfold KERNBASE; lia)) as E.
    assert (in_range va 0 (4096 * Z.of_nat 1) = true) as Er by (apply in_range_spec; lia).
    rewrite Er in E.
    unfold uread, uframe in E. by destruct (present _). }
  destruct (copyuvm_correct demo_kend demo_data k [] 0 l demo_dir 4096)
    as (d & k' & arr' & l' & Hrun' & Hk' & _ & _ & Hcopy & Hnone & _);
    [exact Hkd|apply (ext_kmem _ _ _ _ _ _ _ Hext)|apply (ext_pt _ _ _ _ _ _ _ Hext)|exact Has
    |unfold KERNBASE; lia|exact Hp|exact Hlen|].
  assert (uread (kmemory k) demo_dir 5 = Some 0) as H5 by (rewrite Hrd; [reflexivity|unfold KERNBASE; lia]).
  exists k, l, d, k', arr', l'.
  split; [exact H5|]. split; [exact Hlen|]. split; [exact Hrun'|]. split; [exact Hk'|].
  split; [|apply Hnone; split; [by vm_compute|reflexivity]].
  destruct (Hcopy 5) as [-> _]; [split; [by vm_compute|reflexivity]|exact H5].
Defined.
