(* ===== verification/ProcState.v ===== *)
(** Process-table data: proc.h, the globals of proc.c, and mutex.h.

    [kstate] is the state the process, shared-memory and mutex code works on: kernel
    memory with the allocator and the shared-memory table (Vm.v), the process
    table, the mutex table, and the file-system state as a parameter.  Pointers to
    processes are indices into the table.  The routines take the index [me] of the
    process that runs them: the per-CPU variable [proc]. *)

From stdpp Require Import base tactics option list gmap strings numbers.
From Stdlib Require Import ZArith Lia.
From S2P Require Import Prelude Mem CString Layout Kalloc ShmTable Vm.
Open Scope Z_scope.

Inductive procstate := UNUSED | EMBRYO | SLEEPING | RUNNABLE | RUNNING | ZOMBIE.
#[export] Instance procstate_eq_dec : EqDecision procstate.
Proof. solve_decision. Defined.

Record proc := mkProc {
  sz : Z;
  pgdir : Z;
  kstack : Z;
  state : procstate;
  pid : Z;
  parent : option nat;
  tf : Z;
  context : Z;
  chan_of : option chan;
  killed : Z;
  ofile : list (option nat);
  cwd : option nat;
  pname : list Z;
  shm_name : list (list Z);
  shm_vir : list Z;
  shm_phys : list Z;
  mxproc : list Z
}.

(** Field assignments [p->f = v]. *)
Definition set_sz v p := mkProc v (pgdir p) (kstack p) (state p) (pid p) (parent p) (tf p) (context p) (chan_of p) (killed p) (ofile p) (cwd p) (pname p) (shm_name p) (shm_vir p) (shm_phys p) (mxproc p).
Definition set_pgdir v p := mkProc (sz p) v (kstack p) (state p) (pid p) (parent p) (tf p) (context p) (chan_of p) (killed p) (ofile p) (cwd p) (pname p) (shm_name p) (shm_vir p) (shm_phys p) (mxproc p).
Definition set_kstack v p := mkProc (sz p) (pgdir p) v (state p) (pid p) (parent p) (tf p) (context p) (chan_of p) (killed p) (ofile p) (cwd p) (pname p) (shm_name p) (shm_vir p) (shm_phys p) (mxproc p).
Definition set_state v p := mkProc (sz p) (pgdir p) (kstack p) v (pid p) (parent p) (tf p) (context p) (chan_of p) (killed p) (ofile p) (cwd p) (pname p) (shm_name p) (shm_vir p) (shm_phys p) (mxproc p).
Definition set_pid v p := mkProc (sz p) (pgdir p) (kstack p) (state p) v (parent p) (tf p) (context p) (chan_of p) (killed p) (ofile p) (cwd p) (pname p) (shm_name p) (shm_vir p) (shm_phys p) (mxproc p).
Definition set_parent v p := mkProc (sz p) (pgdir p) (kstack p) (state p) (pid p) v (tf p) (context p) (chan_of p) (killed p) (ofile p) (cwd p) (pname p) (shm_name p) (shm_vir p) (shm_phys p) (mxproc p).
Definition set_tf v p := mkProc (sz p) (pgdir p) (kstack p) (state p) (pid p) (parent p) v (context p) (chan_of p) (killed p) (ofile p) (cwd p) (pname p) (shm_name p) (shm_vir p) (shm_phys p) (mxproc p).
Definition set_context v p := mkProc (sz p) (pgdir p) (kstack p) (state p) (pid p) (parent p) (tf p) v (chan_of p) (killed p) (ofile p) (cwd p) (pname p) (shm_name p) (shm_vir p) (shm_phys p) (mxproc p).
Definition set_chan v p := mkProc (sz p) (pgdir p) (kstack p) (state p) (pid p) (parent p) (tf p) (context p) v (killed p) (ofile p) (cwd p) (pname p) (shm_name p) (shm_vir p) (shm_phys p) (mxproc p).
Definition set_killed v p := mkProc (sz p) (pgdir p) (kstack p) (state p) (pid p) (parent p) (tf p) (context p) (chan_of p) v (ofile p) (cwd p) (pname p) (shm_name p) (shm_vir p) (shm_phys p) (mxproc p).
Definition set_ofile v p := mkProc (sz p) (pgdir p) (kstack p) (state p) (pid p) (parent p) (tf p) (context p) (chan_of p) (killed p) v (cwd p) (pname p) (shm_name p) (shm_vir p) (shm_phys p) (mxproc p).
Definition set_cwd v p := mkProc (sz p) (pgdir p) (kstack p) (state p) (pid p) (parent p) (tf p) (context p) (chan_of p) (killed p) (ofile p) v (pname p) (shm_name p) (shm_vir p) (shm_phys p) (mxproc p).
Definition set_pname v p := mkProc (sz p) (pgdir p) (kstack p) (state p) (pid p) (parent p) (tf p) (context p) (chan_of p) (killed p) (ofile p) (cwd p) v (shm_name p) (shm_vir p) (shm_phys p) (mxproc p).
Definition set_shm_name v p := mkProc (sz p) (pgdir p) (kstack p) (state p) (pid p) (parent p) (tf p) (context p) (chan_of p) (killed p) (ofile p) (cwd p) (pname p) v (shm_vir p) (shm_phys p) (mxproc p).
Definition set_shm_vir v p := mkProc (sz p) (pgdir p) (kstack p) (state p) (pid p) (parent p) (tf p) (context p) (chan_of p) (killed p) (ofile p) (cwd p) (pname p) (shm_name p) v (shm_phys p) (mxproc p).
Definition set_shm_phys v p := mkProc (sz p) (pgdir p) (kstack p) (state p) (pid p) (parent p) (tf p) (context p) (chan_of p) (killed p) (ofile p) (cwd p) (pname p) (shm_name p) (shm_vir p) v (mxproc p).
Definition set_mxproc v p := mkProc (sz p) (pgdir p) (kstack p) (state p) (pid p) (parent p) (tf p) (context p) (chan_of p) (killed p) (ofile p) (cwd p) (pname p) (shm_name p) (shm_vir p) (shm_phys p) v.

(** A slot of the zeroed process table the kernel image starts with. *)
Definition proc_zero : proc :=
  mkProc 0 0 0 UNUSED 0 None 0 0 None 0 (replicate (Z.to_nat NOFILE) None) None
    (replicate 16 0) (replicate (Z.to_nat SHM_MAXNUM) (replicate 16 0))
    (replicate (Z.to_nat SHM_MAXNUM) 0) (replicate (Z.to_nat SHM_MAXNUM) 0)
    (replicate (Z.to_nat MUX_MAXNUM) 0).

(** A mutex; [mxname] is the user pointer the code stores, 0 when the slot is free. *)
Record mutex := mkMutex {
  mxlock : Z;
  mxid : Z;
  mxname : Z;
  mxname_len : Z;
  num_proc : Z
}.

Definition set_mxlock v m := mkMutex v (mxid m) (mxname m) (mxname_len m) (num_proc m).
Definition set_num_proc v m := mkMutex (mxlock m) (mxid m) (mxname m) (mxname_len m) v.

Section state.
Context {FS : Type}.

Record kstate := mkK {
  vm : vmstate;
  ptable : list proc;
  highpid : Z;
  nextpid : Z;
  initproc : option nat;
  mxarray : list mutex;
  ticks : Z;
  fs : FS
}.

Definition set_vm v s := mkK v (ptable s) (highpid s) (nextpid s) (initproc s) (mxarray s) (ticks s) (fs s).
Definition set_ptable v s := mkK (vm s) v (highpid s) (nextpid s) (initproc s) (mxarray s) (ticks s) (fs s).
Definition set_highpid v s := mkK (vm s) (ptable s) v (nextpid s) (initproc s) (mxarray s) (ticks s) (fs s).
Definition set_nextpid v s := mkK (vm s) (ptable s) (highpid s) v (initproc s) (mxarray s) (ticks s) (fs s).
Definition set_initproc v s := mkK (vm s) (ptable s) (highpid s) (nextpid s) v (mxarray s) (ticks s) (fs s).
Definition set_mxarray v s := mkK (vm s) (ptable s) (highpid s) (nextpid s) (initproc s) v (ticks s) (fs s).
Definition set_ticks v s := mkK (vm s) (ptable s) (highpid s) (nextpid s) (initproc s) (mxarray s) v (fs s).
Definition set_fs v s := mkK (vm s) (ptable s) (highpid s) (nextpid s) (initproc s) (mxarray s) (ticks s) v.

#[export] Instance lens_vm : Lens kstate vmstate.
Proof. refine {| lget := vm; lput := set_vm |}; [done|by intros []|done]. Defined.
#[export] Instance lens_fs : Lens kstate FS.
Proof. refine {| lget := fs; lput := set_fs |}; [done|by intros []|done]. Defined.
#[export] Instance lens_kmem : Lens kstate kmem.
Proof.
  refine {| lget := fun s => km (vm s); lput := fun k s => set_vm (set_km k (vm s)) s |};
    [done|by intros [[]]|done].
Defined.

(** [ptable.proc[i]]; an index outside the table is a stray pointer. *)
Definition get_proc (i : nat) : M kstate proc :=
  fun s => match ptable s !! i with Some p => Ret p s | None => Undef "stray proc pointer" end.
Definition upd_proc (i : nat) (f : proc -> proc) : M kstate unit :=
  modify (fun s => set_ptable (alter f i (ptable s)) s).

(** Access to a per-process array at an [int] index: C does not check it, and an
    access outside the array is undefined. *)
Definition arr_get {A} (l : list A) (i : Z) : M kstate A :=
  match zlookup l i with Some x => ret x | None => undef "index out of range" end.

Definition get_mutex (g : Z) : M kstate mutex :=
  a <- gets mxarray ;; arr_get a g.
Definition upd_mutex (g : Z) (f : mutex -> mutex) : M kstate unit :=
  a <- gets mxarray ;; m <- arr_get a g ;;
  modify (set_mxarray (zinsert g (f m) a)).

(** * Theorems *)

Lemma run_get_proc i s :
  run (get_proc i s) =
    match ptable s !! i with Some p => ROk p s | None => RUndef "stray proc pointer" end.
Proof. unfold get_proc. by destruct (ptable s !! i). Qed.

Lemma run_upd_proc i f s :
  run (upd_proc i f s) = ROk tt (set_ptable (alter f i (ptable s)) s).
Proof. done. Qed.

Lemma run_arr_get {A} (l : list A) i s :
  run (arr_get l i s) =
    match zlookup l i with Some x => ROk x s | None => RUndef "index out of range" end.
Proof. unfold arr_get. by destruct (zlookup l i). Qed.

Lemma run_get_mutex g s :
  run (get_mutex g s) =
    match zlookup (mxarray s) g with Some m => ROk m s | None => RUndef "index out of range" end.
Proof. unfold get_mutex. mrun. apply run_arr_get. Qed.

Lemma run_upd_mutex g f s m :
  zlookup (mxarray s) g = Some m ->
  run (upd_mutex g f s) = ROk tt (set_mxarray (zinsert g (f m) (mxarray s)) s).
Proof. intros H. unfold upd_mutex. mrun. rewrite run_arr_get, H. by mrun. Qed.

(** The state with process [i] set to [p]: the form the proofs about one process keep
    their states in. *)
Definition put_proc (i : nat) (p : proc) (s : kstate) : kstate := set_ptable (<[i := p]> (ptable s)) s.

Lemma put_proc_id i p s : ptable s !! i = Some p -> put_proc i p s = s.
Proof. destruct s. unfold put_proc, set_ptable; simpl. intros H. by rewrite list_insert_id. Qed.

Lemma run_get_put i p s :
  (i < length (ptable s))%nat -> run (get_proc i (put_proc i p s)) = ROk p (put_proc i p s).
Proof.
  intros Hi. rewrite run_get_proc. cbn [put_proc ptable set_ptable].
  by rewrite list_lookup_insert_eq.
Qed.

Lemma run_upd_put i f p s :
  (i < length (ptable s))%nat -> run (upd_proc i f (put_proc i p s)) = ROk tt (put_proc i (f p) s).
Proof.
  intros Hi. rewrite run_upd_proc. unfold put_proc, set_ptable. cbn [ptable vm highpid nextpid initproc mxarray ticks fs].
  do 2 f_equal. apply list_eq. intros j. destruct (decide (i = j)) as [<-|].
  - rewrite list_lookup_alter_eq, !list_lookup_insert_eq by done. done.
  - by rewrite list_lookup_alter_ne, !list_lookup_insert_ne.
Qed.

End state.
Arguments kstate FS : clear implicits.

(** [mrun] with the table accesses. *)
Ltac kstep :=
  first
    [ mstep
    | rewrite run_get_proc; cbn [ptable set_ptable set_vm set_mxarray set_fs set_nextpid set_highpid set_initproc]
    | rewrite run_upd_proc; cbn [rbind]
    | rewrite run_get_mutex
    | rewrite run_arr_get ].
Ltac krun := repeat kstep.
