(* ===== verification/Sched.v ===== *)
(** The scheduler and sleep/wakeup: the middle part of proc.c.

    The scheduler's loop body is [scheduler_round]; a process gives up the CPU with
    [swtch], and [runs] executes a routine with a given behaviour of the processes
    at these points, recording the state at every switch. *)

From stdpp Require Import base tactics option list gmap strings numbers.
From Stdlib Require Import ZArith Lia.
From S2P Require Import Prelude Mem CString Layout Kalloc ShmTable Vm ProcState.
Open Scope Z_scope.

Section sched.
Context {FS : Type}.
Abbreviation K := (kstate FS).

(** * Giving up the CPU *)

(** The checks that [ptable.lock] is the only lock held and that interrupts are off
    concern the CPU, not the process table: [wp] demands them at [swtch]. *)
Definition sched (me : nat) : M K unit :=
  p <- get_proc me ;;
  if bool_decide (state p = RUNNING) then panic "sched running" else swtch.

Definition yield (me : nat) : M K unit :=
  acquire LK_ptable ;;
  upd_proc me (set_state RUNNABLE) ;;
  sched me ;;
  release LK_ptable.

Definition sleep (me : nat) (c : chan) (lk : lockid) : M K unit :=
  when (negb (bool_decide (lk = LK_ptable))) (acquire LK_ptable ;; release lk) ;;
  upd_proc me (set_chan (Some c)) ;;
  upd_proc me (set_state SLEEPING) ;;
  sched me ;;
  upd_proc me (set_chan None) ;;
  when (negb (bool_decide (lk = LK_ptable))) (release LK_ptable ;; acquire lk).

(** * Waking up *)

Definition sleeping_on (c : chan) (p : proc) : bool :=
  bool_decide (state p = SLEEPING) && bool_decide (chan_of p = Some c).

Definition wakeup1 (c : chan) : M K unit :=
  modify (fun s => set_ptable
    ((fun p => if sleeping_on c p then set_state RUNNABLE p else p) <$> ptable s) s).

Definition wakeup (c : chan) : M K unit :=
  acquire LK_ptable ;; wakeup1 c ;; release LK_ptable.

Definition kill (pid0 : Z) : M K Z :=
  acquire LK_ptable ;;
  ps <- gets ptable ;;
  match find_index (fun p => pid p =? pid0) ps with
  | Some i =>
      upd_proc i (set_killed 1) ;;
      p <- get_proc i ;;
      when (bool_decide (state p = SLEEPING)) (upd_proc i (set_state RUNNABLE)) ;;
      release LK_ptable ;;
      ret 0
  | None => release LK_ptable ;; ret (-1)
  end.

Definition setHighPrio (me : nat) : M K Z :=
  p <- get_proc me ;; modify (set_highpid (pid p)) ;; ret 0.

(** * The scheduler *)

(** [switchuvm] loads segment registers and the page-table register; what the table
    sees of it is the panic. *)
Definition switchuvm (i : nat) : M K unit :=
  p <- get_proc i ;;
  if pgdir p =? 0 then panic "switchuvm: no pgdir" else ret tt.

(** [proc = p; switchuvm(p); p->state = RUNNING; swtch(...); switchkvm(); proc = 0;] *)
Definition dispatch (i : nat) : M K unit :=
  switchuvm i ;;
  upd_proc i (set_state RUNNING) ;;
  swtch.

Definition find_high (s : K) : option nat :=
  if highpid s =? 0 then None
  else find_index (fun p => bool_decide (state p = RUNNABLE) && (pid p =? highpid s)) (ptable s).

(** One turn of [for (;;)]. *)
Definition scheduler_round : M K unit :=
  acquire LK_ptable ;;
  high <- gets find_high ;;
  match high with
  | Some i => dispatch i
  | None =>
      for_each (seq 0 (Z.to_nat NPROC)) (fun i =>
        p <- get_proc i ;;
        when (bool_decide (state p = RUNNABLE)) (dispatch i))
  end ;;
  release LK_ptable.

(** * Running with the processes' turns filled in *)

(** [h] is what happens between a switch and the return from it. *)
Fixpoint runs {S A} (h : S -> S) (p : prog S A) : list S * res S A :=
  match p with
  | Ret a s => ([], ROk a s)
  | Panic m => ([], RPanic m)
  | Undef m => ([], RUndef m)
  | OutOfFuel => ([], RFuel)
  | Sync (ESleep c _) s _ => ([], RBlocked c s)
  | Sync ESwtch s k => let '(tr, r) := runs h (k (h s)) in (s :: tr, r)
  | Sync _ s k => runs h (k s)
  end.

Definition rsbind {S A B} (x : list S * res S A) (f : A -> S -> list S * res S B) : list S * res S B :=
  match x with
  | (tr, ROk a s) => let '(tr', r) := f a s in (tr ++ tr', r)
  | (tr, RPanic m) => (tr, RPanic m)
  | (tr, RUndef m) => (tr, RUndef m)
  | (tr, RBlocked c s) => (tr, RBlocked c s)
  | (tr, RSwitched s) => (tr, RSwitched s)
  | (tr, RFuel) => (tr, RFuel)
  end.

(** A process that runs until its time slice ends: [yield]. *)
Definition preempt (s : K) : K :=
  set_ptable ((fun p => if bool_decide (state p = RUNNING) then set_state RUNNABLE p else p)
    <$> ptable s) s.

(** The state in which process [i] has the CPU. *)
Definition with_running (s : K) (i : nat) : K :=
  set_ptable (alter (set_state RUNNING) i (ptable s)) s.

Definition is_runnable (s : K) (i : nat) : bool :=
  match ptable s !! i with Some p => bool_decide (state p = RUNNABLE) | None => false end.

(** Rounds of the scheduler. *)
Fixpoint rounds (n : nat) : M K unit :=
  match n with O => ret tt | S k => scheduler_round ;; rounds k end.

(** * Theorems *)

Lemma runs_bind {S A B} h (m : M S A) (f : A -> M S B) s :
  runs h (bind m f s) = rsbind (runs h (m s)) (fun a s' => runs h (f a s')).
Proof.
  unfold bind. induction (m s) as [a t| | | |e t k IH]; simpl; try done.
  - by destruct (runs h (f a t)).
  - destruct e; simpl; try done; try apply IH.
    rewrite IH. destruct (runs h (k (h t))) as [tr [ | | | | | ]]; simpl; try done.
    by destruct (runs h (f _ _)).
Qed.

Definition pcs_ok (s : K) : Prop :=
  Forall (fun p => state p <> RUNNING /\ (state p = RUNNABLE -> pgdir p <> 0)) (ptable s).

Lemma set_state_back p st : state p = st -> forall st', set_state st (set_state st' p) = p.
Proof. by intros <- ?; destruct p. Qed.

(** Dispatching a runnable process and preempting it leaves the table as it was. *)
Lemma preempt_dispatched s i p :
  pcs_ok s -> ptable s !! i = Some p -> state p = RUNNABLE ->
  preempt (set_ptable (alter (set_state RUNNING) i (ptable s)) s) = s.
Proof.
  intros Hok Hi Hr. destruct s as [v ps hp np ip mx tk f]. unfold preempt, set_ptable; cbn [ptable vm highpid nextpid initproc mxarray ticks fs] in *.
  f_equal. apply list_eq. intros j. rewrite list_lookup_fmap.
  destruct (decide (i = j)) as [<-|Hne].
  - rewrite list_lookup_alter_eq, Hi. cbn [fmap option_fmap option_map].
    rewrite bool_decide_true by done. by rewrite set_state_back.
  - rewrite list_lookup_alter_ne by done. destruct (ps !! j) as [q|] eqn:Hj; [|done]. simpl.
    unfold pcs_ok in Hok; simpl in Hok. rewrite list.Forall_lookup in Hok.
    destruct (Hok j q Hj) as [Hnr _]. by rewrite bool_decide_false.
Qed.

Lemma runs_dispatch s i p :
  pcs_ok s -> ptable s !! i = Some p -> state p = RUNNABLE ->
  runs preempt (dispatch i s) = ([set_ptable (alter (set_state RUNNING) i (ptable s)) s], ROk tt s).
Proof.
  intros Hok Hi Hr. unfold dispatch, switchuvm. rewrite !runs_bind. unfold get_proc. rewrite Hi. simpl.
  unfold pcs_ok in Hok. pose proof Hok as Hok'. rewrite list.Forall_lookup in Hok.
  destruct (Hok i p Hi) as [_ Hpg].
  destruct (Z.eqb_spec (pgdir p) 0); [by destruct Hpg|]. simpl. by rewrite (preempt_dispatched s i p).
Qed.

Lemma runs_scan s (l : list nat) :
  pcs_ok s -> (forall i, i ∈ l -> (i < length (ptable s))%nat) ->
  runs preempt (for_each l (fun i =>
      p <- get_proc i ;; when (bool_decide (state p = RUNNABLE)) (dispatch i)) s)
    = (with_running s <$> filter (fun i => is_runnable s i = true) l, ROk tt s).
Proof.
  intros Hok. induction l as [|i l IH]; intros Hl; [done|]. cbn [for_each].
  destruct (lookup_lt_is_Some_2 (ptable s) i (Hl i ltac:(set_solver))) as [p Hp].
  rewrite !runs_bind. unfold get_proc at 1.
  rewrite Hp. cbn [runs rsbind]. rewrite filter_cons.
  assert (is_runnable s i = bool_decide (state p = RUNNABLE)) as Ei by (unfold is_runnable; by rewrite Hp).
  destruct (bool_decide (state p = RUNNABLE)) eqn:Hr; cbn [when].
  - apply bool_decide_eq_true in Hr. rewrite (runs_dispatch s i p) by done.
    rewrite decide_True by (by rewrite Ei). cbn [app rsbind]. rewrite IH by set_solver. done.
  - rewrite decide_False by (by rewrite Ei). cbn [ret runs app rsbind]. rewrite IH by set_solver. done.
Qed.

Lemma runs_round_high s i p :
  pcs_ok s -> find_high s = Some i -> ptable s !! i = Some p -> state p = RUNNABLE ->
  runs preempt (scheduler_round s) = ([with_running s i], ROk tt s).
Proof.
  intros Hok Hf Hp Hr. unfold scheduler_round. rewrite runs_bind. cbn [acquire sync runs rsbind].
  rewrite runs_bind. cbn [gets runs rsbind]. rewrite Hf.
  rewrite runs_bind, (runs_dispatch s i p) by done. done.
Qed.

(** C21. Round robin: when no runnable process has the high priority, one turn of the scheduler
    gives the CPU to every runnable process once, in table order, and to no other; when each of
    them runs until its time slice ends, the table is as it was afterwards. *)
Theorem scheduler_round_robin s :
  pcs_ok s -> length (ptable s) = Z.to_nat NPROC -> find_high s = None ->
  runs preempt (scheduler_round s) =
    (with_running s <$> filter (fun i => is_runnable s i = true) (seq 0 (Z.to_nat NPROC)), ROk tt s).
Proof.
  intros Hok Hlen Hf. unfold scheduler_round. rewrite runs_bind. cbn [acquire sync runs rsbind].
  rewrite runs_bind. cbn [gets runs rsbind]. rewrite Hf.
  rewrite runs_bind, runs_scan; [|done|].
  - cbn [release sync runs rsbind app]. by rewrite !app_nil_r.
  - intros i Hi%elem_of_seq. lia.
Qed.

(** The search of the scheduler finds the process with the high priority. *)
Lemma find_high_is (s : K) i p :
  ptable s !! i = Some p -> state p = RUNNABLE -> pid p = highpid s -> highpid s <> 0 ->
  (forall j q, j <> i -> ptable s !! j = Some q -> state q = RUNNABLE -> pid q <> highpid s) -> find_high s = Some i.
Proof.
  intros Hp Hr Hpid H0 Huniq. unfold find_high. destruct (Z.eqb_spec (highpid s) 0); [done|].
  apply find_index_Some. split.
  - exists p. split; [done|]. rewrite bool_decide_true by done. rewrite Hpid. apply Z.eqb_refl.
  - intros j q Hj Hq. destruct (bool_decide_reflect (state q = RUNNABLE)) as [Hrq|]; [|done].
    apply Z.eqb_neq, (Huniq j q); [lia|done|done].
Qed.

(** The processes that want the CPU; all have an address space. *)
Definition wants_cpu (p : proc) : Prop := state p = RUNNABLE \/ state p = RUNNING.

Lemma preempt_lookup (s : K) j q : ptable (preempt s) !! j = Some q ->
  exists p, ptable s !! j = Some p /\ pid q = pid p /\ pgdir q = pgdir p /\ state q <> RUNNING /\ (state q = RUNNABLE -> wants_cpu p).
Proof.
  cbn [preempt ptable set_ptable]. rewrite list_lookup_fmap. intros (p & Hp & ->)%fmap_Some. exists p. split; [done|]. unfold wants_cpu.
  case_bool_decide as E; (split; [done|]); (split; [done|]); (split; [done|]); intros H; [by right|by left].
Qed.

(** C22. Priority.  When a running process has called [setHighPrio] and its time slice ends, it gets the CPU again in every turn
    of the scheduler while it is runnable, and no other process gets it, however many turns the scheduler
    makes, whoever else is runnable and wherever the process is in the table; its pid is not 0 and
    no other process that wants the CPU has it. *)
Theorem scheduler_priority (s0 : K) i p n :
  ptable s0 !! i = Some p -> state p = RUNNING -> pid p <> 0 ->
  (forall j q, ptable s0 !! j = Some q -> wants_cpu q -> pgdir q <> 0 /\ (j <> i -> pid q <> pid p)) ->
  exists s1, run (setHighPrio i s0) = ROk 0 s1 /\ ptable s1 = ptable s0 /\
    runs preempt (rounds n (preempt s1)) = (replicate n (with_running (preempt s1) i), ROk tt (preempt s1)).
Proof.
  intros Hp Hr H0 Hall. exists (set_highpid (pid p) s0). split; [|split; [done|]].
  { unfold setHighPrio, get_proc. rewrite run_bind, Hp. done. }
  set (s := preempt (set_highpid (pid p) s0)).
  assert (ptable s !! i = Some (set_state RUNNABLE p)) as Hi.
  { cbn [s preempt ptable set_ptable set_highpid]. rewrite list_lookup_fmap, Hp. cbn. by rewrite bool_decide_true. }
  assert (pcs_ok s) as Hok.
  { apply list.Forall_lookup. intros j q (p' & Hp' & _ & -> & Hnr & Hw)%preempt_lookup. split; [done|]. intros Hq. by apply (Hall j p' Hp'), Hw. }
  assert (find_high s = Some i) as Hf.
  { apply (find_high_is s i (set_state RUNNABLE p)); try done. intros j q Hj (p' & Hp' & -> & _ & _ & Hw)%preempt_lookup Hq.
    apply (Hall j p' Hp'); [by apply Hw|done]. }
  induction n as [|n IH]; [done|]. cbn [rounds].
  rewrite runs_bind, (runs_round_high s i (set_state RUNNABLE p)) by done. cbn [rsbind]. by rewrite IH.
Qed.

(** ** Sleep and wakeup *)

(** [sleep] gives up the CPU with the process SLEEPING on its channel. *)
Lemma run_sleep me c lk s p :
  ptable s !! me = Some p ->
  run (sleep me c lk s) =
    RSwitched (set_ptable (<[me := set_state SLEEPING (set_chan (Some c) p)]> (ptable s)) s).
Proof.
  intros Hp. unfold sleep, sched.
  assert (forall t : K, ptable t !! me = Some p ->
    run ((upd_proc me (set_chan (Some c)) ;; upd_proc me (set_state SLEEPING) ;;
      (q <- get_proc me ;; if bool_decide (state q = RUNNING) then panic "sched running" else swtch) ;;
      upd_proc me (set_chan None) ;;
      when (negb (bool_decide (lk = LK_ptable))) (release LK_ptable ;; acquire lk)) t) =
    RSwitched (set_ptable (<[me := set_state SLEEPING (set_chan (Some c) p)]> (ptable t)) t)) as E.
  { intros t Ht. krun. cbn [ptable set_ptable].
    assert (alter (set_state SLEEPING) me (alter (set_chan (Some c)) me (ptable t)) =
      <[me:=set_state SLEEPING (set_chan (Some c) p)]> (ptable t)) as ->.
    { apply list_eq. intros j. destruct (decide (me = j)) as [<-|].
      - rewrite !list_lookup_alter_eq, Ht. rewrite list_lookup_insert_eq; [done|].
        by eapply lookup_lt_Some.
      - by rewrite !list_lookup_alter_ne, list_lookup_insert_ne. }
    rewrite list_lookup_insert_eq by (by eapply lookup_lt_Some). krun. done. }
  rewrite run_bind, run_when. destruct (negb _); cbn [rbind]; [mrun|]; by apply E.
Qed.

Lemma run_wakeup1 c s :
  run (wakeup1 c s) = ROk tt (set_ptable
    ((fun p => if sleeping_on c p then set_state RUNNABLE p else p) <$> ptable s) s).
Proof. done. Qed.

Lemma run_wakeup_table c s :
  run (wakeup c s) = ROk tt (set_ptable
    ((fun p => if sleeping_on c p then set_state RUNNABLE p else p) <$> ptable s) s).
Proof. unfold wakeup. by mrun. Qed.

End sched.

(** * Concrete states *)

Section concrete.
Let p0 (st : procstate) (n : Z) : proc := set_pgdir 0x80500000 (set_pid n (set_state st proc_zero)).
(** Three processes, the second asleep; [hp] is the high-priority pid. *)
Let st0 (hp : Z) : kstate unit :=
  mkK (mkVm (mkKmem true 0 ∅) [] 0)
    ([p0 RUNNABLE 1; p0 SLEEPING 2; p0 RUNNABLE 3] ++ replicate 61 proc_zero) hp 4 (Some 0%nat) [] 0 tt.

Lemma st0_ok hp : pcs_ok (st0 hp).
Proof. unfold pcs_ok, st0; simpl. repeat constructor; done. Qed.

Lemma scheduler_round_robin_witness :
  runs preempt (scheduler_round (st0 2)) =
    ([with_running (st0 2) 0; with_running (st0 2) 2], ROk tt (st0 2)).
Proof. apply (scheduler_round_robin (st0 2)); [apply st0_ok|reflexivity|reflexivity]. Defined.

(** The third process sets its priority; it is the only one that runs from then on. *)
Let st2 : kstate unit := set_ptable (<[2%nat := p0 RUNNING 3]> (ptable (st0 2))) (st0 2).
Lemma scheduler_priority_witness : exists s1,
  run (setHighPrio 2 st2) = ROk 0 s1 /\
  runs preempt (rounds 5 (preempt s1)) = (replicate 5 (with_running (preempt s1) 2), ROk tt (preempt s1)) /\
  is_runnable (preempt s1) 0 = true.
Proof.
  destruct (scheduler_priority st2 2 (p0 RUNNING 3) 5) as (s1 & R & E & H); [reflexivity|reflexivity|discriminate| |].
  - intros j q Hq Hw. do 3 (destruct j as [|j]; [cbn in Hq; injection Hq as <-; split; done|]).
    apply list_elem_of_lookup_2 with (l := replicate 61 proc_zero) (i := j), elem_of_replicate in Hq as [-> _]. by destruct Hw.
  - exists s1. split; [exact R|]. split; [exact H|]. unfold is_runnable. cbn [preempt ptable set_ptable]. by rewrite E.
Defined.
End concrete.
