(* ===== verification/Mutex.v ===== *)
(** Mutexes and condition variables (Module 3): mutex.h and the end of proc.c.

    The kernel keeps one table of mutexes; a process names them by an index into its
    own array [mxproc], which holds the global index.  The theorems give the
    behaviour of [initmutex] and of the condition variables, and show where the lock
    operations do not do what a mutex promises. *)

From stdpp Require Import base tactics option list gmap strings numbers.
From Stdlib Require Import ZArith Lia.
From S2P Require Import Prelude Mem CString Layout Kalloc ShmTable Vm ProcState Sched.
Open Scope Z_scope.

Section mutex.
Context {FS : Type}.
Abbreviation K := (kstate FS).
(** The calling process. *)
Variable me : nat.

Definition mxarray_init (a : list mutex) : list mutex :=
  imap (fun i _ => mkMutex 0 (Z.of_nat i) 0 0 0) a.

(** The scan of [initmutex] over the mutex table: the first free slot, or the first
    slot with the same name pointer, whichever comes first. *)
Fixpoint mx_scan (nm : Z) (a : list mutex) : option (nat * bool) :=
  match a with
  | [] => None
  | m :: a' =>
      if mxname m =? 0 then Some (O, true)
      else if mxname m =? nm then Some (O, false)
      else prod_map S id <$> mx_scan nm a'
  end.

Definition initmutex (nm len : Z) : M K Z :=
  a <- gets mxarray ;;
  match mx_scan nm a with
  | None => ret (-1)
  | Some (i, fresh) =>
      p <- get_proc me ;;
      match find_index (fun g => g <? 0) (mxproc p) with
      | None => ret (-1)
      | Some j =>
          m <- get_mutex (Z.of_nat i) ;;
          upd_mutex (Z.of_nat i) (fun m =>
            if fresh then mkMutex 0 (mxid m) nm len (u32 (num_proc m + 1))
            else set_num_proc (u32 (num_proc m + 1)) m) ;;
          upd_proc me (fun p => set_mxproc (<[j := mxid m]> (mxproc p)) p) ;;
          ret (Z.of_nat j)
      end
  end.

(** The common start of the operations: [None] where they return at once. *)
Definition mx_lookup (who : nat) (muxid : Z) : M K (option Z) :=
  p <- get_proc who ;;
  gid <- arr_get (mxproc p) muxid ;;
  if gid <? 0 then ret None else
  m <- get_mutex gid ;;
  if mxname m =? 0 then ret None else ret (Some gid).

Definition mxacquire (muxid : Z) : M K unit :=
  r <- mx_lookup me muxid ;;
  match r with
  | None => ret tt
  | Some gid =>
      m <- get_mutex gid ;;
      when (mxlock m =? 1)
        (acquire LK_ptable ;; sleep me (CH_mxname gid) LK_ptable ;; release LK_ptable) ;;
      upd_mutex muxid (set_mxlock 1)
  end.

Definition mxrelease (muxid : Z) : M K unit :=
  r <- mx_lookup me muxid ;;
  match r with
  | None => ret tt
  | Some gid =>
      m <- get_mutex gid ;;
      if mxlock m =? 0 then Sched.wakeup (CH_mxname gid)
      else upd_mutex gid (set_mxlock 0)
  end.

(** [p = ptable.proc]: the process in the first slot of the table, whoever calls. *)
Definition mxdelete (muxid : Z) : M K unit :=
  r <- mx_lookup 0 muxid ;;
  match r with
  | None => ret tt
  | Some gid =>
      upd_mutex gid (fun m => set_num_proc (u32 (num_proc m - 1)) m) ;;
      upd_proc 0 (fun p => set_mxproc (zinsert muxid (-1) (mxproc p)) p) ;;
      m <- get_mutex gid ;;
      when (num_proc m =? 0) (upd_mutex gid (fun m => mkMutex 0 (mxid m) 0 0 0))
  end.

Definition cvwait (muxid : Z) : M K unit :=
  r <- mx_lookup me muxid ;;
  match r with
  | None => ret tt
  | Some gid => acquire LK_ptable ;; sleep me (CH_mx gid) LK_ptable ;; release LK_ptable
  end.

Definition cvsignal (muxid : Z) : M K unit :=
  r <- mx_lookup me muxid ;;
  match r with
  | None => ret tt
  | Some gid => Sched.wakeup (CH_mx gid)
  end.

(** * Theorems *)

(** Process [who] knows the mutex [m] with global index [gid] as [muxid]. *)
Definition knows (s : K) (who : nat) (muxid gid : Z) (m : mutex) : Prop :=
  (exists p, ptable s !! who = Some p /\ zlookup (mxproc p) muxid = Some gid) /\
  0 <= gid /\ zlookup (mxarray s) gid = Some m /\ mxname m <> 0.

Lemma run_mx_lookup s who muxid gid m :
  knows s who muxid gid m -> run (mx_lookup who muxid s) = ROk (Some gid) s.
Proof.
  intros ((p & Hp & Hg) & H0 & Hm & Hn). unfold mx_lookup. krun. rewrite Hp. cbn [rbind].
  krun. rewrite Hg. cbn [rbind]. destruct (Z.ltb_spec gid 0); [lia|]. krun. rewrite Hm. cbn [rbind].
  destruct (Z.eqb_spec (mxname m) 0); [done|]. by mrun.
Qed.

(** An unlocked mutex is taken at once (in the slot [muxid], see below). *)
Lemma mxacquire_free s muxid gid m m' :
  knows s me muxid gid m -> mxlock m <> 1 -> zlookup (mxarray s) muxid = Some m' ->
  run (mxacquire muxid s) = ROk tt (set_mxarray (zinsert muxid (set_mxlock 1 m') (mxarray s)) s).
Proof.
  intros Hk Hl Hm'. unfold mxacquire. rewrite run_bind, (run_mx_lookup s me muxid gid m Hk). cbn [rbind].
  destruct Hk as (_ & _ & Hm & _). krun. rewrite Hm. cbn [rbind].
  destruct (Z.eqb_spec (mxlock m) 1); [done|]. krun. by rewrite (run_upd_mutex muxid _ s m').
Qed.

(** A locked one puts the caller to sleep on the mutex's channel. *)
Lemma mxacquire_locked s muxid gid m p :
  knows s me muxid gid m -> mxlock m = 1 -> ptable s !! me = Some p ->
  run (mxacquire muxid s) =
    RSwitched (set_ptable (<[me := set_state SLEEPING (set_chan (Some (CH_mxname gid)) p)]> (ptable s)) s).
Proof.
  intros Hk Hl Hp. unfold mxacquire. rewrite run_bind, (run_mx_lookup s me muxid gid m Hk). cbn [rbind].
  destruct Hk as (_ & _ & Hm & _). krun. rewrite Hm. cbn [rbind]. rewrite Hl. krun.
  by rewrite (run_sleep me _ _ s p).
Qed.

Lemma mxrelease_locked s muxid gid m :
  knows s me muxid gid m -> mxlock m <> 0 ->
  run (mxrelease muxid s) = ROk tt (set_mxarray (zinsert gid (set_mxlock 0 m) (mxarray s)) s).
Proof.
  intros Hk Hl. unfold mxrelease. rewrite run_bind, (run_mx_lookup s me muxid gid m Hk). cbn [rbind].
  destruct Hk as (_ & _ & Hm & _). krun. rewrite Hm. cbn [rbind].
  destruct (Z.eqb_spec (mxlock m) 0); [done|]. by apply run_upd_mutex.
Qed.

(** Whoever is not asleep on the channel is left alone by [wakeup1]. *)
Lemma wakeup_table c (s : K) i p :
  ptable s !! i = Some p ->
  exists s', run (Sched.wakeup c s) = ROk tt s' /\ mxarray s' = mxarray s /\
    ptable s' !! i = Some (if sleeping_on c p then set_state RUNNABLE p else p).
Proof.
  intros Hp. rewrite run_wakeup_table. eexists. split; [done|]. split; [done|].
  cbn [ptable set_ptable]. by rewrite list_lookup_fmap, Hp.
Qed.

Lemma run_cvsignal s muxid gid m :
  knows s me muxid gid m -> run (cvsignal muxid s) = run (Sched.wakeup (CH_mx gid) s).
Proof. intros Hk. unfold cvsignal. rewrite run_bind, (run_mx_lookup s me muxid gid m Hk). done. Qed.

Lemma run_cvwait s muxid gid m p :
  knows s me muxid gid m -> ptable s !! me = Some p ->
  run (cvwait muxid s) =
    RSwitched (set_ptable (<[me := set_state SLEEPING (set_chan (Some (CH_mx gid)) p)]> (ptable s)) s).
Proof.
  intros Hk Hp. unfold cvwait. rewrite run_bind, (run_mx_lookup s me muxid gid m Hk). cbn [rbind]. krun.
  by rewrite (run_sleep me _ _ s p).
Qed.

(** [initmutex] on a name the table has: the caller gets its first free index, which names the
    existing mutex, and the mutex counts one more process; nothing else changes. *)
Theorem initmutex_joins s nm len i j p m :
  mx_scan nm (mxarray s) = Some (i, false) -> ptable s !! me = Some p ->
  find_index (fun g => g <? 0) (mxproc p) = Some j -> mxarray s !! i = Some m ->
  run (initmutex nm len s) = ROk (Z.of_nat j)
    (set_ptable (alter (fun p => set_mxproc (<[j := mxid m]> (mxproc p)) p) me (ptable s))
      (set_mxarray (<[i := set_num_proc (u32 (num_proc m + 1)) m]> (mxarray s)) s)).
Proof.
  intros Hs Hp Hj Hm. unfold initmutex. krun. rewrite Hs. krun. rewrite Hp. cbn [rbind]. rewrite Hj.
  assert (zlookup (mxarray s) (Z.of_nat i) = Some m) as Hz.
  { unfold zlookup. destruct (Z.ltb_spec (Z.of_nat i) 0); [lia|]. by rewrite Nat2Z.id. }
  krun. rewrite Hz. cbn [rbind]. krun. rewrite (run_upd_mutex _ _ _ m) by done. cbn [rbind]. krun.
  unfold zinsert. destruct (Z.ltb_spec (Z.of_nat i) 0); [lia|]. by rewrite Nat2Z.id.
Qed.

End mutex.

Section condition_variables.
Context {FS : Type}.
Abbreviation K := (kstate FS).

(** C27. Condition variables.  [cvwait] puts its caller to sleep on the mutex's condition
    variable; the next [cvsignal] on the mutex, under whatever index the signalling process has for it, makes the sleeper
    RUNNABLE again.  [cvsignal] does so for every process that sleeps on this
    condition variable and leaves every other process as it is: one that is not asleep, one
    that sleeps on another condition variable, and one that waits for the mutex itself. *)
Theorem cvsignal_wakes (s : K) (a b : nat) (x y gid : Z) m pb :
  a <> b -> knows s a x gid m -> knows s b y gid m -> ptable s !! b = Some pb ->
  exists s1 s2, run (cvwait b y s) = RSwitched s1 /\
    (exists q, ptable s1 !! b = Some q /\ state q = SLEEPING) /\
    run (cvsignal a x s1) = ROk tt s2 /\ mxarray s2 = mxarray s /\
    (exists q, ptable s2 !! b = Some q /\ state q = RUNNABLE) /\
    (forall i p, i <> b -> ptable s !! i = Some p -> state p = SLEEPING -> chan_of p = Some (CH_mx gid) ->
       ptable s2 !! i = Some (set_state RUNNABLE p)) /\
    (forall i p, i <> b -> ptable s !! i = Some p -> state p <> SLEEPING \/ chan_of p <> Some (CH_mx gid) ->
       ptable s2 !! i = Some p).
Proof.
  intros Hab Hka Hkb Hpb. set (q := set_state SLEEPING (set_chan (Some (CH_mx gid)) pb)).
  set (s1 := set_ptable (<[b := q]> (ptable s)) s).
  assert (ptable s1 !! b = Some q) as Hq by (apply list_lookup_insert_eq; by eapply lookup_lt_Some).
  assert (forall i, i <> b -> ptable s1 !! i = ptable s !! i) as Ho by (intros i Hi; by apply list_lookup_insert_ne).
  assert (knows s1 a x gid m) as Hka1.
  { destruct Hka as ((pa & Hpa & Hg) & Hr). split; [|done]. exists pa. by rewrite Ho. }
  assert (forall p, state p = SLEEPING -> chan_of p = Some (CH_mx gid) -> sleeping_on (CH_mx gid) p = true) as Hyes.
  { intros p H1 H2. unfold sleeping_on. by rewrite !bool_decide_true. }
  assert (forall p, state p <> SLEEPING \/ chan_of p <> Some (CH_mx gid) -> sleeping_on (CH_mx gid) p = false) as Hno.
  { intros p [H|H]; unfold sleeping_on; rewrite (bool_decide_false _ H); [done|apply andb_false_r]. }
  assert (forall i p, ptable s1 !! i = Some p -> exists s2, run (cvsignal a x s1) = ROk tt s2 /\ mxarray s2 = mxarray s /\
    ptable s2 !! i = Some (if sleeping_on (CH_mx gid) p then set_state RUNNABLE p else p)) as Hw.
  { intros i p Hi. rewrite (run_cvsignal a s1 x gid m Hka1). exact (wakeup_table (CH_mx gid) s1 i p Hi). }
  destruct (Hw b q Hq) as (s2 & R2 & M2 & E2). exists s1, s2. rewrite (Hyes q) in E2 by done.
  assert (forall i p, i <> b -> ptable s !! i = Some p ->
    ptable s2 !! i = Some (if sleeping_on (CH_mx gid) p then set_state RUNNABLE p else p)) as Hi.
  { intros i p Hib Hp. rewrite <- Ho in Hp by done. destruct (Hw i p Hp) as (s2' & R2' & _ & E). congruence. }
  split; [by apply (run_cvwait b s y gid m)|]. split; [by exists q|]. split; [done|]. split; [done|].
  split; [by eexists|]. split.
  - intros i p Hib Hp H1 H2. by rewrite (Hi i p Hib Hp), Hyes.
  - intros i p Hib Hp H. by rewrite (Hi i p Hib Hp), Hno.
Qed.
End condition_variables.

Section mutex_defects.
Context {FS : Type}.
Abbreviation K := (kstate FS).

(** C26. A lost wakeup: process [a] takes a free mutex, process [b] then blocks on it, and when [a]
    releases it the mutex is free while [b] stays asleep: [mxrelease] wakes the sleepers only when it
    finds the mutex unlocked already. *)
Theorem mutex_release_leaves_sleeper (s : K) (a b : nat) (g : Z) m p :
  a <> b -> mxlock m = 0 -> knows s a g g m -> knows s b g g m -> ptable s !! b = Some p ->
  exists s1 s2 s3, run (mxacquire a g s) = ROk tt s1 /\ run (mxacquire b g s1) = RSwitched s2 /\
    run (mxrelease a g s2) = ROk tt s3 /\
    (mxlock <$> zlookup (mxarray s3) g) = Some 0 /\
    exists p', ptable s3 !! b = Some p' /\ state p' = SLEEPING /\ chan_of p' = Some (CH_mxname g).
Proof.
  intros Hab Hl Hka Hkb Hp. pose proof Hka as ((pa & Hpa & Hga) & H0 & Hm & Hn).
  pose proof Hkb as ((pb & Hpb & Hgb) & _ & _ & _). simplify_eq.
  set (s1 := set_mxarray (zinsert g (set_mxlock 1 m) (mxarray s)) s).
  assert (zlookup (mxarray s1) g = Some (set_mxlock 1 m)) as Hm1 by (by eapply zlookup_zinsert).
  assert (knows s1 b g g (set_mxlock 1 m)) as Hkb1 by (split; [by exists p|done]).
  set (s2 := set_ptable (<[b := set_state SLEEPING (set_chan (Some (CH_mxname g)) p)]> (ptable s1)) s1).
  assert (knows s2 a g g (set_mxlock 1 m)) as Hka2.
  { split; [|done]. exists pa. split; [|done]. cbn [s2 ptable set_ptable].
    by rewrite list_lookup_insert_ne by done. }
  exists s1, s2, (set_mxarray (zinsert g (set_mxlock 0 (set_mxlock 1 m)) (mxarray s2)) s2).
  split; [by apply (mxacquire_free a s g g m m); [|rewrite Hl|]|].
  split; [by apply (mxacquire_locked b s1 g g (set_mxlock 1 m))|].
  split; [by apply (mxrelease_locked a s2 g g (set_mxlock 1 m))|]. split.
  - cbn [mxarray set_mxarray]. by rewrite (zlookup_zinsert _ _ _ (set_mxlock 1 m)).
  - exists (set_state SLEEPING (set_chan (Some (CH_mxname g)) p)).
    split; [|split; reflexivity]. cbn [ptable set_mxarray s2 set_ptable].
    apply list_lookup_insert_eq. by eapply lookup_lt_Some.
Qed.

(** C25. No mutual exclusion: [mxacquire] sets the lock word of the slot [muxid] of the global table
    and not of the mutex [gid] it looked up.  Two processes whose index for a mutex is not its global
    index both return from [mxacquire] on it, with no release in between. *)
Theorem mutex_two_holders (s : K) (a b : nat) (x y g : Z) m mx my :
  knows s a x g m -> knows s b y g m -> x <> g -> y <> g -> mxlock m = 0 ->
  zlookup (mxarray s) x = Some mx -> zlookup (mxarray s) y = Some my ->
  exists s1 s2, run (mxacquire a x s) = ROk tt s1 /\ run (mxacquire b y s1) = ROk tt s2 /\
    (mxlock <$> zlookup (mxarray s2) g) = Some 0.
Proof.
  intros Hka Hkb Hx Hy Hl Hmx Hmy. pose proof Hka as (_ & _ & Hm & Hn).
  set (s1 := set_mxarray (zinsert x (set_mxlock 1 mx) (mxarray s)) s).
  assert (zlookup (mxarray s1) g = Some m) as Hm1.
  { cbn [s1 mxarray set_mxarray]. by rewrite zlookup_zinsert_ne. }
  assert (knows s1 b y g m) as Hkb1 by (destruct Hkb as (? & ? & _ & ?); by split_and!).
  assert (exists my', zlookup (mxarray s1) y = Some my') as [my' Hmy'].
  { cbn [s1 mxarray set_mxarray]. destruct (decide (x = y)) as [<-|].
    - eexists. by eapply zlookup_zinsert.
    - exists my. by rewrite zlookup_zinsert_ne. }
  exists s1, (set_mxarray (zinsert y (set_mxlock 1 my') (mxarray s1)) s1).
  split; [by apply (mxacquire_free a s x g m mx); [|rewrite Hl|]|].
  split; [by apply (mxacquire_free b s1 y g m my'); [|rewrite Hl|]|].
  cbn [mxarray set_mxarray]. rewrite zlookup_zinsert_ne by done. by rewrite Hm1, <- Hl.
Qed.

(** Whoever calls it, [mxdelete] works on the process in the first table slot: the caller's
    own entry survives, so the mutexes of an exiting process stay counted. *)
Theorem mxdelete_not_the_caller (s : K) (who : nat) (muxid : Z) p s' :
  who <> 0%nat -> ptable s !! who = Some p -> run (mxdelete muxid s) = ROk tt s' ->
  ptable s' !! who = Some p.
Proof.
  intros Hw Hp. unfold mxdelete. rewrite run_bind.
  destruct (run (mx_lookup 0 muxid s)) as [r t| | | | | ] eqn:El; cbn [rbind]; try done.
  assert (t = s) as ->.
  { revert El. unfold mx_lookup. krun. destruct (ptable s !! 0%nat); cbn [rbind]; [|done].
    krun. destruct (zlookup _ muxid) as [g|]; cbn [rbind]; [|done]. destruct (g <? 0); mrun; [by intros [= _ <-]|].
    krun. destruct (zlookup _ g) as [mm|]; cbn [rbind]; [|done]. destruct (mxname mm =? 0); mrun; by intros [= _ <-]. }
  destruct r as [gid|]; [|mrun; by intros [= <-]].
  assert (forall f t t', run (upd_mutex (FS:=FS) gid f t) = ROk tt t' -> ptable t' = ptable t) as Hu.
  { intros f t t'. unfold upd_mutex. krun. destruct (zlookup _ gid); cbn [rbind]; [|done]. mrun. by intros [= <-]. }
  rewrite run_bind. destruct (run (upd_mutex gid _ s)) as [[] s1| | | | | ] eqn:E1; cbn [rbind]; try done.
  apply Hu in E1. krun. cbn [mxarray set_ptable].
  destruct (zlookup (mxarray s1) gid) as [mm|]; cbn [rbind]; [|done].
  assert (ptable (set_ptable (alter (fun p => set_mxproc (zinsert muxid (-1) (mxproc p)) p) 0%nat (ptable s1)) s1)
    !! who = Some p) as Hwp.
  { cbn [ptable set_ptable]. rewrite list_lookup_alter_ne by done. by rewrite E1. }
  krun. destruct (num_proc mm =? 0); [|by intros [= <-]]. intros E2%Hu. by rewrite E2.
Qed.

End mutex_defects.

(** * Concrete states *)

Section concrete.
(** Two processes that know one mutex, under the indices [x] and [y]; the mutex is in
    slot 1 of the table. *)
Let px (x : Z) (st : procstate) : proc :=
  set_mxproc (zinsert x 1 (replicate 10 (-1))) (set_state st proc_zero).
Let tab : list mutex := [mkMutex 0 0 8192 4 1; mkMutex 0 1 4096 4 2; mkMutex 0 2 0 0 0].
Let st0 (x y : Z) : kstate unit :=
  mkK (mkVm (mkKmem true 0 ∅) [] 0) [px x RUNNING; px y RUNNING] 0 3 (Some 0%nat) tab 0 tt.

Lemma st0_knows (x y : Z) (i : nat) :
  (x = 0 \/ x = 1 \/ x = 2) -> (y = 0 \/ y = 1 \/ y = 2) -> (i = 0%nat \/ i = 1%nat) ->
  knows (st0 x y) i (if decide (i = 0%nat) then x else y) 1 (mkMutex 0 1 4096 4 2).
Proof.
  intros Hx Hy [-> | ->]; (split; [|done]); eexists; (split; [reflexivity|]); simpl;
    naive_solver.
Qed.

(** Besides the two, a process that waits for the same mutex, and one on another condition variable. *)
Let asleep (c : chan) : proc := set_chan (Some c) (px 1 SLEEPING).
Let st1 : kstate unit :=
  mkK (mkVm (mkKmem true 0 ∅) [] 0) [px 2 RUNNING; px 1 RUNNING; asleep (CH_mxname 1); asleep (CH_mx 0); asleep (CH_mx 1)]
    0 6 (Some 0%nat) tab 0 tt.

Lemma cvsignal_wakes_witness :
  exists s1 s2, run (cvwait 1 1 st1) = RSwitched s1 /\ run (cvsignal 0 2 s1) = ROk tt s2 /\
    ptable s2 !! 2%nat = Some (asleep (CH_mxname 1)) /\ ptable s2 !! 3%nat = Some (asleep (CH_mx 0)) /\
    ptable s2 !! 4%nat = Some (set_state RUNNABLE (asleep (CH_mx 1))).
Proof.
  assert (forall (i : nat) x, (i = 0%nat /\ x = 2) \/ (i = 1%nat /\ x = 1) -> knows st1 i x 1 (mkMutex 0 1 4096 4 2)) as Hk.
  { intros i x [[-> ->]|[-> ->]]; (split; [|done]); eexists; (split; [reflexivity|]); reflexivity. }
  destruct (cvsignal_wakes st1 0 1 2 1 1 (mkMutex 0 1 4096 4 2) (px 1 RUNNING)) as (s1 & s2 & R1 & _ & R2 & _ & _ & Hyes & Hno);
    [done|by apply Hk; left|by apply Hk; right|reflexivity|].
  exists s1, s2. split; [exact R1|]. split; [exact R2|]. split; [|split].
  - apply Hno; [done|reflexivity|]. by right.
  - apply Hno; [done|reflexivity|]. by right.
  - apply Hyes; [done|reflexivity|reflexivity|reflexivity].
Defined.

Lemma initmutex_joins_witness :
  run (initmutex 1 4096 4 (st0 2 0)) = ROk 1
    (set_ptable (alter (fun p => set_mxproc (<[1%nat := 1]> (mxproc p)) p) 1%nat (ptable (st0 2 0)))
      (set_mxarray (<[1%nat := mkMutex 0 1 4096 4 3]> tab) (st0 2 0))).
Proof.
  apply (initmutex_joins 1 (st0 2 0) 4096 4 1 1 (px 0 RUNNING) (mkMutex 0 1 4096 4 2)); reflexivity.
Defined.

Lemma mutex_release_leaves_sleeper_witness :
  exists s1 s2 s3, run (mxacquire 0 1 (st0 1 1)) = ROk tt s1 /\ run (mxacquire 1 1 s1) = RSwitched s2 /\
    run (mxrelease 0 1 s2) = ROk tt s3 /\
    (mxlock <$> zlookup (mxarray s3) 1) = Some 0 /\
    exists p', ptable s3 !! 1%nat = Some p' /\ state p' = SLEEPING /\ chan_of p' = Some (CH_mxname 1).
Proof.
  apply (mutex_release_leaves_sleeper (st0 1 1) 0 1 1 (mkMutex 0 1 4096 4 2) (px 1 RUNNING));
    [done|reflexivity|apply (st0_knows 1 1 0); auto|apply (st0_knows 1 1 1); auto|reflexivity].
Defined.

Lemma mutex_two_holders_witness :
  exists s1 s2, run (mxacquire 0 2 (st0 2 0)) = ROk tt s1 /\ run (mxacquire 1 0 s1) = ROk tt s2 /\
    (mxlock <$> zlookup (mxarray s2) 1) = Some 0.
Proof.
  apply (mutex_two_holders (st0 2 0) 0 1 2 0 1 (mkMutex 0 1 4096 4 2) (mkMutex 0 2 0 0 0) (mkMutex 0 0 8192 4 1));
    [apply (st0_knows 2 0 0); auto|apply (st0_knows 2 0 1); auto|done|done|reflexivity|reflexivity|reflexivity].
Defined.

Lemma mxdelete_not_the_caller_witness :
  exists s', run (mxdelete 1 (st0 1 1)) = ROk tt s' /\ ptable s' !! 1%nat = Some (px 1 RUNNING).
Proof.
  eexists. split; [reflexivity|].
  by eapply (mxdelete_not_the_caller (st0 1 1) 1 1 (px 1 RUNNING)); [|reflexivity|reflexivity].
Defined.
End concrete.
