(* ===== verification/Shm.v ===== *)
(** Shared-memory system calls (Module 2): the rest of shm.h.

    A process keeps, for every region it maps, the name, the virtual and the physical
    address in three parallel arrays; the kernel's table is in ShmTable.v.  The
    messages the code prints are left out. *)

From stdpp Require Import base tactics option list gmap strings numbers.
From Stdlib Require Import ZArith Lia.
From S2P Require Import Prelude Mem CString Layout Kalloc PageTable ShmTable Vm ProcState Sched.
Open Scope Z_scope.

Section shm.
Context {FS : Type}.
Abbreviation K := (kstate FS).
Variable kend : Z.
(** The calling process. *)
Variable me : nat.

(** * Searches in the process's own table *)

Definition procSHM_nameFind (str : list Z) : M K Z :=
  p <- get_proc me ;;
  ret (index_or_m1 (find_index (fun n => strncmp n str NAME_SIZE =? 0) (shm_name p))).

Definition procSHM_findFree : M K Z :=
  p <- get_proc me ;;
  ret (index_or_m1 (find_index (fun n => strncmp n DNE NAME_SIZE =? 0) (shm_name p))).

Definition set_vir (ref v : Z) : M K unit :=
  upd_proc me (fun p => set_shm_vir (zinsert ref v (shm_vir p)) p).
Definition set_phys (ref v : Z) : M K unit :=
  upd_proc me (fun p => set_shm_phys (zinsert ref v (shm_phys p)) p).
(** [safestrcpy(proc->shm_name[ref].name, str, 16)] *)
Definition set_name_safe (ref : Z) (str : list Z) : M K unit :=
  p <- get_proc me ;;
  n <- arr_get (shm_name p) ref ;;
  upd_proc me (fun p => set_shm_name (zinsert ref (safestrcpy n str NAME_SIZE) (shm_name p)) p).
(** [strncpy(proc->shm_name[ref].name, str, 16)] *)
Definition set_name (ref : Z) (str : list Z) : M K unit :=
  p <- get_proc me ;;
  n <- arr_get (shm_name p) ref ;;
  upd_proc me (fun p => set_shm_name (zinsert ref (strncpy n str NAME_SIZE) (shm_name p)) p).

Definition upd_slot (i : Z) (f : shm -> shm) : M K unit :=
  a <- gets (fun s => shm_arr (vm s)) ;;
  e <- arr_get a i ;;
  modify (fun s => set_vm (set_shm_arr (zinsert i (f e) (shm_arr (vm s))) (vm s)) s).

(** * Removing a mapping *)

(** [for (a = shm_vir[ref] + PGSIZE; a < proc->sz; a += PGSIZE)]: move every later
    page down by one. *)
Fixpoint remap_loop (fuel : nat) (pgdir0 a sz0 : Z) : M K unit :=
  if u32 a <? sz0 then
    match fuel with
    | O => nofuel
    | S k =>
        pte <- zoom (walkpgdir pgdir0 a false) ;;
        if pte =? 0 then undef "null pte" else
        e <- zoom (load32 pte) ;;
        zoom (mappages pgdir0 (a - PGSIZE) PGSIZE (PTE_ADDR e) (Z.lor PTE_W PTE_U)) ;;
        remap_loop k pgdir0 (s32 (a + PGSIZE)) sz0
    end
  else ret tt.

Definition forget (ref : Z) : M K unit :=
  set_vir ref 0 ;; set_phys ref 0 ;; set_name_safe ref DNE.

Definition deallocshm (pgdir0 oldsz newsz ref shmMap : Z) : M K Z :=
  if oldsz <=? newsz then ret oldsz else
  p <- get_proc me ;;
  v <- arr_get (shm_vir p) ref ;;
  SHMpte <- zoom (walkpgdir pgdir0 v false) ;;
  if SHMpte =? 0 then ret (-1) else
  if shmMap =? 0 then
    if u32 v =? u32 (sz p - PGSIZE) then
      zoom (store32 SHMpte 0) ;;
      forget ref ;;
      upd_proc me (fun p => set_sz (u32 (sz p - PGSIZE)) p) ;;
      ret newsz
    else
      zoom (store32 SHMpte 0) ;;
      remap_loop (Z.to_nat (sz p / PGSIZE + 1)) pgdir0 (s32 (v + PGSIZE)) (sz p) ;;
      upd_proc me (fun p => set_sz (u32 (sz p - PGSIZE)) p) ;;
      forget ref ;;
      ret newsz
  else
    (* [*pte] is read here, and [pte] is still the null pointer it was set to *)
    undef "null pte".

(** * Adding a mapping *)

(** [mem] is the local variable; it has no value until [kalloc] gives it one. *)
Fixpoint allocshm_loop (fuel : nat) (pgdir0 a oldsz newsz shmMap : Z) (mem : option Z)
    : M K (option (Z * option Z)) :=
  if a <? newsz then
    match fuel with
    | O => nofuel
    | S k =>
        if shmMap =? 0 then
          m <- zoom kalloc ;;
          if m =? 0 then deallocshm pgdir0 newsz oldsz 0 0 ;; ret None
          else
          zoom (kmemset m 0 PGSIZE) ;;
          zoom (mappages pgdir0 a PGSIZE (v2p m) (Z.lor PTE_W PTE_U)) ;;
          allocshm_loop k pgdir0 (u32 (a + PGSIZE)) oldsz newsz shmMap (Some m)
        else
          zoom (mappages pgdir0 a PGSIZE shmMap (Z.lor PTE_W PTE_U)) ;;
          allocshm_loop k pgdir0 (u32 (a + PGSIZE)) oldsz newsz shmMap mem
    end
  else ret (Some (a, mem)).

Definition allocshm (pgdir0 oldsz newsz ref shmMap : Z) : M K Z :=
  if KERNBASE <=? newsz then ret 0 else
  if newsz <? oldsz then ret oldsz else
  r <- allocshm_loop (Z.to_nat (newsz / PGSIZE + 1)) pgdir0 (PGROUNDUP oldsz) oldsz newsz shmMap None ;;
  match r with
  | None => ret 0
  | Some (a, mem) =>
      set_vir ref (s32 (a - (newsz - oldsz))) ;;
      match mem with
      | None => undef "mem is uninitialised"
      | Some m => set_phys ref (v2p m) ;; ret newsz
      end
  end.

Definition shm_alloc (n ref shmMap : Z) : M K Z :=
  p <- get_proc me ;;
  let sz0 := sz p in
  r <- (if 0 <? n then
          sz1 <- allocshm (pgdir p) sz0 (u32 (sz0 + n)) ref shmMap ;;
          ret (if sz1 =? 0 then None else Some sz1)
        else if n <? 0 then
          sz1 <- deallocshm (pgdir p) sz0 (u32 (sz0 + n)) ref shmMap ;;
          ret (if u32 sz1 =? u32 (-1) then None else Some sz1)
        else ret (Some sz0)) ;;
  match r with
  | None => ret (-1)
  | Some sz1 =>
      upd_proc me (set_sz (u32 sz1)) ;;
      switchuvm me ;;
      ret 0
  end.

(** * Inheriting a mapping *)

Fixpoint shm_assign_loop (fuel : nat) (pgdir0 sz0 physLoc i : Z) : M kmem Z :=
  if i <? sz0 then
    match fuel with
    | O => nofuel
    | S k =>
        pte <- walkpgdir pgdir0 i false ;;
        if pte =? 0 then undef "null pte" else
        e <- load32 pte ;;
        if PTE_ADDR e =? physLoc then ret i
        else shm_assign_loop k pgdir0 sz0 physLoc (i + PGSIZE)
    end
  else ret (-1).

Definition shm_assign (pgdir0 sz0 physLoc : Z) : M kmem Z :=
  shm_assign_loop (Z.to_nat (sz0 / PGSIZE + 1)) pgdir0 sz0 physLoc 0.

(** [shmExitClean], which [exit] has commented out. *)
Fixpoint shmExitClean_loop (i : nat) (names : list (list Z)) : M K Z :=
  match names with
  | [] => ret (-1)
  | n :: names' =>
      if strncmp n DNE NAME_SIZE =? 0 then shmExitClean_loop (S i) names' else
      arr <- gets (fun s => shm_arr (vm s)) ;;
      let f := shm_find n arr in
      if f =? -1 then shmExitClean_loop (S i) names' else
      e <- arr_get arr f ;;
      if numAccess e =? 1 then
        c <- shm_alloc (-4096) (Z.of_nat i) (shmPhys e) ;;
        ret (if c =? -1 then -1 else 0)
      else shmExitClean_loop (S i) names'
  end.

Definition shmExitClean : M K Z :=
  p <- get_proc me ;; shmExitClean_loop 0 (shm_name p).

(** * The system calls; [nm] is the string at the user's pointer *)

Definition my_vir (i : Z) : M K Z := p <- get_proc me ;; arr_get (shm_vir p) i.
Definition my_phys (i : Z) : M K Z := p <- get_proc me ;; arr_get (shm_phys p) i.

Definition shm_get (nm : list Z) (name_len : Z) : M K Z :=
  procFound <- procSHM_nameFind nm ;;
  if negb (procFound =? -1) then my_vir procFound else
  procfirstFree <- procSHM_findFree ;;
  if procfirstFree =? -1 then ret 0 else
  found <- gets (fun s => shm_find nm (shm_arr (vm s))) ;;
  used <- gets (fun s => shm_used (vm s)) ;;
  if (found =? -1) && (used <? SHM_MAXNUM) then
    check <- shm_alloc 4096 procfirstFree 0 ;;
    if check =? -1 then ret 0 else
    set_name_safe procfirstFree nm ;;
    firstFree <- gets (fun s => shm_findFree (shm_arr (vm s))) ;;
    pa <- my_phys procfirstFree ;;
    upd_slot firstFree (fun e =>
      mkShm name_len (strncpy (name e) nm NAME_SIZE) (s32 (numAccess e + 1)) pa) ;;
    modify (fun s => set_vm (set_shm_used (s32 (shm_used (vm s) + 1)) (vm s)) s) ;;
    my_vir procfirstFree
  else if negb (found =? -1) then
    arr <- gets (fun s => shm_arr (vm s)) ;;
    e <- arr_get arr found ;;
    check <- shm_alloc 4096 procfirstFree (shmPhys e) ;;
    if check =? -1 then ret 0 else
    set_name procfirstFree nm ;;
    upd_slot found (fun e => mkShm (name_length e) (name e) (s32 (numAccess e + 1)) (shmPhys e)) ;;
    my_vir procfirstFree
  else ret 0.

Definition shm_rem (nm : list Z) (name_len : Z) : M K Z :=
  found <- gets (fun s => shm_find nm (shm_arr (vm s))) ;;
  procFound <- procSHM_nameFind nm ;;
  if found =? -1 then ret (-1) else
  if procFound =? -1 then ret (-1) else
  arr <- gets (fun s => shm_arr (vm s)) ;;
  e <- arr_get arr found ;;
  if 1 <? numAccess e then
    check <- shm_alloc (-4096) procFound 0 ;;
    if check =? -1 then ret (-1) else
    upd_slot found (fun e => mkShm (name_length e) (name e) (s32 (numAccess e - 1)) (shmPhys e)) ;;
    ret 1
  else
    check <- shm_alloc (-4096) procFound (shmPhys e) ;;
    if check =? -1 then ret 0 else
    upd_slot found (fun e => mkShm 0 (safestrcpy (name e) DNE NAME_SIZE) 0 0) ;;
    modify (fun s => set_vm (set_shm_used (s32 (shm_used (vm s) - 1)) (vm s)) s) ;;
    ret 1.

End shm.
