(* ===== verification/ShmFacts.v ===== *)
(** Theorems about the shared-memory system calls of Shm.v. *)

From stdpp Require Import base tactics option list gmap sets strings numbers.
From Stdlib Require Import ZArith Lia.
From S2P Require Import Prelude Mem CString Layout Kalloc PageTable ShmTable Vm VmFacts ProcState Sched Mutex Shm.
Open Scope Z_scope.

Section shmfacts.
Context {FS : Type}.
Abbreviation K := (kstate FS).
Variable kend : Z.
Variable me : nat.

Lemma index_or_m1_Some (o : option nat) i : o = Some i -> index_or_m1 o =? -1 = false.
Proof. intros ->. apply Z.eqb_neq. cbn [index_or_m1]. lia. Qed.

(** * Growing a process by one page for a region *)

(** One page at the process's end, from the free list. *)
Lemma allocshm_loop_new s l pgdir0 oldsz :
  kmem_ok kend (km (vm s)) l -> pt_ok kend (kmemory (km (vm s))) pgdir0 l ->
  as_ok kend (kmemory (km (vm s))) pgdir0 l ->
  0 <= oldsz -> oldsz + 4096 < KERNBASE ->
  unmapped (kmemory (km (vm s))) pgdir0 (PGROUNDUP oldsz) (PGROUNDUP oldsz + 4096) ->
  (absent (kmemory (km (vm s))) pgdir0 + 1 <= length l)%nat ->
  exists k' l' p, p ∈ l /\
    run (allocshm_loop (FS:=FS) me (Z.to_nat ((oldsz + 4096) / PGSIZE + 1)) pgdir0 (PGROUNDUP oldsz)
      oldsz (oldsz + 4096) 0 None s) =
      ROk (Some (PGROUNDUP oldsz + 4096, Some p)) (set_vm (set_km k' (vm s)) s) /\
    kmem_ok kend k' l' /\ pt_ok kend (kmemory k') pgdir0 l' /\ as_ok kend (kmemory k') pgdir0 l' /\
    frame (pte (kmemory k') pgdir0 (PGROUNDUP oldsz)) = p /\
    (forall va, 0 <= va < KERNBASE -> uread (kmemory k') pgdir0 va =
       if in_range va (PGROUNDUP oldsz) PGSIZE then Some 0 else uread (kmemory (km (vm s))) pgdir0 va).
Proof.
  set (k := km (vm s)). intros Hok Hpt Has H0 Hlt Hun Hroom.
  pose proof (PGROUNDUP_aligned oldsz) as Ham.
  assert (PGROUNDUP oldsz = 4096 * ((oldsz + 4095) / 4096)) as Er
    by (apply PGROUNDUP_eq; unfold KERNBASE in *; lia).
  assert (oldsz <= PGROUNDUP oldsz < oldsz + 4096) as Hr by (rewrite Er; Z.div_mod_to_equations; lia).
  set (a := PGROUNDUP oldsz) in *. clearbody a.
  destruct l as [|p l]; [simpl in Hroom; lia|].
  destruct (fresh_page kend pgdir0 k p l Hok Hpt Has) as (Hv & Hpl & Hpm & Hpf).
  pose proof (valid_page_pos _ _ Hv) as Hp0.
  destruct (Z.to_nat ((oldsz + 4096) / PGSIZE + 1)) as [|fuel] eqn:Ef;
    [unfold PGSIZE in Ef; Z.div_mod_to_equations; lia|].
  cbn [allocshm_loop]. destruct (Z.ltb_spec a (oldsz + 4096)); [|lia]. change (0 =? 0) with true. cbv iota.
  rewrite run_bind, run_zoom. change (lget s) with k.
  rewrite (kalloc_spec kend k (p :: l)) by done. cbn [rzoom rbind].
  destruct (Z.eqb_spec p 0); [lia|]. unfold kmemset. mrun.
  cbn [lget lput lens_kmem km set_km vm set_vm shm_arr shm_used].
  set (k1 := set_kmemory _ _). cbn [set_freelist kmemory use_lock freelist] in k1.
  destruct (pt_ext_kalloc kend pgdir0 k p l (memset (kmemory k) p 0 PGSIZE) Hok Hpt) as (Hext1 & Hpte1 & Htab1).
  { intros b Hb. rewrite ld8_memset by done. unfold in_page, PGSIZE in *. addr_cases. }
  change (mkKmem (use_lock k) (ld32 (kmemory k) p) (memset (kmemory k) p 0 PGSIZE)) with k1 in Hext1.
  assert (absent (kmemory k1) pgdir0 = absent (kmemory k) pgdir0) as Eab by (by apply absent_ext).
  destruct (add_page kend pgdir0 k k1 (p :: l) l [p] a p (Z.lor PTE_W PTE_U))
    as (k2 & l2 & t & Hrun & Hext & Habs & Hpte & Has2 & _ & Hrd);
    [done|done|done|done|done|unfold KERNBASE in *; lia|done|done|done|done
    |intros Hx; apply Hpm; by apply (pt_memory_tabs (kmemory k1))|done|done
    |rewrite Eab; simpl in Hroom; lia|].
  rewrite Hrun. cbn [rzoom rbind].
  rewrite u32_small by (unfold PGSIZE, KERNBASE in *; lia). unfold PGSIZE at 2.
  assert (run (allocshm_loop (FS:=FS) me fuel pgdir0 (a + 4096) oldsz (oldsz + 4096) 0 (Some p)
      (set_vm (set_km k2 (vm s)) s)) = ROk (Some (a + 4096, Some p)) (set_vm (set_km k2 (vm s)) s)) as Hfin.
  { destruct fuel; cbn [allocshm_loop]; (destruct (Z.ltb_spec (a + 4096) (oldsz + 4096)); [lia|done]). }
  exists k2, l2, p. split; [apply elem_of_cons; by left|]. split; [exact Hfin|].
  split; [apply (ext_kmem _ _ _ _ _ _ _ Hext)|]. split; [apply (ext_pt _ _ _ _ _ _ _ Hext)|].
  split; [done|]. split.
  - rewrite Hpte by (unfold KERNBASE in *; lia).
    assert (in_range a a PGSIZE = true) as -> by (apply in_range_spec; unfold PGSIZE; lia).
    by apply (entry_of_page kend).
  - intros va Hva. rewrite Hrd by done. change (user (Z.lor PTE_W PTE_U)) with true. cbv iota.
    cbn [kmemory k1 set_kmemory]. rewrite ld8_memset by done. unfold PGSIZE. addr_cases.
Qed.

Ltac put_step Hme :=
  first [ rewrite (run_get_put me) by exact Hme | rewrite (run_upd_put me) by exact Hme | mstep | rewrite run_arr_get ];
  cbn [rbind].

(** The process after a region was mapped at its end. *)
Definition grown (p : proc) (ref va pa : Z) : proc :=
  set_sz (u32 (sz p + 4096))
    (set_shm_phys (zinsert ref pa (shm_phys p)) (set_shm_vir (zinsert ref va (shm_vir p)) p)).

Section grow.
Context (s : K) (l : list Z) (p : proc) (ref : Z).
Abbreviation k := (km (vm s)).
Hypothesis Hme : (me < length (ptable s))%nat.
Hypothesis Hpg : pgdir p <> 0.
Hypothesis Hok : kmem_ok kend k l.
Hypothesis Hpt : pt_ok kend (kmemory k) (pgdir p) l.
Hypothesis Has : as_ok kend (kmemory k) (pgdir p) l.
Hypothesis Hsz : 0 <= sz p.
Hypothesis Hlt : sz p + 4096 < KERNBASE.
Hypothesis Hun : unmapped (kmemory k) (pgdir p) (PGROUNDUP (sz p)) (PGROUNDUP (sz p) + 4096).

Lemma grow_va : sz p <= PGROUNDUP (sz p) < sz p + 4096 /\ s32 (PGROUNDUP (sz p)) = PGROUNDUP (sz p).
Proof.
  assert (PGROUNDUP (sz p) = 4096 * ((sz p + 4095) / 4096)) as Er
    by (apply PGROUNDUP_eq; unfold KERNBASE in *; lia).
  assert (sz p <= PGROUNDUP (sz p) < sz p + 4096) as Hr by (rewrite Er; Z.div_mod_to_equations; lia).
  split; [done|]. apply s32_small. unfold KERNBASE in *. lia.
Qed.

Lemma shm_alloc_new :
  (absent (kmemory k) (pgdir p) + 1 <= length l)%nat ->
  exists k' l' pg, pg ∈ l /\
    run (shm_alloc me 4096 ref 0 (put_proc me p s)) =
      ROk 0 (put_proc me (grown p ref (PGROUNDUP (sz p)) (v2p pg)) (set_vm (set_km k' (vm s)) s)) /\
    kmem_ok kend k' l' /\ pt_ok kend (kmemory k') (pgdir p) l' /\ as_ok kend (kmemory k') (pgdir p) l' /\
    frame (pte (kmemory k') (pgdir p) (PGROUNDUP (sz p))) = pg /\
    (forall va, 0 <= va < KERNBASE -> uread (kmemory k') (pgdir p) va =
       if in_range va (PGROUNDUP (sz p)) PGSIZE then Some 0 else uread (kmemory k) (pgdir p) va).
Proof.
  intros Hroom. destruct grow_va as [Hr Hs32].
  destruct (allocshm_loop_new (put_proc me p s) l (pgdir p) (sz p))
    as (k' & l' & pg & Hpgl & Hrun & Hk' & Hpt' & Has' & Hfr & Hrd); try done.
  exists k', l', pg. split; [done|]. split; [|done].
  unfold shm_alloc. repeat put_step Hme. change (0 <? 4096) with true. cbv iota.
  assert (u32 (sz p + 4096) = sz p + 4096) as Eu by (apply u32_small; unfold KERNBASE in *; lia).
  rewrite run_bind. unfold allocshm. rewrite Eu.
  destruct (Z.leb_spec KERNBASE (sz p + 4096)); [lia|]. destruct (Z.ltb_spec (sz p + 4096) (sz p)); [lia|].
  rewrite run_bind, Hrun. cbn [rbind].
  change (set_vm (set_km k' (vm (put_proc me p s))) (put_proc me p s))
    with (put_proc me p (set_vm (set_km k' (vm s)) s)).
  assert (me < length (ptable (set_vm (set_km k' (vm s)) s)))%nat as Hme' by exact Hme.
  unfold set_vir, set_phys. repeat put_step Hme'.
  destruct (Z.eqb_spec (sz p + 4096) 0); [lia|]. repeat put_step Hme'.
  unfold switchuvm. repeat put_step Hme'.
  replace (PGROUNDUP (sz p) + 4096 - (sz p + 4096 - sz p)) with (PGROUNDUP (sz p)) by lia.
  rewrite Hs32, Eu. cbn [pgdir set_sz set_shm_phys set_shm_vir].
  destruct (Z.eqb_spec (pgdir p) 0); [done|]. repeat put_step Hme'. unfold grown. by rewrite Eu.
Qed.

(** Mapping an existing region reads the uninitialised [mem]. *)
Lemma shm_alloc_existing pa :
  (absent (kmemory k) (pgdir p) <= length l)%nat ->
  pa <> 0 -> 0 <= pa -> pa mod 4096 = 0 -> pa + 4096 <= 2 ^ 32 ->
  run (shm_alloc me 4096 ref pa (put_proc me p s)) = RUndef "mem is uninitialised".
Proof.
  intros Hroom Hp0 Hpa Hpm Hpl. destruct grow_va as [Hr _]. pose proof (PGROUNDUP_aligned (sz p)).
  assert (u32 (sz p + 4096) = sz p + 4096) as Eu by (apply u32_small; unfold KERNBASE in *; lia).
  unfold shm_alloc. repeat put_step Hme. change (0 <? 4096) with true. cbv iota.
  rewrite run_bind. unfold allocshm. rewrite Eu.
  destruct (Z.leb_spec KERNBASE (sz p + 4096)); [lia|]. destruct (Z.ltb_spec (sz p + 4096) (sz p)); [lia|].
  destruct (Z.to_nat ((sz p + 4096) / PGSIZE + 1)) as [|fuel] eqn:Ef;
    [unfold PGSIZE in Ef; Z.div_mod_to_equations; lia|].
  cbn [allocshm_loop]. destruct (Z.ltb_spec (PGROUNDUP (sz p)) (sz p + 4096)); [|lia].
  destruct (Z.eqb_spec pa 0); [done|]. rewrite !run_bind, run_zoom.
  change (lget (put_proc me p s)) with k.
  destruct (mappages_spec kend 0 (pgdir p) (PGROUNDUP (sz p)) pa (Z.lor PTE_W PTE_U) k l)
    as (k' & l' & t & Hrun & _); try done; try lia; try (unfold KERNBASE in *; lia).
  change (4096 * Z.of_nat 1) with PGSIZE in Hrun. rewrite Hrun. cbn [rzoom rbind].
  rewrite u32_small by (unfold PGSIZE, KERNBASE in *; lia). unfold PGSIZE.
  destruct fuel; cbn [allocshm_loop]; (destruct (Z.ltb_spec (PGROUNDUP (sz p) + 4096) (sz p + 4096)); [lia|]);
    mrun; reflexivity.
Qed.
End grow.

(** * shm_get *)

Lemma find_index_insert {A} (f : A -> bool) (l : list A) i x :
  find_index f l = None -> (i < length l)%nat -> f x = true -> find_index f (<[i := x]> l) = Some i.
Proof.
  intros Hn Hi Hx. rewrite find_index_None in Hn. apply find_index_Some. split.
  - exists x. by rewrite list_lookup_insert_eq.
  - intros j y Hj. rewrite list_lookup_insert_ne by lia. apply Hn.
Qed.

Lemma find_index_insert_None {A} (f : A -> bool) (l : list A) i x :
  find_index f l = None -> f x = false -> find_index f (<[i := x]> l) = None.
Proof.
  intros Hn Hx. rewrite find_index_None in *. intros j y Hj.
  destruct (decide (i = j)) as [<-|]; [|rewrite list_lookup_insert_ne in Hj by done; eauto].
  destruct (decide (i < length l)%nat).
  - rewrite list_lookup_insert_eq in Hj by done. by simplify_eq.
  - rewrite list_insert_ge in Hj by lia. eauto.
Qed.

Definition my_name (nm : list Z) (n : list Z) : bool := strncmp n nm NAME_SIZE =? 0.

(** A call that finds the name in the process's table returns the recorded address. *)
Lemma shm_get_known (s : K) p nm len i va :
  ptable s !! me = Some p -> find_index (my_name nm) (shm_name p) = Some i -> shm_vir p !! i = Some va ->
  run (shm_get me nm len s) = ROk va s.
Proof.
  intros Hp Hi Hv. unfold shm_get, procSHM_nameFind. krun. rewrite Hp. cbn [rbind]. mrun.
  change (fun n => strncmp n nm NAME_SIZE =? 0) with (my_name nm). rewrite Hi.
  rewrite (index_or_m1_Some (Some i) i) by done. cbn [negb]. unfold my_vir. krun. rewrite Hp. cbn [rbind].
  krun. assert (zlookup (shm_vir p) (index_or_m1 (Some i)) = Some va) as ->; [|done].
  apply zlookup_lookup; [simpl; lia|]. cbn [index_or_m1]. by rewrite Nat2Z.id.
Qed.

(** The process after it created the region [nm] with page [pa] at [va], slot [j]. *)
Definition with_region (p : proc) (j : nat) (n nm : list Z) (va pa : Z) : proc :=
  set_shm_name (<[j := safestrcpy n nm NAME_SIZE]> (shm_name p)) (grown p (Z.of_nat j) va pa).

Section create.
Context (s : K) (l : list Z) (p : proc) (nm : list Z) (len : Z) (j f : nat) (n : list Z) (e : shm).
Abbreviation k := (km (vm s)).
Abbreviation arr := (shm_arr (vm s)).
Hypothesis Hp : ptable s !! me = Some p.
Hypothesis Hpg : pgdir p <> 0.
Hypothesis Hok : kmem_ok kend k l.
Hypothesis Hpt : pt_ok kend (kmemory k) (pgdir p) l.
Hypothesis Has : as_ok kend (kmemory k) (pgdir p) l.
Hypothesis Hsz : 0 <= sz p.
Hypothesis Hlt : sz p + 4096 < KERNBASE.
Hypothesis Hun : unmapped (kmemory k) (pgdir p) (PGROUNDUP (sz p)) (PGROUNDUP (sz p) + 4096).
Hypothesis Hroom : (absent (kmemory k) (pgdir p) + 1 <= length l)%nat.
(** The process does not know the name, has a free slot [j], and nobody has it. *)
Hypothesis Hnew : find_index (my_name nm) (shm_name p) = None.
Hypothesis Hj : find_index (my_name DNE) (shm_name p) = Some j.
Hypothesis Hjn : shm_name p !! j = Some n.
Hypothesis Hjv : (j < length (shm_vir p))%nat.
Hypothesis Hjp : (j < length (shm_phys p))%nat.
Hypothesis Hnone : find_index (name_is nm) arr = None.
Hypothesis Hused : shm_used (vm s) < SHM_MAXNUM.
Hypothesis Hf : find_index (name_is DNE) arr = Some f.
Hypothesis He : arr !! f = Some e.

(** The slot of the new region. *)
Definition new_slot (pg : Z) : shm :=
  mkShm len (strncpy (name e) nm NAME_SIZE) (s32 (numAccess e + 1)) (v2p pg).

Lemma shm_get_create :
  exists k' l' pg, pg ∈ l /\
    run (shm_get me nm len s) = ROk (PGROUNDUP (sz p))
      (put_proc me (with_region p j n nm (PGROUNDUP (sz p)) (v2p pg))
        (set_vm (mkVm k' (<[f := new_slot pg]> arr) (s32 (shm_used (vm s) + 1))) s)) /\
    kmem_ok kend k' l' /\ pt_ok kend (kmemory k') (pgdir p) l' /\ as_ok kend (kmemory k') (pgdir p) l' /\
    frame (pte (kmemory k') (pgdir p) (PGROUNDUP (sz p))) = pg /\
    (forall va, 0 <= va < KERNBASE -> uread (kmemory k') (pgdir p) va =
       if in_range va (PGROUNDUP (sz p)) PGSIZE then Some 0 else uread (kmemory k) (pgdir p) va).
Proof.
  assert (me < length (ptable s))%nat as Hme by (by eapply lookup_lt_Some).
  destruct (shm_alloc_new s l p (Z.of_nat j)) as (k' & l' & pg & Hpgl & Hrun & Hrest); try done.
  exists k', l', pg. split; [done|]. split; [|done].
  rewrite <- (put_proc_id me p s Hp) at 1. unfold shm_get, procSHM_nameFind, procSHM_findFree.
  repeat put_step Hme. change (fun n => strncmp n nm NAME_SIZE =? 0) with (my_name nm). rewrite Hnew.
  change (index_or_m1 None =? -1) with true. cbn [negb]. repeat put_step Hme.
  change (fun n => strncmp n DNE NAME_SIZE =? 0) with (my_name DNE). rewrite Hj.
  rewrite (index_or_m1_Some (Some j) j) by done. repeat put_step Hme. change (vm (put_proc me p s)) with (vm s).
  unfold shm_find. rewrite Hnone. change (index_or_m1 None =? -1) with true. cbn [andb].
  destruct (Z.ltb_spec (shm_used (vm s)) SHM_MAXNUM); [|lia].
  rewrite run_bind. change (index_or_m1 (Some j)) with (Z.of_nat j). rewrite Hrun. cbn [rbind].
  change (0 =? -1) with false. cbv iota.
  set (s1 := set_vm (set_km k' (vm s)) s). assert (me < length (ptable s1))%nat as Hme1 by exact Hme.
  unfold set_name_safe. repeat put_step Hme1. rewrite zlookup_nat.
  cbn [shm_name grown set_sz set_shm_phys set_shm_vir]. rewrite Hjn. cbn [rbind]. repeat put_step Hme1.
  change (vm (put_proc _ _ s1)) with (vm s1). cbn [s1 vm set_vm shm_arr set_km].
  unfold shm_findFree. rewrite Hf. change (index_or_m1 (Some f)) with (Z.of_nat f).
  unfold my_phys. repeat put_step Hme1. rewrite zlookup_nat.
  cbn [shm_phys grown set_sz set_shm_phys set_shm_vir set_shm_name]. rewrite !zinsert_nat.
  rewrite list_lookup_insert_eq by done. cbn [rbind]. unfold upd_slot. repeat put_step Hme1.
  change (vm (put_proc _ _ s1)) with (vm s1). cbn [s1 vm set_vm shm_arr set_km]. rewrite zlookup_nat, He.
  cbn [rbind]. mrun. unfold my_vir. rewrite run_bind.
  match goal with |- rbind (run (get_proc me ?st)) _ = _ =>
    change st with (put_proc me (with_region p j n nm (PGROUNDUP (sz p)) (v2p pg))
      (set_vm (mkVm k' (zinsert (Z.of_nat f) (new_slot pg) arr) (s32 (shm_used (vm s) + 1))) s)) end.
  rewrite zinsert_nat. rewrite run_get_put by exact Hme. cbn [rbind]. rewrite run_arr_get.
  cbn [shm_vir with_region grown set_shm_name set_sz set_shm_phys set_shm_vir].
  rewrite zinsert_nat, zlookup_nat, list_lookup_insert_eq by done. reflexivity.
Qed.
End create.

Section claims.
Context (s : K) (l : list Z) (p : proc) (nm : list Z) (len : Z).
Abbreviation k := (km (vm s)).
Abbreviation arr := (shm_arr (vm s)).

(** What a process that can take one more region looks like: [j] is its first free slot. *)
Record can_grow (j : nat) (n : list Z) : Prop := {
  cg_me : ptable s !! me = Some p;
  cg_pgdir : pgdir p <> 0;
  cg_kmem : kmem_ok kend k l;
  cg_pt : pt_ok kend (kmemory k) (pgdir p) l;
  cg_as : as_ok kend (kmemory k) (pgdir p) l;
  cg_sz : 0 <= sz p;
  cg_lt : sz p + 4096 < KERNBASE;
  cg_unmapped : unmapped (kmemory k) (pgdir p) (PGROUNDUP (sz p)) (PGROUNDUP (sz p) + 4096);
  cg_room : (absent (kmemory k) (pgdir p) + 1 <= length l)%nat;
  cg_new : find_index (my_name nm) (shm_name p) = None;
  cg_free : find_index (my_name DNE) (shm_name p) = Some j;
  cg_name : shm_name p !! j = Some n;
  cg_name_len : length n = 16%nat;
  cg_vir : (j < length (shm_vir p))%nat;
  cg_phys : (j < length (shm_phys p))%nat
}.

(** What a kernel table without the name and with a free slot [f] looks like. *)
Record can_create (f : nat) (e : shm) : Prop := {
  cc_none : find_index (name_is nm) arr = None;
  cc_used : shm_used (vm s) < SHM_MAXNUM;
  cc_free : find_index (name_is DNE) arr = Some f;
  cc_slot : arr !! f = Some e
}.

(** C23. [shm_get] of a name nobody uses (of at most 15 bytes): it returns the page-rounded end of
    the process, where one zeroed page taken from the free list is now mapped and no other user byte
    changed; the region is in the kernel's table with that physical page; and a second call with the
    name returns the same address and changes nothing. *)
Theorem shm_get_new_region j n f e :
  can_grow j n -> can_create f e -> bytes nm -> bytes (safestrcpy n nm NAME_SIZE) ->
  cstr 16 nm = cstr 15 nm ->
  exists s', run (shm_get me nm len s) = ROk (PGROUNDUP (sz p)) s' /\
    run (shm_get me nm len s') = ROk (PGROUNDUP (sz p)) s' /\
    (exists pg, pg ∈ l /\ frame (pte (kmemory (km (vm s'))) (pgdir p) (PGROUNDUP (sz p))) = pg /\
       shm_arr (vm s') = <[f := new_slot nm len e pg]> arr) /\
    (forall va, 0 <= va < KERNBASE -> uread (kmemory (km (vm s'))) (pgdir p) va =
       if in_range va (PGROUNDUP (sz p)) PGSIZE then Some 0 else uread (kmemory k) (pgdir p) va).
Proof.
  intros [] [] Hb Hb' Hcstr.
  destruct (shm_get_create s l p nm len j f n e) as (k' & l' & pg & Hpg & Hrun & _ & _ & _ & Hfr & Hrd); try done.
  eexists. split; [exact Hrun|]. split; [|split; [exists pg; done|exact Hrd]].
  eapply (shm_get_known _ (with_region p j n nm (PGROUNDUP (sz p)) (v2p pg)) nm len j).
  - cbn [ptable put_proc set_ptable set_vm]. apply list_lookup_insert_eq. by eapply lookup_lt_Some.
  - cbn [shm_name with_region set_shm_name]. apply find_index_insert; [done|by eapply lookup_lt_Some|].
    unfold my_name. apply Z.eqb_eq. apply strncmp_0; [done|done|]. change (Z.to_nat NAME_SIZE) with 16%nat.
    rewrite Hcstr. apply (safestrcpy_text n nm 16). rewrite cg_name_len0. lia.
  - cbn [shm_vir with_region grown set_shm_name set_sz set_shm_phys set_shm_vir].
    rewrite zinsert_nat. by apply list_lookup_insert_eq.
Qed.

(** A name of 16 bytes, which the system call accepts: the process's own table keeps 15 of them,
    so right after [shm_get] succeeded the process does not find the region among its own. *)
Theorem shm_get_16_byte_name_not_found j n f e :
  can_grow j n -> can_create f e -> bytes nm -> bytes (safestrcpy n nm NAME_SIZE) ->
  length (cstr 16 nm) = 16%nat ->
  exists s', run (shm_get me nm len s) = ROk (PGROUNDUP (sz p)) s' /\
    run (procSHM_nameFind me nm s') = ROk (-1) s'.
Proof.
  intros [] [] Hb Hb' Hlen.
  destruct (shm_get_create s l p nm len j f n e) as (k' & l' & pg & Hpg & Hrun & _); try done.
  eexists. split; [exact Hrun|]. unfold procSHM_nameFind. rewrite run_bind.
  rewrite run_get_put by (by eapply lookup_lt_Some). cbn [rbind]. mrun.
  change (fun n => strncmp n nm NAME_SIZE =? 0) with (my_name nm).
  cbn [shm_name with_region set_shm_name]. rewrite find_index_insert_None; [done|done|].
  unfold my_name. apply Z.eqb_neq. rewrite strncmp_0 by done. change (Z.to_nat NAME_SIZE) with 16%nat.
  destruct (safestrcpy_text n nm 16) as [_ E]; [rewrite cg_name_len0; lia|].
  change (Z.to_nat 16) with 16%nat in E. unfold NAME_SIZE. rewrite E. intros Hx.
  apply (f_equal length) in Hx. pose proof (length_cstr (Z.to_nat (16 - 1)) nm). lia.
Qed.

(** C24. A process that asks for a region another process created runs into undefined behaviour: the
    physical address it would record is read from the variable [mem], which this path never sets. *)
Theorem shm_get_other_process_undefined j n f e :
  can_grow j n -> find_index (name_is nm) arr = Some f -> arr !! f = Some e ->
  shmPhys e <> 0 -> 0 <= shmPhys e -> shmPhys e mod 4096 = 0 -> shmPhys e + 4096 <= 2 ^ 32 ->
  run (shm_get me nm len s) = RUndef "mem is uninitialised".
Proof.
  intros [] Hf He H0 Hpa Hpm Hpl. assert (me < length (ptable s))%nat as Hme by (by eapply lookup_lt_Some).
  rewrite <- (put_proc_id me p s) by done. unfold shm_get, procSHM_nameFind, procSHM_findFree.
  repeat put_step Hme. change (fun n => strncmp n nm NAME_SIZE =? 0) with (my_name nm). rewrite cg_new0.
  change (index_or_m1 None =? -1) with true. cbn [negb]. repeat put_step Hme.
  change (fun n => strncmp n DNE NAME_SIZE =? 0) with (my_name DNE). rewrite cg_free0.
  rewrite (index_or_m1_Some (Some j) j) by done. repeat put_step Hme. change (vm (put_proc me p s)) with (vm s).
  unfold shm_find. rewrite Hf. rewrite (index_or_m1_Some (Some f) f) by done. cbn [andb negb].
  repeat put_step Hme. change (vm (put_proc me p s)) with (vm s).
  change (index_or_m1 (Some f)) with (Z.of_nat f). rewrite zlookup_nat, He. cbn [rbind]. rewrite run_bind.
  rewrite (shm_alloc_existing s l p) by (try done; lia). done.
Qed.

(** Removing a region nobody else uses runs into undefined behaviour: [deallocshm] reads the
    page-table entry through the pointer [pte], which is still null. *)
Theorem shm_rem_last_undefined f e i v :
  ptable s !! me = Some p -> find_index (name_is nm) arr = Some f -> arr !! f = Some e ->
  numAccess e <= 1 -> shmPhys e <> 0 ->
  find_index (my_name nm) (shm_name p) = Some i -> shm_vir p !! i = Some v ->
  4096 <= sz p < KERNBASE -> pt_ok kend (kmemory k) (pgdir p) l -> present (pte (kmemory k) (pgdir p) v) = true ->
  run (shm_rem me nm len s) = RUndef "null pte".
Proof.
  intros Hp Hf He Hn H0 Hi Hv Hsz Hpt Hpr. assert (me < length (ptable s))%nat as Hme by (by eapply lookup_lt_Some).
  rewrite <- (put_proc_id me p s) by done. unfold shm_rem, procSHM_nameFind. repeat put_step Hme.
  change (vm (put_proc me p s)) with (vm s). change (fun n => strncmp n nm NAME_SIZE =? 0) with (my_name nm).
  unfold shm_find. rewrite Hf, Hi, (index_or_m1_Some (Some f) f), (index_or_m1_Some (Some i) i) by done.
  repeat put_step Hme. change (vm (put_proc me p s)) with (vm s).
  change (index_or_m1 (Some f)) with (Z.of_nat f). rewrite zlookup_nat, He. cbn [rbind].
  destruct (Z.ltb_spec 1 (numAccess e)); [lia|]. unfold shm_alloc. repeat put_step Hme.
  change (0 <? -4096) with false. change (-4096 <? 0) with true. cbv iota.
  assert (u32 (sz p + -4096) = sz p - 4096) as -> by (apply u32_small; unfold KERNBASE in *; lia).
  unfold deallocshm. destruct (Z.leb_spec (sz p) (sz p - 4096)); [lia|]. repeat put_step Hme.
  change (index_or_m1 (Some i)) with (Z.of_nat i). rewrite zlookup_nat, Hv. cbn [rbind]. mrun.
  destruct (walkpgdir_entry kend (pgdir p) v k l Hpt Hpr) as (t & _ & Hne & Hw & _).
  change (lget (put_proc me p s)) with k. rewrite Hw. cbn [rzoom rbind].
  destruct (Z.eqb_spec (t + 4 * PTX v) 0); [done|]. destruct (Z.eqb_spec (shmPhys e) 0); done.
Qed.

(** The second round of the loop that moves pages down finds its target mapped. *)
Lemma remap_loop_panics (t : K) fuel pd a sz0 :
  kmem_ok kend (km (vm t)) l -> pt_ok kend (kmemory (km (vm t))) pd l ->
  (absent (kmemory (km (vm t))) pd <= length l)%nat ->
  4096 <= a -> a mod 4096 = 0 -> a + 8192 < 2 ^ 31 -> a + 4096 < sz0 ->
  present (pte (kmemory (km (vm t))) pd (a - 4096)) = false ->
  present (pte (kmemory (km (vm t))) pd a) = true ->
  present (pte (kmemory (km (vm t))) pd (a + 4096)) = true ->
  run (remap_loop (S (S fuel)) pd a sz0 t) = RPanic "remap".
Proof.
  intros Hok Hpt Hroom Ha Ham Hlt Hsz Hp0 Hp1 Hp2. cbn [remap_loop].
  rewrite (u32_small a) by lia. destruct (Z.ltb_spec a sz0); [|lia].
  destruct (walkpgdir_entry kend pd a (km (vm t)) l Hpt Hp1) as (tb & _ & Hne & Hw & Hld).
  rewrite run_bind, run_zoom. change (lget t) with (km (vm t)). rewrite Hw. cbn [rzoom rbind].
  destruct (Z.eqb_spec (tb + 4 * PTX a) 0); [done|]. unfold load32. rewrite run_bind, run_zoom, run_gets.
  cbn [rzoom rbind lget lput lens_kmem vm km set_vm set_km].
  rewrite run_bind, run_zoom. cbn [lget lens_kmem vm km set_vm set_km].
  rewrite Hld. pose proof (pte_range (kmemory (km (vm t))) pd a) as Hpr.
  assert (0 <= PTE_ADDR (pte (kmemory (km (vm t))) pd a) /\ PTE_ADDR (pte (kmemory (km (vm t))) pd a) mod 4096 = 0
    /\ PTE_ADDR (pte (kmemory (km (vm t))) pd a) + 4096 <= 2 ^ 32) as (He0 & Hem & Hel)
    by (rewrite PTE_ADDR_eq by done; Z.div_mod_to_equations; lia).
  destruct (mappages_spec kend 0 pd (a - 4096) (PTE_ADDR (pte (kmemory (km (vm t))) pd a)) (Z.lor PTE_W PTE_U)
    (km (vm t)) l) as (k1 & l1 & tk & Hrun & Hext & _ & Hpte); try done; try lia.
  { Z.div_mod_to_equations; lia. }
  { intros v Hv. rewrite (pte_same_page _ _ v (a - 4096)); [done|lia|lia|Z.div_mod_to_equations; lia]. }
  change (4096 * Z.of_nat 1) with PGSIZE in *. change (a - 4096) with (a - PGSIZE) in Hrun.
  rewrite Hrun. cbn [rzoom rbind lput lens_kmem].
  rewrite (s32_small (a + PGSIZE)) by (unfold PGSIZE; lia). unfold PGSIZE at 1.
  rewrite u32_small by lia. destruct (Z.ltb_spec (a + 4096) sz0); [|lia].
  assert (forall v, a <= v < 2 ^ 32 -> pte (kmemory k1) pd v = pte (kmemory (km (vm t))) pd v) as Hsame.
  { intros v Hv. rewrite Hpte by lia. unfold PGSIZE. addr_cases. }
  pose proof (ext_pt _ _ _ _ _ _ _ Hext) as Hpt1. pose proof (ext_kmem _ _ _ _ _ _ _ Hext) as Hok1.
  destruct (walkpgdir_entry kend pd (a + 4096) k1 l1 Hpt1) as (tb1 & _ & Hne1 & Hw1 & Hld1);
    [rewrite Hsame by lia; done|].
  rewrite run_bind, run_zoom. cbn [lget lens_kmem vm km set_vm set_km]. unfold PGSIZE at 1. rewrite Hw1.
  cbn [rzoom rbind]. destruct (Z.eqb_spec (tb1 + 4 * PTX (a + 4096)) 0); [done|].
  rewrite run_bind, run_zoom, run_gets. cbn [rzoom rbind lget lput lens_kmem vm km set_vm set_km].
  rewrite run_bind, run_zoom. cbn [lget lens_kmem vm km set_vm set_km]. unfold PGSIZE at 1.
  replace (a + 4096 - PGSIZE) with a by (unfold PGSIZE; lia).
  rewrite (mappages_remap kend pd a _ _ k1 l1); [done|done|done|lia|done|lia|rewrite Hsame by lia; done].
Qed.

(** Removing the mapping of a region other processes still use, when at least two pages of the
    process lie above it, stops the machine with panic("remap"): the loop that moves pages down
    maps each page over one that is still mapped. *)
Theorem shm_rem_middle_panics f e i v :
  ptable s !! me = Some p -> find_index (name_is nm) arr = Some f -> arr !! f = Some e ->
  1 < numAccess e -> find_index (my_name nm) (shm_name p) = Some i -> shm_vir p !! i = Some v ->
  kmem_ok kend k l -> pt_ok kend (kmemory k) (pgdir p) l -> (absent (kmemory k) (pgdir p) <= length l)%nat ->
  0 <= v -> v mod 4096 = 0 -> v + 8192 < sz p -> sz p < KERNBASE - 8192 ->
  present (pte (kmemory k) (pgdir p) v) = true ->
  present (pte (kmemory k) (pgdir p) (v + 4096)) = true ->
  present (pte (kmemory k) (pgdir p) (v + 8192)) = true ->
  run (shm_rem me nm len s) = RPanic "remap".
Proof.
  intros Hp Hf He Hn Hi Hv Hok Hpt Hroom Hv0 Hvm Hvs Hsz Hp1 Hp2 Hp3.
  assert (me < length (ptable s))%nat as Hme by (by eapply lookup_lt_Some).
  rewrite <- (put_proc_id me p s) by done. unfold shm_rem, procSHM_nameFind. repeat put_step Hme.
  change (vm (put_proc me p s)) with (vm s). change (fun n => strncmp n nm NAME_SIZE =? 0) with (my_name nm).
  unfold shm_find. rewrite Hf, Hi, (index_or_m1_Some (Some f) f), (index_or_m1_Some (Some i) i) by done.
  repeat put_step Hme. change (vm (put_proc me p s)) with (vm s).
  change (index_or_m1 (Some f)) with (Z.of_nat f). rewrite zlookup_nat, He. cbn [rbind].
  destruct (Z.ltb_spec 1 (numAccess e)); [|lia]. unfold shm_alloc. repeat put_step Hme.
  change (0 <? -4096) with false. change (-4096 <? 0) with true. cbv iota.
  unfold KERNBASE in *. assert (u32 (sz p + -4096) = sz p - 4096) as -> by (apply u32_small; lia).
  unfold deallocshm. destruct (Z.leb_spec (sz p) (sz p - 4096)); [lia|]. repeat put_step Hme.
  change (index_or_m1 (Some i)) with (Z.of_nat i). rewrite zlookup_nat, Hv. cbn [rbind]. mrun.
  destruct (walkpgdir_entry kend (pgdir p) v k l Hpt Hp1) as (t & Ht & Hne & Hw & _).
  change (lget (put_proc me p s)) with k. rewrite Hw. cbn [rzoom rbind].
  destruct (Z.eqb_spec (t + 4 * PTX v) 0); [done|]. change (0 =? 0) with true. cbv iota.
  rewrite !u32_small by (unfold PGSIZE; lia). destruct (Z.eqb_spec v (sz p - PGSIZE)); [unfold PGSIZE in *; lia|].
  unfold store32. repeat put_step Hme. cbn [lget lput lens_kmem vm km set_vm set_km].
  rewrite (s32_small (v + PGSIZE)) by (unfold PGSIZE; lia).
  destruct (Z.to_nat (sz p / PGSIZE + 1)) as [|[|fuel]] eqn:Ef;
    [unfold PGSIZE in Ef; Z.div_mod_to_equations; lia|unfold PGSIZE in Ef; Z.div_mod_to_equations; lia|].
  set (t1 := set_vm _ _).
  assert (kmem_ok kend (km (vm t1)) l) as Hok1 by (by apply (set_pte_kmem_ok kend k (pgdir p) v t 0 l)).
  assert (pt_ok kend (kmemory (km (vm t1))) (pgdir p) l) as Hpt1 by (by apply (set_pte_pt_ok kend k (pgdir p) v t 0 l)).
  assert (forall w, 0 <= w < 2 ^ 32 -> pte (kmemory (km (vm t1))) (pgdir p) w =
    if in_range w v PGSIZE then 0 else pte (kmemory k) (pgdir p) w) as Hpte1.
  { intros w Hw'. rewrite <- same_page by lia. by apply (set_pte_pte kend k (pgdir p) v t 0 l). }
  assert (absent (kmemory (km (vm t1))) (pgdir p) = absent (kmemory k) (pgdir p)) as Hab.
  { apply absent_ext. intros j Hj. by apply (set_pte_pgtab kend k (pgdir p) v t 0 l). }
  change (v + PGSIZE) with (v + 4096). rewrite (remap_loop_panics t1 fuel (pgdir p) (v + 4096) (sz p));
    [done|done|done|by rewrite Hab|lia|Z.div_mod_to_equations; lia|lia|lia| | |];
    replace (v + 4096 - 4096) with v by lia; replace (v + 4096 + 4096) with (v + 8192) by lia;
    rewrite Hpte1 by lia; unfold PGSIZE; addr_cases.
Qed.
End claims.
End shmfacts.

(** * Concrete states *)

Section concrete.
(** A process without memory on the demonstration machine of VmFacts.v. *)
Let dne : list Z := DNE ++ replicate 13 0.
Let proc0 : proc := set_shm_name (replicate 32 dne) (set_pgdir demo_dir (set_state RUNNING proc_zero)).
Let slot0 : shm := mkShm 0 dne 0 0.
Let kst (arr : list shm) (p : proc) (m : kmem) (u : Z) : kstate unit :=
  mkK (mkVm m arr u) [p] 0 2 (Some 0%nat) [] 0 tt.
Let st0 (arr : list shm) : kstate unit := kst arr proc0 (demo_state 1100) 0.
Let nm0 : list Z := [115; 104; 109; 49; 0].
(** Sixteen bytes, none of them zero. *)
Let nm16 : list Z := replicate 16 97.

Lemma st0_can_grow arr nm :
  find_index (my_name nm) (replicate 32 dne) = None ->
  can_grow demo_kend 0 (st0 arr) (demo_pages 1100) proc0 nm 0 dne.
Proof.
  intros Hn. split.
  - reflexivity.
  - discriminate.
  - apply demo_state_ok. lia.
  - apply demo_state_pt.
  - apply demo_state_as.
  - vm_compute; discriminate.
  - reflexivity.
  - intros va _. cbn [st0 kst vm km proc0 set_shm_name set_pgdir pgdir]. by rewrite demo_state_pte.
  - cbn [st0 kst vm km proc0 set_shm_name set_pgdir pgdir]. pose proof (demo_state_absent 1100).
    unfold demo_pages. rewrite page_run_length. lia.
  - exact Hn.
  - reflexivity.
  - reflexivity.
  - reflexivity.
  - cbn [proc0 set_shm_name set_pgdir shm_vir]. simpl. lia.
  - cbn [proc0 set_shm_name set_pgdir shm_phys]. simpl. lia.
Qed.

Lemma shm_get_new_region_witness :
  exists s', run (shm_get 0 nm0 4 (st0 (replicate 32 slot0))) = ROk 0 s' /\
    run (shm_get 0 nm0 4 s') = ROk 0 s' /\ uread (kmemory (km (vm s'))) demo_dir 7 = Some 0.
Proof.
  destruct (shm_get_new_region demo_kend 0 (st0 (replicate 32 slot0)) (demo_pages 1100) proc0 nm0 4 0 dne 0 slot0)
    as (s' & H1 & H2 & _ & H3); [by apply st0_can_grow|by split|by repeat constructor|by repeat constructor|reflexivity|].
  exists s'. split; [exact H1|]. split; [exact H2|].
  change (pgdir proc0) with demo_dir in H3. rewrite H3; [reflexivity|]. unfold KERNBASE. lia.
Defined.

Lemma shm_get_16_byte_name_not_found_witness :
  exists s', run (shm_get 0 nm16 16 (st0 (replicate 32 slot0))) = ROk 0 s' /\
    run (procSHM_nameFind 0 nm16 s') = ROk (-1) s'.
Proof.
  apply (shm_get_16_byte_name_not_found demo_kend 0 (st0 (replicate 32 slot0)) (demo_pages 1100) proc0 nm16 16 0 dne 0 slot0);
    [by apply st0_can_grow|by split|by repeat constructor|by repeat constructor|reflexivity].
Defined.

Lemma shm_get_other_process_undefined_witness :
  run (shm_get 0 nm0 4 (st0 (mkShm 4 (strncpy dne nm0 16) 1 0xA00000 :: replicate 31 slot0))) =
    RUndef "mem is uninitialised".
Proof.
  apply (shm_get_other_process_undefined demo_kend 0 _ (demo_pages 1100) proc0 nm0 4 0 dne 0
    (mkShm 4 (strncpy dne nm0 16) 1 0xA00000));
    [by apply st0_can_grow|reflexivity|reflexivity|done|done|reflexivity|done].
Defined.

(** A process that already maps a region, and three pages. *)
Lemma mapped_pages :
  exists k l, kmem_ok demo_kend k l /\ pt_ok demo_kend (kmemory k) demo_dir l /\ (1024 <= length l)%nat /\
    forall va, 0 <= va < 12288 -> present (pte (kmemory k) demo_dir va) = true.
Proof.
  destruct (allocuvm_loop_spec demo_kend 3 demo_dir 0 0 12288 (demo_state 2100) [] 0 (demo_pages 2100))
    as (k & l & tk & _ & Hext & _ & Hab & Hrd);
    [apply demo_state_ok; lia|apply demo_state_pt|apply demo_state_as|lia|reflexivity|reflexivity|lia|reflexivity
    |intros va _; by rewrite demo_state_pte
    |pose proof (demo_state_absent 2100); unfold demo_pages; rewrite page_run_length; lia|].
  exists k, l. split; [apply (ext_kmem _ _ _ _ _ _ _ Hext)|]. split; [apply (ext_pt _ _ _ _ _ _ _ Hext)|]. split.
  - pose proof (ext_list _ _ _ _ _ _ _ Hext) as E. apply (f_equal length) in E. unfold demo_pages in E.
    rewrite page_run_length, length_app in E. pose proof (demo_state_absent 2100). lia.
  - intros va Hva. pose proof (Hrd va ltac:(unfold KERNBASE; lia)) as E.
    assert (in_range va 0 (4096 * Z.of_nat 3) = true) as Er by (apply in_range_spec; lia).
    rewrite Er in E. unfold uread, uframe in E. by destruct (present _).
Qed.

Let proc3 : proc := set_sz 12289 (set_shm_name (strncpy dne nm0 16 :: replicate 31 dne) proc0).
Let slot3 (n : Z) : shm := mkShm 4 (strncpy dne nm0 16) n 0xA00000.

Lemma shm_rem_last_undefined_witness :
  exists k, run (shm_rem 0 nm0 4 (kst (slot3 1 :: replicate 31 slot0) proc3 k 1)) = RUndef "null pte".
Proof.
  destruct mapped_pages as (k & l & Hok & Hpt & Hl & Hp). exists k.
  apply (shm_rem_last_undefined demo_kend 0 _ l proc3 nm0 4 0 (slot3 1) 0 0);
    [reflexivity|reflexivity|reflexivity|done|done|reflexivity|reflexivity|by vm_compute|exact Hpt|by apply Hp].
Defined.

Lemma shm_rem_middle_panics_witness :
  exists k, run (shm_rem 0 nm0 4 (kst (slot3 2 :: replicate 31 slot0) proc3 k 1)) = RPanic "remap".
Proof.
  destruct mapped_pages as (k & l & Hok & Hpt & Hl & Hp). exists k.
  apply (shm_rem_middle_panics demo_kend 0 _ l proc3 nm0 4 0 (slot3 2) 0 0);
    [reflexivity|reflexivity|reflexivity|done|reflexivity|reflexivity|exact Hok|exact Hpt| |done|reflexivity|done|done
    |by apply Hp|by apply Hp|by apply Hp].
  etrans; [|exact Hl]. unfold absent. etrans; [apply length_filter|]. by rewrite length_seqZ.
Defined.
End concrete.
