(* ===== verification/Proc.v ===== *)
(** Processes: creation, exit and wait (the first part of proc.c).

    The file system is reached through the interface [FileOps]: the calls proc.c makes
    into file.c, fs.c and log.c, as operations on the file-system part of the
    state. *)

From stdpp Require Import base tactics option list gmap strings numbers.
From Stdlib Require Import ZArith Lia.
From S2P Require Import Prelude Mem CString Layout Kalloc PageTable ShmTable Vm ProcState Sched Mutex Shm.
Open Scope Z_scope.

Class FileOps (FS : Type) := {
  filedup : nat -> M FS nat;
  fileclose : nat -> M FS unit;
  idup : option nat -> M FS (option nat);
  iput : option nat -> M FS unit;
  namei : list Z -> M FS (option nat);
  begin_op : M FS unit;
  end_op : M FS unit;
  iinit : Z -> M FS unit;
  initlog : Z -> M FS unit
}.

(** * The trap frame and the context on the kernel stack (x86.h, proc.h) *)

Definition sizeof_trapframe : Z := 76.
Definition TF_eax : Z := 28.
Definition TF_es : Z := 40.
Definition TF_ds : Z := 44.
Definition TF_trapno : Z := 48.
Definition TF_eip : Z := 56.
Definition TF_cs : Z := 60.
Definition TF_eflags : Z := 64.
Definition TF_esp : Z := 68.
Definition TF_ss : Z := 72.
Definition sizeof_context : Z := 20.
Definition CTX_eip : Z := 16.

Definition SEG_UCODE : Z := 4.
Definition SEG_UDATA : Z := 5.
Definition DPL_USER : Z := 3.
Definition FL_IF : Z := 0x200.

(** Writing a 16-bit field. *)
Definition store16 (a v : Z) : M kmem unit :=
  modify (fun s => set_kmemory (st8 (st8 (kmemory s) a (u8 v)) (a + 1) (u8 (Z.shiftr v 8))) s).

Section proc.
Context {FS : Type} {FO : FileOps FS}.
Abbreviation K := (kstate FS).
(** Linker symbols. *)
Variables (kend kdata forkret_addr trapret_addr : Z).
(** The image of initcode.S. *)
Variable initcode : list Z.

Definition pinit : M K unit := modify (set_highpid 0).

Definition unused (p : proc) : bool := bool_decide (state p = UNUSED).

(** The stack set-up of [allocproc], for a kernel stack at [ks]. *)
Definition setup_stack (i : nat) (ks : Z) : M K unit :=
  let sp := ks + KSTACKSIZE - sizeof_trapframe in
  upd_proc i (set_tf sp) ;;
  let sp := sp - 4 in
  zoom (store32 sp trapret_addr) ;;
  let sp := sp - sizeof_context in
  upd_proc i (set_context sp) ;;
  zoom (kmemset sp 0 sizeof_context) ;;
  zoom (store32 (sp + CTX_eip) forkret_addr).

Definition allocproc : M K (option nat) :=
  acquire LK_ptable ;;
  ps <- gets ptable ;;
  match find_index unused ps with
  | None => release LK_ptable ;; ret None
  | Some i =>
      upd_proc i (set_state EMBRYO) ;;
      n <- gets nextpid ;;
      upd_proc i (set_pid n) ;;
      (if n =? 2 ^ 31 - 1 then undef "nextpid overflows" else modify (set_nextpid (n + 1))) ;;
      upd_proc i (set_mxproc (replicate (Z.to_nat MUX_MAXNUM) (-1))) ;;
      release LK_ptable ;;
      ks <- zoom kalloc ;;
      upd_proc i (set_kstack ks) ;;
      if ks =? 0 then upd_proc i (set_state UNUSED) ;; ret None
      else setup_stack i ks ;; ret (Some i)
  end.

(** [p->shm_name[i] = "DNE"; p->shm_vir[i] = 0; p->shm_phys[i] = 0], all slots. *)
Definition clear_shm (p : proc) : proc :=
  set_shm_phys (replicate (length (shm_phys p)) 0)
    (set_shm_vir (replicate (length (shm_vir p)) 0)
      (set_shm_name ((fun n => safestrcpy n DNE NAME_SIZE) <$> shm_name p) p)).

Definition userinit : M K unit :=
  r <- allocproc ;;
  match r with
  | None => undef "userinit: no process"
  | Some i =>
      modify (set_initproc (Some i)) ;;
      pd <- zoom (setupkvm kdata) ;;
      upd_proc i (set_pgdir pd) ;;
      if pd =? 0 then panic "userinit: out of memory?" else
      zoom (inituvm pd initcode) ;;
      upd_proc i (set_sz PGSIZE) ;;
      p <- get_proc i ;;
      zoom (kmemset (tf p) 0 sizeof_trapframe) ;;
      zoom (store16 (tf p + TF_cs) (Z.lor (Z.shiftl SEG_UCODE 3) DPL_USER)) ;;
      zoom (store16 (tf p + TF_ds) (Z.lor (Z.shiftl SEG_UDATA 3) DPL_USER)) ;;
      zoom (store16 (tf p + TF_es) (Z.lor (Z.shiftl SEG_UDATA 3) DPL_USER)) ;;
      zoom (store16 (tf p + TF_ss) (Z.lor (Z.shiftl SEG_UDATA 3) DPL_USER)) ;;
      zoom (store32 (tf p + TF_eflags) FL_IF) ;;
      zoom (store32 (tf p + TF_esp) PGSIZE) ;;
      zoom (store32 (tf p + TF_eip) 0) ;;
      upd_proc i (fun p => set_pname (safestrcpy (pname p) [105; 110; 105; 116; 99; 111; 100; 101] 16) p) ;;
      c <- zoom (namei [47]) ;;
      upd_proc i (set_cwd c) ;;
      upd_proc i clear_shm ;;
      upd_proc i (set_state RUNNABLE)
  end.

Section running.
(** The process that runs the code. *)
Variable me : nat.

Definition growproc (n : Z) : M K Z :=
  p <- get_proc me ;;
  let sz0 := sz p in
  r <- (if 0 <? n then
          s1 <- zoom (allocuvm kend (pgdir p) sz0 (u32 (sz0 + n))) ;;
          ret (if s1 =? 0 then None else Some s1)
        else if n <? 0 then
          s1 <- zoom (deallocuvm kend (pgdir p) sz0 (u32 (sz0 + n)) 0) ;;
          ret (if s1 =? 0 then None else Some s1)
        else ret (Some sz0)) ;;
  match r with
  | None => ret (-1)
  | Some s1 => upd_proc me (set_sz s1) ;; switchuvm me ;; ret 0
  end.

(** The loop of [fork] over the shared-memory arrays, slot [i]. *)
Definition fork_shm (np i : nat) : M K unit :=
  p <- get_proc me ;;
  c <- get_proc np ;;
  n <- arr_get (shm_name p) (Z.of_nat i) ;;
  pa <- arr_get (shm_phys p) (Z.of_nat i) ;;
  upd_proc np (fun c => set_shm_name (alter (fun d => safestrcpy d n NAME_SIZE) i (shm_name c)) c) ;;
  upd_proc np (fun c => set_shm_phys (<[i := pa]> (shm_phys c)) c) ;;
  v <- zoom (shm_assign (pgdir c) (sz c) pa) ;;
  upd_proc np (fun c => set_shm_vir (<[i := v]> (shm_vir c)) c).

Definition fork_file (np i : nat) : M K unit :=
  p <- get_proc me ;;
  match ofile p !! i with
  | Some (Some f) =>
      g <- zoom (filedup f) ;;
      upd_proc np (fun c => set_ofile (<[i := Some g]> (ofile c)) c)
  | _ => ret tt
  end.

Definition fork : M K Z :=
  r <- allocproc ;;
  match r with
  | None => ret (-1)
  | Some np =>
      p <- get_proc me ;;
      d <- zoom (copyuvm kend kdata (pgdir p) (sz p)) ;;
      upd_proc np (set_pgdir d) ;;
      if d =? 0 then
        c <- get_proc np ;;
        zoom (kfree kend (kstack c)) ;;
        upd_proc np (set_kstack 0) ;;
        upd_proc np (set_state UNUSED) ;;
        ret (-1)
      else
      upd_proc np (set_sz (sz p)) ;;
      upd_proc np (set_parent (Some me)) ;;
      c <- get_proc np ;;
      zoom (modify (fun k : kmem =>
        set_kmemory (memmove (kmemory k) (tf c) (tf p) sizeof_trapframe) k)) ;;
      for_each (seq 0 (Z.to_nat SHM_MAXNUM)) (fork_shm np) ;;
      zoom (store32 (tf c + TF_eax) 0) ;;
      for_each (seq 0 (Z.to_nat NOFILE)) (fork_file np) ;;
      w <- zoom (idup (cwd p)) ;;
      upd_proc np (set_cwd w) ;;
      upd_proc np (fun c => set_pname (safestrcpy (pname c) (pname p) 16) c) ;;
      c <- get_proc np ;;
      acquire LK_ptable ;;
      upd_proc np (set_state RUNNABLE) ;;
      release LK_ptable ;;
      ret (pid c)
  end.

(** The loops of [exit]. *)
Definition exit_file (fd : nat) : M K unit :=
  p <- get_proc me ;;
  match ofile p !! fd with
  | Some (Some f) =>
      zoom (fileclose f) ;;
      upd_proc me (fun p => set_ofile (<[fd := None]> (ofile p)) p)
  | _ => ret tt
  end.

Definition exit_mutex (i : nat) : M K unit :=
  p <- get_proc me ;;
  g <- arr_get (mxproc p) (Z.of_nat i) ;;
  when (0 <=? g) (mxdelete (Z.of_nat i)).

Definition exit_child (i : nat) : M K unit :=
  p <- get_proc i ;;
  if bool_decide (parent p = Some me) then
    ip <- gets initproc ;;
    upd_proc i (set_parent ip) ;;
    match ip with
    | Some ip => when (bool_decide (state p = ZOMBIE)) (wakeup1 (CH_proc (Z.of_nat ip)))
    | None => ret tt
    end
  else ret tt.

Definition exit : M K unit :=
  ip <- gets initproc ;;
  if bool_decide (ip = Some me) then panic "init exiting" else
  for_each (seq 0 (Z.to_nat NOFILE)) exit_file ;;
  for_each (seq 0 (Z.to_nat MUX_MAXNUM)) exit_mutex ;;
  p <- get_proc me ;;
  zoom begin_op ;;
  zoom (iput (cwd p)) ;;
  zoom end_op ;;
  upd_proc me (set_cwd None) ;;
  acquire LK_ptable ;;
  p <- get_proc me ;;
  match parent p with
  | Some pp => wakeup1 (CH_proc (Z.of_nat pp))
  | None => ret tt
  end ;;
  for_each (seq 0 (Z.to_nat NPROC)) exit_child ;;
  upd_proc me (set_state ZOMBIE) ;;
  sched me ;;
  panic "zombie exit".

(** Taking a zombie child out of the table. *)
Definition reap (i : nat) : M K Z :=
  p <- get_proc i ;;
  zoom (kfree kend (kstack p)) ;;
  upd_proc i (set_kstack 0) ;;
  zoom (freevm kend (pgdir p) (-1)) ;;
  upd_proc i (fun p => set_killed 0 (set_pname (<[0%nat := 0]> (pname p))
    (set_parent None (set_pid 0 (set_state UNUSED p))))) ;;
  ret (pid p).

Definition zombie_child (p : proc) : bool :=
  bool_decide (parent p = Some me) && bool_decide (state p = ZOMBIE).
Definition is_child (p : proc) : bool := bool_decide (parent p = Some me).

(** The scan of [wait] stops at the first zombie child; [havekids] tells whether the
    processes before it, or all of them, include a child. *)
Fixpoint wait (fuel : nat) : M K Z :=
  match fuel with
  | O => nofuel
  | S n =>
      ps <- gets ptable ;;
      match find_index zombie_child ps with
      | Some i => pid <- reap i ;; release LK_ptable ;; ret pid
      | None =>
          p <- get_proc me ;;
          if negb (existsb is_child ps) || negb (killed p =? 0)
          then release LK_ptable ;; ret (-1)
          else sleep me (CH_proc (Z.of_nat me)) LK_ptable ;; wait n
      end
  end.

(** [wait] may sleep any number of times; [fuel] bounds them. *)
Definition sys_wait_body (fuel : nat) : M K Z := acquire LK_ptable ;; wait fuel.

(** [first] is the function's static variable. *)
Definition forkret (first : bool) : M K unit :=
  release LK_ptable ;;
  when first (zoom (iinit ROOTDEV) ;; zoom (initlog ROOTDEV)).

End running.
End proc.
