(* ===== verification/ProcFacts.v ===== *)
(** Theorems about processes: Sched.v, Mutex.v, Shm.v and Proc.v together. *)

From stdpp Require Import base tactics option list gmap strings numbers.
From Stdlib Require Import ZArith Lia.
From S2P Require Import Prelude Mem CString Layout Kalloc PageTable ShmTable Vm ProcState Sched Mutex Shm Proc.
Open Scope Z_scope.

Section pids.
Context {FS : Type} {FO : FileOps FS}.
Abbreviation K := (kstate FS).

(** * Process identifiers are unique *)

Record pids_ok (s : K) : Prop := {
  po_next : 0 < nextpid s;
  po_range : forall i p, ptable s !! i = Some p -> 0 <= pid p < nextpid s;
  po_inj : forall i j p q, ptable s !! i = Some p -> ptable s !! j = Some q ->
    pid p = pid q -> pid p <> 0 -> i = j
}.

(** Only the identifiers and their counter matter. *)
Lemma pids_ok_ext s s' :
  nextpid s' = nextpid s -> (forall i, pid <$> ptable s' !! i = pid <$> ptable s !! i) ->
  pids_ok s -> pids_ok s'.
Proof.
  intros Hn E [H1 H2 H3].
  assert (forall i p, ptable s' !! i = Some p -> exists q, ptable s !! i = Some q /\ pid q = pid p) as Hq.
  { intros i p Hp. specialize (E i). rewrite Hp in E.
    destruct (ptable s !! i) as [q|]; simplify_eq/=. by exists q. }
  split; rewrite ?Hn; [done| |].
  - intros i p Hp. destruct (Hq i p Hp) as (q & Hx & <-). eauto.
  - intros i j p q Hp Hq'. destruct (Hq i p Hp) as (p' & Hx & <-).
    destruct (Hq j q Hq') as (q' & Hy & <-). eauto.
Qed.

Lemma keeps_upd_proc i f :
  (forall p, pid (f p) = pid p) -> keeps pids_ok (upd_proc (FS:=FS) i f).
Proof.
  intros Hf. apply keeps_modify. intros s. apply pids_ok_ext; [done|]. intros j.
  cbn [ptable set_ptable]. destruct (decide (i = j)) as [<-|].
  - rewrite list_lookup_alter_eq. destruct (ptable s !! i); simpl; [by rewrite Hf|done].
  - by rewrite list_lookup_alter_ne.
Qed.

Lemma keeps_get_proc i : keeps pids_ok (get_proc (FS:=FS) i).
Proof. intros s Hs. unfold get_proc. by destruct (ptable s !! i). Qed.

Lemma keeps_arr_get {A} (l : list A) i : keeps pids_ok (arr_get (FS:=FS) l i).
Proof. unfold arr_get. destruct (zlookup l i); eauto with keeps. Qed.

Lemma keeps_pids_zoom_vm {A} (m : M vmstate A) : keeps pids_ok (zoom (T:=K) m).
Proof. apply keeps_zoom. intros t s. by apply pids_ok_ext. Qed.
Lemma keeps_pids_zoom_kmem {A} (m : M kmem A) : keeps pids_ok (zoom (T:=K) m).
Proof. apply keeps_zoom. intros t s. by apply pids_ok_ext. Qed.
Lemma keeps_pids_zoom_fs {A} (m : M FS A) : keeps pids_ok (zoom (T:=K) (L:=lens_fs) m).
Proof. apply keeps_zoom. intros t s. by apply pids_ok_ext. Qed.

Lemma keeps_get_mutex g : keeps pids_ok (get_mutex (FS:=FS) g).
Proof. unfold get_mutex. keeps_split. apply keeps_arr_get. Qed.

Lemma keeps_upd_mutex g f : keeps pids_ok (upd_mutex (FS:=FS) g f).
Proof.
  unfold upd_mutex. keeps_split; [apply keeps_arr_get|]. apply keeps_modify.
  intros s. by apply pids_ok_ext.
Qed.

Hint Resolve keeps_get_proc keeps_arr_get keeps_pids_zoom_vm keeps_pids_zoom_kmem keeps_pids_zoom_fs
  keeps_get_mutex keeps_upd_mutex : keeps.
Hint Extern 1 (keeps pids_ok (upd_proc _ _)) => (apply keeps_upd_proc; done) : keeps.
Hint Extern 1 (keeps pids_ok (modify _)) =>
  (apply keeps_modify; intros ?s; by apply pids_ok_ext) : keeps.

(** ** Scheduling *)

Lemma keeps_sched me : keeps pids_ok (sched (FS:=FS) me).
Proof. unfold sched. keeps_split. Qed.
Lemma keeps_sleep me c lk : keeps pids_ok (sleep (FS:=FS) me c lk).
Proof. unfold sleep. keeps_split; apply keeps_sched. Qed.
Lemma keeps_wakeup1 c : keeps pids_ok (wakeup1 (FS:=FS) c).
Proof.
  apply keeps_modify. intros s. apply pids_ok_ext; [done|]. intros i. cbn [ptable set_ptable].
  rewrite list_lookup_fmap. destruct (ptable s !! i) as [p|]; simpl; [|done].
  by destruct (sleeping_on c p).
Qed.
Lemma keeps_wakeup c : keeps pids_ok (Sched.wakeup (FS:=FS) c).
Proof. unfold Sched.wakeup. keeps_split. apply keeps_wakeup1. Qed.
Lemma keeps_switchuvm i : keeps pids_ok (switchuvm (FS:=FS) i).
Proof. unfold switchuvm. keeps_split. Qed.
Hint Resolve keeps_sched keeps_sleep keeps_wakeup1 keeps_wakeup keeps_switchuvm : keeps.

Lemma keeps_dispatch i : keeps pids_ok (dispatch (FS:=FS) i).
Proof. unfold dispatch. keeps_split. Qed.
Hint Resolve keeps_dispatch : keeps.

(** ** A new process takes the next identifier *)

Lemma pids_ok_alloc (s : K) i :
  pids_ok s -> nextpid s <> 2 ^ 31 - 1 ->
  pids_ok (set_nextpid (nextpid s + 1)
    (set_ptable (alter (set_pid (nextpid s)) i (alter (set_state EMBRYO) i (ptable s))) s)).
Proof.
  intros [H1 H2 H3] Hn.
  assert (forall j p, alter (set_pid (nextpid s)) i (alter (set_state EMBRYO) i (ptable s)) !! j = Some p ->
    (j = i /\ pid p = nextpid s) \/ (j <> i /\ ptable s !! j = Some p)) as Hl.
  { intros j p. destruct (decide (i = j)) as [<-|Hne].
    - rewrite !list_lookup_alter_eq. destruct (ptable s !! i); simpl; [|done]. intros [= <-]. by left.
    - rewrite !list_lookup_alter_ne by done. by right. }
  split; cbn [nextpid ptable set_nextpid set_ptable].
  - lia.
  - intros j p Hp. destruct (Hl j p Hp) as [[-> Hpid]|[_ Hp']]; [lia|]. specialize (H2 j p Hp'). lia.
  - intros j j' p q Hp Hq E Hne. destruct (Hl j p Hp) as [[-> Hp1]|[Hj Hp1]], (Hl j' q Hq) as [[-> Hq1]|[Hj' Hq1]].
    + done.
    + specialize (H2 j' q Hq1). lia.
    + specialize (H2 j p Hp1). lia.
    + by eapply H3.
Qed.

Lemma keeps_setup_stack fa ta i ks : keeps pids_ok (setup_stack (FS:=FS) fa ta i ks).
Proof. unfold setup_stack. keeps_split. Qed.
Hint Resolve keeps_setup_stack : keeps.

Lemma keeps_allocproc fa ta : keeps pids_ok (allocproc (FS:=FS) fa ta).
Proof.
  unfold allocproc. apply keeps_bind; [apply keeps_sync|intros _]. apply keeps_bind; [apply keeps_gets|intros ps].
  destruct (find_index unused ps) as [i|]; [|keeps_split].
  intros s Hs. unfold bind at 1, upd_proc at 1, modify at 1. cbn [pbind].
  unfold bind at 1, gets at 1. cbn [pbind]. unfold bind at 1, upd_proc at 1, modify at 1. cbn [pbind].
  unfold bind at 1. cbn [nextpid set_ptable].
  destruct (Z.eqb_spec (nextpid s) (2 ^ 31 - 1)); [done|]. cbn [modify pbind].
  match goal with |- pres _ (?m ?st) =>
    assert (pids_ok st) as Hst by (by apply (pids_ok_alloc s i)); revert Hst; generalize st end.
  fold (keeps pids_ok (upd_proc (FS:=FS) i (set_mxproc (replicate (Z.to_nat MUX_MAXNUM) (-1))) ;;
    release LK_ptable ;; ks <- zoom kalloc ;; upd_proc i (set_kstack ks) ;;
    if ks =? 0 then upd_proc i (set_state UNUSED) ;; ret None else setup_stack fa ta i ks ;; ret (Some i))).
  keeps_split.
Qed.
Hint Resolve keeps_allocproc : keeps.

Lemma keeps_mx_lookup who mid : keeps pids_ok (mx_lookup (FS:=FS) who mid).
Proof. unfold mx_lookup. keeps_split. Qed.
Hint Resolve keeps_mx_lookup : keeps.
Lemma keeps_mxdelete mid : keeps pids_ok (mxdelete (FS:=FS) mid).
Proof. unfold mxdelete. keeps_split. Qed.
Hint Resolve keeps_mxdelete : keeps.

Lemma keeps_reap kend i : keeps pids_ok (reap (FS:=FS) kend i).
Proof.
  unfold reap. keeps_split. apply keeps_modify. intros s [H1 H2 H3].
  set (f := fun p => set_killed 0 _).
  assert (forall j p, alter f i (ptable s) !! j = Some p ->
    (j = i /\ pid p = 0) \/ (j <> i /\ ptable s !! j = Some p)) as Hl.
  { intros j p. destruct (decide (i = j)) as [<-|Hne].
    - rewrite !list_lookup_alter_eq. destruct (ptable s !! i); simpl; [|done]. intros [= <-]. by left.
    - rewrite !list_lookup_alter_ne by done. by right. }
  split; cbn [nextpid ptable set_ptable]; [done| |].
  - intros j p Hp. destruct (Hl j p Hp) as [[-> ->]|[_ Hp']]; [lia|eauto].
  - intros j j' p q Hp Hq E Hne. destruct (Hl j p Hp) as [[-> Hp1]|[Hj Hp1]], (Hl j' q Hq) as [[-> Hq1]|[Hj' Hq1]];
      try done; try congruence. by eapply H3.
Qed.
Hint Resolve keeps_reap : keeps.

Lemma keeps_wait kend me n : keeps pids_ok (wait (FS:=FS) kend me n).
Proof. induction n as [|n IH]; cbn [wait]; keeps_split. Qed.

Lemma keeps_exit_child me i : keeps pids_ok (exit_child (FS:=FS) me i).
Proof. unfold exit_child. keeps_split. Qed.
Lemma keeps_fork_shm me np i : keeps pids_ok (fork_shm (FS:=FS) me np i).
Proof. unfold fork_shm. keeps_split. Qed.
Lemma keeps_fork_file me np i : keeps pids_ok (fork_file (FS:=FS) me np i).
Proof. unfold fork_file. keeps_split. Qed.
Lemma keeps_exit_file me i : keeps pids_ok (exit_file (FS:=FS) me i).
Proof. unfold exit_file. keeps_split. Qed.
Lemma keeps_exit_mutex me i : keeps pids_ok (exit_mutex (FS:=FS) me i).
Proof. unfold exit_mutex. keeps_split. Qed.
Hint Resolve keeps_wait keeps_exit_child keeps_fork_shm keeps_fork_file keeps_exit_file keeps_exit_mutex : keeps.

(** C20. No two processes have the same identifier, at any point where another CPU or process can
    look: every routine of proc.c that changes the process table keeps the identifiers distinct,
    positive and below the counter, however it is interleaved with the others. *)
Theorem pids_unique kend kdata fa ta ic me :
  keeps pids_ok (allocproc (FS:=FS) fa ta) /\
  keeps pids_ok (userinit (FS:=FS) kdata fa ta ic) /\
  keeps pids_ok (fork (FS:=FS) kend kdata fa ta me) /\
  keeps pids_ok (exit (FS:=FS) me) /\
  (forall n, keeps pids_ok (sys_wait_body (FS:=FS) kend me n)) /\
  (forall n, keeps pids_ok (growproc (FS:=FS) kend me n)) /\
  (forall n, keeps pids_ok (kill (FS:=FS) n)) /\
  keeps pids_ok (yield (FS:=FS) me) /\
  (forall c lk, keeps pids_ok (sleep (FS:=FS) me c lk)) /\
  keeps pids_ok (scheduler_round (FS:=FS)).
Proof.
  split_and!.
  - apply keeps_allocproc.
  - unfold userinit. keeps_split.
  - unfold fork. keeps_split.
  - unfold exit. keeps_split.
  - intros n. unfold sys_wait_body. keeps_split.
  - intros n. unfold growproc. keeps_split.
  - intros n. unfold kill. keeps_split.
  - unfold yield. keeps_split.
  - intros. apply keeps_sleep.
  - unfold scheduler_round. keeps_split.
Qed.

End pids.
