(* ===== verification/Pipe.v ===== *)
(** Pipes: pipe.c.

    [contents] is the abstraction: the bytes between the read and the write counter.
    The counters are C [uint]s that wrap around; the theorems hold across the
    wrap-around.  [piperead] and [pipewrite] are a bounded queue, alone ([run]) and
    when other processes use the pipe ([wp]). *)

From stdpp Require Import base tactics option list gmap strings numbers.
From Stdlib Require Import ZArith Lia.
From S2P Require Import Prelude Mem.
Open Scope Z_scope.

Definition PIPESIZE : Z := 512.

Record pipe := mkPipe {
  data : list Z;
  nread : Z;
  nwrite : Z;
  readopen : Z;
  writeopen : Z
}.

(** The pipe, and [proc->killed] of the process that runs the code. *)
Record pst := mkPst { pp : pipe; killed : Z }.

Definition set_pipe (p : pipe) (s : pst) : pst := mkPst p (killed s).
Definition upd (f : pipe -> pipe) : M pst unit := modify (fun s => set_pipe (f (pp s)) s).

Definition set_nread v p := mkPipe (data p) v (nwrite p) (readopen p) (writeopen p).
Definition set_readopen v p := mkPipe (data p) (nread p) (nwrite p) v (writeopen p).
Definition set_writeopen v p := mkPipe (data p) (nread p) (nwrite p) (readopen p) v.

(** What [pipealloc] makes of a page with the bytes [junk] in it. *)
Definition pipe_init (junk : list Z) : pipe := mkPipe junk 0 0 1 1.

Section pipe.
(** The address of the pipe: its lock and its two channels. *)
Variable a : Z.
Abbreviation LK := (LK_pipe a).

(** [p->data[p->nwrite++ % PIPESIZE] = c] *)
Definition put (c : Z) (p : pipe) : pipe :=
  mkPipe (<[Z.to_nat (nwrite p mod PIPESIZE) := u8 c]> (data p)) (nread p) (u32 (nwrite p + 1))
    (readopen p) (writeopen p).

(** [p->data[p->nread++ % PIPESIZE]] *)
Definition get (p : pipe) : Z * pipe :=
  (default 0 (data p !! Z.to_nat (nread p mod PIPESIZE)), set_nread (u32 (nread p + 1)) p).

Definition full (p : pipe) : bool := nwrite p =? u32 (nread p + PIPESIZE).
Definition empty (p : pipe) : bool := nread p =? nwrite p.

(** [while (p->nwrite == p->nread + PIPESIZE) ...]: false when the call must fail.
    [fuel] bounds how often the writer sleeps. *)
Fixpoint wait_room (fuel : nat) : M pst bool :=
  p <- gets pp ;;
  if full p then
    k <- gets killed ;;
    if (readopen p =? 0) || negb (k =? 0) then release LK ;; ret false
    else
    match fuel with
    | O => nofuel
    | S n => wakeup (CH_nread a) ;; sleep_on (CH_nwrite a) LK ;; wait_room n
    end
  else ret true.

Fixpoint pipewrite_loop (fuel : nat) (bs : list Z) : M pst bool :=
  match bs with
  | [] => ret true
  | c :: bs' =>
      ok <- wait_room fuel ;;
      if negb ok then ret false else
      upd (put c) ;; pipewrite_loop fuel bs'
  end.

(** [bs]: the [n] bytes at [addr]. *)
Definition pipewrite (fuel : nat) (bs : list Z) : M pst Z :=
  acquire LK ;;
  ok <- pipewrite_loop fuel bs ;;
  if negb ok then ret (-1) else
  wakeup (CH_nread a) ;;
  release LK ;;
  ret (Z.of_nat (length bs)).

Fixpoint wait_data (fuel : nat) : M pst bool :=
  p <- gets pp ;;
  if empty p && negb (writeopen p =? 0) then
    k <- gets killed ;;
    if negb (k =? 0) then release LK ;; ret false
    else
    match fuel with
    | O => nofuel
    | S n => sleep_on (CH_nread a) LK ;; wait_data n
    end
  else ret true.

(** The bytes copied to [addr]. *)
Fixpoint piperead_loop (n : nat) : M pst (list Z) :=
  match n with
  | O => ret []
  | S k =>
      p <- gets pp ;;
      if empty p then ret [] else
      let '(c, p') := get p in
      upd (fun _ => p') ;;
      cs <- piperead_loop k ;;
      ret (c :: cs)
  end.

(** The returned count is [-1] or the number of bytes copied. *)
Definition piperead (fuel : nat) (n : Z) : M pst (Z * list Z) :=
  acquire LK ;;
  ok <- wait_data fuel ;;
  if negb ok then ret (-1, []) else
  cs <- piperead_loop (Z.to_nat n) ;;
  wakeup (CH_nwrite a) ;;
  release LK ;;
  ret (Z.of_nat (length cs), cs).

(** The result says whether the pipe's page is freed. *)
Definition pipeclose (writable : Z) : M pst bool :=
  acquire LK ;;
  (if negb (writable =? 0) then upd (set_writeopen 0) ;; wakeup (CH_nread a)
   else upd (set_readopen 0) ;; wakeup (CH_nwrite a)) ;;
  p <- gets pp ;;
  release LK ;;
  ret ((readopen p =? 0) && (writeopen p =? 0)).

(** * The queue in a pipe *)

Definition count (p : pipe) : nat := Z.to_nat (u32 (nwrite p - nread p)).

Definition byte_at (p : pipe) (i : nat) : Z :=
  default 0 (data p !! Z.to_nat ((nread p + Z.of_nat i) mod PIPESIZE)).

Definition contents (p : pipe) : list Z := byte_at p <$> seq 0 (count p).

Record pipe_ok (p : pipe) : Prop := {
  pk_len : length (data p) = Z.to_nat PIPESIZE;
  pk_r : 0 <= nread p < 2 ^ 32;
  pk_w : 0 <= nwrite p < 2 ^ 32;
  pk_n : u32 (nwrite p - nread p) <= PIPESIZE
}.

(** * Theorems *)

Lemma full_count p : pipe_ok p -> full p = (count p =? Z.to_nat PIPESIZE)%nat.
Proof.
  intros [Hl Hr Hw Hn]. unfold full, count, PIPESIZE, u32 in *.
  apply Bool.eq_iff_eq_true. rewrite Z.eqb_eq, Nat.eqb_eq. Z.div_mod_to_equations; lia.
Qed.

Lemma empty_count p : pipe_ok p -> empty p = (count p =? 0)%nat.
Proof.
  intros [Hl Hr Hw Hn]. unfold empty, count, PIPESIZE, u32 in *.
  apply Bool.eq_iff_eq_true. rewrite Z.eqb_eq, Nat.eqb_eq. Z.div_mod_to_equations; lia.
Qed.

Lemma length_contents p : length (contents p) = count p.
Proof. unfold contents. by rewrite length_fmap, length_seq. Qed.

Lemma put_ok p c : pipe_ok p -> full p = false -> pipe_ok (put c p).
Proof.
  intros Hok Hf. rewrite full_count in Hf by done. apply Nat.eqb_neq in Hf. destruct Hok as [Hl Hr Hw Hn].
  split; cbn [put data nread nwrite]; [by rewrite length_insert|done|apply Z.mod_pos_bound; lia|].
  unfold count, PIPESIZE, u32 in *. Z.div_mod_to_equations; lia.
Qed.

Lemma put_count p c : pipe_ok p -> full p = false -> count (put c p) = S (count p).
Proof.
  intros Hok Hf. rewrite full_count in Hf by done. apply Nat.eqb_neq in Hf. destruct Hok as [Hl Hr Hw Hn].
  unfold count in *; cbn [put nread nwrite]. unfold PIPESIZE, u32 in *. Z.div_mod_to_equations; lia.
Qed.

(** The slot of byte [i] of the queue, counted from the reader; [2^32] is a multiple of
    the buffer size, so the wrap-around of the counters does not show. *)
Lemma slot_write p :
  pipe_ok p -> nwrite p mod PIPESIZE = (nread p + Z.of_nat (count p)) mod PIPESIZE.
Proof.
  intros [Hl Hr Hw Hn]. unfold count, PIPESIZE, u32 in *. rewrite Z2Nat.id by (apply Z.mod_pos_bound; lia).
  Z.div_mod_to_equations; lia.
Qed.

Lemma slot_inj p i j :
  (i < Z.to_nat PIPESIZE)%nat -> (j < Z.to_nat PIPESIZE)%nat ->
  (nread p + Z.of_nat i) mod PIPESIZE = (nread p + Z.of_nat j) mod PIPESIZE -> i = j.
Proof. unfold PIPESIZE. intros. Z.div_mod_to_equations; lia. Qed.

(** Writing a byte appends it to the queue. *)
Lemma contents_put p c :
  pipe_ok p -> full p = false -> contents (put c p) = contents p ++ [u8 c].
Proof.
  intros Hok Hf. unfold contents. rewrite put_count by done. rewrite seq_S, fmap_app. simpl.
  assert (count p < Z.to_nat PIPESIZE)%nat as Hc.
  { pose proof Hf as Hf'. rewrite full_count in Hf' by done. apply Nat.eqb_neq in Hf'.
    destruct Hok as [_ _ _ Hn]. unfold count, PIPESIZE in *. lia. }
  f_equal.
  - apply list_fmap_ext. intros j i Hi%lookup_seq. unfold byte_at. cbn [put nread data].
    f_equal. apply list_lookup_insert_ne. rewrite slot_write by done. intros E.
    apply Z2Nat.inj in E; [|apply Z.mod_pos_bound; done..].
    apply slot_inj in E; [lia|done|lia].
  - unfold byte_at. cbn [put nread data]. rewrite slot_write by done. f_equal.
    rewrite list_lookup_insert_eq; [done|]. destruct Hok as [-> _ _ _].
    apply Z2Nat.inj_lt; [apply Z.mod_pos_bound; done|done|]. by apply Z.mod_pos_bound.
Qed.

Lemma get_ok p : pipe_ok p -> empty p = false -> pipe_ok (snd (get p)).
Proof.
  intros Hok Hf. rewrite empty_count in Hf by done. apply Nat.eqb_neq in Hf. destruct Hok as [Hl Hr Hw Hn].
  split; cbn [get snd set_nread data nread nwrite]; [done|apply Z.mod_pos_bound; lia|done|].
  unfold count, PIPESIZE, u32 in *. Z.div_mod_to_equations; lia.
Qed.

Lemma get_count p : pipe_ok p -> empty p = false -> count p = S (count (snd (get p))).
Proof.
  intros Hok Hf. rewrite empty_count in Hf by done. apply Nat.eqb_neq in Hf. destruct Hok as [Hl Hr Hw Hn].
  unfold count in *; cbn [get snd set_nread nread nwrite]. unfold PIPESIZE, u32 in *. Z.div_mod_to_equations; lia.
Qed.

(** Reading a byte takes the first one off the queue. *)
Lemma contents_get p :
  pipe_ok p -> empty p = false -> contents p = fst (get p) :: contents (snd (get p)).
Proof.
  intros Hok Hf. unfold contents. rewrite (get_count p) by done. cbn [seq fmap list_fmap].
  f_equal.
  - unfold byte_at, get; simpl. by rewrite Z.add_0_r.
  - rewrite <- fmap_S_seq, <- list_fmap_compose. apply list_fmap_ext. intros j i Hi. unfold byte_at, get; simpl.
    f_equal. f_equal. f_equal. destruct Hok as [_ Hr _ _]. unfold PIPESIZE, u32 in *.
    rewrite Nat2Z.inj_succ. Z.div_mod_to_equations; lia.
Qed.

Lemma empty_contents p : pipe_ok p -> empty p = true -> contents p = [].
Proof.
  intros Hok He. rewrite empty_count in He by done. apply Nat.eqb_eq in He. unfold contents. by rewrite He.
Qed.

(** ** Alone *)

Lemma pipewrite_loop_room fuel bs s :
  pipe_ok (pp s) -> (length (contents (pp s)) + length bs <= Z.to_nat PIPESIZE)%nat ->
  exists s', run (pipewrite_loop fuel bs s) = ROk true s' /\ pipe_ok (pp s') /\
    contents (pp s') = contents (pp s) ++ (u8 <$> bs) /\ killed s' = killed s /\
    readopen (pp s') = readopen (pp s) /\ writeopen (pp s') = writeopen (pp s).
Proof.
  revert s. induction bs as [|c bs IH]; intros s Hok Hn; cbn [pipewrite_loop].
  { exists s. mrun. simpl. by rewrite app_nil_r. }
  simpl in Hn. rewrite length_contents in Hn.
  assert (full (pp s) = false) as Hf by (rewrite full_count by done; apply Nat.eqb_neq; lia).
  assert (run (wait_room fuel s) = ROk true s) as Hw by (destruct fuel; cbn [wait_room]; mrun; by rewrite Hf).
  rewrite run_bind, Hw. cbn [rbind negb]. unfold upd at 1. mrun.
  destruct (IH (set_pipe (put c (pp s)) s)) as (s' & Hrun & Hok' & Hc & Hk & Hro & Hwo).
  - by apply put_ok.
  - cbn [pp set_pipe]. rewrite length_contents, put_count by done. lia.
  - exists s'. rewrite Hrun. cbn [pp set_pipe] in *. rewrite contents_put in Hc by done.
    split_and!; [done|done|by rewrite Hc, <- app_assoc|done|done|done].
Qed.

Lemma piperead_loop_run n s :
  pipe_ok (pp s) ->
  exists s', run (piperead_loop n s) = ROk (take n (contents (pp s))) s' /\ pipe_ok (pp s') /\
    contents (pp s') = drop n (contents (pp s)) /\ killed s' = killed s /\
    readopen (pp s') = readopen (pp s) /\ writeopen (pp s') = writeopen (pp s).
Proof.
  revert s. induction n as [|n IH]; intros s Hok; cbn [piperead_loop].
  { exists s. mrun. by rewrite drop_0. }
  mrun. destruct (empty (pp s)) eqn:He.
  { exists s. mrun. by rewrite (empty_contents (pp s)). }
  destruct (get (pp s)) as [c p'] eqn:Eg. unfold upd at 1. mrun.
  pose proof (get_ok _ Hok He) as Hok'. pose proof (contents_get _ Hok He) as Hc. rewrite Eg in Hok', Hc.
  simpl in Hok', Hc.
  destruct (IH (set_pipe p' s)) as (s' & Hrun & ? & Hc' & ? & Hro & Hwo); [done|].
  exists s'. rewrite Hrun. mrun. cbn [pp set_pipe] in *. rewrite Hc. cbn [take drop].
  assert (p' = snd (get (pp s))) as -> by (by rewrite Eg). split_and!; done.
Qed.

(** C28. Round trip: with room for them, [pipewrite] puts the bytes in the pipe after the ones that
    were there and returns their number; [piperead] then returns the oldest bytes, and what is left
    is the rest, in order. *)
Theorem pipe_fifo fuel bs n s :
  pipe_ok (pp s) -> (length (contents (pp s)) + length bs <= Z.to_nat PIPESIZE)%nat ->
  0 <= n -> bs <> [] ->
  exists s1 s2, run (pipewrite fuel bs s) = ROk (Z.of_nat (length bs)) s1 /\
    let q := contents (pp s) ++ (u8 <$> bs) in
    contents (pp s1) = q /\
    run (piperead fuel n s1) = ROk (Z.min n (Z.of_nat (length q)), take (Z.to_nat n) q) s2 /\
    contents (pp s2) = drop (Z.to_nat n) q /\ pipe_ok (pp s2).
Proof.
  intros Hok Hroom Hn Hne.
  destruct (pipewrite_loop_room fuel bs s Hok Hroom) as (s1 & Hrun1 & Hok1 & Hc1 & Hk1 & Hro1 & Hwo1).
  destruct (piperead_loop_run (Z.to_nat n) s1 Hok1) as (s2 & Hrun2 & Hok2 & Hc2 & Hk2 & _).
  exists s1, s2. unfold pipewrite, piperead. cbv zeta. rewrite <- Hc1. split_and!; [|done| |done|done].
  - mrun. rewrite Hrun1. cbn [rbind negb]. by mrun.
  - mrun. assert (empty (pp s1) = false) as He.
    { rewrite empty_count by done. apply Nat.eqb_neq. rewrite <- length_contents, Hc1, length_app, length_fmap.
      destruct bs; simpl; [done|lia]. }
    assert (run (wait_data fuel s1) = ROk true s1) as Hw by (destruct fuel; cbn [wait_data]; mrun; by rewrite He).
    rewrite Hw. cbn [rbind negb]. mrun. rewrite Hrun2. cbn [rbind]. mrun. do 2 f_equal.
    rewrite length_take. lia.
Qed.

(** ** With other processes *)

(** While a process holds the pipe's lock only [killed] of that process changes; otherwise
    other processes may do anything to the pipe that keeps it well formed. *)
Definition pipe_proto : proto pst :=
  mkProto (fun H s s' => (LK ∈ H -> pp s' = pp s)) (fun l s => l = LK -> pipe_ok (pp s)) True.

Lemma wp_wait_room fuel s (Q : bool -> pst -> list lockid -> Prop) :
  pipe_ok (pp s) ->
  (forall s', pipe_ok (pp s') -> full (pp s') = false -> Q true s' [LK]) ->
  (forall s', Q false s' []) ->
  wp pipe_proto [LK] (wait_room fuel s) Q.
Proof.
  revert s. induction fuel as [|fuel IH]; intros s Hok Ht Hf; cbn [wait_room]; unfold bind, gets; cbn [pbind];
    (destruct (full (pp s)) eqn:Hfull; [|by apply Ht]); cbn [pbind];
    (destruct ((readopen (pp s) =? 0) || negb (killed s =? 0));
      [cbn [release sync pbind wp]; split; [by left|]; split; [by intros _|]; intros s' _;
       rewrite drop_lock_single; apply Hf|]); [done|].
  simpl. split; [intros [=]%list_elem_of_singleton|]. intros s1 H1. simpl in H1.
  split; [done|]. split; [intros _; rewrite H1; [done|by left]|].
  intros s2 _ Hok2. simpl in Hok2. by apply IH; [apply Hok2|..].
Qed.

Lemma wp_pipewrite_loop fuel bs s (Q : bool -> pst -> list lockid -> Prop) :
  pipe_ok (pp s) -> (forall s', pipe_ok (pp s') -> Q true s' [LK]) -> (forall s', Q false s' []) ->
  wp pipe_proto [LK] (pipewrite_loop fuel bs s) Q.
Proof.
  revert s. induction bs as [|c bs IH]; intros s Hok Ht Hf; cbn [pipewrite_loop]; [by apply Ht|].
  apply wp_bind, wp_wait_room; [done| |]; [|intros s'; apply Hf].
  intros s' Hok' Hfull. cbn [negb]. apply wp_bind. cbn [upd modify wp].
  apply IH; [by apply put_ok|done|done].
Qed.

(** Under concurrency [pipewrite] is safe: however other processes read, write, close or kill
    in between, it keeps the pipe well formed at every point where another process can see it, never
    overruns the buffer, takes and drops the lock in the right order on every path, sleeps only with
    that lock, and returns the full count or -1 with the lock released. *)
Theorem pipewrite_safe fuel bs s :
  wp pipe_proto [] (pipewrite fuel bs s)
    (fun r _ H => H = [] /\ (r = Z.of_nat (length bs) \/ r = -1)).
Proof.
  unfold pipewrite. apply wp_bind. cbn [acquire sync wp]. split; [set_solver|].
  intros s1 _ Hok1. simpl in Hok1. apply wp_bind, wp_pipewrite_loop; [by apply Hok1| |].
  - intros s2 Hok2. cbn [negb]. apply wp_bind. cbn [wakeup sync wp].
    split; [intros [=]%list_elem_of_singleton|]. intros s3 H3. simpl in H3.
    apply wp_bind. cbn [release sync wp]. split; [by left|]. split; [intros _; rewrite H3; [done|by left]|].
    intros s4 _. rewrite drop_lock_single. cbn [ret wp]. auto.
  - intros s2. simpl. auto.
Qed.

Lemma wp_wait_data fuel s (Q : bool -> pst -> list lockid -> Prop) :
  pipe_ok (pp s) -> (forall s', pipe_ok (pp s') -> Q true s' [LK]) -> (forall s', Q false s' []) ->
  wp pipe_proto [LK] (wait_data fuel s) Q.
Proof.
  revert s. induction fuel as [|fuel IH]; intros s Hok Ht Hf; cbn [wait_data]; unfold bind, gets; cbn [pbind];
    (destruct (empty (pp s) && negb (writeopen (pp s) =? 0)); [|by apply Ht]); cbn [pbind];
    (destruct (negb (killed s =? 0));
      [cbn [release sync pbind wp]; split; [by left|]; split; [by intros _|]; intros s' _;
       rewrite drop_lock_single; apply Hf|]); [done|].
  simpl. split; [done|]. split; [done|]. intros s2 _ Hok2. simpl in Hok2. by apply IH; [apply Hok2|..].
Qed.

Lemma wp_piperead_loop n s (Q : list Z -> pst -> list lockid -> Prop) :
  pipe_ok (pp s) ->
  (forall cs s', pipe_ok (pp s') -> contents (pp s) = cs ++ contents (pp s') -> (length cs <= n)%nat -> Q cs s' [LK]) ->
  wp pipe_proto [LK] (piperead_loop n s) Q.
Proof.
  revert s Q. induction n as [|n IH]; intros s Q Hok HQ; cbn [piperead_loop]; [by apply HQ|].
  unfold bind, gets; cbn [pbind]. destruct (empty (pp s)) eqn:He; [apply HQ; [done|done|simpl; lia]|].
  pose proof (get_ok _ Hok He) as Hok'. pose proof (contents_get _ Hok He) as Hc.
  destruct (get (pp s)) as [c p'] eqn:Eg. simpl in Hok', Hc. unfold upd, modify; cbn [pbind].
  apply wp_pbind, IH; [done|]. intros cs s' Hs' Hcs Hl. cbn [ret wp].
  apply HQ; [done|simpl; rewrite Hc; f_equal; exact Hcs|simpl; lia].
Qed.

(** Under concurrency [piperead] is safe in the same sense: it returns -1, or at most [n] bytes
    and their number, with the lock released. *)
Theorem piperead_safe fuel n s :
  0 <= n ->
  wp pipe_proto [] (piperead fuel n s)
    (fun r _ H => H = [] /\ (r = (-1, []) \/ fst r = Z.of_nat (length (snd r)) /\ fst r <= n)).
Proof.
  intros Hn. unfold piperead. apply wp_bind. cbn [acquire sync wp]. split; [set_solver|].
  intros s1 _ Hok1. simpl in Hok1. apply wp_bind, wp_wait_data; [by apply Hok1| |].
  - intros s2 Hok2. cbn [negb]. apply wp_bind, wp_piperead_loop; [done|].
    intros cs s3 Hok3 _ Hl. apply wp_bind. cbn [wakeup sync wp].
    split; [intros [=]%list_elem_of_singleton|]. intros s4 H4. simpl in H4.
    apply wp_bind. cbn [release sync wp]. split; [by left|]. split; [intros _; rewrite H4; [done|by left]|].
    intros s5 _. rewrite drop_lock_single. cbn [ret wp fst snd]. split; [done|].
    right. split; [done|lia].
  - intros s2. simpl. auto.
Qed.

End pipe.

(** * Concrete states *)

(** The counters are about to wrap around. *)
Lemma pipe_fifo_witness :
  let s := mkPst (mkPipe (replicate 512 0) (2 ^ 32 - 2) (2 ^ 32 - 2) 1 1) 0 in
  exists s1 s2, run (pipewrite 7 3 [1; 2; 3; 4] s) = ROk 4 s1 /\
    contents (pp s1) = [1; 2; 3; 4] /\
    run (piperead 7 3 3 s1) = ROk (3, [1; 2; 3]) s2 /\
    contents (pp s2) = [4] /\ pipe_ok (pp s2).
Proof.
  apply (pipe_fifo 7 3 [1; 2; 3; 4] 3 (mkPst (mkPipe (replicate 512 0) (2 ^ 32 - 2) (2 ^ 32 - 2) 1 1) 0));
    [by split|by vm_compute; lia|done|done].
Defined.

Lemma piperead_safe_witness :
  wp (pipe_proto 7) [] (piperead 7 2 3 (mkPst (pipe_init (replicate 512 0)) 0))
    (fun r _ H => H = [] /\ (r = (-1, []) \/ fst r = Z.of_nat (length (snd r)) /\ fst r <= 3)).
Proof. by apply (piperead_safe 7 2 3). Defined.
