(* ===== verification/Bytes.v ===== *)
(** Byte blocks and the little-endian words in them.

    A disk block is a list of bytes; the structures of fs.h and log.c (the superblock,
    inodes, directory entries, the log header) are words at fixed offsets of a
    block.  This file has the accessors the file-system code uses and the laws its
    proofs rest on: what is stored is read back, and stores at other offsets do not
    disturb it. *)

From stdpp Require Import base tactics option list numbers.
From Stdlib Require Import ZArith Lia.
From S2P Require Import Prelude.
Open Scope Z_scope.

Fixpoint le_enc (n : nat) (v : Z) : list Z :=
  match n with
  | O => []
  | S k => u8 v :: le_enc k (Z.shiftr v 8)
  end.
Fixpoint le_dec (bs : list Z) : Z :=
  match bs with
  | [] => 0
  | b :: bs' => u8 b + 2 ^ 8 * le_dec bs'
  end.

(** [n] bytes at offset [o]; storing the bytes [bs] at offset [o]. *)
Definition slice (d : list Z) (o n : Z) : list Z := take (Z.to_nat n) (drop (Z.to_nat o) d).
Definition splice (d : list Z) (o : Z) (bs : list Z) : list Z := list_inserts (Z.to_nat o) bs d.

Definition get8 (d : list Z) (o : Z) : Z := le_dec (slice d o 1).
Definition get16 (d : list Z) (o : Z) : Z := le_dec (slice d o 2).
Definition get32 (d : list Z) (o : Z) : Z := le_dec (slice d o 4).
Definition put8 (d : list Z) (o v : Z) : list Z := splice d o (le_enc 1 v).
Definition put16 (d : list Z) (o v : Z) : list Z := splice d o (le_enc 2 v).
Definition put32 (d : list Z) (o v : Z) : list Z := splice d o (le_enc 4 v).

(** * Theorems *)

Lemma length_le_enc n v : length (le_enc n v) = n.
Proof. revert v. induction n as [|n IH]; intros v; simpl; [done|]. by rewrite IH. Qed.

Lemma le_dec_enc n v : le_dec (le_enc n v) = v mod 2 ^ (8 * Z.of_nat n).
Proof.
  revert v. induction n as [|n IH]; intros v; [simpl; by rewrite Z.mod_1_r|].
  cbn [le_enc le_dec]. rewrite IH, (u8_small (u8 v)) by apply u8_range.
  rewrite Z.shiftr_div_pow2 by lia. unfold u8.
  replace (8 * Z.of_nat (S n)) with (8 + 8 * Z.of_nat n) by lia.
  rewrite Z.pow_add_r by lia. rewrite Z.rem_mul_r by (try lia; apply Z.pow_nonzero; lia). done.
Qed.

Lemma le_dec_range bs : 0 <= le_dec bs < 2 ^ (8 * Z.of_nat (length bs)).
Proof.
  induction bs as [|b bs IH]; [done|]. cbn [le_dec length].
  replace (8 * Z.of_nat (S (length bs))) with (8 + 8 * Z.of_nat (length bs)) by lia.
  rewrite Z.pow_add_r by lia. pose proof (u8_range b).
  change (2 ^ 8) with 256. nia.
Qed.

Lemma length_splice d o bs : length (splice d o bs) = length d.
Proof. apply length_inserts. Qed.

Lemma length_slice d o n :
  0 <= o -> 0 <= n -> o + n <= Z.of_nat (length d) -> length (slice d o n) = Z.to_nat n.
Proof. intros. unfold slice. rewrite length_take, length_drop. lia. Qed.

Lemma lookup_slice d o n (k : nat) :
  0 <= o -> Z.of_nat k < n -> slice d o n !! k = d !! (Z.to_nat o + k)%nat.
Proof. intros. unfold slice. by rewrite lookup_take_lt, lookup_drop by lia. Qed.

Lemma slice_splice_same d o bs :
  0 <= o -> o + Z.of_nat (length bs) <= Z.of_nat (length d) ->
  slice (splice d o bs) o (Z.of_nat (length bs)) = bs.
Proof.
  intros Ho Hl. apply list_eq_same_length with (length bs); [done| |].
  { rewrite length_slice; rewrite ?length_splice; lia. }
  intros k x y Hk. rewrite lookup_slice by lia. unfold splice.
  rewrite list_lookup_inserts by lia. replace (_ - _)%nat with k by lia. congruence.
Qed.

Lemma slice_splice_ne d o bs o' n :
  0 <= o -> 0 <= o' -> o' + n <= o \/ o + Z.of_nat (length bs) <= o' ->
  slice (splice d o bs) o' n = slice d o' n.
Proof.
  intros Ho Ho' Hd. unfold slice. apply list_eq. intros k.
  destruct (decide (k < Z.to_nat n)%nat) as [Hk|Hk].
  - rewrite !lookup_take_lt, !lookup_drop by lia. unfold splice.
    destruct Hd; [apply list_lookup_inserts_lt; lia|apply list_lookup_inserts_ge; lia].
  - by rewrite !lookup_take_ge by lia.
Qed.

Lemma slice_splice_inside d o bs o' n :
  0 <= o -> o <= o' -> 0 <= n -> o' + n <= o + Z.of_nat (length bs) -> o + Z.of_nat (length bs) <= Z.of_nat (length d) ->
  slice (splice d o bs) o' n = slice bs (o' - o) n.
Proof.
  intros. unfold slice. apply list_eq. intros k.
  destruct (decide (k < Z.to_nat n)%nat) as [Hk|Hk].
  - rewrite !lookup_take_lt, !lookup_drop by lia. unfold splice.
    rewrite list_lookup_inserts by lia. f_equal. lia.
  - by rewrite !lookup_take_ge by lia.
Qed.

Lemma slice_all d : slice d 0 (Z.of_nat (length d)) = d.
Proof. unfold slice. change (Z.to_nat 0) with 0%nat. rewrite drop_0, Nat2Z.id. by apply take_ge. Qed.

Lemma splice_nil d o : splice d o [] = d.
Proof. done. Qed.

Lemma splice_all d bs : length bs = length d -> splice d 0 bs = bs.
Proof.
  intros H. pose proof (slice_splice_same d 0 bs ltac:(lia) ltac:(lia)) as E.
  assert (length bs = length (splice d 0 bs)) as Hl by (by rewrite length_splice).
  rewrite Hl, slice_all in E. done.
Qed.

Section words.
Context (d : list Z) (o v : Z).

Lemma get32_put32 : 0 <= o -> o + 4 <= Z.of_nat (length d) -> get32 (put32 d o v) o = u32 v.
Proof.
  intros. unfold get32, put32. change 4 with (Z.of_nat (length (le_enc 4 v))) at 1.
  rewrite slice_splice_same by (rewrite ?length_le_enc; lia). apply (le_dec_enc 4).
Qed.
Lemma get16_put16 : 0 <= o -> o + 2 <= Z.of_nat (length d) -> get16 (put16 d o v) o = u16 v.
Proof.
  intros. unfold get16, put16. change 2 with (Z.of_nat (length (le_enc 2 v))) at 1.
  rewrite slice_splice_same by (rewrite ?length_le_enc; lia). apply (le_dec_enc 2).
Qed.
Lemma get8_put8 : 0 <= o -> o + 1 <= Z.of_nat (length d) -> get8 (put8 d o v) o = u8 v.
Proof.
  intros. unfold get8, put8. change 1 with (Z.of_nat (length (le_enc 1 v))) at 1.
  rewrite slice_splice_same by (rewrite ?length_le_enc; lia). apply (le_dec_enc 1).
Qed.

Lemma get32_put32_ne o' : 0 <= o -> 0 <= o' -> o' + 4 <= o \/ o + 4 <= o' -> get32 (put32 d o v) o' = get32 d o'.
Proof. intros. unfold get32, put32. rewrite slice_splice_ne; rewrite ?length_le_enc; auto. Qed.
Lemma get16_put16_ne o' : 0 <= o -> 0 <= o' -> o' + 2 <= o \/ o + 2 <= o' -> get16 (put16 d o v) o' = get16 d o'.
Proof. intros. unfold get16, put16. rewrite slice_splice_ne; rewrite ?length_le_enc; auto. Qed.
Lemma get8_put8_ne o' : 0 <= o -> 0 <= o' -> o <> o' -> get8 (put8 d o v) o' = get8 d o'.
Proof. intros. unfold get8, put8. rewrite slice_splice_ne; rewrite ?length_le_enc; lia. Qed.
End words.

Lemma length_put8 d o v : length (put8 d o v) = length d.
Proof. apply length_splice. Qed.
Lemma length_put16 d o v : length (put16 d o v) = length d.
Proof. apply length_splice. Qed.
Lemma length_put32 d o v : length (put32 d o v) = length d.
Proof. apply length_splice. Qed.

Lemma get8_range d o : 0 <= get8 d o < 256.
Proof.
  unfold get8. pose proof (le_dec_range (slice d o 1)). pose proof (length_take (drop (Z.to_nat o) d) 1).
  unfold slice in *. change (Z.to_nat 1) with 1%nat in *. destruct (drop (Z.to_nat o) d); simpl in *; lia.
Qed.

Lemma get32_range d o : 0 <= get32 d o < 2 ^ 32.
Proof.
  unfold get32. pose proof (le_dec_range (slice d o 4)).
  assert (Z.of_nat (length (slice d o 4)) <= 4) by (unfold slice; rewrite length_take; lia).
  assert (2 ^ (8 * Z.of_nat (length (slice d o 4))) <= 2 ^ 32) by (apply Z.pow_le_mono_r; lia). lia.
Qed.

Create HintDb bytes discriminated.
#[export] Hint Rewrite length_le_enc length_splice length_put8 length_put16 length_put32 : bytes.

(** * Files as lists of bytes *)

(** [src] in place of what follows the first [off] bytes, beyond the end if need be. *)
Definition overwrite (l : list Z) (off : Z) (src : list Z) : list Z :=
  take (Z.to_nat off) l ++ src ++ drop (Z.to_nat off + length src) l.

Lemma length_overwrite l off src :
  0 <= off <= Z.of_nat (length l) ->
  Z.of_nat (length (overwrite l off src)) = Z.max (Z.of_nat (length l)) (off + Z.of_nat (length src)).
Proof. intros H. unfold overwrite. rewrite !length_app, length_take, length_drop. lia. Qed.

Lemma lookup_overwrite l off src o :
  0 <= off <= Z.of_nat (length l) -> 0 <= o ->
  overwrite l off src !! Z.to_nat o =
  if (off <=? o) && (o <? off + Z.of_nat (length src)) then src !! Z.to_nat (o - off) else l !! Z.to_nat o.
Proof.
  intros Hoff Ho. unfold overwrite. destruct (Z.leb_spec off o); [destruct (Z.ltb_spec o (off + Z.of_nat (length src)))|]; simpl.
  - rewrite lookup_app_r by (rewrite length_take; lia). rewrite lookup_app_l by (rewrite length_take; lia).
    f_equal. rewrite length_take. lia.
  - rewrite !lookup_app_r by (rewrite ?length_take; lia). rewrite lookup_drop. f_equal. rewrite length_take. lia.
  - rewrite lookup_app_l by (rewrite length_take; lia). apply lookup_take_lt. lia.
Qed.

Lemma overwrite_nil l off : overwrite l off [] = l.
Proof. unfold overwrite. cbn [app length]. rewrite Nat.add_0_r. apply take_drop. Qed.

(** Writing on where the first write ended. *)
Lemma overwrite_app l off a b : 0 <= off <= Z.of_nat (length l) ->
  overwrite (overwrite l off a) (off + Z.of_nat (length a)) b = overwrite l off (a ++ b).
Proof.
  intros Ho. unfold overwrite. replace (Z.to_nat (off + Z.of_nat (length a))) with (Z.to_nat off + length a)%nat by lia.
  assert (length (take (Z.to_nat off) l) = Z.to_nat off) as Hl by (rewrite length_take; lia). rewrite !(app_assoc (take (Z.to_nat off) l) a).
  assert (length (take (Z.to_nat off) l ++ a) = (Z.to_nat off + length a)%nat) as Hla by (rewrite length_app; lia).
  rewrite <- Hla at 1. rewrite take_app_length, drop_app_ge by lia. rewrite Hla, drop_drop, (length_app a b), <- !app_assoc. do 4 f_equal. lia.
Qed.
