(* ===== verification/Crash.v ===== *)
(** Crashes.

    The machine can stop at any point; what survives is the disk.  Between two disk
    writes the file-system code always takes or drops a lock, so every disk state a
    crash can leave is the disk of a state the routine publishes at such a point, or
    the one it returns.  [chl C p Q]: run alone, [p] neither panics nor blocks, every
    state it publishes satisfies the crash condition [C], and it returns in [Q]. *)

From stdpp Require Import base tactics list strings.
From S2P Require Import Prelude.

Fixpoint chl {S A} (C : S -> Prop) (p : prog S A) (Q : A -> S -> Prop) : Prop :=
  match p with
  | Ret a s => Q a s
  | Panic _ | Undef _ | OutOfFuel => False
  | Sync (ESleep _ _) _ _ | Sync ESwtch _ _ => False
  | Sync _ s k => C s /\ chl C (k s) Q
  end.

(** The states a routine run alone publishes. *)
Fixpoint published {S A} (p : prog S A) : list S :=
  match p with
  | Ret _ _ | Panic _ | Undef _ | OutOfFuel => []
  | Sync (ESleep _ _) s _ | Sync ESwtch s _ => [s]
  | Sync _ s k => s :: published (k s)
  end.

(** * Theorems *)

Section chl.
Context {S : Type} (C : S -> Prop).

Lemma chl_run {A} (p : prog S A) (Q : A -> S -> Prop) :
  chl C p Q -> exists a s, run p = ROk a s /\ Q a s.
Proof.
  induction p as [a s| | | |e s k IH]; simpl; try done; [eauto|].
  destruct e; naive_solver.
Qed.

Lemma chl_published {A} (p : prog S A) (Q : A -> S -> Prop) s :
  chl C p Q -> s ∈ published p -> C s.
Proof.
  induction p as [a t| | | |e t k IH]; simpl; try done; [intros _ H; by apply elem_of_nil in H|].
  destruct e; try done; intros [Ht Hk] [->|Hs]%elem_of_cons; eauto.
Qed.

Lemma chl_mono {A} (p : prog S A) (C' : S -> Prop) (Q Q' : A -> S -> Prop) :
  (forall s, C s -> C' s) -> (forall a s, Q a s -> Q' a s) -> chl C p Q -> chl C' p Q'.
Proof.
  intros HC HQ. induction p as [a s| | | |e s k IH]; simpl; try done; [auto|].
  destruct e; naive_solver.
Qed.

Lemma chl_conseq {A} (p : prog S A) (Q Q' : A -> S -> Prop) :
  chl C p Q -> (forall a s, Q a s -> Q' a s) -> chl C p Q'.
Proof. intros Hp HQ. eapply chl_mono; [|done|done]. done. Qed.

Lemma chl_pbind {A B} (p : prog S A) (f : A -> M S B) Q :
  chl C p (fun a s => chl C (f a s) Q) -> chl C (pbind p f) Q.
Proof.
  induction p as [a s| | | |e s k IH]; simpl; try done.
  destruct e; naive_solver.
Qed.

Lemma chl_bind {A B} (m : M S A) (f : A -> M S B) s Q :
  chl C (m s) (fun a s' => chl C (f a s') Q) -> chl C (bind m f s) Q.
Proof. apply chl_pbind. Qed.

Lemma chl_bind_inv {A B} (m : M S A) (f : A -> M S B) s Q :
  chl C (bind m f s) Q -> chl C (m s) (fun a s' => chl C (f a s') Q).
Proof.
  unfold bind. generalize (m s) as p. induction p as [a s'| | | |e s' k IH]; simpl; try done.
  destruct e; naive_solver.
Qed.

(** The next routine has the specification [R]; go on from what it promises. *)
Lemma chl_seq {A B} (m : M S A) (f : A -> M S B) s R Q :
  chl C (m s) R -> (forall a s', R a s' -> chl C (f a s') Q) -> chl C (bind m f s) Q.
Proof. intros Hm Hf. apply chl_bind. eapply chl_conseq; eauto. Qed.

Lemma chl_ret {A} (a : A) s (Q : A -> S -> Prop) : Q a s -> chl C (ret a s) Q.
Proof. done. Qed.
Lemma chl_gets {A} (f : S -> A) s (Q : A -> S -> Prop) : Q (f s) s -> chl C (gets f s) Q.
Proof. done. Qed.
Lemma chl_modify (f : S -> S) s (Q : unit -> S -> Prop) : Q tt (f s) -> chl C (modify f s) Q.
Proof. done. Qed.
Lemma chl_acquire l s (Q : unit -> S -> Prop) : C s -> Q tt s -> chl C (acquire l s) Q.
Proof. done. Qed.
Lemma chl_release l s (Q : unit -> S -> Prop) : C s -> Q tt s -> chl C (release l s) Q.
Proof. done. Qed.
Lemma chl_wakeup c s (Q : unit -> S -> Prop) : C s -> Q tt s -> chl C (wakeup c s) Q.
Proof. done. Qed.
Lemma chl_when (b : bool) (m : M S unit) s (Q : unit -> S -> Prop) :
  (if b then chl C (m s) Q else Q tt s) -> chl C (when b m s) Q.
Proof. by destruct b. Qed.

End chl.

Lemma chl_zoom {T S A} {L : Lens T S} (C : S -> Prop) (m : M S A) (t : T) (Q : A -> S -> Prop) :
  chl C (m (lget t)) Q ->
  chl (fun t => C (lget t)) (zoom m t) (fun a t' => Q a (lget t') /\ t' = lput (lget t') t).
Proof.
  unfold zoom, lift. generalize (m (lget t)) as p. intros p. revert t.
  induction p as [a s| | | |e s k IH]; intros t; simpl; try done.
  - intros HQ. by rewrite !lget_lput.
  - destruct e; simpl; try done; intros [HC Hk]; rewrite !lget_lput; (split; [done|]);
      (eapply chl_conseq; [by apply IH|]); simpl; intros a t' [? ->]; by rewrite lget_lput, lput_lput.
Qed.

(** One operation of a routine. *)
Ltac cstep :=
  lazymatch goal with
  | |- chl _ (bind _ _ _) _ => apply chl_bind
  | |- chl _ (ret _ _) _ => apply chl_ret
  | |- chl _ (gets _ _) _ => apply chl_gets
  | |- chl _ (modify _ _) _ => apply chl_modify
  | |- chl _ (acquire _ _) _ => apply chl_acquire; [try done|]
  | |- chl _ (release _ _) _ => apply chl_release; [try done|]
  | |- chl _ (Prelude.wakeup _ _) _ => apply chl_wakeup; [try done|]
  | |- chl _ (when _ _ _) _ => apply chl_when
  end;
  cbn beta.
