(* ===== verification/Cache.v ===== *)
(** What the buffer cache promises to the log and to the file system.

    [cache] is the abstract state: the blocks on disk, the blocks as readers see
    them, the buffers that are held (by handle), the blocks pinned in memory until the log
    writes them, and the blocks changed in a held buffer but neither written nor
    pinned yet.  [BlockOps] are the calls log.c and fs.c make, [BlockLaws] the
    promises their proofs use; BioFacts.v shows that bio.c keeps them. *)

From stdpp Require Import base tactics option gmap sets strings numbers list.
From Stdlib Require Import ZArith Lia.
From S2P Require Import Prelude Layout Crash.
Open Scope Z_scope.

Abbreviation block := (list Z).

Record cache := mkC {
  dsk : list block;
  view : list block;
  held : gmap nat Z;
  pinned : gset Z;
  touched : gset Z
}.

Definition set_held v c := mkC (dsk c) (view c) v (pinned c) (touched c).

(** A cache with nothing in it. *)
Definition cache_boot (d : list block) : cache := mkC d d ∅ ∅ ∅.

Definition held_blocks (c : cache) : gset Z := map_img (held c).
Definition lookup_view (c : cache) (bn : Z) : option block := zlookup (view c) bn.

(** The abstract operations. *)
Definition c_hold (i : nat) (bn : Z) (c : cache) : cache := set_held (<[i := bn]> (held c)) c.
Definition c_put (bn : Z) (d : block) (c : cache) : cache :=
  mkC (dsk c) (zinsert bn d (view c)) (held c) (pinned c) (touched c ∪ ({[bn]} ∖ pinned c)).
Definition c_write (bn : Z) (d : block) (c : cache) : cache :=
  mkC (zinsert bn d (dsk c)) (view c) (held c) (pinned c ∖ {[bn]}) (touched c ∖ {[bn]}).
Definition c_pin (bn : Z) (c : cache) : cache :=
  mkC (dsk c) (view c) (held c) (pinned c ∪ {[bn]}) (touched c ∖ {[bn]}).
Definition c_drop (i : nat) (c : cache) : cache := set_held (delete i (held c)) c.

Class BlockOps (B : Type) := {
  bread : Z -> Z -> M B nat;
  bwrite : nat -> M B unit;
  brelse : nat -> M B unit;
  (** [b->data], assigning to it, [b->blockno], [b->flags |= B_DIRTY] *)
  bdata : nat -> M B block;
  bset : nat -> block -> M B unit;
  bblockno : nat -> M B Z;
  bpin : nat -> M B unit;
  (** The machine stops: memory is lost, the disk is kept.  Starting again initialises the
      cache and the driver. *)
  powerfail : B -> B;
  boot : M B unit
}.

Class BlockLaws (B : Type) {BO : BlockOps B} := {
  diskof : B -> list block;
  crep : B -> cache -> Prop;
  crep_disk : forall b c, crep b c -> diskof b = dsk c;
  crep_sizes : forall b c, crep b c -> length (view c) = length (dsk c) /\ (forall d, d ∈ view c -> length d = 512%nat);
  (** Unless changed since, what readers see is what is on disk. *)
  crep_clean : forall b c bn, crep b c -> bn ∉ pinned c -> bn ∉ touched c ->
    zlookup (view c) bn = zlookup (dsk c) bn;
  bread_law : forall (P : list block -> Prop) b c bn,
    crep b c -> P (dsk c) -> 0 <= bn < Z.of_nat (length (dsk c)) -> bn ∉ held_blocks c ->
    bn ∈ pinned c \/ Z.of_nat (size (pinned c ∪ held_blocks c)) < NBUF ->
    chl (fun b => P (diskof b)) (bread ROOTDEV bn b)
      (fun i b' => held c !! i = None /\ crep b' (c_hold i bn c));
  bdata_law : forall (P : list block -> Prop) b c i bn d,
    crep b c -> held c !! i = Some bn -> lookup_view c bn = Some d ->
    chl (fun b => P (diskof b)) (bdata i b) (fun r b' => r = d /\ b' = b);
  bblockno_law : forall (P : list block -> Prop) b c i bn,
    crep b c -> held c !! i = Some bn ->
    chl (fun b => P (diskof b)) (bblockno i b) (fun r b' => r = bn /\ b' = b);
  bset_law : forall (P : list block -> Prop) b c i bn d,
    crep b c -> held c !! i = Some bn -> length d = 512%nat ->
    chl (fun b => P (diskof b)) (bset i d b) (fun _ b' => crep b' (c_put bn d c));
  bpin_law : forall (P : list block -> Prop) b c i bn,
    crep b c -> held c !! i = Some bn ->
    chl (fun b => P (diskof b)) (bpin i b) (fun _ b' => crep b' (c_pin bn c));
  bwrite_law : forall (P : list block -> Prop) b c i bn d,
    crep b c -> held c !! i = Some bn -> lookup_view c bn = Some d ->
    P (dsk c) -> P (zinsert bn d (dsk c)) ->
    chl (fun b => P (diskof b)) (bwrite i b) (fun _ b' => crep b' (c_write bn d c));
  brelse_law : forall (P : list block -> Prop) b c i bn,
    crep b c -> held c !! i = Some bn -> bn ∉ touched c -> P (dsk c) ->
    chl (fun b => P (diskof b)) (brelse i b) (fun _ b' => crep b' (c_drop i c));
  boot_law : forall (P : list block -> Prop) b, P (diskof b) ->
    chl (fun b => P (diskof b)) (boot (powerfail b)) (fun _ b' => crep b' (cache_boot (diskof b)))
}.
