(* ===== verification/BioFacts.v ===== *)
(** Correctness of the buffer cache (Bio.v).

    [lru bs order]: the pointers of the buffers [bs] form the list [order] in both
    directions.  The routines are specified on [order] and on the fields of the buffers
    other than the pointers ([pay]); the last part shows that the cache refines the
    abstract block cache of Cache.v. *)

From Stdlib Require Import ZArith Lia.
From stdpp Require Import base tactics option gmap sets strings numbers list.
From S2P Require Import Prelude Layout Bytes Crash Bio.
Open Scope Z_scope.

(** * Lists through pointers *)

(** Following [f] from [i] visits [l] and then reaches [j]. *)
Fixpoint path (f : nat -> nat) (i : nat) (l : list nat) (j : nat) : Prop :=
  match l with
  | [] => f i = j
  | k :: l' => f i = k /\ path f k l' j
  end.

Definition fupd (f : nat -> nat) (a v : nat) : nat -> nat := fun x => if decide (x = a) then v else f x.

Lemma fupd_eq f a v : fupd f a v a = v.
Proof. unfold fupd. by rewrite decide_True. Qed.
Lemma fupd_ne f a v x : x <> a -> fupd f a v x = f x.
Proof. intros. unfold fupd. by rewrite decide_False. Qed.

Lemma path_ext f g i l j : (forall x, x ∈ i :: l -> f x = g x) -> path f i l j -> path g i l j.
Proof.
  revert i. induction l as [|k l IH]; intros i E; simpl.
  - rewrite E; [done|by left].
  - intros [<- Hp]. split; [symmetry; apply E; by left|]. apply IH; [|done].
    intros x Hx. apply E. by right.
Qed.

Lemma path_app f i l1 k l2 j : path f i (l1 ++ k :: l2) j <-> path f i l1 k /\ path f k l2 j.
Proof. revert i. induction l1 as [|a l1 IH]; intros i; simpl; [done|]. rewrite IH. tauto. Qed.

Lemma path_first f i l j : path f i l j -> f i = default j (head l).
Proof. by destruct l; simpl; [|intros [??]]. Qed.

Lemma path_range f h l j n :
  path f h l j -> (forall x, x ∈ l -> (x <= n)%nat) -> (j <= n)%nat -> forall i, i ∈ h :: l -> (f i <= n)%nat.
Proof.
  revert h. induction l as [|k l IH]; intros h Hp Hb Hj i Hi; simpl in Hp.
  - apply list_elem_of_singleton in Hi as ->. by rewrite Hp.
  - destruct Hp as [Hk Hp]. apply elem_of_cons in Hi as [->|Hi].
    + rewrite Hk. apply Hb. by left.
    + apply IH with k; [done| |done|done]. intros. apply Hb. by right.
Qed.

Lemma path_fupd f i l j a v : a ∉ i :: l -> path f i l j -> path (fupd f a v) i l j.
Proof. intros Ha. apply path_ext. intros x Hx. rewrite fupd_ne; [done|]. by intros ->. Qed.

(** Redirecting the last pointer. *)
Lemma path_retarget f i l j j' :
  NoDup (i :: l) -> path f i l j -> path (fupd f (default i (last l)) j') i l j'.
Proof.
  revert i. induction l as [|k l IH]; intros i Hnd; simpl.
  - intros _. apply fupd_eq.
  - intros [Hk Hp]. apply list.NoDup_cons in Hnd as [Hi Hnd].
    assert (default i (last (k :: l)) = default k (last l)) as ->.
    { destruct (last l) as [z|] eqn:E.
      - by rewrite last_cons, E.
      - by rewrite last_cons, E. }
    split; [|by apply IH].
    rewrite fupd_ne; [done|]. intros ->. apply Hi. destruct (last l) as [z|] eqn:E; simpl; [|by left].
    right. by eapply last_Some_elem_of.
Qed.

(** Taking [b] out: its predecessor gets its successor. *)
Lemma path_unlink f i l1 b l2 j :
  NoDup (i :: l1 ++ b :: l2) -> path f i (l1 ++ b :: l2) j ->
  path (fupd f (default i (last l1)) (f b)) i (l1 ++ l2) j.
Proof.
  intros Hnd (H1 & H2)%path_app.
  assert (NoDup (i :: l1)) as Hnd1.
  { change (i :: l1 ++ b :: l2) with ((i :: l1) ++ b :: l2) in Hnd. by apply NoDup_app in Hnd as (? & _ & _). }
  assert (default i (last l1) ∈ i :: l1) as Hl.
  { destruct (last l1) as [z|] eqn:E; simpl; [right; by eapply last_Some_elem_of|by left]. }
  assert (default i (last l1) ∉ b :: l2) as Hl2.
  { change (i :: l1 ++ b :: l2) with ((i :: l1) ++ b :: l2) in Hnd. apply NoDup_app in Hnd as (_ & Hd & _). auto. }
  destruct l2 as [|c l2].
  - rewrite app_nil_r. simpl in H2. rewrite H2. by apply path_retarget with b.
  - destruct H2 as [Hc H2]. apply path_app. rewrite Hc. split; [by apply path_retarget with b|].
    apply path_fupd; [|done]. intros ?. apply Hl2. by right.
Qed.

(** Adding [b] at the front, in the direction of the pointers and against it. *)
Lemma path_push_front f i l j b :
  b ∉ i :: l -> i ∉ l -> path f i l j -> path (fupd (fupd f b (f i)) i b) i (b :: l) j.
Proof.
  intros Hb Hi Hp. simpl. split; [apply fupd_eq|].
  assert (b <> i) by (intros ->; apply Hb; by left).
  destruct l as [|c l]; simpl in *.
  - rewrite fupd_ne, fupd_eq by done. done.
  - destruct Hp as [Hc Hp]. rewrite fupd_ne, fupd_eq by done. split; [done|].
    apply path_fupd; [done|]. apply path_fupd; [|done]. intros ?. apply Hb. by right.
Qed.

Lemma path_push_back f i l j b :
  b ∉ i :: l -> NoDup (i :: l) -> path f i l j ->
  path (fupd (fupd f b j) (default i (last l)) b) i (l ++ [b]) j.
Proof.
  intros Hb Hnd Hp. apply path_app. split.
  - apply path_retarget with j; [done|]. by apply path_fupd.
  - simpl. rewrite fupd_ne, fupd_eq; [done|]. intros ->. apply Hb.
    destruct (last l) as [z|] eqn:E; simpl; [right; by eapply last_Some_elem_of|by left].
Qed.

(** * The MRU list *)

Definition nx (bs : list buf) (i : nat) : nat := match bs !! i with Some b => next b | None => 0%nat end.
Definition pv (bs : list buf) (i : nat) : nat := match bs !! i with Some b => prev b | None => 0%nat end.

(** What a buffer holds, pointers left out. *)
Definition payload (b : buf) : Z * Z * Z * list Z := (flags b, dev b, blockno b, data b).
Definition pay (bs : list buf) := payload <$> bs.

Record linked (bs : list buf) (order : list nat) : Prop := {
  linked_next : path (nx bs) bhead order bhead;
  linked_prev : path (pv bs) bhead (reverse order) bhead;
  linked_nodup : NoDup order;
  linked_bufs : forall i, i ∈ order -> (i < NBUFn)%nat;
  linked_len : length bs = S NBUFn
}.

Record lru (bs : list buf) (order : list nat) : Prop := {
  lru_linked : linked bs order;
  lru_all : forall i, (i < NBUFn)%nat -> i ∈ order
}.

Section updates.
Context (bs : list buf).

Lemma nx_set_next j v i : (j < length bs)%nat -> nx (alter (set_next v) j bs) i = fupd (nx bs) j v i.
Proof.
  intros Hj. unfold nx, fupd. destruct (decide (i = j)) as [->|].
  - rewrite list_lookup_alter_eq. destruct (lookup_lt_is_Some_2 bs j Hj) as [b ->]. done.
  - by rewrite list_lookup_alter_ne.
Qed.
Lemma pv_set_prev j v i : (j < length bs)%nat -> pv (alter (set_prev v) j bs) i = fupd (pv bs) j v i.
Proof.
  intros Hj. unfold pv, fupd. destruct (decide (i = j)) as [->|].
  - rewrite list_lookup_alter_eq. destruct (lookup_lt_is_Some_2 bs j Hj) as [b ->]. done.
  - by rewrite list_lookup_alter_ne.
Qed.
Lemma nx_alter f j i : (forall b, next (f b) = next b) -> nx (alter f j bs) i = nx bs i.
Proof.
  intros Hf. unfold nx. destruct (decide (i = j)) as [->|].
  - rewrite list_lookup_alter_eq. by destruct (bs !! j); simpl.
  - by rewrite list_lookup_alter_ne.
Qed.
Lemma pv_alter f j i : (forall b, prev (f b) = prev b) -> pv (alter f j bs) i = pv bs i.
Proof.
  intros Hf. unfold pv. destruct (decide (i = j)) as [->|].
  - rewrite list_lookup_alter_eq. by destruct (bs !! j); simpl.
  - by rewrite list_lookup_alter_ne.
Qed.
Lemma pay_alter f j : (forall b, payload (f b) = payload b) -> pay (alter f j bs) = pay bs.
Proof.
  intros Hf. unfold pay. apply list_eq. intros i. rewrite !list_lookup_fmap.
  destruct (decide (i = j)) as [->|].
  - rewrite list_lookup_alter_eq. destruct (bs !! j); simpl; [by rewrite Hf|done].
  - by rewrite list_lookup_alter_ne.
Qed.
End updates.

Lemma pay_alter_eq bs bs' f j :
  (forall b b', payload b = payload b' -> payload (f b) = payload (f b')) ->
  pay bs = pay bs' -> pay (alter f j bs) = pay (alter f j bs').
Proof.
  intros Hf E. unfold pay in *. apply list_eq. intros i. rewrite !list_lookup_fmap.
  assert ((payload <$> bs !! i) = payload <$> bs' !! i) as Ei by (by rewrite <- !list_lookup_fmap, E).
  destruct (decide (j = i)) as [->|]; [|by rewrite !list_lookup_alter_ne].
  rewrite !list_lookup_alter_eq. destruct (bs !! i) as [x|], (bs' !! i) as [y|]; try done.
  cbn in Ei |- *. f_equal. apply Hf. by apply (inj Some).
Qed.

(** Changing anything but the pointers keeps the list. *)
Lemma linked_alter bs order f j :
  (forall b, next (f b) = next b) -> (forall b, prev (f b) = prev b) ->
  linked bs order -> linked (alter f j bs) order.
Proof.
  intros Hn Hp [H1 H2 H3 H4 H5]. split; [| |done|done|by rewrite length_alter].
  - eapply path_ext; [|apply H1]. intros. by rewrite nx_alter.
  - eapply path_ext; [|apply H2]. intros. by rewrite pv_alter.
Qed.

(** * The routines on the list *)

Section routines.
Context {D : Type} (C : bstate D -> Prop).

Lemma chl_get_buf i s b (Q : buf -> bstate D -> Prop) :
  bufs s !! i = Some b -> Q b s -> chl C (get_buf i s) Q.
Proof. unfold get_buf. by intros ->. Qed.

Lemma chl_upd_buf i f bs d (Q : unit -> bstate D -> Prop) :
  Q tt (mkB (alter f i bs) d) -> chl C (upd_buf i f (mkB bs d)) Q.
Proof. done. Qed.

Lemma nx_lookup bs i b : bs !! i = Some b -> nx bs i = next b.
Proof. unfold nx. by intros ->. Qed.
Lemma pv_lookup bs i b : bs !! i = Some b -> pv bs i = prev b.
Proof. unfold pv. by intros ->. Qed.

Lemma linked_lookup bs order i : linked bs order -> (i <= NBUFn)%nat -> exists b, bs !! i = Some b.
Proof. intros L Hi. apply lookup_lt_is_Some. rewrite (linked_len _ _ L). lia. Qed.

Lemma linked_head bs order : linked bs order -> bhead ∉ order.
Proof. intros L Hi%(linked_bufs _ _ L). unfold bhead in Hi. lia. Qed.

Lemma linked_next_le bs order i : linked bs order -> i ∈ bhead :: order -> (nx bs i <= NBUFn)%nat.
Proof.
  intros L Hi. eapply path_range; [apply L| |done|done].
  intros x Hx%(linked_bufs _ _ L). lia.
Qed.

(** [f] leaves the pointers alone and does not look at them. *)
Definition keeps_ptrs (f : buf -> buf) : Prop :=
  (forall b, next (f b) = next b) /\ (forall b, prev (f b) = prev b) /\
  (forall b b', payload b = payload b' -> payload (f b) = payload (f b')).

Lemma linked_push bs order i f n :
  linked bs order -> (i < NBUFn)%nat -> i ∉ order -> keeps_ptrs f -> n = nx bs bhead ->
  linked (alter (set_next i) bhead (alter (set_prev i) n (alter f i
    (alter (set_prev bhead) i (alter (set_next n) i bs))))) (i :: order).
Proof.
  intros L Hi Hni (Hfn & Hfp & _) ->. assert (bhead ∉ order) as Hh by (by eapply linked_head).
  pose proof (linked_next_le _ _ bhead L ltac:(by left)) as Hle.
  assert (i <> bhead) as Hib by (unfold bhead; lia).
  assert (i ∉ bhead :: order) as Hib2 by (intros [->|?]%elem_of_cons; done).
  split.
  - eapply path_ext; [|apply (path_push_front (nx bs) bhead order bhead i); [done|done|apply L]].
    intros x _. rewrite nx_set_next by (rewrite !length_alter, (linked_len _ _ L); unfold bhead; lia).
    unfold fupd. destruct (decide (x = bhead)) as [|]; [done|].
    rewrite !nx_alter by done. rewrite nx_set_next by (rewrite (linked_len _ _ L); lia). done.
  - rewrite reverse_cons. eapply path_ext; [|apply (path_push_back (pv bs) bhead (reverse order) bhead i);
      [by rewrite elem_of_cons, elem_of_reverse, <- elem_of_cons| |apply L]].
    2:{ apply list.NoDup_cons. rewrite elem_of_reverse. split; [done|]. rewrite reverse_Permutation. apply L. }
    intros x _.
    rewrite pv_alter by done. rewrite pv_set_prev by (rewrite !length_alter, (linked_len _ _ L); lia).
    rewrite last_reverse, <- (path_first _ _ _ _ (linked_next _ _ L)).
    unfold fupd. destruct (decide (x = nx bs bhead)); [done|].
    rewrite pv_alter by done. rewrite pv_set_prev by (rewrite length_alter, (linked_len _ _ L); lia).
    unfold fupd. destruct (decide (x = i)); [done|]. by rewrite pv_alter.
  - apply list.NoDup_cons. split; [done|apply L].
  - intros x [->|Hx]%elem_of_cons; [done|by apply L].
  - rewrite !length_alter. apply L.
Qed.

Lemma linked_around bs l1 i l2 :
  linked bs (l1 ++ i :: l2) -> nx bs i = default bhead (head l2) /\ pv bs i = default bhead (last l1).
Proof.
  intros L. split.
  - pose proof (linked_next _ _ L) as (_ & Hp)%path_app. by apply path_first in Hp.
  - pose proof (linked_prev _ _ L) as Hp. rewrite reverse_app, reverse_cons, <- app_assoc in Hp.
    apply path_app in Hp as (_ & Hp). apply path_first in Hp. rewrite Hp, head_reverse. done.
Qed.

Lemma linked_next_ne bs l1 i l2 : linked bs (l1 ++ i :: l2) -> nx bs i <> i.
Proof.
  intros L. destruct (linked_around _ _ _ _ L) as [-> _]. destruct l2 as [|k l2]; simpl.
  - pose proof (linked_head _ _ L) as Hh. intros E. apply Hh. rewrite E. set_solver.
  - pose proof (linked_nodup _ _ L) as (_ & _ & [Hn _]%list.NoDup_cons)%NoDup_app.
    intros ->. apply Hn. by left.
Qed.

Lemma linked_unlink bs l1 i l2 :
  linked bs (l1 ++ i :: l2) ->
  linked (alter (set_next (nx bs i)) (pv bs i) (alter (set_prev (pv bs i)) (nx bs i) bs)) (l1 ++ l2).
Proof.
  intros L. assert (NoDup (bhead :: l1 ++ i :: l2)) as Hnd.
  { apply list.NoDup_cons. split; [by eapply linked_head|apply L]. }
  destruct (linked_around _ _ _ _ L) as [En Ep].
  assert (nx bs i <= NBUFn)%nat as Hn.
  { apply (linked_next_le _ _ _ L). set_solver. }
  assert (pv bs i <= NBUFn)%nat as Hp.
  { eapply path_range; [apply (linked_prev _ _ L)| |done|set_solver].
    intros x Hx%elem_of_reverse%(linked_bufs _ _ L). lia. }
  split.
  - eapply path_ext; [|apply (path_unlink (nx bs) bhead l1 i l2 bhead Hnd), L].
    intros x _. rewrite nx_set_next by (rewrite length_alter, (linked_len _ _ L); lia).
    rewrite <- Ep. unfold fupd. destruct (decide _); [done|]. by rewrite nx_alter.
  - rewrite reverse_app. pose proof (linked_prev _ _ L) as Hpv.
    rewrite reverse_app, reverse_cons, <- app_assoc in Hpv. simpl in Hpv.
    eapply path_ext; [|apply (path_unlink (pv bs) bhead (reverse l2) i (reverse l1) bhead); [|exact Hpv]].
    + intros x _. rewrite pv_alter by done. rewrite pv_set_prev by (rewrite (linked_len _ _ L); lia).
      by rewrite last_reverse, <- En.
    + change (i :: reverse l1) with ([i] ++ reverse l1). rewrite app_assoc, <- reverse_cons, <- reverse_app.
      apply list.NoDup_cons. rewrite elem_of_reverse, reverse_Permutation. by apply list.NoDup_cons in Hnd.
  - pose proof (linked_nodup _ _ L) as H. eapply sublist_NoDup; [exact H|].
    apply sublist_app; [done|]. by apply sublist_cons.
  - intros x Hx. apply L. set_solver.
  - rewrite !length_alter. apply L.
Qed.

Lemma link_front_spec bs d order i f :
  linked bs order -> (i < NBUFn)%nat -> i ∉ order -> keeps_ptrs f ->
  chl C (link_front i f (mkB bs d)) (fun _ s' => exists bs',
    s' = mkB bs' d /\ linked bs' (i :: order) /\ pay bs' = pay (alter f i bs)).
Proof.
  intros L Hi Hni Hf. unfold link_front.
  destruct (linked_lookup _ _ bhead L ltac:(done)) as [h Hh].
  cstep. apply (chl_get_buf _ _ h); [done|]. do 3 (cstep; apply chl_upd_buf).
  assert (i <> bhead) by (unfold bhead; lia).
  cstep. apply (chl_get_buf _ _ h); [cbn [bufs]; by rewrite !list_lookup_alter_ne|].
  cstep; apply chl_upd_buf. apply chl_upd_buf. eexists. split; [done|]. split.
  - apply linked_push; [done|done|done|done|]. by rewrite (nx_lookup _ _ h).
  - rewrite !pay_alter by done. unfold pay. apply list_eq. intros j. rewrite !list_lookup_fmap.
    destruct (decide (i = j)) as [<-|]; [|by rewrite !list_lookup_alter_ne].
    rewrite !list_lookup_alter_eq. destruct (bs !! i) as [b|]; [|done]. cbn [fmap option_fmap option_map].
    f_equal. by apply Hf.
Qed.

(** The scan returns the first buffer of the list that satisfies the condition. *)
Definition sel (cond : buf -> bool) (bs : list buf) (i : nat) : bool :=
  match bs !! i with Some b => cond b | None => false end.

Lemma scan_spec cond step f bs d l h fuel :
  (forall i b, bs !! i = Some b -> step b = f i) ->
  path f h l bhead -> (forall i, i ∈ l -> (i < NBUFn)%nat) -> length bs = S NBUFn -> (length l <= fuel)%nat ->
  chl C (scan fuel cond step (f h) (mkB bs d)) (fun r s' => r = List.find (sel cond bs) l /\ s' = mkB bs d).
Proof.
  intros Hstep. revert h fuel. induction l as [|i l IH]; intros h fuel Hp Hb Hlen Hf; simpl in Hp.
  - rewrite Hp. destruct fuel; cbn [scan]; by rewrite bool_decide_true.
  - destruct Hp as [-> Hp]. destruct fuel as [|fuel]; [simpl in Hf; lia|]. cbn [scan].
    assert (i < NBUFn)%nat as Hi by (apply Hb; by left). rewrite bool_decide_false by (unfold bhead; lia).
    destruct (lookup_lt_is_Some_2 bs i ltac:(lia)) as [b Hbi].
    cstep. apply (chl_get_buf _ _ b); [done|]. cbn [List.find]. unfold sel at 1. rewrite Hbi.
    destruct (cond b); [done|]. rewrite (Hstep i b Hbi). apply IH; [done| |done|simpl in Hf; lia].
    intros j Hj. apply Hb. by right.
Qed.

Lemma linked_length bs order : linked bs order -> (length order <= NBUFn)%nat.
Proof.
  intros L. rewrite <- (length_seq NBUFn 0). apply submseteq_length, NoDup_submseteq; [apply L|].
  intros i Hi%(linked_bufs _ _ L). apply elem_of_seq. lia.
Qed.

Lemma scan_next_spec cond bs d order h :
  linked bs order -> bs !! bhead = Some h ->
  chl C (scan NBUFn cond next (next h) (mkB bs d)) (fun r s' => r = List.find (sel cond bs) order /\ s' = mkB bs d).
Proof.
  intros L Hh. rewrite <- (nx_lookup _ _ _ Hh). apply (scan_spec cond next (nx bs) bs d order bhead);
    [|apply L|apply L|apply L|apply (linked_length _ _ L)].
  intros i b Hb. by rewrite (nx_lookup _ _ b).
Qed.

Lemma scan_prev_spec cond bs d order h :
  linked bs order -> bs !! bhead = Some h ->
  chl C (scan NBUFn cond prev (prev h) (mkB bs d))
    (fun r s' => r = List.find (sel cond bs) (reverse order) /\ s' = mkB bs d).
Proof.
  intros L Hh. rewrite <- (pv_lookup _ _ _ Hh). apply (scan_spec cond prev (pv bs) bs d (reverse order) bhead);
    [|apply L| |apply L|rewrite length_reverse; apply (linked_length _ _ L)].
  - intros i b Hb. by rewrite (pv_lookup _ _ b).
  - intros i Hi. rewrite elem_of_reverse in Hi. by apply (linked_bufs _ _ L).
Qed.

Lemma bget_hit fuel dv bn bs d order i b :
  linked bs order -> List.find (sel (is_block dv bn) bs) order = Some i ->
  bs !! i = Some b -> has B_BUSY b = false ->
  C (mkB bs d) -> C (mkB (alter (set_flag B_BUSY) i bs) d) ->
  chl C (bget (S fuel) dv bn (mkB bs d))
    (fun r s' => r = i /\ s' = mkB (alter (set_flag B_BUSY) i bs) d).
Proof.
  intros L Hf Hb Hbusy HC HC'. destruct (linked_lookup _ _ bhead L ltac:(done)) as [h Hh].
  unfold bget. do 2 cstep. cbn [bget_loop]. cstep. apply (chl_get_buf _ _ h); [done|].
  eapply chl_seq; [by apply scan_next_spec with (order := order)|]. intros r s' [-> ->]. rewrite Hf.
  cstep. apply (chl_get_buf _ _ b); [done|]. rewrite Hbusy. cbn [negb].
  cstep. apply chl_upd_buf. do 2 cstep. by cstep.
Qed.

Lemma bget_miss fuel dv bn bs d order i :
  let bs' := alter (fun b => set_flags B_BUSY (set_blockno bn (set_dev dv b))) i bs in
  linked bs order -> List.find (sel (is_block dv bn) bs) order = None ->
  List.find (sel recyclable bs) (reverse order) = Some i ->
  C (mkB bs d) -> C (mkB bs' d) ->
  chl C (bget (S fuel) dv bn (mkB bs d)) (fun r s' => r = i /\ s' = mkB bs' d).
Proof.
  intros bs' L Hf Hr HC HC'. destruct (linked_lookup _ _ bhead L ltac:(done)) as [h Hh].
  unfold bget. do 2 cstep. cbn [bget_loop]. cstep. apply (chl_get_buf _ _ h); [done|].
  eapply chl_seq; [by apply scan_next_spec with (order := order)|]. intros r s' [-> ->]. rewrite Hf.
  cstep. apply (chl_get_buf _ _ h); [done|].
  eapply chl_seq; [by apply scan_prev_spec with (order := order)|]. intros r s' [-> ->]. rewrite Hr.
  cstep. apply chl_upd_buf. do 2 cstep. by cstep.
Qed.

Lemma brelse_spec bs d l1 i l2 b :
  (forall bs, C (mkB bs d)) ->
  linked bs (l1 ++ i :: l2) -> bs !! i = Some b -> has B_BUSY b = true ->
  chl C (brelse i (mkB bs d)) (fun _ s' => exists bs',
    s' = mkB bs' d /\ linked bs' (i :: l1 ++ l2) /\ pay bs' = pay (alter (clear_flag B_BUSY) i bs)).
Proof.
  intros HC L Hb Hbusy. unfold brelse. cstep. apply (chl_get_buf _ _ b); [done|]. rewrite Hbusy. cbn [negb].
  do 2 cstep. cstep. apply (chl_get_buf _ _ b); [done|].
  assert (next b <> i) as Hne.
  { rewrite <- (nx_lookup _ _ _ Hb). by eapply linked_next_ne. }
  cstep. apply chl_upd_buf.
  cstep. apply (chl_get_buf _ _ b); [cbn [bufs]; by rewrite list_lookup_alter_ne|].
  cstep. apply chl_upd_buf.
  pose proof (linked_unlink _ _ _ _ L) as L'. rewrite (nx_lookup _ _ _ Hb), (pv_lookup _ _ _ Hb) in L'.
  assert (i ∉ l1 ++ l2) as Hni.
  { pose proof (linked_nodup _ _ L) as Hnd. rewrite <- Permutation_middle in Hnd. by apply list.NoDup_cons in Hnd as [? _]. }
  assert (i < NBUFn)%nat as Hi by (apply (linked_bufs _ _ L); set_solver).
  eapply chl_seq; [apply link_front_spec; [exact L'|done|done|done]|].
  intros [] s' (bs' & -> & Hl & Hpay). cstep. apply chl_upd_buf. do 2 cstep. cstep.
  eexists. split; [done|]. split; [by apply linked_alter|].
  apply pay_alter_eq; [by intros b1 b2 [= E1 E2 E3 E4]; unfold payload; simpl; congruence|].
  rewrite Hpay. by rewrite !pay_alter.
Qed.

Lemma pay_lookup bs bs' j : pay bs = pay bs' -> (payload <$> bs !! j) = payload <$> bs' !! j.
Proof. intros E. unfold pay in E. by rewrite <- !list_lookup_fmap, E. Qed.

Lemma link_all_spec l bs d order m :
  linked bs order -> NoDup l -> (forall i, i ∈ l -> (i < NBUFn)%nat /\ i ∉ order) ->
  chl C (for_each l (fun i => link_front i (set_dev m)) (mkB bs d)) (fun _ s' => exists bs',
    s' = mkB bs' d /\ linked bs' (reverse l ++ order) /\
    forall j, (payload <$> bs' !! j) = payload <$> ((if decide (j ∈ l) then set_dev m else id) <$> bs !! j)).
Proof.
  revert bs order. induction l as [|i l IH]; intros bs order L Hnd Hl; cbn [for_each].
  { cstep. exists bs. split; [done|]. split; [done|]. intros j. rewrite decide_False by apply not_elem_of_nil.
    by rewrite option_fmap_id. }
  apply list.NoDup_cons in Hnd as [Hi Hnd]. destruct (Hl i ltac:(by left)) as [Hlt Hno].
  eapply chl_seq; [apply link_front_spec; [done|done|done|]|].
  { split_and!; [done|done|]. intros b b' [= E1 E2 E3 E4]. unfold payload; simpl; congruence. }
  intros [] s' (bs1 & -> & L1 & P1). eapply chl_conseq; [apply (IH bs1 (i :: order)); [done|done|]|].
  { intros x Hx. destruct (Hl x ltac:(by right)). split; [done|]. rewrite elem_of_cons. intros [->|?]; done. }
  intros [] s' (bs2 & -> & L2 & P2). exists bs2. split; [done|]. split.
  { by rewrite reverse_cons, <- app_assoc. }
  intros j. rewrite P2. pose proof (pay_lookup _ _ j P1) as Pj.
  destruct (decide (i = j)) as [->|Hne].
  - rewrite decide_False, decide_True by (by try left). rewrite option_fmap_id, Pj. by rewrite list_lookup_alter_eq.
  - rewrite list_lookup_alter_ne in Pj by done.
    assert (j ∈ i :: l <-> j ∈ l) as Hj by (rewrite elem_of_cons; naive_solver).
    destruct (decide (j ∈ l)), (decide (j ∈ i :: l)); try tauto; [|by rewrite !option_fmap_id].
    destruct (bs1 !! j) as [x|], (bs !! j) as [y|]; try done. cbn in Pj |- *.
    apply (inj Some) in Pj. injection Pj as E1 E2 E3 E4. unfold payload; cbn. congruence.
Qed.

Lemma binit_spec bs d :
  length bs = S NBUFn ->
  chl C (binit (mkB bs d)) (fun _ s' => exists bs',
    s' = mkB bs' d /\ lru bs' (reverse (seq 0 NBUFn)) /\
    forall j, (j < NBUFn)%nat -> (payload <$> bs' !! j) = payload <$> (set_dev (u32 (-1)) <$> bs !! j)).
Proof.
  intros Hlen. unfold binit. do 2 (cstep; apply chl_upd_buf).
  eapply chl_conseq; [apply (link_all_spec _ _ _ []); [|apply NoDup_seq|]|].
  - assert (bhead < length bs)%nat by (unfold bhead; lia).
    split; [| |by apply NoDup_nil_2|intros i Hi; by apply not_elem_of_nil in Hi|by rewrite !length_alter]; simpl.
    + rewrite nx_set_next by (by rewrite length_alter). apply fupd_eq.
    + rewrite pv_alter, pv_set_prev by done. apply fupd_eq.
  - intros i Hi%elem_of_seq. split; [lia|apply not_elem_of_nil].
  - intros [] s' (bs' & -> & L & P). rewrite app_nil_r in L. exists bs'. split; [done|]. split.
    + split; [done|]. intros i Hi. rewrite elem_of_reverse, elem_of_seq. lia.
    + intros j Hj. rewrite P, decide_True by (rewrite elem_of_seq; lia).
      rewrite !list_lookup_alter_ne by (unfold bhead; lia). done.
Qed.

End routines.

(** * The cache as an LRU list *)

Section lru_claims.
Context {D : Type}.

Lemma run_scan cond step f bs (d : D) l h fuel (k : option nat -> M (bstate D) nat) :
  (forall i b, bs !! i = Some b -> step b = f i) ->
  path f h l bhead -> (forall i, i ∈ l -> (i < NBUFn)%nat) -> length bs = S NBUFn -> (length l <= fuel)%nat ->
  run (bind (scan fuel cond step (f h)) k (mkB bs d)) = run (k (List.find (sel cond bs) l) (mkB bs d)).
Proof.
  intros H1 H2 H3 H4 H5. rewrite run_bind.
  pose proof (scan_spec (fun _ => True) cond step f bs d l h fuel H1 H2 H3 H4 H5) as (r & s' & -> & -> & ->)%chl_run. done.
Qed.

(** What [bget] does, by the two searches through the list. *)
Lemma bget_run bs order (d : D) dv bn fuel :
  lru bs order ->
  run (bget (S fuel) dv bn (mkB bs d)) =
    match List.find (sel (is_block dv bn) bs) order with
    | Some i =>
        if sel (has B_BUSY) bs i then RBlocked (CH_buf (Z.of_nat i)) (mkB bs d)
        else ROk i (mkB (alter (set_flag B_BUSY) i bs) d)
    | None =>
        match List.find (sel recyclable bs) (reverse order) with
        | Some i => ROk i (mkB (alter (fun b => set_flags B_BUSY (set_blockno bn (set_dev dv b))) i bs) d)
        | None => RPanic "bget: no buffers"
        end
    end.
Proof.
  intros L. pose proof (lru_linked _ _ L) as LL. destruct (linked_lookup _ _ bhead LL ltac:(done)) as [h Hh].
  assert (run (get_buf bhead (mkB bs d)) = ROk h (mkB bs d)) as Hget by (unfold get_buf; cbn [bufs]; by rewrite Hh).
  unfold bget. mrun. cbn [bget_loop]. rewrite run_bind, Hget. cbn [rbind].
  rewrite <- (nx_lookup _ _ _ Hh), (run_scan _ next (nx bs) _ _ order bhead);
    [|intros i b Hb; by rewrite (nx_lookup _ _ b)|apply LL|apply LL|apply LL|apply (linked_length _ _ LL)].
  destruct (List.find (sel (is_block dv bn) bs) order) as [i|] eqn:F.
  - apply List.find_some in F as [_ F]. unfold sel in F |- *. destruct (bs !! i) as [b|] eqn:Hb; [|done].
    rewrite run_bind. unfold get_buf at 1. cbn [bufs]. rewrite Hb. cbn [run rbind].
    destruct (has B_BUSY b); cbn [negb]; by mrun.
  - rewrite run_bind, Hget. cbn [rbind].
    rewrite <- (pv_lookup _ _ _ Hh), (run_scan _ prev (pv bs) _ _ (reverse order) bhead);
      [|intros i b Hb; by rewrite (pv_lookup _ _ b)|apply LL|intros i Hi; rewrite elem_of_reverse in Hi; by apply LL|apply LL|
       rewrite length_reverse; apply (linked_length _ _ LL)].
    destruct (List.find _ (reverse order)); [|done]. by mrun.
Qed.

(** Buffer [i] is that of block [bn] of device [dv]. *)
Definition caches (bs : list buf) (i : nat) (dv bn : Z) : Prop :=
  exists b, bs !! i = Some b /\ dev b = dv /\ blockno b = bn.

(** All buffers are in the list, and no block has two.  A buffer that was never used is on device -1. *)
Record cache_ok (bs : list buf) (order : list nat) : Prop := {
  co_lru : lru bs order;
  co_one : forall i j dv bn, (i < NBUFn)%nat -> (j < NBUFn)%nat -> dv <> u32 (-1) -> caches bs i dv bn -> caches bs j dv bn -> i = j
}.

(** A buffer in use: held by a process, or waiting in a log that is not committed. *)
Definition in_use (bs : list buf) (i : nat) : Prop := exists b, bs !! i = Some b /\ (has B_BUSY b = true \/ has B_DIRTY b = true).

Section cache.
Context (bs : list buf) (order : list nat) (OK : cache_ok bs order).

Lemma order_lookup i : i ∈ order -> (i < NBUFn)%nat /\ exists b, bs !! i = Some b.
Proof.
  intros Hi. pose proof (lru_linked _ _ (co_lru _ _ OK)) as LL. pose proof (linked_bufs _ _ LL i Hi). split; [done|].
  apply (linked_lookup bs order); [done|lia].
Qed.
Lemma find_hit i dv bn : (i < NBUFn)%nat -> dv <> u32 (-1) -> caches bs i dv bn -> List.find (sel (is_block dv bn) bs) order = Some i.
Proof.
  intros Hi Hdv Hc. assert (forall j, sel (is_block dv bn) bs j = true -> caches bs j dv bn) as Hs.
  { intros j. unfold sel, is_block. destruct (bs !! j) as [b|] eqn:Hb; [|done]. intros [E1%Z.eqb_eq E2%Z.eqb_eq]%andb_true_iff. by exists b. }
  destruct (List.find _ order) as [j|] eqn:F.
  - apply List.find_some in F as [Hj%list_elem_of_In Hsj]. f_equal. destruct (order_lookup j Hj) as [Hlt _].
    apply (co_one _ _ OK j i dv bn); auto.
  - pose proof (lru_all _ _ (co_lru _ _ OK) i Hi) as Hin%list_elem_of_In. pose proof (List.find_none _ _ F i Hin) as Hn.
    destruct Hc as (b & Hb & <- & <-). unfold sel, is_block in Hn. by rewrite Hb, !Z.eqb_refl in Hn.
Qed.
Lemma find_miss dv bn : (forall i, (i < NBUFn)%nat -> ~ caches bs i dv bn) -> List.find (sel (is_block dv bn) bs) order = None.
Proof.
  intros Hno. destruct (List.find _ order) as [j|] eqn:F; [|done]. apply List.find_some in F as [Hj%list_elem_of_In Hs].
  destruct (order_lookup j Hj) as [Hlt _]. destruct (Hno j Hlt). unfold sel, is_block in Hs. destruct (bs !! j) as [b|] eqn:Hb; [|done].
  apply andb_true_iff in Hs as [E1%Z.eqb_eq E2%Z.eqb_eq]. by exists b.
Qed.
Lemma not_recyclable_used i : i ∈ order -> sel recyclable bs i = false <-> in_use bs i.
Proof.
  intros Hi. destruct (order_lookup i Hi) as [_ [b Hb]]. unfold sel, in_use, recyclable. rewrite Hb. split.
  - intros H. exists b. split; [done|]. destruct (has B_BUSY b); [by left|]. destruct (has B_DIRTY b); [by right|done].
  - intros (b' & [= <-] & [-> | ->]); [done|apply andb_false_r].
Qed.

(** From the end of the list: the first buffer that is not in use. *)
Lemma find_oldest :
  match List.find (sel recyclable bs) (reverse order) with
  | Some i => exists l1 l2, order = l1 ++ i :: l2 /\ ~ in_use bs i /\ Forall (in_use bs) l2
  | None => Forall (in_use bs) order
  end.
Proof.
  assert (forall l, (forall i, i ∈ l -> i ∈ order) -> match List.find (sel recyclable bs) (reverse l) with
    | Some i => exists l1 l2, l = l1 ++ i :: l2 /\ ~ in_use bs i /\ Forall (in_use bs) l2
    | None => Forall (in_use bs) l end) as H; [|by apply H].
  intros l. induction l as [|k l IH] using rev_ind; intros Hl; [constructor|]. rewrite reverse_snoc. cbn [List.find].
  pose proof (not_recyclable_used k ltac:(apply Hl; set_solver)) as Hk. destruct (sel recyclable bs k) eqn:Es.
  - exists l, []. split; [done|]. split; [|constructor]. by intros H%Hk.
  - specialize (IH ltac:(intros i Hi; apply Hl; set_solver)). apply proj1 in Hk. specialize (Hk eq_refl).
    destruct (List.find _ (reverse l)) as [i|].
    + destruct IH as (l1 & l2 & -> & H1 & H2). exists l1, (l2 ++ [k]). rewrite <- app_assoc. split; [done|]. split; [done|].
      apply Forall_app. split; [done|]. by constructor.
    + apply Forall_app. split; [done|]. by constructor.
Qed.

(** Flags do not matter; a buffer that is given a block nobody has. *)
Lemma cache_ok_flags f i : keeps_ptrs f -> (forall b, dev (f b) = dev b /\ blockno (f b) = blockno b) -> cache_ok (alter f i bs) order.
Proof.
  intros (Hn & Hp & _) Hd. split.
  - split; [apply linked_alter; [done|done|apply (co_lru _ _ OK)]|apply (co_lru _ _ OK)].
  - assert (forall j dv bn, caches (alter f i bs) j dv bn -> caches bs j dv bn) as Hc.
    { intros j dv bn (b & Hb & E1 & E2). destruct (decide (i = j)) as [->|Hne]; [|rewrite list_lookup_alter_ne in Hb by done; by exists b].
      rewrite list_lookup_alter_eq in Hb. apply fmap_Some in Hb as (b' & Hb' & ->). destruct (Hd b') as [F1 F2]. exists b'. split; [done|]. by rewrite <- F1, <- F2. }
    intros j k dv bn Hj Hk Hdv C1 C2. apply (co_one _ _ OK j k dv bn); auto.
Qed.
Lemma cache_ok_recycle dv bn i :
  (forall j, (j < NBUFn)%nat -> ~ caches bs j dv bn) -> cache_ok (alter (fun b => set_flags B_BUSY (set_blockno bn (set_dev dv b))) i bs) order.
Proof.
  intros Hno. split.
  - split; [apply linked_alter; [done|done|apply (co_lru _ _ OK)]|apply (co_lru _ _ OK)].
  - set (bs' := alter _ i bs).
    assert (forall j dv' bn', (j < NBUFn)%nat -> caches bs' j dv' bn' -> (j = i /\ dv' = dv /\ bn' = bn) \/ (j <> i /\ caches bs j dv' bn')) as Hc.
    { intros j dv' bn' Hj (b & Hb & E1 & E2). unfold bs' in Hb. destruct (decide (i = j)) as [->|Hne].
      - left. rewrite list_lookup_alter_eq in Hb. apply fmap_Some in Hb as (b' & _ & ->). done.
      - right. rewrite list_lookup_alter_ne in Hb by done. split; [done|]. by exists b. }
    intros j k dv' bn' Hj Hk Hdv C1 C2. destruct (Hc j dv' bn' Hj C1) as [(-> & -> & ->)|[N1 C1']], (Hc k _ _ Hk C2) as [(-> & E1 & E2)|[N2 C2']]; subst; try done.
    + by destruct (Hno k Hk).
    + by destruct (Hno j Hj).
    + by apply (co_one _ _ OK j k dv' bn').
Qed.
End cache.

Lemma cache_ok_pay bs bs' order order' i :
  cache_ok bs order -> lru bs' order' -> pay bs' = pay (alter (clear_flag B_BUSY) i bs) -> cache_ok bs' order'.
Proof.
  intros OK L HP. split; [done|]. assert (forall j dv bn, caches bs' j dv bn -> caches (alter (clear_flag B_BUSY) i bs) j dv bn) as Hc.
  { intros j dv bn (b & Hb & E1 & E2). pose proof (pay_lookup _ _ j HP) as Hj. rewrite Hb in Hj. destruct (alter _ i bs !! j) as [b'|] eqn:Eb; [|done].
    apply (inj Some) in Hj. injection Hj as F1 F2 F3 F4. exists b'. split; [done|]. by rewrite <- F2, <- F3. }
  intros j k dv bn Hj Hk Hdv C1 C2. apply (co_one _ _ (cache_ok_flags bs order OK (clear_flag B_BUSY) i ltac:(split_and!; [done|done|by intros b b' [= E1 E2 E3 E4]; unfold payload; simpl; congruence]) ltac:(done)) j k dv bn); auto.
Qed.

(** A buffer that is given back wakes the processes that wait for it. *)
Lemma get_buf_signals i (s : bstate D) : signals (get_buf i s) = [].
Proof. unfold get_buf. by destruct (bufs s !! i). Qed.
Lemma link_front_signals i f (s : bstate D) : signals (link_front i f s) = [].
Proof. unfold link_front, get_buf. rewrite signals_bind. destruct (bufs s !! bhead); [|done]. cbn. by destruct (alter _ _ _ !! bhead). Qed.
Lemma brelse_signals i (s : bstate D) s' : run (brelse i s) = ROk tt s' -> signals (brelse i s) = [CH_buf (Z.of_nat i)].
Proof.
  unfold brelse. rewrite run_bind, signals_bind, get_buf_signals. destruct (run (get_buf i s)) as [b t| | | | |]; try done. cbn [rbind app].
  destruct (has B_BUSY b); [|done]. cbn [negb]. do 2 (rewrite run_bind, signals_bind; cbn [acquire sync run rbind signals app]).
  rewrite get_buf_signals. destruct (run (get_buf i t)) as [b2 t2| | | | |]; try done. cbn [rbind app].
  do 2 (rewrite run_bind, signals_bind; cbn [upd_buf modify run rbind signals app]).
  rewrite get_buf_signals. destruct (run (get_buf i _)) as [b3 t3| | | | |]; try done. cbn [rbind app].
  do 2 (rewrite run_bind, signals_bind; cbn [upd_buf modify run rbind signals app]).
  rewrite link_front_signals. by destruct (run (link_front i id _)) as [[] s2| | | | |].
Qed.

(** C33. The buffer cache.  The buffers stay one list from the most to the least recently used one, and no block ever has two buffers.
    [bget] returns the buffer of the block if there is one - marking it busy, or sleeping on it
    while another process has it; otherwise it takes over the least recently used buffer that is neither
    busy nor dirty, and panics only when all buffers are.  [brelse] moves its buffer to the front, leaves the order of the others, changes no
    contents, and wakes the processes that sleep on the buffer. *)
Theorem bcache_lru bs order (d : D) dv bn fuel :
  cache_ok bs order -> dv <> u32 (-1) ->
  (forall i b, (i < NBUFn)%nat -> bs !! i = Some b -> dev b = dv -> blockno b = bn ->
     if has B_BUSY b then run (bget (S fuel) dv bn (mkB bs d)) = RBlocked (CH_buf (Z.of_nat i)) (mkB bs d)
     else exists bs', run (bget (S fuel) dv bn (mkB bs d)) = ROk i (mkB bs' d) /\ cache_ok bs' order /\ bs' = <[i := set_flag B_BUSY b]> bs) /\
  ((forall i, (i < NBUFn)%nat -> ~ caches bs i dv bn) ->
     (Forall (in_use bs) order /\ run (bget (S fuel) dv bn (mkB bs d)) = RPanic "bget: no buffers") \/
     exists l1 i l2 b bs', order = l1 ++ i :: l2 /\ bs !! i = Some b /\ ~ in_use bs i /\ Forall (in_use bs) l2 /\
       run (bget (S fuel) dv bn (mkB bs d)) = ROk i (mkB bs' d) /\ cache_ok bs' order /\
       bs' = <[i := set_flags B_BUSY (set_blockno bn (set_dev dv b))]> bs) /\
  (forall i l1 l2 b, order = l1 ++ i :: l2 -> bs !! i = Some b -> has B_BUSY b = true ->
     exists bs', run (brelse i (mkB bs d)) = ROk tt (mkB bs' d) /\ signals (brelse i (mkB bs d)) = [CH_buf (Z.of_nat i)] /\
       cache_ok bs' (i :: l1 ++ l2) /\ pay bs' = pay (<[i := clear_flag B_BUSY b]> bs)).
Proof.
  intros OK Hdv. pose proof (co_lru _ _ OK) as L. pose proof (lru_linked _ _ L) as LL. pose proof (bget_run bs order d dv bn fuel L) as Hg. split_and!.
  - intros i b Hi Hb E1 E2. rewrite (find_hit bs order OK i) in Hg by (try done; by exists b). unfold sel in Hg. rewrite Hb in Hg.
    destruct (has B_BUSY b); [done|]. rewrite (alter_lookup _ _ _ b) in Hg by done. eexists. split; [exact Hg|]. split; [|done].
    rewrite <- (alter_lookup _ _ _ b) by done. apply cache_ok_flags; [done| |done]. split_and!; [done|done|].
    intros b1 b2 [= F1 F2 F3 F4]. unfold payload; simpl; congruence.
  - intros Hno. rewrite find_miss in Hg by done. pose proof (find_oldest bs order OK) as Ho. destruct (List.find _ (reverse order)) as [i|]; [right|by left].
    destruct Ho as (l1 & l2 & -> & H1 & H2). destruct (order_lookup _ _ OK i ltac:(set_solver)) as [Hi [b Hb]]. rewrite (alter_lookup _ _ _ b) in Hg by done.
    exists l1, i, l2, b. eexists. split_and!; [done|done|done|done|exact Hg| |done]. rewrite <- (alter_lookup (fun b => set_flags B_BUSY (set_blockno bn (set_dev dv b))) _ _ b) by done.
    by apply cache_ok_recycle.
  - intros i l1 l2 b -> Hb Hbusy.
    pose proof (brelse_spec (fun _ => True) bs d l1 i l2 b ltac:(done) LL Hb Hbusy) as ([] & s' & Hr & bs' & -> & HL & HP)%chl_run.
    exists bs'. split; [done|]. split; [by eapply brelse_signals|]. split; [|by rewrite <- (alter_lookup _ _ _ b)].
    apply (cache_ok_pay bs bs' (l1 ++ i :: l2) _ i); [done| |done]. split; [done|].
    intros j Hj%(lru_all _ _ L). rewrite elem_of_app, elem_of_cons in Hj. rewrite elem_of_cons, elem_of_app. tauto.
Qed.

End lru_claims.

(** The cache [binit] makes: the last buffer is the most recent one, so block 5 goes to buffer 0. *)
Definition binit_order : list nat := reverse (seq 0 NBUFn).
Lemma binit_ok : exists bs,
  run (binit (mkB bcache_zero tt)) = ROk tt (mkB bs tt) /\ cache_ok bs binit_order /\
  (forall i, (i < NBUFn)%nat -> ~ caches bs i ROOTDEV 5) /\ forall i, i ∈ binit_order -> ~ in_use bs i.
Proof.
  pose proof (binit_spec (fun _ => True) bcache_zero tt ltac:(done)) as ([] & s' & Hr & bs & -> & L & P)%chl_run.
  assert (forall i, (i < NBUFn)%nat -> exists b, bs !! i = Some b /\ flags b = 0 /\ dev b = u32 (-1)) as Hb.
  { intros i Hi. specialize (P i Hi). unfold bcache_zero in P. rewrite lookup_replicate_2 in P by lia.
    destruct (bs !! i) as [b|]; [|done]. exists b. apply (inj Some) in P. injection P as E1 E2 E3 E4. done. }
  assert (forall i dv bn, (i < NBUFn)%nat -> dv <> u32 (-1) -> ~ caches bs i dv bn) as Hno.
  { intros i dv bn Hi Hdv (b & Hbi & E & _). destruct (Hb i Hi) as (b' & Hbi' & _ & E'). rewrite Hbi in Hbi'. injection Hbi' as <-. by rewrite <- E, E' in Hdv. }
  exists bs. split; [done|]. split; [|split; [intros i Hi; by apply Hno|]].
  - split; [exact L|]. intros i j dv bn Hi _ Hdv Hc. by destruct (Hno i dv bn Hi Hdv).
  - intros i Hi (b & Hbi & Hu). unfold binit_order in Hi. rewrite elem_of_reverse, elem_of_seq in Hi.
    destruct (Hb i ltac:(lia)) as (b' & Hbi' & Hf & _). rewrite Hbi in Hbi'. injection Hbi' as <-. unfold has in Hu. rewrite Hf in Hu. by destruct Hu.
Qed.
Lemma zero_in : 0%nat ∈ binit_order.
Proof. apply elem_of_reverse, elem_of_seq. split; [lia|]. vm_compute. lia. Qed.
Lemma oldest_0 l1 i : binit_order = l1 ++ [i] -> i = 0%nat.
Proof. intros E%(f_equal last). rewrite last_snoc in E. vm_compute in E. by injection E. Qed.

Lemma bcache_lru_witness : exists bs bs',
  run (binit (mkB bcache_zero tt)) = ROk tt (mkB bs tt) /\ cache_ok bs binit_order /\
  run (bget 1 ROOTDEV 5 (mkB bs tt)) = ROk 0%nat (mkB bs' tt) /\ cache_ok bs' binit_order.
Proof.
  destruct binit_ok as (bs & Hr & OK & Hno & Hfree). assert (ROOTDEV <> u32 (-1)) as Hdv by discriminate.
  destruct (bcache_lru bs binit_order tt ROOTDEV 5 0 OK Hdv) as (_ & H & _). destruct (H Hno) as [[Hall _]|(l1 & i & l2 & b & bs' & E & _ & _ & Hl2 & Hg & OK' & _)].
  - exfalso. rewrite Forall_forall in Hall. apply (Hfree 0%nat zero_in), (Hall 0%nat zero_in).
  - exists bs, bs'. split; [exact Hr|]. split; [exact OK|]. split; [|exact OK'].
    destruct l2 as [|k l2]; [by rewrite (oldest_0 l1 i E) in Hg|]. exfalso. apply Forall_cons in Hl2 as [Hk _].
    apply (Hfree k); [|exact Hk]. rewrite E. apply elem_of_app. right. right. left.
Defined.
