(* ===== verification/BioCache.v ===== *)
(** The buffer cache refines the abstract block cache.

    [DriverLaws] is what the cache needs of a disk driver (Memide.v has an
    instance); [rep] relates the buffers to the abstract state of Cache.v, and the
    instance at the end discharges every law of [BlockLaws] for bio.c. *)

From Stdlib Require Import ZArith Lia.
From stdpp Require Import base tactics option gmap sets strings numbers list.
From S2P Require Import Prelude Layout Bytes Crash Cache Bio BioFacts.
Open Scope Z_scope.

(** * Flags *)

Lemma has_bit k b : 0 <= k -> has (2 ^ k) b = Z.testbit (flags b) k.
Proof.
  intros Hk. unfold has. destruct (Z.eqb_spec (Z.land (flags b) (2 ^ k)) 0) as [E|E]; simpl.
  - apply (f_equal (fun x => Z.testbit x k)) in E.
    rewrite Z.land_spec, Z.pow2_bits_true, Z.bits_0, andb_true_r in E by done. done.
  - destruct (Z.testbit (flags b) k) eqn:Hb; [done|]. exfalso. apply E.
    apply Z.bits_inj'. intros n Hn. rewrite Z.land_spec, Z.bits_0.
    destruct (decide (n = k)) as [->|]; [by rewrite Hb|]. rewrite Z.pow2_bits_false by done. apply andb_false_r.
Qed.

(** The flags of buf.h: different bits. *)
Inductive flag : Z -> Prop := flag_busy : flag B_BUSY | flag_valid : flag B_VALID | flag_dirty : flag B_DIRTY.
Lemma flag_pow f : flag f -> exists k, 0 <= k /\ f = 2 ^ k.
Proof. intros []; [exists 0|exists 1|exists 2]; done. Qed.

Lemma has_set f g b : flag f -> flag g -> has f (set_flag g b) = has f b || (f =? g).
Proof.
  intros (k & Hk & ->)%flag_pow (j & Hj & ->)%flag_pow. rewrite !has_bit by done. unfold set_flag; cbn [flags set_flags].
  rewrite Z.lor_spec. f_equal. rewrite Z.pow2_bits_eqb by done.
  destruct (Z.eqb_spec j k) as [->|]; symmetry; [apply Z.eqb_refl|]. apply Z.eqb_neq. intros E.
  apply Z.pow_inj_r in E; lia.
Qed.
Lemma has_clear f g b : flag f -> flag g -> has f (clear_flag g b) = has f b && negb (f =? g).
Proof.
  intros (k & Hk & ->)%flag_pow (j & Hj & ->)%flag_pow. rewrite !has_bit by done. unfold clear_flag; cbn [flags set_flags].
  rewrite Z.land_spec, Z.lnot_spec by done. f_equal. f_equal. rewrite Z.pow2_bits_eqb by done.
  destruct (Z.eqb_spec j k) as [->|]; symmetry; [apply Z.eqb_refl|]. apply Z.eqb_neq. intros E.
  apply Z.pow_inj_r in E; lia.
Qed.
#[export] Hint Constructors flag : core.

(** * What the cache needs of a driver *)

Class DriverLaws (D : Type) {DR : Driver D} := {
  contents : D -> list block;
  ready : D -> Prop;
  contents_size : forall d x, ready d -> x ∈ contents d -> length x = 512%nat;
  iderw_read : forall (P : list block -> Prop) bs d i b x,
    ready d -> bs !! i = Some b -> has B_BUSY b = true -> has B_VALID b = false -> has B_DIRTY b = false ->
    dev b = ROOTDEV -> zlookup (contents d) (blockno b) = Some x -> P (contents d) ->
    chl (fun s => P (contents (disk s))) (iderw i (mkB bs d))
      (fun _ s' => s' = mkB (alter (fun b => set_flag B_VALID (set_data x b)) i bs) d);
  iderw_write : forall (P : list block -> Prop) bs d i b,
    ready d -> bs !! i = Some b -> has B_BUSY b = true -> has B_DIRTY b = true ->
    dev b = ROOTDEV -> 0 <= blockno b < Z.of_nat (length (contents d)) -> length (data b) = 512%nat ->
    P (contents d) -> P (zinsert (blockno b) (data b) (contents d)) ->
    chl (fun s => P (contents (disk s))) (iderw i (mkB bs d))
      (fun _ s' => exists d', s' = mkB (alter (fun b => set_flag B_VALID (clear_flag B_DIRTY b)) i bs) d' /\
        ready d' /\ contents d' = zinsert (blockno b) (data b) (contents d));
  (** The driver's state after a power failure, and its initialisation. *)
  unplug : D -> D;
  ideinit_law : forall C bs d,
    chl C (ideinit (mkB bs (unplug d))) (fun _ s' => exists d',
      s' = mkB bs d' /\ ready d' /\ contents d' = contents d)
}.

Section refinement.
Context {D : Type} {DR : Driver D} {DL : DriverLaws D}.
Abbreviation state := (bstate D).

(** What a buffer may hold. *)
Record good (c : cache) (i : nat) (b : buf) : Prop := {
  g_len : length (data b) = 512%nat;
  g_dev : dev b = ROOTDEV \/ dev b = u32 (-1);
  g_busy : has B_BUSY b = true -> held c !! i = Some (blockno b);
  g_valid : has B_VALID b = true -> dev b = ROOTDEV /\ zlookup (view c) (blockno b) = Some (data b);
  g_dirty : has B_DIRTY b = true -> has B_VALID b = true /\ blockno b ∈ pinned c
}.

(** Buffer [i] caches block [bn]. *)
Definition caches (bs : list buf) (i : nat) (bn : Z) (b : buf) : Prop :=
  (i < NBUFn)%nat /\ bs !! i = Some b /\ dev b = ROOTDEV /\ blockno b = bn.

Record sizes (c : cache) : Prop := {
  sz_len : length (view c) = length (dsk c);
  sz_view : forall x, x ∈ view c -> length x = 512%nat;
  sz_touched : touched c ⊆ held_blocks c;
  sz_clean : forall bn, bn ∉ pinned c -> bn ∉ touched c -> zlookup (view c) bn = zlookup (dsk c) bn
}.

Record rep (s : state) (c : cache) : Prop := {
  r_lru : exists order, lru (bufs s) order;
  r_ready : ready (disk s);
  r_disk : contents (disk s) = dsk c;
  r_sizes : sizes c;
  r_good : forall i b, (i < NBUFn)%nat -> bufs s !! i = Some b -> good c i b;
  r_uniq : forall i j bn b b', caches (bufs s) i bn b -> caches (bufs s) j bn b' -> i = j;
  r_held : forall i bn, held c !! i = Some bn ->
    exists b, caches (bufs s) i bn b /\ has B_BUSY b = true /\ has B_VALID b = true;
  r_pinned : forall bn, bn ∈ pinned c -> exists i b, caches (bufs s) i bn b /\ has B_DIRTY b = true
}.

(** The list may be relinked, the contents of the buffers are the same. *)
Lemma rep_pay bs bs' d c order :
  rep (mkB bs d) c -> lru bs' order -> pay bs' = pay bs -> rep (mkB bs' d) c.
Proof.
  intros R L E.
  assert (forall i x, bs' !! i = Some x -> exists y, bs !! i = Some y /\ payload x = payload y) as Hto.
  { intros i x Hx. pose proof (pay_lookup _ _ i E) as Ei. rewrite Hx in Ei.
    destruct (bs !! i) as [y|]; [|done]. exists y. split; [done|]. by apply (inj Some). }
  assert (forall i x, bs !! i = Some x -> exists y, bs' !! i = Some y /\ payload x = payload y) as Hfrom.
  { intros i x Hx. pose proof (pay_lookup _ _ i E) as Ei. rewrite Hx in Ei.
    destruct (bs' !! i) as [y|]; [|done]. exists y. split; [done|]. symmetry. by apply (inj Some). }
  assert (forall i bn x, caches bs' i bn x -> exists y, caches bs i bn y /\ payload x = payload y) as Hc.
  { intros i bn x (Hi & Hx & Hd & Hb). destruct (Hto i x Hx) as (y & Hy & Ey). exists y.
    injection Ey as E1 E2 E3 E4. split; [|unfold payload; congruence]. repeat split; [done|done|congruence|congruence]. }
  assert (forall i bn x, caches bs i bn x -> exists y, caches bs' i bn y /\ payload x = payload y) as Hc'.
  { intros i bn x (Hi & Hx & Hd & Hb). destruct (Hfrom i x Hx) as (y & Hy & Ey). exists y.
    injection Ey as E1 E2 E3 E4. split; [|unfold payload; congruence]. repeat split; [done|done|congruence|congruence]. }
  assert (forall f x y, payload x = payload y -> has f x = has f y) as Hf.
  { intros f x y [= E1 _ _ _]. unfold has. by rewrite E1. }
  destruct R as [R1 R2 R3 R4 R5 R6 R7 R8]; cbn [bufs disk] in *. split; cbn [bufs disk]; auto; [by exists order| | | |].
  - intros i b Hi Hb. destruct (Hto i b Hb) as (y & Hy & Ey). pose proof (R5 i y Hi Hy) as [G1 G2 G3 G4 G5].
    destruct b, y; injection Ey as -> -> -> ->. by split.
  - intros i j bn b b' (y & Hy & _)%Hc (y' & Hy' & _)%Hc. by eapply R6.
  - intros i bn (b & (y & Hy & Ey)%Hc' & Hb1 & Hb2)%R7. exists y. by rewrite <- !(Hf _ _ _ Ey).
  - intros bn (i & b & (y & Hy & Ey)%Hc' & Hb1)%R8. exists i, y. by rewrite <- !(Hf _ _ _ Ey).
Qed.

(** One buffer changes, its pointers apart. *)
Lemma rep_alter bs d c i b f d' c' :
  rep (mkB bs d) c -> (i < NBUFn)%nat -> bs !! i = Some b ->
  (forall b, next (f b) = next b) -> (forall b, prev (f b) = prev b) ->
  ready d' -> contents d' = dsk c' -> sizes c' ->
  good c' i (f b) ->
  (forall j x, j <> i -> (j < NBUFn)%nat -> bs !! j = Some x -> good c j x -> good c' j x) ->
  (dev (f b) = ROOTDEV -> forall j x, j <> i -> ~ caches bs j (blockno (f b)) x) ->
  (forall j bn, held c' !! j = Some bn -> (j <> i /\ held c !! j = Some bn) \/
     (j = i /\ dev (f b) = ROOTDEV /\ blockno (f b) = bn /\ has B_BUSY (f b) = true /\ has B_VALID (f b) = true)) ->
  (forall bn, bn ∈ pinned c' -> (bn ∈ pinned c /\ (dev b = ROOTDEV -> bn <> blockno b)) \/
     (dev (f b) = ROOTDEV /\ bn = blockno (f b) /\ has B_DIRTY (f b) = true)) ->
  rep (mkB (alter f i bs) d') c'.
Proof.
  intros R Hi Hb Hn Hp Hrdy Hcont Hsz Hgood Hframe Huniq Hheld Hpin.
  assert (alter f i bs !! i = Some (f b)) as Hfb by (by rewrite list_lookup_alter_eq, Hb).
  assert (forall j bn x, j <> i -> caches (alter f i bs) j bn x <-> caches bs j bn x) as Hne.
  { intros j bn x Hj. unfold caches. by rewrite list_lookup_alter_ne. }
  assert (forall bn x, caches (alter f i bs) i bn x <-> x = f b /\ dev (f b) = ROOTDEV /\ blockno (f b) = bn) as Heq.
  { intros bn x. unfold caches. rewrite Hfb. naive_solver. }
  destruct R as [(order & L) R2 R3 R4 R5 R6 R7 R8]; cbn [bufs disk] in *.
  split; cbn [bufs disk]; [|done|done|done| | | |].
  - exists order. destruct L as [L La]. split; [by apply linked_alter|done].
  - intros j x Hj. destruct (decide (j = i)) as [->|].
    + rewrite Hfb. by intros [= <-].
    + rewrite list_lookup_alter_ne by done. intros Hx. apply Hframe; auto.
  - intros j k bn x y Hx Hy. destruct (decide (j = i)) as [->|Hji], (decide (k = i)) as [->|Hki]; [done| | |].
    + apply Heq in Hx as (-> & Hd & <-). apply (Hne _ _ _ Hki) in Hy. by destruct (Huniq Hd k y Hki).
    + apply Heq in Hy as (-> & Hd & <-). apply (Hne _ _ _ Hji) in Hx. by destruct (Huniq Hd j x Hji).
    + apply Hne in Hx, Hy; [|done|done]. by eapply R6.
  - intros j bn [(Hj & (x & Hx & ? & ?)%R7)|(-> & ? & ? & ? & ?)]%Hheld.
    + exists x. by rewrite Hne.
    + exists (f b). by rewrite Heq.
  - intros bn [((j & x & Hx & Hd)%R8 & Hnb)|(? & ? & ?)]%Hpin.
    + destruct (decide (j = i)) as [->|Hj]; [|exists j, x; by rewrite Hne].
      destruct Hx as (_ & Hx & Hdev & Hbn). simplify_eq. by destruct (Hnb Hdev).
    + exists i, (f b). by rewrite Heq.
Qed.

(** ** Finding and recycling *)

Lemma elem_of_held c bn : bn ∈ held_blocks c <-> exists i, held c !! i = Some bn.
Proof. apply elem_of_map_img. Qed.

Lemma find_block s c order bn :
  rep s c -> lru (bufs s) order ->
  match List.find (sel (is_block ROOTDEV bn) (bufs s)) order with
  | Some i => exists b, caches (bufs s) i bn b
  | None => forall i b, ~ caches (bufs s) i bn b
  end.
Proof.
  intros R L. destruct (List.find _ order) as [i|] eqn:F.
  - apply List.find_some in F as [Hi Hs]. apply list_elem_of_In in Hi. unfold sel in Hs.
    destruct (bufs s !! i) as [b|] eqn:Hb; [|done]. exists b. unfold is_block in Hs.
    apply andb_true_iff in Hs as [?%Z.eqb_eq ?%Z.eqb_eq]. repeat split; [|done|done|done].
    by apply (linked_bufs _ _ (lru_linked _ _ L)).
  - intros i b (Hi & Hb & Hd & Hn). pose proof (List.find_none _ _ F i) as Hs.
    rewrite <- list_elem_of_In in Hs. specialize (Hs (lru_all _ _ L i Hi)). unfold sel in Hs. rewrite Hb in Hs.
    unfold is_block in Hs. rewrite Hd, Hn, !Z.eqb_refl in Hs. done.
Qed.

(** A buffer that cannot be recycled holds a pinned or held block. *)
Lemma not_recyclable s c i b :
  rep s c -> (i < NBUFn)%nat -> bufs s !! i = Some b -> recyclable b = false ->
  caches (bufs s) i (blockno b) b /\ blockno b ∈ pinned c ∪ held_blocks c.
Proof.
  intros R Hi Hb Hr. destruct (r_good _ _ R i b Hi Hb) as [_ _ G3 G4 G5]. unfold recyclable in Hr.
  destruct (has B_BUSY b) eqn:Hbusy.
  - specialize (G3 eq_refl). destruct (r_held _ _ R _ _ G3) as (b' & Hc & _). destruct (Hc) as (_ & Hb' & _).
    assert (b' = b) as -> by congruence. split; [done|]. apply elem_of_union_r, elem_of_held. eauto.
  - destruct (has B_DIRTY b); [|done]. destruct (G5 eq_refl) as [Hv Hpin]. destruct (G4 Hv) as [Hd _].
    split; [done|]. by apply elem_of_union_l.
Qed.

Lemma find_recyclable s c order :
  rep s c -> lru (bufs s) order -> Z.of_nat (size (pinned c ∪ held_blocks c)) < NBUF ->
  exists i b, List.find (sel recyclable (bufs s)) (reverse order) = Some i /\
    (i < NBUFn)%nat /\ bufs s !! i = Some b /\ has B_BUSY b = false /\ has B_DIRTY b = false.
Proof.
  intros R L Hsz. destruct (List.find _ (reverse order)) as [i|] eqn:F.
  { apply List.find_some in F as [Hi Hs]. apply list_elem_of_In in Hi. rewrite elem_of_reverse in Hi.
    unfold sel, recyclable in Hs. destruct (bufs s !! i) as [b|] eqn:Hb; [|done]. exists i, b.
    apply andb_true_iff in Hs as [?%negb_true_iff ?%negb_true_iff].
    split_and!; try done. by apply (linked_bufs _ _ (lru_linked _ _ L)). }
  exfalso.
  assert (forall i, (i < NBUFn)%nat -> exists b, caches (bufs s) i (blockno b) b /\ blockno b ∈ pinned c ∪ held_blocks c) as Hall.
  { intros i Hi. destruct (linked_lookup _ _ i (lru_linked _ _ L) ltac:(lia)) as [b Hb]. exists b.
    apply (not_recyclable s); [done|done|done|]. pose proof (List.find_none _ _ F i) as Hs.
    rewrite <- list_elem_of_In, elem_of_reverse in Hs. specialize (Hs (lru_all _ _ L i Hi)).
    unfold sel in Hs. by rewrite Hb in Hs. }
  set (bns := (fun i => match bufs s !! i with Some b => blockno b | None => 0 end) <$> seq 0 NBUFn).
  assert (NoDup bns) as Hnd.
  { apply NoDup_fmap_2_strong; [|apply NoDup_seq]. intros i j Hi%elem_of_seq Hj%elem_of_seq.
    destruct (Hall i ltac:(lia)) as (b & Hb & _), (Hall j ltac:(lia)) as (b' & Hb' & _).
    destruct (Hb) as (_ & -> & _), (Hb') as (_ & -> & _). intros E. rewrite <- E in Hb'. by eapply (r_uniq _ _ R). }
  assert ((list_to_set bns : gset Z) ⊆ pinned c ∪ held_blocks c) as Hsub.
  { intros x Hx%elem_of_list_to_set. apply list_elem_of_fmap in Hx as (i & -> & Hi%elem_of_seq).
    destruct (Hall i ltac:(lia)) as (b & (_ & -> & _) & Hin). done. }
  apply subseteq_size in Hsub. rewrite size_list_to_set in Hsub by done.
  unfold bns in Hsub. rewrite length_fmap, length_seq in Hsub. unfold NBUFn in Hsub. lia.
Qed.

(** ** The operations *)

Lemma held_none s c i b :
  rep s c -> (i < NBUFn)%nat -> bufs s !! i = Some b -> has B_BUSY b = false -> held c !! i = None.
Proof.
  intros R Hi Hb Hbusy. destruct (held c !! i) as [bn|] eqn:Hh; [|done]. exfalso.
  destruct (r_held _ _ R _ _ Hh) as (b' & (_ & Hb' & _) & Hbusy' & _). congruence.
Qed.

Lemma sizes_hold c i bn : sizes c -> held c !! i = None -> sizes (c_hold i bn c).
Proof.
  intros [S1 S2 S3 S4] Hi. split; [done|done| |done]. intros x Hx%S3.
  apply elem_of_held in Hx as (j & Hj). apply elem_of_held. exists j. cbn [held c_hold set_held].
  rewrite lookup_insert_ne; [done|]. intros ->; congruence.
Qed.

(** Giving buffer [i] to block [bn] and marking it busy, with the right contents. *)
Lemma rep_hold bs d c i b f bn :
  rep (mkB bs d) c -> (i < NBUFn)%nat -> bs !! i = Some b ->
  (forall b, next (f b) = next b) -> (forall b, prev (f b) = prev b) ->
  has B_BUSY b = false -> bn ∉ held_blocks c ->
  dev (f b) = ROOTDEV -> blockno (f b) = bn -> has B_BUSY (f b) = true -> has B_VALID (f b) = true ->
  has B_DIRTY (f b) = has B_DIRTY b -> zlookup (view c) bn = Some (data (f b)) -> length (data (f b)) = 512%nat ->
  (forall j x, j <> i -> ~ caches bs j bn x) ->
  (has B_DIRTY b = true -> dev b = ROOTDEV /\ blockno b = bn) ->
  rep (mkB (alter f i bs) d) (c_hold i bn c).
Proof.
  intros R Hi Hb Hn Hp Hfree Hnh Hd Hbn Hbusy Hval Hdty Hview Hlen Huniq Hdirty.
  assert (held c !! i = None) as Hhi by (by eapply (held_none (mkB bs d))).
  apply (rep_alter bs d c i b); try done; [apply R|apply R|apply sizes_hold; [apply R|done]| | | | |].
  - split; [done|by left| |intros _; split; [done|by rewrite Hbn]|].
    + intros _. rewrite Hbn. apply lookup_insert_eq.
    + rewrite Hdty. intros Hdt. split; [done|]. destruct (Hdirty Hdt) as [_ E].
      destruct (r_good _ _ R i b Hi Hb) as [_ _ _ _ G5]. destruct (G5 Hdt) as [_ ?]. cbn [pinned c_hold set_held]. congruence.
  - intros j x Hj _ _ [G1 G2 G3 G4 G5]. split; try done. intros Hx. cbn [held c_hold set_held].
    rewrite lookup_insert_ne by done. auto.
  - intros _ j x Hj. rewrite Hbn. by apply Huniq.
  - intros j x. cbn [held c_hold set_held]. destruct (decide (j = i)) as [->|Hj].
    + rewrite lookup_insert_eq. intros [= <-]. by right.
    + rewrite lookup_insert_ne by done. by left.
  - intros x Hx. destruct (has B_DIRTY b) eqn:Hdt.
    + destruct (Hdirty eq_refl) as [_ E]. destruct (decide (x = bn)) as [->|]; [by right|left]. split; [done|]. by intros _; rewrite E.
    + left. split; [done|]. intros Hr ->.
      destruct (r_pinned _ _ R _ Hx) as (j & y & Hy & Hdy).
      assert (i = j) as <- by (eapply (r_uniq _ _ R i j _ b y); [done|exact Hy]).
      destruct Hy as (_ & Hy & _). cbn [bufs] in Hy. congruence.
Qed.

Abbreviation on_disk P := (fun s : state => P (contents (disk s))).

(** Reading the block into a buffer that was just made busy. *)
Lemma rep_fill P bs d c i b f bn :
  rep (mkB bs d) c -> P (dsk c) -> (i < NBUFn)%nat -> bs !! i = Some b ->
  (forall b, next (f b) = next b) -> (forall b, prev (f b) = prev b) ->
  has B_BUSY b = false -> has B_DIRTY b = false -> bn ∉ held_blocks c -> bn ∉ pinned c ->
  0 <= bn < Z.of_nat (length (dsk c)) ->
  dev (f b) = ROOTDEV -> blockno (f b) = bn ->
  has B_BUSY (f b) = true -> has B_VALID (f b) = false -> has B_DIRTY (f b) = false ->
  (forall j x, j <> i -> ~ caches bs j bn x) ->
  chl (on_disk P) (iderw i (mkB (alter f i bs) d)) (fun _ s' => held c !! i = None /\ rep s' (c_hold i bn c)).
Proof.
  intros R HP Hi Hb Hn Hp Hfree Hcl Hnh Hnp Hrange Hd Hbn Hbusy Hval Hdty Huniq.
  destruct (zlookup_range_Some (dsk c) bn Hrange) as [x Hx].
  assert (bn ∉ touched c) as Hnt by (intros ?%(sz_touched _ (r_sizes _ _ R)); done).
  pose proof (sz_clean _ (r_sizes _ _ R) bn Hnp Hnt) as Hview. rewrite Hx in Hview.
  assert (length x = 512%nat) as Hlx by (eapply (sz_view _ (r_sizes _ _ R)), zlookup_in, Hview).
  assert (alter f i bs !! i = Some (f b)) as Hfb by (by rewrite list_lookup_alter_eq, Hb).
  pose proof (r_disk _ _ R) as Hcont; cbn [disk] in Hcont.
  eapply chl_conseq; [eapply (iderw_read P _ d i (f b) x); try done|].
  - apply (r_ready _ _ R).
  - by rewrite Hcont, Hbn.
  - by rewrite Hcont.
  - intros [] s' ->. split; [by eapply (held_none (mkB bs d))|]. rewrite list_alter_alter_eq.
    assert (forall g, flag g -> has g (set_flag B_VALID (set_data x (f b))) = has g (f b) || (g =? B_VALID)) as Hg.
    { intros g Hg. rewrite has_set by auto. done. }
    apply (rep_hold bs d c i b); try done; cbn [compose dev blockno data set_flag set_flags set_data].
    + rewrite Hg, Hbusy by auto. done.
    + rewrite Hg, Hval by auto. done.
    + rewrite Hg, Hdty, Hcl by auto. done.
    + congruence.
Qed.

Lemma bread_rep P fuel s c bn :
  rep s c -> P (dsk c) -> 0 <= bn < Z.of_nat (length (dsk c)) -> bn ∉ held_blocks c ->
  bn ∈ pinned c \/ Z.of_nat (size (pinned c ∪ held_blocks c)) < NBUF ->
  chl (on_disk P) (Bio.bread (S fuel) ROOTDEV bn s) (fun i s' => held c !! i = None /\ rep s' (c_hold i bn c)).
Proof.
  intros R HP Hrange Hnh Hcap. destruct s as [bs d]. destruct (r_lru _ _ R) as [order L]. cbn [bufs] in L.
  pose proof (lru_linked _ _ L) as LL.
  assert (forall bs', on_disk P (mkB bs' d)) as HPd.
  { intros bs'. pose proof (r_disk _ _ R) as E. cbn [disk] in *. by rewrite E. }
  pose proof (find_block _ _ _ bn R L) as F. cbn [bufs] in F. unfold Bio.bread.
  destruct (List.find _ order) as [i|] eqn:Hfind.
  - destruct F as (b & Hc). destruct (Hc) as (Hi & Hb & Hd & Hbn).
    destruct (r_good _ _ R i b Hi Hb) as [G1 _ G3 G4 G5].
    assert (has B_BUSY b = false) as Hfree.
    { destruct (has B_BUSY b); [|done]. exfalso. apply Hnh, elem_of_held. exists i. by rewrite G3, Hbn. }
    assert (forall j x, j <> i -> ~ caches bs j bn x) as Huniq.
    { intros j x Hj Hx. apply Hj. by eapply (r_uniq _ _ R). }
    assert (alter (set_flag B_BUSY) i bs !! i = Some (set_flag B_BUSY b)) as Hb' by (by rewrite list_lookup_alter_eq, Hb).
    eapply chl_seq; [apply bget_hit with (order := order) (b := b); try done; apply HPd|]. intros r s' [-> ->].
    cstep. apply (chl_get_buf _ _ _ (set_flag B_BUSY b)); [done|]. cstep. cstep.
    rewrite has_set by auto. change (B_VALID =? B_BUSY) with false. rewrite orb_false_r.
    destruct (has B_VALID b) eqn:Hval; cbn [negb].
    + cstep. split; [by eapply (held_none (mkB bs d))|]. destruct (G4 eq_refl) as [_ Hv].
      apply (rep_hold bs d c i b); try done; rewrite ?has_set by auto; cbn [set_flag set_flags data dev blockno].
      * by rewrite Hfree.
      * by rewrite Hval.
      * apply orb_false_r.
      * by rewrite <- Hbn.
    + assert (has B_DIRTY b = false) as Hcl.
      { destruct (has B_DIRTY b); [|done]. by destruct (G5 eq_refl). }
      assert (bn ∉ pinned c) as Hnp.
      { intros (j & y & Hy & Hdy)%(r_pinned _ _ R). assert (i = j) as <- by (by eapply (r_uniq _ _ R i j)).
        destruct Hy as (_ & Hy & _). cbn [bufs] in Hy. congruence. }
      eapply chl_conseq; [apply (rep_fill P bs d c i b (set_flag B_BUSY) bn); try done|].
      * rewrite has_set by auto. by rewrite Hfree.
      * rewrite has_set by auto. by rewrite Hval.
      * rewrite has_set by auto. by rewrite Hcl.
      * intros [] s' ?. by cstep.
  - assert (bn ∉ pinned c) as Hnp.
    { intros (j & y & Hy & _)%(r_pinned _ _ R). by eapply F. }
    destruct Hcap as [?|Hcap]; [done|].
    destruct (find_recyclable _ _ _ R L Hcap) as (i & b & Hrec & Hi & Hb & Hfree & Hcl). cbn [bufs] in Hrec, Hb.
    set (f := fun b => set_flags B_BUSY (set_blockno bn (set_dev ROOTDEV b))).
    eapply chl_seq; [apply bget_miss with (order := order) (i := i); try done; apply HPd|]. intros r s' [-> ->]. fold f.
    cstep. apply (chl_get_buf _ _ _ (f b)); [cbn [bufs]; by rewrite list_lookup_alter_eq, Hb|].
    change (has B_VALID (f b)) with false. cbn [negb]. cstep. cstep.
    eapply chl_conseq; [apply (rep_fill P bs d c i b f bn); try done|].
    intros [] s' ?. by cstep.
Qed.

Definition bio_bdata (i : nat) : M state block := b <- get_buf i ;; ret (data b).
Definition bio_bblockno (i : nat) : M state Z := b <- get_buf i ;; ret (blockno b).
Definition bio_bset (i : nat) (x : block) : M state unit := upd_buf i (set_data x).
Definition bio_bpin (i : nat) : M state unit := upd_buf i (set_flag B_DIRTY).

(** The facts about a held buffer. *)
Lemma held_buf s c i bn : rep s c -> held c !! i = Some bn ->
  exists b, caches (bufs s) i bn b /\ has B_BUSY b = true /\ has B_VALID b = true /\
    zlookup (view c) bn = Some (data b) /\ length (data b) = 512%nat /\
    (has B_DIRTY b = true <-> bn ∈ pinned c) /\
    (forall j x, j <> i -> ~ caches (bufs s) j bn x).
Proof.
  intros R Hh. destruct (r_held _ _ R _ _ Hh) as (b & Hc & Hbusy & Hval). exists b.
  destruct (Hc) as (Hi & Hb & Hd & Hbn). destruct (r_good _ _ R i b Hi Hb) as [G1 _ _ G4 G5].
  destruct (G4 Hval) as [_ Hv]. rewrite Hbn in *. split_and!; try done.
  - split; [intros Hdt; by apply G5|]. intros (j & y & Hy & Hdy)%(r_pinned _ _ R).
    assert (i = j) as <- by (by eapply (r_uniq _ _ R i j)). destruct Hy as (_ & Hy & _). congruence.
  - intros j x Hj Hx. apply Hj. by eapply (r_uniq _ _ R).
Qed.

Lemma bset_rep C s c i bn x :
  rep s c -> held c !! i = Some bn -> length x = 512%nat ->
  chl C (bio_bset i x s) (fun _ s' => rep s' (c_put bn x c)).
Proof.
  intros R Hh Hlen. destruct s as [bs d].
  destruct (held_buf _ _ _ _ R Hh) as (b & (Hi & Hb & Hd & Hbn) & Hbusy & Hval & Hv & Hl & Hdt & Huniq). cbn [bufs] in *.
  unfold bio_bset. apply chl_upd_buf.
  pose proof (r_sizes _ _ R) as [S1 S2 S3 S4]. pose proof (zlookup_Some_range _ _ _ Hv) as Hrange.
  apply (rep_alter bs d c i b); try done; [apply R|apply R| | | | | |].
  - split; cbn [view dsk touched c_put pinned].
    + by rewrite length_zinsert.
    + intros y [->|?]%elem_of_zinsert; auto.
    + intros y [?|?]%elem_of_union; [by apply S3|]. assert (y = bn) as -> by set_solver. apply elem_of_held. eauto.
    + intros y Hnp Hnt. rewrite not_elem_of_union in Hnt. destruct Hnt as [Hnt Hny].
      rewrite zlookup_zinsert_ne; [by apply S4|]. intros ->. apply Hny. set_solver.
  - split; cbn [data dev blockno set_data flags]; [done|by left| | |].
    + intros _. cbn [held c_put]. congruence.
    + intros _. split; [done|]. rewrite Hbn. cbn [view c_put]. by apply zlookup_zinsert_eq.
    + intros Hdt'. split; [done|]. cbn [pinned c_put]. rewrite Hbn. by apply Hdt.
  - intros j y Hj Hjn Hy [G1 G2 G3 G4 G5]. split; try done. intros Hvy. destruct (G4 Hvy) as [Hdy Hvw].
    split; [done|]. cbn [view c_put]. rewrite zlookup_zinsert_ne; [done|]. intros ->. by apply (Huniq j y Hj).
  - cbn [blockno set_data]. intros _ j y Hj. rewrite Hbn. by apply Huniq.
  - cbn [held c_put]. intros j y Hy. destruct (decide (j = i)) as [->|]; [right|by left].
    split_and!; try done. cbn [blockno set_data]. congruence.
  - cbn [pinned c_put]. intros y Hy. destruct (decide (y = bn)) as [->|]; [right|left; split; [done|congruence]].
    split_and!; try done. by apply Hdt.
Qed.

Lemma bpin_rep C s c i bn :
  rep s c -> held c !! i = Some bn -> chl C (bio_bpin i s) (fun _ s' => rep s' (c_pin bn c)).
Proof.
  intros R Hh. destruct s as [bs d].
  destruct (held_buf _ _ _ _ R Hh) as (b & (Hi & Hb & Hd & Hbn) & Hbusy & Hval & Hv & Hl & Hdt & Huniq). cbn [bufs] in *.
  unfold bio_bpin. apply chl_upd_buf. pose proof (r_sizes _ _ R) as [S1 S2 S3 S4].
  apply (rep_alter bs d c i b); try done; [apply R|apply R| | | | | |].
  - split; cbn [view dsk touched c_pin pinned]; [done|done| |].
    + intros y [Hy _]%elem_of_difference. by apply S3.
    + intros y Hnp Hnt. apply S4; set_solver.
  - split; try done; rewrite ?has_set by auto; cbn [dev blockno set_flag set_flags data held c_pin pinned view].
    + by left.
    + intros _. by rewrite Hbn.
    + intros _. by rewrite Hbn.
    + intros _. rewrite Hval, Hbn. split; [done|set_solver].
  - intros j y Hj Hjn Hy [G1 G2 G3 G4 G5]. split; try done. intros Hdy. destruct (G5 Hdy). split; [done|].
    cbn [pinned c_pin]. set_solver.
  - intros _ j y Hj. cbn [blockno set_flag set_flags]. rewrite Hbn. by apply Huniq.
  - cbn [held c_pin]. intros j y Hy. destruct (decide (j = i)) as [->|]; [right|by left].
    rewrite !has_set by auto. cbn [dev blockno set_flag set_flags]. rewrite Hbusy, Hval. split_and!; try done. congruence.
  - cbn [pinned c_pin]. intros y Hy. destruct (decide (y = bn)) as [->|]; [right|left].
    + rewrite has_set by auto. by rewrite orb_true_r.
    + split; [set_solver|congruence].
Qed.

Lemma bwrite_rep P s c i bn x :
  rep s c -> held c !! i = Some bn -> zlookup (view c) bn = Some x ->
  P (dsk c) -> P (zinsert bn x (dsk c)) ->
  chl (on_disk P) (Bio.bwrite i s) (fun _ s' => rep s' (c_write bn x c)).
Proof.
  intros R Hh Hx HP HP'. destruct s as [bs d].
  destruct (held_buf _ _ _ _ R Hh) as (b & (Hi & Hb & Hd & Hbn) & Hbusy & Hval & Hv & Hl & Hdt & Huniq). cbn [bufs] in *.
  assert (x = data b) as -> by congruence.
  pose proof (r_sizes _ _ R) as [S1 S2 S3 S4]. pose proof (zlookup_Some_range _ _ _ Hv) as Hrange.
  pose proof (r_disk _ _ R) as Hcont; cbn [disk] in Hcont.
  unfold Bio.bwrite. cstep. apply (chl_get_buf _ _ _ b); [done|]. rewrite Hbusy. cbn [negb].
  cstep. apply chl_upd_buf.
  eapply chl_conseq; [eapply (iderw_write P _ d i (set_flag B_DIRTY b)); rewrite ?has_set by auto|].
  - apply (r_ready _ _ R).
  - by rewrite list_lookup_alter_eq, Hb.
  - by rewrite Hbusy.
  - apply orb_true_r.
  - done.
  - cbn [blockno set_flag set_flags]. by rewrite Hbn, Hcont, <- S1.
  - done.
  - by rewrite Hcont.
  - cbn [blockno data set_flag set_flags]. by rewrite Hbn, Hcont.
  - cbn [blockno data set_flag set_flags]. intros [] s' (d' & -> & Hrdy & Hd'). rewrite list_alter_alter_eq.
    rewrite Hbn, Hcont in Hd'. set (f := _ ∘ _).
    assert (has B_BUSY (f b) = true) as Fb.
    { unfold f; cbn [compose]. by rewrite has_set, has_clear, has_set, Hbusy by auto. }
    assert (has B_VALID (f b) = true) as Fv.
    { unfold f; cbn [compose]. rewrite has_set by auto. apply orb_true_r. }
    assert (has B_DIRTY (f b) = false) as Fd.
    { unfold f; cbn [compose]. rewrite has_set, has_clear, has_set by auto. by rewrite andb_false_r. }
    apply (rep_alter bs d c i b); try done.
    + split; cbn [view dsk touched c_write pinned held].
      * by rewrite length_zinsert.
      * done.
      * intros y [Hy _]%elem_of_difference. by apply S3.
      * intros y Hnp Hnt. destruct (decide (y = bn)) as [->|]; [rewrite zlookup_zinsert_eq; [done|lia]|].
        rewrite zlookup_zinsert_ne by done. apply S4; set_solver.
    + split; try done; cbn [held view c_write].
      * by left.
      * intros _. change (blockno (f b)) with (blockno b). by rewrite Hbn.
      * intros _. change (blockno (f b)) with (blockno b). by rewrite Hbn.
      * by rewrite Fd.
    + intros j y Hj Hjn Hy [G1 G2 G3 G4 G5]. split; try done. intros Hdy. destruct (G5 Hdy) as [Hvy Hpy]. split; [done|].
      cbn [pinned c_write]. apply elem_of_difference. split; [done|]. intros E%elem_of_singleton.
      destruct (G4 Hvy). by apply (Huniq j y Hj).
    + intros _ j y Hj. change (blockno (f b)) with (blockno b). rewrite Hbn. by apply Huniq.
    + cbn [held c_write]. intros j y Hy. destruct (decide (j = i)) as [->|]; [right|by left].
      split_and!; try done. change (blockno (f b)) with (blockno b). congruence.
    + cbn [pinned c_write]. intros y Hy. left. split; [set_solver|]. intros _ ->. set_solver.
Qed.

Lemma rep_drop bs d c i bn b :
  rep (mkB bs d) c -> held c !! i = Some bn -> bn ∉ touched c -> caches bs i bn b ->
  rep (mkB (alter (clear_flag B_BUSY) i bs) d) (c_drop i c).
Proof.
  intros R Hh Hnt (Hi & Hb & Hd & Hbn).
  destruct (held_buf _ _ _ _ R Hh) as (b' & (_ & Hb' & _) & Hbusy & Hval & Hv & Hl & Hdt & Huniq). cbn [bufs] in *.
  assert (b' = b) as -> by congruence. pose proof (r_sizes _ _ R) as [S1 S2 S3 S4].
  apply (rep_alter bs d c i b); try done; [apply R|apply R| | | | | |].
  - split; cbn [view dsk touched c_drop set_held pinned]; [done|done| |done].
    intros y Hy. pose proof (S3 y Hy) as (j & Hj)%elem_of_held. apply elem_of_held. exists j.
    cbn [held c_drop set_held]. rewrite lookup_delete_ne; [done|]. intros ->. congruence.
  - split; try done; rewrite ?has_clear by auto.
    + by left.
    + by rewrite andb_false_r.
    + cbn [dev blockno data clear_flag set_flags view c_drop set_held]. by rewrite Hbn.
    + cbn [dev blockno data clear_flag set_flags pinned c_drop set_held]. rewrite andb_true_r, Hval, Hbn. by intros ?%Hdt.
  - intros j y Hj Hjn Hy [G1 G2 G3 G4 G5]. split; try done. intros Hbj. cbn [held c_drop set_held].
    rewrite lookup_delete_ne by done. auto.
  - intros _ j y Hj. cbn [blockno clear_flag set_flags]. rewrite Hbn. by apply Huniq.
  - cbn [held c_drop set_held]. intros j y. rewrite lookup_delete_Some. intros [? ?]. left. by split.
  - cbn [pinned c_drop set_held]. intros y Hy. destruct (decide (y = bn)) as [->|]; [right|left; split; [done|congruence]].
    rewrite has_clear by auto. rewrite andb_true_r. split_and!; [done|done|]. by apply Hdt.
Qed.

Lemma brelse_rep P s c i bn :
  rep s c -> held c !! i = Some bn -> bn ∉ touched c -> P (dsk c) ->
  chl (on_disk P) (Bio.brelse i s) (fun _ s' => rep s' (c_drop i c)).
Proof.
  intros R Hh Hnt HP. destruct s as [bs d]. destruct (r_lru _ _ R) as [order L]. cbn [bufs] in L.
  destruct (held_buf _ _ _ _ R Hh) as (b & Hc & Hbusy & _). destruct (Hc) as (Hi & Hb & _). cbn [bufs] in *.
  pose proof (lru_all _ _ L i Hi) as (l1 & l2 & ->)%list_elem_of_split.
  eapply chl_conseq; [apply (brelse_spec _ bs d l1 i l2 b); try done|].
  - intros bs'. pose proof (r_disk _ _ R) as E. cbn [disk] in *. by rewrite E.
  - apply L.
  - intros [] s' (bs' & -> & L' & Hpay).
    eapply rep_pay; [by eapply rep_drop| |done]. split; [exact L'|].
    intros j Hj%(lru_all _ _ L). rewrite elem_of_app, elem_of_cons in Hj. rewrite elem_of_cons, elem_of_app. tauto.
Qed.

(** Power failure: the buffers are zeroed and the driver loses its state; the disk is kept. *)
Definition bio_powerfail (s : state) : state := mkB bcache_zero (unplug (disk s)).
Definition bio_boot : M state unit := binit ;; ideinit.

Lemma boot_rep C s : chl C (bio_boot (bio_powerfail s)) (fun _ s' => rep s' (cache_boot (contents (disk s)))).
Proof.
  unfold bio_boot, bio_powerfail. eapply chl_seq; [apply binit_spec; done|].
  intros [] s' (bs & -> & L & Hpay). eapply chl_conseq; [apply ideinit_law|].
  intros [] s' (d & -> & Hrdy & Hcont).
  assert (forall i b, (i < NBUFn)%nat -> bs !! i = Some b ->
    flags b = 0 /\ dev b = u32 (-1) /\ length (data b) = 512%nat) as Hb.
  { intros i b Hi Hb. specialize (Hpay i Hi). rewrite Hb in Hpay. unfold bcache_zero in Hpay.
    rewrite lookup_replicate_2 in Hpay by lia. apply (inj Some) in Hpay.
    injection Hpay as E1 E2 E3 E4. split_and!; [done|done|]. by rewrite E4. }
  assert (forall i bn b, ~ caches bs i bn b) as Hno.
  { intros i bn b (Hi & Hbi & Hd & _). destruct (Hb i b Hi Hbi) as (_ & Hd' & _). rewrite Hd in Hd'. done. }
  split; cbn [bufs disk]; [by eexists|done|done| | | | |].
  - split; cbn [view dsk touched cache_boot]; [done| |set_solver|done].
    rewrite <- Hcont. intros x. by apply contents_size.
  - intros i b Hi Hbi. destruct (Hb i b Hi Hbi) as (Hf & Hd & Hl). split; [done|by right| | |];
      unfold has; by rewrite Hf, Z.land_0_l.
  - intros i j bn b b' Hx. by destruct (Hno _ _ _ Hx).
  - intros i bn. cbn [held cache_boot]. by rewrite lookup_empty.
  - intros bn. cbn [pinned cache_boot]. set_solver.
Qed.

End refinement.

(** * bio.c implements the block cache *)

Section instance.
Context {D : Type} {DR : Driver D} {DL : DriverLaws D} (fuel : nat).

#[export] Instance bio_ops : BlockOps (bstate D) := {|
  Cache.bread := Bio.bread (S fuel);
  Cache.bwrite := Bio.bwrite;
  Cache.brelse := Bio.brelse;
  Cache.bdata := bio_bdata;
  Cache.bset := bio_bset;
  Cache.bblockno := bio_bblockno;
  Cache.bpin := bio_bpin;
  Cache.powerfail := bio_powerfail;
  Cache.boot := bio_boot
|}.

#[export] Instance bio_laws : BlockLaws (bstate D).
Proof.
  refine {| diskof s := contents (disk s); crep := rep |}.
  - intros. by apply r_disk.
  - intros b c R. destruct (r_sizes _ _ R). done.
  - intros b c bn R. apply (sz_clean _ (r_sizes _ _ R)).
  - intros. by apply bread_rep.
  - intros P b c i bn d R Hh Hv. destruct (held_buf _ _ _ _ R Hh) as (x & (_ & Hb & _) & _ & _ & Hv' & _).
  cbn [bdata bio_ops]. unfold bio_bdata. cstep. apply (chl_get_buf _ _ _ x); [done|]. cstep.
  unfold lookup_view in Hv. split; [congruence|done].
  - intros P b c i bn R Hh. destruct (held_buf _ _ _ _ R Hh) as (x & (_ & Hb & _ & Hbn) & _).
  cbn [bblockno bio_ops]. unfold bio_bblockno. cstep. apply (chl_get_buf _ _ _ x); [done|]. by cstep.
  - intros. by apply bset_rep.
  - intros. by apply bpin_rep.
  - intros. by apply bwrite_rep.
  - intros. by eapply brelse_rep.
  - intros. apply boot_rep.
Defined.

End instance.
