(* ===== verification/Memide.v ===== *)
(** The memory disk: memide.c.

    [memdisk] is the file-system image as bytes, [disksize] its size in blocks.  The
    driver keeps the laws the buffer cache needs ([DriverLaws]). *)

From Stdlib Require Import ZArith Lia.
From stdpp Require Import base tactics option gmap sets strings numbers list.
From S2P Require Import Prelude Layout Bytes Crash Cache Bio BioFacts BioCache.
Open Scope Z_scope.

Record ramdisk := mkRam { memdisk : list Z; disksize : Z }.

Abbreviation state := (bstate ramdisk).
Definition upd_disk (f : ramdisk -> ramdisk) : M state unit := modify (fun s => mkB (bufs s) (f (disk s))).

Definition ideinit : M state unit :=
  upd_disk (fun d => mkRam (memdisk d) (u32 (Z.of_nat (length (memdisk d))) / BSIZE)).

Definition ideintr : M state unit := ret tt.

Definition iderw (i : nat) : M state unit :=
  b <- get_buf i ;;
  if negb (has B_BUSY b) then panic "iderw: buf not busy" else
  if Z.land (flags b) (Z.lor B_VALID B_DIRTY) =? B_VALID then panic "iderw: nothing to do" else
  if negb (dev b =? 1) then panic "iderw: request not for disk 1" else
  d <- gets disk ;;
  if u32 (disksize d) <=? blockno b then panic "iderw: block out of range" else
  let p := u32 (blockno b * BSIZE) in
  (if has B_DIRTY b then
     upd_buf i (clear_flag B_DIRTY) ;;
     upd_disk (fun d => mkRam (splice (memdisk d) p (slice (data b) 0 BSIZE)) (disksize d))
   else
     upd_buf i (set_data (slice (memdisk d) p BSIZE))) ;;
  upd_buf i (set_flag B_VALID).

#[export] Instance memide : Driver ramdisk := {|
  Bio.ideinit := ideinit;
  Bio.iderw := iderw
|}.

(** * Theorems *)

Definition nblocks (m : list Z) : Z := u32 (Z.of_nat (length m)) / BSIZE.
Definition blocks (m : list Z) : list block :=
  (fun k => slice m (Z.of_nat k * BSIZE) BSIZE) <$> seq 0 (Z.to_nat (nblocks m)).

Lemma nblocks_bound m : 0 <= nblocks m /\ nblocks m * BSIZE <= Z.of_nat (length m) /\ nblocks m < 2 ^ 23.
Proof.
  unfold nblocks, BSIZE. pose proof (u32_range (Z.of_nat (length m))).
  assert (u32 (Z.of_nat (length m)) <= Z.of_nat (length m)) by (apply Z.mod_le; lia).
  pose proof (Z.mul_div_le (u32 (Z.of_nat (length m))) 512 ltac:(lia)).
  split_and!; [apply Z.div_pos; lia|lia|]. apply Z.div_lt_upper_bound; lia.
Qed.

Lemma length_blocks m : length (blocks m) = Z.to_nat (nblocks m).
Proof. unfold blocks. by rewrite length_fmap, length_seq. Qed.

Lemma zlookup_blocks m k : 0 <= k < nblocks m -> zlookup (blocks m) k = Some (slice m (k * BSIZE) BSIZE).
Proof.
  intros Hk. unfold zlookup. destruct (Z.ltb_spec k 0); [lia|]. unfold blocks.
  rewrite list_lookup_fmap, lookup_seq_lt by lia. simpl. by rewrite Z2Nat.id by lia.
Qed.

Lemma zlookup_blocks_Some m k x :
  zlookup (blocks m) k = Some x -> 0 <= k < nblocks m /\ x = slice m (k * BSIZE) BSIZE.
Proof.
  intros H. pose proof (zlookup_Some_range _ _ _ H) as Hr. rewrite length_blocks in Hr.
  pose proof (nblocks_bound m). split; [lia|]. rewrite zlookup_blocks in H by lia. congruence.
Qed.

Lemma block_size m k : 0 <= k < nblocks m -> length (slice m (k * BSIZE) BSIZE) = 512%nat.
Proof. intros Hk. pose proof (nblocks_bound m). unfold BSIZE in *. apply length_slice; lia. Qed.

Lemma blocks_splice m k x :
  0 <= k < nblocks m -> length x = 512%nat ->
  blocks (splice m (k * BSIZE) x) = zinsert k x (blocks m).
Proof.
  intros Hk Hx. pose proof (nblocks_bound m) as (_ & Hb & _). unfold BSIZE in *.
  assert (nblocks (splice m (k * 512) x) = nblocks m) as En by (unfold nblocks; by rewrite length_splice).
  unfold zinsert. destruct (Z.ltb_spec k 0); [lia|]. apply list_eq. intros j.
  destruct (decide (j < Z.to_nat (nblocks m))%nat) as [Hj|Hj].
  - unfold blocks. rewrite list_lookup_fmap, En, lookup_seq_lt by done. cbn [fmap option_fmap option_map].
    rewrite Nat.add_0_l. destruct (decide (Z.to_nat k = j)) as [<-|Hne].
    + rewrite list_lookup_insert_eq by (by rewrite length_fmap, length_seq). f_equal.
      rewrite Z2Nat.id by lia. unfold BSIZE. pose proof (slice_splice_same m (k * 512) x) as E.
      rewrite Hx in E. apply E; lia.
    + rewrite list_lookup_insert_ne, list_lookup_fmap, lookup_seq_lt by done. cbn [fmap option_fmap option_map].
      rewrite Nat.add_0_l. f_equal. unfold BSIZE. apply slice_splice_ne; rewrite ?Hx; lia.
  - rewrite !lookup_ge_None_2; [done| |]; rewrite ?length_insert, length_blocks, ?En; lia.
Qed.

Lemma land_valid_dirty b :
  has B_VALID b = false \/ has B_DIRTY b = true -> (Z.land (flags b) (Z.lor B_VALID B_DIRTY) =? B_VALID) = false.
Proof.
  intros H. apply Z.eqb_neq. intros E. change B_VALID with (2 ^ 1) in H. change B_DIRTY with (2 ^ 2) in H.
  rewrite !has_bit in H by lia. destruct H as [H|H].
  - apply (f_equal (fun x => Z.testbit x 1)) in E. rewrite Z.land_spec, H in E. done.
  - apply (f_equal (fun x => Z.testbit x 2)) in E. rewrite Z.land_spec, H in E. done.
Qed.

(** A request that passes the checks. *)
Lemma iderw_spec C bs d i b :
  bs !! i = Some b -> has B_BUSY b = true -> has B_VALID b = false \/ has B_DIRTY b = true ->
  dev b = ROOTDEV -> disksize d = nblocks (memdisk d) -> 0 <= blockno b < nblocks (memdisk d) ->
  (has B_DIRTY b = true -> length (data b) = 512%nat) ->
  let p := blockno b * BSIZE in
  chl C (iderw i (mkB bs d)) (fun _ s' => s' =
    if has B_DIRTY b then
      mkB (alter (fun b => set_flag B_VALID (clear_flag B_DIRTY b)) i bs) (mkRam (splice (memdisk d) p (data b)) (disksize d))
    else mkB (alter (fun b => set_flag B_VALID (set_data (slice (memdisk d) p BSIZE) b)) i bs) d).
Proof.
  intros Hb Hbusy Hvd Hdev Hds Hbn Hl p. pose proof (nblocks_bound (memdisk d)) as (_ & _ & Hmax).
  unfold iderw, upd_disk. cstep. apply (chl_get_buf _ _ _ b); [done|]. rewrite Hbusy, (land_valid_dirty b Hvd), Hdev. cbn [negb].
  change (ROOTDEV =? 1) with true. cbn [negb]. do 2 cstep. cbn [disk]. rewrite Hds, u32_small by lia.
  destruct (Z.leb_spec (nblocks (memdisk d)) (blockno b)); [lia|]. cbv zeta.
  rewrite (u32_small (blockno b * BSIZE)) by (unfold BSIZE; lia).
  destruct (has B_DIRTY b).
  - assert (slice (data b) 0 BSIZE = data b) as Es.
    { unfold BSIZE. replace 512 with (Z.of_nat (length (data b))) by (by rewrite Hl). apply slice_all. }
    do 2 cstep. apply chl_upd_buf. cstep. cbn [bufs disk]. apply chl_upd_buf. rewrite list_alter_alter_eq, Es, Hds. done.
  - cstep. apply chl_upd_buf. apply chl_upd_buf. by rewrite list_alter_alter_eq.
Qed.

#[export] Instance memide_laws : DriverLaws ramdisk.
Proof.
  refine {| contents d := blocks (memdisk d); ready d := disksize d = nblocks (memdisk d);
            unplug d := mkRam (memdisk d) 0 |}.
  - intros d x _ (k & -> & Hk%elem_of_seq)%list_elem_of_fmap. apply block_size. lia.
  - intros P bs d i b x Hr Hb Hbusy Hval Hdty Hdev (Hbn & ->)%zlookup_blocks_Some HP.
    eapply chl_conseq; [apply (iderw_spec _ bs d i b); auto; congruence|]. intros [] s'. by rewrite Hdty.
  - intros P bs d i b Hr Hb Hbusy Hdty Hdev Hbn Hl HP HP'. rewrite length_blocks in Hbn.
    pose proof (nblocks_bound (memdisk d)) as [? _].
    eapply chl_conseq; [apply (iderw_spec _ bs d i b); auto; lia|]. intros [] s'. rewrite Hdty. intros ->.
    eexists. split; [done|]. cbn [memdisk disksize]. split.
    + rewrite Hr. unfold nblocks. by rewrite length_splice.
    + apply blocks_splice; [lia|done].
  - intros C bs d. cbn [Bio.ideinit memide]. unfold ideinit, upd_disk. cstep. eexists. split; [done|].
    cbn [memdisk disksize disk]. done.
Defined.
