(* ===== verification/FsFormat.v ===== *)
(** The on-disk format: fs.h.

    The constants of fs.h and the structures it declares, as offsets into a block.
    Structures are packed as the i386 ABI lays them out; [short] and [uint] fields
    are little-endian. *)

From Stdlib Require Import ZArith Lia.
From stdpp Require Import base tactics option numbers list.
From S2P Require Import Prelude Layout Bytes Crash Bio Cache.
Open Scope Z_scope.

Definition ROOTINO : Z := 1.
Definition NDIRECT : Z := 12.
Definition NINDIRECT : Z := BSIZE / 4.
Definition MAXFILE : Z := NDIRECT + NINDIRECT.

Record superblock := mkSb {
  sb_size : Z;
  sb_nblocks : Z;
  sb_ninodes : Z;
  sb_nlog : Z;
  sb_logstart : Z;
  sb_inodestart : Z;
  sb_bmapstart : Z
}.

(** The bytes of a superblock, and the superblock in the first bytes of a block. *)
Definition sb_bytes (sb : superblock) : list Z :=
  le_enc 4 (sb_size sb) ++ le_enc 4 (sb_nblocks sb) ++ le_enc 4 (sb_ninodes sb) ++ le_enc 4 (sb_nlog sb) ++
  le_enc 4 (sb_logstart sb) ++ le_enc 4 (sb_inodestart sb) ++ le_enc 4 (sb_bmapstart sb).
Definition sb_of (d : block) : superblock :=
  mkSb (get32 d 0) (get32 d 4) (get32 d 8) (get32 d 12) (get32 d 16) (get32 d 20) (get32 d 24).

(** [struct dinode]: 64 bytes. *)
Definition DINODE_SIZE : Z := 64.
Record dinode := mkDinode {
  di_type : Z;
  di_major : Z;
  di_minor : Z;
  di_nlink : Z;
  di_size : Z;
  di_addrs : list Z
}.

Definition dinode_of (d : block) (o : Z) : dinode :=
  mkDinode (s16 (get16 d o)) (s16 (get16 d (o + 2))) (s16 (get16 d (o + 4))) (s16 (get16 d (o + 6)))
    (get32 d (o + 8)) ((fun k => get32 d (o + 12 + 4 * Z.of_nat k)) <$> seq 0 13).
Definition dinode_bytes (x : dinode) : list Z :=
  le_enc 2 (di_type x) ++ le_enc 2 (di_major x) ++ le_enc 2 (di_minor x) ++ le_enc 2 (di_nlink x) ++
  le_enc 4 (di_size x) ++ mjoin (le_enc 4 <$> di_addrs x).

Definition IPB : Z := BSIZE / DINODE_SIZE.
Definition IBLOCK (i : Z) (sb : superblock) : Z := u32 (i / IPB + sb_inodestart sb).
Definition BPB : Z := BSIZE * 8.
Definition BBLOCK (b : Z) (sb : superblock) : Z := u32 (b / BPB + sb_bmapstart sb).

(** [struct dirent]: an inode number and a name of at most [DIRSIZ] bytes. *)
Definition DIRSIZ : Z := 14.
Definition DIRENT_SIZE : Z := 16.

(** [readsb] (fs.c) *)
Section readsb.
Context {B : Type} {BO : BlockOps B}.
Definition readsb (dev : Z) : M B superblock :=
  i <- bread dev 1 ;;
  d <- bdata i ;;
  brelse i ;;
  ret (sb_of d).
End readsb.
