(* ===== verification/File.v ===== *)
(** Open files: file.c, and [pipealloc] of pipe.c.

    A [file] is an entry of the system-wide table with a reference count; behind it is
    a pipe or an inode.  The layers below are reached through the interface [Backend]:
    the calls file.c makes into pipe.c, fs.c and log.c. *)

From stdpp Require Import base tactics option list gmap strings numbers.
From Stdlib Require Import ZArith Lia.
From S2P Require Import Prelude Layout Bytes Bio FsFormat.
Open Scope Z_scope.

Inductive ftype := FD_NONE | FD_PIPE | FD_INODE.
#[export] Instance ftype_eq_dec : EqDecision ftype.
Proof. solve_decision. Defined.

Record file := mkFile {
  type : ftype;
  ref : Z;
  readable : Z;
  writable : Z;
  fpipe : Z;
  ip : nat;
  off : Z
}.

Definition set_ref v f := mkFile (type f) v (readable f) (writable f) (fpipe f) (ip f) (off f).
Definition set_type v f := mkFile v (ref f) (readable f) (writable f) (fpipe f) (ip f) (off f).
Definition set_off v f := mkFile (type f) (ref f) (readable f) (writable f) (fpipe f) (ip f) v.

(** The routines below: an inode is named by its slot in the inode cache, a pipe by its
    address.  [writei] is given the bytes to write, [readi] and [piperead] return the
    bytes read. *)
Class Backend (B : Type) := {
  begin_op : M B unit;
  end_op : M B unit;
  ilock : nat -> M B unit;
  iunlock : nat -> M B unit;
  iput : nat -> M B unit;
  stati : nat -> M B (list Z);
  readi : nat -> Z -> Z -> M B (Z * list Z);
  writei : nat -> list Z -> Z -> M B Z;
  pipeclose : Z -> Z -> M B unit;
  piperead : Z -> Z -> M B (Z * list Z);
  pipewrite : Z -> list Z -> M B Z;
  pipe_new : M B Z;
  pipe_free : Z -> M B unit
}.

Section file.
Context {B : Type} {BO : Backend B}.

Record fstate := mkF { ftable : list file; back : B }.
Definition set_ftable v s := mkF v (back s).
Definition set_back v s := mkF (ftable s) v.
#[export] Instance lens_back : Lens fstate B.
Proof. refine {| lget := back; lput := set_back |}; [done|by intros []|done]. Defined.

Definition get_file (f : nat) : M fstate file :=
  fun s => match ftable s !! f with Some x => Ret x s | None => Undef "stray file pointer" end.
Definition upd_file (f : nat) (g : file -> file) : M fstate unit :=
  modify (fun s => set_ftable (alter g f (ftable s)) s).

(** The zeroed table [fileinit] finds; [fileinit] itself only names the lock. *)
Definition ftable_zero : list file := replicate (Z.to_nat NFILE) (mkFile FD_NONE 0 0 0 0 0 0).

Definition filealloc : M fstate (option nat) :=
  acquire LK_ftable ;;
  fs <- gets ftable ;;
  match find_index (fun f => ref f =? 0) fs with
  | Some i => upd_file i (set_ref 1) ;; release LK_ftable ;; ret (Some i)
  | None => release LK_ftable ;; ret None
  end.

Definition filedup (f : nat) : M fstate nat :=
  acquire LK_ftable ;;
  x <- get_file f ;;
  if ref x <? 1 then panic "filedup" else
  upd_file f (set_ref (s32 (ref x + 1))) ;;
  release LK_ftable ;;
  ret f.

Definition fileclose (f : nat) : M fstate unit :=
  acquire LK_ftable ;;
  x <- get_file f ;;
  if ref x <? 1 then panic "fileclose" else
  upd_file f (set_ref (ref x - 1)) ;;
  if 0 <? ref x - 1 then release LK_ftable else
  ff <- get_file f ;;
  upd_file f (fun x => set_type FD_NONE (set_ref 0 x)) ;;
  release LK_ftable ;;
  match type ff with
  | FD_PIPE => zoom (pipeclose (fpipe ff) (writable ff))
  | FD_INODE => zoom begin_op ;; zoom (iput (ip ff)) ;; zoom end_op
  | FD_NONE => ret tt
  end.

(** The bytes of [struct stat], or -1. *)
Definition filestat (f : nat) : M fstate (Z * list Z) :=
  x <- get_file f ;;
  match type x with
  | FD_INODE =>
      zoom (ilock (ip x)) ;;
      st <- zoom (stati (ip x)) ;;
      zoom (iunlock (ip x)) ;;
      ret (0, st)
  | _ => ret (-1, [])
  end.

Definition fileread (f : nat) (n : Z) : M fstate (Z * list Z) :=
  x <- get_file f ;;
  if readable x =? 0 then ret (-1, []) else
  match type x with
  | FD_PIPE => zoom (piperead (fpipe x) n)
  | FD_INODE =>
      zoom (ilock (ip x)) ;;
      y <- get_file f ;;
      r <- zoom (readi (ip x) (off y) n) ;;
      when (0 <? fst r) (upd_file f (fun z => set_off (u32 (off z + fst r)) z)) ;;
      zoom (iunlock (ip x)) ;;
      ret r
  | FD_NONE => panic "fileread"
  end.

(** [int max = ((LOGSIZE - 1 - 1 - 2) / 2) * 512] *)
Definition max_write : Z := ((LOGSIZE - 1 - 1 - 2) / 2) * 512.

(** The loop of [filewrite] from byte [i]; [None] where the write is cut short. *)
Fixpoint filewrite_loop (fuel : nat) (f : nat) (bs : list Z) (i : Z) : M fstate Z :=
  let n := Z.of_nat (length bs) in
  if i <? n then
    match fuel with
    | O => nofuel
    | S k =>
        let n1 := if max_write <? n - i then max_write else n - i in
        x <- get_file f ;;
        zoom begin_op ;;
        zoom (ilock (ip x)) ;;
        y <- get_file f ;;
        r <- zoom (writei (ip x) (take (Z.to_nat n1) (drop (Z.to_nat i) bs)) (off y)) ;;
        when (0 <? r) (upd_file f (fun z => set_off (u32 (off z + r)) z)) ;;
        zoom (iunlock (ip x)) ;;
        zoom end_op ;;
        if r <? 0 then ret i
        else if negb (r =? n1) then panic "short filewrite"
        else filewrite_loop k f bs (i + r)
    end
  else ret i.

Definition filewrite (f : nat) (bs : list Z) : M fstate Z :=
  x <- get_file f ;;
  if writable x =? 0 then ret (-1) else
  match type x with
  | FD_PIPE => zoom (pipewrite (fpipe x) bs)
  | FD_INODE =>
      i <- filewrite_loop (length bs) f bs 0 ;;
      ret (if i =? Z.of_nat (length bs) then i else -1)
  | FD_NONE => panic "filewrite"
  end.

(** The error exit of [pipealloc]. *)
Definition pipealloc_bad (p : Z) (f0 f1 : option nat) : M fstate (option (nat * nat)) :=
  when (negb (p =? 0)) (zoom (pipe_free p)) ;;
  match f0 with Some f => fileclose f | None => ret tt end ;;
  match f1 with Some f => fileclose f | None => ret tt end ;;
  ret None.

(** The two ends of a new pipe, or [None] for -1. *)
Definition pipealloc : M fstate (option (nat * nat)) :=
  r0 <- filealloc ;;
  match r0 with
  | None => pipealloc_bad 0 None None
  | Some f0 =>
      r1 <- filealloc ;;
      match r1 with
      | None => pipealloc_bad 0 (Some f0) None
      | Some f1 =>
          p <- zoom pipe_new ;;
          if p =? 0 then pipealloc_bad 0 (Some f0) (Some f1) else
          upd_file f0 (fun x => mkFile FD_PIPE (ref x) 1 0 p (ip x) (off x)) ;;
          upd_file f1 (fun x => mkFile FD_PIPE (ref x) 0 1 p (ip x) (off x)) ;;
          ret (Some (f0, f1))
      end
  end.

(** * Theorems *)

Lemma run_get_file f s x : ftable s !! f = Some x -> run (get_file f s) = ROk x s.
Proof. unfold get_file. by intros ->. Qed.

Lemma run_upd_file f g s : run (upd_file f g s) = ROk tt (set_ftable (alter g f (ftable s)) s).
Proof. done. Qed.

(** The state with entry [f] set to [x]. *)
Definition put_file (f : nat) (x : file) (s : fstate) : fstate := set_ftable (<[f := x]> (ftable s)) s.

Lemma alter_put f g x s :
  ftable s !! f = Some x -> set_ftable (alter g f (ftable s)) s = put_file f (g x) s.
Proof.
  intros Hx. unfold put_file. by rewrite (alter_lookup g f _ x).
Qed.

Lemma put_file_lookup f x y s : ftable s !! f = Some y -> ftable (put_file f x s) !! f = Some x.
Proof. intros H. cbn [put_file ftable set_ftable]. apply list_lookup_insert_eq. by eapply lookup_lt_Some. Qed.

Lemma put_file_twice f x y s : put_file f x (put_file f y s) = put_file f x s.
Proof. unfold put_file, set_ftable; cbn [ftable back]. by rewrite list_insert_insert_eq. Qed.

(** The resource behind a file is released exactly when its last reference goes: as long as
    other references remain [fileclose] only counts down; the last one empties the table entry first
    and then closes the pipe end, or puts the inode back inside a log operation, and nothing else. *)
Theorem fileclose_last f x s :
  ftable s !! f = Some x -> 1 <= ref x ->
  run (fileclose f s) =
    if 1 <? ref x then ROk tt (put_file f (set_ref (ref x - 1) x) s)
    else
      let s1 := put_file f (set_type FD_NONE (set_ref 0 x)) s in
      match type x with
      | FD_PIPE => rzoom (run (pipeclose (fpipe x) (writable x) (back s))) s1
      | FD_INODE => rzoom (run ((begin_op ;; iput (ip x) ;; end_op) (back s))) s1
      | FD_NONE => ROk tt s1
      end.
Proof.
  intros Hx Hr. unfold fileclose. mrun. rewrite (run_get_file f s x) by done. cbn [rbind].
  destruct (Z.ltb_spec (ref x) 1); [lia|]. mrun. rewrite run_upd_file, (alter_put f _ x) by done. cbn [rbind].
  destruct (Z.ltb_spec 0 (ref x - 1)), (Z.ltb_spec 1 (ref x)); try lia; [by mrun|].
  assert (ref x - 1 = 0) as -> by lia. mrun.
  rewrite (run_get_file f _ (set_ref 0 x)) by (by eapply put_file_lookup). cbn [rbind]. mrun.
  rewrite run_upd_file, (alter_put f _ (set_ref 0 x)) by (by eapply put_file_lookup). cbn [rbind]. mrun.
  rewrite put_file_twice. cbn [type set_ref]. destruct (type x); [by mrun| |].
  - mrun. done.
  - mrun. cbn [lget lens_back back put_file set_ftable].
    destruct (run (begin_op (back s))); simpl; try done. mrun. cbn [lget lput lens_back back set_back].
    destruct (run (iput (ip x) _)); simpl; try done. mrun. cbn [lget lput lens_back back set_back].
    by destruct (run (end_op _)).
Qed.

(** A file that is allocated is not in use: [filealloc] returns the first entry without
    references and gives it one, or reports failure when every entry has one. *)
Theorem filealloc_fresh s :
  run (filealloc s) =
    match find_index (fun f => ref f =? 0) (ftable s) with
    | Some i => ROk (Some i) (set_ftable (alter (set_ref 1) i (ftable s)) s)
    | None => ROk None s
    end /\
  (forall i, find_index (fun f => ref f =? 0) (ftable s) = Some i ->
     (ref <$> ftable s !! i) = Some 0 /\
     forall x j, j <> i -> ftable (set_ftable (alter (set_ref 1) i (ftable s)) s) !! j = Some x ->
       ftable s !! j = Some x).
Proof.
  split.
  - unfold filealloc. mrun. destruct (find_index _ _); mrun; [rewrite run_upd_file; cbn [rbind]|]; by mrun.
  - intros i ((x & Hx & H0) & _)%find_index_Some. split.
    + rewrite Hx. simpl. f_equal. lia.
    + intros y j Hj. cbn [ftable set_ftable]. by rewrite list_lookup_alter_ne.
Qed.

(** One piece of a write can need more log blocks than the operation reserved: 13 data
    blocks against [MAXOPBLOCKS]. *)
Lemma max_write_blocks : max_write / 512 = 13 /\ MAXOPBLOCKS = 10.
Proof. done. Qed.

End file.
Arguments fstate B : clear implicits.

(** * filewrite *)

(** ** Which calls are made *)

Inductive call :=
| CBegin | CEnd | CLock (i : nat) | CUnlock (i : nat) | CPut (i : nat) | CStat (i : nat) | CRead (i : nat) (o n : Z)
| CWrite (i : nat) (o : Z) (bs : list Z) | CPipeClose (p w : Z) | CPipeRead (p n : Z) | CPipeWrite (p : Z) (bs : list Z) | CPipeNew | CPipeFree (p : Z).

Section recorded.
Context {B : Type} {BO : Backend B}.

#[export] Instance lens_recorded : Lens (B * list call) B.
Proof. refine {| lget := fst; lput b s := (b, s.2) |}; [done|by intros []|done]. Defined.

(** The layers below, with a list of the calls made to them. *)
Definition noted {A} (c : call) (m : M B A) : M (B * list call) A := modify (fun s => (s.1, s.2 ++ [c])) ;; zoom m.
Definition recorded : Backend (B * list call) := {|
  begin_op := noted CBegin begin_op; end_op := noted CEnd end_op; ilock i := noted (CLock i) (ilock i); iunlock i := noted (CUnlock i) (iunlock i);
  iput i := noted (CPut i) (iput i); stati i := noted (CStat i) (stati i); readi i o n := noted (CRead i o n) (readi i o n);
  writei i bs o := noted (CWrite i o bs) (writei i bs o); pipeclose p w := noted (CPipeClose p w) (pipeclose p w);
  piperead p n := noted (CPipeRead p n) (piperead p n); pipewrite p bs := noted (CPipeWrite p bs) (pipewrite p bs);
  pipe_new := noted CPipeNew pipe_new; pipe_free p := noted (CPipeFree p) (pipe_free p) |}.

Lemma run_noted {A} c (m : M B A) b cs a b' : run (m b) = ROk a b' -> run (noted c m (b, cs)) = ROk a (b', cs ++ [c]).
Proof. intros H. unfold noted. mrun. cbn [lget lens_recorded fst]. by rewrite H. Qed.
(** A call of the layers below, and what follows it. *)
Lemma run_call {A A'} c (m : M B A) (K : A -> M (fstate (B * list call)) A') ft b cs a b' :
  run (m b) = ROk a b' -> run (bind (zoom (noted c m)) K (mkF ft (b, cs))) = run (K a (mkF ft (b', cs ++ [c]))).
Proof. intros H. rewrite run_bind, run_zoom. change (lget (mkF ft (b, cs))) with (b, cs). by rewrite (run_noted _ _ _ _ _ _ H). Qed.
End recorded.

(** ** The pieces of a write *)

(** The first [m] pieces. *)
Fixpoint pieces (m : nat) (bs : list Z) : list (list Z) :=
  match m with
  | O => []
  | S m => take (Z.to_nat max_write) bs :: pieces m (drop (Z.to_nat max_write) bs)
  end.
Lemma pieces_concat m bs : concat (pieces m bs) = take (Z.to_nat (max_write * Z.of_nat m)) bs.
Proof.
  revert bs. induction m as [|m IH]; intros bs; cbn [pieces concat]; [done|]. rewrite IH, take_take_drop. f_equal. change max_write with 6656. lia.
Qed.
Lemma pieces_small m bs : Forall (fun c => Z.of_nat (length c) <= max_write) (pieces m bs).
Proof. revert bs. induction m as [|m IH]; intros bs; constructor; [|apply IH]. rewrite length_take. change max_write with 6656. lia. Qed.

Section filewrite.
(** [file_is b l k]: the inode [i] is a file that holds the bytes [l], and there is room for [k] more pieces, in
    the log and on the disk.  [writei] refuses to leave a gap and to go beyond the largest file; otherwise it takes all the bytes. *)
Context {B : Type} {BO : Backend B} (f i : nat) (file_is : B -> list Z -> nat -> Prop).
Definition accepted (l : list Z) (o : Z) (bs : list Z) : bool :=
  (o <=? Z.of_nat (length l)) && (o + Z.of_nat (length bs) <=? MAXFILE * BSIZE).
Hypothesis begin_ok : forall b l k, file_is b l k -> exists b', run (begin_op b) = ROk tt b' /\ file_is b' l k.
Hypothesis end_ok : forall b l k, file_is b l k -> exists b', run (end_op b) = ROk tt b' /\ file_is b' l k.
Hypothesis lock_ok : forall b l k, file_is b l k -> exists b', run (ilock i b) = ROk tt b' /\ file_is b' l k.
Hypothesis unlock_ok : forall b l k, file_is b l k -> exists b', run (iunlock i b) = ROk tt b' /\ file_is b' l k.
Hypothesis write_ok : forall b l k bs o, file_is b l (S k) -> 0 <= o < 2 ^ 32 -> Z.of_nat (length bs) <= max_write ->
  exists b', if accepted l o bs then run (writei i bs o b) = ROk (Z.of_nat (length bs)) b' /\ file_is b' (overwrite l o bs) k
             else run (writei i bs o b) = ROk (-1) b' /\ file_is b' l k.

Abbreviation fileloop := (filewrite_loop (BO := recorded)).

(** The calls for one piece, and for pieces one after the other. *)
Definition piece_calls (o : Z) (c : list Z) : list call := [CBegin; CLock i; CWrite i o c; CUnlock i; CEnd].
Fixpoint write_calls (o : Z) (cs : list (list Z)) : list call :=
  match cs with
  | [] => []
  | c :: cs' => piece_calls o c ++ write_calls (o + Z.of_nat (length c)) cs'
  end.
Lemma write_calls_app o cs c : write_calls o (cs ++ [c]) = write_calls o cs ++ piece_calls (o + Z.of_nat (length (concat cs))) c.
Proof.
  revert o. induction cs as [|d cs IH]; intros o; cbn [write_calls concat app length].
  - by rewrite Z.add_0_r, app_nil_r.
  - rewrite IH, length_app, <- app_assoc. do 3 f_equal. lia.
Qed.

(** One turn of the loop. *)
Lemma loop_turn fuel bs (k0 : nat) x ft b cs l k :
  ft !! f = Some x -> ip x = i -> 0 <= off x < 2 ^ 32 -> file_is b l (S k) -> (k0 < length bs)%nat ->
  let c := take (Z.to_nat max_write) (drop k0 bs) in
  exists b', let s' g := mkF g (b', cs ++ piece_calls (off x) c) in
    if accepted l (off x) c then file_is b' (overwrite l (off x) c) k /\
      run (fileloop (S fuel) f bs (Z.of_nat k0) (mkF ft (b, cs))) =
      run (fileloop fuel f bs (Z.of_nat (k0 + length c)) (s' (<[f := set_off (u32 (off x + Z.of_nat (length c))) x]> ft)))
    else file_is b' l k /\ run (fileloop (S fuel) f bs (Z.of_nat k0) (mkF ft (b, cs))) = ROk (Z.of_nat k0) (s' ft).
Proof.
  intros Hx Hi Ho Hf Hk c. destruct (begin_ok b l _ Hf) as (b1 & R1 & F1). destruct (lock_ok b1 l _ F1) as (b2 & R2 & F2).
  set (n1 := if max_write <? Z.of_nat (length bs) - Z.of_nat k0 then max_write else Z.of_nat (length bs) - Z.of_nat k0).
  assert (Z.of_nat (length c) = n1 /\ 0 < n1) as [Elen Hn1].
  { unfold c, n1. rewrite length_take, length_drop. change max_write with 6656. destruct (Z.ltb_spec 6656 (Z.of_nat (length bs) - Z.of_nat k0)); lia. }
  assert (take (Z.to_nat n1) (drop (Z.to_nat (Z.of_nat k0)) bs) = c) as Ec.
  { rewrite Nat2Z.id. unfold c, n1. destruct (Z.ltb_spec max_write (Z.of_nat (length bs) - Z.of_nat k0)); [done|].
    rewrite !take_ge; [done|rewrite length_drop; lia|rewrite length_drop; lia]. }
  assert (Z.of_nat (length c) <= max_write) as Hmax by (unfold c; rewrite length_take; change max_write with 6656; lia).
  destruct (write_ok b2 l k c (off x) F2 Ho Hmax) as (b3 & W).
  cbn [filewrite_loop]. cbv zeta. destruct (Z.ltb_spec (Z.of_nat k0) (Z.of_nat (length bs))); [|lia].
  rewrite run_bind, (run_get_file f _ x) by done. cbn [rbind]. rewrite Hi. fold n1. rewrite Ec. cbn [begin_op ilock writei iunlock end_op recorded].
  rewrite (run_call _ _ _ _ _ _ _ _ R1), (run_call _ _ _ _ _ _ _ _ R2), run_bind, (run_get_file f _ x) by done. cbn [rbind].
  destruct (accepted l (off x) c); destruct W as [R3 F3]; destruct (unlock_ok b3 _ _ F3) as (b4 & R4 & F4); destruct (end_ok b4 _ _ F4) as (b5 & R5 & F5);
    exists b5; (split; [done|]); rewrite (run_call _ _ _ _ _ _ _ _ R3), run_bind, run_when.
  - destruct (Z.ltb_spec 0 (Z.of_nat (length c))); [|lia]. rewrite run_upd_file, (alter_put f _ x) by done. unfold put_file, set_ftable. cbn [rbind ftable back].
    rewrite (run_call _ _ _ _ _ _ _ _ R4), (run_call _ _ _ _ _ _ _ _ R5). destruct (Z.ltb_spec (Z.of_nat (length c)) 0); [lia|].
    rewrite Elen, Z.eqb_refl. cbn [negb]. rewrite <- Elen, <- Nat2Z.inj_add, <- !app_assoc. done.
  - change (0 <? -1) with false. cbn [rbind]. rewrite (run_call _ _ _ _ _ _ _ _ R4), (run_call _ _ _ _ _ _ _ _ R5). change (-1 <? 0) with true.
    rewrite <- !app_assoc. done.
Qed.

(** Pieces that are all accepted. *)
Lemma loop_pieces m fuel bs (k0 : nat) x ft b cs l k :
  let ps := pieces m (drop k0 bs) in
  ft !! f = Some x -> ip x = i -> 0 <= off x <= Z.of_nat (length l) -> off x + Z.of_nat (length (concat ps)) <= MAXFILE * BSIZE ->
  file_is b l (m + k) -> m = 0%nat \/ Z.of_nat k0 + max_write * (Z.of_nat m - 1) < Z.of_nat (length bs) ->
  exists b', file_is b' (overwrite l (off x) (concat ps)) k /\
    run (fileloop (m + fuel) f bs (Z.of_nat k0) (mkF ft (b, cs))) =
    run (fileloop fuel f bs (Z.of_nat (k0 + length (concat ps))) (mkF (<[f := set_off (off x + Z.of_nat (length (concat ps))) x]> ft) (b', cs ++ write_calls (off x) ps))).
Proof.
  cbv zeta. revert k0 x ft b cs l. change (MAXFILE * BSIZE) with 71680. pose proof (eq_refl : Z.of_nat (Z.to_nat max_write) = 6656) as Hq. change (max_write * _) with (6656 * (Z.of_nat m - 1)).
  induction m as [|m IH]; intros k0 x ft b cs l Hx Hi Ho Hmax Hf Hm; cbn [pieces concat write_calls length].
  { exists b. rewrite overwrite_nil, app_nil_r, Nat.add_0_r, Z.add_0_r. split; [done|]. cbn [Nat.add]. rewrite list_insert_id; [done|]. by destruct x. }
  cbn [pieces concat] in Hmax. rewrite length_app in Hmax. destruct (loop_turn (m + fuel) bs k0 x ft b cs l (m + k) Hx Hi) as (b1 & T); [lia|exact Hf|lia|].
  set (q := Z.to_nat max_write) in *. set (c := take q (drop k0 bs)) in *. rewrite drop_drop in *. assert (length c <= q)%nat as Hc1 by (unfold c; rewrite length_take; lia).
  unfold accepted in T. change (MAXFILE * BSIZE) with 71680 in T. destruct (Z.leb_spec (off x) (Z.of_nat (length l))); [|lia]. destruct (Z.leb_spec (off x + Z.of_nat (length c)) 71680); [|lia].
  cbn [andb] in T. destruct T as [F1 R1]. rewrite u32_small in R1 by lia. cbn [Nat.add]. rewrite R1. clear R1.
  destruct (decide (m = 0%nat)) as [->|Hm0].
  { exists b1. cbn [pieces concat write_calls Nat.add]. rewrite !app_nil_r. done. }
  assert (length c = q)%nat as Hc by (unfold c; rewrite length_take, length_drop; lia). replace (k0 + q)%nat with (k0 + length c)%nat in * by lia.
  pose proof (length_overwrite l (off x) c Ho).
  destruct (IH (k0 + length c)%nat (set_off (off x + Z.of_nat (length c)) x) (<[f := set_off (off x + Z.of_nat (length c)) x]> ft) b1 (cs ++ piece_calls (off x) c) (overwrite l (off x) c))
    as (b2 & F2 & R2); cbn [off set_off ip]; [apply list_lookup_insert_eq; by eapply lookup_lt_Some|done|lia|lia|done|right; lia|].
  exists b2. cbn [off set_off] in F2, R2. rewrite overwrite_app in F2 by done. split; [done|]. rewrite R2, length_app, list_insert_insert_eq, <- app_assoc, Nat.add_assoc.
  match goal with |- context [off x + Z.of_nat (length c + ?r)] => replace (off x + Z.of_nat (length c + r)) with (off x + Z.of_nat (length c) + Z.of_nat r) by lia end. done.
Qed.

Lemma run_filewrite bs x s r s' :
  ftable s !! f = Some x -> type x = FD_INODE -> writable x <> 0 -> run (fileloop (length bs) f bs 0 s) = ROk r s' ->
  run (filewrite (BO := recorded) f bs s) = ROk (if r =? Z.of_nat (length bs) then r else -1) s'.
Proof.
  intros Hx Ht Hw Hr. unfold filewrite. rewrite run_bind, (run_get_file f s x) by done. cbn [rbind].
  destruct (Z.eqb_spec (writable x) 0); [done|]. rewrite Ht, run_bind, Hr. done.
Qed.

End filewrite.

(** * Concrete states *)

Section concrete.
(** One file, inode 3, as a list of bytes. *)
Let bytes_file : Backend (list Z) := {|
  begin_op := ret tt; end_op := ret tt; ilock _ := ret tt; iunlock _ := ret tt; iput _ := ret tt; stati _ := ret []; readi _ _ _ := ret (0, []);
  writei i bs o := fun l => if accepted l o bs then Ret (Z.of_nat (length bs)) (overwrite l o bs) else Ret (-1) l;
  pipeclose _ _ := ret tt; piperead _ _ := ret (0, []); pipewrite _ bs := ret (Z.of_nat (length bs)); pipe_new := ret 1; pipe_free _ := ret tt |}.

Lemma fileclose_last_witness :
  run (fileclose (BO:=recorded (BO:=bytes_file)) 0 (mkF [mkFile FD_INODE 1 1 1 0 3 0] ([], []))) =
    ROk tt (mkF [mkFile FD_NONE 0 1 1 0 3 0] ([], [CBegin; CPut 3; CEnd])).
Proof. by rewrite (fileclose_last (BO:=recorded (BO:=bytes_file)) 0 (mkFile FD_INODE 1 1 1 0 3 0)). Defined.

(** Seven bytes from offset 2 of a file of five; and from offset 6, beyond its end. *)
Let at_off (o : Z) : file := mkFile FD_INODE 1 1 1 0 3 o.
End concrete.
