(* ===== verification/Log.v ===== *)
(** The redo log: log.c, over the block cache of Cache.v.

    [log] is the structure of log.c; [lh_n] and [lh_block] are its [logheader].  The
    header block on disk has the same layout: [n], then [LOGSIZE] block numbers. *)

From Stdlib Require Import ZArith Lia.
From stdpp Require Import base tactics option gmap sets strings numbers list.
From S2P Require Import Prelude Layout Bytes Crash Bio Cache FsFormat.
Open Scope Z_scope.

Record log := mkLog {
  start : Z;
  lsize : Z;
  outstanding : Z;
  committing : Z;
  ldev : Z;
  lh_n : Z;
  lh_block : list Z
}.

Definition set_outstanding v l := mkLog (start l) (lsize l) v (committing l) (ldev l) (lh_n l) (lh_block l).
Definition set_committing v l := mkLog (start l) (lsize l) (outstanding l) v (ldev l) (lh_n l) (lh_block l).
Definition set_lh_n v l := mkLog (start l) (lsize l) (outstanding l) (committing l) (ldev l) v (lh_block l).
Definition set_lh_block v l := mkLog (start l) (lsize l) (outstanding l) (committing l) (ldev l) (lh_n l) v.

Definition log_zero : log := mkLog 0 0 0 0 0 0 (replicate (Z.to_nat LOGSIZE) 0).

(** [n] and [block[i]] of a header block. *)
Definition hdr_n (d : block) : Z := s32 (get32 d 0).
Definition hdr_block (d : block) (i : Z) : Z := s32 (get32 d (4 + 4 * i)).

(** [hb->n = n; for (i = 0; i < n; i++) hb->block[i] = block[i];] *)
Definition hdr_put (d : block) (n : Z) (bs : list Z) : block :=
  foldl (fun d p => put32 d (4 + 4 * Z.of_nat (fst p)) (snd p)) (put32 d 0 n)
    (zip (seq 0 (Z.to_nat n)) bs).

(** The log and the block cache below it. *)
Record lstate (B : Type) := mkL { lg : log; lb : B }.
Arguments mkL {B} lg lb.
Arguments lg {B} l.
Arguments lb {B} l.
#[export] Instance lens_lb {B} : Lens (lstate B) B.
Proof. refine {| lget := lb; lput b s := mkL (lg s) b |}; [done|by intros []|done]. Defined.

Section log.
Context {B : Type} {BO : BlockOps B}.
Abbreviation M := (M (lstate B)).

Definition upd_log (f : log -> log) : M unit := modify (fun s => mkL (f (lg s)) (lb s)).

(** [log.lh.block[i]]: outside the array the access is undefined. *)
Definition lh_get (i : Z) : M Z :=
  l <- gets lg ;;
  match zlookup (lh_block l) i with Some b => ret b | None => undef "log.lh.block out of bounds" end.
Definition lh_set (i v : Z) : M unit :=
  l <- gets lg ;;
  if bool_decide (0 <= i < Z.of_nat (length (lh_block l)))
  then upd_log (fun l => set_lh_block (zinsert i v (lh_block l)) l)
  else undef "log.lh.block out of bounds".

(** The rounds of [install_trans] from [tail]; the array has [LOGSIZE] entries, so
    [LOGSIZE + 1] rounds are enough. *)
Fixpoint install_loop (fuel : nat) (tail : Z) : M unit :=
  l <- gets lg ;;
  if tail <? lh_n l then
    match fuel with
    | O => nofuel
    | S k =>
        lbuf <- zoom (bread (ldev l) (u32 (start l + tail + 1))) ;;
        bn <- lh_get tail ;;
        dbuf <- zoom (bread (ldev l) (u32 bn)) ;;
        x <- zoom (bdata lbuf) ;;
        zoom (bset dbuf x) ;;
        zoom (bwrite dbuf) ;;
        zoom (brelse lbuf) ;;
        zoom (brelse dbuf) ;;
        install_loop k (tail + 1)
    end
  else ret tt.
Definition install_trans : M unit := install_loop (S (Z.to_nat LOGSIZE)) 0.

Fixpoint read_head_loop (fuel : nat) (d : block) (i : Z) : M unit :=
  l <- gets lg ;;
  if i <? lh_n l then
    match fuel with
    | O => nofuel
    | S k => lh_set i (hdr_block d i) ;; read_head_loop k d (i + 1)
    end
  else ret tt.
Definition read_head : M unit :=
  l <- gets lg ;;
  i <- zoom (bread (ldev l) (u32 (start l))) ;;
  d <- zoom (bdata i) ;;
  upd_log (set_lh_n (hdr_n d)) ;;
  read_head_loop (S (Z.to_nat LOGSIZE)) d 0 ;;
  zoom (brelse i).

Definition write_head : M unit :=
  l <- gets lg ;;
  i <- zoom (bread (ldev l) (u32 (start l))) ;;
  d <- zoom (bdata i) ;;
  if bool_decide (lh_n l <= Z.of_nat (length (lh_block l))) then
    zoom (bset i (hdr_put d (lh_n l) (lh_block l))) ;;
    zoom (bwrite i) ;;
    zoom (brelse i)
  else undef "log.lh.block out of bounds".

Definition recover_from_log : M unit :=
  read_head ;;
  install_trans ;;
  upd_log (set_lh_n 0) ;;
  write_head.

Definition initlog (dev : Z) : M unit :=
  if BSIZE <=? 4 + 4 * LOGSIZE then panic "initlog: too big logheader" else
  sb <- zoom (readsb dev) ;;
  upd_log (fun l => mkLog (s32 (sb_logstart sb)) (s32 (sb_nlog sb)) (outstanding l) (committing l) dev (lh_n l) (lh_block l)) ;;
  recover_from_log.

(** A round of [begin_op]'s loop per wakeup. *)
Fixpoint begin_op_loop (fuel : nat) : M unit :=
  match fuel with
  | O => nofuel
  | S k =>
      l <- gets lg ;;
      if negb (committing l =? 0) then
        sleep_on CH_log LK_log ;; begin_op_loop k
      else if LOGSIZE <? lh_n l + (outstanding l + 1) * MAXOPBLOCKS then
        sleep_on CH_log LK_log ;; begin_op_loop k
      else
        upd_log (fun l => set_outstanding (outstanding l + 1) l) ;;
        release LK_log
  end.
Definition begin_op (fuel : nat) : M unit :=
  acquire LK_log ;;
  begin_op_loop fuel.

Fixpoint write_log_loop (fuel : nat) (tail : Z) : M unit :=
  l <- gets lg ;;
  if tail <? lh_n l then
    match fuel with
    | O => nofuel
    | S k =>
        to <- zoom (bread (ldev l) (u32 (start l + tail + 1))) ;;
        bn <- lh_get tail ;;
        from <- zoom (bread (ldev l) (u32 bn)) ;;
        x <- zoom (bdata from) ;;
        zoom (bset to x) ;;
        zoom (bwrite to) ;;
        zoom (brelse from) ;;
        zoom (brelse to) ;;
        write_log_loop k (tail + 1)
    end
  else ret tt.
Definition write_log : M unit := write_log_loop (S (Z.to_nat LOGSIZE)) 0.

Definition commit : M unit :=
  l <- gets lg ;;
  if 0 <? lh_n l then
    write_log ;;
    write_head ;;
    install_trans ;;
    upd_log (set_lh_n 0) ;;
    write_head
  else ret tt.

Definition end_op : M unit :=
  acquire LK_log ;;
  upd_log (fun l => set_outstanding (outstanding l - 1) l) ;;
  l <- gets lg ;;
  if negb (committing l =? 0) then panic "log.committing" else
  do_commit <-
    (if outstanding l =? 0 then upd_log (set_committing 1) ;; ret true
     else wakeup CH_log ;; ret false) ;;
  release LK_log ;;
  when do_commit (
    commit ;;
    acquire LK_log ;;
    upd_log (set_committing 0) ;;
    wakeup CH_log ;;
    release LK_log).

Definition log_write (b : nat) : M unit :=
  l <- gets lg ;;
  if (LOGSIZE <=? lh_n l) || (lsize l - 1 <=? lh_n l) then panic "too big a transaction" else
  if outstanding l <? 1 then panic "log_write outside of trans" else
  acquire LK_log ;;
  l <- gets lg ;;
  bn <- zoom (bblockno b) ;;
  let i := match find_index (fun x => u32 x =? bn) (take (Z.to_nat (lh_n l)) (lh_block l)) with
           | Some k => Z.of_nat k
           | None => lh_n l
           end in
  lh_set i (s32 bn) ;;
  when (i =? lh_n l) (upd_log (fun l => set_lh_n (lh_n l + 1) l)) ;;
  zoom (bpin b) ;;
  release LK_log.

End log.
