(* ===== verification/LogFacts.v ===== *)
(** Crash safety of the log (Log.v).

    [replay] is what recovery computes: the disk with the blocks the header lists copied
    from the log to their places.  The theorems are proved against the interface of
    Cache.v: whatever point [commit] is stopped at, replaying gives the state before the
    transaction or the state after it; recovery computes [replay], also when it is
    itself interrupted any number of times. *)

From Stdlib Require Import ZArith Lia.
From stdpp Require Import base tactics option gmap sets strings numbers list.
From S2P Require Import Prelude Layout Bytes Crash Bio Cache FsFormat Log.
Open Scope Z_scope.

(** * Installing blocks *)

Definition install (ps : list (Z * block)) (d : list block) : list block :=
  foldl (fun d p => zinsert (fst p) (snd p) d) d ps.

Lemma install_app ps qs d : install (ps ++ qs) d = install qs (install ps d).
Proof. apply foldl_app. Qed.
Lemma length_install ps d : length (install ps d) = length d.
Proof. revert d. induction ps as [|p ps IH]; intros d; simpl; [done|]. by rewrite IH, length_zinsert. Qed.
Lemma install_ne ps d j : j ∉ ps.*1 -> zlookup (install ps d) j = zlookup d j.
Proof.
  revert d. induction ps as [|p ps IH]; intros d Hj; simpl; [done|]. cbn in Hj.
  rewrite elem_of_cons in Hj. rewrite IH by tauto. apply zlookup_zinsert_ne. intros E. apply Hj. by left.
Qed.
Lemma install_eq ps d j x :
  NoDup ps.*1 -> (j, x) ∈ ps -> 0 <= j < Z.of_nat (length d) -> zlookup (install ps d) j = Some x.
Proof.
  revert d. induction ps as [|p ps IH]; intros d Hnd Hin Hj; [by apply elem_of_nil in Hin|].
  cbn in Hnd. apply list.NoDup_cons in Hnd as [Hp Hnd]. simpl. apply elem_of_cons in Hin as [<-|Hin].
  - rewrite install_ne by done. by apply zlookup_zinsert_eq.
  - apply IH; [done|done|]. by rewrite length_zinsert.
Qed.

(** Two disks that agree on every block outside [lo .. hi-1]. *)
Definition same_outside (lo hi : Z) (d d' : list block) : Prop :=
  length d = length d' /\ forall j, ~ (lo <= j < hi) -> zlookup d j = zlookup d' j.

#[export] Instance same_outside_equiv lo hi : Equivalence (same_outside lo hi).
Proof.
  split.
  - by intros d.
  - intros d d' [H1 H2]. split; [done|]. intros j Hj. by rewrite H2.
  - intros d d' d'' [H1 H2] [H3 H4]. split; [congruence|]. intros j Hj. by rewrite H2, H4.
Qed.

Lemma same_outside_zinsert lo hi d j x : lo <= j < hi -> same_outside lo hi (zinsert j x d) d.
Proof.
  intros Hj. split; [apply length_zinsert|]. intros i Hi. apply zlookup_zinsert_ne. intros ->. done.
Qed.

Lemma zlist_eq {A} (l k : list A) : length l = length k -> (forall j, zlookup l j = zlookup k j) -> l = k.
Proof.
  intros Hl H. apply list_eq. intros i. specialize (H (Z.of_nat i)). unfold zlookup in H.
  destruct (Z.ltb_spec (Z.of_nat i) 0); [lia|]. by rewrite Nat2Z.id in H.
Qed.

Lemma elem_of_take_sub {A} (l : list A) m x : x ∈ take m l -> x ∈ l.
Proof. intros (i & Hi & _)%elem_of_take. by eapply list_elem_of_lookup_2. Qed.

(** * The header block *)

Section header.
Context (d : block) (Hd : length d = 512%nat).

Definition put_blocks (k : nat) (bs : list Z) (d : block) : block :=
  foldl (fun d p => put32 d (4 + 4 * Z.of_nat (fst p)) (snd p)) d (zip (seq k (length bs)) bs).

Lemma put_blocks_cons k b bs d0 :
  put_blocks k (b :: bs) d0 = put_blocks (S k) bs (put32 d0 (4 + 4 * Z.of_nat k) b).
Proof. done. Qed.

Lemma length_put_blocks k bs d0 : length (put_blocks k bs d0) = length d0.
Proof.
  revert k d0. induction bs as [|b bs IH]; intros k d0; [done|].
  by rewrite put_blocks_cons, IH, length_put32.
Qed.

Lemma put_blocks_before k bs d0 o :
  0 <= o -> o + 4 <= 4 + 4 * Z.of_nat k -> get32 (put_blocks k bs d0) o = get32 d0 o.
Proof.
  revert k d0. induction bs as [|b bs IH]; intros k d0 Ho Hk; [done|].
  rewrite put_blocks_cons, IH by lia. apply get32_put32_ne; lia.
Qed.

Lemma put_blocks_at k bs d0 i b :
  length d0 = 512%nat -> 4 + 4 * (Z.of_nat k + Z.of_nat (length bs)) <= 512 -> bs !! i = Some b ->
  get32 (put_blocks k bs d0) (4 + 4 * Z.of_nat (k + i)) = u32 b.
Proof.
  revert k d0 i. induction bs as [|x bs IH]; intros k d0 i Hl Hk Hi; [done|]. simpl in Hk.
  destruct i as [|i]; simpl in Hi.
  - simplify_eq. rewrite put_blocks_cons, Nat.add_0_r, put_blocks_before by lia. apply get32_put32; lia.
  - rewrite put_blocks_cons, <- Nat.add_succ_comm. apply IH; [by rewrite length_put32|lia|done].
Qed.

Lemma hdr_put_blocks n bs : hdr_put d n bs = put_blocks 0 (take (Z.to_nat n) bs) (put32 d 0 n).
Proof.
  unfold hdr_put, put_blocks. f_equal. rewrite length_take.
  generalize 0%nat as k, (Z.to_nat n) as m. induction bs as [|b bs IH]; intros k m.
  - rewrite Nat.min_0_r. simpl. destruct m; done.
  - destruct m as [|m]; [done|]. cbn. f_equal. apply IH.
Qed.

Lemma length_hdr_put n bs : length (hdr_put d n bs) = 512%nat.
Proof. by rewrite hdr_put_blocks, length_put_blocks, length_put32. Qed.

(** What is written is what is read back. *)
Lemma hdr_put_n n bs : - 2 ^ 31 <= n < 2 ^ 31 -> hdr_n (hdr_put d n bs) = n.
Proof.
  intros Hn. unfold hdr_n. rewrite hdr_put_blocks, put_blocks_before by lia. rewrite get32_put32 by lia.
  unfold u32, s32. rewrite Z.add_mod_idemp_l by done. fold (s32 n). by apply s32_small.
Qed.

Lemma hdr_put_block n bs i b :
  n <= LOGSIZE -> (i < Z.to_nat n)%nat -> bs !! i = Some b -> - 2 ^ 31 <= b < 2 ^ 31 ->
  hdr_block (hdr_put d n bs) (Z.of_nat i) = b.
Proof.
  intros Hn Hi Hb Hr. unfold hdr_block. rewrite hdr_put_blocks.
  rewrite (put_blocks_at 0 _ _ i b); [|by rewrite length_put32|rewrite length_take; change LOGSIZE with 30 in *; lia|
    by rewrite lookup_take_lt].
  unfold u32, s32. rewrite Z.add_mod_idemp_l by done. fold (s32 b). by apply s32_small.
Qed.

End header.

(** * Replaying the log *)

Section replay.
Context (st : Z).

(** The blocks the header on disk lists, with their copies in the log. *)
Definition logged (d : list block) : list (Z * block) :=
  match zlookup d st with
  | Some h => (fun k => (u32 (hdr_block h (Z.of_nat k)), default [] (zlookup d (st + 1 + Z.of_nat k)))) <$>
                seq 0 (Z.to_nat (hdr_n h))
  | None => []
  end.
Definition replay (d : list block) : list block := install (logged d) d.

Lemma replay_empty d h : zlookup d st = Some h -> hdr_n h <= 0 -> replay d = d.
Proof. intros Hh Hn. unfold replay, logged. rewrite Hh. by replace (Z.to_nat (hdr_n h)) with 0%nat by lia. Qed.

End replay.

(** * Copying a block through the cache *)

(** Nothing is held and nothing is half-changed. *)
Definition quiet (c : cache) : Prop := held c = ∅ /\ touched c = ∅.

Definition c_copy (dst : Z) (x : block) (c : cache) : cache :=
  mkC (zinsert dst x (dsk c)) (zinsert dst x (view c)) ∅ (pinned c ∖ {[dst]}) ∅.

Lemma quiet_copy dst x c : quiet (c_copy dst x c).
Proof. done. Qed.

Lemma copy_eq c i j a b dst x :
  quiet c -> i <> j ->
  c_drop j (c_drop i (c_write dst x (c_put dst x (c_hold j b (c_hold i a c))))) = c_copy dst x c /\
  c_drop i (c_drop j (c_write dst x (c_put dst x (c_hold j b (c_hold i a c))))) = c_copy dst x c.
Proof.
  intros [Hh Ht] Hij. unfold c_drop, c_write, c_put, c_hold, c_copy, set_held.
  cbn [dsk view held pinned touched]. rewrite Hh, Ht. split; f_equal; [|set_solver| |set_solver];
    apply map_eq; intros k; rewrite lookup_empty, !lookup_delete, !lookup_insert; repeat case_decide; try done; rewrite ?lookup_empty; congruence.
Qed.

Section commit.
Context {B : Type} {BO : BlockOps B} {BL : BlockLaws B}.
Abbreviation on_disk P := (fun s : lstate B => P (diskof (lb s))).

Lemma chl_lb {A} (P : list block -> Prop) l b (m : M B A) (Q : A -> B -> Prop) :
  chl (fun b => P (diskof b)) (m b) Q ->
  chl (on_disk P) (zoom m (mkL l b)) (fun a s' => exists b', s' = mkL l b' /\ Q a b').
Proof.
  intros H. eapply chl_conseq; [apply (chl_zoom (L := lens_lb) (fun b => P (diskof b)) m (mkL l b) Q), H|].
  intros a [l' b'] [HQ E]. cbn [lget lput lens_lb lg lb] in *. exists b'. by rewrite E.
Qed.

(** The next call into the cache has the given specification. *)
Lemma chl_lb_seq {A A'} (P : list block -> Prop) l b (m : M B A) (f : A -> M (lstate B) A') R Q :
  chl (fun b => P (diskof b)) (m b) R ->
  (forall a b', R a b' -> chl (on_disk P) (f a (mkL l b')) Q) ->
  chl (on_disk P) (bind (zoom m) f (mkL l b)) Q.
Proof.
  intros Hm Hf. eapply chl_seq; [by apply chl_lb|]. intros a s' (b' & -> & HR). auto.
Qed.

Lemma held_blocks_quiet c : quiet c -> held_blocks c = ∅.
Proof. intros [Hh _]. unfold held_blocks. rewrite Hh. apply map_img_empty_L. Qed.

Lemma held_blocks_hold i bn c : quiet c -> held_blocks (c_hold i bn c) = {[bn]}.
Proof.
  intros [Hh _]. unfold held_blocks, c_hold, set_held. cbn [held]. rewrite Hh.
  apply set_eq. intros x. rewrite elem_of_map_img, elem_of_singleton. split.
  - intros [k [[_ ->]|[_ Hk]]%lookup_insert_Some]; [done|]. by rewrite lookup_empty in Hk.
  - intros ->. exists i. apply lookup_insert_eq.
Qed.

Lemma lh_get_spec C l b i bn (Q : Z -> lstate B -> Prop) :
  zlookup (lh_block l) i = Some bn -> Q bn (mkL l b) -> chl C (lh_get i (mkL l b)) Q.
Proof. intros Hi HQ. unfold lh_get. cstep. cstep. cbn [lg]. rewrite Hi. by cstep. Qed.

(** What a copy of block [src] to block [dst] needs. *)
Record can_copy (c : cache) (src dst : Z) (x : block) : Prop := {
  cc_quiet : quiet c;
  cc_ne : src <> dst;
  cc_src : zlookup (view c) src = Some x;
  cc_dst : 0 <= dst < Z.of_nat (length (dsk c));
  cc_small : Z.of_nat (length (dsk c)) <= 2 ^ 31
}.

(** One round of [install_trans]. *)
Lemma install_round P l b c k x bn fuel Q :
  let src := start l + k + 1 in
  crep b c -> can_copy c src bn x -> ldev l = ROOTDEV -> k < lh_n l -> zlookup (lh_block l) k = Some bn ->
  Z.of_nat (base.size (pinned c)) < NBUF -> bn ∈ pinned c \/ pinned c = ∅ ->
  P (dsk c) -> P (zinsert bn x (dsk c)) ->
  (forall b', crep b' (c_copy bn x c) -> chl (on_disk P) (install_loop fuel (k + 1) (mkL l b')) Q) ->
  chl (on_disk P) (install_loop (S fuel) k (mkL l b)) Q.
Proof.
  intros src R [Hq Hne Hx Hdst Hsm] Hdev Hk Hbn Hcap Hpin HP HP' Hnext.
  destruct (crep_sizes _ _ R) as [Hlv Hsz].
  assert (0 <= src < Z.of_nat (length (dsk c))) as Hsrc by (rewrite <- Hlv; by eapply zlookup_Some_range).
  cbn [install_loop]. cstep. cstep. cbn [lg]. destruct (Z.ltb_spec k (lh_n l)); [|lia].
  rewrite Hdev, u32_small by (unfold src in *; lia). fold src.
  eapply chl_lb_seq.
  { apply (bread_law P b c src R HP); [done|by rewrite held_blocks_quiet by done|].
    right. rewrite held_blocks_quiet by done. by rewrite union_empty_r_L. }
  intros i b1 [_ R1]. cstep. eapply lh_get_spec; [done|]. rewrite (u32_small bn) by lia.
  eapply chl_lb_seq.
  { apply (bread_law P b1 (c_hold i src c) bn R1 HP); [done| |].
    - rewrite held_blocks_hold by done. set_solver.
    - rewrite held_blocks_hold by done. cbn [pinned c_hold set_held]. destruct Hpin as [? | -> ]; [by left|right].
      rewrite union_empty_l_L, size_singleton. done. }
  intros j b2 [Hj R2]. cbn [held c_hold set_held] in Hj.
  assert (i <> j) as Hij by (intros ->; by rewrite lookup_insert_eq in Hj).
  assert (length x = 512%nat) as Hlx by (eapply Hsz, zlookup_in, Hx).
  eapply chl_lb_seq.
  { apply (bdata_law P _ _ i src x R2); [|done]. cbn [held c_hold set_held].
    by rewrite lookup_insert_ne, lookup_insert_eq by done. }
  intros r b' [-> ->]. eapply chl_lb_seq.
  { apply (bset_law P _ _ j bn x R2); [|done]. apply lookup_insert_eq. }
  intros [] b3 R3. eapply chl_lb_seq.
  { apply (bwrite_law P _ _ j bn x R3); [apply lookup_insert_eq| |done|done].
    unfold lookup_view. cbn [view c_put c_hold set_held]. apply zlookup_zinsert_eq. by rewrite Hlv. }
  intros [] b4 R4. eapply chl_lb_seq.
  { apply (brelse_law P _ _ i src R4); [|destruct Hq as [_ Hq]; cbn [touched c_write c_put c_hold set_held]; rewrite Hq; set_solver|done].
    cbn [held c_write c_put c_hold set_held]. by rewrite lookup_insert_ne, lookup_insert_eq by done. }
  intros [] b5 R5. eapply chl_lb_seq.
  { apply (brelse_law P _ _ j bn R5); [|destruct Hq as [_ Hq]; cbn [touched c_drop c_write c_put c_hold set_held]; rewrite Hq; set_solver|done].
    cbn [held c_drop c_write c_put c_hold set_held]. by rewrite lookup_delete_ne, lookup_insert_eq by done. }
  intros [] b6 R6. destruct (copy_eq c i j src bn bn x Hq Hij) as [E _]. rewrite E in R6. by apply Hnext.
Qed.

(** One round of [write_log]. *)
Lemma write_round P l b c k x bn fuel Q :
  let dst := start l + k + 1 in
  crep b c -> can_copy c bn dst x -> ldev l = ROOTDEV -> k < lh_n l -> zlookup (lh_block l) k = Some bn ->
  Z.of_nat (base.size (pinned c)) < NBUF -> bn ∈ pinned c ->
  P (dsk c) -> P (zinsert dst x (dsk c)) ->
  (forall b', crep b' (c_copy dst x c) -> chl (on_disk P) (write_log_loop fuel (k + 1) (mkL l b')) Q) ->
  chl (on_disk P) (write_log_loop (S fuel) k (mkL l b)) Q.
Proof.
  intros dst R [Hq Hne Hx Hdst Hsm] Hdev Hk Hbn Hcap Hpin HP HP' Hnext.
  destruct (crep_sizes _ _ R) as [Hlv Hsz].
  assert (0 <= bn < Z.of_nat (length (dsk c))) as Hsrc by (rewrite <- Hlv; by eapply zlookup_Some_range).
  cbn [write_log_loop]. cstep. cstep. cbn [lg]. destruct (Z.ltb_spec k (lh_n l)); [|lia].
  rewrite Hdev, u32_small by (unfold dst in *; lia). fold dst.
  eapply chl_lb_seq.
  { apply (bread_law P b c dst R HP); [done|by rewrite held_blocks_quiet by done|].
    right. rewrite held_blocks_quiet by done. by rewrite union_empty_r_L. }
  intros i b1 [_ R1]. cstep. eapply lh_get_spec; [done|]. rewrite (u32_small bn) by lia.
  eapply chl_lb_seq.
  { apply (bread_law P b1 (c_hold i dst c) bn R1 HP); [done| |by left].
    rewrite held_blocks_hold by done. set_solver. }
  intros j b2 [Hj R2]. cbn [held c_hold set_held] in Hj.
  assert (i <> j) as Hij by (intros ->; by rewrite lookup_insert_eq in Hj).
  assert (length x = 512%nat) as Hlx by (eapply Hsz, zlookup_in, Hx).
  assert (held (c_hold j bn (c_hold i dst c)) !! i = Some dst) as Hi2.
  { cbn [held c_hold set_held]. by rewrite lookup_insert_ne, lookup_insert_eq by done. }
  eapply chl_lb_seq; [apply (bdata_law P _ _ j bn x R2); [apply lookup_insert_eq|done]|].
  intros r b' [-> ->]. eapply chl_lb_seq; [by apply (bset_law P _ _ i dst x R2)|].
  intros [] b3 R3. eapply chl_lb_seq.
  { apply (bwrite_law P _ _ i dst x R3); [done| |done|done].
    unfold lookup_view. cbn [view c_put c_hold set_held]. apply zlookup_zinsert_eq. by rewrite Hlv. }
  intros [] b4 R4. eapply chl_lb_seq.
  { apply (brelse_law P _ _ j bn R4); [apply lookup_insert_eq|
      destruct Hq as [_ Hq]; cbn [touched c_write c_put c_hold set_held]; rewrite Hq; set_solver|done]. }
  intros [] b5 R5. eapply chl_lb_seq.
  { apply (brelse_law P _ _ i dst R5); [|destruct Hq as [_ Hq]; cbn [touched c_drop c_write c_put c_hold set_held]; rewrite Hq; set_solver|done].
    cbn [held c_drop c_write c_put c_hold set_held]. by rewrite lookup_delete_ne, lookup_insert_ne, lookup_insert_eq by done. }
  intros [] b6 R6. destruct (copy_eq c i j dst bn dst x Hq Hij) as [_ E]. rewrite E in R6. by apply Hnext.
Qed.

Lemma put_eq c i bn dst x :
  quiet c -> c_drop i (c_write dst x (c_put dst x (c_hold i bn c))) = c_copy dst x c.
Proof.
  intros [Hh Ht]. unfold c_drop, c_write, c_put, c_hold, c_copy, set_held.
  cbn [dsk view held pinned touched]. rewrite Hh, Ht. f_equal; [|set_solver].
  apply map_eq. intros k. rewrite lookup_empty, lookup_delete, lookup_insert.
  repeat case_decide; try done.
Qed.

Lemma write_head_spec P l b c h :
  let x := hdr_put h (lh_n l) (lh_block l) in
  crep b c -> quiet c -> ldev l = ROOTDEV -> zlookup (view c) (start l) = Some h ->
  Z.of_nat (length (dsk c)) <= 2 ^ 31 -> Z.of_nat (base.size (pinned c)) < NBUF ->
  lh_n l <= Z.of_nat (length (lh_block l)) -> P (dsk c) -> P (zinsert (start l) x (dsk c)) ->
  chl (on_disk P) (write_head (mkL l b)) (fun _ s' => exists b', s' = mkL l b' /\ crep b' (c_copy (start l) x c)).
Proof.
  intros x R Hq Hdev Hh Hsm Hcap Hn HP HP'. destruct (crep_sizes _ _ R) as [Hlv Hsz].
  assert (0 <= start l < Z.of_nat (length (dsk c))) as Hst by (rewrite <- Hlv; by eapply zlookup_Some_range).
  assert (length h = 512%nat) as Hlh by (eapply Hsz, zlookup_in, Hh).
  unfold write_head. do 2 cstep. cbn [lg]. rewrite Hdev, u32_small by lia.
  eapply chl_lb_seq.
  { apply (bread_law P b c (start l) R HP); [done|by rewrite held_blocks_quiet by done|].
    right. rewrite held_blocks_quiet by done. by rewrite union_empty_r_L. }
  intros i b1 [_ R1]. eapply chl_lb_seq; [apply (bdata_law P _ _ i (start l) h R1); [apply lookup_insert_eq|done]|].
  intros r b' [-> ->]. rewrite bool_decide_true by done. fold x. eapply chl_lb_seq.
  { apply (bset_law P _ _ i (start l) x R1); [apply lookup_insert_eq|by apply length_hdr_put]. }
  intros [] b2 R2. eapply chl_lb_seq.
  { apply (bwrite_law P _ _ i (start l) x R2); [apply lookup_insert_eq| |done|done].
    unfold lookup_view. cbn [view c_put c_hold set_held]. apply zlookup_zinsert_eq. by rewrite Hlv. }
  intros [] b3 R3. eapply chl_conseq.
  { apply chl_lb, (brelse_law P _ _ i (start l) R3); [apply lookup_insert_eq| |done].
    destruct Hq as [_ Hq]. cbn [touched c_write c_put c_hold set_held]. rewrite Hq. set_solver. }
  intros [] s' (b4 & -> & R4). exists b4. split; [done|]. by rewrite put_eq in R4.
Qed.

(** ** The loops *)

Definition c_install (ps : list (Z * block)) (c : cache) : cache :=
  mkC (install ps (dsk c)) (install ps (view c)) ∅ (pinned c ∖ list_to_set ps.*1) ∅.

Lemma c_install_cons bn x ps c : quiet c -> c_install ((bn, x) :: ps) c = c_install ps (c_copy bn x c).
Proof. intros _. unfold c_install, c_copy. simpl. f_equal. set_solver. Qed.

Lemma c_install_nil c : quiet c -> c_install [] c = c.
Proof. destruct c. intros [Hh Ht]. unfold c_install. simpl in *. subst. f_equal. set_solver. Qed.

Lemma install_loop_spec P l ps k b c fuel :
  crep b c -> quiet c -> ldev l = ROOTDEV -> 0 <= k -> k + Z.of_nat (length ps) = lh_n l ->
  Z.of_nat (length (dsk c)) <= 2 ^ 31 -> (length ps <= fuel)%nat ->
  (forall i bn x, ps !! i = Some (bn, x) ->
     zlookup (lh_block l) (k + Z.of_nat i) = Some bn /\
     zlookup (view c) (start l + (k + Z.of_nat i) + 1) = Some x /\
     0 <= bn < Z.of_nat (length (dsk c)) /\ ~ (start l <= bn <= start l + lh_n l)) ->
  Z.of_nat (base.size (pinned c)) < NBUF ->
  (NoDup ps.*1 /\ forall bn, bn ∈ ps.*1 -> bn ∈ pinned c) \/ pinned c = ∅ ->
  (forall m, (m <= length ps)%nat -> P (install (take m ps) (dsk c))) ->
  chl (on_disk P) (install_loop fuel k (mkL l b)) (fun _ s' => exists b', s' = mkL l b' /\ crep b' (c_install ps c)).
Proof.
  revert k b c fuel. induction ps as [|[bn x] ps IH]; intros k b c fuel R Hq Hdev Hk Hn Hsm Hf Hps Hcap Hpin HP.
  { simpl in Hn. destruct fuel; cbn [install_loop]; do 2 cstep; cbn [lg];
      (destruct (Z.ltb_spec k (lh_n l)); [lia|]); cstep; exists b; by rewrite c_install_nil. }
  simpl in Hn, Hf. destruct fuel as [|fuel]; [lia|].
  destruct (Hps 0%nat bn x eq_refl) as (Hbn & Hx & Hr & Hout).
  change (Z.of_nat 0) with 0 in *. rewrite Z.add_0_r in Hbn, Hx.
  apply (install_round P l b c k x bn); try done; [split; [done|lia|done|done|done]|lia| |apply (HP 0%nat); simpl; lia|
    apply (HP 1%nat); simpl; lia|].
  { destruct Hpin as [[_ Hpin]|?]; [left; apply Hpin; by left|by right]. }
  intros b' R'. rewrite c_install_cons by done.
  apply IH; try done.
  - lia.
  - lia.
  - by unfold c_copy; cbn [dsk]; rewrite length_zinsert.
  - lia.
  - intros i bn' x' Hi. destruct (Hps (S i) bn' x' Hi) as (H1 & H2 & H3 & H4).
    unfold c_copy; cbn [dsk view]. rewrite length_zinsert.
    replace (k + 1 + Z.of_nat i) with (k + Z.of_nat (S i)) by lia. split; [done|]. split; [|done].
    rewrite zlookup_zinsert_ne; [done|]. apply lookup_lt_Some in Hi. simpl in Hi. lia.
  - unfold c_copy; cbn [pinned]. eapply Z.le_lt_trans; [|exact Hcap]. apply inj_le, subseteq_size. set_solver.
  - unfold c_copy; cbn [pinned]. destruct Hpin as [[Hnd Hpin]|Hemp]; [left|right; rewrite Hemp; set_solver].
    cbn in Hnd. apply list.NoDup_cons in Hnd as [Hb Hnd]. split; [done|]. intros y Hy.
    apply elem_of_difference. split; [apply Hpin; by right|]. intros ->%elem_of_singleton. done.
  - intros m Hm. apply (HP (S m)). simpl. lia.
Qed.

Lemma write_log_loop_spec P l ps k b c fuel :
  crep b c -> quiet c -> ldev l = ROOTDEV -> 0 <= k -> k + Z.of_nat (length ps) = lh_n l ->
  Z.of_nat (length (dsk c)) <= 2 ^ 31 -> (length ps <= fuel)%nat ->
  0 <= start l -> start l + lh_n l < Z.of_nat (length (dsk c)) ->
  (forall i a x, ps !! i = Some (a, x) -> a = start l + (k + Z.of_nat i) + 1 /\ exists bn,
     zlookup (lh_block l) (k + Z.of_nat i) = Some bn /\ bn ∈ pinned c /\
     zlookup (view c) bn = Some x /\ ~ (start l <= bn <= start l + lh_n l)) ->
  (forall j, j ∈ pinned c -> ~ (start l <= j <= start l + lh_n l)) ->
  Z.of_nat (base.size (pinned c)) < NBUF ->
  (forall m, (m <= length ps)%nat -> P (install (take m ps) (dsk c))) ->
  chl (on_disk P) (write_log_loop fuel k (mkL l b)) (fun _ s' => exists b', s' = mkL l b' /\
    crep b' (mkC (install ps (dsk c)) (install ps (view c)) ∅ (pinned c) ∅)).
Proof.
  revert k b c fuel. induction ps as [|[a x] ps IH]; intros k b c fuel R Hq Hdev Hk Hn Hsm Hf Hst Hend Hps Hpin Hcap HP.
  { simpl in Hn. destruct fuel; cbn [write_log_loop]; do 2 cstep; cbn [lg];
      (destruct (Z.ltb_spec k (lh_n l)); [lia|]); cstep; exists b; (split; [done|]);
      destruct c, Hq as [Hh Ht]; simpl in *; by subst. }
  simpl in Hn, Hf. destruct fuel as [|fuel]; [lia|].
  destruct (Hps 0%nat a x eq_refl) as (Ha & bn & Hbn & Hbp & Hx & Hout).
  change (Z.of_nat 0) with 0 in *. rewrite Z.add_0_r in Ha, Hbn. subst a.
  assert (pinned c ∖ {[start l + k + 1]} = pinned c) as Hpe.
  { apply set_eq. intros y. rewrite elem_of_difference, elem_of_singleton. split; [tauto|].
    intros Hy. split; [done|]. intros ->. apply (Hpin _ Hy). lia. }
  apply (write_round P l b c k x bn); try done; [split; [done|lia|done|lia|done]|lia|apply (HP 0%nat); simpl; lia|
    apply (HP 1%nat); simpl; lia|].
  intros b' R'. eapply chl_conseq; [apply (IH (k + 1) b' (c_copy (start l + k + 1) x c)); try done|].
  - lia.
  - lia.
  - by unfold c_copy; cbn [dsk]; rewrite length_zinsert.
  - lia.
  - by unfold c_copy; cbn [dsk]; rewrite length_zinsert.
  - intros i a' x' Hi. destruct (Hps (S i) a' x' Hi) as (H1 & bn' & H2 & H3 & H4 & H5).
    unfold c_copy; cbn [view pinned]. rewrite Hpe.
    replace (k + 1 + Z.of_nat i) with (k + Z.of_nat (S i)) by lia. split; [done|]. exists bn'. split_and!; try done.
    rewrite zlookup_zinsert_ne; [done|]. lia.
  - unfold c_copy; cbn [pinned]. by rewrite Hpe.
  - unfold c_copy; cbn [pinned]. by rewrite Hpe.
  - intros m Hm. apply (HP (S m)). simpl. lia.
  - intros [] s' (b2 & -> & R2). exists b2. split; [done|]. unfold c_copy in R2; cbn [dsk view pinned] in R2.
    by rewrite Hpe in R2.
Qed.

(** A disk recovery can work on: the superblock describes the log, and the header lists
    blocks outside it. *)
Record recoverable (st sz : Z) (d : list block) : Prop := {
  rc_sb : exists x, zlookup d 1 = Some x /\ s32 (sb_logstart (sb_of x)) = st /\ s32 (sb_nlog (sb_of x)) = sz;
  rc_hdr : exists h, zlookup d st = Some h /\ 0 <= hdr_n h <= LOGSIZE /\ hdr_n h < sz;
  rc_home : forall j, j ∈ (logged st d).*1 -> 0 <= j < Z.of_nat (length d) /\ ~ (st <= j < st + sz) /\ j <> 1;
  rc_nodup : NoDup (logged st d).*1;
  rc_area : 1 < st /\ st + sz <= Z.of_nat (length d) <= 2 ^ 31
}.

(** * Committing a transaction *)

(** The state [commit] finds: the header in memory lists the blocks [bns], each pinned in
    the cache, at home outside the log area; the header on disk is empty. *)
Record txn (l : log) (c : cache) (bns : list Z) : Prop := {
  t_quiet : quiet c;
  t_dev : ldev l = ROOTDEV;
  t_n : lh_n l = Z.of_nat (length bns);
  t_blocks : forall i bn, bns !! i = Some bn -> zlookup (lh_block l) (Z.of_nat i) = Some bn;
  t_len : length (lh_block l) = Z.to_nat LOGSIZE;
  t_nodup : NoDup bns;
  t_pinned : pinned c = list_to_set bns;
  t_home : forall bn, bn ∈ bns ->
    0 <= bn < Z.of_nat (length (dsk c)) /\ ~ (start l <= bn < start l + lsize l) /\ bn <> 1;
  t_sb : exists x, zlookup (dsk c) 1 = Some x /\ s32 (sb_logstart (sb_of x)) = start l /\ s32 (sb_nlog (sb_of x)) = lsize l;
  t_start : 1 < start l;
  t_room : lh_n l < lsize l /\ lh_n l < NBUF;
  t_end : start l + lsize l <= Z.of_nat (length (dsk c)) <= 2 ^ 31;
  t_hdr : exists h, zlookup (dsk c) (start l) = Some h /\ hdr_n h = 0
}.

(** Stopped here, recovery gives the disk [old] or the disk [new], log area aside. *)
Definition atomic (l : log) (old new d : list block) : Prop :=
  recoverable (start l) (lsize l) d /\
  (same_outside (start l) (start l + lsize l) (replay (start l) d) old \/
   same_outside (start l) (start l + lsize l) (replay (start l) d) new).

Lemma logged_eq st d h bns xs :
  zlookup d st = Some h -> hdr_n h = Z.of_nat (length bns) -> length xs = length bns ->
  (forall i bn, bns !! i = Some bn -> hdr_block h (Z.of_nat i) = bn /\ 0 <= bn < 2 ^ 31) ->
  (forall i x, xs !! i = Some x -> zlookup d (st + 1 + Z.of_nat i) = Some x) ->
  logged st d = zip bns xs.
Proof.
  intros Hh Hn Hl Hb Hx. unfold logged. rewrite Hh, Hn, Nat2Z.id. apply list_eq. intros i. rewrite list_lookup_fmap.
  destruct (decide (i < length bns)%nat) as [Hi|Hi].
  - rewrite lookup_seq_lt by done. cbn [fmap option_fmap option_map]. rewrite Nat.add_0_l.
    destruct (lookup_lt_is_Some_2 bns i Hi) as [bn Hbn]. destruct (lookup_lt_is_Some_2 xs i ltac:(lia)) as [x Hxi].
    rewrite lookup_zip_with, Hbn. cbn. rewrite Hxi. cbn. destruct (Hb i bn Hbn) as [-> ?].
    rewrite (Hx i x Hxi), u32_small by lia. done.
  - rewrite lookup_seq_ge by lia. symmetry. apply lookup_ge_None_2. rewrite length_zip_with. lia.
Qed.

(** Installing within the log area, or installing a prefix first, is not seen outside. *)
Lemma install_inside lo hi ps d :
  (forall j, j ∈ ps.*1 -> lo <= j < hi) -> same_outside lo hi (install ps d) d.
Proof.
  intros H. split; [apply length_install|]. intros j Hj. apply install_ne. intros Hin. apply Hj. auto.
Qed.

Lemma elem_of_fst {A} (ps : list (Z * A)) j : j ∈ ps.*1 -> exists x, (j, x) ∈ ps.
Proof. intros ([j' x] & -> & H)%list_elem_of_fmap. by exists x. Qed.

Lemma install_idem ps m d :
  NoDup ps.*1 -> (forall j, j ∈ ps.*1 -> 0 <= j < Z.of_nat (length d)) -> install ps (install (take m ps) d) = install ps d.
Proof.
  intros Hnd Hr. apply zlist_eq; [by rewrite !length_install|]. intros j.
  destruct (decide (j ∈ ps.*1)) as [Hj|Hj].
  - destruct (elem_of_fst _ _ Hj) as [x Hx]. rewrite !(install_eq ps _ j x); rewrite ?length_install; auto.
  - rewrite !install_ne; try done. intros (x & Hx)%elem_of_fst. apply Hj.
    apply list_elem_of_fmap. exists (j, x). split; [done|]. by eapply elem_of_take_sub.
Qed.

Section transaction.
Context (l : log) (c : cache) (bns : list Z) (b : B).
Hypothesis (R : crep b c) (T : txn l c bns).

(** The contents to commit, their copies in the log, and their places. *)
Definition new_blocks : list block := (fun bn => default [] (zlookup (view c) bn)) <$> bns.
Definition log_writes : list (Z * block) := imap (fun i x => (start l + Z.of_nat i + 1, x)) new_blocks.
Definition home_writes : list (Z * block) := zip bns new_blocks.

Lemma new_blocks_lookup i x : new_blocks !! i = Some x ->
  exists bn, bns !! i = Some bn /\ zlookup (view c) bn = Some x.
Proof.
  unfold new_blocks. rewrite list_lookup_fmap. destruct (bns !! i) as [bn|] eqn:E; [|done]. intros [= <-].
  exists bn. split; [done|]. destruct (t_home _ _ _ T bn) as [Hr _]; [by eapply list_elem_of_lookup_2|].
  destruct (crep_sizes _ _ R) as [Hl _]. rewrite <- Hl in Hr. by destruct (zlookup_range_Some _ _ Hr) as [x ->].
Qed.

Lemma length_new_blocks : length new_blocks = length bns.
Proof. apply length_fmap. Qed.

Lemma home_fst : home_writes.*1 = bns.
Proof. apply fst_zip. by rewrite length_new_blocks. Qed.

Lemma home_lookup i bn x : home_writes !! i = Some (bn, x) -> bns !! i = Some bn /\ new_blocks !! i = Some x.
Proof. unfold home_writes. by rewrite lookup_zip_Some. Qed.

Lemma log_lookup i a x : log_writes !! i = Some (a, x) -> a = start l + Z.of_nat i + 1 /\ new_blocks !! i = Some x.
Proof.
  unfold log_writes. rewrite list_lookup_imap. destruct (new_blocks !! i); [|done]. by intros [= <- <-].
Qed.

Lemma log_fst j : j ∈ log_writes.*1 -> start l < j <= start l + lh_n l.
Proof.
  intros (x & (i & Hi)%list_elem_of_lookup)%elem_of_fst. apply log_lookup in Hi as [-> Hx].
  apply lookup_lt_Some in Hx. rewrite length_new_blocks in Hx. rewrite (t_n _ _ _ T). lia.
Qed.

Lemma log_nodup : NoDup log_writes.*1.
Proof.
  apply NoDup_alt. intros i j a Hi Hj. rewrite list_lookup_fmap in Hi, Hj.
  destruct (log_writes !! i) as [[a1 x1]|] eqn:E1, (log_writes !! j) as [[a2 x2]|] eqn:E2; try done.
  apply log_lookup in E1 as [-> _], E2 as [-> _]. simplify_eq/=. lia.
Qed.

Lemma home_range j : j ∈ home_writes.*1 ->
  0 <= j < Z.of_nat (length (dsk c)) /\ ~ (start l <= j < start l + lsize l) /\ j <> 1.
Proof. rewrite home_fst. apply T. Qed.

Lemma recoverable_intro d h :
  length d = length (dsk c) -> zlookup d 1 = zlookup (dsk c) 1 -> zlookup d (start l) = Some h ->
  0 <= hdr_n h <= lh_n l -> logged (start l) d = [] \/ logged (start l) d = home_writes ->
  recoverable (start l) (lsize l) d.
Proof.
  intros Hl H1 Hh Hn Hlog. pose proof (t_room _ _ _ T) as [Hr1 Hr2]. change NBUF with 30 in Hr2.
  split.
  - rewrite H1. apply T.
  - exists h. change LOGSIZE with 30. split; [done|lia].
  - intros j. destruct Hlog as [-> | ->]; [intros Hj; by apply elem_of_nil in Hj|]. rewrite Hl. apply home_range.
  - destruct Hlog as [-> | ->]; [by apply NoDup_nil_2|]. rewrite home_fst. apply T.
  - rewrite Hl. split; apply T.
Qed.

(** Phase 1: the header on disk is still empty. *)
Lemma phase_log m : replay (start l) (install (take m log_writes) (dsk c)) = install (take m log_writes) (dsk c) /\
  same_outside (start l) (start l + lsize l) (install (take m log_writes) (dsk c)) (dsk c).
Proof.
  assert (forall j, j ∈ (take m log_writes).*1 -> start l < j <= start l + lh_n l) as Hj.
  { intros j (x & Hx%elem_of_take_sub)%elem_of_fst. apply log_fst, list_elem_of_fmap. by exists (j, x). }
  split.
  - destruct (t_hdr _ _ _ T) as (h & Hh & Hn). eapply (replay_empty _ _ h); [|lia].
    rewrite install_ne; [done|]. intros ?%Hj. lia.
  - apply install_inside. intros j ?%Hj. pose proof (t_room _ _ _ T). lia.
Qed.

Lemma header_size h : zlookup (dsk c) (start l) = Some h -> length h = 512%nat.
Proof.
  intros Hh. destruct (crep_sizes _ _ R) as [_ Hsz]. apply Hsz. apply (zlookup_in _ (start l)).
  rewrite (crep_clean _ _ _ R); [done| |].
  - rewrite (t_pinned _ _ _ T), elem_of_list_to_set. intros Hin. pose proof (t_room _ _ _ T).
    pose proof (t_n _ _ _ T). destruct (t_home _ _ _ T _ Hin). lia.
  - destruct (t_quiet _ _ _ T) as [_ ->]. set_solver.
Qed.

(** The disk after the commit point. *)
Definition logged_disk (h : block) : list block :=
  zinsert (start l) (hdr_put h (lh_n l) (lh_block l)) (install log_writes (dsk c)).

(** Phases 2 and 3: the header lists the blocks; any prefix is installed. *)
Lemma logged_home m h :
  zlookup (dsk c) (start l) = Some h ->
  logged (start l) (install (take m home_writes) (logged_disk h)) = home_writes.
Proof.
  intros Hh. pose proof (header_size h Hh) as Hlh.
  pose proof (t_room _ _ _ T) as [Hr1 Hr2]. pose proof (t_end _ _ _ T) as [He1 He2]. pose proof (t_start _ _ _ T) as Hs.
  pose proof (t_n _ _ _ T) as Hn. change NBUF with 30 in Hr2.
  assert (forall j, j ∈ (take m home_writes).*1 -> ~ (start l <= j < start l + lsize l)) as Hout.
  { intros j (x & Hx%elem_of_take_sub)%elem_of_fst. apply home_range, list_elem_of_fmap. by exists (j, x). }
  apply (logged_eq _ _ (hdr_put h (lh_n l) (lh_block l))).
  - rewrite install_ne by (intros ?%Hout; lia). apply zlookup_zinsert_eq. rewrite length_install. lia.
  - rewrite hdr_put_n by (try done; lia). done.
  - apply length_new_blocks.
  - intros i bn Hi. destruct (t_home _ _ _ T bn) as [Hbr _]; [by eapply list_elem_of_lookup_2|].
    split; [|lia]. pose proof (t_blocks _ _ _ T i bn Hi) as Hz. unfold zlookup in Hz.
    destruct (Z.ltb_spec (Z.of_nat i) 0); [lia|]. rewrite Nat2Z.id in Hz.
    apply hdr_put_block; [done|change LOGSIZE with 30; lia| |done|lia]. apply lookup_lt_Some in Hi. lia.
  - intros i x Hi. pose proof (lookup_lt_Some _ _ _ Hi) as Hlt. rewrite length_new_blocks in Hlt.
    rewrite install_ne by (intros ?%Hout; lia). unfold logged_disk. rewrite zlookup_zinsert_ne by lia.
    apply install_eq; [apply log_nodup| |lia]. apply (list_elem_of_lookup_2 _ i). unfold log_writes.
    rewrite list_lookup_imap, Hi. cbn. do 2 f_equal. lia.
Qed.

Lemma length_logged_disk h : length (logged_disk h) = length (dsk c).
Proof. unfold logged_disk. by rewrite length_zinsert, length_install. Qed.

Lemma home_new h :
  zlookup (dsk c) (start l) = Some h ->
  same_outside (start l) (start l + lsize l) (install home_writes (logged_disk h)) (view c).
Proof.
  intros Hh. destruct (crep_sizes _ _ R) as [Hlv _]. pose proof (length_logged_disk h) as Hld.
  pose proof (t_room _ _ _ T). pose proof (t_n _ _ _ T).
  split; [by rewrite length_install, Hld, Hlv|]. intros j Hj.
  destruct (decide (j ∈ bns)) as [Hin|Hnin].
  - rewrite <- home_fst in Hin. destruct (elem_of_fst _ _ Hin) as [x Hx].
    rewrite (install_eq _ _ j x); [|rewrite home_fst; apply T|done|].
    + apply list_elem_of_lookup in Hx as [i Hi]. apply home_lookup in Hi as [Hb Hx].
      apply new_blocks_lookup in Hx as (bn & Hb' & Hv). rewrite Hb in Hb'. injection Hb' as <-. done.
    + rewrite Hld. by apply home_range.
  - rewrite install_ne by (by rewrite home_fst). unfold logged_disk. rewrite zlookup_zinsert_ne by lia.
    rewrite install_ne by (intros ?%log_fst; lia). symmetry. apply (crep_clean _ _ _ R).
    + by rewrite (t_pinned _ _ _ T), elem_of_list_to_set.
    + destruct (t_quiet _ _ _ T) as [_ ->]. set_solver.
Qed.

Lemma atomic_log m : atomic l (dsk c) (view c) (install (take m log_writes) (dsk c)).
Proof.
  destruct (phase_log m) as [E Hs]. split; [|left; by rewrite E].
  destruct (t_hdr _ _ _ T) as (h & Hh & Hn). pose proof (t_start _ _ _ T). pose proof (t_n _ _ _ T).
  assert (forall j, j <= start l -> zlookup (install (take m log_writes) (dsk c)) j = zlookup (dsk c) j) as Hj.
  { intros j Hj. apply install_ne. intros (x & Hx%elem_of_take_sub)%elem_of_fst.
    assert (j ∈ log_writes.*1) as ?%log_fst by (apply list_elem_of_fmap; by exists (j, x)). lia. }
  apply (recoverable_intro _ h); [apply length_install|apply Hj; lia|by rewrite Hj by lia|lia|left].
  unfold logged. rewrite Hj, Hh, Hn by lia. done.
Qed.

Lemma phase_home m h :
  zlookup (dsk c) (start l) = Some h ->
  same_outside (start l) (start l + lsize l) (replay (start l) (install (take m home_writes) (logged_disk h))) (view c).
Proof.
  intros Hh. unfold replay. rewrite (logged_home m h Hh), install_idem; [by apply home_new|rewrite home_fst; apply T|].
  intros j [Hj _]%home_range. by rewrite length_logged_disk.
Qed.

Lemma atomic_home m h :
  zlookup (dsk c) (start l) = Some h ->
  atomic l (dsk c) (view c) (install (take m home_writes) (logged_disk h)).
Proof.
  intros Hh. split; [|right; by apply phase_home]. pose proof (t_start _ _ _ T). pose proof (t_n _ _ _ T).
  pose proof (t_room _ _ _ T) as [Hr1 Hr2]. pose proof (t_end _ _ _ T). change NBUF with 30 in Hr2.
  assert (forall j, j = 1 \/ j = start l -> j ∉ (take m home_writes).*1) as Hout.
  { intros j Hj (x & Hx%elem_of_take_sub)%elem_of_fst.
    assert (j ∈ home_writes.*1) as ?%home_range by (apply list_elem_of_fmap; by exists (j, x)). lia. }
  apply (recoverable_intro _ (hdr_put h (lh_n l) (lh_block l))).
  - by rewrite length_install, length_logged_disk.
  - rewrite install_ne by (apply Hout; by left). unfold logged_disk. rewrite zlookup_zinsert_ne by lia.
    apply install_ne. intros ?%log_fst. lia.
  - rewrite install_ne by (apply Hout; by right). apply zlookup_zinsert_eq. rewrite length_install. lia.
  - rewrite hdr_put_n by (try apply (header_size h Hh); lia). lia.
  - right. by apply logged_home.
Qed.

Lemma atomic_done h h' :
  zlookup (dsk c) (start l) = Some h -> hdr_n h' = 0 ->
  atomic l (dsk c) (view c) (zinsert (start l) h' (install home_writes (logged_disk h))) /\
  same_outside (start l) (start l + lsize l) (zinsert (start l) h' (install home_writes (logged_disk h))) (view c).
Proof.
  intros Hh Hh'. pose proof (t_start _ _ _ T). pose proof (t_room _ _ _ T) as [Hr1 Hr2].
  pose proof (t_end _ _ _ T). pose proof (t_n _ _ _ T).
  set (d := zinsert (start l) h' _). assert (length d = length (dsk c)) as Hl.
  { unfold d. by rewrite length_zinsert, length_install, length_logged_disk. }
  assert (zlookup d (start l) = Some h') as Hz.
  { apply zlookup_zinsert_eq. rewrite length_install, length_logged_disk. lia. }
  assert (same_outside (start l) (start l + lsize l) d (view c)) as Hs.
  { etransitivity; [|by apply (home_new h)]. apply same_outside_zinsert. lia. }
  split; [|done]. split; [|right; rewrite (replay_empty _ _ h'); [done|done|lia]].
  apply (recoverable_intro _ h'); [done| |done|lia|].
  - unfold d. rewrite zlookup_zinsert_ne, install_ne by (try (intros (_ & _ & ?)%home_range; done); lia).
    unfold logged_disk. rewrite zlookup_zinsert_ne by lia. apply install_ne. intros ?%log_fst. lia.
  - left. unfold logged. by rewrite Hz, Hh'.
Qed.

(** The log is empty again and the cache agrees with the disk. *)
Definition committed (new : list block) (s' : lstate B) : Prop :=
  exists c', crep (lb s') c' /\ quiet c' /\ pinned c' = ∅ /\ lg s' = set_lh_n 0 l /\
    same_outside (start l) (start l + lsize l) (dsk c') new /\
    exists h, zlookup (dsk c') (start l) = Some h /\ hdr_n h = 0.

Lemma length_home : length home_writes = length bns.
Proof. unfold home_writes. rewrite length_zip_with, length_new_blocks. lia. Qed.
Lemma length_log : length log_writes = length bns.
Proof. unfold log_writes. by rewrite length_imap, length_new_blocks. Qed.

(** The cache after each phase. *)
Definition cache_logged : cache := mkC (install log_writes (dsk c)) (install log_writes (view c)) ∅ (pinned c) ∅.
Definition cache_header (h : block) : cache :=
  mkC (logged_disk h) (zinsert (start l) (hdr_put h (lh_n l) (lh_block l)) (install log_writes (view c))) ∅ (pinned c) ∅.
Definition cache_home (h : block) : cache := c_install home_writes (cache_header h).

Lemma pinned_home j : j ∈ pinned c -> ~ (start l <= j < start l + lsize l).
Proof. rewrite (t_pinned _ _ _ T), elem_of_list_to_set. intros Hj. by apply T. Qed.

Lemma pinned_few : Z.of_nat (base.size (pinned c)) < NBUF.
Proof. rewrite (t_pinned _ _ _ T), size_list_to_set by apply T. rewrite <- (t_n _ _ _ T). apply T. Qed.

Lemma header_view h : zlookup (dsk c) (start l) = Some h -> zlookup (view c) (start l) = Some h.
Proof.
  intros Hh. rewrite (crep_clean _ _ _ R); [done| |].
  - intros Hp%pinned_home. pose proof (t_room _ _ _ T). pose proof (t_n _ _ _ T). lia.
  - destruct (t_quiet _ _ _ T) as [_ ->]. set_solver.
Qed.

Lemma write_log_spec :
  chl (on_disk (atomic l (dsk c) (view c))) (write_log (mkL l b)) (fun _ s' => exists b', s' = mkL l b' /\ crep b' cache_logged).
Proof.
  pose proof (t_room _ _ _ T) as [Hr1 Hr2]. pose proof (t_end _ _ _ T) as [He1 He2]. pose proof (t_start _ _ _ T) as Hs.
  pose proof (t_n _ _ _ T) as Hn. pose proof (t_quiet _ _ _ T) as Hq. pose proof (t_dev _ _ _ T) as Hdev. change NBUF with 30 in Hr2.
  apply (write_log_loop_spec _ l log_writes 0 b c); try done.
  - rewrite length_log. lia.
  - rewrite length_log. change (Z.to_nat LOGSIZE) with 30%nat. lia.
  - lia.
  - lia.
  - intros i a x [-> Hx]%log_lookup. split; [lia|]. destruct (new_blocks_lookup _ _ Hx) as (bn & Hbn & Hv).
    exists bn. assert (bn ∈ pinned c) as Hp.
    { rewrite (t_pinned _ _ _ T), elem_of_list_to_set. by eapply list_elem_of_lookup_2. }
    split_and!; [by apply (t_blocks _ _ _ T)|done|done|]. pose proof (pinned_home _ Hp). lia.
  - intros j ?%pinned_home. lia.
  - apply pinned_few.
  - intros m _. apply atomic_log.
Qed.

Lemma commit_point h b1 :
  zlookup (dsk c) (start l) = Some h -> crep b1 cache_logged ->
  chl (on_disk (atomic l (dsk c) (view c))) (write_head (mkL l b1)) (fun _ s' => exists b', s' = mkL l b' /\ crep b' (cache_header h)).
Proof.
  intros Hh R1. pose proof (t_room _ _ _ T) as [Hr1 Hr2]. pose proof (t_end _ _ _ T) as [He1 He2]. pose proof (t_dev _ _ _ T) as Hdev.
  pose proof (t_n _ _ _ T) as Hn. change NBUF with 30 in Hr2.
  pose proof (atomic_log (length log_writes)) as P1. rewrite take_ge in P1 by done.
  eapply chl_conseq.
  { apply (write_head_spec _ l b1 cache_logged h); try done; unfold cache_logged; cbn [dsk view pinned].
    - rewrite install_ne by (intros ?%log_fst; lia). by apply header_view.
    - rewrite length_install. lia.
    - apply pinned_few.
    - rewrite (t_len _ _ _ T). change (Z.to_nat LOGSIZE) with 30%nat. lia.
    - apply (atomic_home 0 h Hh). }
  intros [] s2 (b2 & -> & R2). exists b2. split; [done|]. unfold c_copy, cache_logged in R2; cbn [dsk view pinned] in R2.
  assert (pinned c ∖ {[start l]} = pinned c) as Hpe; [|by rewrite Hpe in R2].
  apply set_eq. intros y. rewrite elem_of_difference, elem_of_singleton. split; [tauto|].
  intros Hy. split; [done|]. intros ->. apply (pinned_home _ Hy). lia.
Qed.

Lemma install_phase h b2 :
  zlookup (dsk c) (start l) = Some h -> crep b2 (cache_header h) ->
  chl (on_disk (atomic l (dsk c) (view c))) (install_trans (mkL l b2)) (fun _ s' => exists b', s' = mkL l b' /\ crep b' (cache_home h)).
Proof.
  intros Hh R2. pose proof (t_room _ _ _ T) as [Hr1 Hr2]. pose proof (t_end _ _ _ T) as [He1 He2]. pose proof (t_start _ _ _ T) as Hs.
  pose proof (t_n _ _ _ T) as Hn. pose proof (t_dev _ _ _ T) as Hdev. change NBUF with 30 in Hr2. destruct (crep_sizes _ _ R) as [Hlv _].
  apply (install_loop_spec _ l home_writes 0 b2 (cache_header h)); try done; unfold cache_header; cbn [dsk view pinned];
    rewrite ?length_home, ?length_logged_disk; try done.
  - change (Z.to_nat LOGSIZE) with 30%nat. lia.
  - intros i bn x Hi. destruct (home_range bn) as [H1 H2].
    { apply list_elem_of_fmap. exists (bn, x). split; [done|by eapply list_elem_of_lookup_2]. }
    apply home_lookup in Hi as [Hbn Hx]. split_and!; [by apply (t_blocks _ _ _ T)| |lia|lia|lia].
    pose proof (lookup_lt_Some _ _ _ Hbn). rewrite zlookup_zinsert_ne by lia.
    apply install_eq; [apply log_nodup| |lia]. apply (list_elem_of_lookup_2 _ i). unfold log_writes.
    rewrite list_lookup_imap, Hx. done.
  - apply pinned_few.
  - left. rewrite home_fst. split; [apply T|]. intros y. by rewrite (t_pinned _ _ _ T), elem_of_list_to_set.
  - intros m _. by apply atomic_home.
Qed.

Lemma erase_phase h b3 :
  zlookup (dsk c) (start l) = Some h -> crep b3 (cache_home h) ->
  chl (on_disk (atomic l (dsk c) (view c))) (write_head (mkL (set_lh_n 0 l) b3)) (fun _ s' => committed (view c) s').
Proof.
  intros Hh R3. pose proof (t_room _ _ _ T) as [Hr1 Hr2]. pose proof (t_end _ _ _ T) as [He1 He2]. pose proof (t_start _ _ _ T) as Hs.
  pose proof (t_n _ _ _ T) as Hn. pose proof (t_dev _ _ _ T) as Hdev. destruct (crep_sizes _ _ R) as [Hlv _].
  set (h1 := hdr_put h (lh_n l) (lh_block l)). set (h2 := hdr_put h1 0 (lh_block l)).
  assert (hdr_n h2 = 0) as Hh2 by (apply hdr_put_n; [apply length_hdr_put, (header_size h Hh)|done]).
  destruct (atomic_done h h2 Hh Hh2) as [P4 P4'].
  pose proof (atomic_home (length home_writes) h Hh) as P3. rewrite take_ge in P3 by done.
  assert (pinned (cache_home h) = ∅) as Hp0.
  { unfold cache_home, c_install, cache_header; cbn [pinned]. by rewrite home_fst, (t_pinned _ _ _ T), difference_diag_L. }
  eapply chl_conseq.
  { apply (write_head_spec _ (set_lh_n 0 l) b3 (cache_home h) h1 R3); try done;
      [|cbn [dsk cache_home c_install cache_header]; rewrite length_install, length_logged_disk; lia|by rewrite Hp0|
       cbn [lh_n lh_block set_lh_n]; lia].
    unfold cache_home, c_install, cache_header; cbn [view start set_lh_n].
    rewrite install_ne by (intros ?%home_range; lia). apply zlookup_zinsert_eq. rewrite length_install. lia. }
  intros [] s4 (b4 & -> & R4). exists (c_copy (start l) h2 (cache_home h)). cbn [lb lg]. split_and!; try done.
  - unfold c_copy; cbn [pinned]. rewrite Hp0. set_solver.
  - exists h2. split; [|done]. apply zlookup_zinsert_eq.
    cbn [dsk cache_home c_install cache_header]. rewrite length_install, length_logged_disk. lia.
Qed.

Lemma commit_spec :
  bns <> [] ->
  chl (on_disk (atomic l (dsk c) (view c))) (commit (mkL l b)) (fun _ s' => committed (view c) s').
Proof.
  intros Hne. destruct (t_hdr _ _ _ T) as (h & Hh & _).
  unfold commit, upd_log. do 2 cstep. cbn [lg].
  destruct (Z.ltb_spec 0 (lh_n l)); [|rewrite (t_n _ _ _ T) in *; destruct bns; [done|simpl in *; lia]].
  eapply chl_seq; [apply write_log_spec|]. intros [] s1 (b1 & -> & R1).
  eapply chl_seq; [by apply (commit_point h)|]. intros [] s2 (b2 & -> & R2).
  eapply chl_seq; [by apply (install_phase h)|]. intros [] s3 (b3 & -> & R3).
  do 2 cstep. cbn [lg lb]. by apply (erase_phase h).
Qed.

End transaction.

(** * Recovery *)

Lemma read_head_loop_spec C fuel d i l (b : B) :
  length (lh_block l) = Z.to_nat LOGSIZE -> 0 <= i -> lh_n l <= LOGSIZE -> lh_n l - i <= Z.of_nat fuel ->
  (forall k, 0 <= k < i -> k < lh_n l -> zlookup (lh_block l) k = Some (hdr_block d k)) ->
  chl C (read_head_loop fuel d i (mkL l b)) (fun _ s' => exists bl, s' = mkL (set_lh_block bl l) b /\
    length bl = Z.to_nat LOGSIZE /\ forall k, 0 <= k < lh_n l -> zlookup bl k = Some (hdr_block d k)).
Proof.
  revert i l. induction fuel as [|fuel IH]; intros i l Hlen Hi Hn Hf Hk; cbn [read_head_loop]; do 2 cstep; cbn [lg].
  - destruct (Z.ltb_spec i (lh_n l)); [lia|]. cstep. exists (lh_block l). split; [by destruct l|]. split; [done|].
    intros k Hr. apply Hk; lia.
  - destruct (Z.ltb_spec i (lh_n l)) as [Hlt|].
    2:{ cstep. exists (lh_block l). split; [by destruct l|]. split; [done|]. intros k Hr. apply Hk; lia. }
    cstep. unfold lh_set. do 2 cstep. cbn [lg]. rewrite bool_decide_true by (rewrite Hlen; change LOGSIZE with 30 in *; lia).
    unfold upd_log. cstep. cbn [lg lb].
    eapply chl_conseq; [apply IH; cbn [lh_n lh_block set_lh_block]; [by rewrite length_zinsert|lia|done|lia|]|].
    + intros k Hr1 Hr2. destruct (decide (k = i)) as [->|].
      * apply zlookup_zinsert_eq. rewrite Hlen. change LOGSIZE with 30 in *. lia.
      * rewrite zlookup_zinsert_ne by done. apply Hk; lia.
    + intros [] s' (bl & -> & H1 & H2). exists bl. done.
Qed.

(** The machine after a power failure: memory zeroed, then the start of the kernel that
    concerns the disk. *)
Definition log_powerfail (s : lstate B) : lstate B := mkL log_zero (powerfail (lb s)).
Definition log_boot : M (lstate B) unit := zoom boot ;; initlog ROOTDEV.

Section recovery.
Context (st sz : Z) (d0 : list block).
Hypothesis RC : recoverable st sz d0.

(** What holds whenever recovery is stopped. *)
Definition recovering (d : list block) : Prop :=
  recoverable st sz d /\ same_outside st (st + sz) (replay st d) (replay st d0).

Lemma logged_prefix m : logged st (install (take m (logged st d0)) d0) = logged st d0.
Proof.
  assert (forall j, st <= j < st + sz -> zlookup (install (take m (logged st d0)) d0) j = zlookup d0 j) as Hin.
  { intros j Hj. apply install_ne. intros (x & Hx%elem_of_take_sub)%elem_of_fst.
    destruct (rc_home _ _ _ RC j) as (_ & Ho & _); [|done]. apply list_elem_of_fmap. by exists (j, x). }
  destruct (rc_hdr _ _ _ RC) as (h & Hh & Hn & Hsz). unfold logged at 1 3. rewrite Hin, Hh by lia.
  apply list_fmap_ext. intros i k Hk. apply lookup_seq in Hk as [-> Hlt]. simpl. do 2 f_equal. apply Hin. lia.
Qed.

Lemma recovering_prefix m : recovering (install (take m (logged st d0)) d0).
Proof.
  pose proof (logged_prefix m) as E. set (d := install _ d0) in *.
  assert (length d = length d0) as Hl by apply length_install.
  assert (forall j, j ∈ (take m (logged st d0)).*1 -> ~ (st <= j < st + sz) /\ j <> 1) as Hout.
  { intros j (x & Hx%elem_of_take_sub)%elem_of_fst. destruct (rc_home _ _ _ RC j) as (_ & Ho & H1); [|done].
    apply list_elem_of_fmap. by exists (j, x). }
  destruct (rc_hdr _ _ _ RC) as (h & Hh & Hn & Hsz). split.
  - split.
    + destruct (rc_sb _ _ _ RC) as (x & Hx & ?). exists x. split; [|done]. unfold d. rewrite install_ne; [done|].
      intros ?%Hout. tauto.
    + exists h. split; [|done]. unfold d. rewrite install_ne; [done|]. intros [Ho _]%Hout. apply Ho. lia.
    + rewrite E, Hl. apply RC.
    + rewrite E. apply RC.
    + rewrite Hl. apply RC.
  - unfold replay. rewrite E. unfold d. rewrite install_idem; [done|apply RC|]. intros j Hj. by apply (rc_home _ _ _ RC).
Qed.

(** The last write of recovery empties the log. *)
Lemma recovering_done h :
  hdr_n h = 0 -> recovering (zinsert st h (replay st d0)) /\
  same_outside st (st + sz) (zinsert st h (replay st d0)) (replay st d0).
Proof.
  intros Hh. destruct (rc_area _ _ _ RC) as [Ha1 Ha2]. destruct (rc_hdr _ _ _ RC) as (h0 & Hh0 & Hn & Hsz).
  assert (length (replay st d0) = length d0) as Hl by apply length_install.
  assert (zlookup (zinsert st h (replay st d0)) st = Some h) as Hz by (apply zlookup_zinsert_eq; lia).
  assert (same_outside st (st + sz) (zinsert st h (replay st d0)) (replay st d0)) as Hs
    by (apply same_outside_zinsert; lia).
  split; [|done]. split; [|by rewrite (replay_empty _ _ h); [|done|lia]].
  assert (logged st (zinsert st h (replay st d0)) = []) as El by (unfold logged; by rewrite Hz, Hh).
  split; rewrite ?El, ?length_zinsert, ?Hl; [|exists h; split; [done|change LOGSIZE with 30; lia]| | |done].
  - destruct (rc_sb _ _ _ RC) as (x & Hx & ?). exists x. split; [|done]. rewrite zlookup_zinsert_ne by lia.
    unfold replay. rewrite install_ne; [done|]. intros (_ & _ & ?)%(rc_home _ _ _ RC). done.
  - intros j Hj. by apply elem_of_nil in Hj.
  - by apply NoDup_nil_2.
Qed.

Lemma hold_drop c i bn : quiet c -> c_drop i (c_hold i bn c) = c.
Proof.
  destruct c as [d v h p t]. intros [Hh _]. unfold c_drop, c_hold, set_held. cbn in *. subst h.
  f_equal. rewrite delete_insert_id; [done|apply lookup_empty].
Qed.

(** Reading a block and giving it back. *)
Lemma peek_spec {A} P l b d bn x (f : block -> M (lstate B) A) (Q : A -> lstate B -> Prop) :
  crep b (cache_boot d) -> P d -> zlookup d bn = Some x ->
  (forall i b', crep b' (c_hold i bn (cache_boot d)) -> held (cache_boot d) !! i = None ->
     chl (on_disk P) ((y <- zoom (bdata i) ;; f y) (mkL l b')) Q) ->
  chl (on_disk P) ((i <- zoom (bread ROOTDEV bn) ;; y <- zoom (bdata i) ;; f y) (mkL l b)) Q.
Proof.
  intros R HP Hx Hf. eapply chl_lb_seq.
  - apply (bread_law P b _ bn R HP); [by eapply zlookup_Some_range|by rewrite held_blocks_quiet|].
    right. by rewrite held_blocks_quiet, union_empty_r_L.
  - intros i b' [Hi R']. by apply Hf.
Qed.

Definition log_recovered (bl : list Z) : log := mkLog st sz 0 0 ROOTDEV 0 bl.

(** The state after recovery. *)
Definition recovered (s' : lstate B) : Prop := exists c' bl,
  crep (lb s') c' /\ quiet c' /\ pinned c' = ∅ /\ lg s' = log_recovered bl /\ length bl = Z.to_nat LOGSIZE /\
  same_outside st (st + sz) (dsk c') (replay st d0) /\ exists h, zlookup (dsk c') st = Some h /\ hdr_n h = 0.

Lemma read_head_spec l b h :
  crep b (cache_boot d0) -> ldev l = ROOTDEV -> start l = st -> length (lh_block l) = Z.to_nat LOGSIZE ->
  zlookup d0 st = Some h ->
  chl (on_disk recovering) (read_head (mkL l b)) (fun _ s' => exists bl b',
    s' = mkL (set_lh_block bl (set_lh_n (hdr_n h) l)) b' /\ crep b' (cache_boot d0) /\
    length bl = Z.to_nat LOGSIZE /\ forall k, 0 <= k < hdr_n h -> zlookup bl k = Some (hdr_block h k)).
Proof.
  intros R Hdev Hst Hlen Hh. destruct (rc_area _ _ _ RC) as [Ha1 Ha2].
  destruct (rc_hdr _ _ _ RC) as (h' & Hh' & Hn & _). assert (h' = h) as -> by congruence.
  assert (recovering d0) as HP by (apply (recovering_prefix 0)).
  pose proof (zlookup_Some_range _ _ _ Hh) as Hr.
  unfold read_head. do 2 cstep. cbn [lg]. rewrite Hdev, Hst, u32_small by lia.
  eapply chl_lb_seq; [apply (bread_law _ b _ st R HP); [done|by rewrite held_blocks_quiet|
    right; by rewrite held_blocks_quiet, union_empty_r_L]|].
  intros i b1 [Hi R1]. eapply chl_lb_seq; [apply (bdata_law _ _ _ i st h R1); [apply lookup_insert_eq|done]|].
  intros r b' [-> ->]. unfold upd_log. do 2 cstep. cbn [lg lb].
  eapply chl_seq; [apply read_head_loop_spec; cbn [lh_block lh_n set_lh_n]; [done|lia|lia|change LOGSIZE with 30 in *; lia|lia]|].
  intros [] s' (bl & -> & Hbl & Hk). eapply chl_conseq.
  { apply chl_lb, (brelse_law _ _ _ i st R1); [apply lookup_insert_eq|by cbn; set_solver|done]. }
  intros [] s' (b2 & -> & R2). exists bl, b2. rewrite hold_drop in R2 by done. done.
Qed.

Lemma hdr_block_u32 h k : 0 <= u32 (hdr_block h k) < 2 ^ 31 -> u32 (hdr_block h k) = hdr_block h k.
Proof.
  intros H. unfold hdr_block in *. set (x := get32 h (4 + 4 * k)) in *. pose proof (s32_range x).
  destruct (decide (0 <= s32 x)); [by apply u32_small; lia|]. exfalso.
  assert (u32 (s32 x) = s32 x + 2 ^ 32) as E; [|lia]. unfold u32. rewrite <- (Z.mod_add _ 1) by done.
  apply Z.mod_small. lia.
Qed.

Lemma replay_spec l b h bl :
  crep b (cache_boot d0) -> ldev l = ROOTDEV -> start l = st -> zlookup d0 st = Some h ->
  lh_n l = hdr_n h -> lh_block l = bl -> (forall k, 0 <= k < hdr_n h -> zlookup bl k = Some (hdr_block h k)) ->
  chl (on_disk recovering) (install_trans (mkL l b)) (fun _ s' => exists b',
    s' = mkL l b' /\ crep b' (c_install (logged st d0) (cache_boot d0))).
Proof.
  intros R Hdev Hst Hh Hn Hbl Hk. destruct (rc_area _ _ _ RC) as [Ha1 Ha2].
  destruct (rc_hdr _ _ _ RC) as (h' & Hh' & Hn' & Hsz). assert (h' = h) as -> by congruence.
  assert (length (logged st d0) = Z.to_nat (hdr_n h)) as Hlen.
  { unfold logged. by rewrite Hh, length_fmap, length_seq. }
  apply (install_loop_spec _ l (logged st d0) 0 b (cache_boot d0)); try done; rewrite ?Hlen.
  - lia.
  - cbn [dsk cache_boot]. lia.
  - change LOGSIZE with 30 in *. lia.
  - intros i bn x Hi. assert (bn ∈ (logged st d0).*1) as Hin.
    { apply list_elem_of_fmap. exists (bn, x). split; [done|by eapply list_elem_of_lookup_2]. }
    destruct (rc_home _ _ _ RC bn Hin) as (Hr & Hout & _). cbn [dsk view cache_boot].
    pose proof (lookup_lt_Some _ _ _ Hi) as Hlt. rewrite Hlen in Hlt. unfold logged in Hi. rewrite Hh, list_lookup_fmap in Hi.
    rewrite lookup_seq_lt in Hi by lia. injection Hi as <- <-.
    pose proof (hdr_block_u32 h (Z.of_nat i) ltac:(lia)) as Eu. rewrite Eu in *. split_and!; [rewrite Hbl; apply Hk; lia| |lia|lia|lia].
    destruct (zlookup_range_Some d0 (st + 1 + Z.of_nat i)) as [y Hy]; [lia|].
    rewrite Hst, Hy. replace (st + (0 + Z.of_nat i) + 1) with (st + 1 + Z.of_nat i) by lia. done.
  - by right.
  - intros m _. apply recovering_prefix.
Qed.

Lemma initlog_spec b :
  crep b (cache_boot d0) -> chl (on_disk recovering) (initlog ROOTDEV (mkL log_zero b)) (fun _ s' => recovered s').
Proof.
  intros R. destruct (rc_area _ _ _ RC) as [Ha1 Ha2]. destruct (rc_hdr _ _ _ RC) as (h & Hh & Hn & Hsz).
  destruct (rc_sb _ _ _ RC) as (x & Hx & Ex1 & Ex2). assert (recovering d0) as HP by (apply (recovering_prefix 0)).
  unfold initlog. change (BSIZE <=? 4 + 4 * LOGSIZE) with false. cbn iota.
  eapply chl_lb_seq with (R := fun r b' => r = sb_of x /\ crep b' (cache_boot d0)).
  { unfold readsb. eapply chl_seq; [apply (bread_law _ b _ 1 R HP); [by eapply zlookup_Some_range|by rewrite held_blocks_quiet|
      right; by rewrite held_blocks_quiet, union_empty_r_L]|].
    intros i b1 [Hi R1]. eapply chl_seq; [apply (bdata_law _ _ _ i 1 x R1); [apply lookup_insert_eq|done]|].
    intros r b' [-> ->]. eapply chl_seq; [apply (brelse_law _ _ _ i 1 R1); [apply lookup_insert_eq|by cbn; set_solver|done]|].
    intros [] b2 R2. cstep. by rewrite hold_drop in R2. }
  intros r b1 [-> R1]. unfold upd_log. do 2 cstep. cbn [lg lb outstanding committing lh_n lh_block log_zero]. rewrite Ex1, Ex2.
  unfold recover_from_log, upd_log. eapply chl_seq; [by apply (read_head_spec _ _ h)|].
  intros [] s1 (bl & b2 & -> & R2 & Hbl & Hk). eapply chl_seq; [by eapply (replay_spec _ _ h bl)|].
  intros [] s2 (b3 & -> & R3). do 2 cstep. cbn [lg lb]. set (l := set_lh_n 0 _). set (c3 := c_install _ _) in R3.
  assert (dsk c3 = replay st d0) as Ed by done. assert (pinned c3 = ∅) as Ep by set_solver.
  assert (view c3 = replay st d0) as Ev by done.
  assert (st ∉ (logged st d0).*1) as Hno by (intros (_ & ? & _)%(rc_home _ _ _ RC); lia).
  assert (zlookup (replay st d0) st = Some h) as Hz by (unfold replay; by rewrite install_ne).
  assert (length (replay st d0) = length d0) as Hl by apply length_install.
  assert (length h = 512%nat) as Hlh.
  { destruct (crep_sizes _ _ R) as [_ Hsizes]. eapply Hsizes, zlookup_in, Hh. }
  set (h' := hdr_put h (lh_n l) (lh_block l)). assert (hdr_n h' = 0) as Hh' by (by apply hdr_put_n).
  destruct (recovering_done h' Hh') as [P4 P4'].
  pose proof (recovering_prefix (length (logged st d0))) as P3. rewrite take_ge in P3 by done.
  eapply chl_conseq.
  { apply (write_head_spec _ l b3 c3 h); try done; [rewrite Ed; lia|by rewrite Ep|]. cbn [lh_n l set_lh_n]. lia. }
  intros [] s4 (b4 & -> & R4). exists (c_copy st h' c3), bl. cbn [lb lg]. split_and!; try done.
  - unfold c_copy; cbn [pinned]. rewrite Ep. set_solver.
  - exists h'. split; [|done]. unfold c_copy; cbn [dsk]. rewrite Ed. apply zlookup_zinsert_eq. lia.
Qed.

Lemma log_boot_spec s :
  diskof (lb s) = d0 ->
  chl (on_disk recovering) (log_boot (log_powerfail s)) (fun _ s' => recovered s').
Proof.
  intros Hs. assert (recovering d0) as HP by (apply (recovering_prefix 0)). unfold log_boot, log_powerfail.
  eapply chl_lb_seq; [apply boot_law; by rewrite Hs|]. rewrite Hs. intros [] b R. by apply initlog_spec.
Qed.

End recovery.
End commit.
