(* ===== verification/LogSafe.v ===== *)
(** What the log guarantees, and the log on the memory disk.

    The claims about log.c, proved from LogFacts.v for every block cache that keeps the laws
    of Cache.v, and their instances for the cache of bio.c over the memory disk. *)

From Stdlib Require Import ZArith Lia.
From stdpp Require Import base tactics option gmap sets strings numbers list.
From S2P Require Import Prelude Layout Bytes Crash Bio BioCache Cache Memide FsFormat Log LogFacts.
Open Scope Z_scope.

Section log.
Context {B : Type} {BO : BlockOps B} {BL : BlockLaws B}.

(** Power failure and restart; the restart may itself be cut short any number of times. *)
Inductive recovers : lstate B -> lstate B -> Prop :=
| recovers_done s s' : run (log_boot (log_powerfail s)) = ROk tt s' -> recovers s s'
| recovers_again s s1 s' : s1 ∈ published (log_boot (log_powerfail s)) -> recovers s1 s' -> recovers s s'.

Lemma recovers_replay st sz s s' :
  recoverable st sz (diskof (lb s)) -> recovers s s' ->
  same_outside st (st + sz) (diskof (lb s')) (replay st (diskof (lb s))).
Proof.
  intros RC H. induction H as [s s' Hr|s s1 s' Hs1 _ IH].
  - pose proof (log_boot_spec st sz _ RC s eq_refl) as (a & t & Hrun & HR)%chl_run.
    assert (t = s') as -> by congruence. destruct HR as (c' & bl & R & _ & _ & _ & _ & Hs & _).
    by rewrite (crep_disk _ _ R).
  - pose proof (chl_published _ _ _ _ (log_boot_spec st sz _ RC s eq_refl) Hs1) as [RC1 E1]. cbn in RC1, E1.
    etransitivity; [by apply IH|done].
Qed.

Lemma recovers_total st sz s : recoverable st sz (diskof (lb s)) -> exists s', recovers s s'.
Proof.
  intros RC. pose proof (log_boot_spec st sz _ RC s eq_refl) as ([] & t & Hrun & _)%chl_run.
  exists t. by constructor.
Qed.

(** C2. A transaction is atomic.  [commit] returns with the new contents of its blocks on disk and
    an empty log; and at whatever point the machine stops during [commit], restarting it - also
    when the restart is itself interrupted, any number of times - ends, and leaves on disk, log
    area aside, either every block as before the transaction or every block as after it. *)
Theorem commit_atomic l c bns b :
  crep b c -> txn l c bns -> bns <> [] ->
  (exists s', run (commit (mkL l b)) = ROk tt s' /\ committed l (view c) s') /\
  forall s1, s1 ∈ published (commit (mkL l b)) ->
    (exists s', recovers s1 s') /\
    forall s', recovers s1 s' ->
      same_outside (start l) (start l + lsize l) (diskof (lb s')) (dsk c) \/
      same_outside (start l) (start l + lsize l) (diskof (lb s')) (view c).
Proof.
  intros R T Hne. pose proof (commit_spec l c bns b R T Hne) as HC. split.
  - apply chl_run in HC as ([] & s' & Hr & HQ). by exists s'.
  - intros s1 Hs1. pose proof (chl_published _ _ _ _ HC Hs1) as [RC Hon]. split; [by eapply recovers_total|].
    intros s' Hs'. pose proof (recovers_replay _ _ _ _ RC Hs') as E.
    destruct Hon as [Hold|Hnew]; [left|right]; by rewrite E.
Qed.

(** C30. Recovery is idempotent.  From any disk whose superblock describes the log and whose
    header lists blocks outside it, restarting returns with the listed blocks copied to their
    places, an empty log and nothing else changed; interrupting and restarting any number of
    times gives the same disk, log area aside. *)
Theorem recovery_idempotent st sz s :
  recoverable st sz (diskof (lb s)) ->
  (exists s', run (log_boot (log_powerfail s)) = ROk tt s' /\ recovered st sz (diskof (lb s)) s') /\
  forall s', recovers s s' -> same_outside st (st + sz) (diskof (lb s')) (replay st (diskof (lb s))).
Proof.
  intros RC. split; [|intros s'; by apply recovers_replay].
  pose proof (log_boot_spec st sz _ RC s eq_refl) as ([] & t & Hrun & HR)%chl_run. by exists t.
Qed.

(** The log can overflow although every operation keeps its promise: with the log size
    that mkfs writes ([LOGSIZE] blocks, header included) [begin_op] admits three operations,
    each of which may write [MAXOPBLOCKS] blocks, but [log_write] panics at the 30th block. *)
Theorem log_reservation_overflow (l : log) (b : B) i :
  lsize l = LOGSIZE -> lh_n l = 0 -> outstanding l = 0 -> committing l = 0 ->
  run ((begin_op 1 ;; begin_op 1 ;; begin_op 1) (mkL l b)) = ROk tt (mkL (set_outstanding 3 l) b) /\
  3 * MAXOPBLOCKS = 30 /\
  run (log_write i (mkL (set_lh_n 29 (set_outstanding 3 l)) b)) = RPanic "too big a transaction".
Proof.
  intros Hs Hn Ho Hc. split; [|split; [done|]].
  - destruct l; cbn in *; subst. reflexivity.
  - unfold log_write. mrun. cbn [lg set_lh_n lh_n lsize set_outstanding]. by rewrite Hs.
Qed.

End log.

(** * The memory disk *)

(** A disk of 40 blocks: the superblock in block 1, the log in blocks 2 to 31. *)
Definition demo_sb : superblock := mkSb 40 4 8 30 2 32 33.
Definition demo_image : list Z :=
  splice (replicate (Z.to_nat (40 * BSIZE)) 0) BSIZE (sb_bytes demo_sb).
Definition demo_machine : bstate ramdisk := mkB bcache_zero (mkRam demo_image 0).
Definition demo_block : block := replicate 512 7.
Definition demo_log : log := mkLog 2 30 0 1 ROOTDEV 1 (34 :: replicate 29 0).

#[export] Existing Instance bio_ops.
#[export] Existing Instance bio_laws.
Definition demo_ops : BlockOps (bstate ramdisk) := bio_ops 0.
Definition demo_laws : BlockLaws (bstate ramdisk) (BO := demo_ops) := bio_laws 0.

Definition demo_dsk : list block := contents (disk demo_machine).
Definition demo_cache : cache := mkC demo_dsk (zinsert 34 demo_block demo_dsk) ∅ {[34]} ∅.

(** Booting, and then changing block 34 through the cache. *)
Lemma demo_rep : exists b, crep (BlockLaws := demo_laws) b demo_cache.
Proof.
  pose proof (boot_rep (fun _ => True) demo_machine) as (? & b0 & _ & R0)%chl_run.
  fold demo_dsk in R0.
  pose proof (bread_rep (fun _ => True) 0 b0 _ 34 R0 I ltac:(vm_compute; done) ltac:(set_solver) ltac:(right; vm_compute; done))
    as (i & b1 & _ & Hi & R1)%chl_run.
  pose proof (bset_rep (fun _ => True) b1 _ i 34 demo_block R1 (lookup_insert_eq _ _ _) eq_refl) as (? & b2 & _ & R2)%chl_run.
  pose proof (bpin_rep (fun _ => True) b2 _ i 34 R2 (lookup_insert_eq _ _ _)) as (? & b3 & _ & R3)%chl_run.
  pose proof (brelse_rep (fun _ => True) b3 _ i 34 R3 (lookup_insert_eq _ _ _) ltac:(cbn; set_solver) I) as (? & b4 & _ & R4)%chl_run.
  exists b4. unfold demo_cache.
  match type of R4 with rep _ ?c => assert (c = demo_cache) as E; [|by rewrite E in R4] end.
  unfold c_drop, c_pin, c_put, c_hold, cache_boot, set_held, demo_cache. cbn [dsk view held pinned touched].
  f_equal. rewrite delete_insert_id; [done|apply lookup_empty].
Qed.

Lemma demo_length : length demo_dsk = 40%nat.
Proof. vm_compute. reflexivity. Qed.

Lemma demo_txn : txn demo_log demo_cache [34].
Proof.
  split.
  - split; reflexivity.
  - reflexivity.
  - reflexivity.
  - intros [|i] bn; simpl; [by intros [= <-]|done].
  - reflexivity.
  - apply NoDup_singleton.
  - cbn [pinned demo_cache]. rewrite list_to_set_singleton_L. reflexivity.
  - intros bn ->%list_elem_of_singleton. cbn [dsk demo_cache]. rewrite demo_length. cbn [start lsize demo_log]. lia.
  - cbn [dsk demo_cache]. eexists. split; [vm_compute; reflexivity|]. split; vm_compute; reflexivity.
  - cbn [start demo_log]. lia.
  - cbn [lh_n lsize demo_log]. change NBUF with 30. lia.
  - cbn [dsk demo_cache]. rewrite demo_length. cbn [start lsize demo_log]. lia.
  - cbn [dsk demo_cache]. eexists. split; [vm_compute; reflexivity|]. vm_compute. reflexivity.
Qed.

Lemma commit_atomic_witness : exists b,
  crep (BlockLaws := demo_laws) b demo_cache /\ txn demo_log demo_cache [34] /\
  exists s', run (commit (BO := demo_ops) (mkL demo_log b)) = ROk tt s' /\
    committed (BL := demo_laws) demo_log (view demo_cache) s'.
Proof.
  destruct demo_rep as [b R]. exists b. split; [exact R|]. split; [exact demo_txn|].
  exact (proj1 (commit_atomic (BL := demo_laws) demo_log demo_cache [34] b R demo_txn ltac:(discriminate))).
Defined.

(** The disk after a crash at the end of the commit of block 34: the header lists it. *)
Definition crashed_image : list Z :=
  splice (splice demo_image (2 * BSIZE) (le_enc 4 1 ++ le_enc 4 34)) (3 * BSIZE) demo_block.
Definition crashed : lstate (bstate ramdisk) := mkL demo_log (mkB bcache_zero (mkRam crashed_image 40)).

Lemma recovery_idempotent_witness :
  recoverable 2 30 (diskof (BlockLaws := demo_laws) (lb crashed)) /\
  exists s', run (log_boot (BO := demo_ops) (log_powerfail (BO := demo_ops) crashed)) = ROk tt s' /\
    recovered (BL := demo_laws) 2 30 (diskof (BlockLaws := demo_laws) (lb crashed)) s'.
Proof.
  set (d := diskof (lb crashed)).
  assert (logged 2 d = [(34, demo_block)]) as El by (vm_compute; reflexivity).
  assert (length d = 40%nat) as Hl by (vm_compute; reflexivity).
  assert (recoverable 2 30 d) as RC.
  { split.
    - eexists. split; [vm_compute; reflexivity|]. split; vm_compute; reflexivity.
    - eexists. split; [vm_compute; reflexivity|]. change LOGSIZE with 30. vm_compute. intuition discriminate.
    - rewrite El, Hl. intros j ->%list_elem_of_singleton. cbn [fst]. lia.
    - rewrite El. apply NoDup_singleton.
    - rewrite Hl. lia. }
  split; [exact RC|]. exact (proj1 (recovery_idempotent (BL := demo_laws) 2 30 crashed RC)).
Defined.

Lemma log_reservation_overflow_witness :
  run (log_write (BO := demo_ops) 0 (mkL (mkLog 2 30 3 0 ROOTDEV 29 (replicate 30 0)) demo_machine)) =
    RPanic "too big a transaction".
Proof.
  exact (proj2 (proj2 (log_reservation_overflow (BO := demo_ops) (mkLog 2 30 0 0 ROOTDEV 0 (replicate 30 0))
    demo_machine 0 eq_refl eq_refl eq_refl eq_refl))).
Defined.
