(* ===== verification/Tx.v ===== *)
(** What the file system sees of the log and the block cache.

    fs.c reads blocks with [bread], changes them in place and hands them to [log_write];
    [TxOps] are these calls.  The log of Log.v over a block cache provides them. *)

From Stdlib Require Import ZArith Lia.
From stdpp Require Import base tactics option gmap sets strings numbers list.
From S2P Require Import Prelude Layout Crash Cache Log.
Open Scope Z_scope.

Class TxOps (T : Type) := {
  bread : Z -> Z -> M T nat;
  brelse : nat -> M T unit;
  bdata : nat -> M T block;
  bset : nat -> block -> M T unit;
  log_write : nat -> M T unit;
  begin_op : M T unit;
  end_op : M T unit
}.

#[export] Instance log_tx {B} {BO : BlockOps B} : TxOps (lstate B) := {|
  bread d b := zoom (Cache.bread d b);
  brelse i := zoom (Cache.brelse i);
  bdata i := zoom (Cache.bdata i);
  bset i x := zoom (Cache.bset i x);
  log_write := Log.log_write;
  begin_op := Log.begin_op 1;
  end_op := Log.end_op
|}.

(** A block changed, logged and released again. *)
Definition t_put (bn : Z) (d : block) (c : cache) : cache :=
  mkC (dsk c) (zinsert bn d (view c)) (held c) (pinned c ∪ {[bn]}) (touched c).

(** What the calls promise inside a transaction.  [trep lo n t c]: an operation is under way in
    [t], the cache below is [c], the log takes the [n] blocks from [lo] on; the blocks pinned in
    [c] are the blocks of the transaction.  The disk is not written, so a crash in a transaction
    finds the disk as it was. *)
Class TxLaws (T : Type) {TO : TxOps T} := {
  tdisk : T -> list block;
  trep : Z -> Z -> T -> cache -> Prop;
  trep_sizes : forall lo n t c, trep lo n t c ->
    tdisk t = dsk c /\ length (view c) = length (dsk c) /\ (forall d, d ∈ view c -> length d = 512%nat) /\
    Z.of_nat (length (dsk c)) <= 2 ^ 31;
  tbread_law : forall (P : list block -> Prop) lo n t c bn,
    trep lo n t c -> P (dsk c) -> 0 <= bn < Z.of_nat (length (dsk c)) -> bn ∉ held_blocks c ->
    bn ∈ pinned c \/ Z.of_nat (size (pinned c ∪ held_blocks c)) < NBUF ->
    chl (fun t => P (tdisk t)) (bread ROOTDEV bn t)
      (fun i t' => held c !! i = None /\ trep lo n t' (c_hold i bn c));
  tbdata_law : forall (P : list block -> Prop) lo n t c i bn d,
    trep lo n t c -> held c !! i = Some bn -> lookup_view c bn = Some d ->
    chl (fun t => P (tdisk t)) (bdata i t) (fun r t' => r = d /\ t' = t);
  tbset_law : forall (P : list block -> Prop) lo n t c i bn d,
    trep lo n t c -> held c !! i = Some bn -> length d = 512%nat ->
    chl (fun t => P (tdisk t)) (bset i d t) (fun _ t' => trep lo n t' (c_put bn d c));
  tlog_write_law : forall (P : list block -> Prop) lo n t c i bn,
    trep lo n t c -> P (dsk c) -> held c !! i = Some bn -> ~ (lo <= bn < lo + n) -> bn <> 1 ->
    0 <= bn < Z.of_nat (length (dsk c)) -> Z.of_nat (size (pinned c)) < Z.min (n - 1) (LOGSIZE - 1) ->
    chl (fun t => P (tdisk t)) (log_write i t) (fun _ t' => trep lo n t' (c_pin bn c));
  tbrelse_law : forall (P : list block -> Prop) lo n t c i bn,
    trep lo n t c -> held c !! i = Some bn -> bn ∉ touched c -> P (dsk c) ->
    chl (fun t => P (tdisk t)) (brelse i t) (fun _ t' => trep lo n t' (c_drop i c))
}.
