(* ===== verification/TxLog.v ===== *)
(** The log keeps the promises of Tx.v.

    [log_rep] relates a log with [k] operations under way to the abstract transaction: the header in
    memory lists exactly the pinned blocks. *)

From Stdlib Require Import ZArith Lia.
From stdpp Require Import base tactics option gmap sets strings numbers list.
From S2P Require Import Prelude Layout Bytes Crash Bio Cache FsFormat Log LogFacts Tx.
Open Scope Z_scope.

(** The cache without the buffers in use: what [commit] will find. *)
Definition unheld (c : cache) : cache := mkC (dsk c) (view c) ∅ (pinned c) ∅.

Section txlog.
Context {B : Type} {BO : BlockOps B} {BL : BlockLaws B}.

(** The header lists the blocks of the transaction. *)
Lemma txn_listed l c bns : txn l c bns -> take (Z.to_nat (lh_n l)) (lh_block l) = bns.
Proof.
  intros T. apply list_eq. intros i. rewrite (t_n _ _ _ T), Nat2Z.id.
  destruct (bns !! i) as [bn|] eqn:E.
  - rewrite lookup_take_lt by (by eapply lookup_lt_Some). rewrite <- zlookup_nat. by apply (t_blocks _ _ _ T).
  - apply lookup_take_ge. by apply lookup_ge_None_1.
Qed.

Lemma txn_size l c bns : txn l c bns -> Z.of_nat (base.size (pinned c)) = lh_n l.
Proof.
  intros T. rewrite (t_pinned _ _ _ T), size_list_to_set by apply (t_nodup _ _ _ T). symmetry. apply (t_n _ _ _ T).
Qed.

(** A block joins the transaction: at the place it has, or at the end. *)
Definition logged_at (bns : list Z) (bn : Z) : nat := default (length bns) (find_index (fun x => u32 x =? bn) bns).
Definition join (bns : list Z) (bn : Z) : list Z := if decide (bn ∈ bns) then bns else bns ++ [bn].

Lemma logged_at_spec bns bn :
  (forall x, x ∈ bns -> u32 x = x) ->
  if decide (bn ∈ bns) then bns !! logged_at bns bn = Some bn else logged_at bns bn = length bns.
Proof.
  intros Hx. unfold logged_at. destruct (find_index _ bns) as [k|] eqn:E; simpl.
  - apply find_index_Some in E as [(x & Hk & Hb) _]. apply Z.eqb_eq in Hb.
    assert (x ∈ bns) as Hin by (by eapply list_elem_of_lookup_2). rewrite (Hx x Hin) in Hb. subst x.
    by rewrite decide_True.
  - rewrite decide_False; [done|]. intros (k & Hk)%list_elem_of_lookup. rewrite find_index_None in E.
    specialize (E k bn Hk). cbn in E. apply Z.eqb_neq in E. apply E, Hx. by eapply list_elem_of_lookup_2.
Qed.

Lemma txn_join l c bns bn i :
  i = logged_at bns bn ->
  txn l c bns -> ~ (start l <= bn < start l + lsize l) -> bn <> 1 -> 0 <= bn < Z.of_nat (length (dsk c)) ->
  lh_n l < lsize l - 1 -> lh_n l < LOGSIZE - 1 ->
  (i < Z.to_nat LOGSIZE)%nat /\
  txn (mkLog (start l) (lsize l) (outstanding l) (committing l) (ldev l)
         (if Z.of_nat i =? lh_n l then lh_n l + 1 else lh_n l) (zinsert (Z.of_nat i) bn (lh_block l)))
    (c_pin bn c) (join bns bn).
Proof.
  intros Ei T Hout H1 Hr Hn1 Hn2. pose proof (t_n _ _ _ T) as Hn. change LOGSIZE with 30 in *.
  pose proof (t_len _ _ _ T) as Hlen. change LOGSIZE with 30 in Hlen.
  assert (forall x, x ∈ bns -> u32 x = x) as Hu.
  { intros x (Hx & _)%(t_home _ _ _ T). pose proof (t_end _ _ _ T). apply u32_small. lia. }
  pose proof (logged_at_spec bns bn Hu) as Hi. rewrite <- Ei in Hi. unfold join.
  destruct (decide (bn ∈ bns)) as [Hin|Hnin].
  - pose proof (lookup_lt_Some _ _ _ Hi) as Hlt. split; [lia|].
    destruct (Z.eqb_spec (Z.of_nat i) (lh_n l)); [lia|].
    rewrite zinsert_nat, list_insert_id by (rewrite <- zlookup_nat; by apply (t_blocks _ _ _ T)).
    destruct T as [t_quiet t_dev t_n t_blocks t_len t_nodup t_pinned t_home t_sb t_start t_room t_end t_hdr]. split; cbn [ldev lh_n lh_block start lsize c_pin dsk pinned]; try done.
    + destruct t_quiet as [? E]. split; [done|]. cbn [touched c_pin]. rewrite E. set_solver.
    + rewrite t_pinned. set_solver.
  - rewrite Hi. split; [lia|]. rewrite <- Hn, Z.eqb_refl.
    destruct T as [t_quiet t_dev t_n t_blocks t_len t_nodup t_pinned t_home t_sb t_start t_room t_end t_hdr]. split; cbn [ldev lh_n lh_block start lsize c_pin dsk pinned]; try done.
    + destruct t_quiet as [? E]. split; [done|]. cbn [touched c_pin]. rewrite E. set_solver.
    + rewrite length_app. simpl. lia.
    + intros j x [Hx|[Hge Hx]]%lookup_app_Some.
      * rewrite zlookup_zinsert_ne; [by apply t_blocks|]. apply lookup_lt_Some in Hx. lia.
      * destruct (j - length bns)%nat eqn:Ej; [|done]. injection Hx as <-.
        replace (Z.of_nat j) with (lh_n l) by lia. apply zlookup_zinsert_eq. rewrite Hlen. lia.
    + by rewrite length_zinsert.
    + apply NoDup_app. split; [done|]. split; [|apply NoDup_singleton]. intros x Hx ->%list_elem_of_singleton. done.
    + rewrite t_pinned, list_to_set_app_L. set_solver.
    + intros x [Hx| ->%list_elem_of_singleton]%elem_of_app; [by apply t_home|done].
    + change NBUF with 30. lia.
Qed.

(** The number of operations under way. *)
Context (k : Z) (Hk : 1 <= k).

Record log_rep (lo n : Z) (t : lstate B) (c : cache) : Prop := {
  lr_crep : crep (lb t) c;
  lr_area : start (lg t) = lo /\ lsize (lg t) = n;
  lr_open : outstanding (lg t) = k /\ committing (lg t) = 0;
  lr_txn : exists bns, txn (lg t) (unheld c) bns
}.

(** Operations on buffers leave the log alone. *)
Lemma log_rep_cache lo n l b c b' c' :
  log_rep lo n (mkL l b) c -> crep b' c' -> dsk c' = dsk c -> pinned c' = pinned c ->
  log_rep lo n (mkL l b') c'.
Proof.
  intros [_ Ha Ho (bns & T)] R' Ed Ep. split; [done|done|done|]. exists bns.
  destruct T. split; unfold unheld in *; cbn [dsk pinned held touched] in *; rewrite ?Ed, ?Ep; done.
Qed.

(** A call into the cache that changes neither the disk nor the pinned blocks. *)
Lemma log_zoom {A} (P : list block -> Prop) lo n t c (m : M B A) (R : A -> B -> Prop) (f : A -> cache) (X : A -> Prop) :
  log_rep lo n t c -> chl (fun b => P (diskof b)) (m (lb t)) R ->
  (forall a b', R a b' -> X a /\ crep b' (f a)) -> (forall a, dsk (f a) = dsk c /\ pinned (f a) = pinned c) ->
  chl (fun t => P (diskof (lb t))) (zoom m t) (fun a t' => X a /\ log_rep lo n t' (f a)).
Proof.
  intros L Hm HR Hf. destruct t as [l b]. eapply chl_conseq; [by apply chl_lb|].
  intros a s' (b' & -> & [HX HC]%HR). split; [done|]. by eapply log_rep_cache; [..|apply Hf|apply Hf].
Qed.

Lemma log_write_spec (P : list block -> Prop) lo n t c i bn :
  log_rep lo n t c -> P (dsk c) -> held c !! i = Some bn -> ~ (lo <= bn < lo + n) -> bn <> 1 ->
  0 <= bn < Z.of_nat (length (dsk c)) ->
  Z.of_nat (base.size (pinned c)) < Z.min (n - 1) (LOGSIZE - 1) ->
  chl (fun t => P (diskof (lb t))) (Log.log_write i t) (fun _ t' => log_rep lo n t' (c_pin bn c)).
Proof.
  intros [R [<- <-] [Ho Hc] (bns & T)] HP Hi Hout H1 Hr Hsz. destruct t as [l b]. cbn [lg lb] in *.
  pose proof (txn_size _ _ _ T) as Hs. cbn [unheld pinned] in Hs.
  destruct (txn_join l (unheld c) bns bn _ eq_refl T Hout H1 Hr) as [Hat T']; [lia|lia|].
  pose proof (t_end _ _ _ T) as He. cbn [unheld dsk] in He.
  assert (P (diskof b)) as HPb by (by rewrite (crep_disk _ _ R)).
  unfold Log.log_write, lh_set, upd_log. do 2 cstep. cbn [lg].
  destruct (Z.leb_spec LOGSIZE (lh_n l)); [lia|]. destruct (Z.leb_spec (lsize l - 1) (lh_n l)); [lia|]. cbn [orb].
  destruct (Z.ltb_spec (outstanding l) 1); [lia|]. do 2 cstep. do 2 cstep. cbn [lg].
  eapply chl_lb_seq; [by apply (bblockno_law P _ _ i bn R)|]. intros r b' [-> ->].
  rewrite (txn_listed _ _ _ T).
  set (kz := match find_index _ bns with Some k => Z.of_nat k | None => lh_n l end).
  assert (kz = Z.of_nat (logged_at bns bn)) as Ek.
  { unfold kz, logged_at. rewrite (t_n _ _ _ T). by destruct (find_index _ bns). }
  rewrite Ek. clear kz Ek. rewrite s32_small by lia. do 3 cstep. cbn [lg].
  rewrite bool_decide_true by (rewrite (t_len _ _ _ T); change LOGSIZE with 30 in *; lia).
  cstep. cbn [lg lb set_lh_block]. do 2 cstep. cbn [lh_n].
  set (l1 := set_lh_block _ l). set (l2 := mkLog _ _ _ _ _ _ _) in T'.
  assert (forall Q, chl (fun t => P (diskof (lb t))) ((zoom (bpin i) ;; release LK_log) (mkL l2 b)) Q ->
    if Z.of_nat (logged_at bns bn) =? lh_n l
    then chl (fun t => P (diskof (lb t))) (modify (fun s : lstate B => mkL (set_lh_n (lh_n (lg s) + 1) (lg s)) (lb s)) (mkL l1 b))
      (fun _ s => chl (fun t => P (diskof (lb t))) ((zoom (bpin i) ;; release LK_log) s) Q)
    else chl (fun t => P (diskof (lb t))) ((zoom (bpin i) ;; release LK_log) (mkL l1 b)) Q) as Hbranch.
  { intros Q HQ. unfold l2 in HQ. destruct (Z.of_nat (logged_at bns bn) =? lh_n l); [by cstep|done]. }
  apply Hbranch. clear Hbranch. eapply chl_lb_seq; [by apply (bpin_law P _ _ i bn R)|]. intros [] b2 R2.
  cstep; [cbn [lb]; by rewrite (crep_disk _ _ R2)|]. split; [done..|].
  exists (join bns bn). replace (unheld (c_pin bn c)) with (c_pin bn (unheld c)); [done|].
  unfold unheld, c_pin; cbn [dsk view held pinned touched]. f_equal. set_solver.
Qed.

Definition log_tx_laws : TxLaws (lstate B).
Proof.
  refine {| tdisk t := diskof (lb t); trep := log_rep |}.
  - intros lo n t c [R _ _ (bns & T)]. destruct (crep_sizes _ _ R). rewrite (crep_disk _ _ R).
    pose proof (t_end _ _ _ T) as He. cbn [unheld dsk] in He. repeat split; try done. lia.
  - intros P lo n t c bn L HP Hr Hh Hcap.
    apply (log_zoom P lo n t c _ _ (fun i => c_hold i bn c) (fun i => held c !! i = None) L (bread_law P _ _ bn (lr_crep _ _ _ _ L) HP Hr Hh Hcap)); done.
  - intros P lo n t c i bn d L Hi Hd. destruct t as [l b].
    eapply chl_conseq; [apply chl_lb, (bdata_law P _ _ i bn d (lr_crep _ _ _ _ L) Hi Hd)|].
    by intros r s' (b' & -> & -> & ->).
  - intros P lo n t c i bn d L Hi Hd.
    eapply chl_conseq; [apply (log_zoom P lo n t c _ _ (fun _ => c_put bn d c) (fun _ => True) L
      (bset_law P _ _ i bn d (lr_crep _ _ _ _ L) Hi Hd)); done|]. by intros r s' [_ ?].
  - intros. by apply log_write_spec.
  - intros P lo n t c i bn L Hi Ht HP.
    eapply chl_conseq; [apply (log_zoom P lo n t c _ _ (fun _ => c_drop i c) (fun _ => True) L
      (brelse_law P _ _ i bn (lr_crep _ _ _ _ L) Hi Ht HP)); done|]. by intros r s' [_ ?].
Defined.
End txlog.
