(* ===== verification/Fs.v ===== *)
(** The file system: fs.c and the inode part of file.h.

    [fsstate] is the superblock, the inode cache and the log below.  A pointer to an
    inode is its index in [icache.inode]; a pointer into a path is the rest of the path.
    [readi] returns the bytes it copies to [dst]; [writei] is given the bytes at [src].
    The devices of [devsw] are parameters. *)

From Stdlib Require Import ZArith Lia.
From stdpp Require Import base tactics option gmap sets strings numbers list.
From S2P Require Import Prelude Layout Bytes CString Bio Cache FsFormat Tx.
Open Scope Z_scope.

Definition I_BUSY : Z := 1.
Definition I_VALID : Z := 2.
Definition T_DIR : Z := 1.
Definition T_FILE : Z := 2.
Definition T_DEV : Z := 3.
Definition CONSOLE : Z := 1.

Record inode := mkInode {
  i_dev : Z;
  i_num : Z;
  i_ref : Z;
  i_flags : Z;
  i_type : Z;
  i_major : Z;
  i_minor : Z;
  i_nlink : Z;
  i_size : Z;
  i_addrs : list Z
}.

Definition set_i_ref v x := mkInode (i_dev x) (i_num x) v (i_flags x) (i_type x) (i_major x) (i_minor x) (i_nlink x) (i_size x) (i_addrs x).
Definition set_i_flags v x := mkInode (i_dev x) (i_num x) (i_ref x) v (i_type x) (i_major x) (i_minor x) (i_nlink x) (i_size x) (i_addrs x).
Definition set_i_type v x := mkInode (i_dev x) (i_num x) (i_ref x) (i_flags x) v (i_major x) (i_minor x) (i_nlink x) (i_size x) (i_addrs x).
Definition set_i_nlink v x := mkInode (i_dev x) (i_num x) (i_ref x) (i_flags x) (i_type x) (i_major x) (i_minor x) v (i_size x) (i_addrs x).
Definition set_i_size v x := mkInode (i_dev x) (i_num x) (i_ref x) (i_flags x) (i_type x) (i_major x) (i_minor x) (i_nlink x) v (i_addrs x).
Definition set_i_addr k v x := mkInode (i_dev x) (i_num x) (i_ref x) (i_flags x) (i_type x) (i_major x) (i_minor x) (i_nlink x) (i_size x) (zinsert k v (i_addrs x)).
(** The fields kept on disk, to and from a [dinode]. *)
Definition to_dinode x := mkDinode (i_type x) (i_major x) (i_minor x) (i_nlink x) (i_size x) (i_addrs x).
Definition of_dinode d x := mkInode (i_dev x) (i_num x) (i_ref x) (i_flags x) (di_type d) (di_major d) (di_minor d) (di_nlink d) (di_size d) (di_addrs d).

Definition busy (x : inode) : bool := negb (Z.land (i_flags x) I_BUSY =? 0).
Definition valid (x : inode) : bool := negb (Z.land (i_flags x) I_VALID =? 0).

Definition inode_zero : inode := mkInode 0 0 0 0 0 0 0 0 0 (replicate 13 0).
Definition icache_zero : list inode := replicate (Z.to_nat NINODE) inode_zero.

Record stat := mkStat { st_dev : Z; st_ino : Z; st_type : Z; st_nlink : Z; st_size : Z }.

Record fsstate (T : Type) := mkFs { sb : superblock; icache : list inode; tx : T }.
Arguments mkFs {T} sb icache tx.
Arguments sb {T} f.
Arguments icache {T} f.
Arguments tx {T} f.
#[export] Instance lens_tx {T} : Lens (fsstate T) T.
Proof. refine {| lget := tx; lput t s := mkFs (sb s) (icache s) t |}; [done|by intros []|done]. Defined.

(** ** Pure helpers *)

Definition is_zero_bit (d : block) (bi : Z) : bool := Z.land (get8 d (bi / 8)) (Z.shiftl 1 (bi mod 8)) =? 0.

(** The inner loop of [balloc] from bit [bi]. *)
Fixpoint scan_bits (fuel : nat) (d : block) (b bi size : Z) : option Z :=
  match fuel with
  | O => None
  | S k =>
      if (bi <? BPB) && (b + bi <? size) then
        if is_zero_bit d bi then Some bi else scan_bits k d b (bi + 1) size
      else None
  end.

Fixpoint skip_slashes (p : list Z) : list Z :=
  match p with
  | [] => []
  | c :: p' => if c =? 47 then skip_slashes p' else p
  end.
(** The characters up to the next slash or the end, and what follows. *)
Fixpoint take_elem (p : list Z) : list Z * list Z :=
  match p with
  | [] => ([], [])
  | c :: p' => if (c =? 47) || (c =? 0) then ([], p) else let '(e, r) := take_elem p' in (c :: e, r)
  end.

(** The rest of the path and the buffer [name]; [None] is the null pointer. *)
Definition skipelem (path name : list Z) : option (list Z * list Z) :=
  let path := skip_slashes path in
  if first_char path =? 0 then None else
  let '(e, path) := take_elem path in
  let len := Z.of_nat (length e) in
  let name :=
    if DIRSIZ <=? len then splice name 0 (slice e 0 DIRSIZ)
    else put8 (splice name 0 e) len 0 in
  Some (skip_slashes path, name).

Definition namecmp (s t : list Z) : Z := strncmp s t DIRSIZ.

(** A directory entry as bytes. *)
Definition de_inum (de : list Z) : Z := get16 de 0.
Definition de_name (de : list Z) : list Z := slice de 2 DIRSIZ.
Definition de_bytes (inum : Z) (name : list Z) : list Z := le_enc 2 inum ++ name.

Section fs.
Context {T : Type} {TO : TxOps T}.
Abbreviation state := (fsstate T).
Abbreviation M := (M state).

(** [devsw[major].read] and [.write], [None] for a null function pointer. *)
Context (dev_read : Z -> option (nat -> Z -> M (Z * list Z))) (dev_write : Z -> option (nat -> list Z -> M Z)).

Definition get_inode (i : nat) : M inode :=
  fun s => match icache s !! i with Some x => Ret x s | None => Undef "stray inode pointer" end.
Definition upd_inode (i : nat) (f : inode -> inode) : M unit :=
  modify (fun s => mkFs (sb s) (alter f i (icache s)) (tx s)).

Definition readsb (dev : Z) : M superblock :=
  i <- zoom (bread dev 1) ;;
  d <- zoom (bdata i) ;;
  zoom (brelse i) ;;
  ret (sb_of d).
Definition set_sb (x : superblock) : M unit := modify (fun s => mkFs x (icache s) (tx s)).

Definition iinit (dev : Z) : M unit :=
  x <- readsb dev ;;
  set_sb x.

Definition bzero (dev bno : Z) : M unit :=
  i <- zoom (bread dev (u32 bno)) ;;
  zoom (bset i (replicate (Z.to_nat BSIZE) 0)) ;;
  zoom (log_write i) ;;
  zoom (brelse i).

Fixpoint balloc_loop (fuel : nat) (dev b : Z) : M Z :=
  x <- gets sb ;;
  if u32 b <? sb_size x then
    match fuel with
    | O => nofuel
    | S k =>
        i <- zoom (bread dev (BBLOCK b x)) ;;
        d <- zoom (bdata i) ;;
        match scan_bits (Z.to_nat BPB) d b 0 (sb_size x) with
        | Some bi =>
            zoom (bset i (put8 d (bi / 8) (Z.lor (get8 d (bi / 8)) (Z.shiftl 1 (bi mod 8))))) ;;
            zoom (log_write i) ;;
            zoom (brelse i) ;;
            bzero dev (b + bi) ;;
            ret (b + bi)
        | None =>
            zoom (brelse i) ;;
            balloc_loop k dev (b + BPB)
        end
    end
  else panic "balloc: out of blocks".
Definition balloc (dev : Z) : M Z :=
  x <- gets sb ;;
  balloc_loop (S (Z.to_nat (sb_size x / BPB))) dev 0.

Definition bfree (dev b : Z) : M unit :=
  x <- readsb dev ;;
  set_sb x ;;
  i <- zoom (bread dev (BBLOCK b x)) ;;
  d <- zoom (bdata i) ;;
  let bi := b mod BPB in
  if is_zero_bit d bi then panic "freeing free block" else
  zoom (bset i (put8 d (bi / 8) (Z.land (get8 d (bi / 8)) (Z.lnot (Z.shiftl 1 (bi mod 8)))))) ;;
  zoom (log_write i) ;;
  zoom (brelse i).

(** The scan of [iget]: a match, or the first free slot. *)
Definition iget (dev num : Z) : M nat :=
  acquire LK_icache ;;
  c <- gets icache ;;
  match find_index (fun x => (0 <? i_ref x) && (i_dev x =? dev) && (i_num x =? num)) c with
  | Some i =>
      upd_inode i (fun x => set_i_ref (s32 (i_ref x + 1)) x) ;;
      release LK_icache ;;
      ret i
  | None =>
      match find_index (fun x => i_ref x =? 0) c with
      | None => panic "iget: no inodes"
      | Some i =>
          upd_inode i (fun x => mkInode dev num 1 0 (i_type x) (i_major x) (i_minor x) (i_nlink x) (i_size x) (i_addrs x)) ;;
          release LK_icache ;;
          ret i
      end
  end.

Fixpoint ialloc_loop (fuel : nat) (dev type num : Z) : M nat :=
  x <- gets sb ;;
  if num <? sb_ninodes x then
    match fuel with
    | O => nofuel
    | S k =>
        i <- zoom (bread dev (IBLOCK num x)) ;;
        d <- zoom (bdata i) ;;
        let o := num mod IPB * DINODE_SIZE in
        if di_type (dinode_of d o) =? 0 then
          zoom (bset i (put16 (splice d o (replicate (Z.to_nat DINODE_SIZE) 0)) o type)) ;;
          zoom (log_write i) ;;
          zoom (brelse i) ;;
          iget dev num
        else
          zoom (brelse i) ;;
          ialloc_loop k dev type (num + 1)
    end
  else panic "ialloc: no inodes".
Definition ialloc (dev type : Z) : M nat :=
  x <- gets sb ;;
  ialloc_loop (Z.to_nat (sb_ninodes x)) dev type 1.

Definition iupdate (ip : nat) : M unit :=
  x <- get_inode ip ;;
  y <- gets sb ;;
  i <- zoom (bread (i_dev x) (IBLOCK (i_num x) y)) ;;
  d <- zoom (bdata i) ;;
  zoom (bset i (splice d (i_num x mod IPB * DINODE_SIZE) (dinode_bytes (to_dinode x)))) ;;
  zoom (log_write i) ;;
  zoom (brelse i).

Definition idup (ip : nat) : M nat :=
  acquire LK_icache ;;
  upd_inode ip (fun x => set_i_ref (s32 (i_ref x + 1)) x) ;;
  release LK_icache ;;
  ret ip.

(** [while (ip->flags & I_BUSY) sleep(ip, &icache.lock);] *)
Fixpoint wait_inode (fuel : nat) (ip : nat) : M unit :=
  x <- get_inode ip ;;
  if busy x then
    match fuel with
    | O => nofuel
    | S k => sleep_on (CH_inode (Z.of_nat ip)) LK_icache ;; wait_inode k ip
    end
  else ret tt.

Definition ilock (fuel : nat) (ip : nat) : M unit :=
  x <- get_inode ip ;;
  if i_ref x <? 1 then panic "ilock" else
  acquire LK_icache ;;
  wait_inode fuel ip ;;
  upd_inode ip (fun x => set_i_flags (Z.lor (i_flags x) I_BUSY) x) ;;
  release LK_icache ;;
  x <- get_inode ip ;;
  if valid x then ret tt else
  y <- gets sb ;;
  i <- zoom (bread (i_dev x) (IBLOCK (i_num x) y)) ;;
  d <- zoom (bdata i) ;;
  upd_inode ip (of_dinode (dinode_of d (i_num x mod IPB * DINODE_SIZE))) ;;
  zoom (brelse i) ;;
  upd_inode ip (fun x => set_i_flags (Z.lor (i_flags x) I_VALID) x) ;;
  x <- get_inode ip ;;
  if i_type x =? 0 then panic "ilock: no type" else ret tt.

Definition iunlock (ip : nat) : M unit :=
  x <- get_inode ip ;;
  if negb (busy x) || (i_ref x <? 1) then panic "iunlock" else
  acquire LK_icache ;;
  upd_inode ip (fun x => set_i_flags (Z.land (i_flags x) (Z.lnot I_BUSY)) x) ;;
  wakeup (CH_inode (Z.of_nat ip)) ;;
  release LK_icache.

(** The entry [a[k]] of an indirect block, and the loop of [itrunc] over it. *)
Fixpoint free_indirect (ks : list nat) (dev : Z) (d : block) : M unit :=
  match ks with
  | [] => ret tt
  | k :: ks' =>
      let a := get32 d (4 * Z.of_nat k) in
      when (negb (a =? 0)) (bfree dev a) ;;
      free_indirect ks' dev d
  end.

Definition itrunc (ip : nat) : M unit :=
  for_each (seq 0 (Z.to_nat NDIRECT)) (fun k =>
    x <- get_inode ip ;;
    let a := default 0 (i_addrs x !! k) in
    when (negb (a =? 0)) (bfree (i_dev x) a ;; upd_inode ip (set_i_addr (Z.of_nat k) 0))) ;;
  x <- get_inode ip ;;
  let a := default 0 (zlookup (i_addrs x) NDIRECT) in
  when (negb (a =? 0)) (
    i <- zoom (bread (i_dev x) a) ;;
    d <- zoom (bdata i) ;;
    free_indirect (seq 0 (Z.to_nat NINDIRECT)) (i_dev x) d ;;
    zoom (brelse i) ;;
    bfree (i_dev x) a ;;
    upd_inode ip (set_i_addr NDIRECT 0)) ;;
  upd_inode ip (set_i_size 0) ;;
  iupdate ip.

Definition iput (ip : nat) : M unit :=
  acquire LK_icache ;;
  x <- get_inode ip ;;
  (if (i_ref x =? 1) && valid x && (i_nlink x =? 0) then
     if busy x then panic "iput busy" else
     upd_inode ip (fun x => set_i_flags (Z.lor (i_flags x) I_BUSY) x) ;;
     release LK_icache ;;
     itrunc ip ;;
     upd_inode ip (set_i_type 0) ;;
     iupdate ip ;;
     acquire LK_icache ;;
     upd_inode ip (set_i_flags 0) ;;
     wakeup (CH_inode (Z.of_nat ip))
   else ret tt) ;;
  upd_inode ip (fun x => set_i_ref (s32 (i_ref x - 1)) x) ;;
  release LK_icache.

Definition iunlockput (ip : nat) : M unit := iunlock ip ;; iput ip.

Definition bmap (ip : nat) (bn : Z) : M Z :=
  x <- get_inode ip ;;
  if bn <? NDIRECT then
    let addr := default 0 (zlookup (i_addrs x) bn) in
    if addr =? 0 then
      addr <- balloc (i_dev x) ;;
      upd_inode ip (set_i_addr bn addr) ;;
      ret addr
    else ret addr
  else
  let bn := bn - NDIRECT in
  if bn <? NINDIRECT then
    addr <- (let addr := default 0 (zlookup (i_addrs x) NDIRECT) in
             if addr =? 0 then
               addr <- balloc (i_dev x) ;;
               upd_inode ip (set_i_addr NDIRECT addr) ;;
               ret addr
             else ret addr) ;;
    i <- zoom (bread (i_dev x) addr) ;;
    d <- zoom (bdata i) ;;
    let addr := get32 d (4 * bn) in
    addr <- (if addr =? 0 then
               addr <- balloc (i_dev x) ;;
               d <- zoom (bdata i) ;;
               zoom (bset i (put32 d (4 * bn) addr)) ;;
               zoom (log_write i) ;;
               ret addr
             else ret addr) ;;
    zoom (brelse i) ;;
    ret addr
  else panic "bmap: out of range".

Definition stati (ip : nat) : M stat :=
  x <- get_inode ip ;;
  ret (mkStat (i_dev x) (i_num x) (i_type x) (i_nlink x) (i_size x)).

(** The loop of [readi]: [n] bytes from [off]; a round moves at least one byte. *)
Fixpoint readi_loop (fuel : nat) (ip : nat) (off n : Z) : M (list Z) :=
  if 0 <? n then
    match fuel with
    | O => nofuel
    | S k =>
        x <- get_inode ip ;;
        a <- bmap ip (off / BSIZE) ;;
        i <- zoom (bread (i_dev x) a) ;;
        let m := Z.min n (BSIZE - off mod BSIZE) in
        d <- zoom (bdata i) ;;
        zoom (brelse i) ;;
        r <- readi_loop k ip (u32 (off + m)) (n - m) ;;
        ret (slice d (off mod BSIZE) m ++ r)
    end
  else ret [].

Definition readi (ip : nat) (off n : Z) : M (Z * list Z) :=
  x <- get_inode ip ;;
  if i_type x =? T_DEV then
    if (i_major x <? 0) || (NDEV <=? i_major x) then ret (-1, []) else
    match dev_read (i_major x) with
    | None => ret (-1, [])
    | Some f => f ip n
    end
  else
  if (i_size x <? off) || (u32 (off + n) <? off) then ret (-1, []) else
  let n := if i_size x <? u32 (off + n) then u32 (i_size x - off) else n in
  bs <- readi_loop (Z.to_nat n) ip off n ;;
  ret (s32 n, bs).

Fixpoint writei_loop (fuel : nat) (ip : nat) (src : list Z) (off : Z) : M Z :=
  let n := Z.of_nat (length src) in
  if 0 <? n then
    match fuel with
    | O => nofuel
    | S k =>
        x <- get_inode ip ;;
        a <- bmap ip (off / BSIZE) ;;
        i <- zoom (bread (i_dev x) a) ;;
        let m := Z.min n (BSIZE - off mod BSIZE) in
        d <- zoom (bdata i) ;;
        zoom (bset i (splice d (off mod BSIZE) (take (Z.to_nat m) src))) ;;
        zoom (log_write i) ;;
        zoom (brelse i) ;;
        writei_loop k ip (drop (Z.to_nat m) src) (u32 (off + m))
    end
  else ret off.

Definition writei (ip : nat) (src : list Z) (off : Z) : M Z :=
  let n := Z.of_nat (length src) in
  x <- get_inode ip ;;
  if i_type x =? T_DEV then
    if (i_major x <? 0) || (NDEV <=? i_major x) then ret (-1) else
    match dev_write (i_major x) with
    | None => ret (-1)
    | Some f => f ip src
    end
  else
  if (i_size x <? off) || (u32 (off + n) <? off) then ret (-1) else
  if MAXFILE * BSIZE <? u32 (off + n) then ret (-1) else
  off' <- writei_loop (length src) ip src off ;;
  x <- get_inode ip ;;
  when ((0 <? n) && (i_size x <? off')) (upd_inode ip (set_i_size off') ;; iupdate ip) ;;
  ret (s32 n).

(** Entries are [DIRENT_SIZE] bytes; [size / DIRENT_SIZE + 1] rounds are enough. *)
Fixpoint dirlookup_loop (fuel : nat) (dp : nat) (name : list Z) (off : Z) : M (option (nat * Z)) :=
  x <- get_inode dp ;;
  if off <? i_size x then
    match fuel with
    | O => nofuel
    | S k =>
        r <- readi dp off DIRENT_SIZE ;;
        if negb (fst r =? DIRENT_SIZE) then panic "dirlink read" else
        if de_inum (snd r) =? 0 then dirlookup_loop k dp name (u32 (off + DIRENT_SIZE)) else
        if namecmp name (de_name (snd r)) =? 0 then
          ip <- iget (i_dev x) (de_inum (snd r)) ;;
          ret (Some (ip, off))
        else dirlookup_loop k dp name (u32 (off + DIRENT_SIZE))
    end
  else ret None.

(** The inode and the offset [*poff] of its entry. *)
Definition dirlookup (dp : nat) (name : list Z) : M (option (nat * Z)) :=
  x <- get_inode dp ;;
  if negb (i_type x =? T_DIR) then panic "dirlookup not DIR" else
  dirlookup_loop (S (Z.to_nat (i_size x / DIRENT_SIZE))) dp name 0.

Fixpoint dirlink_loop (fuel : nat) (dp : nat) (off : Z) : M Z :=
  x <- get_inode dp ;;
  if off <? i_size x then
    match fuel with
    | O => nofuel
    | S k =>
        r <- readi dp off DIRENT_SIZE ;;
        if negb (fst r =? DIRENT_SIZE) then panic "dirlink read" else
        if de_inum (snd r) =? 0 then ret off else dirlink_loop k dp (off + DIRENT_SIZE)
    end
  else ret off.

Definition dirlink (dp : nat) (name : list Z) (inum : Z) : M Z :=
  r <- dirlookup dp name ;;
  match r with
  | Some (ip, _) => iput ip ;; ret (-1)
  | None =>
      x <- get_inode dp ;;
      off <- dirlink_loop (S (Z.to_nat (i_size x / DIRENT_SIZE))) dp 0 ;;
      n <- writei dp (de_bytes (u16 inum) (strncpy (replicate (Z.to_nat DIRSIZ) 0) name DIRSIZ)) off ;;
      if negb (n =? DIRENT_SIZE) then panic "dirlink" else ret 0
  end.

(** The loop of [namex] from the inode [ip]; an element takes at least one character. *)
Fixpoint namex_loop (fuel wake : nat) (ip : nat) (path name : list Z) (parent : bool) : M (option nat * list Z) :=
  match skipelem path name with
  | None =>
      if parent then iput ip ;; ret (None, name) else ret (Some ip, name)
  | Some (path, name) =>
      match fuel with
      | O => nofuel
      | S k =>
          ilock wake ip ;;
          x <- get_inode ip ;;
          if negb (i_type x =? T_DIR) then iunlockput ip ;; ret (None, name) else
          if parent && (first_char path =? 0) then iunlock ip ;; ret (Some ip, name) else
          r <- dirlookup ip name ;;
          match r with
          | None => iunlockput ip ;; ret (None, name)
          | Some (next, _) => iunlockput ip ;; namex_loop k wake next path name parent
          end
      end
  end.

Definition namex (wake : nat) (cwd : nat) (path : list Z) (parent : bool) (name : list Z) : M (option nat * list Z) :=
  ip <- (if first_char path =? 47 then iget ROOTDEV ROOTINO else idup cwd) ;;
  namex_loop (length path) wake ip path name parent.

Definition namei (wake : nat) (cwd : nat) (path : list Z) : M (option nat) :=
  r <- namex wake cwd path false (replicate (Z.to_nat DIRSIZ) 0) ;;
  ret (fst r).
Definition nameiparent (wake : nat) (cwd : nat) (path name : list Z) : M (option nat * list Z) :=
  namex wake cwd path true name.

End fs.
