(* ===== verification/FsBlocks.v ===== *)
(** The free map: [balloc] and [bfree] of fs.c inside a transaction.

    Proved from the laws of Tx.v.  [bit] reads the free map; the routines are described by the
    block of the transaction they change.  The free map is one block, as on every disk of at most
    [BPB] = 4096 blocks (mkfs makes [FSSIZE] = 1000). *)

From Stdlib Require Import ZArith Lia.
From stdpp Require Import base tactics option gmap sets strings numbers list.
From S2P Require Import Prelude Layout Bytes Crash CString Bio Cache FsFormat Tx Fs.
Open Scope Z_scope.

(** * Bits *)

Definition bit (d : block) (k : Z) : bool := Z.testbit (get8 d (k / 8)) (k mod 8).
Definition mark (d : block) (k : Z) : block := put8 d (k / 8) (Z.lor (get8 d (k / 8)) (Z.shiftl 1 (k mod 8))).
Definition unmark (d : block) (k : Z) : block :=
  put8 d (k / 8) (Z.land (get8 d (k / 8)) (Z.lnot (Z.shiftl 1 (k mod 8)))).

Lemma is_zero_bit_spec d k : is_zero_bit d k = negb (bit d k).
Proof.
  unfold is_zero_bit, bit. pose proof (Z.mod_pos_bound k 8 ltac:(lia)). rewrite Z.shiftl_1_l.
  set (x := get8 d (k / 8)). set (j := k mod 8) in *.
  destruct (Z.eqb_spec (Z.land x (2 ^ j)) 0) as [E|E].
  - apply (f_equal (fun y => Z.testbit y j)) in E.
    rewrite Z.land_spec, Z.pow2_bits_true, Z.bits_0, andb_true_r in E by lia. by rewrite E.
  - destruct (Z.testbit x j) eqn:Hb; [done|]. exfalso. apply E. apply Z.bits_inj'. intros i Hi.
    rewrite Z.land_spec, Z.bits_0. destruct (decide (i = j)) as [->|]; [by rewrite Hb|].
    rewrite Z.pow2_bits_false by done. apply andb_false_r.
Qed.

(** The two updates of a byte: bit [j] of the byte becomes [v]. *)
Lemma bit_put8 d k j y v :
  0 <= k -> 0 <= j -> k / 8 < Z.of_nat (length d) ->
  0 <= y -> (forall i, 0 <= i < 8 -> Z.testbit y i = if i =? k mod 8 then v else Z.testbit (get8 d (k / 8)) i) ->
  bit (put8 d (k / 8) y) j = if j =? k then v else bit d j.
Proof.
  intros Hk Hj Hl Hy Hb. unfold bit.
  pose proof (Z.mod_pos_bound k 8 ltac:(lia)). pose proof (Z.mod_pos_bound j 8 ltac:(lia)).
  pose proof (Z.div_mod k 8 ltac:(lia)). pose proof (Z.div_mod j 8 ltac:(lia)).
  pose proof (Z.div_pos k 8 ltac:(lia) ltac:(lia)). pose proof (Z.div_pos j 8 ltac:(lia) ltac:(lia)).
  destruct (decide (j / 8 = k / 8)) as [E|E].
  - rewrite E, get8_put8 by lia. unfold u8. rewrite Z.mod_pow2_bits_low by lia. rewrite Hb by lia.
    destruct (Z.eqb_spec (j mod 8) (k mod 8)), (Z.eqb_spec j k); try done; lia.
  - rewrite get8_put8_ne by lia. destruct (Z.eqb_spec j k) as [->|]; [done|done].
Qed.

Lemma length_mark d k : length (mark d k) = length d.
Proof. apply length_put8. Qed.
Lemma length_unmark d k : length (unmark d k) = length d.
Proof. apply length_put8. Qed.

Lemma bit_mark d k j :
  0 <= k -> 0 <= j -> k / 8 < Z.of_nat (length d) -> bit (mark d k) j = if j =? k then true else bit d j.
Proof.
  intros Hk Hj Hl. pose proof (Z.mod_pos_bound k 8 ltac:(lia)). pose proof (get8_range d (k / 8)).
  apply bit_put8; [done..| |].
  - apply Z.lor_nonneg. split; [lia|]. rewrite Z.shiftl_1_l. lia.
  - intros i Hi. rewrite Z.lor_spec, Z.shiftl_1_l, Z.pow2_bits_eqb by lia.
    rewrite (Z.eqb_sym (k mod 8)). destruct (i =? k mod 8); [apply orb_true_r|apply orb_false_r].
Qed.

Lemma bit_unmark d k j :
  0 <= k -> 0 <= j -> k / 8 < Z.of_nat (length d) -> bit (unmark d k) j = if j =? k then false else bit d j.
Proof.
  intros Hk Hj Hl. pose proof (Z.mod_pos_bound k 8 ltac:(lia)). pose proof (get8_range d (k / 8)).
  apply bit_put8; [done..| |].
  - apply Z.land_nonneg. left. lia.
  - intros i Hi. rewrite Z.land_spec, Z.lnot_spec, Z.shiftl_1_l, Z.pow2_bits_eqb by lia.
    rewrite (Z.eqb_sym (k mod 8)). destruct (i =? k mod 8); [apply andb_false_r|apply andb_true_r].
Qed.

(** The scan of [balloc] finds the first zero bit. *)
Lemma scan_bits_spec fuel d b bi size k :
  0 <= bi <= k -> k < BPB -> b + k < size -> bit d k = false ->
  (forall j, bi <= j < k -> bit d j = true) -> k - bi < Z.of_nat fuel ->
  scan_bits fuel d b bi size = Some k.
Proof.
  revert bi. induction fuel as [|fuel IH]; intros bi Hbi Hk Hs Hz Ho Hf; [lia|]. cbn [scan_bits].
  destruct (Z.ltb_spec bi BPB); [|lia]. destruct (Z.ltb_spec (b + bi) size); [|lia]. cbn [andb].
  rewrite is_zero_bit_spec. destruct (decide (bi = k)) as [->|]; [by rewrite Hz|].
  rewrite (Ho bi) by lia. cbn [negb]. apply IH; try done; try lia. intros j Hj. apply Ho. lia.
Qed.
Lemma scan_bits_none fuel d b bi size :
  (forall j, bi <= j < BPB -> b + j < size -> bit d j = true) -> scan_bits fuel d b bi size = None.
Proof.
  revert bi. induction fuel as [|fuel IH]; intros bi Ho; [done|]. cbn [scan_bits].
  destruct (Z.ltb_spec bi BPB); [|done]. destruct (Z.ltb_spec (b + bi) size); [|done]. cbn [andb].
  rewrite is_zero_bit_spec, (Ho bi) by lia. cbn [negb]. apply IH. intros j Hj. apply Ho. lia.
Qed.

(** * Blocks in a transaction *)

Lemma no_held c b : held c = ∅ -> b ∉ held_blocks c.
Proof. intros Hh. unfold held_blocks. rewrite Hh, map_img_empty_L. set_solver. Qed.

Section fs.
Context {T : Type} {TO : TxOps T} {TL : TxLaws T}.
(** The log area, and what holds of the disk at a crash. *)
Context (lo n : Z) (P : list block -> Prop).
Abbreviation on_disk := (fun s : fsstate T => P (tdisk (tx s))).

(** Between calls: no block is half-changed. *)
Record ready (t : T) (c : cache) : Prop := {
  rd_rep : trep lo n t c;
  rd_touched : touched c = ∅;
  rd_disk : P (dsk c)
}.

(** The most blocks a transaction may hold. *)
Definition limit : Z := Z.min (n - 1) (LOGSIZE - 1).
Definition home (bn : Z) : Prop := ~ (lo <= bn < lo + n) /\ bn <> 1.

Lemma fs_seq {A A'} (m : M T A) (f : A -> M (fsstate T) A') y ic t R Q :
  chl (fun t => P (tdisk t)) (m t) R ->
  (forall a t', R a t' -> chl on_disk (f a (mkFs y ic t')) Q) ->
  chl on_disk (bind (zoom m) f (mkFs y ic t)) Q.
Proof.
  intros Hm Hf. eapply chl_seq.
  { apply (chl_zoom (L := lens_tx) (fun t => P (tdisk t)) m (mkFs y ic t) R), Hm. }
  intros a [y' ic' t'] [HR E]. cbn [lget lput lens_tx sb icache tx] in *. injection E as -> ->. by apply Hf.
Qed.
(** The last call of a routine. *)
Lemma fs_last {A} (m : M T A) y ic t R (Q : A -> fsstate T -> Prop) :
  chl (fun t => P (tdisk t)) (m t) R -> (forall a t', R a t' -> Q a (mkFs y ic t')) ->
  chl on_disk (zoom m (mkFs y ic t)) Q.
Proof.
  intros Hm HQ. eapply chl_conseq.
  { apply (chl_zoom (L := lens_tx) (fun t => P (tdisk t)) m (mkFs y ic t) R), Hm. }
  intros a [y' ic' t'] [HR E]. cbn [lget lput lens_tx sb icache tx] in *. injection E as -> ->. by apply HQ.
Qed.

Lemma c_drop_hold c i bn : held c !! i = None -> c_drop i (c_hold i bn c) = c.
Proof.
  destruct c as [d v h p t]. cbn. intros Hi. unfold c_drop, c_hold, set_held. cbn. f_equal. by apply delete_insert_id.
Qed.

(** [i = bread(bn)] *)
Lemma hold_block {A} (f : nat -> M (fsstate T) A) y ic t c bn Q :
  ready t c -> 0 <= bn < Z.of_nat (length (dsk c)) -> bn ∉ held_blocks c ->
  bn ∈ pinned c \/ Z.of_nat (base.size (pinned c ∪ held_blocks c)) < NBUF ->
  (forall i t', held c !! i = None -> trep lo n t' (c_hold i bn c) -> chl on_disk (f i (mkFs y ic t')) Q) ->
  chl on_disk (bind (zoom (bread ROOTDEV bn)) f (mkFs y ic t)) Q.
Proof.
  intros [R _ HP] Hr Hh Hcap Hf. eapply fs_seq; [by apply (tbread_law P lo n t c bn R HP)|].
  intros i t1 [Hi R1]. by apply Hf.
Qed.

(** [i = bread(bn); ... i->data ...] *)
Lemma get_block {A} (f : nat -> block -> M (fsstate T) A) y ic t c bn d Q :
  ready t c -> zlookup (view c) bn = Some d -> bn ∉ held_blocks c ->
  bn ∈ pinned c \/ Z.of_nat (base.size (pinned c ∪ held_blocks c)) < NBUF ->
  (forall i t', held c !! i = None -> trep lo n t' (c_hold i bn c) -> chl on_disk (f i d (mkFs y ic t')) Q) ->
  chl on_disk (bind (zoom (bread ROOTDEV bn)) (fun i => bind (zoom (bdata i)) (f i)) (mkFs y ic t)) Q.
Proof.
  intros Hrd Hd Hh Hcap Hf. destruct (trep_sizes _ _ _ _ (rd_rep _ _ Hrd)) as (_ & Hl & _).
  eapply hold_block; [done|rewrite <- Hl; by eapply zlookup_Some_range|done..|].
  intros i t1 Hi R1. eapply fs_seq.
  { apply (tbdata_law P lo n t1 _ i bn d R1); [apply lookup_insert_eq|done]. }
  intros r t' [-> ->]. by apply Hf.
Qed.

(** [brelse(i)] of a block that was only read. *)
Lemma drop_block t1 c i bn :
  touched c = ∅ -> P (dsk c) -> held c !! i = None -> trep lo n t1 (c_hold i bn c) ->
  chl (fun t => P (tdisk t)) (brelse i t1) (fun _ t' => ready t' c).
Proof.
  intros Ht HP Hi R1. eapply chl_conseq.
  { apply (tbrelse_law P lo n t1 _ i bn R1); [apply lookup_insert_eq| |done].
    cbn [touched c_hold set_held]. rewrite Ht. set_solver. }
  intros [] t' R2. rewrite (c_drop_hold c i bn) in R2 by done. done.
Qed.

(** A block held on its own is changed, logged and released. *)
Lemma put_block {A} (f : M (fsstate T) A) y ic t1 c i bn x Q :
  touched c = ∅ -> P (dsk c) -> held c !! i = None -> trep lo n t1 (c_hold i bn c) -> length x = 512%nat ->
  home bn -> 0 <= bn < Z.of_nat (length (dsk c)) -> Z.of_nat (base.size (pinned c)) < limit ->
  (forall t', ready t' (t_put bn x c) -> chl on_disk (f (mkFs y ic t')) Q) ->
  chl on_disk ((zoom (bset i x) ;; zoom (log_write i) ;; zoom (brelse i) ;; f) (mkFs y ic t1)) Q.
Proof.
  intros Ht HP Hi R1 Hx [Ho H1] Hr Hsz Hf.
  eapply fs_seq; [apply (tbset_law P lo n t1 _ i bn x R1); [apply lookup_insert_eq|done]|]. intros [] t2 R2.
  eapply fs_seq; [apply (tlog_write_law P lo n t2 _ i bn R2); [done|apply lookup_insert_eq|done..]|]. intros [] t3 R3.
  eapply fs_seq; [apply (tbrelse_law P lo n t3 _ i bn R3); [apply lookup_insert_eq| |done]|].
  { cbn [touched c_pin]. set_solver. }
  intros [] t4 R4. apply Hf.
  assert (c_drop i (c_pin bn (c_put bn x (c_hold i bn c))) = t_put bn x c) as E.
  { destruct c as [cd cv ch cp ct]. cbn in *. unfold c_drop, c_pin, c_put, c_hold, t_put, set_held. cbn.
    rewrite Ht. f_equal; [by apply delete_insert_id|set_solver]. }
  rewrite E in R4. split; [done|by cbn|done].
Qed.

Lemma chl_tail C (m : M (fsstate T) unit) s Q :
  chl C ((m ;; ret tt) s) Q -> chl C (m s) Q.
Proof.
  unfold bind. generalize (m s) as p. induction p as [[] s'| | | |e s' k IH]; simpl; try done.
  destruct e; naive_solver.
Qed.

Lemma chl_tail3 {A B} C (a : M (fsstate T) A) (b : M (fsstate T) B) (m : M (fsstate T) unit) s Q :
  chl C ((a ;; b ;; m ;; ret tt) s) Q -> chl C ((a ;; b ;; m) s) Q.
Proof.
  intros H%chl_bind_inv. apply chl_bind. eapply chl_conseq; [done|]. intros x s1 H1%chl_bind_inv.
  apply chl_bind. eapply chl_conseq; [done|]. intros z s2. apply chl_tail.
Qed.
(** A value returned to code that goes on. *)
Lemma chl_ret2 {A B R R'} C (a : M (fsstate T) A) (b : M (fsstate T) B) (v : R) (k : R -> M (fsstate T) R') s Q :
  chl C ((a ;; b ;; k v) s) Q -> chl C (((a ;; b ;; ret v) s)) (fun r s' => chl C (k r s') Q).
Proof.
  intros H%chl_bind_inv. apply chl_bind. eapply chl_conseq; [done|]. intros x s1 H1%chl_bind_inv.
  apply chl_bind. eapply chl_conseq; [done|]. done.
Qed.

(** * The disk layout *)

(** Boot block, superblock, log, inodes, free map, data: the order mkfs lays them out in. *)
Record layout (y : superblock) : Prop := {
  ly_log : 1 < lo /\ 0 < n /\ lo + n <= sb_inodestart y;
  ly_inodes : 0 < sb_ninodes y /\ sb_inodestart y + (sb_ninodes y - 1) / IPB < sb_bmapstart y;
  ly_map : sb_bmapstart y < sb_size y <= BPB
}.

(** The free map of the blocks [v]; everything up to the map itself is in use. *)
Definition bitmap (y : superblock) (v : list block) : block := default [] (zlookup v (sb_bmapstart y)).
Definition used (y : superblock) (v : list block) (k : Z) : bool := bit (bitmap y v) k.

Record volume (y : superblock) (c : cache) : Prop := {
  vo_size : sb_size y <= Z.of_nat (length (dsk c));
  vo_meta : forall k, 0 <= k <= sb_bmapstart y -> used y (view c) k = true
}.

(** The blocks a transaction may yet use: at least the free map and what is held. *)
Record budget (y : superblock) (c : cache) (X : gset Z) : Prop := {
  bu_sub : pinned c ∪ held_blocks c ∪ {[sb_bmapstart y]} ⊆ X;
  bu_size : Z.of_nat (base.size X) <= limit
}.

Section alloc.
Context (y : superblock) (LY : layout y).
Abbreviation bm := (sb_bmapstart y).

Lemma map_block k : 0 <= k < sb_size y -> BBLOCK k y = bm.
Proof.
  intros Hk. unfold BBLOCK. destruct (ly_map _ LY), (ly_log _ LY), (ly_inodes _ LY).
  pose proof (Z.div_pos (sb_ninodes y - 1) IPB ltac:(lia) ltac:(done)).
  rewrite Z.div_small by lia. rewrite u32_small; change BPB with 4096 in *; lia.
Qed.


Lemma map_pos : 1 < bm < sb_size y.
Proof.
  destruct (ly_map _ LY), (ly_log _ LY), (ly_inodes _ LY).
  pose proof (Z.div_pos (sb_ninodes y - 1) IPB ltac:(lia) ltac:(done)). lia.
Qed.
Lemma home_data k : bm <= k -> home k.
Proof.
  intros Hk. pose proof map_pos. destruct (ly_log _ LY), (ly_inodes _ LY).
  pose proof (Z.div_pos (sb_ninodes y - 1) IPB ltac:(lia) ltac:(done)). split; lia.
Qed.

Lemma map_lookup t c : ready t c -> volume y c -> zlookup (view c) bm = Some (bitmap y (view c)) /\ length (bitmap y (view c)) = 512%nat.
Proof.
  intros [R _ _] [Hs _]. destruct (trep_sizes _ _ _ _ R) as (_ & Hl & Hb & _). pose proof map_pos.
  destruct (zlookup_range_Some (view c) bm) as [d Hd]; [lia|]. unfold bitmap. rewrite Hd. split; [done|].
  eapply Hb, zlookup_in, Hd.
Qed.

Lemma bitmap_set v d : 0 <= bm < Z.of_nat (length v) -> bitmap y (zinsert bm d v) = d.
Proof. intros H. unfold bitmap. by rewrite zlookup_zinsert_eq. Qed.
Lemma bitmap_other v k d : k <> bm -> bitmap y (zinsert k d v) = bitmap y v.
Proof. intros H. unfold bitmap. by rewrite zlookup_zinsert_ne. Qed.

Lemma used_other v k d b : k <> bm -> used y (zinsert k d v) b = used y v b.
Proof. intros H. unfold used. by rewrite bitmap_other. Qed.

Lemma bu_pinned c X : budget y c X -> Z.of_nat (base.size (pinned c)) <= Z.of_nat (base.size X).
Proof. intros [Hs _]. apply inj_le, subseteq_size. set_solver. Qed.
Lemma bu_cap c X : budget y c X -> Z.of_nat (base.size (pinned c ∪ held_blocks c)) < NBUF.
Proof.
  intros [Hs Hl]. assert (base.size (pinned c ∪ held_blocks c) <= base.size X)%nat by (apply subseteq_size; set_solver).
  unfold limit in Hl. change LOGSIZE with 30 in Hl. change NBUF with 30. lia.
Qed.
Lemma budget_put c X bn x : budget y c X -> bn ∈ X -> budget y (t_put bn x c) X.
Proof.
  intros [Hs Hl] Hbn. split; [|done]. unfold t_put, held_blocks in *. cbn [pinned held]. set_solver.
Qed.
Lemma budget_grow c X k :
  budget y c X -> Z.of_nat (base.size X) < limit -> budget y c (X ∪ {[k]}) /\ (base.size (X ∪ {[k]}) <= S (base.size X))%nat.
Proof.
  intros [Hs Hl] Hlt.
  assert (base.size (X ∪ {[k]}) <= S (base.size X))%nat as Hsz.
  { rewrite size_union_alt. pose proof (subseteq_size (({[k]} : gset Z) ∖ X) {[k]} ltac:(set_solver)) as Hle.
    rewrite size_singleton in Hle. lia. }
  split; [|done]. split; [set_solver|lia].
Qed.

Definition zeros : block := replicate (Z.to_nat BSIZE) 0.

Lemma bzero_spec ic t c X k :
  ready t c -> volume y c -> budget y c X -> Z.of_nat (base.size X) < limit -> k ∉ held_blocks c ->
  bm <= k < sb_size y ->
  chl on_disk (bzero ROOTDEV k (mkFs y ic t)) (fun _ s' => exists t', s' = mkFs y ic t' /\ ready t' (t_put k zeros c)).
Proof.
  intros Hrd Hvo Hbu Hlt Hh Hk. pose proof (vo_size _ _ Hvo). pose proof map_pos. pose proof (bu_pinned _ _ Hbu).
  destruct (ly_map _ LY). change BPB with 4096 in *.
  unfold bzero. rewrite u32_small by lia. eapply hold_block; [done|lia|done|right; by eapply bu_cap|].
  intros i t1 Hi R1. apply chl_tail3. eapply put_block; [apply Hrd|apply Hrd|done..|apply home_data; lia|lia|lia|].
  intros t' Hrd'. cstep. eauto.
Qed.

(** The first free block. *)
Definition first_free (v : list block) (k : Z) : Prop :=
  0 <= k < sb_size y /\ used y v k = false /\ forall j, 0 <= j < k -> used y v j = true.

(** The cache after [balloc] gave out block [k]. *)
Definition c_alloc (k : Z) (c : cache) : cache := t_put k zeros (t_put bm (mark (bitmap y (view c)) k) c).

Lemma balloc_spec ic t c X k :
  ready t c -> volume y c -> budget y c X -> Z.of_nat (base.size X) < limit ->
  bm ∉ held_blocks c -> (forall b, b ∈ held_blocks c -> used y (view c) b = true) -> first_free (view c) k ->
  chl on_disk (balloc ROOTDEV (mkFs y ic t)) (fun a s' => a = k /\ exists t', s' = mkFs y ic t' /\ ready t' (c_alloc k c)).
Proof.
  intros Hrd Hvo Hbu Hlt Hbm Hheld (Hk & Hz & Hmin).
  pose proof (vo_size _ _ Hvo). pose proof map_pos as Hmp. pose proof (bu_pinned _ _ Hbu).
  destruct (ly_map _ LY) as [Hm1 Hm2]. destruct (map_lookup _ _ Hrd Hvo) as [Hd Hld].
  assert (bm < k) as Hbk. { destruct (Z.lt_ge_cases bm k); [done|]. rewrite (vo_meta _ _ Hvo) in Hz; [done|lia]. }
  unfold balloc. do 2 cstep. cbn [sb]. cbn [balloc_loop]. do 2 cstep. cbn [sb].
  destruct (Z.ltb_spec (u32 0) (sb_size y)) as [_|Hc]; [|change (u32 0) with 0 in Hc; lia].
  rewrite map_block by lia. eapply get_block; [done..|right; by eapply bu_cap|]. intros i t1 Hi R1.
  rewrite (scan_bits_spec _ _ _ _ _ k) by
    (try lia; try done; try (change (Z.of_nat (Z.to_nat BPB)) with 4096; change BPB with 4096 in *; lia); intros; apply Hmin; lia).
  fold (mark (bitmap y (view c)) k). eapply put_block; [apply Hrd|apply Hrd|done|done|by rewrite length_mark|apply home_data; lia|lia|lia|].
  intros t2 Hrd2. rewrite Z.add_0_l. eapply chl_seq.
  { apply (bzero_spec ic t2 (t_put bm (mark (bitmap y (view c)) k) c) X k).
    - done.
    - destruct Hvo as [Hs Hme]. split; [done|]. intros j Hj. unfold used. cbn [view t_put].
      rewrite bitmap_set by (eapply zlookup_Some_range, Hd).
      rewrite bit_mark by (try lia; rewrite Hld; apply Z.div_lt_upper_bound; change BPB with 4096 in *; lia).
      destruct (j =? k); [done|]. by apply Hme.
    - apply budget_put; [done|]. pose proof (bu_sub _ _ _ Hbu). set_solver.
    - done.
    - intros Hin. apply Hheld in Hin. congruence.
    - lia. }
  intros [] s' (t' & -> & Hrd'). cstep. split; [done|]. by exists t'.
Qed.

(** [bfree] reads the superblock again and clears the bit of a block in use. *)
Lemma bfree_spec ic t c X k d1 :
  ready t c -> volume y c -> budget y c X -> Z.of_nat (base.size X) < limit ->
  bm ∉ held_blocks c -> 1 ∉ held_blocks c -> zlookup (view c) 1 = Some d1 -> sb_of d1 = y ->
  bm < k < sb_size y -> used y (view c) k = true ->
  chl on_disk (bfree ROOTDEV k (mkFs y ic t)) (fun _ s' => exists t', s' = mkFs y ic t' /\
    ready t' (t_put bm (unmark (bitmap y (view c)) k) c)).
Proof.
  intros Hrd Hvo Hbu Hlt Hbm H1 Hd1 Hsb Hk Hu. pose proof (vo_size _ _ Hvo). pose proof map_pos as Hmp. pose proof (bu_pinned _ _ Hbu).
  destruct (ly_map _ LY) as [Hm1 Hm2]. destruct (map_lookup _ _ Hrd Hvo) as [Hd Hld].
  unfold bfree, Fs.readsb, set_sb. cstep. eapply get_block; [done..|right; by eapply bu_cap|]. intros i t1 Hi R1.
  eapply fs_seq; [apply (drop_block t1 c i 1); [apply Hrd|apply Hrd|done|done]|]. intros [] t2 Hrd2.
  cstep. cstep. cstep. cbn [icache tx]. rewrite Hsb, map_block by lia.
  eapply get_block; [done..|right; by eapply bu_cap|]. intros j t3 Hj R3.
  change BPB with 4096 in *. rewrite (Z.mod_small k) by lia. rewrite is_zero_bit_spec.
  change (bit (bitmap y (view c)) k) with (used y (view c) k). rewrite Hu. cbn [negb].
  fold (unmark (bitmap y (view c)) k). apply chl_tail3.
  eapply put_block; [apply Hrd2|apply Hrd2|done|done|by rewrite length_unmark|apply home_data; lia|lia|lia|].
  intros t4 Hrd4. cstep. eauto.
Qed.

End alloc.
End fs.
