(* ===== verification/FsFile.v ===== *)
(** Files as byte sequences: [bmap], [readi], [writei] and [iupdate] of fs.c.

    [ptr] is the block an inode has for a block of the file, through the indirect block from the
    thirteenth on; [fbyte] is the byte at an offset, zero where there is no block.  [file_ok] says
    that the blocks are distinct, in the data area and marked in the free map.  [bmap] does not
    change [fbyte]; [readi] returns it and [writei] updates it, and neither touches a block of
    another file ([frame]). *)

From Stdlib Require Import ZArith Lia.
From stdpp Require Import base tactics option gmap sets strings numbers list.
From S2P Require Import Prelude Layout Bytes Crash CString Bio Cache FsFormat Tx Fs FsBlocks.
Open Scope Z_scope.

(** * The blocks of a file *)

Definition ind (x : inode) : Z := default 0 (zlookup (i_addrs x) NDIRECT).
Definition blk (v : list block) (a : Z) : block := default [] (zlookup v a).
Definition ptr (v : list block) (x : inode) (k : Z) : Z :=
  if k <? NDIRECT then default 0 (zlookup (i_addrs x) k)
  else if k <? MAXFILE then if ind x =? 0 then 0 else get32 (blk v (ind x)) (4 * (k - NDIRECT))
  else 0.
Definition fbyte (v : list block) (x : inode) (o : Z) : Z :=
  let a := ptr v x (o / BSIZE) in
  if a =? 0 then 0 else default 0 (blk v a !! Z.to_nat (o mod BSIZE)).
Definition fbytes (v : list block) (x : inode) (o n : Z) : list Z := fbyte v x <$> seqZ o n.

Lemma get32_zeros o : get32 zeros o = 0.
Proof.
  unfold get32, slice, zeros. rewrite drop_replicate, take_replicate.
  induction (Z.to_nat 4 `min` (Z.to_nat BSIZE - Z.to_nat o))%nat as [|m IH]; [done|]. cbn [replicate le_dec]. by rewrite IH.
Qed.

Section file.
Context (y : superblock).
Abbreviation bm := (sb_bmapstart y).

(** The blocks [b] may be. *)
Definition data_block (v : list block) (b : Z) : Prop := bm < b < sb_size y /\ used y v b = true.

Record file_ok (v : list block) (x : inode) : Prop := {
  fo_len : length (i_addrs x) = 13%nat;
  fo_dev : i_dev x = ROOTDEV;
  fo_ptr : forall k, 0 <= k < MAXFILE -> ptr v x k <> 0 -> data_block v (ptr v x k) /\ ptr v x k <> ind x;
  fo_ind : ind x <> 0 -> data_block v (ind x);
  fo_inj : forall j k, 0 <= j < MAXFILE -> 0 <= k < MAXFILE -> ptr v x j = ptr v x k -> ptr v x j <> 0 -> j = k
}.

Definition owned (v : list block) (x : inode) (b : Z) : Prop :=
  b <> 0 /\ (b = ind x \/ exists k, 0 <= k < MAXFILE /\ ptr v x k = b).

(** What an operation on the file [x] may change. *)
Record frame (v : list block) (x : inode) (v' : list block) (x' : inode) : Prop := {
  fr_len : length v' = length v;
  fr_meta : forall b, b < bm -> zlookup v' b = zlookup v b;
  fr_used : forall b, 0 <= b < sb_size y -> used y v b = true -> used y v' b = true;
  fr_other : forall b, data_block v b -> ~ owned v x b -> zlookup v' b = zlookup v b;
  fr_own : forall b, owned v' x' b -> owned v x b \/ (bm < b < sb_size y /\ used y v b = false)
}.

Lemma frame_refl v x : frame v x v x.
Proof. split; auto. Qed.
Lemma frame_trans v x v1 x1 v2 x2 : 0 <= bm -> frame v x v1 x1 -> frame v1 x1 v2 x2 -> frame v x v2 x2.
Proof.
  intros Hbm [L1 M1 U1 O1 W1] [L2 M2 U2 O2 W2]. split.
  - congruence.
  - intros b Hb. by rewrite M2, M1.
  - auto.
  - intros b Hb Hn. rewrite <- (O1 b Hb Hn). apply O2.
    + split; [apply Hb|]. apply U1; [destruct Hb; lia|apply Hb].
    + intros [Ho|[_ Hu]]%W1; [done|]. destruct Hb as [_ Hb]. congruence.
  - intros b [Ho|[Hr Hu]]%W2; [by apply W1|]. right. split; [done|]. destruct (used y v b) eqn:E; [|done].
    rewrite U1 in Hu by (try done; lia). done.
Qed.

(** ** Free blocks *)

Definition free_set (v : list block) : gset Z := filter (fun k => used y v k = false) (list_to_set (seqZ 0 (sb_size y))).
Definition frees (v : list block) : Z := Z.of_nat (base.size (free_set v)).

Lemma elem_of_free v k : k ∈ free_set v <-> 0 <= k < sb_size y /\ used y v k = false.
Proof. unfold free_set. rewrite elem_of_filter, elem_of_list_to_set, elem_of_seqZ. naive_solver lia. Qed.

Lemma frees_other v b d : b <> bm -> frees (zinsert b d v) = frees v.
Proof.
  intros Hb. unfold frees. f_equal. f_equal. apply set_eq. intros k. rewrite !elem_of_free. by rewrite used_other.
Qed.

Lemma frees_first v : 0 < frees v -> exists k, first_free y v k.
Proof.
  intros Hf. assert (exists z, z ∈ free_set v) as [z Hz].
  { apply set_choose_L. intros E. unfold frees in Hf. rewrite E, size_empty in Hf. lia. }
  apply elem_of_free in Hz as [Hr Hz].
  destruct (find_index (fun k => negb (used y v k)) (seqZ 0 (sb_size y))) as [i|] eqn:E.
  - apply find_index_Some in E as [(k & Hk & Hu) Hmin]. apply lookup_seqZ in Hk as [-> Hi].
    exists (0 + Z.of_nat i). split; [lia|]. split; [by apply negb_true_iff in Hu|].
    intros j Hj. assert (negb (used y v j) = false) as Ej.
    { apply (Hmin (Z.to_nat j)); [lia|]. apply lookup_seqZ. lia. }
    by destruct (used y v j).
  - rewrite find_index_None in E. assert (negb (used y v z) = false) as Ez.
    { apply (E (Z.to_nat z)). apply lookup_seqZ. lia. }
    by rewrite Hz in Ez.
Qed.

(** ** Allocating a block *)

(** The blocks after [balloc] gave out [k]. *)
Definition v_alloc (k : Z) (v : list block) : list block := zinsert k zeros (zinsert bm (mark (bitmap y v) k) v).

(** Block [k] can be given out. *)
Record can_alloc (v : list block) (k : Z) : Prop := {
  ca_map : 0 < bm < sb_size y;
  ca_size : sb_size y <= BPB /\ sb_size y <= Z.of_nat (length v);
  ca_len : length (bitmap y v) = 512%nat;
  ca_block : bm < k < sb_size y;
  ca_free : used y v k = false
}.

Section alloc.
Context (v : list block) (k : Z) (CA : can_alloc v k).
Let Hbm : 0 < bm < sb_size y := ca_map _ _ CA.
Let Hsz : sb_size y <= BPB /\ sb_size y <= Z.of_nat (length v) := ca_size _ _ CA.
Let Hmap : length (bitmap y v) = 512%nat := ca_len _ _ CA.
Let Hk : bm < k < sb_size y := ca_block _ _ CA.
Let Hfree : used y v k = false := ca_free _ _ CA.

Lemma v_alloc_len : length (v_alloc k v) = length v.
Proof. unfold v_alloc. by rewrite !length_zinsert. Qed.
Lemma v_alloc_other b : b <> k -> b <> bm -> zlookup (v_alloc k v) b = zlookup v b.
Proof. intros. unfold v_alloc. by rewrite !zlookup_zinsert_ne by done. Qed.
Lemma v_alloc_new : zlookup (v_alloc k v) k = Some zeros.
Proof. unfold v_alloc. apply zlookup_zinsert_eq. rewrite length_zinsert. lia. Qed.
Lemma v_alloc_used b : 0 <= b < sb_size y -> used y (v_alloc k v) b = if b =? k then true else used y v b.
Proof.
  intros Hb. unfold used, v_alloc. rewrite bitmap_other by lia. rewrite bitmap_set by lia.
  change BPB with 4096 in *. apply bit_mark; [lia|lia|]. rewrite Hmap. apply Z.div_lt_upper_bound; lia.
Qed.
Lemma v_alloc_frees : frees (v_alloc k v) = frees v - 1.
Proof.
  unfold frees. assert (free_set (v_alloc k v) = free_set v ∖ {[k]}) as ->.
  { apply set_eq. intros b. rewrite elem_of_difference, elem_of_singleton, !elem_of_free. split.
    - intros [Hb Hu]. rewrite v_alloc_used in Hu by done. destruct (Z.eqb_spec b k); [done|]. done.
    - intros [[Hb Hu] Hne]. split; [done|]. rewrite v_alloc_used by done. by destruct (Z.eqb_spec b k). }
  assert (k ∈ free_set v) as Hin by (apply elem_of_free; split; [lia|done]).
  pose proof (size_difference (free_set v) {[k]} ltac:(set_solver)) as E. rewrite size_singleton in E.
  pose proof (subseteq_size {[k]} (free_set v) ltac:(set_solver)) as Hle. rewrite size_singleton in Hle. lia.
Qed.
Lemma v_alloc_meta b : 0 <= b <= bm -> used y v b = true -> used y (v_alloc k v) b = true.
Proof. intros Hb Hu. rewrite v_alloc_used by lia. by destruct (b =? k). Qed.

(** A block of a file is not the new one. *)
Lemma data_ne b : data_block v b -> b <> k /\ b <> bm /\ b <> 0.
Proof. intros [Hr Hu]. repeat split; [intros ->; congruence|lia|lia]. Qed.

(** Giving out a block changes no file. *)
Lemma v_alloc_ptr x j : (ind x <> 0 -> data_block v (ind x)) -> ptr (v_alloc k v) x j = ptr v x j.
Proof.
  intros Hi. unfold ptr. destruct (j <? NDIRECT); [done|]. destruct (j <? MAXFILE); [|done].
  destruct (Z.eqb_spec (ind x) 0); [done|]. unfold blk. destruct (data_ne _ (Hi ltac:(done))) as (? & ? & _).
  by rewrite v_alloc_other.
Qed.

Section grow.
Context (x : inode) (FO : file_ok v x).
Abbreviation v1 := (v_alloc k v).

Lemma alloc_ptr j : ptr v1 x j = ptr v x j.
Proof. apply v_alloc_ptr, (fo_ind _ _ FO). Qed.
Lemma alloc_data b : data_block v b -> data_block v1 b.
Proof. intros [Hr Hu]. split; [done|]. rewrite v_alloc_used by lia. rewrite Hu. by destruct (b =? k). Qed.
Lemma alloc_own b : owned v x b -> b <> k /\ b <> bm.
Proof.
  intros [H0 [->|(j & Hj & <-)]].
  - destruct (data_ne (ind x)) as (? & ? & _); [by apply (fo_ind _ _ FO)|done].
  - destruct (data_ne (ptr v x j)) as (? & ? & _); [by apply (fo_ptr _ _ FO)|done].
Qed.

(** The new block becomes block [bn] of the file; only the indirect block may change. *)
Section link.
Context (bn : Z) (v2 : list block) (x2 : inode).
Hypothesis Hbn : 0 <= bn < MAXFILE.
Hypothesis Hnone : ptr v x bn = 0.
Hypothesis Hx2 : length (i_addrs x2) = 13%nat /\ i_dev x2 = ROOTDEV /\ ind x2 = ind x.
Hypothesis Hptr : forall j, 0 <= j < MAXFILE -> ptr v2 x2 j = if j =? bn then k else ptr v x j.
Hypothesis Hlen : length v2 = length v1.
Hypothesis Hsame : forall b, (ind x <> 0 -> b <> ind x) -> zlookup v2 b = zlookup v1 b.

Lemma link_used b : used y v2 b = used y v1 b.
Proof.
  unfold used, bitmap. rewrite Hsame; [done|]. intros Hi E.
  destruct (data_ne (ind x)) as (_ & ? & _); [by apply (fo_ind _ _ FO)|congruence].
Qed.

Lemma link_ok : file_ok v2 x2.
Proof.
  destruct Hx2 as (H1 & H2 & H3).
  assert (forall b, data_block v b -> data_block v2 b) as Hdb.
  { intros b [? Hu]%alloc_data. split; [done|]. by rewrite link_used. }
  split; [done|done| | |].
  - intros j Hj Hne. rewrite Hptr in Hne |- * by done. rewrite H3. destruct (Z.eqb_spec j bn) as [->|].
    + split.
      * split; [done|]. rewrite link_used, v_alloc_used by lia. by rewrite Z.eqb_refl.
      * intros E. destruct (data_ne (ind x)) as (? & _ & _); [|done]. apply (fo_ind _ _ FO). lia.
    + destruct (fo_ptr _ _ FO j Hj Hne). auto.
  - rewrite H3. intros Hi. apply Hdb, (fo_ind _ _ FO), Hi.
  - intros j i Hj Hi. rewrite !Hptr by done.
    assert (forall i, 0 <= i < MAXFILE -> ptr v x i <> 0 -> ptr v x i <> k) as Hk'.
    { intros i' Hi' Hne'. apply (data_ne (ptr v x i')). by apply (fo_ptr _ _ FO). }
    destruct (Z.eqb_spec j bn) as [->|], (Z.eqb_spec i bn) as [->|]; try done; intros E Hne.
    + exfalso. apply (Hk' i Hi); congruence.
    + exfalso. apply (Hk' j Hj); congruence.
    + by apply (fo_inj _ _ FO).
Qed.

Lemma link_byte o : 0 <= o -> o / BSIZE < MAXFILE -> fbyte v2 x2 o = fbyte v x o.
Proof.
  intros Ho Hm. assert (0 <= o / BSIZE < MAXFILE) as Hr by (split; [by apply Z.div_pos|done]).
  pose proof (Z.mod_pos_bound o BSIZE ltac:(done)) as Hmod. change BSIZE with 512 in Hmod.
  unfold fbyte. rewrite Hptr by done. destruct (Z.eqb_spec (o / BSIZE) bn) as [E|].
  - rewrite E, Hnone. cbn [Z.eqb]. destruct (Z.eqb_spec k 0); [lia|]. unfold blk.
    rewrite Hsame, v_alloc_new.
    + change (default [] (Some zeros)) with zeros. unfold zeros. change BSIZE with 512 in *.
      by rewrite lookup_replicate_2 by lia.
    + intros Hi E'. destruct (data_ne (ind x)) as (? & _); [by apply (fo_ind _ _ FO)|congruence].
  - destruct (Z.eqb_spec (ptr v x (o / BSIZE)) 0); [done|].
    destruct (fo_ptr _ _ FO _ Hr ltac:(done)) as [Hd Hni]. destruct (data_ne _ Hd) as (? & ? & ?).
    unfold blk. by rewrite Hsame, v_alloc_other by done.
Qed.

Lemma link_frame : frame v x v2 x2.
Proof.
  destruct Hx2 as (H1 & H2 & H3). split.
  - by rewrite Hlen, v_alloc_len.
  - intros b Hb. rewrite Hsame, v_alloc_other; [done|lia|lia|]. intros Hi. destruct (fo_ind _ _ FO Hi). lia.
  - intros b Hb Hu. rewrite link_used, v_alloc_used by done. rewrite Hu. by destruct (b =? k).
  - intros b Hb Hno. destruct (data_ne b Hb) as (? & ? & ?). rewrite Hsame, v_alloc_other; [done..|].
    intros Hi ->. apply Hno. split; [done|by left].
  - intros b [H0 [->|(j & Hj & Ej)]].
    + left. rewrite H3 in *. split; [done|by left].
    + rewrite Hptr in Ej by done. destruct (j =? bn); [right; subst; done|]. left. split; [done|]. right. by exists j.
Qed.
End link.

(** The new block becomes the indirect block. *)
Section indirect.
Hypothesis Hnone : ind x = 0.
Abbreviation x1 := (set_i_addr NDIRECT k x).

Lemma ind_new : ind x1 = k.
Proof.
  unfold ind, set_i_addr; cbn [i_addrs]. rewrite zlookup_zinsert_eq; [done|]. rewrite (fo_len _ _ FO). done.
Qed.
Lemma ind_ptr j : 0 <= j < MAXFILE -> ptr v1 x1 j = ptr v x j.
Proof.
  intros Hj. unfold ptr. rewrite ind_new, Hnone. cbn [Z.eqb]. destruct (Z.ltb_spec j NDIRECT).
  - unfold set_i_addr; cbn [i_addrs]. rewrite zlookup_zinsert_ne; [done|lia].
  - destruct (Z.ltb_spec j MAXFILE); [|done]. destruct (Z.eqb_spec k 0); [done|].
    unfold blk. rewrite v_alloc_new. change (default [] (Some zeros)) with zeros. apply get32_zeros.
Qed.
Lemma ind_ok : file_ok v1 x1.
Proof.
  split.
  - unfold set_i_addr; cbn [i_addrs]. rewrite length_zinsert. apply (fo_len _ _ FO).
  - apply (fo_dev _ _ FO).
  - intros j Hj Hne. rewrite ind_new. rewrite ind_ptr in * by done. destruct (fo_ptr _ _ FO j Hj Hne) as [Hd _].
    split; [by apply alloc_data|]. by apply (data_ne (ptr v x j)).
  - intros _. rewrite ind_new. split; [done|]. rewrite v_alloc_used by lia. by rewrite Z.eqb_refl.
  - intros i j Hi Hj. rewrite !ind_ptr by done. by apply (fo_inj _ _ FO).
Qed.
Lemma ind_byte o : 0 <= o -> o / BSIZE < MAXFILE -> fbyte v1 x1 o = fbyte v x o.
Proof.
  intros Ho Hm. assert (0 <= o / BSIZE < MAXFILE) as Hr by (split; [by apply Z.div_pos|done]).
  unfold fbyte. rewrite ind_ptr by done. destruct (Z.eqb_spec (ptr v x (o / BSIZE)) 0); [done|].
  destruct (fo_ptr _ _ FO _ Hr ltac:(done)) as [Hd _]. destruct (data_ne _ Hd) as (? & ? & ?).
  unfold blk. by rewrite v_alloc_other by done.
Qed.
Lemma ind_frame : frame v x v1 x1.
Proof.
  split.
  - apply v_alloc_len.
  - intros b Hb. apply v_alloc_other; lia.
  - intros b Hb Hu. rewrite v_alloc_used by done. rewrite Hu. by destruct (b =? k).
  - intros b Hb Hno. destruct (data_ne b Hb) as (? & ? & ?). by apply v_alloc_other.
  - intros b [H0 [->|(j & Hj & Ej)]].
    + right. by rewrite ind_new.
    + left. rewrite ind_ptr in Ej by done. split; [done|]. right. by exists j.
Qed.
End indirect.
End grow.
End alloc.
End file.
