(* ===== verification/FsMap.v ===== *)
(** [bmap] of fs.c inside a transaction. *)

From Stdlib Require Import ZArith Lia.
From stdpp Require Import base tactics option gmap sets strings numbers list.
From S2P Require Import Prelude Layout Bytes Crash CString Bio Cache FsFormat Tx Fs FsBlocks FsFile.
Open Scope Z_scope.

(** How many more blocks the file may take: [r], and one for the indirect block. *)
Definition need (x : inode) (r : Z) : Z := r + if ind x =? 0 then 1 else 0.

(** The inode [x] with other block addresses. *)
Definition same_inode (x x' : inode) : Prop :=
  x' = mkInode (i_dev x) (i_num x) (i_ref x) (i_flags x) (i_type x) (i_major x) (i_minor x) (i_nlink x) (i_size x) (i_addrs x').

Lemma same_inode_refl x : same_inode x x.
Proof. by destruct x. Qed.
Lemma same_inode_trans x1 x2 x3 : same_inode x1 x2 -> same_inode x2 x3 -> same_inode x1 x3.
Proof. unfold same_inode. intros -> ->. done. Qed.
Lemma same_inode_addr x k a : same_inode x (set_i_addr k a x).
Proof. done. Qed.

Lemma need_S x r : need x (r + 1) = need x r + 1.
Proof. unfold need. lia. Qed.
Lemma need_pos x r : 0 <= r -> 0 <= need x r.
Proof. unfold need. destruct (ind x =? 0); lia. Qed.

Section fs.
Context {T : Type} {TO : TxOps T} {TL : TxLaws T}.
Context (lo n : Z) (P : list block -> Prop).
Context (y : superblock) (LY : layout lo n y).
Abbreviation on_disk := (fun s : fsstate T => P (tdisk (tx s))).
Abbreviation bm := (sb_bmapstart y).

(** An open file in a transaction, no buffer in use. *)
Record opened (t : T) (c : cache) (x : inode) : Prop := {
  op_ready : ready lo n P t c;
  op_volume : volume y c;
  op_held : held c = ∅;
  op_file : file_ok y (view c) x
}.

(** Room in the transaction and on the disk. *)
Record supply (c : cache) (x : inode) (X : gset Z) (r : Z) : Prop := {
  su_budget : budget n y c X;
  su_room : Z.of_nat (base.size X) + need x r < limit n;
  su_free : need x r <= frees y (view c);
  su_ind : ind x <> 0 -> ind x ∈ X
}.

(** What [bmap] leaves. *)
Record mapped (c : cache) (x : inode) (c' : cache) (x' : inode) : Prop := {
  mp_dsk : dsk c' = dsk c;
  mp_same : same_inode x x';
  mp_byte : forall o, 0 <= o -> o / BSIZE < MAXFILE -> fbyte (view c') x' o = fbyte (view c) x o;
  mp_ptr : forall j, 0 <= j < MAXFILE -> ptr (view c) x j <> 0 -> ptr (view c') x' j = ptr (view c) x j;
  mp_frame : frame y (view c) x (view c') x'
}.

Lemma mapped_refl c x : mapped c x c x.
Proof. split; auto using same_inode_refl, frame_refl. Qed.
Lemma mapped_trans c x c1 x1 c2 x2 : mapped c x c1 x1 -> mapped c1 x1 c2 x2 -> mapped c x c2 x2.
Proof.
  intros [D1 S1 B1 P1 F1] [D2 S2 B2 P2 F2]. pose proof (map_pos lo n y LY). split.
  - congruence.
  - by eapply same_inode_trans.
  - intros o Ho Hm. by rewrite B2, B1.
  - intros j Hj Hne. rewrite P2; rewrite ?P1; auto.
  - eapply frame_trans; [lia|done|done].
Qed.

(** The first free block can be given out, and the metadata stays marked. *)
Lemma first_can_alloc t c k : ready lo n P t c -> volume y c -> first_free y (view c) k -> can_alloc y (view c) k /\ volume y (c_alloc y k c).
Proof.
  intros Hrd Hvo (Hr & Hu & Hmin). assert (can_alloc y (view c) k) as CA.
  { pose proof (map_pos lo n y LY). destruct (ly_map _ _ _ LY).
    destruct (trep_sizes _ _ _ _ (rd_rep _ _ _ _ _ Hrd)) as (_ & Hl & _). pose proof (vo_size _ _ Hvo).
    destruct (map_lookup lo n P y LY _ _ Hrd Hvo). split; [lia|lia|done| |done].
    destruct (Z.lt_ge_cases bm k); [lia|]. rewrite (vo_meta _ _ Hvo) in Hu; [done|lia]. }
  split; [done|]. destruct Hvo as [Hs Hm]. split; [done|]. intros j Hj. apply (v_alloc_meta y _ _ CA); auto.
Qed.

(** [balloc] in any of the states [bmap] calls it. *)
Lemma balloc_step l t c X :
  ready lo n P t c -> volume y c -> budget n y c X -> Z.of_nat (base.size X) < limit n ->
  (forall b, b ∈ held_blocks c -> used y (view c) b = true /\ b <> bm) -> 0 < frees y (view c) ->
  chl on_disk (balloc ROOTDEV (mkFs y l t)) (fun a s' => exists t', s' = mkFs y l t' /\
    ready lo n P t' (c_alloc y a c) /\ volume y (c_alloc y a c) /\ can_alloc y (view c) a).
Proof.
  intros Hrd Hvo Hbu Hlt Hh (k & Hk)%frees_first. eapply chl_conseq.
  { eapply (balloc_spec lo n P y LY l t c X k); [done..| |naive_solver|done]. intros Hin. by destruct (Hh _ Hin). }
  intros a s' (-> & t' & -> & Hrd'). destruct (first_can_alloc t c k Hrd Hvo Hk) as [CA Hvo'].
  exists t'. split_and!; done.
Qed.

Lemma supply_more c x X r a : 0 <= r -> supply c x X (r + 1) -> supply c x (X ∪ {[a]}) r.
Proof.
  intros Hr [Hb Hroom Hfree Hi]. rewrite need_S in *. pose proof (need_pos x r Hr).
  destruct (budget_grow lo n y LY c X a Hb) as [Hb' Hs]; [lia|]. split; [done|lia|lia|set_solver].
Qed.

Lemma budget_alloc c X a :
  budget n y c X -> Z.of_nat (base.size X) < limit n -> budget n y (c_alloc y a c) (X ∪ {[a]}).
Proof.
  intros Hb Hlt. destruct (budget_grow lo n y LY c X a Hb Hlt) as [[Hs Hl] _]. split; [|done].
  unfold c_alloc, t_put, held_blocks in *. cbn [pinned held]. set_solver.
Qed.

(** Of the blocks [v], block [k] was given out: it is all zeros and marked, and nothing else changed but its bit. *)
Definition gave_out (k : Z) (v v' : list block) : Prop :=
  zlookup v' k = Some zeros /\ (forall b, b <> k -> b <> bm -> zlookup v' b = zlookup v b) /\
  (forall b, 0 <= b < sb_size y -> used y v' b = if b =? k then true else used y v b).

(** C32. Allocating and freeing a block.  Inside a transaction with room for two more blocks,
    [balloc] returns the first block whose bit in the free map is clear; afterwards that bit alone
    is set, the block is all zeros, and every block but it and the map is unchanged.  [bfree] of
    the block then clears its bit, and the free map is what it was, bit for bit. *)
Theorem balloc_bfree ic t c X k d1 :
  ready lo n P t c -> volume y c -> budget n y c X -> Z.of_nat (base.size X) + 1 < limit n -> held c = ∅ ->
  zlookup (view c) 1 = Some d1 -> sb_of d1 = y -> first_free y (view c) k ->
  exists t1 c1, run (balloc ROOTDEV (mkFs y ic t)) = ROk k (mkFs y ic t1) /\ ready lo n P t1 c1 /\
    dsk c1 = dsk c /\ gave_out k (view c) (view c1) /\
    exists t2 c2, run (bfree ROOTDEV k (mkFs y ic t1)) = ROk tt (mkFs y ic t2) /\ ready lo n P t2 c2 /\
      forall b, 0 <= b < sb_size y -> used y (view c2) b = used y (view c) b.
Proof.
  intros Hrd Hvo Hbu Hlt Hh Hd1 Hsb Hk. destruct (first_can_alloc t c k Hrd Hvo Hk) as [CA Hvo1].
  pose proof (balloc_spec lo n P y LY ic t c X k Hrd Hvo Hbu ltac:(lia) (no_held _ _ Hh) (fun b Hb => False_ind _ (no_held _ b Hh Hb)) Hk)
    as (a & s1 & Hr1 & -> & t1 & -> & Hrd1)%chl_run.
  pose proof (ca_block _ _ _ CA) as Hbk. pose proof (ca_free _ _ _ CA) as Hz. pose proof (map_pos lo n y LY) as Hmp.
  pose proof (v_alloc_used y _ _ CA) as Hu. pose proof (v_alloc_other y (view c) k) as Hoth.
  destruct (budget_grow lo n y LY c X k Hbu ltac:(lia)) as [_ Hsz].
  exists t1, (c_alloc y k c). change (view (c_alloc y k c)) with (v_alloc y k (view c)).
  split_and!; [done|done|done|split; [by apply (v_alloc_new y)|done]|].
  destruct (map_lookup lo n P y LY _ _ Hrd1 Hvo1) as [Hm Hlm].
  pose proof (bfree_spec lo n P y LY ic t1 (c_alloc y k c) (X ∪ {[k]}) k d1 Hrd1 Hvo1 (budget_alloc c X k Hbu ltac:(lia)) ltac:(lia)
    (no_held _ _ Hh) (no_held _ _ Hh) ltac:(by etransitivity; [apply Hoth; lia|]) Hsb Hbk ltac:(etransitivity; [apply Hu; lia|by rewrite Z.eqb_refl]))
    as ([] & s2 & Hr2 & t2 & -> & Hrd2)%chl_run.
  eexists t2, _. split; [exact Hr2|]. split; [exact Hrd2|]. intros b Hb. unfold used at 1. cbn [view t_put].
  rewrite bitmap_set by (by eapply zlookup_Some_range).
  pose proof (ca_size _ _ _ CA) as [Hs _]. change BPB with 4096 in Hs.
  rewrite bit_unmark; [|lia|lia|rewrite Hlm; apply Z.div_lt_upper_bound; lia].
  destruct (Z.eqb_spec b k) as [->|Hne]; [done|].
  etransitivity; [apply Hu; done|]. by destruct (Z.eqb_spec b k).
Qed.

(** The supply after the file took block [a]. *)
Lemma supply_alloc c x X q r a x' :
  can_alloc y (view c) a -> supply c x X q -> (ind x' = ind x \/ ind x' = a) ->
  0 <= need x' r -> need x' r + 1 <= need x q -> supply (c_alloc y a c) x' (X ∪ {[a]}) r.
Proof.
  intros CA [Hb Hroom Hfree Hi] Hx Hn1 Hn2.
  destruct (budget_grow lo n y LY c X a Hb) as [_ Hs]; [lia|].
  split; [apply budget_alloc; [done|lia]|lia| |].
  - change (view (c_alloc y a c)) with (v_alloc y a (view c)). rewrite (v_alloc_frees y _ _ CA). lia.
  - destruct Hx as [-> | ->]; set_solver.
Qed.

(** The inode is in slot [ip] of the inode cache. *)
Context (ic : list inode) (ip : nat) (Hip : (ip < length ic)%nat).
Abbreviation st x t := (mkFs y (<[ip:=x]> ic) t).

Lemma fs_get_inode {A} (f : inode -> M (fsstate T) A) x t Q :
  chl on_disk (f x (st x t)) Q -> chl on_disk (bind (get_inode ip) f (st x t)) Q.
Proof. intros H. apply chl_bind. unfold get_inode. cbn [icache]. by rewrite list_lookup_insert_eq by done. Qed.
Lemma fs_upd_inode {A} (f : M (fsstate T) A) g x t Q :
  chl on_disk (f (st (g x) t)) Q -> chl on_disk ((upd_inode ip g ;; f) (st x t)) Q.
Proof.
  intros H. apply chl_bind. unfold upd_inode. cstep. cbn [sb icache tx].
  rewrite !list_insert_alter in *. rewrite list_alter_alter_eq. done.
Qed.
Definition bmap_post (c : cache) (x : inode) (X : gset Z) (r bn : Z) (a : Z) (s' : fsstate T) : Prop :=
  exists t' c' x' X', s' = st x' t' /\ opened t' c' x' /\ mapped c x c' x' /\
    ptr (view c') x' bn = a /\ a <> 0 /\ supply c' x' X' r /\ X ⊆ X' /\ a ∈ X' /\
    (ptr (view c) x bn <> 0 -> x' = x).

Lemma bmap_hit c x X r bn t :
  0 <= r -> opened t c x -> supply c x X (r + 1) -> ptr (view c) x bn <> 0 ->
  bmap_post c x X r bn (ptr (view c) x bn) (st x t).
Proof.
  intros Hr Hop Hsu Hp. exists t, c, x, (X ∪ {[ptr (view c) x bn]}). split; [done|]. split; [done|].
  split; [apply mapped_refl|]. split; [done|]. split; [done|]. split; [by apply supply_more|].
  split_and!; [set_solver|set_solver|done].
Qed.

Lemma no_held_used c : held c = ∅ -> forall b, b ∈ held_blocks c -> used y (view c) b = true /\ b <> bm.
Proof. intros Hh b. unfold held_blocks. rewrite Hh, map_img_empty_L. set_solver. Qed.

(** The direct blocks. *)
Lemma bmap_direct t c x X r bn :
  0 <= r -> opened t c x -> supply c x X (r + 1) -> 0 <= bn < NDIRECT ->
  chl on_disk (bmap ip bn (st x t)) (bmap_post c x X r bn).
Proof.
  intros Hr Hop Hsu Hbn. unfold bmap. apply fs_get_inode. destruct (Z.ltb_spec bn NDIRECT); [|lia].
  change NDIRECT with 12 in *.
  assert (ptr (view c) x bn = default 0 (zlookup (i_addrs x) bn)) as Ep.
  { unfold ptr. change NDIRECT with 12. destruct (Z.ltb_spec bn 12); [done|lia]. }
  rewrite <- Ep. destruct (Z.eqb_spec (ptr (view c) x bn) 0) as [E|E]; [|by cstep; apply bmap_hit].
  destruct Hop as [Hrd Hvo Hh FO]. rewrite (fo_dev _ _ _ FO). pose proof (need_pos x r Hr).
  destruct Hsu as [Hb Hroom Hfree Hi]. rewrite need_S in *. eapply chl_seq.
  { eapply (balloc_step _ t c X); [done..|lia|by apply no_held_used|lia]. }
  intros a s' (t' & -> & Hrd' & Hvo' & CA). apply fs_upd_inode. cstep.
  assert (ind (set_i_addr bn a x) = ind x) as Ei.
  { unfold ind, set_i_addr; cbn [i_addrs]. change NDIRECT with 12. rewrite zlookup_zinsert_ne; [done|lia]. }
  assert (length (zinsert bn a (i_addrs x)) = 13%nat /\ i_dev x = ROOTDEV /\ ind (set_i_addr bn a x) = ind x) as Hx2.
  { rewrite length_zinsert. split; [apply (fo_len _ _ _ FO)|]. split; [apply (fo_dev _ _ _ FO)|done]. }
  assert (forall j, 0 <= j < MAXFILE -> ptr (v_alloc y a (view c)) (set_i_addr bn a x) j = if j =? bn then a else ptr (view c) x j) as Hptr.
  { intros j Hj. rewrite <- (v_alloc_ptr y _ _ CA x j (fo_ind _ _ _ FO)). unfold ptr at 1 2. rewrite Ei.
    change NDIRECT with 12. unfold set_i_addr; cbn [i_addrs]. destruct (Z.eqb_spec j bn) as [->|].
    - destruct (Z.ltb_spec bn 12); [|lia]. rewrite zlookup_zinsert_eq; [done|]. rewrite (fo_len _ _ _ FO). lia.
    - by rewrite zlookup_zinsert_ne by done. }
  assert (a <> 0) as Ha by (destruct CA; lia). assert (0 <= bn < MAXFILE) as Hbm by (change MAXFILE with 140; lia).
  exists t', (c_alloc y a c), (set_i_addr bn a x), (X ∪ {[a]}). split; [done|]. split.
  { split; [done|done|done|]. by apply (link_ok y _ _ CA x FO bn). }
  split; [|split; [|split; [done|split; [|split_and!; [set_solver|set_solver|done]]]]].
  - split; [done|apply same_inode_addr| | |by apply (link_frame y _ _ CA x FO bn)].
    + intros o. by apply (link_byte y _ _ CA x FO bn).
    + intros j Hj Hne. cbn [view c_alloc t_put]. fold (v_alloc y a (view c)). rewrite Hptr by done.
      destruct (Z.eqb_spec j bn) as [->|]; done.
  - change (view (c_alloc y a c)) with (v_alloc y a (view c)). rewrite Hptr by done. by rewrite Z.eqb_refl.
  - apply (supply_alloc c x X (r + 1) r a); [done| |by left|unfold need; rewrite Ei; destruct (ind x =? 0); lia..].
    split; rewrite ?need_S; try done; lia.
Qed.

(** The part of [bmap] that goes through the indirect block. *)
Definition bmap_entry (a k : Z) : M (fsstate T) Z :=
  i <- zoom (bread ROOTDEV a) ;;
  d <- zoom (bdata i) ;;
  let addr := get32 d (4 * k) in
  addr <- (if addr =? 0 then
             addr <- balloc ROOTDEV ;;
             d <- zoom (bdata i) ;;
             zoom (bset i (put32 d (4 * k) addr)) ;;
             zoom (log_write i) ;;
             ret addr
           else ret addr) ;;
  zoom (brelse i) ;;
  ret addr.

Lemma held_one c i a : held c = ∅ -> held_blocks (c_hold i a c) = {[a]}.
Proof.
  intros Hh. unfold held_blocks, c_hold, set_held. cbn [held]. rewrite Hh.
  apply set_eq. intros b. rewrite elem_of_map_img, elem_of_singleton. split.
  - intros [k [[_ ->]|[_ Hk]]%lookup_insert_Some]; [done|]. by rewrite lookup_empty in Hk.
  - intros ->. exists i. apply lookup_insert_eq.
Qed.

Section entry.
Context (t : T) (c : cache) (x : inode) (X : gset Z) (r bn : Z).
Hypothesis (Hr : 0 <= r) (Hop : opened t c x) (Hsu : supply c x X (r + 1)).
Hypothesis (Hind : ind x <> 0) (Hbn : NDIRECT <= bn < MAXFILE).
Abbreviation d := (blk (view c) (ind x)).

Lemma entry_ptr : ptr (view c) x bn = get32 d (4 * (bn - NDIRECT)).
Proof.
  unfold ptr. destruct (Z.ltb_spec bn NDIRECT); [lia|]. destruct (Z.ltb_spec bn MAXFILE); [|lia].
  by destruct (Z.eqb_spec (ind x) 0).
Qed.
Lemma entry_block : zlookup (view c) (ind x) = Some d /\ length d = 512%nat /\ bm < ind x < sb_size y.
Proof.
  destruct Hop as [Hrd Hvo _ FO]. destruct (fo_ind _ _ _ FO Hind) as [Hb _]. pose proof (map_pos lo n y LY).
  destruct (trep_sizes _ _ _ _ (rd_rep _ _ _ _ _ Hrd)) as (_ & Hl & H512 & _). pose proof (vo_size _ _ Hvo).
  destruct (zlookup_range_Some (view c) (ind x)) as [e He]; [lia|]. unfold blk. rewrite He. split; [done|]. split; [|done].
  eapply H512, zlookup_in, He.
Qed.

(** The blocks after a new entry. *)
Abbreviation v1 a := (v_alloc y a (view c)).
Abbreviation v2 a := (zinsert (ind x) (put32 d (4 * (bn - NDIRECT)) a) (v1 a)).

Lemma entry_link a :
  can_alloc y (view c) a -> ptr (view c) x bn = 0 ->
  (forall j, 0 <= j < MAXFILE -> ptr (v2 a) x j = if j =? bn then a else ptr (view c) x j) /\
  (forall b, (ind x <> 0 -> b <> ind x) -> zlookup (v2 a) b = zlookup (v1 a) b) /\ length (v2 a) = length (v1 a).
Proof.
  intros CA Hnone. destruct entry_block as (Hd & Hld & Hrng). destruct Hop as [_ _ _ FO].
  split; [|split; [intros b Hb; apply zlookup_zinsert_ne; intros E; by apply Hb|apply length_zinsert]].
  intros j Hj. rewrite <- (v_alloc_ptr y _ _ CA x j (fo_ind _ _ _ FO)). unfold ptr at 1 2.
  change NDIRECT with 12 in *. change MAXFILE with 140 in *. destruct (Z.ltb_spec j 12).
  { destruct (Z.eqb_spec j bn); [lia|done]. }
  destruct (Z.ltb_spec j 140); [|lia]. destruct (Z.eqb_spec (ind x) 0); [done|]. unfold blk at 1 3.
  destruct (data_ne y _ _ CA (ind x)) as (? & ? & _); [by apply (fo_ind _ _ _ FO)|].
  pose proof (ca_size _ _ _ CA). pose proof (ca_block _ _ _ CA).
  rewrite zlookup_zinsert_eq by (rewrite v_alloc_len; pose proof (map_pos lo n y LY); lia).
  rewrite v_alloc_other, Hd by done. cbn [default from_option id].
  change BPB with 4096 in *. destruct (Z.eqb_spec j bn) as [->|].
  - unfold default, from_option, id. rewrite get32_put32 by lia. pose proof (map_pos lo n y LY). apply u32_small. lia.
  - unfold default, from_option, id. apply get32_put32_ne; lia.
Qed.

Lemma bmap_entry_spec : chl on_disk (bmap_entry (ind x) (bn - NDIRECT) (st x t)) (bmap_post c x X r bn).
Proof.
  destruct entry_block as (Hd & Hld & Hrng). destruct Hop as [Hrd Hvo Hh FO]. destruct Hsu as [Hb Hroom Hfree Hi].
  rewrite need_S in *. pose proof (need_pos x r Hr). pose proof (map_pos lo n y LY).
  pose proof (fun b => no_held c b Hh) as Hnh.
  unfold bmap_entry. eapply get_block; [done..|right; by eapply bu_cap|]. intros i t1 Hi1 R1.
  rewrite <- entry_ptr. destruct (Z.eqb_spec (ptr (view c) x bn) 0) as [E|E].
  - assert (ready lo n P t1 (c_hold i (ind x) c)) as Hrd1 by (destruct Hrd; by split).
    assert (budget n y (c_hold i (ind x) c) X) as Hb1.
    { destruct Hb as [Hs Hl]. split; [|done]. rewrite held_one by done. cbn [pinned c_hold set_held].
      specialize (Hi Hind). set_solver. }
    cstep. eapply chl_seq.
    { eapply (balloc_step _ t1 (c_hold i (ind x) c) X); [done|destruct Hvo; by split|done|lia| |cbn [view c_hold set_held]; lia].
      intros b. rewrite held_one by done. intros ->%elem_of_singleton. destruct (fo_ind _ _ _ FO Hind).
      cbn [view c_hold set_held]. split; [done|lia]. }
    intros a s' (t2 & -> & Hrd2 & Hvo2 & CA). cbn [view c_hold set_held] in CA.
    destruct (data_ne y _ _ CA (ind x)) as (Hna & Hnb & _); [by apply (fo_ind _ _ _ FO)|].
    eapply fs_seq.
    { apply (tbdata_law P lo n t2 _ i (ind x) d (rd_rep _ _ _ _ _ Hrd2)); [apply lookup_insert_eq|].
      unfold lookup_view. change (view (c_alloc y a (c_hold i (ind x) c))) with (v_alloc y a (view c)).
      by rewrite v_alloc_other. }
    intros r' t' [-> ->]. apply (chl_ret2 _ _ _ a (fun a => zoom (brelse i) ;; ret a)).
    destruct (entry_link a CA E) as (Hptr & Hsame & Hlen).
    assert (supply (c_alloc y a c) x (X ∪ {[a]}) r) as Hsu'.
    { apply (supply_alloc c x X (r + 1) r a); [done| |by left|lia|rewrite need_S; lia]. split; rewrite ?need_S; try done; lia. }
    assert (0 <= bn < MAXFILE) as Hbn' by (change NDIRECT with 12 in *; lia).
    assert (Hx2 : length (i_addrs x) = 13%nat /\ i_dev x = ROOTDEV /\ ind x = ind x).
    { split; [apply (fo_len _ _ _ FO)|]. split; [apply (fo_dev _ _ _ FO)|done]. }
    pose proof (bu_pinned lo n y LY _ _ (su_budget _ _ _ _ Hsu')). pose proof (su_room _ _ _ _ Hsu').
    pose proof (vo_size _ _ Hvo).
    eapply (put_block lo n P _ y _ t2 (c_alloc y a c) i (ind x)).
    1-2: by destruct Hrd. 1: done. 1: apply (rd_rep _ _ _ _ _ Hrd2). 1: by rewrite length_put32.
    1: apply (home_data lo n y LY); lia. 1: cbn [dsk c_alloc t_put]; lia. 1: lia.
    intros t' Hrd'. cstep. exists t', (t_put (ind x) (put32 d (4 * (bn - NDIRECT)) a) (c_alloc y a c)), x, (X ∪ {[a]}).
    assert (a <> 0) as Ha by (destruct CA; lia). split; [done|]. split.
    { split; [done| |done|by apply (link_ok y _ _ CA x FO bn)]. destruct Hvo2 as [Hs2 Hm2]. split; [done|].
      intros j Hj. cbn [view t_put]. rewrite used_other by done. by apply Hm2. }
    split; [|split; [|split; [done|split; [|split_and!; [set_solver|set_solver|done]]]]].
    + split; [done|apply same_inode_refl| | |by apply (link_frame y _ _ CA x FO bn)].
      * intros o. by apply (link_byte y _ _ CA x FO bn).
      * intros j Hj Hne. cbn [view t_put]. change (view (c_alloc y a c)) with (v1 a). rewrite Hptr by done.
        by destruct (Z.eqb_spec j bn) as [->|].
    + cbn [view t_put]. change (view (c_alloc y a c)) with (v1 a). rewrite Hptr by done. by rewrite Z.eqb_refl.
    + destruct Hsu' as [Hb' Hr' Hf' Hi']. split; [|done| |done].
      * eapply budget_put; [done|done|]. set_solver.
      * cbn [view t_put]. by rewrite frees_other.
  - cstep. cstep. eapply fs_seq; [eapply (drop_block lo n P _ c); [apply Hrd|apply Hrd|done|done]|]. intros [] t' Hrd'. cstep.
    apply bmap_hit; [done|by split| |done]. split; rewrite ?need_S; try done; lia.
Qed.
End entry.

Lemma bmap_post_trans c x c1 x1 X X1 r bn a s' :
  mapped c x c1 x1 -> X ⊆ X1 -> ptr (view c) x bn = 0 -> bmap_post c1 x1 X1 r bn a s' -> bmap_post c x X r bn a s'.
Proof.
  intros Hm HX E (t' & c' & x' & X' & -> & Hop & Hm' & Hp & Ha & Hsu & HX' & Hin & _).
  exists t', c', x', X'. split; [done|]. split; [done|]. split; [by eapply mapped_trans|].
  split_and!; [done|done|done|set_solver|done|done].
Qed.

(** [bmap] returns the block of the file, allocating it (and the indirect block) where there is
    none, and leaves the bytes of the file and all other blocks in use as they are. *)
Lemma bmap_spec t c x X r bn :
  0 <= r -> opened t c x -> supply c x X (r + 1) -> 0 <= bn < MAXFILE ->
  chl on_disk (bmap ip bn (st x t)) (bmap_post c x X r bn).
Proof.
  intros Hr Hop Hsu Hbn. destruct (decide (bn < NDIRECT)) as [Hd|Hd]; [apply bmap_direct; [done..|lia]|].
  unfold bmap. apply fs_get_inode. destruct (Z.ltb_spec bn NDIRECT); [lia|].
  destruct (Z.ltb_spec (bn - NDIRECT) NINDIRECT); [|change NINDIRECT with 128 in *; change NDIRECT with 12 in *; change MAXFILE with 140 in *; lia].
  rewrite (fo_dev _ _ _ (op_file _ _ _ Hop)). fold (ind x). destruct (Z.eqb_spec (ind x) 0) as [E|E].
  - destruct Hop as [Hrd Hvo Hh FO]. pose proof (need_pos x r Hr).
    destruct Hsu as [Hb Hroom Hfree Hi]. assert (need x (r + 1) = r + 2) as En by (unfold need; rewrite E; simpl; lia).
    rewrite En in *. cstep. eapply chl_seq.
    { eapply (balloc_step _ t c X); [done..|lia|by apply no_held_used|lia]. }
    intros a s' (t' & -> & Hrd' & Hvo' & CA). apply fs_upd_inode. cstep.
    pose proof (ind_new y _ a x FO) as Ei. assert (a <> 0) as Ha by (pose proof (ca_block _ _ _ CA); pose proof (map_pos lo n y LY); lia).
    assert (opened t' (c_alloc y a c) (set_i_addr NDIRECT a x)) as Hop'.
    { split; [done|done|done|]. by apply (ind_ok y _ _ CA x FO). }
    assert (forall Q, chl on_disk (bmap_entry (ind (set_i_addr NDIRECT a x)) (bn - NDIRECT) (st (set_i_addr NDIRECT a x) t')) Q ->
      chl on_disk (bmap_entry a (bn - NDIRECT) (st (set_i_addr NDIRECT a x) t')) Q) as Hfold by (intros Q; by rewrite Ei).
    apply Hfold. clear Hfold. eapply chl_conseq.
    { apply (bmap_entry_spec t' (c_alloc y a c) _ (X ∪ {[a]}) r bn); [done|done| |by rewrite Ei|lia].
      assert (need (set_i_addr NDIRECT a x) (r + 1) = r + 1) as En'.
      { unfold need. rewrite Ei. destruct (Z.eqb_spec a 0); [done|lia]. }
      apply (supply_alloc c x X (r + 1)); [done| |by right|lia|lia]. split; [done|lia|lia|done]. }
    intros b s'. apply bmap_post_trans; [|set_solver|].
    2: { unfold ptr. rewrite E. destruct (Z.ltb_spec bn NDIRECT); [lia|]. by destruct (bn <? MAXFILE). }
    split; [done|apply same_inode_addr| | |by apply (ind_frame y _ _ CA x FO)].
    + intros o. by apply (ind_byte y _ _ CA x FO).
    + intros j Hj Hne. by apply (ind_ptr y _ _ CA x FO).
  - cstep. cstep. apply bmap_entry_spec; [done..|lia].
Qed.

End fs.
