(* ===== verification/FsRw.v ===== *)
(** [readi] and [writei] of fs.c inside a transaction. *)

From Stdlib Require Import ZArith Lia.
From stdpp Require Import base tactics option gmap sets strings numbers list.
From S2P Require Import Prelude Layout Bytes Crash CString Bio Cache FsFormat Tx Fs FsBlocks FsFile FsMap.
Open Scope Z_scope.

(** * Bytes of a file *)

Lemma fbytes_app v x o m k : 0 <= m -> 0 <= k -> fbytes v x o (m + k) = fbytes v x o m ++ fbytes v x (o + m) k.
Proof. intros. unfold fbytes. by rewrite seqZ_app, fmap_app by done. Qed.
Lemma length_fbytes v x o m : length (fbytes v x o m) = Z.to_nat m.
Proof. unfold fbytes. by rewrite length_fmap, length_seqZ. Qed.
Lemma fbytes_nil v x o m : m <= 0 -> fbytes v x o m = [].
Proof. intros. unfold fbytes, seqZ. by replace (Z.to_nat m) with 0%nat by lia. Qed.

Lemma same_block o i : 0 <= o -> 0 <= i -> o mod BSIZE + i < BSIZE -> (o + i) / BSIZE = o / BSIZE /\ (o + i) mod BSIZE = o mod BSIZE + i.
Proof.
  change BSIZE with 512. intros Ho Hi Hs. pose proof (Z.mod_pos_bound o 512 ltac:(lia)). pose proof (Z.div_mod o 512 ltac:(lia)).
  assert ((o + i) / 512 = o / 512) as E. { symmetry. apply Z.div_unique with (o mod 512 + i); lia. }
  split; [done|]. pose proof (Z.div_mod (o + i) 512 ltac:(lia)). lia.
Qed.

(** A piece of one block. *)
Lemma slice_fbytes v x o m a :
  0 <= o -> 0 <= m -> o mod BSIZE + m <= BSIZE -> ptr v x (o / BSIZE) = a -> a <> 0 -> length (blk v a) = 512%nat ->
  slice (blk v a) (o mod BSIZE) m = fbytes v x o m.
Proof.
  intros Ho Hm Hs Ha Hne Hl. pose proof (Z.mod_pos_bound o BSIZE ltac:(done)).
  apply list_eq_same_length with (Z.to_nat m).
  { by rewrite length_fbytes. }
  { rewrite length_slice by (change BSIZE with 512 in *; lia). done. }
  intros i b b' Hi. rewrite lookup_slice by lia. unfold fbytes. rewrite list_lookup_fmap_Some.
  intros Hb (z & -> & [-> Hz]%lookup_seqZ). unfold fbyte.
  destruct (same_block o (Z.of_nat i)) as [E1 E2]; [lia..|]. rewrite E1, E2, Ha.
  destruct (Z.eqb_spec a 0); [done|]. replace (Z.to_nat (o mod BSIZE + Z.of_nat i)) with (Z.to_nat (o mod BSIZE) + i)%nat by lia.
  by rewrite Hb.
Qed.

(** A block of the file is replaced. *)
Section write.
Context (y : superblock) (v : list block) (x : inode) (FO : file_ok y v x).
Context (k a : Z) (d' : block).
Hypothesis (Hk : 0 <= k < MAXFILE) (Ha : ptr v x k = a) (Hne : a <> 0) (Hbm : 0 < sb_bmapstart y).
Hypothesis Hlen : sb_size y <= Z.of_nat (length v).
Abbreviation v' := (zinsert a d' v).

Lemma write_data : data_block y v a /\ a <> ind x.
Proof. rewrite <- Ha. apply (fo_ptr _ _ _ FO); [done|]. by rewrite Ha. Qed.
Lemma write_ptr j : ptr v' x j = ptr v x j.
Proof.
  destruct write_data as [_ Hi]. unfold ptr, blk. by rewrite zlookup_zinsert_ne by done.
Qed.
Lemma write_used b : used y v' b = used y v b.
Proof. apply used_other. destruct write_data as [[? _] _]. lia. Qed.
Lemma write_ok : file_ok y v' x.
Proof.
  assert (forall b, data_block y v b -> data_block y v' b) as Hd.
  { intros b [? Hu]. split; [done|]. by rewrite write_used. }
  destruct FO as [H1 H2 H3 H4 H5]. split; [done|done| |auto|].
  - intros j Hj. rewrite write_ptr. intros Hn. destruct (H3 j Hj Hn). auto.
  - intros i j Hi Hj. rewrite !write_ptr. auto.
Qed.
Lemma write_frame : frame y v x v' x.
Proof.
  destruct write_data as [[Hr _] _]. split.
  - apply length_zinsert.
  - intros b Hb. apply zlookup_zinsert_ne. lia.
  - intros b Hb. by rewrite write_used.
  - intros b _ Hno. apply zlookup_zinsert_ne. intros ->. apply Hno. split; [done|]. right. by exists k.
  - intros b [H0 [->|(j & Hj & Ej)]]; left; (split; [done|]); [by left|]. rewrite write_ptr in Ej. right. by exists j.
Qed.
Lemma write_byte o :
  0 <= o -> o / BSIZE < MAXFILE ->
  fbyte v' x o = if o / BSIZE =? k then default 0 (d' !! Z.to_nat (o mod BSIZE)) else fbyte v x o.
Proof.
  intros Ho Hm. assert (0 <= o / BSIZE < MAXFILE) as Hr by (split; [by apply Z.div_pos|done]).
  destruct write_data as [[Hb _] _]. unfold fbyte. rewrite write_ptr. destruct (Z.eqb_spec (o / BSIZE) k) as [->|Hnk].
  - rewrite Ha. destruct (Z.eqb_spec a 0); [done|]. unfold blk. by rewrite zlookup_zinsert_eq by lia.
  - destruct (Z.eqb_spec (ptr v x (o / BSIZE)) 0) as [|Hp]; [done|]. unfold blk. rewrite zlookup_zinsert_ne; [done|].
    intros E. apply Hnk. symmetry. apply (fo_inj _ _ _ FO); [done|done|congruence|congruence].
Qed.
End write.

(** Block [k] of the file has a byte in [off .. off + m). *)
Definition in_range (off m k : Z) : Prop := 0 <= k /\ 0 < m /\ k * BSIZE < off + m /\ off < (k + 1) * BSIZE.
(** The number of such blocks. *)
Definition nblk (off m : Z) : Z := if m <=? 0 then 0 else (off + m - 1) / BSIZE - off / BSIZE + 1.

Lemma nblk_step off m w :
  0 <= off -> 0 < m -> w = Z.min m (BSIZE - off mod BSIZE) -> nblk off m = nblk (off + w) (m - w) + 1.
Proof.
  change BSIZE with 512. unfold nblk. change BSIZE with 512. intros Ho Hm ->.
  pose proof (Z.mod_pos_bound off 512 ltac:(lia)). pose proof (Z.div_mod off 512 ltac:(lia)).
  destruct (Z.leb_spec m 0); [lia|]. destruct (Z.leb_spec (m - Z.min m (512 - off mod 512)) 0).
  - assert ((off + m - 1) / 512 = off / 512) as -> by (symmetry; apply Z.div_unique with (off mod 512 + m - 1); lia). lia.
  - replace (Z.min m (512 - off mod 512)) with (512 - off mod 512) by lia.
    replace (off + (512 - off mod 512)) with ((off / 512 + 1) * 512) by lia. rewrite Z.div_mul by lia.
    replace ((off / 512 + 1) * 512 + (m - (512 - off mod 512)) - 1) with (off + m - 1) by lia. lia.
Qed.
Lemma nblk_nonneg off m : 0 <= off -> 0 <= nblk off m.
Proof.
  intros Ho. unfold nblk. destruct (Z.leb_spec m 0); [done|]. change BSIZE with 512.
  pose proof (Z.div_le_mono off (off + m - 1) 512 ltac:(lia) ltac:(lia)). lia.
Qed.

(** * The routines *)

Section fs.
Context {T : Type} {TO : TxOps T} {TL : TxLaws T}.
Context (lo n : Z) (P : list block -> Prop).
Context (y : superblock) (LY : layout lo n y).
Context (ic : list inode) (ip : nat) (Hip : (ip < length ic)%nat).
Abbreviation on_disk := (fun s : fsstate T => P (tdisk (tx s))).
Abbreviation bm := (sb_bmapstart y).
Abbreviation st x t := (mkFs y (<[ip:=x]> ic) t).
Abbreviation opened := (opened lo n P y).
Abbreviation supply := (supply n y).

(** A data block of an open file. *)
Lemma file_block t c x b :
  opened t c x -> data_block y (view c) b ->
  zlookup (view c) b = Some (blk (view c) b) /\ length (blk (view c) b) = 512%nat /\ 0 <= b < Z.of_nat (length (dsk c)).
Proof.
  intros [Hrd Hvo _ _] [Hr _]. pose proof (map_pos lo n y LY). pose proof (vo_size _ _ Hvo).
  destruct (trep_sizes _ _ _ _ (rd_rep _ _ _ _ _ Hrd)) as (_ & Hl & Hb & _).
  destruct (zlookup_range_Some (view c) b) as [d Hd]; [lia|]. unfold blk. rewrite Hd.
  split; [done|]. split; [eapply Hb, zlookup_in, Hd|lia].
Qed.

(** Reading one block of an open file. *)
Lemma file_read {A} (f : block -> M (fsstate T) A) t c x b Q :
  opened t c x -> data_block y (view c) b -> Z.of_nat (base.size (pinned c)) < NBUF ->
  (forall t', opened t' c x -> chl on_disk (f (blk (view c) b) (st x t')) Q) ->
  chl on_disk ((i <- zoom (bread ROOTDEV b) ;; d <- zoom (bdata i) ;; zoom (brelse i) ;; f d) (st x t)) Q.
Proof.
  intros Hop Hb Hcap Hf. destruct (file_block _ _ _ _ Hop Hb) as (Hd & _). destruct Hop as [Hrd Hvo Hh FO].
  eapply get_block; [done|done|by apply no_held| |].
  { right. unfold held_blocks. by rewrite Hh, map_img_empty_L, union_empty_r_L. }
  intros i t1 Hi R1. eapply fs_seq; [apply (drop_block lo n P t1 c i b); [apply Hrd|apply Hrd|done|done]|].
  intros [] t' Hrd'. apply Hf. by split.
Qed.

(** [bmap] of a block the file has. *)
Lemma bmap_mapped t c x bn :
  opened t c x -> Z.of_nat (base.size (pinned c)) < NBUF -> 0 <= bn < MAXFILE -> ptr (view c) x bn <> 0 ->
  chl on_disk (bmap ip bn (st x t)) (fun a s' => a = ptr (view c) x bn /\ exists t', s' = st x t' /\ opened t' c x).
Proof.
  intros Hop Hcap Hbn Hp. unfold bmap. apply fs_get_inode; [done|].
  rewrite (fo_dev _ _ _ (op_file _ _ _ _ _ _ _ Hop)).
  unfold ptr in Hp |- *. change NDIRECT with 12 in *. change NINDIRECT with 128. change MAXFILE with 140 in *. destruct (Z.ltb_spec bn 12).
  - destruct (Z.eqb_spec (default 0 (zlookup (i_addrs x) bn)) 0); [done|]. cstep. eauto.
  - destruct (Z.ltb_spec bn 140); [|lia]. destruct (Z.ltb_spec (bn - 12) 128); [|lia]. change 12 with NDIRECT.
    fold (ind x). destruct (Z.eqb_spec (ind x) 0) as [|Hi]; [done|].
    cstep. cstep. pose proof (fo_ind _ _ _ (op_file _ _ _ _ _ _ _ Hop) Hi) as Hdb.
    destruct (file_block _ _ _ _ Hop Hdb) as (Hd & _). destruct Hop as [Hrd Hvo Hh FO].
    eapply get_block; [done|done|by apply no_held| |].
    { right. unfold held_blocks. by rewrite Hh, map_img_empty_L, union_empty_r_L. }
    intros i t1 Hi1 R1. destruct (Z.eqb_spec (get32 (blk (view c) (ind x)) (4 * (bn - NDIRECT))) 0); [done|].
    cstep. cstep. eapply fs_seq; [apply (drop_block lo n P t1 c i (ind x)); [apply Hrd|apply Hrd|done|done]|].
    intros [] t' Hrd'. cstep. split; [done|]. exists t'. split; [done|]. by split.
Qed.

(** The loop of [readi]. *)
Lemma readi_loop_spec fuel t c x off m :
  opened t c x -> Z.of_nat (base.size (pinned c)) < NBUF -> 0 <= off -> off + m <= MAXFILE * BSIZE -> m <= Z.of_nat fuel ->
  (forall k, 0 <= k -> k * BSIZE < off + m -> off < (k + 1) * BSIZE -> ptr (view c) x k <> 0) ->
  chl on_disk (readi_loop fuel ip off m (st x t)) (fun bs s' => bs = fbytes (view c) x off m /\ exists t', s' = st x t' /\ opened t' c x).
Proof.
  change (MAXFILE * BSIZE) with 71680. change BSIZE with 512.
  revert t off m. induction fuel as [|fuel IH]; intros t off m Hop Hcap Ho Hm Hf Hp.
  { cbn [readi_loop]. destruct (Z.ltb_spec 0 m); [lia|]. cstep. rewrite fbytes_nil by done. eauto. }
  cbn [readi_loop]. destruct (Z.ltb_spec 0 m); [|cstep; rewrite fbytes_nil by done; eauto].
  change BSIZE with 512. pose proof (Z.mod_pos_bound off 512 ltac:(lia)) as Hmod. pose proof (Z.div_mod off 512 ltac:(lia)) as Hdm.
  assert (0 <= off / 512 < MAXFILE) as Hk.
  { change MAXFILE with 140. split; [apply Z.div_pos; lia|apply Z.div_lt_upper_bound; lia]. }
  assert (ptr (view c) x (off / 512) <> 0) as Hne by (apply Hp; lia).
  apply fs_get_inode; [done|]. rewrite (fo_dev _ _ _ (op_file _ _ _ _ _ _ _ Hop)).
  eapply chl_seq; [by apply bmap_mapped|]. intros a s1 (-> & t1 & -> & Hop1).
  set (w := Z.min m (512 - off mod 512)).
  destruct (fo_ptr _ _ _ (op_file _ _ _ _ _ _ _ Hop) _ Hk Hne) as [Hdb _].
  destruct (file_block _ _ _ _ Hop Hdb) as (_ & Hlen & _).
  eapply file_read; [done..|]. intros t2 Hop2. rewrite u32_small by lia.
  eapply chl_seq; [apply IH; [done|done|lia|lia|lia|intros k ? ? ?; apply Hp; lia]|].
  intros bs s3 (-> & t3 & -> & Hop3). cstep. split; [|eauto].
  replace m with (w + (m - w)) at 2 by lia. rewrite fbytes_app by lia. f_equal.
  apply (slice_fbytes (view c) x off w); change BSIZE with 512; try done; lia.
Qed.

(** The bytes [src] were written at [off]. *)
Record written (off : Z) (src : list Z) (c : cache) (x : inode) (c' : cache) (x' : inode) : Prop := {
  wr_dsk : dsk c' = dsk c;
  wr_same : same_inode x x';
  wr_byte : forall o, 0 <= o -> o / BSIZE < MAXFILE -> fbyte (view c') x' o =
    if (off <=? o) && (o <? off + Z.of_nat (length src)) then default 0 (src !! Z.to_nat (o - off)) else fbyte (view c) x o;
  wr_ptr : forall j, 0 <= j < MAXFILE -> ptr (view c) x j <> 0 -> ptr (view c') x' j = ptr (view c) x j;
  wr_new : forall k, in_range off (Z.of_nat (length src)) k -> ptr (view c') x' k <> 0;
  wr_frame : frame y (view c) x (view c') x';
  wr_old : (forall k, in_range off (Z.of_nat (length src)) k -> ptr (view c) x k <> 0) -> x' = x
}.

Lemma written_nil off c x : written off [] c x c x.
Proof.
  split; try done; [apply same_inode_refl| | |apply frame_refl].
  - intros o Ho Hm. change (Z.of_nat (length (@nil Z))) with 0.
    destruct (Z.leb_spec off o), (Z.ltb_spec o (off + 0)); simpl; first [lia|done].
  - unfold in_range. simpl. intros k Hk. exfalso. lia.
Qed.

(** One round: [bmap], then a piece of the block is replaced. *)
Section round.
Context (off : Z) (src : list Z) (c : cache) (x : inode) (c1 : cache) (x1 : inode) (d : block).
Let m : Z := Z.of_nat (length src).
Let w : Z := Z.min m (BSIZE - off mod BSIZE).
Let a : Z := ptr (view c1) x1 (off / BSIZE).
Let d' : block := splice d (off mod BSIZE) (take (Z.to_nat w) src).
Let c2 : cache := t_put a d' c1.
Hypothesis (Ho : 0 <= off) (Hm : 0 < m) (Hmax : off + m <= MAXFILE * BSIZE).
Hypothesis (MP : mapped y c x c1 x1) (Ha : a <> 0) (FO : file_ok y (view c1) x1).
Hypothesis Hold : ptr (view c) x (off / BSIZE) <> 0 -> x1 = x.
Hypothesis (Hd : zlookup (view c1) a = Some d) (Hld : length d = 512%nat).
Hypothesis Hsz : sb_size y <= Z.of_nat (length (view c1)).

Lemma round_bounds : 0 <= off mod BSIZE < BSIZE /\ off = BSIZE * (off / BSIZE) + off mod BSIZE /\ 0 < w /\
  off mod BSIZE + w <= BSIZE /\ w <= m /\ 0 <= off / BSIZE < MAXFILE /\ (w < m -> off mod BSIZE + w = BSIZE).
Proof.
  clear - Ho Hm Hmax. unfold w. change (MAXFILE * BSIZE) with 71680 in Hmax. change BSIZE with 512.
  pose proof (Z.mod_pos_bound off 512 ltac:(lia)). pose proof (Z.div_mod off 512 ltac:(lia)).
  assert (off / 512 < MAXFILE) by (apply Z.div_lt_upper_bound; change MAXFILE with 140; lia).
  split_and!; lia.
Qed.

Lemma round_data : data_block y (view c1) a /\ a <> ind x1.
Proof. apply (fo_ptr _ _ _ FO); [apply round_bounds|done]. Qed.

Lemma round_block i : 0 <= i < BSIZE ->
  default 0 (d' !! Z.to_nat i) =
  if (off mod BSIZE <=? i) && (i <? off mod BSIZE + w) then default 0 (src !! Z.to_nat (i - off mod BSIZE))
  else default 0 (d !! Z.to_nat i).
Proof.
  destruct round_bounds as (H1 & H2 & H3 & H4 & H5 & _). intros Hi. unfold d', splice. change BSIZE with 512 in *.
  assert (length (take (Z.to_nat w) src) = Z.to_nat w) as Hl by (rewrite length_take; unfold m in *; lia).
  destruct (Z.leb_spec (off mod 512) i); [destruct (Z.ltb_spec i (off mod 512 + w))|]; simpl.
  - rewrite list_lookup_inserts by lia. rewrite lookup_take_lt by lia. f_equal. f_equal. lia.
  - by rewrite list_lookup_inserts_ge by lia.
  - by rewrite list_lookup_inserts_lt by lia.
Qed.

Lemma round_byte o : 0 <= o -> o / BSIZE < MAXFILE ->
  fbyte (view c2) x1 o = if (off <=? o) && (o <? off + w) then default 0 (src !! Z.to_nat (o - off)) else fbyte (view c) x o.
Proof.
  intros Hoo Hom. destruct round_bounds as (H1 & H2 & H3 & H4 & H5 & H6 & _). pose proof (map_pos lo n y LY) as Hbm.
  unfold c2. cbn [view t_put].
  rewrite (write_byte y (view c1) x1 FO (off / BSIZE) a d' H6 eq_refl Ha ltac:(lia) Hsz o Hoo Hom).
  rewrite <- (mp_byte _ _ _ _ _ MP o Hoo Hom).
  pose proof (Z.mod_pos_bound o BSIZE ltac:(done)) as Hmo. pose proof (Z.div_mod o BSIZE ltac:(done)) as Hdo.
  destruct (Z.eqb_spec (o / BSIZE) (off / BSIZE)) as [E|E].
  - rewrite round_block by done. change BSIZE with 512 in *.
    assert ((off mod 512 <=? o mod 512) && (o mod 512 <? off mod 512 + w) = (off <=? o) && (o <? off + w)) as ->.
    { destruct (Z.leb_spec (off mod 512) (o mod 512)), (Z.ltb_spec (o mod 512) (off mod 512 + w)), (Z.leb_spec off o), (Z.ltb_spec o (off + w)); simpl; first [done|lia]. }
    destruct ((off <=? o) && (o <? off + w)); [f_equal; f_equal; lia|].
    unfold fbyte. change BSIZE with 512. rewrite E. fold a. destruct (Z.eqb_spec a 0); [done|]. unfold blk. by rewrite Hd.
  - change BSIZE with 512 in *. destruct (Z.leb_spec off o), (Z.ltb_spec o (off + w)); simpl; try done.
    exfalso. apply E. symmetry. destruct (same_block off (o - off)) as [E' _]; change BSIZE with 512 in *; [lia|lia|lia|].
    rewrite <- E'. f_equal. lia.
Qed.

Lemma round_written c' x' :
  written (off + w) (drop (Z.to_nat w) src) c2 x1 c' x' -> written off src c x c' x'.
Proof.
  intros [W1 W2 W3 W4 W5 W6 W7]. destruct round_bounds as (H1 & H2 & H3 & H4 & H5 & H6 & H7). pose proof (map_pos lo n y LY) as Hbm.
  rewrite length_drop in *. replace (Z.of_nat (length src - Z.to_nat w)) with (m - w) in * by (unfold m in *; lia).
  fold m. split.
  - rewrite W1. apply (mp_dsk _ _ _ _ _ MP).
  - eapply same_inode_trans; [apply (mp_same _ _ _ _ _ MP)|done].
  - intros o Hoo Hom. rewrite W3, round_byte by done. rewrite lookup_drop. fold m.
    destruct (Z.leb_spec (off + w) o), (Z.ltb_spec o (off + w + (m - w))), (Z.leb_spec off o), (Z.ltb_spec o (off + w)), (Z.ltb_spec o (off + m)); simpl; try lia; try done.
    f_equal. f_equal. lia.
  - intros j Hj Hne. assert (ptr (view c1) x1 j = ptr (view c) x j) as E by (by apply (mp_ptr _ _ _ _ _ MP)).
    assert (ptr (view c2) x1 j = ptr (view c1) x1 j) as E2 by (by apply (write_ptr y (view c1) x1 FO (off / BSIZE) a)).
    rewrite W4; congruence.
  - fold m. intros k (Hk0 & Hk1 & Hk2 & Hk3). change BSIZE with 512 in *. destruct (decide (k = off / 512)) as [->|].
    + rewrite W4; [|done|]; cbn [view c2 t_put]; by rewrite (write_ptr y (view c1) x1 FO (off / BSIZE) a).
    + apply W5. unfold in_range. change BSIZE with 512. lia.
  - eapply frame_trans; [lia|apply (mp_frame _ _ _ _ _ MP)|]. eapply frame_trans; [lia| |exact W6].
    apply (write_frame y (view c1) x1 FO (off / BSIZE) a); try done. lia.
  - fold m. intros Hall. assert (x1 = x) as E by (apply Hold, Hall; unfold in_range; change BSIZE with 512 in *; lia).
    rewrite <- E. apply W7. intros k (Hk0 & Hk1 & Hk2 & Hk3). cbn [view c2 t_put].
    rewrite (write_ptr y (view c1) x1 FO (off / BSIZE) a) by done.
    assert (ptr (view c) x k <> 0) as Hk by (apply Hall; unfold in_range; change BSIZE with 512 in *; lia).
    rewrite (mp_ptr _ _ _ _ _ MP); [done| |done]. change (MAXFILE * BSIZE) with 71680 in *. change MAXFILE with 140. change BSIZE with 512 in *. lia.
Qed.
End round.

(** After a block of an open file was replaced. *)
Lemma opened_put t c x X r k d' :
  ready lo n P t (t_put (ptr (view c) x k) d' c) -> volume y c -> held c = ∅ -> file_ok y (view c) x ->
  0 <= k < MAXFILE -> ptr (view c) x k <> 0 -> supply c x X r -> ptr (view c) x k ∈ X ->
  opened t (t_put (ptr (view c) x k) d' c) x /\ supply (t_put (ptr (view c) x k) d' c) x X r.
Proof.
  intros Hrd Hvo Hh FO Hk Hne [Hb Hroom Hfree Hi] Hin. pose proof (map_pos lo n y LY).
  destruct (fo_ptr _ _ _ FO k Hk Hne) as [[Hr _] _]. split; split; try done.
  - destruct Hvo as [Hs Hm]. split; [done|]. intros j Hj. cbn [view t_put]. rewrite used_other by lia. by apply Hm.
  - apply (write_ok y (view c) x FO k); first [done|lia].
  - by apply (budget_put lo n y LY).
  - cbn [view t_put]. by rewrite frees_other by lia.
Qed.

Lemma writei_loop_spec fuel t c x X r src off :
  let m := Z.of_nat (length src) in
  opened t c x -> supply c x X (r + nblk off m) -> 0 <= r -> 0 <= off -> off + m <= MAXFILE * BSIZE -> (length src <= fuel)%nat ->
  chl on_disk (writei_loop fuel ip src off (st x t)) (fun off' s' => off' = off + m /\
    exists t' c' x' X', s' = st x' t' /\ opened t' c' x' /\ written off src c x c' x' /\ supply c' x' X' r /\ X ⊆ X').
Proof.
  revert t c x X src off. induction fuel as [|fuel IH]; intros t c x X src off m Hop Hsu Hr Ho Hmax Hf.
  { cbn [writei_loop]. fold m. destruct src; [|simpl in Hf; lia]. destruct (Z.ltb_spec 0 m); [done|]. cstep.
    split; [unfold m; simpl; lia|]. exists t, c, x, X. split_and!; [done|done|apply written_nil| |done]. unfold nblk in Hsu. simpl in Hsu. by rewrite Z.add_0_r in Hsu. }
  cbn [writei_loop]. fold m. destruct (Z.ltb_spec 0 m) as [Hm|Hm].
  2: { cstep. assert (m = 0) as Em by lia. destruct src; [|done]. split; [lia|]. exists t, c, x, X.
       split_and!; [done|done|apply written_nil| |done]. unfold nblk in Hsu. simpl in Hsu. by rewrite Z.add_0_r in Hsu. }
  apply fs_get_inode; [done|]. rewrite (fo_dev _ _ _ (op_file _ _ _ _ _ _ _ Hop)).
  set (w := Z.min m (BSIZE - off mod BSIZE)).
  rewrite (nblk_step off m w Ho Hm eq_refl) in Hsu. pose proof (nblk_nonneg (off + w) (m - w)) as Hnn.
  destruct (round_bounds off src Ho Hm Hmax) as (B1 & B2 & B3 & B4 & B5 & B6 & B7). fold m w in B3, B4, B5, B7.
  eapply chl_seq.
  { apply (bmap_spec lo n P y LY ic ip Hip t c x X (r + nblk (off + w) (m - w))); [lia|done| |done].
    by replace (r + nblk (off + w) (m - w) + 1) with (r + (nblk (off + w) (m - w) + 1)) by lia. }
  intros a s1 (t1 & c1 & x1 & X1 & -> & Hop1 & MP & Ea & Ha & Hsu1 & HX1 & Hin & Hold). subst a.
  destruct (fo_ptr _ _ _ (op_file _ _ _ _ _ _ _ Hop1) _ B6 Ha) as [Hdb _].
  destruct (file_block _ _ _ _ Hop1 Hdb) as (Hd & Hld & Hrng). destruct Hop1 as [Hrd1 Hvo1 Hh1 FO1].
  pose proof (bu_pinned lo n y LY _ _ (su_budget _ _ _ _ _ _ Hsu1)). pose proof (su_room _ _ _ _ _ _ Hsu1).
  pose proof (need_pos x1 (r + nblk (off + w) (m - w)) ltac:(lia)).
  eapply get_block; [done|done|by apply no_held|right; by eapply bu_cap; [|apply Hsu1]|]. intros i t2 Hi R2.
  eapply put_block; [apply Hrd1|apply Hrd1|done|exact R2|by rewrite length_splice| |done|lia|].
  { apply (home_data lo n y LY). destruct Hdb. lia. }
  intros t3 Hrd3. rewrite u32_small by (change (MAXFILE * BSIZE) with 71680 in Hmax; lia).
  destruct (opened_put t3 c1 x1 X1 (r + nblk (off + w) (m - w)) (off / BSIZE) _ Hrd3 Hvo1 Hh1 FO1 B6 Ha Hsu1 Hin) as [Hop3 Hsu3].
  assert (Z.of_nat (length (drop (Z.to_nat w) src)) = m - w) as El by (rewrite length_drop; unfold m in *; lia).
  eapply chl_conseq.
  { eapply IH; [exact Hop3|rewrite El; exact Hsu3|done|lia|rewrite El; lia|lia]. }
  intros off' s' (-> & t' & c' & x' & X' & -> & Hop' & W' & Hsu' & HX'). rewrite El. split; [lia|].
  exists t', c', x', X'. split_and!; [done|done| |done|set_solver].
  destruct (trep_sizes _ _ _ _ (rd_rep _ _ _ _ _ Hrd1)) as (_ & Hlen & _). pose proof (vo_size _ _ Hvo1).
  eapply (round_written off src c x c1 x1 (blk (view c1) (ptr (view c1) x1 (off / BSIZE)))); try done. lia.
Qed.

End fs.
