(* ===== verification/FsInode.v ===== *)
(** Inodes on disk, and files as a whole: [iupdate], [readi] and [writei] of fs.c.

    [file_rep] relates a cached inode to the blocks: the inode on disk is the cached one, and every
    block below the size is there.  [contents] is the file as a list of bytes. *)

From Stdlib Require Import ZArith Lia.
From stdpp Require Import base tactics option gmap sets strings numbers list.
From S2P Require Import Prelude Layout Bytes Crash CString Bio Cache FsFormat Tx Fs FsBlocks FsFile FsMap FsRw.
Open Scope Z_scope.

(** * The bytes of an inode *)

Record dinode_ok (x : dinode) : Prop := {
  do_short : Forall (fun v => - 2 ^ 15 <= v < 2 ^ 15) [di_type x; di_major x; di_minor x; di_nlink x];
  do_size : 0 <= di_size x < 2 ^ 32;
  do_len : length (di_addrs x) = 13%nat;
  do_addrs : Forall (fun a => 0 <= a < 2 ^ 32) (di_addrs x)
}.

Definition words (l : list Z) : list Z := mjoin (le_enc 4 <$> l).
Lemma words_cons a l : words (a :: l) = le_enc 4 a ++ words l.
Proof. done. Qed.
Lemma length_words l : length (words l) = (4 * length l)%nat.
Proof. induction l as [|a l IH]; [done|]. rewrite words_cons, length_app, IH, length_le_enc. simpl. lia. Qed.

Lemma slice_words l k a : l !! k = Some a -> slice (words l) (4 * Z.of_nat k) 4 = le_enc 4 a.
Proof.
  revert k. induction l as [|b l IH]; intros [|k] Hk; try done.
  - injection Hk as ->. unfold slice. change (Z.to_nat (4 * Z.of_nat 0)) with 0%nat. rewrite drop_0, words_cons.
    rewrite take_app_le by (rewrite length_le_enc; lia). apply take_ge. by rewrite length_le_enc.
  - rewrite <- (IH k Hk). unfold slice. replace (Z.to_nat (4 * Z.of_nat (S k))) with (length (le_enc 4 b) + Z.to_nat (4 * Z.of_nat k))%nat by (rewrite length_le_enc; lia).
    by rewrite words_cons, drop_app_add.
Qed.

Lemma slice_app_r (a b : list Z) o m : Z.of_nat (length a) <= o -> slice (a ++ b) o m = slice b (o - Z.of_nat (length a)) m.
Proof.
  intros. unfold slice. rewrite drop_app_ge by lia. f_equal. f_equal. lia.
Qed.

Lemma dinode_split x : dinode_bytes x =
  (le_enc 2 (di_type x) ++ le_enc 2 (di_major x) ++ le_enc 2 (di_minor x) ++ le_enc 2 (di_nlink x) ++ le_enc 4 (di_size x)) ++ words (di_addrs x).
Proof. unfold dinode_bytes. by rewrite <- !app_assoc. Qed.
Lemma length_dinode_bytes x : dinode_ok x -> length (dinode_bytes x) = 64%nat.
Proof. intros D. rewrite dinode_split, !length_app, !length_le_enc, length_words, (do_len _ D). done. Qed.

Lemma s16_enc v : - 2 ^ 15 <= v < 2 ^ 15 -> s16 (le_dec (le_enc 2 v)) = v.
Proof.
  intros Hv. rewrite le_dec_enc. change (8 * Z.of_nat 2) with 16. unfold s16.
  rewrite Zplus_mod_idemp_l. rewrite Z.mod_small; lia.
Qed.

(** Writing an inode and reading it back. *)
Lemma dinode_roundtrip d o x :
  dinode_ok x -> 0 <= o -> o + 64 <= Z.of_nat (length d) -> dinode_of (splice d o (dinode_bytes x)) o = x.
Proof.
  intros D Ho Hd. pose proof (length_dinode_bytes x D) as Hl.
  assert (forall k m, 0 <= k -> 0 <= m -> k + m <= 64 -> slice (splice d o (dinode_bytes x)) (o + k) m = slice (dinode_bytes x) k m) as Hs.
  { intros k m Hk Hm Hkm. rewrite slice_splice_inside by lia. f_equal. lia. }
  destruct D as [Hsh Hsz Hlen Had]. destruct x as [ty ma mi nl sz ad]. cbn [di_type di_major di_minor di_nlink di_size di_addrs] in *.
  rewrite !Forall_cons in Hsh. destruct Hsh as (H1 & H2 & H3 & H4 & _).
  assert (slice (dinode_bytes (mkDinode ty ma mi nl sz ad)) 0 2 = le_enc 2 ty) as E1 by reflexivity.
  assert (slice (dinode_bytes (mkDinode ty ma mi nl sz ad)) 2 2 = le_enc 2 ma) as E2 by reflexivity.
  assert (slice (dinode_bytes (mkDinode ty ma mi nl sz ad)) 4 2 = le_enc 2 mi) as E3 by reflexivity.
  assert (slice (dinode_bytes (mkDinode ty ma mi nl sz ad)) 6 2 = le_enc 2 nl) as E4 by reflexivity.
  assert (slice (dinode_bytes (mkDinode ty ma mi nl sz ad)) 8 4 = le_enc 4 sz) as E5 by reflexivity.
  unfold dinode_of, get16, get32. pose proof (Hs 0 2) as E0. rewrite Z.add_0_r in E0.
  rewrite E0, (Hs 2 2), (Hs 4 2), (Hs 6 2), (Hs 8 4), E1, E2, E3, E4, E5, !s16_enc by lia.
  rewrite (le_dec_enc 4), Z.mod_small by (change (8 * Z.of_nat 4) with 32; lia). f_equal.
  apply list_eq. intros k. rewrite list_lookup_fmap. destruct (decide (k < 13)%nat) as [Hk|Hk].
  - rewrite lookup_seq_lt by done. cbn [fmap option_fmap option_map Nat.add].
    destruct (lookup_lt_is_Some_2 ad k) as [a Ha]; [lia|]. rewrite Ha. f_equal.
    rewrite <- Z.add_assoc, Hs by lia.
    replace (12 + 4 * Z.of_nat k) with (4 * Z.of_nat k + 12) by lia.
    rewrite dinode_split; cbn [di_type di_major di_minor di_nlink di_size di_addrs].
    rewrite slice_app_r by (rewrite !length_app, !length_le_enc; lia).
    rewrite !length_app, !length_le_enc. replace (_ - _) with (4 * Z.of_nat k) by lia.
    rewrite (slice_words ad k a Ha), (le_dec_enc 4). rewrite Forall_lookup in Had. apply Z.mod_small. by apply Had in Ha.
  - rewrite lookup_seq_ge by lia. symmetry. apply lookup_ge_None_2. lia.
Qed.

(** Writing an inode leaves the others of its block. *)
Lemma dinode_of_splice_other d o bs o' :
  0 <= o -> 0 <= o' -> o' + 64 <= o \/ o + Z.of_nat (length bs) <= o' -> dinode_of (splice d o bs) o' = dinode_of d o'.
Proof.
  intros Ho Ho' Hd. assert (forall k m, 0 <= k -> 0 <= m -> k + m <= 64 -> slice (splice d o bs) (o' + k) m = slice d (o' + k) m) as Hs.
  { intros k m Hk Hm Hkm. apply slice_splice_ne; lia. }
  unfold dinode_of, get16, get32. pose proof (Hs 0 2) as E0. rewrite Z.add_0_r in E0. rewrite E0, (Hs 2 2), (Hs 4 2), (Hs 6 2), (Hs 8 4) by lia. f_equal.
  apply list_fmap_ext. intros i k Hk%lookup_seq. rewrite <- Z.add_assoc, Hs by lia. done.
Qed.

(** * Files *)

(** The inode of number [k] among the blocks [v]. *)
Definition disk_inode (y : superblock) (v : list block) (k : Z) : dinode :=
  dinode_of (blk v (IBLOCK k y)) (k mod IPB * DINODE_SIZE).

Record file_rep (y : superblock) (v : list block) (x : inode) : Prop := {
  fi_ok : file_ok y v x;
  fi_num : 0 <= i_num x < sb_ninodes y;
  fi_fits : dinode_ok (to_dinode x);
  fi_disk : disk_inode y v (i_num x) = to_dinode x;
  fi_size : 0 <= i_size x <= MAXFILE * BSIZE;
  fi_mapped : forall k, 0 <= k -> k * BSIZE < i_size x -> ptr v x k <> 0;
  fi_type : i_type x <> T_DEV
}.

Definition contents (v : list block) (x : inode) : list Z := fbytes v x 0 (i_size x).

Lemma length_file_contents v x : length (contents v x) = Z.to_nat (i_size x).
Proof. apply length_fbytes. Qed.
Lemma lookup_contents v x o : 0 <= o < i_size x -> contents v x !! Z.to_nat o = Some (fbyte v x o).
Proof.
  intros Ho. unfold contents, fbytes. rewrite list_lookup_fmap, lookup_seqZ_lt by lia. simpl. do 2 f_equal. lia.
Qed.
Lemma slice_contents v x off m : 0 <= off -> 0 <= m -> off + m <= i_size x -> slice (contents v x) off m = fbytes v x off m.
Proof.
  intros Ho Hm Hs. apply list_eq_same_length with (Z.to_nat m).
  { by rewrite length_fbytes. }
  { rewrite length_slice; rewrite ?length_file_contents; lia. }
  intros i a b Hi. rewrite lookup_slice by lia. replace (Z.to_nat off + i)%nat with (Z.to_nat (off + Z.of_nat i)) by lia.
  rewrite lookup_contents by lia. unfold fbytes. rewrite list_lookup_fmap, lookup_seqZ_lt by lia. simpl. congruence.
Qed.

(** A change of metadata only. *)
Section inode.
Context (lo n : Z) (y : superblock) (LY : layout lo n y) (v : list block) (x : inode).
Hypothesis Hnum : 0 <= i_num x < sb_ninodes y.
Abbreviation ib := (IBLOCK (i_num x) y).

Lemma iblock_range : lo + n <= ib < sb_bmapstart y.
Proof.
  destruct (ly_log _ _ _ LY), (ly_inodes _ _ _ LY), (ly_map _ _ _ LY). change BPB with 4096 in *.
  assert (0 <= i_num x / IPB <= (sb_ninodes y - 1) / IPB) by (split; [apply Z.div_pos; [lia|done]|apply Z.div_le_mono; [done|lia]]).
  unfold IBLOCK. rewrite u32_small; lia.
Qed.
Lemma iblock_home : home lo n ib.
Proof. pose proof iblock_range. destruct (ly_log _ _ _ LY). split; lia. Qed.
Lemma inode_offset : 0 <= i_num x mod IPB * DINODE_SIZE /\ i_num x mod IPB * DINODE_SIZE + 64 <= 512.
Proof.
  change DINODE_SIZE with 64. pose proof (Z.mod_pos_bound (i_num x) IPB ltac:(done)). change IPB with 8 in *. lia.
Qed.

(** Blocks of files are not inode blocks. *)
Lemma meta_same d' :
  (forall j, (ind x <> 0 -> data_block y v (ind x)) -> ptr (zinsert ib d' v) x j = ptr v x j) /\
  (forall b, used y (zinsert ib d' v) b = used y v b).
Proof.
  pose proof iblock_range. split.
  - intros j Hi. unfold ptr. destruct (j <? NDIRECT); [done|]. destruct (j <? MAXFILE); [|done].
    destruct (Z.eqb_spec (ind x) 0); [done|]. unfold blk. destruct (Hi ltac:(done)) as [? _].
    by rewrite zlookup_zinsert_ne by lia.
  - intros b. apply used_other. lia.
Qed.
Lemma meta_ok d' : file_ok y v x -> file_ok y (zinsert ib d' v) x.
Proof.
  intros [H1 H2 H3 H4 H5]. destruct (meta_same d') as [Hp Hu].
  assert (forall b, data_block y v b -> data_block y (zinsert ib d' v) b) as Hd by (intros b [? ?]; split; by rewrite ?Hu).
  split; [done|done| |auto|].
  - intros k Hk. rewrite Hp by done. intros Hne. destruct (H3 k Hk Hne). auto.
  - intros j k Hj Hk. rewrite !Hp by done. auto.
Qed.
Lemma meta_byte d' o : file_ok y v x -> 0 <= o -> o / BSIZE < MAXFILE -> fbyte (zinsert ib d' v) x o = fbyte v x o.
Proof.
  intros FO Ho Hm. destruct (meta_same d') as [Hp Hu]. unfold fbyte. rewrite Hp by apply (fo_ind _ _ _ FO).
  destruct (Z.eqb_spec (ptr v x (o / BSIZE)) 0); [done|]. pose proof iblock_range.
  assert (0 <= o / BSIZE < MAXFILE) as Hr by (split; [by apply Z.div_pos|done]).
  destruct (fo_ptr _ _ _ FO _ Hr ltac:(done)) as [[? _] _]. unfold blk. by rewrite zlookup_zinsert_ne by lia.
Qed.
End inode.

(** The other inodes, when one is written. *)
Lemma other_inodes lo n y v x k d' :
  layout lo n y -> 0 <= i_num x < sb_ninodes y -> 0 <= k < sb_ninodes y -> k <> i_num x -> length d' = 64%nat ->
  disk_inode y (zinsert (IBLOCK (i_num x) y) (splice (blk v (IBLOCK (i_num x) y)) (i_num x mod IPB * DINODE_SIZE) d') v) k = disk_inode y v k.
Proof.
  intros LY Hx Hk Hne Hl. set (ib := IBLOCK (i_num x) y). unfold disk_inode. destruct (decide (IBLOCK k y = ib)) as [E|E].
  2: { unfold blk at 1. rewrite zlookup_zinsert_ne by done. done. }
  pose proof (iblock_range lo n y LY x Hx) as Hib. fold ib in Hib. rewrite E. unfold blk at 1.
  destruct (decide (ib < Z.of_nat (length v))) as [Hlt|Hge].
  - destruct (ly_log _ _ _ LY). rewrite zlookup_zinsert_eq by lia. cbn [default from_option id].
    assert (i_num x / IPB = k / IPB) as Eq.
    { destruct (ly_inodes _ _ _ LY), (ly_map _ _ _ LY). change BPB with 4096 in *. pose proof (Z.div_le_mono k (sb_ninodes y - 1) IPB ltac:(done) ltac:(lia)).
      pose proof (Z.div_le_mono (i_num x) (sb_ninodes y - 1) IPB ltac:(done) ltac:(lia)). pose proof (Z.div_pos k IPB ltac:(lia) ltac:(done)). pose proof (Z.div_pos (i_num x) IPB ltac:(lia) ltac:(done)).
      unfold ib, IBLOCK in E. rewrite !u32_small in E by lia. lia. }
    pose proof (Z.div_mod k IPB ltac:(done)). pose proof (Z.div_mod (i_num x) IPB ltac:(done)). pose proof (Z.mod_pos_bound k IPB ltac:(done)). pose proof (Z.mod_pos_bound (i_num x) IPB ltac:(done)).
    change DINODE_SIZE with 64. apply dinode_of_splice_other; rewrite ?Hl; lia.
  - unfold zinsert. destruct (ib <? 0); [done|]. rewrite list_insert_ge by lia. done.
Qed.

(** The inode may be written to disk: its addresses are blocks of the disk. *)
Lemma file_fits y v x :
  file_ok y v x -> 0 <= sb_bmapstart y -> sb_size y <= BPB ->
  Forall (fun v => - 2 ^ 15 <= v < 2 ^ 15) [i_type x; i_major x; i_minor x; i_nlink x] -> 0 <= i_size x < 2 ^ 32 ->
  dinode_ok (to_dinode x).
Proof.
  intros FO Hbm Hs Hsh Hsz. change BPB with 4096 in Hs. split; [done|done|apply (fo_len _ _ _ FO)|].
  apply Forall_lookup. intros i a Hi. cbn [di_addrs to_dinode] in Hi. pose proof (lookup_lt_Some _ _ _ Hi) as Hl. rewrite (fo_len _ _ _ FO) in Hl.
  destruct (decide (a = 0)) as [->|Ha]; [done|]. assert (data_block y v a) as [? _]; [|lia].
  destruct (decide (i = 12)%nat) as [->|].
  - assert (ind x = a) as E. { unfold ind. change NDIRECT with (Z.of_nat 12). by rewrite zlookup_nat, Hi. }
    rewrite <- E. apply (fo_ind _ _ _ FO). congruence.
  - assert (ptr v x (Z.of_nat i) = a) as E.
    { unfold ptr. change NDIRECT with 12. destruct (Z.ltb_spec (Z.of_nat i) 12); [|lia]. by rewrite zlookup_nat, Hi. }
    rewrite <- E. apply (fo_ptr _ _ _ FO); [change MAXFILE with 140; lia|congruence].
Qed.

Section fs.
Context {T : Type} {TO : TxOps T} {TL : TxLaws T}.
Context (lo n : Z) (P : list block -> Prop).
Context (y : superblock) (LY : layout lo n y).
Context (ic : list inode) (ip : nat) (Hip : (ip < length ic)%nat).
Context (dr : Z -> option (nat -> Z -> M (fsstate T) (Z * list Z))) (dw : Z -> option (nat -> list Z -> M (fsstate T) Z)).
Abbreviation on_disk := (fun s : fsstate T => P (tdisk (tx s))).
Abbreviation st x t := (mkFs y (<[ip:=x]> ic) t).
Abbreviation opened := (opened lo n P y).
Abbreviation supply := (supply n y).

(** [iupdate] puts the cached inode among the blocks of the transaction. *)
Definition v_inode (v : list block) (x : inode) : block :=
  splice (blk v (IBLOCK (i_num x) y)) (i_num x mod IPB * DINODE_SIZE) (dinode_bytes (to_dinode x)).

Lemma iupdate_spec t c x X :
  opened t c x -> supply c x X 0 -> IBLOCK (i_num x) y ∈ X -> 0 <= i_num x < sb_ninodes y -> dinode_ok (to_dinode x) ->
  chl on_disk (iupdate ip (st x t)) (fun _ s' => exists t', s' = st x t' /\
    opened t' (t_put (IBLOCK (i_num x) y) (v_inode (view c) x) c) x /\
    disk_inode y (view (t_put (IBLOCK (i_num x) y) (v_inode (view c) x) c)) (i_num x) = to_dinode x).
Proof.
  intros Hop Hsu Hin Hnum Hfit. pose proof (iblock_range lo n y LY x Hnum) as Hib. set (ib := IBLOCK (i_num x) y) in *.
  destruct Hop as [Hrd Hvo Hh FO]. pose proof (vo_size _ _ Hvo). pose proof (map_pos lo n y LY). destruct (ly_log _ _ _ LY).
  destruct (trep_sizes _ _ _ _ (rd_rep _ _ _ _ _ Hrd)) as (_ & Hl & H512 & _).
  destruct (zlookup_range_Some (view c) ib) as [d Hd]; [lia|].
  assert (blk (view c) ib = d) as Eb by (unfold blk; by rewrite Hd).
  assert (length d = 512%nat) as Hld by (eapply H512, zlookup_in, Hd). destruct (inode_offset x) as [Ho1 Ho2].
  pose proof (bu_pinned lo n y LY _ _ (su_budget _ _ _ _ _ _ Hsu)). pose proof (su_room _ _ _ _ _ _ Hsu). pose proof (need_pos x 0 ltac:(lia)).
  unfold iupdate. apply fs_get_inode; [done|]. do 2 cstep. cbn [sb]. rewrite (fo_dev _ _ _ FO). fold ib.
  eapply get_block; [done|done|by apply no_held|right; by eapply bu_cap; [|apply Hsu]|]. intros i t1 Hi R1.
  apply chl_tail3. eapply put_block; [apply Hrd|apply Hrd|done|exact R1|by rewrite length_splice|by apply (iblock_home lo n y LY)|lia|lia|].
  intros t' Hrd'. cstep. exists t'. split; [done|]. unfold v_inode. fold ib. rewrite Eb. split.
  - split; [done| |done|by apply (meta_ok lo n y LY)]. destruct Hvo as [Hs Hm]. split; [done|].
    intros j Hj. cbn [view t_put]. rewrite used_other by lia. by apply Hm.
  - unfold disk_inode. fold ib. cbn [view t_put]. unfold blk. rewrite zlookup_zinsert_eq by lia.
    apply dinode_roundtrip; [done|lia|]. unfold default, from_option, id. lia.
Qed.

(** [readi] returns the bytes of the file. *)
Lemma readi_spec t c x off m :
  opened t c x -> file_rep y (view c) x -> Z.of_nat (base.size (pinned c)) < NBUF -> 0 <= off < 2 ^ 32 -> 0 <= m < 2 ^ 32 ->
  chl on_disk (readi dr ip off m (st x t)) (fun r s' =>
    r = (if (i_size x <? off) || (2 ^ 32 <=? off + m) then (-1, [])
         else let k := Z.min m (i_size x - off) in (k, slice (contents (view c) x) off k)) /\
    exists t', s' = st x t' /\ opened t' c x).
Proof.
  intros Hop [FO Hnum Hfit Hdisk Hsz Hmap Hty] Hcap Hoff Hm. change (MAXFILE * BSIZE) with 71680 in Hsz.
  unfold readi. apply fs_get_inode; [done|]. destruct (Z.eqb_spec (i_type x) T_DEV); [done|].
  destruct (Z.ltb_spec (i_size x) off) as [|Hle]; cbn [orb]; [cstep; split; [done|]; eauto|].
  destruct (Z.leb_spec (2 ^ 32) (off + m)) as [Hov|Hnov].
  { assert (u32 (off + m) = off + m - 2 ^ 32) as -> by (unfold u32; symmetry; apply Z.mod_unique_pos with 1; lia).
    destruct (Z.ltb_spec (off + m - 2 ^ 32) off); [|lia]. cstep. split; [done|]. eauto. }
  rewrite u32_small by lia. destruct (Z.ltb_spec (off + m) off); [lia|].
  set (k := if i_size x <? off + m then u32 (i_size x - off) else m).
  assert (k = Z.min m (i_size x - off)) as Ek.
  { unfold k. destruct (Z.ltb_spec (i_size x) (off + m)); [rewrite u32_small by lia|]; lia. }
  rewrite Ek. eapply chl_seq.
  { apply (readi_loop_spec lo n P y LY ic ip Hip); [done|done|lia|change (MAXFILE * BSIZE) with 71680; lia|lia|].
    intros j Hj Hj2 Hj3. apply Hmap; [done|]. lia. }
  intros bs s' (-> & t' & -> & Hop'). cstep. rewrite s32_small by lia. split; [|eauto].
  by rewrite slice_contents by lia.
Qed.

(** The file [x] after the bytes [src] were written at [off], and what else may have changed. *)
Record rewritten (off : Z) (src : list Z) (c : cache) (x : inode) (c' : cache) (x' : inode) : Prop := {
  rw_dsk : dsk c' = dsk c;
  rw_file : file_rep y (view c') x';
  rw_contents : contents (view c') x' = overwrite (contents (view c) x) off src;
  rw_num : i_num x' = i_num x;
  rw_type : i_type x' = i_type x /\ i_nlink x' = i_nlink x;
  rw_slot : i_ref x' = i_ref x /\ i_flags x' = i_flags x;
  rw_other : forall b, data_block y (view c) b -> ~ owned (view c) x b -> zlookup (view c') b = zlookup (view c) b;
  rw_meta : forall b, b < sb_bmapstart y -> b <> IBLOCK (i_num x) y -> zlookup (view c') b = zlookup (view c) b;
  rw_inodes : forall k, 0 <= k < sb_ninodes y -> k <> i_num x -> disk_inode y (view c') k = disk_inode y (view c) k;
  rw_used : forall b, 0 <= b < sb_size y -> used y (view c) b = true -> used y (view c') b = true
}.

Lemma same_inodes v v' k : 0 <= k < sb_ninodes y -> (forall b, b < sb_bmapstart y -> zlookup v' b = zlookup v b) -> disk_inode y v' k = disk_inode y v k.
Proof.
  intros Hk Hs. unfold disk_inode, blk. rewrite Hs; [done|]. pose proof (iblock_range lo n y LY (mkInode 0 k 0 0 0 0 0 0 0 []) Hk) as H. cbn [i_num] in H. lia.
Qed.

Section written.
Context (off : Z) (src : list Z) (c : cache) (x : inode) (c1 : cache) (x1 : inode).
Let m : Z := Z.of_nat (length src).
Hypothesis (FR : file_rep y (view c) x) (W : written y off src c x c1 x1) (FO1 : file_ok y (view c1) x1).
Hypothesis (Hoff : 0 <= off <= i_size x) (Hmax : off + m <= MAXFILE * BSIZE).

Lemma written_mapped k : 0 <= k -> k * BSIZE < Z.max (i_size x) (off + m) -> ptr (view c1) x1 k <> 0.
Proof.
  intros Hk Hlt. pose proof (fi_size _ _ _ FR) as Hs. change (MAXFILE * BSIZE) with 71680 in *. change BSIZE with 512 in *.
  destruct (decide (k * 512 < i_size x)) as [Hin|Hin].
  - assert (ptr (view c) x k <> 0) as Hne by (apply (fi_mapped _ _ _ FR); [done|change BSIZE with 512; lia]).
    rewrite (wr_ptr _ _ _ _ _ _ _ W); [done| |done]. change MAXFILE with 140. lia.
  - apply (wr_new _ _ _ _ _ _ _ W). unfold in_range. change BSIZE with 512. fold m. lia.
Qed.

Lemma written_contents v' x' :
  (forall o, 0 <= o -> o / BSIZE < MAXFILE -> fbyte v' x' o = fbyte (view c1) x1 o) -> i_size x' = Z.max (i_size x) (off + m) ->
  contents v' x' = overwrite (contents (view c) x) off src.
Proof.
  intros Hb Hs. pose proof (fi_size _ _ _ FR) as Hsz. change (MAXFILE * BSIZE) with 71680 in *.
  pose proof (length_file_contents (view c) x) as Hl. pose proof (length_overwrite (contents (view c) x) off src ltac:(lia)) as Hlo.
  assert (length (overwrite (contents (view c) x) off src) = Z.to_nat (i_size x')) as Hlo' by (unfold m in *; lia).
  eapply list_eq_same_length; [exact Hlo'|apply length_file_contents|].
  intros i a b Hi Ha Hb2. rewrite <- (Nat2Z.id i) in Ha, Hb2.
  assert (Z.of_nat i / BSIZE < MAXFILE) as Hd by (apply Z.div_lt_upper_bound; [done|]; change BSIZE with 512; change MAXFILE with 140; unfold m in *; lia).
  rewrite lookup_contents in Ha by lia. injection Ha as <-. rewrite Hb by (done || lia).
  rewrite (wr_byte _ _ _ _ _ _ _ W) by (done || lia). rewrite lookup_overwrite in Hb2 by lia. fold m in Hb2 |- *.
  destruct ((off <=? Z.of_nat i) && (Z.of_nat i <? off + m)) eqn:E; [by rewrite Hb2|].
  rewrite lookup_contents in Hb2; [congruence|].
  destruct (Z.leb_spec off (Z.of_nat i)), (Z.ltb_spec (Z.of_nat i) (off + m)); simpl in E; try done; unfold m in *; lia.
Qed.

Lemma written_same_size : off + m <= i_size x -> x1 = x.
Proof.
  intros Hle. apply (wr_old _ _ _ _ _ _ _ W). intros k (Hk0 & Hk1 & Hk2 & Hk3). fold m in Hk1, Hk2.
  apply (fi_mapped _ _ _ FR); [done|lia].
Qed.

(** No growth: the inode on disk is still right. *)
Lemma written_in_place : off + m <= i_size x -> rewritten off src c x c1 x1.
Proof.
  intros Hle. pose proof written_mapped as WM. pose proof (written_contents (view c1) x1) as WC.
  pose proof (written_same_size Hle) as ->. pose proof (wr_frame _ _ _ _ _ _ _ W) as F.
  pose proof (iblock_range lo n y LY x (fi_num _ _ _ FR)) as Hib. split.
  - apply (wr_dsk _ _ _ _ _ _ _ W).
  - destruct FR as [_ Hnum Hfit Hdisk Hsz Hmap Hty]. split; try done.
    + unfold disk_inode, blk. rewrite (fr_meta _ _ _ _ _ F) by lia. exact Hdisk.
    + intros k Hk Hlt. apply WM; [done|lia].
  - apply WC; [done|lia].
  - done.
  - done.
  - done.
  - apply (fr_other _ _ _ _ _ F).
  - intros b Hb _. by apply (fr_meta _ _ _ _ _ F).
  - intros k Hk _. apply same_inodes; [done|]. apply (fr_meta _ _ _ _ _ F).
  - apply (fr_used _ _ _ _ _ F).
Qed.

(** Growth: the new size and the inode block. *)
Lemma written_grown x2 :
  i_size x < off + m -> x2 = set_i_size (off + m) x1 ->
  let c2 := t_put (IBLOCK (i_num x2) y) (v_inode (view c1) x2) c1 in
  disk_inode y (view c2) (i_num x2) = to_dinode x2 -> dinode_ok (to_dinode x2) -> rewritten off src c x c2 x2.
Proof.
  intros Hgt -> c2 Hdisk Hfit. pose proof (wr_frame _ _ _ _ _ _ _ W) as F. pose proof (wr_same _ _ _ _ _ _ _ W) as Hsame.
  assert (i_num (set_i_size (off + m) x1) = i_num x) as En by (rewrite Hsame; done).
  assert (0 <= i_num (set_i_size (off + m) x1) < sb_ninodes y) as Hnum by (rewrite En; apply (fi_num _ _ _ FR)).
  pose proof (iblock_range lo n y LY _ Hnum) as Hib. rewrite En in Hib.
  assert (file_ok y (view c1) (set_i_size (off + m) x1)) as FO2 by (destruct FO1; by split).
  split.
  - apply (wr_dsk _ _ _ _ _ _ _ W).
  - split; [by apply (meta_ok lo n y LY)|done|done|done| | |].
    + cbn [i_size set_i_size]. pose proof (fi_size _ _ _ FR). lia.
    + intros k Hk Hlt. cbn [i_size set_i_size] in Hlt. cbn [view c2 t_put].
      destruct (meta_same lo n y LY (view c1) (set_i_size (off + m) x1) Hnum (v_inode (view c1) (set_i_size (off + m) x1))) as [Hp _].
      rewrite Hp by apply (fo_ind _ _ _ FO2). apply written_mapped; [done|lia].
    + rewrite Hsame. apply (fi_type _ _ _ FR).
  - apply written_contents; [|cbn [i_size set_i_size]; lia]. intros o Ho Hom.
    by apply (meta_byte lo n y LY (view c1) (set_i_size (off + m) x1)).
  - done.
  - rewrite Hsame. done.
  - rewrite Hsame. done.
  - intros b Hb Hno. cbn [view c2 t_put]. rewrite En. destruct Hb as [Hb Hu]. rewrite zlookup_zinsert_ne by lia. by apply (fr_other _ _ _ _ _ F).
  - intros b Hb Hne. cbn [view c2 t_put]. rewrite En, zlookup_zinsert_ne by done. by apply (fr_meta _ _ _ _ _ F).
  - intros k Hk Hne. cbn [view c2 t_put]. transitivity (disk_inode y (view c1) k); [|apply same_inodes; [done|apply (fr_meta _ _ _ _ _ F)]].
    apply (other_inodes lo n); [done|done|done|by rewrite En|by apply length_dinode_bytes].
  - intros b Hb Hu. cbn [view c2 t_put]. rewrite En, used_other by lia. by apply (fr_used _ _ _ _ _ F).
Qed.
End written.

Lemma pinned_cap c X : budget n y c X -> Z.of_nat (base.size (pinned c)) < NBUF.
Proof.
  intros Hb. pose proof (bu_pinned lo n y LY _ _ Hb). pose proof (bu_size _ _ _ _ Hb) as Hl.
  unfold limit in Hl. change LOGSIZE with 30 in Hl. change NBUF with 30. lia.
Qed.

(** [writei] of bytes that fit. *)
Lemma writei_spec t c x X src off :
  let m := Z.of_nat (length src) in
  opened t c x -> file_rep y (view c) x -> supply c x X (nblk off m) -> IBLOCK (i_num x) y ∈ X ->
  0 <= off <= i_size x -> off + m <= MAXFILE * BSIZE ->
  chl on_disk (writei dw ip src off (st x t)) (fun r s' => r = m /\
    exists t' c' x', s' = st x' t' /\ opened t' c' x' /\ rewritten off src c x c' x' /\
      Z.of_nat (base.size (pinned c')) < NBUF).
Proof.
  intros m Hop FR Hsu Hin Hoff Hmax. pose proof (fi_size _ _ _ FR) as Hsz.
  unfold writei. fold m. apply fs_get_inode; [done|]. destruct (Z.eqb_spec (i_type x) T_DEV); [by destruct (fi_type _ _ _ FR)|].
  rewrite u32_small by (change (MAXFILE * BSIZE) with 71680 in *; lia).
  destruct (Z.ltb_spec (i_size x) off); [lia|]. destruct (Z.ltb_spec (off + m) off); [lia|]. cbn [orb].
  destruct (Z.ltb_spec (MAXFILE * BSIZE) (off + m)); [lia|].
  eapply chl_seq.
  { apply (writei_loop_spec lo n P y LY ic ip Hip (length src) t c x X 0 src off); [done|by rewrite Z.add_0_l|done|lia|done|done]. }
  intros off' s1 (-> & t1 & c1 & x1 & X1 & -> & Hop1 & W & Hsu1 & HX). fold m in W |- *.
  apply fs_get_inode; [done|]. pose proof (wr_same _ _ _ _ _ _ _ W) as Hsame.
  assert (i_size x1 = i_size x) as Es by (rewrite Hsame; done). rewrite Es.
  pose proof (op_file _ _ _ _ _ _ _ Hop1) as FO1. rewrite s32_small by (change (MAXFILE * BSIZE) with 71680 in *; lia).
  destruct (Z.ltb_spec 0 m) as [Hm|Hm]; cbn [andb when]; [destruct (Z.ltb_spec (i_size x) (off + m)) as [Hgt|Hle]; cbn [when]|].
  all: pose proof (su_budget _ _ _ _ _ _ Hsu1) as Hb1.
  2: { do 3 cstep. split; [done|]. exists t1, c1, x1. split_and!; [done|done|by apply written_in_place|by apply (pinned_cap _ X1)]. }
  2: { do 3 cstep. split; [done|]. exists t1, c1, x1. split_and!; [done|done| |by apply (pinned_cap _ X1)].
       apply written_in_place; [done..|]. fold m. lia. }
  cstep. apply fs_upd_inode.
  set (x2 := set_i_size (off + m) x1).
  assert (i_num x2 = i_num x) as En by (unfold x2; rewrite Hsame; done).
  assert (opened t1 c1 x2) as Hop2. { destruct Hop1 as [? ? ? FO]. split; [done..|]. by destruct FO; split. }
  assert (dinode_ok (to_dinode x2)) as Hfit.
  { eapply file_fits; [apply Hop2|pose proof (map_pos lo n y LY); lia|apply (ly_map _ _ _ LY)| |].
    - unfold x2. rewrite Hsame. apply (do_short _ (fi_fits _ _ _ FR)).
    - cbn [i_size x2 set_i_size]. change (MAXFILE * BSIZE) with 71680 in *. lia. }
  eapply chl_conseq.
  { apply (iupdate_spec t1 c1 x2 X1); [done|by destruct Hsu1; split|rewrite En; set_solver|rewrite En; apply (fi_num _ _ _ FR)|done]. }
  intros [] s2 (t2 & -> & Hop3 & Hdisk). cstep. split; [done|]. eexists t2, _, x2. split; [done|]. split; [exact Hop3|].
  split; [by apply (written_grown off src c x c1 x1)|]. apply (pinned_cap _ X1), (budget_put lo n y LY); [done|]. rewrite En. set_solver.
Qed.

Lemma slice_overwrite l off src :
  0 <= off <= Z.of_nat (length l) -> slice (overwrite l off src) off (Z.of_nat (length src)) = src.
Proof.
  intros Ho. unfold slice, overwrite. rewrite drop_app_length' by (rewrite length_take; lia). rewrite Nat2Z.id.
  by rewrite take_app_length.
Qed.

(** C31. Reading back what was written.  On a file whose inode and blocks are in order, with room
    in the transaction and on the disk, [writei] at any offset up to the end of the file returns
    the number of bytes; the file then holds the bytes in place of the old ones, extended if they
    go beyond the end - through the direct or the indirect blocks, allocating what is missing - its
    inode on disk agrees, no other inode - those in the same block included - no block of another file and no other block before
    the free map has changed, the map has lost no bit, and [readi] at the offset returns exactly these bytes. *)
Theorem writei_readi_roundtrip t c x X src off :
  let m := Z.of_nat (length src) in
  opened t c x -> file_rep y (view c) x -> supply c x X (nblk off m) -> IBLOCK (i_num x) y ∈ X ->
  0 <= off <= i_size x -> off + m <= MAXFILE * BSIZE ->
  exists t1 c1 x1, run (writei dw ip src off (st x t)) = ROk m (st x1 t1) /\ rewritten off src c x c1 x1 /\
    exists t2, run (readi dr ip off m (st x1 t1)) = ROk (m, src) (st x1 t2) /\ opened t2 c1 x1.
Proof.
  intros m Hop FR Hsu Hin Hoff Hmax.
  pose proof (writei_spec t c x X src off Hop FR Hsu Hin Hoff Hmax) as (r & s1 & Hr1 & -> & t1 & c1 & x1 & -> & Hop1 & RW & Hcap)%chl_run.
  exists t1, c1, x1. split; [done|]. split; [done|]. pose proof (rw_file _ _ _ _ _ _ RW) as FR1.
  pose proof (fi_size _ _ _ FR) as Hs. change (MAXFILE * BSIZE) with 71680 in *.
  pose proof (length_file_contents (view c) x) as Hlc.
  pose proof (length_overwrite (contents (view c) x) off src ltac:(lia)) as Hl. rewrite <- (rw_contents _ _ _ _ _ _ RW), length_file_contents, Hlc in Hl.
  pose proof (fi_size _ _ _ FR1) as Hs1. fold m in Hl.
  pose proof (readi_spec t1 c1 x1 off m Hop1 FR1 Hcap ltac:(lia) ltac:(lia)) as (r & s2 & Hr2 & -> & t2 & -> & Hop2)%chl_run.
  exists t2. split; [|done]. rewrite Hr2. destruct (Z.ltb_spec (i_size x1) off); [lia|]. destruct (Z.leb_spec (2 ^ 32) (off + m)); [lia|].
  cbn [orb]. replace (Z.min m (i_size x1 - off)) with m by lia. rewrite (rw_contents _ _ _ _ _ _ RW), slice_overwrite by lia. done.
Qed.
End fs.
