(* ===== verification/FsSafe.v ===== *)
(** A write to a file as a whole: log, cache and file system together.

    [write_op] is what [filewrite] does with an inode, piece by piece: [begin_op], [ilock],
    [writei], [iunlock], [end_op].  The theorems put the layers together: what the file holds on disk after a crash at
    any point of the operation and recovery. *)

From Stdlib Require Import ZArith Lia.
From stdpp Require Import base tactics option gmap sets strings numbers list.
From S2P Require Import Prelude Layout Bytes Crash CString Bio BioCache Cache Memide FsFormat Log LogFacts LogSafe Tx TxLog Fs FsBlocks FsFile FsMap FsRw FsInode.
Open Scope Z_scope.

(** The inode of number [k] as the disk has it, and the file it describes. *)
Definition disk_file (y : superblock) (d : list block) (k : Z) : inode :=
  of_dinode (disk_inode y d k) (mkInode ROOTDEV k 0 0 0 0 0 0 0 []).
Definition file_at (y : superblock) (d : list block) (k : Z) : list Z := contents d (disk_file y d k).

(** A file is where its cached inode says, also on a disk that differs in the log area. *)
Lemma file_at_rep lo n y v x d :
  layout lo n y -> file_rep y v x -> same_outside lo (lo + n) d v -> file_at y d (i_num x) = contents v x.
Proof.
  intros LY FR [_ Hs]. pose proof (iblock_range lo n y LY x (fi_num _ _ _ FR)) as Hib. pose proof (map_pos lo n y LY).
  assert (disk_inode y d (i_num x) = to_dinode x) as Ed.
  { rewrite <- (fi_disk _ _ _ FR). unfold disk_inode, blk. by rewrite Hs by lia. }
  destruct FR as [FO Hnum _ _ Hsz Hmap _]. destruct (ly_log _ _ _ LY), (ly_inodes _ _ _ LY).
  pose proof (Z.div_pos (sb_ninodes y - 1) IPB ltac:(lia) ltac:(done)).
  assert (forall b, data_block y v b -> zlookup d b = zlookup v b) as Hd by (intros b [? _]; apply Hs; lia).
  unfold file_at, disk_file, contents. rewrite Ed. cbn [of_dinode to_dinode i_size di_size].
  unfold fbytes. apply list_fmap_ext. intros i o [Ho Hi]%lookup_seqZ. rewrite Z.add_0_l in Ho. subst o.
  set (x' := of_dinode _ _).
  assert (forall k, ptr d x' k = ptr v x k) as Hp.
  { intros k. unfold ptr. change (i_addrs x') with (i_addrs x). change (ind x') with (ind x).
    destruct (k <? NDIRECT); [done|]. destruct (k <? MAXFILE); [|done]. destruct (Z.eqb_spec (ind x) 0); [done|].
    unfold blk. rewrite Hd; [done|]. by apply (fo_ind _ _ _ FO). }
  unfold fbyte. rewrite Hp. destruct (Z.eqb_spec (ptr v x (Z.of_nat i / BSIZE)) 0); [done|].
  unfold blk. rewrite Hd; [done|]. apply (fo_ptr _ _ _ FO); [|done]. change (MAXFILE * BSIZE) with 71680 in Hsz.
  change BSIZE with 512. change MAXFILE with 140. split; [apply Z.div_pos; lia|apply Z.div_lt_upper_bound; lia].
Qed.

Section end_op.
Context {B : Type} {BO : BlockOps B} {BL : BlockLaws B}.

Lemma committed_atomic l c bns b s' :
  crep b c -> txn l c bns -> committed l (view c) s' -> atomic l (dsk c) (view c) (diskof (lb s')).
Proof.
  intros R T (c' & R' & Hq & Hp & Hl & Hs & h & Hh & Hn). rewrite (crep_disk _ _ R').
  pose proof (t_start _ _ _ T) as Hst. pose proof (t_end _ _ _ T) as He. pose proof (t_room _ _ _ T) as [Hr1 _].
  pose proof (t_n _ _ _ T) as Htn. destruct (crep_sizes _ _ R) as [Hlv _].
  assert (logged (start l) (dsk c') = []) as Hlog by (unfold logged; rewrite Hh, Hn; done).
  split; [|right; by rewrite (replay_empty _ _ h) by (done || lia)].
  destruct Hs as [Hlen Hs]. split.
  - rewrite Hs by lia. assert (zlookup (view c) 1 = zlookup (dsk c) 1) as ->; [|apply (t_sb _ _ _ T)].
    eapply crep_clean; [done| |].
    + rewrite (t_pinned _ _ _ T). intros (_ & _ & ?)%elem_of_list_to_set%(t_home _ _ _ T). done.
    + destruct (t_quiet _ _ _ T) as [_ ->]. set_solver.
  - exists h. rewrite Hn. change LOGSIZE with 30. split; [done|lia].
  - intros j. rewrite Hlog. intros Hj. by apply elem_of_nil in Hj.
  - rewrite Hlog. apply NoDup_nil_2.
  - rewrite Hlen, Hlv. lia.
Qed.

(** No operation under way, nothing in the log. *)
Record idle (s : lstate B) (c : cache) : Prop := {
  id_crep : crep (lb s) c;
  id_log : outstanding (lg s) = 0 /\ committing (lg s) = 0;
  id_txn : txn (lg s) c []
}.

Lemma idle_view s c : idle s c -> view c = dsk c.
Proof.
  intros [R _ T]. destruct (crep_sizes _ _ R) as [Hl _]. apply zlist_eq; [done|]. intros j.
  eapply crep_clean; [done| |]; [rewrite (t_pinned _ _ _ T)|destruct (t_quiet _ _ _ T) as [_ ->]]; set_solver.
Qed.

Lemma txn_log l l' c bns :
  start l' = start l -> lsize l' = lsize l -> ldev l' = ldev l -> lh_n l' = lh_n l -> lh_block l' = lh_block l ->
  txn l c bns -> txn l' c bns.
Proof. intros E1 E2 E3 E4 E5 []. split; rewrite ?E1, ?E2, ?E3, ?E4, ?E5; done. Qed.

Lemma begin_op_spec (P : list block -> Prop) s c :
  idle s c -> P (dsk c) ->
  chl (fun s => P (diskof (lb s))) (Log.begin_op 1 s) (fun _ s' =>
    log_rep 1 (start (lg s)) (lsize (lg s)) s' c /\ quiet c).
Proof.
  intros [R [Ho Hc] T] HP. rewrite <- (crep_disk _ _ R) in HP. destruct s as [l b]. cbn [lg lb] in *.
  pose proof (t_n _ _ _ T) as Hn. simpl in Hn. unfold Log.begin_op, upd_log. do 2 cstep. cbn [begin_op_loop]. do 2 cstep. cbn [lg].
  rewrite Hc, Hn, Ho. change (LOGSIZE <? Z.of_nat 0 + (0 + 1) * MAXOPBLOCKS) with false. cbn [negb Z.eqb].
  unfold upd_log. cstep. cstep. cstep. split; [|apply (t_quiet _ _ _ T)].
  split; cbn [lg lb]; [done|done|cbn [set_outstanding outstanding committing]; lia|]. exists [].
  assert (unheld c = c) as ->. { destruct (t_quiet _ _ _ T) as [E1 E2]. destruct c; unfold unheld; cbn in *. by subst. }
  eapply txn_log; [..|exact T]; done.
Qed.

Lemma end_op_spec (P : list block -> Prop) s c lo n :
  log_rep 1 lo n s c -> quiet c -> (forall d, atomic (lg s) (dsk c) (view c) d -> P d) ->
  chl (fun s => P (diskof (lb s))) (Log.end_op s) (fun _ s' =>
    exists c', idle s' c' /\ same_outside lo (lo + n) (dsk c') (view c)).
Proof.
  intros [R [<- <-] [Ho Hc] (bns & T)] Hq HP.
  assert (unheld c = c) as E. { destruct Hq as [E1 E2]. destruct c; unfold unheld; cbn in *. by subst. }
  rewrite E in T. destruct s as [l b]. cbn [lg lb] in *.
  pose proof (atomic_log l c bns T 0) as A0. rewrite take_0 in A0. cbn [install foldl] in A0.
  assert (P (diskof b)) as HPb by (rewrite (crep_disk _ _ R); by apply HP).
  unfold Log.end_op, upd_log. do 2 cstep. cstep. cstep. cbn [lg lb]. do 2 cstep. cbn [lg committing set_outstanding outstanding].
  rewrite Hc, Ho. change (1 - 1 =? 0) with true. change (0 =? 0) with true. cbn [negb].
  cstep. do 3 cstep. cbn [lg lb]. do 2 cstep. cbn [when].
  set (l' := set_committing 1 _). assert (txn l' c bns) as T' by (eapply txn_log; [..|exact T]; done).
  cstep. destruct (decide (bns = [])) as [->|Hne].
  - pose proof (t_n _ _ _ T') as Hn. cbn in Hn.
    unfold commit. do 2 cstep. cbn [lg]. cbn [l' set_committing set_outstanding lh_n]. rewrite Hn. change (0 <? Z.of_nat 0) with false. cbn iota.
    cstep. do 2 cstep. do 2 cstep. do 2 cstep. cstep. exists c. cbn [lg lb].
    assert (idle (mkL (set_committing 0 l') b) c) as Hid.
    { split; [done|split; [cbn; lia|done]|]. eapply txn_log; [..|exact T]; done. }
    split; [done|]. by rewrite <- (idle_view _ _ Hid).
  - eapply chl_conseq.
    { eapply chl_mono; [|intros a s2 H2; exact H2|by apply (commit_spec l' c bns b R T')].
      intros s2 H2. apply HP. exact H2. }
    intros [] s2 HC. pose proof (committed_atomic l' c bns b s2 R T' HC) as HA.
    destruct HC as (c' & R2 & Hq2 & Hp2 & Hl2 & Hs2 & h & Hh & Hn). destruct s2 as [l2 b2]. cbn [lg lb] in *.
    assert (P (diskof b2)) as HP2 by (by apply HP).
    do 2 cstep. do 2 cstep. do 2 cstep. cstep. cbn [lg lb]. exists c'. split; [|done].
    pose proof (t_end _ _ _ T') as He. destruct HA as [RC _]. rewrite (crep_disk _ _ R2) in RC.
    assert (0 < lsize l') as Hls by (pose proof (t_room _ _ _ T') as [? _]; pose proof (t_n _ _ _ T'); lia).
    split; [done|cbn; rewrite Hl2; cbn; lia|]. subst l2. destruct T'.
    destruct (rc_area _ _ _ RC) as [? ?].
    split; cbn [lg ldev lh_n lh_block start lsize set_committing set_lh_n]; try done; cbn [length].
    + apply NoDup_nil_2.
    + intros bn Hbn. by apply elem_of_nil in Hbn.
    + apply (rc_sb _ _ _ RC).
    + by exists h.
Qed.

End end_op.

(** * Locking an inode *)

Definition locked (x : inode) : inode := set_i_flags (Z.lor I_VALID I_BUSY) x.
Definition unlocked (x : inode) : inode := set_i_flags I_VALID x.

Lemma flags_ok y v x f : file_ok y v x -> file_ok y v (set_i_flags f x).
Proof. intros []. by split. Qed.
Lemma flags_rep y v x f : file_rep y v x -> file_rep y v (set_i_flags f x).
Proof. intros []. split; try done. by apply flags_ok. Qed.

Section locking.
Context {T : Type} {TO : TxOps T} {TL : TxLaws T} (lo n : Z) (P : list block -> Prop) (y : superblock).
Context (ic : list inode) (ip : nat) (Hip : (ip < length ic)%nat) (t : T) (c : cache) (x : inode).
Hypothesis (Hrd : ready lo n P t c) (Href : 1 <= i_ref x).
Abbreviation on_disk := (fun s : fsstate T => P (tdisk (tx s))).
Abbreviation st x := (mkFs y (<[ip:=x]> ic) t).

Lemma on_disk_now z : on_disk (st z).
Proof. destruct Hrd as [R _ HP]. cbn [tx]. by destruct (trep_sizes _ _ _ _ R) as (-> & _). Qed.

(** [ilock] of an inode that is in the cache and free. *)
Lemma ilock_spec : i_flags x = I_VALID -> forall fuel, chl on_disk (ilock fuel ip (st x)) (fun _ s' => s' = st (locked x)).
Proof.
  intros Hf fuel. unfold ilock. apply fs_get_inode; [exact Hip|]. destruct (Z.ltb_spec (i_ref x) 1); [lia|].
  do 2 cstep; [apply on_disk_now|]. eapply chl_seq.
  { instantiate (1 := fun _ s' => s' = st x). destruct fuel; cbn [wait_inode]; (apply fs_get_inode; [exact Hip|]);
    (assert (busy x = false) as -> by (unfold busy; by rewrite Hf)); by cstep. }
  intros [] ? ->. apply fs_upd_inode. rewrite Hf.
  do 2 cstep; [apply on_disk_now|]. apply fs_get_inode; [exact Hip|]. done.
Qed.

(** [iunlock] of an inode that is locked. *)
Lemma iunlock_spec : i_flags x = Z.lor I_VALID I_BUSY -> chl on_disk (iunlock ip (st x)) (fun _ s' => s' = st (unlocked x)).
Proof.
  intros Hf. unfold iunlock. apply fs_get_inode; [exact Hip|].
  assert (busy x = true) as -> by (unfold busy; by rewrite Hf). destruct (Z.ltb_spec (i_ref x) 1); [lia|]. cbn [negb orb].
  do 2 cstep; [apply on_disk_now|]. apply fs_upd_inode. rewrite Hf.
  do 2 cstep; [apply on_disk_now|]. cstep; [apply on_disk_now|]. done.
Qed.
End locking.

(** * One write *)

Section write_op.
Context {B : Type} {BO : BlockOps B} {BL : BlockLaws B}.
Context (dw : Z -> option (nat -> list Z -> M (fsstate (lstate B)) Z)).

(** [begin_op(); ilock(ip); r = writei(ip, src, off, n); iunlock(ip); end_op();] of
    [filewrite]. *)
Definition write_op (fuel ip : nat) (src : list Z) (off : Z) : M (fsstate (lstate B)) Z :=
  zoom begin_op ;;
  ilock fuel ip ;;
  r <- writei dw ip src off ;;
  iunlock ip ;;
  zoom end_op ;;
  ret r.

(** A file system at rest with inode [x] in slot [ip], open and not locked, and room for a write of [m] bytes at
    [off]: [1 + nblk off m] blocks at most are allocated, and two more are logged. *)
Record can_write (s : fsstate (lstate B)) (c : cache) (ip : nat) (x : inode) (off m : Z) : Prop := {
  cw_idle : idle (tx s) c;
  cw_layout : layout (start (lg (tx s))) (lsize (lg (tx s))) (sb s);
  cw_volume : volume (sb s) c;
  cw_inode : icache s !! ip = Some x;
  cw_open : 1 <= i_ref x /\ i_flags x = I_VALID;
  cw_file : file_rep (sb s) (view c) x;
  cw_range : 0 <= off <= i_size x /\ off + m <= MAXFILE * BSIZE;
  cw_room : nblk off m + 4 < limit (lsize (lg (tx s)));
  cw_free : nblk off m + 1 <= frees (sb s) (view c)
}.

Lemma can_write_supply s c ip x off m :
  can_write s c ip x off m -> 0 <= nblk off m ->
  exists X, supply (lsize (lg (tx s))) (sb s) c x X (nblk off m) /\ IBLOCK (i_num x) (sb s) ∈ X.
Proof.
  intros [I LY VO Hi _ FR Hr Hroom Hfree] Hn.
  assert (pinned c = ∅) as Hp by apply (t_pinned _ _ _ (id_txn _ _ I)).
  assert (held c = ∅) as Hh by apply (t_quiet _ _ _ (id_txn _ _ I)).
  exists ({[sb_bmapstart (sb s)]} ∪ {[IBLOCK (i_num x) (sb s)]} ∪ {[ind x]}). split; [|set_solver].
  assert (base.size ({[sb_bmapstart (sb s)]} ∪ {[IBLOCK (i_num x) (sb s)]} ∪ {[ind x]} : gset Z) <= 3)%nat as Hsz.
  { rewrite !size_union_alt, size_singleton.
    pose proof (subseteq_size (({[IBLOCK (i_num x) (sb s)]} : gset Z) ∖ {[sb_bmapstart (sb s)]}) {[IBLOCK (i_num x) (sb s)]} ltac:(set_solver)) as E1.
    pose proof (subseteq_size (({[ind x]} : gset Z) ∖ ({[sb_bmapstart (sb s)]} ∪ {[IBLOCK (i_num x) (sb s)]})) {[ind x]} ltac:(set_solver)) as E2.
    rewrite size_singleton in E1, E2. lia. }
  assert (need x (nblk off m) <= nblk off m + 1) by (unfold need; destruct (ind x =? 0); lia).
  split; [split|lia|lia|set_solver].
  - unfold held_blocks. rewrite Hp, Hh, map_img_empty_L. set_solver.
  - lia.
Qed.

(** What the disk may hold when the machine stops: recovery gives the file before or after. *)
Definition safe_disk (lo n : Z) (y : superblock) (k : Z) (old new : list Z) (d : list block) : Prop :=
  recoverable lo n d /\ exists v x, file_rep y v x /\ i_num x = k /\ same_outside lo (lo + n) (replay lo d) v /\
    (contents v x = old \/ contents v x = new).

Lemma write_op_spec fuel s c ip x off src :
  let m := Z.of_nat (length src) in
  let new := overwrite (contents (view c) x) off src in
  can_write s c ip x off m ->
  chl (fun s' => safe_disk (start (lg (tx s))) (lsize (lg (tx s))) (sb s) (i_num x) (contents (view c) x) new (diskof (lb (tx s'))))
    (write_op fuel ip src off s)
    (fun r s' => r = m /\ exists c', idle (tx s') c' /\ file_at (sb s) (dsk c') (i_num x) = new).
Proof.
  intros m new CW. destruct (can_write_supply _ _ _ _ _ _ CW) as (X & Hsu & HX).
  { apply nblk_nonneg. apply (cw_range _ _ _ _ _ _ CW). }
  destruct CW as [I LY VO Hi [Href Hfl] FR [Hr Hmax] _ _]. destruct s as [y ic t]. cbn [sb icache tx] in *.
  set (lo := start (lg t)) in *. set (n := lsize (lg t)) in *. set (P := safe_disk lo n y (i_num x) (contents (view c) x) new).
  pose proof (idle_view _ _ I) as Hv. pose proof (id_txn _ _ I) as T0.
  assert (P (dsk c)) as HP0.
  { pose proof (atomic_log (lg t) c [] T0 0) as [RC _]. rewrite take_0 in RC. cbn [install foldl] in RC.
    split; [done|]. exists (view c), x. split_and!; [done|done| |by left].
    destruct (t_hdr _ _ _ T0) as (h & Hh & Hn). fold lo in Hh. rewrite (replay_empty _ _ h) by (done || lia). by rewrite Hv. }
  unfold write_op. rewrite <- (list_insert_id ic ip x Hi). pose proof (lookup_lt_Some _ _ _ Hi) as Hip.
  eapply (fs_seq (TL := log_tx_laws 1 ltac:(lia)) P); [by apply (begin_op_spec P)|]. intros [] t1 [L1 Hq].
  assert (opened (TL := log_tx_laws 1 ltac:(lia)) lo n P y t1 c x) as Hop.
  { destruct Hq. split; [split|..]; try done. apply FR. }
  eapply chl_seq; [apply (ilock_spec (TL := log_tx_laws 1 ltac:(lia)) lo n P y ic ip Hip t1 c x); [apply Hop|done|done]|]. intros [] ? ->.
  eapply chl_seq.
  { apply (writei_spec (TL := log_tx_laws 1 ltac:(lia)) lo n P y LY ic ip Hip (fun _ => None) dw t1 c (locked x) X src off); try done.
    - destruct Hop as [Ho1 Ho2 Ho3 Ho4]. split; try done. by apply flags_ok.
    - by apply flags_rep.
    - by destruct Hsu. }
  intros r s2 (-> & t2 & c2 & x2 & -> & Hop2 & RW & _).
  pose proof (op_ready _ _ _ _ _ _ _ Hop2) as HR2. pose proof HR2 as [R2 Ht2 _]. pose proof (rw_slot _ _ _ _ _ _ _ RW) as [Hr2 Hf2].
  eapply chl_seq; [apply (iunlock_spec (TL := log_tx_laws 1 ltac:(lia)) lo n P y ic ip Hip t2 c2 x2); [done|by rewrite Hr2|by rewrite Hf2]|]. intros [] ? ->.
  eapply (fs_seq (TL := log_tx_laws 1 ltac:(lia)) P).
  { apply (end_op_spec P t2 c2 lo n); [exact R2|split; [apply Hop2|done]|]. intros d [RC Hd].
    destruct R2 as [_ [E1 E2] _ _]. rewrite E1, E2 in *. rewrite (rw_dsk _ _ _ _ _ _ _ RW), <- Hv in Hd. split; [done|].
    destruct Hd as [Hd|Hd]; [exists (view c), x|exists (view c2), x2]; split_and!; try done.
    { by left. } { apply (rw_file _ _ _ _ _ _ _ RW). } { apply (rw_num _ _ _ _ _ _ _ RW). }
    right. apply (rw_contents _ _ _ _ _ _ _ RW). }
  intros [] t3 (c3 & I3 & Hs3). cstep. split; [done|]. exists c3. split; [done|]. cbn [sb].
  pose proof (rw_num _ _ _ _ _ _ _ RW : i_num x2 = i_num x) as <-. rewrite (file_at_rep lo n y (view c2) x2); [apply (rw_contents _ _ _ _ _ _ _ RW)|done|apply (rw_file _ _ _ _ _ _ _ RW)|done].
Qed.

(** C1. A write to a file is atomic across crashes.  From a file system at rest, [begin_op],
    [ilock], [writei], [iunlock] and [end_op] return the number of bytes with the new bytes in the file on disk; and
    at whatever point the machine stops in between, restarting it - itself interrupted any number
    of times - ends, and the file on disk then holds its old contents, or its old contents with
    all the bytes written: never part of them.  This is log.c over bio.c and fs.c over log.c,
    composed. *)
Theorem file_write_atomic fuel s c ip x off src :
  let m := Z.of_nat (length src) in
  let old := contents (view c) x in
  can_write s c ip x off m ->
  (exists s' c', run (write_op fuel ip src off s) = ROk m s' /\ idle (tx s') c' /\
     file_at (sb s) (dsk c') (i_num x) = overwrite old off src) /\
  forall s1, s1 ∈ published (write_op fuel ip src off s) ->
    (exists t', recovers (tx s1) t') /\
    forall t', recovers (tx s1) t' ->
      file_at (sb s) (diskof (lb t')) (i_num x) = old \/
      file_at (sb s) (diskof (lb t')) (i_num x) = overwrite old off src.
Proof.
  intros m old CW. pose proof (write_op_spec fuel s c ip x off src CW) as HC. split.
  - apply chl_run in HC as (r & s' & Hr & -> & c' & I' & Hf). by exists s', c'.
  - intros s1 Hs1. pose proof (chl_published _ _ _ _ HC Hs1) as [RC Hon]. split; [by eapply recovers_total|].
    intros t' Ht'. pose proof (recovers_replay _ _ _ _ RC Ht') as E.
    destruct Hon as (v & x' & FR & <- & Hs & Hon).
    rewrite (file_at_rep _ _ _ v x' _ (cw_layout _ _ _ _ _ _ CW) FR); [exact Hon|]. by rewrite E.
Qed.
End write_op.

(** * A disk with one file *)

(** The disk of LogSafe.v with blocks 0 to 34 in use and, as inode 2, a file of three bytes in
    block 34. *)
Definition demo_dinode : dinode := mkDinode T_FILE 0 0 1 3 (34 :: replicate 12 0).
Definition file_image : list Z :=
  splice (splice (splice demo_image (32 * BSIZE + 2 * DINODE_SIZE) (dinode_bytes demo_dinode))
    (33 * BSIZE) [255; 255; 255; 255; 7]) (34 * BSIZE) [97; 98; 99].
Definition file_machine : bstate ramdisk := mkB bcache_zero (mkRam file_image 0).
Definition file_dsk : list block := BioCache.contents (disk file_machine).
Definition file_inode : inode := mkInode ROOTDEV 2 1 I_VALID T_FILE 0 0 1 3 (34 :: replicate 12 0).
Definition file_log : log := mkLog 2 30 0 0 ROOTDEV 0 (replicate 30 0).
Definition file_state (b : bstate ramdisk) : fsstate (lstate (bstate ramdisk)) := mkFs demo_sb [file_inode] (mkL file_log b).

Lemma file_dsk_length : length file_dsk = 40%nat.
Proof. vm_compute. reflexivity. Qed.

Lemma file_boot : exists b, idle (BL := demo_laws) (mkL file_log b) (cache_boot file_dsk).
Proof.
  pose proof (boot_rep (fun _ => True) file_machine) as (? & b & _ & R)%chl_run. exists b.
  split; [exact R|done|]. split; cbn [lg lb cache_boot dsk view held pinned touched].
  - done.
  - done.
  - done.
  - done.
  - done.
  - apply NoDup_nil_2.
  - done.
  - intros bn Hbn. by apply elem_of_nil in Hbn.
  - eexists. split; [vm_compute; reflexivity|]. split; vm_compute; reflexivity.
  - cbn [start file_log]. lia.
  - cbn [lh_n lsize file_log]. change NBUF with 30. lia.
  - rewrite file_dsk_length. cbn [start lsize file_log]. lia.
  - eexists. split; [vm_compute; reflexivity|]. vm_compute. reflexivity.
Qed.

Lemma file_layout : layout 2 30 demo_sb.
Proof. split; cbn [demo_sb sb_inodestart sb_ninodes sb_bmapstart sb_size]; [lia| |change BPB with 4096; lia]. split; [lia|]. reflexivity. Qed.

Lemma file_used k : 0 <= k <= 34 -> used demo_sb file_dsk k = true.
Proof.
  intros Hk. assert (forallb (used demo_sb file_dsk) (seqZ 0 35) = true) as E by (vm_compute; reflexivity).
  rewrite forallb_forall in E. apply E. apply list_elem_of_In, elem_of_seqZ. lia.
Qed.

Lemma file_ptr k : 0 <= k -> ptr file_dsk file_inode k = if k =? 0 then 34 else 0.
Proof.
  intros Hk. destruct (Z.eqb_spec k 0) as [->|]; [reflexivity|]. unfold ptr. change (ind file_inode) with 0. cbn [Z.eqb].
  change NDIRECT with 12. destruct (Z.ltb_spec k 12); [|by destruct (k <? MAXFILE)]. unfold zlookup. destruct (Z.ltb_spec k 0); [lia|].
  cbn [i_addrs file_inode]. destruct (Z.to_nat k) as [|j] eqn:E; [lia|].
  change ((34 :: replicate 12 0) !! S j) with (replicate 12 0 !! j). by rewrite lookup_replicate_2 by lia.
Qed.

Lemma file_demo : file_rep demo_sb file_dsk file_inode.
Proof.
  split.
  - split; [done|done| |done|].
    + intros k Hk. rewrite file_ptr by lia. destruct (k =? 0); [|done]. intros _. split; [|done]. split; [|by apply file_used].
      cbn [demo_sb sb_bmapstart sb_size]. lia.
    + intros j k Hj Hk. rewrite !file_ptr by lia. destruct (Z.eqb_spec j 0), (Z.eqb_spec k 0); try done; lia.
  - cbn [file_inode i_num demo_sb sb_ninodes]. lia.
  - split; [change (Forall (fun v => - 2 ^ 15 <= v < 2 ^ 15) [2; 0; 0; 1]); rewrite !Forall_cons; split_and!; try lia; apply Forall_nil_2
      |cbn; lia|done|]. cbn [di_addrs to_dinode i_addrs file_inode].
    apply Forall_cons. split; [lia|]. apply Forall_replicate. lia.
  - vm_compute. reflexivity.
  - cbn [file_inode i_size]. change (MAXFILE * BSIZE) with 71680. lia.
  - intros k Hk. cbn [file_inode i_size]. change BSIZE with 512. intros. rewrite file_ptr by done. destruct (Z.eqb_spec k 0); lia.
  - done.
Qed.

Lemma file_can_write b off m :
  idle (BL := demo_laws) (mkL file_log b) (cache_boot file_dsk) -> 0 <= off <= 3 -> 0 < m <= 512 ->
  can_write (BL := demo_laws) (file_state b) (cache_boot file_dsk) 0 file_inode off m.
Proof.
  intros I Ho Hm. assert (0 <= nblk off m <= 2) as Hn.
  { unfold nblk. change BSIZE with 512. destruct (Z.leb_spec m 0); [lia|].
    rewrite (Z.div_small off) by lia. assert ((off + m - 1) / 512 < 2) by (apply Z.div_lt_upper_bound; lia).
    pose proof (Z.div_pos (off + m - 1) 512). lia. }
  split; cbn [file_state sb icache tx lg start lsize file_log].
  - exact I.
  - exact file_layout.
  - split; cbn [cache_boot dsk view]; [by rewrite file_dsk_length|]. intros k Hk. apply file_used. cbn [demo_sb sb_bmapstart] in Hk. lia.
  - done.
  - cbn. lia.
  - exact file_demo.
  - cbn [i_size file_inode]. change (MAXFILE * BSIZE) with 71680. lia.
  - change (limit 30) with 29. lia.
  - assert (frees demo_sb (view (cache_boot file_dsk)) = 5) as -> by (vm_compute; reflexivity). lia.
Qed.

Lemma file_write_atomic_witness : exists b s' c',
  run (write_op (BO := demo_ops) (fun _ => None) 0 0 [100; 101] 3 (file_state b)) = ROk 2 s' /\
  idle (BL := demo_laws) (tx s') c' /\ file_at demo_sb (dsk c') 2 = [97; 98; 99; 100; 101].
Proof.
  destruct file_boot as [b I]. exists b.
  destruct (file_write_atomic (BL := demo_laws) (fun _ => None) 0 (file_state b) (cache_boot file_dsk) 0 file_inode 3 [100; 101]
    (file_can_write b 3 2 I ltac:(lia) ltac:(lia))) as [(s' & c' & Hr & I' & Hf) _].
  exists s', c'. split; [exact Hr|]. split; [exact I'|]. etransitivity; [exact Hf|]. vm_compute. reflexivity.
Defined.

(** The same disk inside a transaction. *)
Definition demo_tx : TxLaws (lstate (bstate ramdisk)) (TO := log_tx (BO := demo_ops)) := log_tx_laws (BL := demo_laws) 1 ltac:(lia).
Lemma file_ready : exists t, ready (TL := demo_tx) 2 30 (fun _ => True) t (cache_boot file_dsk).
Proof.
  destruct file_boot as [b I]. pose proof (begin_op_spec (BL := demo_laws) (fun _ => True) _ _ I Logic.I) as ([] & t & _ & L & _)%chl_run.
  exists t. split; [exact L|done|done].
Qed.
Lemma file_volume : volume demo_sb (cache_boot file_dsk).
Proof. split; cbn [cache_boot dsk view]; [by rewrite file_dsk_length|]. intros k Hk. apply file_used. cbn [demo_sb sb_bmapstart] in Hk. lia. Qed.

Lemma balloc_bfree_witness : exists t t1,
  ready (TL := demo_tx) 2 30 (fun _ => True) t (cache_boot file_dsk) /\
  run (balloc (TO := log_tx (BO := demo_ops)) ROOTDEV (mkFs demo_sb [] t)) = ROk 35 (mkFs demo_sb [] t1).
Proof.
  destruct file_ready as [t Hrd].
  assert (first_free demo_sb (view (cache_boot file_dsk)) 35) as Hf.
  { split; [cbn; lia|]. split; [vm_compute; reflexivity|]. intros j Hj. apply file_used. lia. }
  destruct (balloc_bfree (TL := demo_tx) 2 30 (fun _ => True) demo_sb file_layout [] t (cache_boot file_dsk) {[33]} 35
    (blk file_dsk 1) Hrd file_volume ltac:(by split) ltac:(by vm_compute) eq_refl ltac:(by vm_compute) ltac:(by vm_compute) Hf)
    as (t1 & c1 & Hr & _).
  exists t, t1. split; [exact Hrd|exact Hr].
Defined.

Lemma writei_readi_roundtrip_witness : exists t t1 x1,
  run (writei (TO := log_tx (BO := demo_ops)) (fun _ => None) 0 [100; 101] 3 (mkFs demo_sb [file_inode] t)) = ROk 2 (mkFs demo_sb [x1] t1) /\
  i_size x1 = 5.
Proof.
  destruct file_ready as [t Hrd]. exists t.
  assert (opened (TL := demo_tx) 2 30 (fun _ => True) demo_sb t (cache_boot file_dsk) file_inode) as Hop.
  { split; [exact Hrd|exact file_volume|done|apply file_demo]. }
  assert (supply 30 demo_sb (cache_boot file_dsk) file_inode {[33; 32]} 1) as Hsu.
  { split; [split; [|by vm_compute]|by vm_compute|by vm_compute|done].
    unfold held_blocks. cbn [cache_boot held pinned demo_sb sb_bmapstart]. rewrite map_img_empty_L. set_solver. }
  destruct (writei_readi_roundtrip (TL := demo_tx) 2 30 (fun _ => True) demo_sb file_layout [file_inode] 0 ltac:(simpl; lia)
    (fun _ => None) (fun _ => None) t (cache_boot file_dsk) file_inode {[33; 32]} [100; 101] 3 Hop file_demo Hsu
    ltac:(by vm_compute) ltac:(cbn; lia) ltac:(by vm_compute)) as (t1 & c1 & x1 & Hr & RW & _).
  exists t1, x1. split; [exact Hr|].
  pose proof (rw_contents _ _ _ _ _ _ _ RW) as E. apply (f_equal length) in E. rewrite length_file_contents in E.
  pose proof (fi_size _ _ _ (rw_file _ _ _ _ _ _ _ RW)). vm_compute (length _) in E. lia.
Defined.
