(* ===== verification/FsPath.v ===== *)
(** Path names and the inode cache: [skipelem] and [iget] of fs.c.

    [components] is the reference: the parts of a path between slashes, empty parts left out.
    [names] is what a loop over [skipelem], such as the one of [namex], sees. *)

From Stdlib Require Import ZArith Lia.
From stdpp Require Import base tactics option gmap sets strings numbers list.
From S2P Require Import Prelude Layout Bytes CString Bio Cache FsFormat Tx Fs.
Open Scope Z_scope.

Definition slash : Z := 47.

Abbreviation parts := (parts_by (fun c => c =? slash)).
Definition components (p : list Z) : list (list Z) := parts [] p.

(** The names [namex] compares with directory entries, one per round of its loop, with the rest
    of the path it goes on with. *)
Fixpoint names (fuel : nat) (path name : list Z) : option (list (list Z * list Z)) :=
  match skipelem path name with
  | None => Some []
  | Some (path, name) =>
      match fuel with
      | O => None
      | S k => cons (cstr (Z.to_nat DIRSIZ) name, path) <$> names k path name
      end
  end.

Lemma skip_slashes_parts p : parts [] (skip_slashes p) = parts [] p.
Proof.
  induction p as [|c p IH]; [done|]. cbn [skip_slashes]. change 47 with slash. destruct (Z.eqb_spec c slash) as [->|]; [|done].
  rewrite IH. cbn [parts_by]. rewrite Z.eqb_refl. unfold emit. by rewrite decide_True.
Qed.
Lemma skip_slashes_length p : (length (skip_slashes p) <= length p)%nat.
Proof. induction p as [|c p IH]; [done|]. cbn [skip_slashes]. destruct (c =? 47); simpl in *; lia. Qed.
Lemma skip_slashes_text p : is_text p -> is_text (skip_slashes p).
Proof.
  intros H. induction H as [|c p Hc Hp IH]; [by constructor|]. cbn [skip_slashes]. destruct (c =? 47); [exact IH|]. by constructor.
Qed.
Lemma skip_slashes_first p : match skip_slashes p with c :: _ => c <> slash | [] => True end.
Proof. induction p as [|c p IH]; [done|]. cbn [skip_slashes]. by destruct (Z.eqb_spec c 47). Qed.

Lemma take_elem_parts p e r cur :
  is_text p -> take_elem p = (e, r) ->
  p = e ++ r /\ parts cur p = emit (cur ++ e) (parts [] r) /\ (r = [] \/ exists r', r = slash :: r').
Proof.
  revert e r cur. induction p as [|c p IH]; intros e r cur Ht E.
  { injection E as <- <-. rewrite (app_nil_r cur). split; [done|]. split; [done|by left]. }
  apply Forall_cons in Ht as [Hc Ht]. cbn [take_elem] in E. change 47 with slash in E.
  destruct (Z.eqb_spec c slash) as [->|]; cbn [orb] in E.
  { injection E as <- <-. rewrite (app_nil_r cur). split; [done|]. split; [|right; eauto]. cbn [parts_by]. rewrite Z.eqb_refl.
    unfold emit at 2. simpl. done. }
  destruct (Z.eqb_spec c 0); [done|]. destruct (take_elem p) as [e' r'] eqn:E'. injection E as <- <-.
  destruct (IH e' r' (cur ++ [c]) Ht eq_refl) as (-> & Hp & Hr). split; [done|]. split; [|done]. cbn [parts_by].
  destruct (Z.eqb_spec c slash); [done|]. by rewrite Hp, <- app_assoc.
Qed.

Lemma cstr_text k e : is_text e -> cstr k e = take k e.
Proof.
  intros H. revert k. induction H as [|c e Hc He IH]; intros [|k]; try done. cbn [cstr take]. destruct (Z.eqb_spec c 0); [done|]. by rewrite IH.
Qed.
(** The name left in the buffer. *)
Lemma name_buffer e name :
  is_text e -> length name = Z.to_nat DIRSIZ ->
  let len := Z.of_nat (length e) in
  let name' := if DIRSIZ <=? len then splice name 0 (slice e 0 DIRSIZ) else put8 (splice name 0 e) len 0 in
  cstr (Z.to_nat DIRSIZ) name' = take (Z.to_nat DIRSIZ) e /\ length name' = Z.to_nat DIRSIZ.
Proof.
  intros He Hn len name'. unfold name'. change DIRSIZ with 14 in *. change (Z.to_nat 14) with 14%nat in *.
  destruct (Z.leb_spec 14 len) as [Hl|Hl].
  - rewrite splice_all by (rewrite length_slice, Hn by (unfold len in *; lia); done). unfold slice. change (Z.to_nat 0) with 0%nat. rewrite drop_0.
    change (Z.to_nat 14) with 14%nat. rewrite cstr_text by (by apply Forall_take). split; [|rewrite length_take; unfold len in *; lia].
    rewrite take_take. done.
  - split; [|by rewrite length_put8, length_splice]. rewrite (take_ge e) by (unfold len in *; lia).
    assert (put8 (splice name 0 e) len 0 = e ++ 0 :: drop (S (length e)) name) as ->.
    { unfold put8, splice. change (le_enc 1 0) with [0]. unfold len. rewrite Nat2Z.id. change (Z.to_nat 0) with 0%nat.
      apply list_eq. intros i. cbn [list_inserts]. destruct (decide (i = length e)) as [->|Hi].
      - rewrite list_lookup_insert_eq by (rewrite length_inserts; unfold len in *; lia).
        by rewrite list_lookup_middle.
      - rewrite list_lookup_insert_ne by done. destruct (decide (i < length e)%nat).
        + rewrite list_lookup_inserts by (unfold len in *; lia). rewrite lookup_app_l by done. f_equal. lia.
        + rewrite list_lookup_inserts_ge by lia. rewrite lookup_app_r by lia.
          destruct (i - length e)%nat as [|m] eqn:Em; [lia|].
          change ((0 :: drop (S (length e)) name) !! S m) with (drop (S (length e)) name !! m). rewrite lookup_drop. f_equal. lia. }
    apply cstr_app_nul; [by apply Forall_forall|unfold len in *; lia].
Qed.

Lemma parts_cons c cur p : parts (cur ++ [c]) p <> [].
Proof.
  revert c cur. induction p as [|d p IH]; intros c cur; cbn [parts_by].
  - unfold emit. rewrite decide_False; [done|]. by destruct cur.
  - destruct (d =? slash); [|apply IH]. unfold emit. rewrite decide_False; [done|]. by destruct cur.
Qed.

(** One call of [skipelem]. *)
Lemma skipelem_spec p name :
  is_text p -> length name = Z.to_nat DIRSIZ ->
  match skipelem p name with
  | None => components p = []
  | Some (r, name') => exists e, components p = e :: components r /\
      cstr (Z.to_nat DIRSIZ) name' = take (Z.to_nat DIRSIZ) e /\ length name' = Z.to_nat DIRSIZ /\
      is_text r /\ (length r < length p)%nat /\ (r = [] <-> components r = [])
  end.
Proof.
  intros Ht Hn. unfold skipelem, components. rewrite <- (skip_slashes_parts p).
  pose proof (skip_slashes_text p Ht) as Ht'. pose proof (skip_slashes_length p) as Hl. pose proof (skip_slashes_first p) as Hf.
  destruct (skip_slashes p) as [|c q]; [done|]. change (first_char (c :: q)) with c. apply Forall_cons in Ht' as [Hc Hq].
  destruct (Z.eqb_spec c 0); [done|].
  destruct (take_elem (c :: q)) as [e r] eqn:E.
  destruct (take_elem_parts (c :: q) e r [] ltac:(by constructor) E) as (Eq & Hp & Hr).
  assert (e <> []) as He.
  { cbn [take_elem] in E. destruct (Z.eqb_spec c 47); [done|]. destruct (Z.eqb_spec c 0); [done|].
    cbn [orb] in E. destruct (take_elem q). by injection E as <- _. }
  assert (is_text e /\ is_text r) as [Hte Htr].
  { apply Forall_app. rewrite <- Eq. by constructor. }
  cbv zeta. cbn iota. exists e. rewrite Hp. unfold emit. simpl. rewrite decide_False by done. rewrite skip_slashes_parts.
  destruct (name_buffer e name Hte Hn) as [N1 N2]. split_and!; [done|exact N1|exact N2|by apply skip_slashes_text| |].
  - pose proof (skip_slashes_length r). assert (length (c :: q) = length e + length r)%nat as El by (rewrite Eq; apply length_app).
    destruct e; [done|]. simpl in *. lia.
  - rewrite <- (skip_slashes_parts r). pose proof (skip_slashes_first r) as Hfr. destruct (skip_slashes r) as [|d r']; [done|].
    split; [done|]. cbn [parts_by]. destruct (Z.eqb_spec d slash); [done|]. intros Hbad. exfalso. by apply (parts_cons d [] r').
Qed.

(** Path names.  The loop over [skipelem] in [namex] ends after at most as many rounds as the
    path has characters, and yields exactly the parts of the path between slashes - leading,
    trailing and repeated slashes do not matter - each cut to [DIRSIZ] characters.  After the
    [i]-th round the rest of the path stands for the remaining parts, and it is the empty string
    exactly after the last part, which is how [nameiparent] knows where to stop. *)
Theorem skipelem_components p name :
  is_text p -> length name = Z.to_nat DIRSIZ ->
  exists l, names (length p) p name = Some l /\
    l.*1 = take (Z.to_nat DIRSIZ) <$> components p /\
    forall i nm r, l !! i = Some (nm, r) ->
      components r = drop (S i) (components p) /\ (r = [] <-> S i = length (components p)).
Proof.
  remember (length p) as fuel eqn:Ef. assert (length p <= fuel)%nat as Hf by lia. clear Ef. revert p name Hf.
  induction fuel as [|fuel IH]; intros p name Hf Ht Hn; pose proof (skipelem_spec p name Ht Hn) as Hs; cbn [names].
  - destruct (skipelem p name) as [[r nm]|]; [destruct Hs as (e & _ & _ & _ & _ & Hlt & _); lia|].
    exists []. rewrite Hs. split_and!; [done|done|]. intros i nm r Hi. by rewrite lookup_nil in Hi.
  - destruct (skipelem p name) as [[r nm]|].
    2: { exists []. rewrite Hs. split_and!; [done|done|]. intros i nm r Hi. by rewrite lookup_nil in Hi. }
    destruct Hs as (e & Hc & Hnm & Hln & Htr & Hlt & Hend).
    destruct (IH r nm ltac:(lia) Htr Hln) as (l & Hl & Hl1 & Hli). rewrite Hl. exists ((cstr (Z.to_nat DIRSIZ) nm, r) :: l).
    rewrite Hc. split_and!; [done|by rewrite fmap_cons, Hl1, Hnm|]. intros [|i] nm' r' Hi.
    + injection Hi as <- <-. split; [done|]. rewrite Hend. cbn [length]. destruct (components r); simpl; split; try done; lia.
    + destruct (Hli i nm' r' Hi) as [H1 H2]. split; [done|]. rewrite H2. cbn [length]. lia.
Qed.

Lemma skipelem_components_witness :
  components [47; 97; 47; 47; 98; 99] = [[97]; [98; 99]] /\
  exists l, names 6 [47; 97; 47; 47; 98; 99] (replicate 14 0) = Some l /\ l.*1 = [[97]; [98; 99]].
Proof.
  split; [reflexivity|].
  destruct (skipelem_components [47; 97; 47; 47; 98; 99] (replicate 14 0) ltac:(repeat constructor; done) eq_refl) as (l & H1 & H2 & _).
  exists l. split; [exact H1|exact H2].
Defined.

(** * The inode cache *)

(** Every inode in use has one slot, and reference counts do not overflow. *)
Record icache_ok (l : list inode) : Prop := {
  io_ref : forall i x, l !! i = Some x -> 0 <= i_ref x < 2 ^ 31 - 1;
  io_uniq : forall i j x z, l !! i = Some x -> l !! j = Some z -> 0 < i_ref x -> 0 < i_ref z ->
    i_dev x = i_dev z -> i_num x = i_num z -> i = j
}.

Definition is_inode (dev num : Z) (x : inode) : Prop := 0 < i_ref x /\ i_dev x = dev /\ i_num x = num.

Section iget.
Context {T : Type} {TO : TxOps T}.
Context (s : fsstate T) (dev num : Z) (OK : icache_ok (icache s)).

(** The slot [iget] takes, and what it puts there. *)
Definition iget_slot (i : nat) (x' : inode) : Prop :=
  exists x, icache s !! i = Some x /\
    ((is_inode dev num x /\ x' = set_i_ref (i_ref x + 1) x) \/
     (i_ref x = 0 /\ (forall j z, icache s !! j = Some z -> ~ is_inode dev num z) /\
      x' = mkInode dev num 1 0 (i_type x) (i_major x) (i_minor x) (i_nlink x) (i_size x) (i_addrs x))).

Lemma run_iget_slot i x f :
  icache s !! i = Some x ->
  run ((upd_inode i f ;; release LK_icache ;; ret i) s) = ROk i (mkFs (sb s) (<[i := f x]> (icache s)) (tx s)).
Proof.
  intros Hi. unfold upd_inode. mrun. do 2 f_equal. apply list_eq. intros j. destruct (decide (i = j)) as [<-|].
  - rewrite list_lookup_alter_eq, Hi, list_lookup_insert_eq; [done|]. by eapply lookup_lt_Some.
  - by rewrite list_lookup_alter_ne, list_lookup_insert_ne.
Qed.

Lemma iget_cases :
  (exists i x', run (iget dev num s) = ROk i (mkFs (sb s) (<[i := x']> (icache s)) (tx s)) /\ iget_slot i x') \/
  (run (iget dev num s) = RPanic "iget: no inodes" /\
   forall j z, icache s !! j = Some z -> i_ref z <> 0 /\ ~ is_inode dev num z).
Proof.
  unfold iget. rewrite run_bind, run_acquire. cbn [rbind]. rewrite run_bind, run_gets. cbn [rbind].
  set (f := fun x : inode => (0 <? i_ref x) && (i_dev x =? dev) && (i_num x =? num)).
  assert (forall x, f x = true <-> is_inode dev num x) as Hf.
  { intros x. unfold f, is_inode. rewrite !andb_true_iff, Z.ltb_lt, !Z.eqb_eq. tauto. }
  destruct (find_index f (icache s)) as [i|] eqn:E.
  - apply find_index_Some in E as [(x & Hi & Hx%Hf) _]. left. exists i, (set_i_ref (i_ref x + 1) x).
    rewrite (run_iget_slot i x _ Hi). pose proof (io_ref _ OK i x Hi). rewrite s32_small by lia.
    split; [done|]. exists x. split; [done|]. by left.
  - rewrite find_index_None in E.
    assert (forall j z, icache s !! j = Some z -> ~ is_inode dev num z) as Hno.
    { intros j z Hz Hin%Hf. by rewrite (E j z Hz) in Hin. }
    destruct (find_index (fun x => i_ref x =? 0) (icache s)) as [i|] eqn:E0.
    + apply find_index_Some in E0 as [(x & Hi & Hx) _]. apply Z.eqb_eq in Hx. left. eexists i, _.
      rewrite (run_iget_slot i x _ Hi). split; [done|]. exists x. split; [done|]. by right.
    + rewrite find_index_None in E0. right. split; [done|]. intros j z Hz. split; [|by eapply Hno].
      by apply Z.eqb_neq, (E0 j z).
Qed.

(** The inode cache has one slot per inode.  [iget] returns a slot that holds inode [num] of
    device [dev] with one reference more - the slot that held it already, with its contents, or
    an unused one marked not valid - and changes no other slot; slots in use still hold distinct
    inodes.  It panics only if no slot holds the inode and none is unused. *)
Theorem iget_unique :
  (exists i x', run (iget dev num s) = ROk i (mkFs (sb s) (<[i := x']> (icache s)) (tx s)) /\
     is_inode dev num x' /\ iget_slot i x' /\
     forall j k x z, <[i := x']> (icache s) !! j = Some x -> <[i := x']> (icache s) !! k = Some z ->
       0 < i_ref x -> 0 < i_ref z -> i_dev x = i_dev z -> i_num x = i_num z -> j = k) \/
  (run (iget dev num s) = RPanic "iget: no inodes" /\
   forall j z, icache s !! j = Some z -> i_ref z <> 0 /\ ~ is_inode dev num z).
Proof.
  destruct iget_cases as [(i & x' & Hr & Hs)|Hp]; [left|by right]. exists i, x'. split; [done|].
  pose proof Hs as (x & Hi & Hx). pose proof (io_ref _ OK i x Hi) as Href. pose proof (lookup_lt_Some _ _ _ Hi) as Hlt.
  assert (is_inode dev num x') as Hin.
  { destruct Hx as [[(? & ? & ?) ->]|(_ & _ & ->)]; unfold is_inode; cbn; lia. }
  split; [done|]. split; [done|].
  assert (forall j z, j <> i -> icache s !! j = Some z -> ~ is_inode dev num z) as Hother.
  { intros j z Hne Hz (H1 & H2 & H3). destruct Hx as [[(? & ? & ?) _]|(_ & Hno & _)]; [|by apply (Hno j z Hz)].
    apply Hne. eapply (io_uniq _ OK); [done|done|done|lia|congruence|congruence]. }
  assert (forall j z, j <> i -> <[i:=x']> (icache s) !! j = Some z -> icache s !! j = Some z) as Hsame.
  { intros j z Hne Hz. by rewrite list_lookup_insert_ne in Hz by done. }
  assert (forall z, <[i:=x']> (icache s) !! i = Some z -> z = x') as Heq.
  { intros z Hz. rewrite list_lookup_insert_eq in Hz by done. congruence. }
  destruct Hin as (Hi1 & Hi2 & Hi3).
  intros j k a b Ha Hb Hra Hrb Hd Hn. destruct (decide (j = i)) as [->|Hj], (decide (k = i)) as [->|Hk]; [done|..].
  - apply Heq in Ha as ->. exfalso. apply (Hother k b Hk); [by apply Hsame|]. unfold is_inode. split_and!; [done|congruence|congruence].
  - apply Heq in Hb as ->. exfalso. apply (Hother j a Hj); [by apply Hsame|]. unfold is_inode. split_and!; [done|congruence|congruence].
  - eapply (io_uniq _ OK); eauto.
Qed.
End iget.

Lemma iget_unique_witness :
  icache_ok [set_i_ref 1 inode_zero; inode_zero] /\
  run (iget ROOTDEV 7 (mkFs (mkSb 0 0 0 0 0 0 0) [set_i_ref 1 inode_zero; inode_zero] tt)) =
    ROk 1%nat (mkFs (mkSb 0 0 0 0 0 0 0) [set_i_ref 1 inode_zero; mkInode ROOTDEV 7 1 0 0 0 0 0 0 (replicate 13 0)] tt).
Proof.
  assert (icache_ok [set_i_ref 1 inode_zero; inode_zero]) as OK.
  { split.
    - intros [|[|i]] x [= <-]; cbn; lia.
    - intros [|[|i]] [|[|j]] x z [= <-] [= <-]; cbn; lia. }
  split; [exact OK|].
  destruct (iget_unique (mkFs (mkSb 0 0 0 0 0 0 0) [set_i_ref 1 inode_zero; inode_zero] tt) ROOTDEV 7 OK) as [_|[_ Hno]]; [reflexivity|].
  destruct (Hno 1%nat inode_zero eq_refl) as [H _]. by destruct H.
Defined.
