(* ===== verification/FsDir.v ===== *)
(** Directories and path lookup: [dirlookup], [namex], [namei] and [nameiparent] of fs.c.

    The reference is [walk]: from an inode number, follow the parts of the path through the
    directories as the blocks have them.  [cached] ties the inode cache to the blocks and to the references that are held, a
    multiset of inode numbers: every inode of the multiset has one slot, which counts its
    references and, once it was read, agrees with the disk.  The theorem is that [namex] computes
    [walk], that it needs two unused slots and no more, and that it leaves exactly one
    reference: to its result. *)

From Stdlib Require Import ZArith Lia.
From stdpp Require Import base tactics option gmap gmultiset sets strings numbers list.
From S2P Require Import Prelude Layout Bytes Crash CString Bio Cache FsFormat Tx Fs FsBlocks FsFile FsMap FsRw FsInode FsSafe FsPath.
Open Scope Z_scope.

(** * Directory entries *)

(** Entry [k]: the inode number and the name up to its NUL. *)
Definition dent (bs : list Z) (k : nat) : Z * list Z :=
  let e := slice bs (DIRENT_SIZE * Z.of_nat k) DIRENT_SIZE in (de_inum e, cstr (Z.to_nat DIRSIZ) (de_name e)).
Definition dents (bs : list Z) : list (Z * list Z) := dent bs <$> seq 0 (length bs / Z.to_nat DIRENT_SIZE).
(** An entry in use with this name. *)
Definition names_it (nm : list Z) (e : Z * list Z) : bool := negb (e.1 =? 0) && bool_decide (e.2 = nm).
Definition dir_find (bs nm : list Z) : option (nat * Z) :=
  i ← find_index (names_it nm) (dents bs); e ← dents bs !! i; Some (i, e.1).

Lemma lookup_dents bs k : (k < length bs / Z.to_nat DIRENT_SIZE)%nat -> dents bs !! k = Some (dent bs k).
Proof. intros Hk. unfold dents. rewrite list_lookup_fmap, lookup_seq_lt by done. done. Qed.
Lemma dents_lookup bs k e : dents bs !! k = Some e -> (k < length bs / Z.to_nat DIRENT_SIZE)%nat /\ e = dent bs k.
Proof. unfold dents. rewrite list_lookup_fmap. intros (j & (-> & Hj)%lookup_seq & ->)%fmap_Some. done. Qed.

Lemma dir_find_Some bs nm i k :
  dir_find bs nm = Some (i, k) <-> (i < length bs / Z.to_nat DIRENT_SIZE)%nat /\ k = (dent bs i).1 /\
    names_it nm (dent bs i) = true /\ forall j, (j < i)%nat -> names_it nm (dent bs j) = false.
Proof.
  unfold dir_find. split.
  - intros (j & (E & Hmin)%find_index_Some & (e & He & [= <- <-])%bind_Some)%bind_Some. destruct E as (e' & He' & Hn).
    rewrite He in He'. injection He' as <-. apply dents_lookup in He as [Hi ->]. split_and!; try done. intros j' Hj. apply (Hmin j' (dent bs j')); [done|]. apply lookup_dents. lia.
  - intros (Hi & -> & Hn & Hmin). assert (find_index (names_it nm) (dents bs) = Some i) as E.
    { apply find_index_Some. split; [exists (dent bs i); split; [by apply lookup_dents|done]|]. intros j e Hj [_ ->]%dents_lookup. auto. }
    rewrite E. simpl. by rewrite lookup_dents.
Qed.
Lemma dir_find_None bs nm :
  dir_find bs nm = None <-> forall j, (j < length bs / Z.to_nat DIRENT_SIZE)%nat -> names_it nm (dent bs j) = false.
Proof.
  unfold dir_find. destruct (find_index (names_it nm) (dents bs)) as [i|] eqn:E; simpl.
  - apply find_index_Some in E as [(e & He & Hn) _]. rewrite He. simpl. apply dents_lookup in He as [Hi ->]. split; [done|].
    intros H. by rewrite (H i Hi) in Hn.
  - split; [|done]. intros _ j Hj. rewrite find_index_None in E. apply (E j (dent bs j)). by apply lookup_dents.
Qed.

(** [namecmp] in terms of the texts. *)
Lemma namecmp_text s t : bytes s -> bytes t -> (namecmp s t =? 0) = bool_decide (cstr (Z.to_nat DIRSIZ) t = cstr (Z.to_nat DIRSIZ) s).
Proof.
  intros Hs Ht. unfold namecmp. pose proof (strncmp_0 s t DIRSIZ Hs Ht) as H.
  destruct (Z.eqb_spec (strncmp s t DIRSIZ) 0); [rewrite bool_decide_eq_true_2|rewrite bool_decide_eq_false_2]; naive_solver.
Qed.

(** The names [skipelem] leaves are bytes when the path is. *)
Lemma bytes_splice d o e : bytes d -> bytes e -> bytes (splice d o e).
Proof.
  intros Hd He. unfold splice, bytes in *. rewrite !Forall_lookup in *. intros i c Hi.
  apply list_lookup_inserts_Some in Hi as [(_ & H)|(_ & _ & H)]; eauto.
Qed.
Lemma skip_slashes_bytes p : bytes p -> bytes (skip_slashes p).
Proof. intros H. induction H as [|c p Hc Hp IH]; [constructor|]. cbn [skip_slashes]. destruct (c =? 47); [done|]. by constructor. Qed.
Lemma take_elem_bytes p e r : bytes p -> take_elem p = (e, r) -> bytes e /\ bytes r.
Proof.
  intros H. revert e r. induction H as [|c p Hc Hp IH]; intros e r E; [injection E as <- <-; split; constructor|]. cbn [take_elem] in E.
  destruct ((c =? 47) || (c =? 0)); [injection E as <- <-; split; by constructor|].
  destruct (take_elem p) as [e' r'] eqn:E'. injection E as <- <-. destruct (IH e' r' eq_refl). split; [by constructor|done].
Qed.
Lemma skipelem_bytes p name r name' : bytes p -> bytes name -> skipelem p name = Some (r, name') -> bytes r /\ bytes name'.
Proof.
  intros Hp Hn. unfold skipelem. apply skip_slashes_bytes in Hp. destruct (first_char (skip_slashes p) =? 0); [done|].
  destruct (take_elem (skip_slashes p)) as [e q] eqn:E. destruct (take_elem_bytes _ _ _ Hp E) as [He Hq]. intros [= <- <-].
  split; [by apply skip_slashes_bytes|]. destruct (DIRSIZ <=? Z.of_nat (length e)).
  - apply bytes_splice; [done|]. by apply Forall_take, Forall_drop.
  - unfold put8. apply bytes_splice; [by apply bytes_splice|]. change (le_enc 1 0) with [0]. by repeat constructor.
Qed.

(** * The tree on the disk *)

Section tree.
Context (y : superblock) (v : list block).

Definition kind (k : Z) : Z := di_type (disk_inode y v k).
(** Inode [k] is allocated. *)
Definition live (k : Z) : Prop := 0 < k < sb_ninodes y /\ kind k <> 0.

(** A directory [readi] can read, with entries that name allocated inodes. *)
Record dir_ok (k : Z) : Prop := {
  dk_file : file_rep y v (disk_file y v k);
  dk_size : di_size (disk_inode y v k) mod DIRENT_SIZE = 0;
  dk_bytes : bytes (file_at y v k);
  dk_live : forall e, e ∈ dents (file_at y v k) -> e.1 <> 0 -> live e.1
}.
Record tree : Prop := {
  tr_root : live ROOTINO;
  tr_linked : forall k, live k -> di_nlink (disk_inode y v k) <> 0;
  tr_dir : forall k, live k -> kind k = T_DIR -> dir_ok k
}.

(** The inode a path names, or its parent directory: the reference for [namex]. *)
Fixpoint walk (parent : bool) (k : Z) (es : list (list Z)) : option Z :=
  match es with
  | [] => if parent then None else Some k
  | e :: es =>
      if negb (kind k =? T_DIR) then None else
      if parent && bool_decide (es = []) then Some k else
      match dir_find (file_at y v k) (take (Z.to_nat DIRSIZ) e) with
      | None => None
      | Some (_, k') => walk parent k' es
      end
  end.

Lemma dir_find_live k nm i k' : dir_ok k -> dir_find (file_at y v k) nm = Some (i, k') -> live k'.
Proof.
  intros D (Hi & -> & Hn & _)%dir_find_Some. apply (dk_live _ D); [by apply list_elem_of_lookup; exists i; apply lookup_dents|].
  unfold names_it in Hn. by destruct (Z.eqb_spec (dent (file_at y v k) i).1 0).
Qed.
End tree.

(** * The inode cache and the references held *)

(** The slot [i] holds inode [k]. *)
Definition at_slot (ic : list inode) (i : nat) (k : Z) : Prop := exists x, ic !! i = Some x /\ 0 < i_ref x /\ i_num x = k.

Lemma at_slot_insert ic i x x' j k :
  ic !! i = Some x -> (0 < i_ref x -> 0 < i_ref x' /\ i_num x' = i_num x) -> at_slot ic j k -> at_slot (<[i := x']> ic) j k.
Proof.
  intros Hi Hx (z & Hz & Hzr & <-). pose proof (lookup_lt_Some _ _ _ Hi). destruct (decide (j = i)) as [->|Hne].
  - assert (z = x) as -> by congruence. destruct (Hx Hzr). exists x'. by rewrite list_lookup_insert_eq.
  - exists z. by rewrite list_lookup_insert_ne.
Qed.

Section cached.
Context (y : superblock) (v : list block).

Record slot_ok (R : gmultiset Z) (busy : bool) (x : inode) : Prop := {
  so_ref : i_ref x = Z.of_nat (multiplicity (i_num x) R);
  so_dev : i_dev x = ROOTDEV;
  so_live : live y v (i_num x);
  so_flags : if busy then i_flags x = Z.lor I_VALID I_BUSY else i_flags x = 0 \/ i_flags x = I_VALID;
  so_disk : i_flags x <> 0 -> to_dinode x = disk_inode y v (i_num x)
}.
(** [R] are the references, [L] is the slot of the inode that is locked. *)
Record cached (R : gmultiset Z) (L : option nat) (ic : list inode) : Prop := {
  ca_ref : forall i x, ic !! i = Some x -> 0 <= i_ref x;
  ca_slot : forall i x, ic !! i = Some x -> 0 < i_ref x -> slot_ok R (bool_decide (L = Some i)) x;
  ca_has : forall k, k ∈ R -> exists i, at_slot ic i k;
  ca_uniq : forall i j k, at_slot ic i k -> at_slot ic j k -> i = j;
  ca_lock : forall i, L = Some i -> exists k, at_slot ic i k
}.

Lemma at_slot_ref R L ic i x : cached R L ic -> ic !! i = Some x -> 0 < i_ref x -> i_num x ∈ R.
Proof. intros C Hi Hx. pose proof (so_ref _ _ _ (ca_slot _ _ _ C i x Hi Hx)). apply elem_of_multiplicity. lia. Qed.

(** More slots than inodes referenced: one is unused. *)
Lemma unused_slot R L ic : cached R L ic -> (base.size (dom R) < length ic)%nat -> exists i x, ic !! i = Some x /\ i_ref x = 0.
Proof.
  intros C Hlt. destruct (find_index (fun x => i_ref x =? 0) ic) as [i|] eqn:E.
  { apply find_index_Some in E as [(x & Hi & Hx%Z.eqb_eq) _]. eauto. }
  rewrite find_index_None in E. exfalso.
  assert (forall i x, ic !! i = Some x -> 0 < i_ref x) as Hpos.
  { intros i x Hi. pose proof (ca_ref _ _ _ C i x Hi). specialize (E i x Hi). apply Z.eqb_neq in E. lia. }
  assert (NoDup (i_num <$> ic)) as Hnd.
  { apply NoDup_alt. intros i j k. rewrite !list_lookup_fmap. intros (x & Hi & ->)%fmap_Some (z & Hj & Ez)%fmap_Some.
    apply (ca_uniq _ _ _ C i j (i_num x)); [exists x|exists z]; split_and!; eauto. }
  assert (list_to_set (i_num <$> ic) ⊆ dom R) as Hsub.
  { intros k. rewrite elem_of_list_to_set, list_elem_of_fmap. intros (x & -> & (i & Hi)%list_elem_of_lookup).
    apply gmultiset_elem_of_dom. eapply at_slot_ref; eauto. }
  apply subseteq_size in Hsub. rewrite size_list_to_set, length_fmap in Hsub by done. lia.
Qed.

(** One slot changes, which held the inode it holds now or was unused. *)
Lemma cached_insert R L ic R' L' i x x' :
  cached R L ic -> ic !! i = Some x -> (0 < i_ref x -> i_num x = i_num x') -> (i_ref x = 0 -> i_num x' ∉ R) ->
  0 <= i_ref x' -> i_ref x' = Z.of_nat (multiplicity (i_num x') R') ->
  (forall k, k <> i_num x' -> multiplicity k R' = multiplicity k R) ->
  (0 < i_ref x' -> slot_ok R' (bool_decide (L' = Some i)) x') ->
  (forall j, j <> i -> L' = Some j <-> L = Some j) -> (L' = Some i -> 0 < i_ref x') ->
  cached R' L' (<[i := x']> ic).
Proof.
  intros C Hi Hsame Hnew Hpos Href Hmult Hslot HL HLi. pose proof (lookup_lt_Some _ _ _ Hi) as Hlt.
  assert (forall j k, at_slot (<[i:=x']> ic) j k <-> (j = i /\ 0 < i_ref x' /\ i_num x' = k) \/ (j <> i /\ at_slot ic j k)) as Hat.
  { intros j k. unfold at_slot. destruct (decide (j = i)) as [->|Hne].
    - rewrite list_lookup_insert_eq by done. naive_solver.
    - rewrite list_lookup_insert_ne by done. naive_solver. }
  assert (forall j k, j <> i -> at_slot ic j k -> k <> i_num x') as Hother.
  { intros j k Hne Hj ->. apply Hne. destruct (decide (0 < i_ref x)) as [Hx|Hx].
    - apply (ca_uniq _ _ _ C j i (i_num x')); [done|]. exists x. auto.
    - exfalso. apply Hnew; [pose proof (ca_ref _ _ _ C i x Hi); lia|]. destruct Hj as (z & Hz & Hzr & <-). by eapply at_slot_ref. }
  split.
  - intros j z. destruct (decide (j = i)) as [->|Hne].
    + rewrite list_lookup_insert_eq by done. by intros [= <-].
    + rewrite list_lookup_insert_ne by done. apply (ca_ref _ _ _ C).
  - intros j z. destruct (decide (j = i)) as [->|Hne].
    + rewrite list_lookup_insert_eq by done. intros [= <-]. done.
    + rewrite list_lookup_insert_ne by done. intros Hj Hz. destruct (ca_slot _ _ _ C j z Hj Hz) as [S1 S2 S3 S4 S5].
      split; [|done..|by rewrite (bool_decide_ext _ _ (HL j Hne))|done]. rewrite Hmult; [done|]. apply (Hother j); [done|]. exists z. auto.
  - intros k Hk. destruct (decide (k = i_num x')) as [->|Hne].
    + exists i. apply Hat. left. rewrite elem_of_multiplicity in Hk. split_and!; [done|lia|done].
    + assert (k ∈ R) as HR by (rewrite elem_of_multiplicity in *; by rewrite <- Hmult).
      destruct (ca_has _ _ _ C k HR) as [j Hj]. exists j. apply Hat. right. split; [|done]. intros ->.
      destruct Hj as (z & Hz & Hr & <-). assert (z = x) as -> by congruence. by rewrite Hsame in Hne.
  - intros j j' k. rewrite !Hat. intros [(-> & _ & <-)|[Hj Hak]] [(-> & _ & Ek)|[Hj' Hak']]; try done.
    + by destruct (Hother j' _ Hj' Hak').
    + subst k. by destruct (Hother j _ Hj Hak).
    + by eapply (ca_uniq _ _ _ C).
  - intros j Hj. destruct (decide (j = i)) as [->|Hne].
    + exists (i_num x'). apply Hat. left. auto.
    + destruct (ca_lock _ _ _ C j) as [k Hk]; [by apply HL|]. exists k. apply Hat. by right.
Qed.
End cached.

(** * The operations on inodes *)

Lemma mult_add (k : Z) (R : gmultiset Z) : multiplicity k ({[+ k +]} ⊎ R) = S (multiplicity k R).
Proof. by rewrite multiplicity_disj_union, multiplicity_singleton_eq. Qed.
Lemma mult_add_ne (k m : Z) (R : gmultiset Z) : m <> k -> multiplicity m ({[+ k +]} ⊎ R) = multiplicity m R.
Proof. intros. by rewrite multiplicity_disj_union, multiplicity_singleton_ne. Qed.
Lemma mult_size (m : Z) (R : gmultiset Z) : (multiplicity m R <= base.size R)%nat.
Proof.
  assert ((multiplicity m R *: {[+ m +]}) ⊆ R) as Hs%gmultiset_subseteq_size.
  { intros k. rewrite multiplicity_scalar_mul, multiplicity_singleton. case_decide; subst; lia. }
  by rewrite gmultiset_size_scalar_mul, gmultiset_size_singleton, Nat.mul_1_r in Hs.
Qed.

(** Nobody else holds a buffer, so any block can be read. *)
Record at_rest {T} {TO : TxOps T} {TL : TxLaws T} (lo n : Z) (P : list block -> Prop) (y : superblock) (t : T) (c : cache) : Prop := {
  ar_ready : ready lo n P t c;
  ar_volume : volume y c;
  ar_held : held c = ∅;
  ar_room : Z.of_nat (base.size (pinned c)) < NBUF
}.

Section ops.
Context {T : Type} {TO : TxOps T} {TL : TxLaws T} (lo n : Z) (P : list block -> Prop).
Context (y : superblock) (LY : layout lo n y) (c : cache) (TR : tree y (view c)).
Abbreviation v := (view c).
Abbreviation on_disk := (fun s : fsstate T => P (tdisk (tx s))).
Abbreviation cached := (cached y v).
Abbreviation at_rest := (fun t => at_rest lo n P y t c).

Lemma on_disk_rest ic t : at_rest t -> on_disk (mkFs y ic t).
Proof. intros [[R _ HP] _ _ _]. cbn [tx]. by destruct (trep_sizes _ _ _ _ R) as (-> & _). Qed.

Lemma get_slot {A} (f : inode -> M (fsstate T) A) ic t i x Q :
  ic !! i = Some x -> chl on_disk (f x (mkFs y ic t)) Q -> chl on_disk (bind (get_inode i) f (mkFs y ic t)) Q.
Proof. intros Hi H. apply chl_bind. unfold get_inode. cbn [icache]. by rewrite Hi. Qed.
Lemma upd_slot {A} (f : M (fsstate T) A) g ic t i x Q :
  ic !! i = Some x -> chl on_disk (f (mkFs y (<[i := g x]> ic) t)) Q -> chl on_disk ((upd_inode i g ;; f) (mkFs y ic t)) Q.
Proof.
  intros Hi H. apply chl_bind. unfold upd_inode. cstep. cbn [sb icache tx]. rewrite <- (list_insert_id ic i x Hi) at 1.
  rewrite list_insert_alter, list_alter_alter_eq. by rewrite list_insert_alter in H.
Qed.

(** A slot in use counts one reference more. *)
Lemma cached_more R L ic i x :
  cached R L ic -> ic !! i = Some x -> 0 < i_ref x -> let ic' := <[i := set_i_ref (i_ref x + 1) x]> ic in
  cached ({[+ i_num x +]} ⊎ R) L ic' /\ at_slot ic' i (i_num x) /\ forall j m, at_slot ic j m -> at_slot ic' j m.
Proof.
  intros C Hi Hr ic'. pose proof (mult_add (i_num x) R) as Em. destruct (ca_slot _ _ _ _ _ C i x Hi Hr) as [S1 S2 S3 S4 S5].
  assert (forall j m, at_slot ic j m -> at_slot ic' j m) as Hkeep.
  { intros j m. apply (at_slot_insert ic i x); [done|]. intros _. split; [cbn; lia|done]. }
  split; [|split; [apply Hkeep; by exists x|done]].
  eapply (cached_insert y v R L ic _ L i x _ C Hi); cbn [i_ref i_num set_i_ref]; rewrite ?Em; try done; try lia.
  - intros m Hm. by apply mult_add_ne.
  - intros _. split; [cbn [i_num set_i_ref i_ref]; rewrite Em; lia|done..].
Qed.

(** [iget] adds a reference. *)
Lemma iget_cached R L ic t k :
  at_rest t -> cached R L ic -> live y v k -> (base.size (dom R) < length ic)%nat -> Z.of_nat (base.size R) < 2 ^ 31 - 1 ->
  chl on_disk (iget ROOTDEV k (mkFs y ic t)) (fun i s' => exists ic', s' = mkFs y ic' t /\ length ic' = length ic /\
    cached ({[+ k +]} ⊎ R) L ic' /\ at_slot ic' i k /\ forall j m, at_slot ic j m -> at_slot ic' j m).
Proof.
  intros Hre C Hk Hroom Hmax. pose proof (fun l => on_disk_rest l t Hre) as Hd. unfold iget. do 2 cstep. do 2 cstep. cbn [icache].
  set (f := fun x : inode => (0 <? i_ref x) && (i_dev x =? ROOTDEV) && (i_num x =? k)).
  destruct (find_index f ic) as [i|] eqn:E.
  - apply find_index_Some in E as [(x & Hi & Hx) _]. unfold f in Hx. rewrite !andb_true_iff, Z.ltb_lt, !Z.eqb_eq in Hx. destruct Hx as [[Hr _] En].
    pose proof (so_ref _ _ _ _ _ (ca_slot _ _ _ _ _ C i x Hi Hr)). pose proof (mult_size (i_num x) R). eapply upd_slot; [exact Hi|]. do 2 cstep. cstep.
    rewrite s32_small by lia. eexists. rewrite length_insert. split; [done|]. split; [done|]. rewrite <- En. by apply cached_more.
  - rewrite find_index_None in E. assert (forall j, ~ at_slot ic j k) as Hno.
    { intros j (z & Hz & Hr & Ez). specialize (E j z Hz). unfold f in E. destruct (ca_slot _ _ _ _ _ C j z Hz Hr) as [_ S2 _ _ _].
      rewrite S2, Ez, !Z.eqb_refl in E. apply Z.ltb_lt in Hr. by rewrite Hr in E. }
    assert (k ∉ R) as HkR by (intros [j Hj]%(ca_has _ _ _ _ _ C); by apply (Hno j)).
    destruct (find_index (fun x => i_ref x =? 0) ic) as [i|] eqn:E0.
    2: { rewrite find_index_None in E0. destruct (unused_slot _ _ _ _ _ C Hroom) as (i & x & Hi & Hx). specialize (E0 i x Hi). by rewrite Hx in E0. }
    apply find_index_Some in E0 as [(x & Hi & Hx%Z.eqb_eq) _]. eapply upd_slot; [exact Hi|]. do 2 cstep. cstep.
    set (x' := mkInode _ _ _ _ _ _ _ _ _ _). exists (<[i:=x']> ic). rewrite length_insert. split; [done|]. split; [done|].
    split; [|split; [exists x'; rewrite list_lookup_insert_eq by (by eapply lookup_lt_Some); split; [done|]; split; [cbn; lia|done]|]].
    2: { intros ? ?; apply (at_slot_insert ic i x); [done|]. lia. }
    assert (L <> Some i) as HLi. { intros ->. destruct (ca_lock _ _ _ _ _ C i eq_refl) as (m & z & Hz & Hr & _). assert (z = x) by congruence. subst. lia. }
    pose proof (mult_add k R) as Em. rewrite not_elem_of_multiplicity in HkR. rewrite HkR in Em.
    eapply (cached_insert y v R L ic _ L i x x' C Hi); cbn [x' i_ref i_num]; rewrite ?Em; try done; try lia.
    + intros _. by rewrite not_elem_of_multiplicity.
    + intros m Hm. by apply mult_add_ne.
    + intros _. split; cbn [x' i_ref i_num i_dev i_flags]; try done; [by rewrite Em|]. rewrite bool_decide_eq_false_2 by done. by left.
Qed.

Lemma idup_cached R ic t i k :
  at_rest t -> cached R None ic -> at_slot ic i k -> Z.of_nat (base.size R) < 2 ^ 31 - 1 ->
  chl on_disk (idup i (mkFs y ic t)) (fun r s' => r = i /\ exists ic', s' = mkFs y ic' t /\ length ic' = length ic /\
    cached ({[+ k +]} ⊎ R) None ic' /\ at_slot ic' i k).
Proof.
  intros Hre C (x & Hi & Hr & <-) Hmax. pose proof (fun l => on_disk_rest l t Hre) as Hd. pose proof (mult_size (i_num x) R).
  pose proof (so_ref _ _ _ _ _ (ca_slot _ _ _ _ _ C i x Hi Hr)). unfold idup. do 2 cstep. eapply upd_slot; [exact Hi|]. do 2 cstep. cstep.
  rewrite s32_small by lia. split; [done|]. eexists. rewrite length_insert. split; [done|]. split; [done|]. destruct (cached_more R None ic i x C Hi Hr) as (? & ? & _). done.
Qed.

(** A flag of one slot changes. *)
Lemma cached_flags R L L' ic i x x' :
  cached R L ic -> ic !! i = Some x -> 0 < i_ref x -> i_ref x' = i_ref x -> i_num x' = i_num x ->
  slot_ok y v R (bool_decide (L' = Some i)) x' -> (forall j, j <> i -> L' = Some j <-> L = Some j) ->
  cached R L' (<[i := x']> ic) /\ forall j k, at_slot ic j k -> at_slot (<[i := x']> ic) j k.
Proof.
  intros C Hi Hr Er En S' HL. pose proof (lookup_lt_Some _ _ _ Hi) as Hlt. split.
  - eapply (cached_insert y v R L ic R L' i x x' C Hi); rewrite ?Er, ?En; try done; try lia. rewrite <- Er, <- En. apply S'.
  - intros j k. apply (at_slot_insert ic i x); [done|]. by rewrite Er, En.
Qed.

Lemma disk_of R b x : slot_ok y v R b x -> i_flags x <> 0 ->
  i_type x = kind y v (i_num x) /\ i_nlink x <> 0 /\ x = of_dinode (disk_inode y v (i_num x)) (mkInode ROOTDEV (i_num x) (i_ref x) (i_flags x) 0 0 0 0 0 []).
Proof.
  intros [_ Hd Hl _ Hv] Hf. specialize (Hv Hf). unfold kind. rewrite <- Hv. split; [done|].
  split; [|destruct x; cbn in *; by subst]. pose proof (tr_linked _ _ TR _ Hl) as Hn. by rewrite <- Hv in Hn.
Qed.

(** [ilock] of an inode that nobody has locked: it is read if need be. *)
Lemma ilock_cached R ic t i k wake :
  at_rest t -> cached R None ic -> at_slot ic i k ->
  chl on_disk (ilock wake i (mkFs y ic t)) (fun _ s' => exists ic' t', s' = mkFs y ic' t' /\ at_rest t' /\ length ic' = length ic /\
    cached R (Some i) ic' /\ at_slot ic' i k).
Proof.
  intros Hre C (x & Hi & Hr & <-). pose proof (fun l => on_disk_rest l t Hre) as Hd. pose proof (ca_slot _ _ _ _ _ C i x Hi Hr) as S0.
  pose proof S0 as [S1 S2 S3 S4 S5]. rewrite bool_decide_eq_false_2 in S4 by done. pose proof (lookup_lt_Some _ _ _ Hi) as Hlt.
  assert (busy x = false) as Hb by (unfold busy; by destruct S4 as [-> | ->]).
  unfold ilock. eapply get_slot; [exact Hi|]. destruct (Z.ltb_spec (i_ref x) 1); [lia|]. do 2 cstep.
  eapply chl_seq.
  { instantiate (1 := fun _ s' => s' = mkFs y ic t). destruct wake; cbn [wait_inode]; (eapply get_slot; [exact Hi|]); rewrite Hb; by cstep. }
  intros [] ? ->. eapply upd_slot; [exact Hi|]. do 2 cstep. set (x1 := set_i_flags _ x). eapply get_slot; [by rewrite list_lookup_insert_eq|].
  destruct S4 as [F|F].
  - assert (valid x1 = false) as -> by (unfold valid, x1; cbn [set_i_flags i_flags]; by rewrite F). do 2 cstep. cbn [sb].
    pose proof (iblock_range lo n y LY x1 ltac:(cbn [x1 set_i_flags i_num]; destruct S3 as [? _]; lia)) as Hib. cbn [x1 set_i_flags i_num i_dev] in *. rewrite S2.
    destruct Hre as [Hrd Hvo Hh Hcap]. destruct (trep_sizes _ _ _ _ (rd_rep _ _ _ _ _ Hrd)) as (_ & Hl & _). pose proof (vo_size _ _ Hvo). pose proof (map_pos lo n y LY).
    destruct (ly_map _ _ _ LY), (ly_log _ _ _ LY). destruct (zlookup_range_Some v (IBLOCK (i_num x) y)) as [d Ed]; [lia|].
    eapply get_block; [exact Hrd|exact Ed|by apply no_held| |].
    { right. unfold held_blocks. by rewrite Hh, map_img_empty_L, union_empty_r_L. }
    intros b t1 Hb1 R1. eapply upd_slot; [by rewrite list_lookup_insert_eq|]. rewrite list_insert_insert_eq.
    eapply fs_seq; [apply (drop_block lo n P t1 c b (IBLOCK (i_num x) y)); [apply Hrd|apply Hrd|done|done]|]. intros [] t2 Hrd2.
    eapply upd_slot; [by rewrite list_lookup_insert_eq|]. rewrite list_insert_insert_eq. set (x2 := set_i_flags _ _).
    assert (x2 = of_dinode (disk_inode y v (i_num x)) (set_i_flags (Z.lor I_VALID I_BUSY) x)) as E2.
    { unfold x2, x1, disk_inode, blk. cbn [i_flags of_dinode set_i_flags]. by rewrite Ed, F. }
    eapply get_slot; [by rewrite list_lookup_insert_eq|]. rewrite E2. cbn [of_dinode i_type]. destruct S3 as [S3 S3']. unfold kind in S3'.
    destruct (Z.eqb_spec (di_type (disk_inode y v (i_num x))) 0); [done|]. cstep. eexists _, t2. split; [done|]. split; [by split|]. rewrite length_insert. split; [done|].
    set (x3 := of_dinode _ _). destruct (cached_flags R None (Some i) ic i x x3) as [C3 A3]; [done..| |naive_solver|].
    { rewrite bool_decide_eq_true_2 by done. by split. }
    split; [exact C3|]. apply A3. by exists x.
  - assert (valid x1 = true) as -> by (unfold valid, x1; cbn [set_i_flags i_flags]; by rewrite F). cstep. eexists _, t. split; [done|]. split; [done|].
    rewrite length_insert. split; [done|]. destruct (cached_flags R None (Some i) ic i x x1) as [C3 A3]; [done..| |naive_solver|].
    { rewrite bool_decide_eq_true_2 by done. split; try done; [cbn [x1 set_i_flags i_flags]; by rewrite F|]. intros _. apply S5. by rewrite F. }
    split; [exact C3|]. apply A3. by exists x.
Qed.

Lemma iunlock_cached R ic t i :
  at_rest t -> cached R (Some i) ic ->
  chl on_disk (iunlock i (mkFs y ic t)) (fun _ s' => exists ic', s' = mkFs y ic' t /\ length ic' = length ic /\
    cached R None ic' /\ forall j k, at_slot ic j k -> at_slot ic' j k).
Proof.
  intros Hre C. pose proof (fun l => on_disk_rest l t Hre) as Hd. destruct (ca_lock _ _ _ _ _ C i eq_refl) as (k & x & Hi & Hr & <-).
  pose proof (ca_slot _ _ _ _ _ C i x Hi Hr) as [S1 S2 S3 S4 S5]. rewrite bool_decide_eq_true_2 in S4 by done.
  unfold iunlock. eapply get_slot; [exact Hi|]. assert (busy x = true) as -> by (unfold busy; by rewrite S4).
  destruct (Z.ltb_spec (i_ref x) 1); [lia|]. cbn [negb orb]. do 2 cstep. eapply upd_slot; [exact Hi|]. do 2 cstep. cstep. eexists. split; [done|].
  rewrite length_insert. split; [done|]. apply (cached_flags R (Some i) None ic i x); [done..| |naive_solver]. rewrite bool_decide_eq_false_2 by done.
  split; try done; cbn [set_i_flags i_flags]; rewrite S4; [by right|]. intros _. apply S5. by rewrite S4.
Qed.

(** [iput] of an inode that has links drops the reference. *)
Lemma iput_cached R ic t i k :
  at_rest t -> cached ({[+ k +]} ⊎ R) None ic -> at_slot ic i k -> Z.of_nat (base.size R) < 2 ^ 31 - 1 ->
  chl on_disk (iput i (mkFs y ic t)) (fun _ s' => exists ic', s' = mkFs y ic' t /\ length ic' = length ic /\
    cached R None ic' /\ forall j m, m ∈ R -> at_slot ic j m -> at_slot ic' j m).
Proof.
  intros Hre C (x & Hi & Hr & En) Hmax. pose proof (fun l => on_disk_rest l t Hre) as Hd. pose proof (ca_slot _ _ _ _ _ C i x Hi Hr) as S0.
  pose proof S0 as [S1 S2 S3 S4 S5]. rewrite bool_decide_eq_false_2 in S4 by done. pose proof (lookup_lt_Some _ _ _ Hi) as Hlt.
  unfold iput. do 2 cstep. eapply get_slot; [exact Hi|].
  assert ((i_ref x =? 1) && valid x && (i_nlink x =? 0) = false) as ->.
  { destruct S4 as [F|F]; [unfold valid; rewrite F; by destruct (i_ref x =? 1)|].
    destruct (disk_of _ _ _ S0) as (_ & Hn & _); [by rewrite F|]. destruct (Z.eqb_spec (i_nlink x) 0); [done|]. by rewrite andb_false_r. }
  do 2 cstep. eapply upd_slot; [exact Hi|]. cstep. eexists. split; [done|]. rewrite length_insert. split; [done|].
  rewrite En, mult_add in S1. set (x' := set_i_ref _ x).
  assert (i_ref x' = Z.of_nat (multiplicity k R)) as Er.
  { unfold x'. cbn [set_i_ref i_ref]. rewrite S1. pose proof (mult_size k R). rewrite s32_small; lia. }
  split.
  - eapply (cached_insert y v _ None ic R None i x x' C Hi); rewrite ?Er; try done; try lia.
    + cbn [x' set_i_ref i_num]. by rewrite En.
    + intros m Hm. cbn [x' set_i_ref i_num] in Hm. rewrite En in Hm. by rewrite mult_add_ne.
    + intros Hpos. split; cbn [x' set_i_ref i_num i_dev i_flags]; try done. by rewrite En.
  - intros j m Hm (z & Hz & Hzr & <-). destruct (decide (j = i)) as [->|Hne].
    + assert (z = x) as -> by congruence. exists x'. rewrite list_lookup_insert_eq by done. rewrite elem_of_multiplicity, En in Hm.
      rewrite Er. split; [done|]. split; [lia|done].
    + exists z. by rewrite list_lookup_insert_ne.
Qed.

Lemma iunlockput_cached R ic t i k :
  at_rest t -> cached ({[+ k +]} ⊎ R) (Some i) ic -> at_slot ic i k -> Z.of_nat (base.size R) < 2 ^ 31 - 1 ->
  chl on_disk (iunlockput i (mkFs y ic t)) (fun _ s' => exists ic', s' = mkFs y ic' t /\ length ic' = length ic /\
    cached R None ic' /\ forall j m, m ∈ R -> at_slot ic j m -> at_slot ic' j m).
Proof.
  intros Hre C Ha Hmax. unfold iunlockput. eapply chl_seq; [by apply (iunlock_cached ({[+ k +]} ⊎ R))|]. intros [] s1 (ic1 & -> & L1 & C1 & K1).
  eapply chl_conseq; [apply (iput_cached R ic1 t i k); try done; by apply K1|]. intros [] s2 (ic2 & -> & L2 & C2 & K2). exists ic2. split_and!; [done|congruence|done|]. eauto.
Qed.

(** ** Directories *)

Lemma ref_rep x r : file_rep y v x -> file_rep y v (set_i_ref r x).
Proof. intros [[] ? ? ? ? ? ?]. by split. Qed.

(** The slot of a file that is locked. *)
Lemma file_slot R ic t i k :
  at_rest t -> cached R (Some i) ic -> at_slot ic i k -> file_rep y v (disk_file y v k) ->
  exists x, ic !! i = Some x /\ opened lo n P y t c x /\ file_rep y v x /\ i_type x = kind y v k /\ contents v x = file_at y v k /\ i_dev x = ROOTDEV.
Proof.
  intros [Hrd Hvo Hh _] C (x & Hi & Hr & <-) FR. exists x. split; [done|]. pose proof (ca_slot _ _ _ _ _ C i x Hi Hr) as S0. pose proof S0 as [_ S2 S3 S4 _].
  rewrite bool_decide_eq_true_2 in S4 by done. destruct (disk_of _ _ _ S0) as (Ht & _ & Ex); [by rewrite S4|].
  apply (ref_rep _ (i_ref x)), (flags_rep _ _ _ (i_flags x)) in FR.
  assert (set_i_flags (i_flags x) (set_i_ref (i_ref x) (disk_file y v (i_num x))) = x) as E by (rewrite Ex at 4; done).
  rewrite E in FR. split_and!; [by split; [..|apply FR]|done|done| |done]. rewrite <- E at 1. done.
Qed.

Context (dr : Z -> option (nat -> Z -> M (fsstate T) (Z * list Z))).

Section lookup.
Context (ic : list inode) (i : nat) (x : inode) (nm : list Z).
Abbreviation bs := (contents v x).
Hypothesis (Hi : ic !! i = Some x) (FR : file_rep y v x) (Hsz : i_size x mod DIRENT_SIZE = 0) (Hbs : bytes bs) (Hnm : bytes nm) (Hdev : i_dev x = ROOTDEV).
Hypothesis Hcap : Z.of_nat (base.size (pinned c)) < NBUF.
Abbreviation st t := (mkFs y ic t).

Lemma dirlookup_loop_spec fuel t j Q :
  opened lo n P y t c x -> i_size x - DIRENT_SIZE * Z.of_nat j < DIRENT_SIZE * Z.of_nat fuel -> DIRENT_SIZE * Z.of_nat j <= i_size x ->
  (forall m, (m < j)%nat -> names_it (cstr (Z.to_nat DIRSIZ) nm) (dent bs m) = false) ->
  (forall t', opened lo n P y t' c x -> match dir_find bs (cstr (Z.to_nat DIRSIZ) nm) with
     | None => Q None (st t')
     | Some (m, k) => chl on_disk (iget ROOTDEV k (st t')) (fun i' s' => Q (Some (i', DIRENT_SIZE * Z.of_nat m)) s')
     end) ->
  chl on_disk (dirlookup_loop dr fuel i nm (DIRENT_SIZE * Z.of_nat j) (st t)) Q.
Proof.
  pose proof (fi_size _ _ _ FR) as Hmax. change (MAXFILE * BSIZE) with 71680 in Hmax. change DIRENT_SIZE with 16 in *.
  pose proof (Z.div_exact (i_size x) 16 ltac:(lia)) as [_ Hex]. specialize (Hex Hsz). set (N := i_size x / 16) in *.
  assert (length bs / Z.to_nat 16 = Z.to_nat N)%nat as HN.
  { rewrite length_file_contents. change (Z.to_nat 16) with 16%nat. replace (Z.to_nat (i_size x)) with (Z.to_nat N * 16)%nat by lia. by apply Nat.div_mul. }
  revert t j. induction fuel as [|fuel IH]; intros t j Hop Hf Hj Hno HQ; cbn [dirlookup_loop]; (eapply get_slot; [exact Hi|]);
    destruct (Z.ltb_spec (16 * Z.of_nat j) (i_size x)) as [Hlt|Hge]; try lia.
  - pose proof (lookup_lt_Some _ _ _ Hi) as Hip. pose proof (readi_spec lo n P y LY ic i Hip dr t c x (16 * Z.of_nat j) DIRENT_SIZE Hop FR Hcap) as Hrd.
    change DIRENT_SIZE with 16 in Hrd. rewrite (list_insert_id ic i x Hi) in Hrd. eapply chl_seq; [apply Hrd; lia|]. intros r s' (-> & t' & -> & Hop'). change DIRENT_SIZE with 16.
    destruct (Z.ltb_spec (i_size x) (16 * Z.of_nat j)); [lia|]. destruct (Z.leb_spec (2 ^ 32) (16 * Z.of_nat j + 16)); [lia|]. cbn [orb fst snd].
    rewrite (Z.min_l 16) by lia. change (negb (16 =? 16)) with false. cbn iota.
    change (slice bs (16 * Z.of_nat j) 16) with (slice bs (DIRENT_SIZE * Z.of_nat j) DIRENT_SIZE). set (e := slice bs (DIRENT_SIZE * Z.of_nat j) DIRENT_SIZE).
    assert (names_it (cstr (Z.to_nat DIRSIZ) nm) (dent bs j) = negb (de_inum e =? 0) && (namecmp nm (de_name e) =? 0)) as En.
    { unfold names_it, dent. fold e. cbn [fst snd]. f_equal. symmetry. apply namecmp_text; [done|]. by apply Forall_take, Forall_drop, Forall_take, Forall_drop. }
    assert (names_it (cstr (Z.to_nat DIRSIZ) nm) (dent bs j) = false -> chl on_disk (dirlookup_loop dr fuel i nm (u32 (16 * Z.of_nat j + 16)) (st t')) Q) as Hnext.
    { intros Hfalse. rewrite u32_small by lia. replace (16 * Z.of_nat j + 16) with (16 * Z.of_nat (S j)) by lia. apply IH; [done|lia|lia| |done].
      intros m Hm. destruct (decide (m = j)) as [->|]; [done|]. apply Hno. lia. }
    rewrite En in Hnext. revert En Hnext. destruct (de_inum e =? 0), (namecmp nm (de_name e) =? 0); cbn [negb andb]; intros En Hnext; try by apply Hnext.
    specialize (HQ t' Hop'). assert (dir_find bs (cstr (Z.to_nat DIRSIZ) nm) = Some (j, de_inum e)) as E.
    { apply dir_find_Some. change DIRENT_SIZE with 16. rewrite HN. split; [lia|]. split; [done|]. split; [exact En|done]. }
    rewrite E in HQ. rewrite Hdev. cstep. eapply chl_conseq; [exact HQ|]. intros i' s' H'. cstep. exact H'.
  - cstep. specialize (HQ t Hop). assert (dir_find bs (cstr (Z.to_nat DIRSIZ) nm) = None) as E; [|by rewrite E in HQ].
    apply dir_find_None. change DIRENT_SIZE with 16. rewrite HN. intros m Hm. apply Hno. lia.
Qed.
End lookup.

(** [dirlookup] finds the first entry of that name and takes a reference to its inode. *)
Lemma dirlookup_cached R ic t i k nm :
  at_rest t -> cached R (Some i) ic -> at_slot ic i k -> kind y v k = T_DIR -> bytes nm ->
  (base.size (dom R) < length ic)%nat -> Z.of_nat (base.size R) < 2 ^ 31 - 1 ->
  chl on_disk (dirlookup dr i nm (mkFs y ic t)) (fun r s' => exists ic' t', s' = mkFs y ic' t' /\ at_rest t' /\ length ic' = length ic /\ at_slot ic' i k /\
    match dir_find (file_at y v k) (cstr (Z.to_nat DIRSIZ) nm) with
    | None => r = None /\ cached R (Some i) ic'
    | Some (j, k') => exists i', r = Some (i', DIRENT_SIZE * Z.of_nat j) /\ cached ({[+ k' +]} ⊎ R) (Some i) ic' /\ at_slot ic' i' k'
    end).
Proof.
  intros Hre C Ha Hk Hnm Hroom Hmax. pose proof Ha as (z & Hz & Hzr & Ek).
  pose proof (tr_dir _ _ TR k ltac:(rewrite <- Ek; by apply (ca_slot _ _ _ _ _ C i z)) Hk) as D.
  destruct (file_slot R ic t i k Hre C Ha (dk_file _ _ _ D)) as (x & Hi & Hop & FR & Ht & Ec & Hdev). rewrite Hk in Ht.
  assert (z = x) as -> by congruence.
  assert (i_size x mod DIRENT_SIZE = 0) as Hsz.
  { pose proof (dk_size _ _ _ D) as Hs. rewrite <- Ek, (fi_disk _ _ _ FR) in Hs. exact Hs. }
  unfold dirlookup. eapply get_slot; [exact Hi|]. rewrite Ht. change (negb (T_DIR =? T_DIR)) with false. cbn iota.
  pose proof (fi_size _ _ _ FR) as Hs. eapply (dirlookup_loop_spec ic i x nm) with (j := 0%nat); try done.
  - rewrite Ec. apply (dk_bytes _ _ _ D).
  - apply Hre.
  - change DIRENT_SIZE with 16 in *. rewrite Nat2Z.inj_succ, Z2Nat.id by (apply Z.div_pos; lia). Z.to_euclidean_division_equations. lia.
  - change DIRENT_SIZE with 16. lia.
  - lia.
  - intros t' Hop'. assert (at_rest t') as Hre' by (destruct Hop', Hre; by split). rewrite Ec.
    destruct (dir_find (file_at y v k) (cstr (Z.to_nat DIRSIZ) nm)) as [[j k']|] eqn:E; [|exists ic, t'; done].
    eapply chl_conseq; [apply (iget_cached R (Some i) ic t' k'); try done; by eapply dir_find_live|].
    intros i' s' (ic' & -> & Hl & C' & A' & Hkeep). exists ic', t'. split_and!; try done; [by apply Hkeep|]. by exists i'.
Qed.

(** ** Paths *)

Lemma size_dom_add (k : Z) (R : gmultiset Z) : (base.size (dom ({[+ k +]} ⊎ R)) <= S (base.size (dom R)))%nat.
Proof.
  assert (dom ({[+ k +]} ⊎ R) ⊆ ({[k]} : gset Z) ∪ dom R) as Hs%subseteq_size.
  { intros m. rewrite elem_of_union, !gmultiset_elem_of_dom, gmultiset_elem_of_disj_union, gmultiset_elem_of_singleton, elem_of_singleton. done. }
  pose proof (size_union_alt ({[k]} : gset Z) (dom R)) as E. rewrite size_singleton in E.
  pose proof (subseteq_size (dom R ∖ ({[k]} : gset Z)) (dom R) ltac:(set_solver)). lia.
Qed.

(** What [namex] leaves: one reference more, to its result, and for the parent the last part of the path in the buffer. *)
Definition found (R : gmultiset Z) (len : nat) (parent : bool) (es : list (list Z)) (w : option Z) (r : option nat * list Z) (s' : fsstate T) : Prop :=
  exists ic' t', s' = mkFs y ic' t' /\ at_rest t' /\ length ic' = len /\
    match w with
    | None => r.1 = None /\ cached R None ic'
    | Some k => exists i, r.1 = Some i /\ cached ({[+ k +]} ⊎ R) None ic' /\ at_slot ic' i k /\
        (parent = true -> forall e, last es = Some e -> cstr (Z.to_nat DIRSIZ) r.2 = take (Z.to_nat DIRSIZ) e)
    end.

(** The end of the path. *)
Lemma namex_end R (parent : bool) ic t i k name :
  at_rest t -> cached ({[+ k +]} ⊎ R) None ic -> at_slot ic i k -> Z.of_nat (base.size R) < 2 ^ 31 - 1 ->
  chl on_disk ((if parent then iput i ;; ret (@None nat, name) else ret (Some i, name)) (mkFs y ic t)) (found R (length ic) parent [] (walk y v parent k [])).
Proof.
  intros Hre C Ha Hmax. destruct parent; cbn [walk].
  - eapply chl_seq; [by apply (iput_cached R ic t i k)|]. intros [] s1 (ic1 & -> & L1 & C1 & _). cstep. exists ic1, t. done.
  - cstep. exists ic, t. split_and!; try done. exists i. done.
Qed.

Lemma namex_loop_spec R fuel wake parent ic t i k path name :
  at_rest t -> cached ({[+ k +]} ⊎ R) None ic -> at_slot ic i k -> is_text path -> bytes path -> length name = Z.to_nat DIRSIZ -> bytes name ->
  (length path <= fuel)%nat -> (base.size (dom R) + 2 <= length ic)%nat -> Z.of_nat (base.size R) + 2 < 2 ^ 31 ->
  chl on_disk (namex_loop dr fuel wake i path name parent (mkFs y ic t))
    (found R (length ic) parent (components path) (walk y v parent k (components path))).
Proof.
  revert ic t i k path name. induction fuel as [|fuel IH]; intros ic t i k path name Hre C Ha Htext Hpath Hlen Hname Hfuel Hroom Hmax;
    cbn [namex_loop]; pose proof (skipelem_spec path name Htext Hlen) as Hsk;
    destruct (skipelem path name) as [[rest nm]|] eqn:Esk.
  - destruct Hsk as (e & _ & _ & _ & _ & Hlt & _). lia.
  - rewrite Hsk. by apply namex_end; [..|lia].
  - destruct Hsk as (e & Ec & Hnm & Hln & Htr & Hlt & Hend). rewrite Ec. destruct (skipelem_bytes _ _ _ _ Hpath Hname Esk) as [Hbr Hbn].
    eapply chl_seq; [by eapply (ilock_cached _ ic t i k wake)|]. intros [] s1 (ic1 & t1 & -> & Hre1 & L1 & C1 & A1).
    pose proof A1 as (x & Hx & Hr & En). eapply get_slot; [exact Hx|]. pose proof (ca_slot _ _ _ _ _ C1 i x Hx Hr) as S0.
    destruct (disk_of _ _ _ S0) as (Ht & _ & _); [pose proof (so_flags _ _ _ _ _ S0) as F; rewrite bool_decide_eq_true_2 in F by done; by rewrite F|].
    rewrite Ht, En. cbn [walk]. destruct (Z.eqb_spec (kind y v k) T_DIR) as [Hk|Hk]; cbn [negb].
    2: { eapply chl_seq; [apply (iunlockput_cached R ic1 t1 i k); try done; lia|]. intros [] s2 (ic2 & -> & L2 & C2 & _). cstep.
         exists ic2, t1. split_and!; try done. congruence. }
    assert ((first_char rest =? 0) = bool_decide (components rest = [])) as Ef.
    { destruct rest as [|b rest]; [rewrite bool_decide_eq_true_2; [done|by apply Hend]|]. apply Forall_cons in Htr as [Hb _].
      rewrite bool_decide_eq_false_2; [by apply Z.eqb_neq|]. intros E. by apply Hend in E. }
    rewrite Ef. destruct (parent && bool_decide (components rest = [])) eqn:Ep.
    { apply andb_prop in Ep as [-> Ep]. apply bool_decide_eq_true in Ep. eapply chl_seq; [by apply (iunlock_cached ({[+ k +]} ⊎ R))|].
      intros [] s2 (ic2 & -> & L2 & C2 & K2). cstep. exists ic2, t1. split_and!; [done|done|congruence|]. exists i. split_and!; [done|done|by apply K2|].
      intros _ e'. rewrite Ep. intros [= <-]. exact Hnm. }
    pose proof (size_dom_add k R) as Hdom. assert (Z.of_nat (base.size ({[+ k +]} ⊎ R)) < 2 ^ 31 - 1) as Hs1.
    { rewrite gmultiset_size_disj_union, gmultiset_size_singleton. lia. }
    eapply chl_seq; [apply (dirlookup_cached _ ic1 t1 i k nm Hre1 C1 A1 Hk Hbn); [lia|done]|].
    intros r s2 (ic2 & t2 & -> & Hre2 & L2 & A2 & Hr2). rewrite Hnm in Hr2. destruct (dir_find _ _) as [[j k']|].
    + destruct Hr2 as (i' & -> & C2 & A2'). rewrite (comm_L disj_union {[+ k' +]}), <- (assoc_L disj_union), (comm_L disj_union R) in C2.
      eapply chl_seq; [apply (iunlockput_cached ({[+ k' +]} ⊎ R) ic2 t2 i k); try done|].
      { rewrite gmultiset_size_disj_union, gmultiset_size_singleton in *. lia. }
      intros [] s3 (ic3 & -> & L3 & C3 & K3). replace (length ic) with (length ic3) by congruence. eapply chl_conseq.
      { apply (IH ic3 t2 i' k' rest nm); try done; [|lia|congruence]. apply K3; [multiset_solver|done]. }
      intros r s4 (ic4 & t4 & -> & Hre4 & L4 & H4). exists ic4, t4. split_and!; try done.
      destruct (walk y v parent k' (components rest)) eqn:Ew; [|done]. destruct H4 as (i4 & H41 & H42 & H43 & H44). exists i4. split_and!; try done.
      intros Hp e' He'. apply H44; [done|]. destruct (components rest); [subst parent; done|done].
    + destruct Hr2 as [-> C2]. eapply chl_seq; [apply (iunlockput_cached R ic2 t2 i k); try done; lia|]. intros [] s3 (ic3 & -> & L3 & C3 & _). cstep.
      exists ic3, t2. split_and!; try done. congruence.
  - rewrite Hsk. by apply namex_end; [..|lia].
Qed.
Lemma namex_spec R ic t wake cwd k0 path parent name :
  at_rest t -> cached R None ic -> (first_char path <> 47 -> at_slot ic cwd k0) -> is_text path -> bytes path ->
  length name = Z.to_nat DIRSIZ -> bytes name -> (base.size (dom R) + 2 <= length ic)%nat -> Z.of_nat (base.size R) + 2 < 2 ^ 31 ->
  let start := if first_char path =? 47 then ROOTINO else k0 in
  chl on_disk (namex dr wake cwd path parent name (mkFs y ic t))
    (found R (length ic) parent (components path) (walk y v parent start (components path))).
Proof.
  intros Hre C Ha Ht Hb Hl Hn Hroom Hmax start. unfold namex. eapply chl_seq.
  { instantiate (1 := fun i s' => exists ic', s' = mkFs y ic' t /\ length ic' = length ic /\ cached ({[+ start +]} ⊎ R) None ic' /\ at_slot ic' i start).
    unfold start. destruct (Z.eqb_spec (first_char path) 47).
    - eapply chl_conseq; [apply (iget_cached R None ic t ROOTINO); try done; [apply TR|lia|lia]|]. intros i s' (ic' & -> & ? & ? & ? & _). by exists ic'.
    - eapply chl_conseq; [apply (idup_cached R ic t cwd k0); auto; lia|]. intros i s' (-> & H). done. }
  intros i s' (ic' & -> & L' & C' & A'). rewrite <- L'. apply namex_loop_spec; try done. by rewrite L'.
Qed.

(** C4. Path lookup.  In a transaction on a well-formed tree of directories, with nobody holding an inode
    locked, [namex] returns what following the parts of the path from the root, or from
    the current directory, gives: an inode in the cache of that number, or null when a part is missing or is not
    a directory; with [parent], the directory before the last part, whose name is left in the buffer.  It
    holds one reference more, to its result, and none to the directories on the way; two unused slots of
    the inode cache are enough however long the path is, and it ends within as many rounds as the path has characters. *)
Theorem namex_walk R ic t wake cwd k0 path parent name :
  at_rest t -> cached R None ic -> (first_char path <> 47 -> at_slot ic cwd k0) -> is_text path -> bytes path ->
  length name = Z.to_nat DIRSIZ -> bytes name -> (base.size (dom R) + 2 <= length ic)%nat -> Z.of_nat (base.size R) + 2 < 2 ^ 31 ->
  let start := if first_char path =? 47 then ROOTINO else k0 in
  exists r s', run (namex dr wake cwd path parent name (mkFs y ic t)) = ROk r s' /\
    found R (length ic) parent (components path) (walk y v parent start (components path)) r s'.
Proof. intros Hre C Ha Ht Hb Hl Hn Hroom Hmax start. apply (chl_run on_disk). by apply namex_spec. Qed.
End ops.
