(* ===== verification/Syscall.v ===== *)
(** System-call arguments and the process system calls: syscall.c and sysproc.c.

    The kernel reads user memory through the page table of the running process; an
    access to a page that is not mapped is a fault in kernel mode, which trap.c turns into
    [panic("trap")].  Arguments are words on the user stack. *)

From Stdlib Require Import ZArith Lia.
From stdpp Require Import base tactics option gmap strings numbers list.
From S2P Require Import Prelude Mem CString Layout Kalloc PageTable ShmTable Vm ProcState Sched Mutex Shm Proc.
Open Scope Z_scope.

(** * User memory as the kernel sees it *)

Definition kload8 (pgdir va : Z) : M kmem Z :=
  fun s =>
    let e := pte (kmemory s) pgdir va in
    if present e then Ret (ld8 (kmemory s) (p2v (PTE_ADDR e) + va mod PGSIZE)) s else Panic "trap".

Definition kload32 (pgdir va : Z) : M kmem Z :=
  a <- kload8 pgdir va ;;
  b <- kload8 pgdir (va + 1) ;;
  c <- kload8 pgdir (va + 2) ;;
  d <- kload8 pgdir (va + 3) ;;
  ret (a + 2 ^ 8 * b + 2 ^ 16 * c + 2 ^ 24 * d).

(** The characters from [va] on: at most [n], up to the NUL. *)
Fixpoint kload_str (n : nat) (pgdir va : Z) : M kmem (list Z) :=
  match n with
  | O => ret []
  | S k =>
      c <- kload8 pgdir va ;;
      if c =? 0 then ret [] else
      cs <- kload_str k pgdir (va + 1) ;;
      ret (c :: cs)
  end.

Section syscall.
Context {FS : Type} {FO : FileOps FS}.
Abbreviation K := (kstate FS).
Variables (kend kdata forkret_addr trapret_addr : Z).
Variable me : nat.

(** * syscall.c: arguments

    [None] is the error return -1. *)

Definition fetchint (addr : Z) : M K (option Z) :=
  p <- get_proc me ;;
  if (sz p <=? addr) || (sz p <? u32 (addr + 4)) then ret None else
  x <- zoom (kload32 (pgdir p) addr) ;;
  ret (Some (s32 x)).

(** [for (s = *pp; s < ep; s++) if ( *s == 0) return s - *pp;] *)
Fixpoint fetchstr_loop (fuel : nat) (pd s ep len : Z) : M K (option Z) :=
  if s <? ep then
    match fuel with
    | O => nofuel
    | S k =>
        c <- zoom (kload8 pd s) ;;
        if c =? 0 then ret (Some len) else fetchstr_loop k pd (s + 1) ep (len + 1)
    end
  else ret None.

(** The pointer and the length. *)
Definition fetchstr (addr : Z) : M K (option (Z * Z)) :=
  p <- get_proc me ;;
  if sz p <=? addr then ret None else
  r <- fetchstr_loop (Z.to_nat (sz p - addr)) (pgdir p) addr (sz p) 0 ;;
  ret ((fun len => (addr, len)) <$> r).

Definition argint (n : Z) : M K (option Z) :=
  p <- get_proc me ;;
  esp <- zoom (load32 (tf p + TF_esp)) ;;
  fetchint (u32 (esp + 4 + 4 * n)).

Definition argptr (n size : Z) : M K (option Z) :=
  r <- argint n ;;
  match r with
  | None => ret None
  | Some i =>
      p <- get_proc me ;;
      if (sz p <=? u32 i) || (sz p <? u32 (u32 i + u32 size)) then ret None else ret (Some (u32 i))
  end.

Definition argstr (n : Z) : M K (option (Z * Z)) :=
  r <- argint n ;;
  match r with
  | None => ret None
  | Some addr => fetchstr (u32 addr)
  end.

(** * sysproc.c *)

Definition sys_fork : M K Z := fork kend kdata forkret_addr trapret_addr me.
Definition sys_exit : M K Z := exit me ;; ret 0.
Definition sys_wait (fuel : nat) : M K Z := sys_wait_body kend me fuel.

(** [if (argint(n, &x) < 0) return err; ...] *)
Definition with_int (n err : Z) (k : Z -> M K Z) : M K Z :=
  r <- argint n ;;
  match r with None => ret err | Some x => k x end.

Definition sys_kill : M K Z := with_int 0 (-1) (fun pid => kill pid).

Definition sys_getpid : M K Z :=
  p <- get_proc me ;;
  ret (pid p).

Definition sys_sbrk : M K Z :=
  with_int 0 (-1) (fun n =>
    p <- get_proc me ;;
    r <- growproc kend me n ;;
    ret (if r <? 0 then -1 else s32 (sz p))).

(** The loop of [sys_sleep]; a round per wakeup. *)
Fixpoint sleep_loop (fuel : nat) (n ticks0 : Z) : M K Z :=
  t <- gets ticks ;;
  if u32 (t - ticks0) <? u32 n then
    match fuel with
    | O => nofuel
    | S k =>
        p <- get_proc me ;;
        if negb (killed p =? 0) then release LK_ticks ;; ret (-1) else
        Sched.sleep me CH_ticks LK_ticks ;;
        sleep_loop k n ticks0
    end
  else release LK_ticks ;; ret 0.

Definition sys_sleep (fuel : nat) : M K Z :=
  with_int 0 (-1) (fun n =>
    acquire LK_ticks ;;
    ticks0 <- gets ticks ;;
    sleep_loop fuel n ticks0).

Definition sys_uptime : M K Z :=
  acquire LK_ticks ;;
  t <- gets ticks ;;
  release LK_ticks ;;
  ret (s32 t).

Definition sys_setHighPrio : M K Z := setHighPrio me ;; ret 0.

(** The arguments (name, length) of the shared-memory and mutex calls. *)
Definition arg_name (err : Z) (k : Z -> Z -> M K Z) : M K Z :=
  with_int 1 err (fun length =>
    r <- argptr 0 length ;;
    match r with None => ret err | Some name => k name length end).

(** The name in user memory, and [strncmp(name, "DNE", sizeof(name))]: a pointer has
    four bytes, so the terminating NUL is compared too. *)
Definition user_name (name : Z) : M K (list Z) :=
  p <- get_proc me ;;
  zoom (kload_str (Z.to_nat NAME_SIZE) (pgdir p) name).
Definition reserved (nm : list Z) : bool := strncmp nm DNE 4 =? 0.

Definition sys_shm_get : M K Z :=
  arg_name 0 (fun name length =>
    if 16 <? length then ret 0 else
    nm <- user_name name ;;
    if reserved nm then ret 0 else
    r <- shm_get me nm length ;;
    ret (s32 r)).

Definition sys_shm_rem : M K Z :=
  arg_name 0 (fun name length =>
    if 16 <? length then ret 0 else
    nm <- user_name name ;;
    if reserved nm then ret 0 else
    shm_rem me nm length).

Definition sys_mutex_create : M K Z := arg_name (-1) (fun name len => initmutex me name len).
Definition sys_mutex_delete : M K Z := with_int 0 (-1) (fun m => mxdelete m ;; ret 0).
Definition sys_mutex_lock : M K Z := with_int 0 (-1) (fun m => mxacquire me m ;; ret 0).
Definition sys_mutex_unlock : M K Z := with_int 0 (-1) (fun m => mxrelease me m ;; ret 0).
Definition sys_cv_wait : M K Z := with_int 0 (-1) (fun m => cvwait me m ;; ret 0).
Definition sys_cv_signal : M K Z := with_int 0 (-1) (fun m => cvsignal me m ;; ret 0).

(** * syscall.c: the dispatcher

    [files] are the calls of sysfile.c, by number (Sysfile.v). *)

Definition syscalls (fuel : nat) (files : Z -> option (M K Z)) (num : Z) : option (M K Z) :=
  match num with
  | 1 => Some sys_fork
  | 2 => Some sys_exit
  | 3 => Some (sys_wait fuel)
  | 6 => Some sys_kill
  | 11 => Some sys_getpid
  | 12 => Some sys_sbrk
  | 13 => Some (sys_sleep fuel)
  | 14 => Some sys_uptime
  | 22 => Some sys_mutex_create
  | 23 => Some sys_mutex_delete
  | 24 => Some sys_mutex_lock
  | 25 => Some sys_mutex_unlock
  | 26 => Some sys_cv_wait
  | 27 => Some sys_cv_signal
  | 28 => Some sys_shm_get
  | 29 => Some sys_shm_rem
  | 30 => Some sys_setHighPrio
  | _ => files num
  end.
Definition NSYSCALL : Z := 31.

Definition syscall (fuel : nat) (files : Z -> option (M K Z)) : M K unit :=
  p <- get_proc me ;;
  eax <- zoom (load32 (tf p + TF_eax)) ;;
  let num := s32 eax in
  r <- (match (if (0 <? num) && (num <? NSYSCALL) then syscalls fuel files num else None) with
        | Some f => f
        | None => ret (-1)
        end) ;;
  p <- get_proc me ;;
  zoom (store32 (tf p + TF_eax) r).

(** * Theorems *)

Lemma run_with_proc {A} s p (k : proc -> M K A) :
  ptable s !! me = Some p -> run ((p <- get_proc me ;; k p) s) = run (k p s).
Proof. intros Hp. rewrite run_bind, run_get_proc, Hp. done. Qed.

Lemma run_argptr n size s p i :
  ptable s !! me = Some p -> run (argint n s) = ROk (Some i) s ->
  run (argptr n size s) =
    ROk (if (sz p <=? u32 i) || (sz p <? u32 (u32 i + u32 size)) then None else Some (u32 i)) s.
Proof.
  intros Hp Hi. unfold argptr. rewrite run_bind, Hi. cbn [rbind]. rewrite (run_with_proc s p) by done.
  by destruct ((sz p <=? u32 i) || (sz p <? u32 (u32 i + u32 size))).
Qed.

(** C34. A pointer argument with a non-negative size is accepted exactly when the whole block
    lies in the process's memory, so no system call that passes such a size reads or writes
    outside it; the sum in the check does not wrap. *)
Theorem argptr_bounds n size s p i :
  ptable s !! me = Some p -> run (argint n s) = ROk (Some i) s ->
  0 <= sz p <= KERNBASE -> 0 <= size < 2 ^ 31 ->
  run (argptr n size s) =
    ROk (if (u32 i <? sz p) && (u32 i + size <=? sz p) then Some (u32 i) else None) s.
Proof.
  intros Hp Hi Hsz Hs. rewrite (run_argptr n size s p i Hp Hi). do 2 f_equal. unfold KERNBASE in Hsz.
  pose proof (u32_range i). rewrite (u32_small size) by lia.
  destruct (Z.leb_spec (sz p) (u32 i)), (Z.ltb_spec (u32 i) (sz p)); try lia; [done|].
  rewrite u32_small by lia. cbn [orb andb].
  destruct (Z.ltb_spec (sz p) (u32 i + size)), (Z.leb_spec (u32 i + size) (sz p)); done || lia.
Qed.

(** The size of a pointer argument is not checked for being negative: any pointer into the
    process's memory is accepted with any negative size down to minus the pointer itself,
    because the sum wraps around.  The calls that pass a length from user space ([read],
    [write], [shm_get], [mutex_create]) then go on with a negative length. *)
Theorem argptr_negative_size n size s p i :
  ptable s !! me = Some p -> run (argint n s) = ROk (Some i) s ->
  sz p <= KERNBASE -> u32 i < sz p -> - u32 i <= size < 0 ->
  run (argptr n size s) = ROk (Some (u32 i)) s.
Proof.
  intros Hp Hi Hsz Hlt Hs. rewrite (run_argptr n size s p i Hp Hi). unfold KERNBASE in Hsz.
  pose proof (u32_range i). destruct (Z.leb_spec (sz p) (u32 i)); [lia|]. cbn [orb].
  assert (u32 (u32 i + u32 size) = u32 i + size) as ->.
  { unfold u32 at 1 3. rewrite Z.add_mod_idemp_r by done. apply Z.mod_small. lia. }
  destruct (Z.ltb_spec (sz p) (u32 i + size)); [lia|done].
Qed.

(** The byte the kernel finds at a user address. *)
Definition kbyte (s : K) (pd va : Z) : option Z :=
  let m := kmemory (km (vm s)) in
  let e := pte m pd va in
  if present e then Some (ld8 m (p2v (PTE_ADDR e) + va mod PGSIZE)) else None.

Lemma run_kload8 {A} s pd va c (k : Z -> M K A) :
  kbyte s pd va = Some c -> run ((x <- zoom (kload8 pd va) ;; k x) s) = run (k c s).
Proof.
  intros Hc. rewrite run_bind, run_zoom. cbn [lget lens_kmem]. unfold kload8, kbyte in *. cbv zeta in Hc |- *.
  destruct (present _); [|done]. injection Hc as <-. cbn [run rzoom rbind lput lens_kmem].
  f_equal. by destruct s as [[]].
Qed.

Lemma run_fetchstr_loop fuel s pd a ep len f :
  (forall va, a <= va < ep -> kbyte s pd va = Some (f va)) -> Z.of_nat fuel = Z.max 0 (ep - a) ->
  exists r, run (fetchstr_loop fuel pd a ep len s) = ROk r s /\
    match r with
    | Some n => len <= n /\ a + (n - len) < ep /\ f (a + (n - len)) = 0 /\ forall va, a <= va < a + (n - len) -> f va <> 0
    | None => forall va, a <= va < ep -> f va <> 0
    end.
Proof.
  revert a len. induction fuel as [|fuel IH]; intros a len Hf Hfuel; cbn [fetchstr_loop].
  - destruct (Z.ltb_spec a ep); [lia|]. exists None. split; [done|]. lia.
  - destruct (Z.ltb_spec a ep); [|lia]. rewrite (run_kload8 s pd a (f a)) by (apply Hf; lia).
    destruct (Z.eqb_spec (f a) 0) as [E|E].
    + exists (Some len). split; [done|]. rewrite Z.sub_diag, Z.add_0_r. split_and!; [lia|done|done|lia].
    + destruct (IH (a + 1) (len + 1)) as (r & -> & Hr); [intros; apply Hf; lia|lia|]. exists r. split; [done|].
      assert (forall va, a <= va -> va = a \/ a + 1 <= va) as Hva by lia.
      destruct r as [n|].
      * destruct Hr as (H1 & H2 & H3 & H4). replace (a + (n - len)) with (a + 1 + (n - (len + 1))) by lia.
        split_and!; [lia|lia|done|]. intros va [Ha ?]. destruct (Hva va Ha) as [->|]; [done|]. apply H4. lia.
      * intros va [Ha ?]. destruct (Hva va Ha) as [->|]; [done|]. apply Hr. lia.
Qed.

(** String arguments: if the process's memory is mapped, [fetchstr] returns, and it returns the
    position and length of a NUL-terminated string that lies in that memory - the NUL included -
    or reports that there is no NUL up to the end of it. *)
Theorem fetchstr_correct addr s p f :
  ptable s !! me = Some p -> 0 <= addr < sz p ->
  (forall va, addr <= va < sz p -> kbyte s (pgdir p) va = Some (f va)) ->
  exists r, run (fetchstr addr s) = ROk r s /\
    match r with
    | Some (a, n) => a = addr /\ 0 <= n /\ addr + n < sz p /\ f (addr + n) = 0 /\
        forall va, addr <= va < addr + n -> f va <> 0
    | None => forall va, addr <= va < sz p -> f va <> 0
    end.
Proof.
  intros Hp Ha Hf. unfold fetchstr. rewrite (run_with_proc s p) by done.
  destruct (Z.leb_spec (sz p) addr); [lia|].
  destruct (run_fetchstr_loop (Z.to_nat (sz p - addr)) s (pgdir p) addr (sz p) 0 f) as (r & Hr & HQ); [done|lia|].
  rewrite run_bind, Hr. cbn [rbind]. rewrite run_ret. eexists. split; [done|].
  destruct r as [n|]; cbn; [|done]. rewrite !Z.sub_0_r in HQ. naive_solver lia.
Qed.

End syscall.

(** * A process with one page

    Its page table is at 0x80400000, the page at physical address 0x402000, the trap frame at
    0x80403000; the user stack is at 16 and the arguments are 4000 and -1. *)

Definition demo_mem : mem :=
  st8 (st8 (st32 (st32 (st32 (st32 (st32 ∅ 0x80400000 0x401007) 0x80401000 0x402007)
    (0x80403000 + TF_esp) 16) (0x80402000 + 20) 4000) (0x80402000 + 24) (-1)) (0x80402000 + 4000) 97)
    (0x80402000 + 4001) 0.
Definition demo_proc : proc := set_tf 0x80403000 (set_pgdir 0x80400000 (set_sz 4096 (set_state RUNNING proc_zero))).
Definition demo_kernel : kstate unit := mkK (mkVm (mkKmem true 0 demo_mem) [] 0) [demo_proc] 0 2 None [] 0 tt.

Lemma argptr_bounds_witness :
  run (argint 0 0 demo_kernel) = ROk (Some 4000) demo_kernel /\
  run (argptr 0 0 96 demo_kernel) = ROk (Some 4000) demo_kernel /\
  run (argptr 0 0 97 demo_kernel) = ROk None demo_kernel.
Proof.
  split; [vm_compute; reflexivity|].
  split; (etransitivity; [apply (argptr_bounds 0 0 _ demo_kernel demo_proc 4000);
    [reflexivity|vm_compute; reflexivity|unfold KERNBASE; cbn; lia|lia]|reflexivity]).
Defined.

Lemma argptr_negative_size_witness :
  run (argint 0 1 demo_kernel) = ROk (Some (-1)) demo_kernel /\
  run (argptr 0 0 (-1) demo_kernel) = ROk (Some 4000) demo_kernel.
Proof.
  split; [vm_compute; reflexivity|].
  apply (argptr_negative_size 0 0 (-1) demo_kernel demo_proc 4000);
    [reflexivity|vm_compute; reflexivity|unfold KERNBASE; cbn; lia|vm_compute; reflexivity|].
  vm_compute. split; [discriminate|reflexivity].
Defined.

Lemma fetchstr_correct_witness :
  exists r, run (fetchstr 0 4000 demo_kernel) = ROk r demo_kernel /\
    match r with
    | Some (a, n) => a = 4000 /\ 0 <= n /\ 4000 + n < 4096 /\ ld8 demo_mem (0x80402000 + (4000 + n)) = 0 /\
        forall va, 4000 <= va < 4000 + n -> ld8 demo_mem (0x80402000 + va) <> 0
    | None => forall va, 4000 <= va < 4096 -> ld8 demo_mem (0x80402000 + va) <> 0
    end.
Proof.
  apply (fetchstr_correct 0 4000 demo_kernel demo_proc (fun va => ld8 demo_mem (0x80402000 + va)));
    [reflexivity|cbn; lia|].
  intros va Hva. cbn [pgdir demo_proc set_pgdir sz set_sz set_tf] in *.
  assert (pte demo_mem 0x80400000 va = 0x402007) as E.
  { unfold pte. assert (PDX va = 0) as ->.
    { unfold PDX, PDXSHIFT. rewrite u32_small by lia. rewrite Z.shiftr_div_pow2 by lia. rewrite Z.div_small by lia. done. }
    assert (PTX va = 0) as ->.
    { unfold PTX, PTXSHIFT. rewrite u32_small by lia. rewrite Z.shiftr_div_pow2 by lia. rewrite Z.div_small by lia. done. }
    vm_compute. reflexivity. }
  unfold kbyte. cbn [vm km demo_kernel kmemory]. rewrite E. unfold PGSIZE. rewrite Z.mod_small by lia. reflexivity.
Defined.
