(* ===== verification/Sysfile.v ===== *)
(** File-system system calls: sysfile.c, exec.c.

    The layers below are reached through [SysFs], the calls sysfile.c and exec.c make into
    fs.c, file.c, pipe.c and log.c.  An
    inode is named by its slot in the inode cache, an open file by its slot in the
    file table. *)

From Stdlib Require Import ZArith Lia.
From stdpp Require Import base tactics option gmap strings numbers list.
From S2P Require Import Prelude Mem Bytes CString Layout Kalloc PageTable ShmTable Vm ProcState Sched Mutex Shm Proc Syscall FsFormat Fs File.
Open Scope Z_scope.

Definition O_RDONLY : Z := 0x000.
Definition O_WRONLY : Z := 0x001.
Definition O_RDWR : Z := 0x002.
Definition O_CREATE : Z := 0x200.

Class SysFs (FS : Type) := {
  begin_op : M FS unit;
  end_op : M FS unit;
  namei : option nat -> list Z -> M FS (option nat);
  nameiparent : option nat -> list Z -> M FS (option nat * list Z);
  ilock : nat -> M FS unit;
  iunlock : nat -> M FS unit;
  iput : nat -> M FS unit;
  iunlockput : nat -> M FS unit;
  iupdate : nat -> M FS unit;
  dirlookup : nat -> list Z -> M FS (option (nat * Z));
  dirlink : nat -> list Z -> Z -> M FS Z;
  ialloc : Z -> Z -> M FS nat;
  readi : nat -> Z -> Z -> M FS (Z * list Z);
  writei : nat -> list Z -> Z -> M FS Z;
  get_inode : nat -> M FS inode;
  upd_inode : nat -> (inode -> inode) -> M FS unit;
  filealloc : M FS (option nat);
  filedup : nat -> M FS unit;
  fileclose : nat -> M FS unit;
  fileread : nat -> Z -> M FS (Z * list Z);
  filewrite : nat -> list Z -> Z -> M FS Z;
  filestat : nat -> M FS (Z * list Z);
  upd_file : nat -> (file -> file) -> M FS unit;
  pipealloc : M FS (option (nat * nat))
}.

(** * Writing user memory from the kernel

    Write protection is on in kernel mode too (CR0.WP, entry.S). *)

Definition kstore8 (pgdir va c : Z) : M kmem unit :=
  fun s =>
    let e := pte (kmemory s) pgdir va in
    if present e && negb (Z.land e PTE_W =? 0)
    then Ret tt (set_kmemory (st8 (kmemory s) (p2v (PTE_ADDR e) + va mod PGSIZE) c) s)
    else Panic "trap".
Fixpoint kstore_bytes (pgdir va : Z) (bs : list Z) : M kmem unit :=
  match bs with
  | [] => ret tt
  | c :: bs' => kstore8 pgdir va c ;; kstore_bytes pgdir (va + 1) bs'
  end.
Fixpoint kload_bytes (n : nat) (pgdir va : Z) : M kmem (list Z) :=
  match n with
  | O => ret []
  | S k => c <- kload8 pgdir va ;; cs <- kload_bytes k pgdir (va + 1) ;; ret (c :: cs)
  end.

Section sysfile.
Context {FS : Type} {FO : SysFs FS}.
Abbreviation K := (kstate FS).
Variables (kend kdata : Z).
Variable me : nat.

Definition my_cwd : M K (option nat) := p <- get_proc me ;; ret (cwd p).

(** * Descriptors *)

(** The descriptor and its file. *)
Definition argfd (n : Z) : M K (option (Z * nat)) :=
  r <- argint me n ;;
  match r with
  | None => ret None
  | Some fd =>
      if (fd <? 0) || (NOFILE <=? fd) then ret None else
      p <- get_proc me ;;
      match zlookup (ofile p) fd with
      | Some (Some f) => ret (Some (fd, f))
      | _ => ret None
      end
  end.

Definition free_fd (o : option nat) : bool := match o with None => true | Some _ => false end.

Definition fdalloc (f : nat) : M K Z :=
  p <- get_proc me ;;
  match find_index free_fd (ofile p) with
  | Some fd => upd_proc me (fun p => set_ofile (<[fd := Some f]> (ofile p)) p) ;; ret (Z.of_nat fd)
  | None => ret (-1)
  end.

Definition with_fd (n : Z) (k : Z -> nat -> M K Z) : M K Z :=
  r <- argfd n ;;
  match r with None => ret (-1) | Some (fd, f) => k fd f end.

Definition sys_dup : M K Z :=
  with_fd 0 (fun _ f =>
    fd <- fdalloc f ;;
    if fd <? 0 then ret (-1) else
    zoom (filedup f) ;;
    ret fd).

(** The arguments (fd, pointer, length) of [read] and [write]. *)
Definition with_buf (k : nat -> Z -> Z -> M K Z) : M K Z :=
  with_fd 0 (fun _ f =>
    r <- argint me 2 ;;
    match r with
    | None => ret (-1)
    | Some n =>
        r <- argptr me 1 n ;;
        match r with None => ret (-1) | Some p => k f p n end
    end).

Definition sys_read : M K Z :=
  with_buf (fun f p n =>
    r <- zoom (fileread f n) ;;
    x <- get_proc me ;;
    zoom (kstore_bytes (pgdir x) p (snd r)) ;;
    ret (fst r)).

Definition sys_write : M K Z :=
  with_buf (fun f p n =>
    x <- get_proc me ;;
    bs <- zoom (kload_bytes (Z.to_nat n) (pgdir x) p) ;;
    zoom (filewrite f bs n)).

Definition sys_close : M K Z :=
  with_fd 0 (fun fd f =>
    upd_proc me (fun p => set_ofile (zinsert fd None (ofile p)) p) ;;
    zoom (fileclose f) ;;
    ret 0).

Definition sizeof_stat : Z := 20.
Definition sys_fstat : M K Z :=
  with_fd 0 (fun _ f =>
    r <- argptr me 1 sizeof_stat ;;
    match r with
    | None => ret (-1)
    | Some st =>
        r <- zoom (filestat f) ;;
        x <- get_proc me ;;
        zoom (kstore_bytes (pgdir x) st (snd r)) ;;
        ret (fst r)
    end).

(** * Paths *)

(** A string argument, read from user memory. *)
Definition with_path (n : Z) (err : M K Z) (k : list Z -> M K Z) : M K Z :=
  r <- argstr me n ;;
  match r with
  | None => err
  | Some (a, len) =>
      x <- get_proc me ;;
      path <- zoom (kload_bytes (Z.to_nat len) (pgdir x) a) ;;
      k path
  end.

(** [end_op(); return -1;] *)
Definition fail_op : M K Z := zoom end_op ;; ret (-1).

(** The label [bad] of [sys_link]. *)
Definition link_bad (ip : nat) : M K Z :=
  zoom (ilock ip) ;;
  zoom (upd_inode ip (fun x => set_i_nlink (s16 (i_nlink x - 1)) x)) ;;
  zoom (iupdate ip) ;;
  zoom (iunlockput ip) ;;
  fail_op.

Definition sys_link : M K Z :=
  with_path 0 (ret (-1)) (fun old =>
  with_path 1 (ret (-1)) (fun new =>
    zoom begin_op ;;
    c <- my_cwd ;;
    r <- zoom (namei c old) ;;
    match r with
    | None => fail_op
    | Some ip =>
        zoom (ilock ip) ;;
        x <- zoom (get_inode ip) ;;
        if i_type x =? T_DIR then zoom (iunlockput ip) ;; fail_op else
        zoom (upd_inode ip (fun x => set_i_nlink (s16 (i_nlink x + 1)) x)) ;;
        zoom (iupdate ip) ;;
        zoom (iunlock ip) ;;
        r <- zoom (nameiparent c new) ;;
        match fst r with
        | None => link_bad ip
        | Some dp =>
            zoom (ilock dp) ;;
            y <- zoom (get_inode dp) ;;
            x <- zoom (get_inode ip) ;;
            ok <- (if i_dev y =? i_dev x then n <- zoom (dirlink dp (snd r) (i_num x)) ;; ret (0 <=? n) else ret false) ;;
            zoom (iunlockput dp) ;;
            if (ok : bool) then zoom (iput ip) ;; zoom end_op ;; ret 0 else link_bad ip
        end
    end)).

(** The loop of [isdirempty] from offset [off]. *)
Fixpoint isdirempty_loop (fuel : nat) (dp : nat) (off : Z) : M K bool :=
  x <- zoom (get_inode dp) ;;
  if off <? i_size x then
    match fuel with
    | O => nofuel
    | S k =>
        r <- zoom (readi dp off DIRENT_SIZE) ;;
        if negb (fst r =? DIRENT_SIZE) then panic "isdirempty: readi" else
        if negb (de_inum (snd r) =? 0) then ret false else isdirempty_loop k dp (off + DIRENT_SIZE)
    end
  else ret true.
Definition isdirempty (dp : nat) : M K bool :=
  x <- zoom (get_inode dp) ;;
  isdirempty_loop (S (Z.to_nat (i_size x / DIRENT_SIZE))) dp (2 * DIRENT_SIZE).

(** The label [bad] of [sys_unlink]. *)
Definition unlink_bad (dp : nat) : M K Z := zoom (iunlockput dp) ;; fail_op.

Definition sys_unlink : M K Z :=
  with_path 0 (ret (-1)) (fun path =>
    zoom begin_op ;;
    c <- my_cwd ;;
    r <- zoom (nameiparent c path) ;;
    match fst r with
    | None => fail_op
    | Some dp =>
        let name := snd r in
        zoom (ilock dp) ;;
        if (namecmp name [46] =? 0) || (namecmp name [46; 46] =? 0) then unlink_bad dp else
        r <- zoom (dirlookup dp name) ;;
        match r with
        | None => unlink_bad dp
        | Some (ip, off) =>
            zoom (ilock ip) ;;
            x <- zoom (get_inode ip) ;;
            if i_nlink x <? 1 then panic "unlink: nlink < 1" else
            empty <- (if i_type x =? T_DIR then isdirempty ip else ret true) ;;
            if negb empty then zoom (iunlockput ip) ;; unlink_bad dp else
            n <- zoom (writei dp (replicate (Z.to_nat DIRENT_SIZE) 0) off) ;;
            if negb (n =? DIRENT_SIZE) then panic "unlink: writei" else
            when (i_type x =? T_DIR) (
              zoom (upd_inode dp (fun y => set_i_nlink (s16 (i_nlink y - 1)) y)) ;;
              zoom (iupdate dp)) ;;
            zoom (iunlockput dp) ;;
            zoom (upd_inode ip (fun x => set_i_nlink (s16 (i_nlink x - 1)) x)) ;;
            zoom (iupdate ip) ;;
            zoom (iunlockput ip) ;;
            zoom end_op ;;
            ret 0
        end
    end).

(** [None] is the null pointer; the inode returned is locked. *)
Definition create (path : list Z) (type major minor : Z) : M K (option nat) :=
  c <- my_cwd ;;
  r <- zoom (nameiparent c path) ;;
  match fst r with
  | None => ret None
  | Some dp =>
      let name := snd r in
      zoom (ilock dp) ;;
      r <- zoom (dirlookup dp name) ;;
      match r with
      | Some (ip, _) =>
          zoom (iunlockput dp) ;;
          zoom (ilock ip) ;;
          x <- zoom (get_inode ip) ;;
          if (type =? T_FILE) && (i_type x =? T_FILE) then ret (Some ip) else
          zoom (iunlockput ip) ;;
          ret None
      | None =>
          y <- zoom (get_inode dp) ;;
          ip <- zoom (ialloc (i_dev y) type) ;;
          zoom (ilock ip) ;;
          zoom (upd_inode ip (fun x => mkInode (i_dev x) (i_num x) (i_ref x) (i_flags x) (i_type x)
            (s16 major) (s16 minor) 1 (i_size x) (i_addrs x))) ;;
          zoom (iupdate ip) ;;
          x <- zoom (get_inode ip) ;;
          when (type =? T_DIR) (
            zoom (upd_inode dp (fun y => set_i_nlink (s16 (i_nlink y + 1)) y)) ;;
            zoom (iupdate dp) ;;
            n <- zoom (dirlink ip [46] (i_num x)) ;;
            if n <? 0 then panic "create dots" else
            n <- zoom (dirlink ip [46; 46] (i_num y)) ;;
            if n <? 0 then panic "create dots" else ret tt) ;;
          n <- zoom (dirlink dp name (i_num x)) ;;
          if n <? 0 then panic "create: dirlink" else
          zoom (iunlockput dp) ;;
          ret (Some ip)
      end
  end.

(** The second half of [sys_open]: [ip] is locked. *)
Definition open_file (ip : nat) (omode : Z) : M K Z :=
  r <- zoom filealloc ;;
  fd <- (match r with None => ret (-1) | Some f => fdalloc f end) ;;
  match r with
  | Some f =>
      if fd <? 0 then zoom (fileclose f) ;; zoom (iunlockput ip) ;; fail_op else
      zoom (iunlock ip) ;;
      zoom end_op ;;
      zoom (upd_file f (fun x => mkFile FD_INODE (ref x) (if Z.land omode O_WRONLY =? 0 then 1 else 0)
        (if (Z.land omode O_WRONLY =? 0) && (Z.land omode O_RDWR =? 0) then 0 else 1) (fpipe x) ip 0)) ;;
      ret fd
  | None => zoom (iunlockput ip) ;; fail_op
  end.

Definition sys_open : M K Z :=
  with_path 0 (ret (-1)) (fun path =>
  with_int me 1 (-1) (fun omode =>
    zoom begin_op ;;
    if negb (Z.land omode O_CREATE =? 0) then
      r <- create path T_FILE 0 0 ;;
      match r with
      | None => fail_op
      | Some ip => open_file ip omode
      end
    else
      c <- my_cwd ;;
      r <- zoom (namei c path) ;;
      match r with
      | None => fail_op
      | Some ip =>
          zoom (ilock ip) ;;
          x <- zoom (get_inode ip) ;;
          if (i_type x =? T_DIR) && negb (omode =? O_RDONLY) then zoom (iunlockput ip) ;; fail_op
          else open_file ip omode
      end)).

Definition sys_mkdir : M K Z :=
  zoom begin_op ;;
  with_path 0 fail_op (fun path =>
    r <- create path T_DIR 0 0 ;;
    match r with
    | None => fail_op
    | Some ip => zoom (iunlockput ip) ;; zoom end_op ;; ret 0
    end).

Definition sys_mknod : M K Z :=
  zoom begin_op ;;
  with_path 0 fail_op (fun path =>
    r1 <- argint me 1 ;;
    match r1 with
    | None => fail_op
    | Some major =>
        r2 <- argint me 2 ;;
        match r2 with
        | None => fail_op
        | Some minor =>
            r <- create path T_DEV (s16 major) (s16 minor) ;;
            match r with
            | None => fail_op
            | Some ip => zoom (iunlockput ip) ;; zoom end_op ;; ret 0
            end
        end
    end).

Definition sys_chdir : M K Z :=
  zoom begin_op ;;
  with_path 0 fail_op (fun path =>
    c <- my_cwd ;;
    r <- zoom (namei c path) ;;
    match r with
    | None => fail_op
    | Some ip =>
        zoom (ilock ip) ;;
        x <- zoom (get_inode ip) ;;
        if negb (i_type x =? T_DIR) then zoom (iunlockput ip) ;; fail_op else
        zoom (iunlock ip) ;;
        (match c with Some d => zoom (iput d) | None => undef "iput of a null pointer" end) ;;
        zoom end_op ;;
        upd_proc me (set_cwd (Some ip)) ;;
        ret 0
    end).

Definition sys_pipe : M K Z :=
  r <- argptr me 0 8 ;;
  match r with
  | None => ret (-1)
  | Some fd =>
      r <- zoom pipealloc ;;
      match r with
      | None => ret (-1)
      | Some (rf, wf) =>
          fd0 <- fdalloc rf ;;
          fd1 <- (if fd0 <? 0 then ret (-1) else fdalloc wf) ;;
          if fd1 <? 0 then
            when (0 <=? fd0) (upd_proc me (fun p => set_ofile (zinsert fd0 None (ofile p)) p)) ;;
            zoom (fileclose rf) ;;
            zoom (fileclose wf) ;;
            ret (-1)
          else
            x <- get_proc me ;;
            zoom (kstore_bytes (pgdir x) fd (le_enc 4 fd0 ++ le_enc 4 fd1)) ;;
            ret 0
      end
  end.

End sysfile.
