(* ===== verification/Exec.v ===== *)
(** Running a program: exec.c, elf.h and [sys_exec] of sysfile.c.

    The headers of an ELF file are words at fixed offsets.  [exec] is given the argument
    strings; the address space they come from is not changed before the switch. *)

From Stdlib Require Import ZArith Lia.
From stdpp Require Import base tactics option gmap strings numbers list.
From S2P Require Import Prelude Mem Bytes CString Layout Kalloc PageTable ShmTable Vm ProcState Sched Proc Syscall FsFormat Fs File Sysfile.
Open Scope Z_scope.

(** * elf.h *)

Definition ELF_MAGIC : Z := 0x464C457F.
Definition ELFHDR_SIZE : Z := 52.
Definition elf_magic (h : list Z) : Z := get32 h 0.
Definition elf_entry (h : list Z) : Z := get32 h 24.
Definition elf_phoff (h : list Z) : Z := get32 h 28.
Definition elf_phnum (h : list Z) : Z := get16 h 44.

Definition PROGHDR_SIZE : Z := 32.
Definition ELF_PROG_LOAD : Z := 1.
Definition ph_type (h : list Z) : Z := get32 h 0.
Definition ph_off (h : list Z) : Z := get32 h 4.
Definition ph_vaddr (h : list Z) : Z := get32 h 8.
Definition ph_filesz (h : list Z) : Z := get32 h 16.
Definition ph_memsz (h : list Z) : Z := get32 h 20.

(** [for (last = s = path; *s; s++) if ( *s == '/') last = s + 1;] *)
Fixpoint last_elem (last s : list Z) : list Z :=
  match s with
  | [] => last
  | c :: s' => if c =? 47 then last_elem s' s' else last_elem last s'
  end.

Section exec.
Context {FS : Type} {FO : SysFs FS}.
Abbreviation K := (kstate FS).
Variables (kend kdata : Z).
Variable me : nat.

(** [readi(ip, dst, off, n)] into kernel memory. *)
Definition readi_to (ip : nat) (dst off n : Z) : M K Z :=
  r <- zoom (readi ip off n) ;;
  zoom (modify (fun k => set_kmemory (st_bytes (kmemory k) dst (snd r)) k)) ;;
  ret (fst r).

(** The label [bad]: [ip] is the inode still held. *)
Definition exec_bad (pgdir : Z) (ip : option nat) : M K Z :=
  when (negb (pgdir =? 0)) (zoom (freevm kend pgdir 0)) ;;
  match ip with
  | Some ip => zoom (iunlockput ip) ;; zoom end_op ;; ret (-1)
  | None => ret (-1)
  end.

(** One program header; [None] is a jump to [bad], otherwise the new size. *)
Definition load_segment (pgdir : Z) (ip : nat) (ph : list Z) (sz : Z) : M K (option Z) :=
  if negb (ph_type ph =? ELF_PROG_LOAD) then ret (Some sz) else
  if ph_memsz ph <? ph_filesz ph then ret None else
  sz <- zoom (allocuvm kend pgdir sz (u32 (ph_vaddr ph + ph_memsz ph))) ;;
  if sz =? 0 then ret None else
  r <- loaduvm (readi_to ip) pgdir (ph_vaddr ph) (ph_off ph) (ph_filesz ph) ;;
  if r <? 0 then ret None else ret (Some sz).

(** The loop over the [n] program headers from offset [off]. *)
Fixpoint load_segments (n : nat) (pgdir : Z) (ip : nat) (off sz : Z) : M K (option Z) :=
  match n with
  | O => ret (Some sz)
  | S k =>
      r <- zoom (readi ip (u32 off) PROGHDR_SIZE) ;;
      if negb (fst r =? PROGHDR_SIZE) then ret None else
      r <- load_segment pgdir ip (snd r) sz ;;
      match r with
      | None => ret None
      | Some sz => load_segments k pgdir ip (s32 (off + PROGHDR_SIZE)) sz
      end
  end.

(** The argument strings from index [argc], pushed below [sp]; [us] are the addresses
    pushed so far. *)
Fixpoint push_args (pgdir : Z) (argv : list (list Z)) (argc sp : Z) (us : list Z) : M K (option (Z * Z * list Z)) :=
  match argv with
  | [] => ret (Some (argc, sp, us))
  | s :: argv' =>
      if MAXARG <=? argc then ret None else
      let sp := Z.land (u32 (sp - (strlen s + 1))) (Z.lnot 3) in
      r <- zoom (copyout pgdir sp (take (Z.to_nat (strlen s)) s ++ [0])) ;;
      if r <? 0 then ret None else
      push_args pgdir argv' (argc + 1) sp (us ++ [sp])
  end.

(** The image of [ustack]. *)
Definition ustack_words (argc sp : Z) (us : list Z) : list Z :=
  [0xffffffff; argc; u32 (sp - (argc + 1) * 4)] ++ us ++ [0].

(** From the two stack pages on: the file is closed. *)
Definition exec_stack (path : list Z) (argv : list (list Z)) (entry pgdir0 sz0 : Z) : M K Z :=
  let sz1 := PGROUNDUP sz0 in
  sz1 <- zoom (allocuvm kend pgdir0 sz1 (u32 (sz1 + 2 * PGSIZE))) ;;
  if sz1 =? 0 then exec_bad pgdir0 None else
  zoom (clearpteu pgdir0 (sz1 - 2 * PGSIZE)) ;;
  r <- push_args pgdir0 argv 0 sz1 [] ;;
  match r with
  | None => exec_bad pgdir0 None
  | Some (argc, sp, us) =>
      let us := ustack_words argc sp us in
      let sp := u32 (sp - (3 + argc + 1) * 4) in
      r <- zoom (copyout pgdir0 sp (mjoin (le_enc 4 <$> us))) ;;
      if r <? 0 then exec_bad pgdir0 None else
      upd_proc me (fun p => set_pname (safestrcpy (pname p) (last_elem path path) 16) p) ;;
      p <- get_proc me ;;
      upd_proc me (set_pgdir pgdir0) ;;
      upd_proc me (set_sz sz1) ;;
      zoom (store32 (tf p + TF_eip) entry) ;;
      zoom (store32 (tf p + TF_esp) sp) ;;
      switchuvm me ;;
      zoom (freevm kend (pgdir p) 0) ;;
      ret 0
  end.

Definition exec (path : list Z) (argv : list (list Z)) : M K Z :=
  zoom begin_op ;;
  c <- my_cwd me ;;
  r <- zoom (namei c path) ;;
  match r with
  | None => zoom end_op ;; ret (-1)
  | Some ip =>
      zoom (ilock ip) ;;
      r <- zoom (readi ip 0 ELFHDR_SIZE) ;;
      if u32 (fst r) <? ELFHDR_SIZE then exec_bad 0 (Some ip) else
      (* an error of [readi] is a large unsigned number: the header was not filled *)
      if fst r <? 0 then undef "exec: uninitialised header" else
      let elf := snd r in
      if negb (elf_magic elf =? ELF_MAGIC) then exec_bad 0 (Some ip) else
      pd <- zoom (setupkvm kdata) ;;
      if pd =? 0 then exec_bad 0 (Some ip) else
      r <- load_segments (Z.to_nat (elf_phnum elf)) pd ip (s32 (elf_phoff elf)) 0 ;;
      match r with
      | None => exec_bad pd (Some ip)
      | Some sz =>
          zoom (iunlockput ip) ;;
          zoom end_op ;;
          exec_stack path argv (elf_entry elf) pd sz
      end
  end.

(** The loop of [sys_exec] over the user array at [uargv]; [None] for -1. *)
Fixpoint exec_args (n : nat) (uargv i : Z) : M K (option (list (list Z))) :=
  match n with
  | O => ret None
  | S k =>
      r <- fetchint me (u32 (uargv + 4 * i)) ;;
      match r with
      | None => ret None
      | Some uarg =>
          if uarg =? 0 then ret (Some []) else
          r <- fetchstr me (u32 uarg) ;;
          match r with
          | None => ret None
          | Some (a, len) =>
              p <- get_proc me ;;
              s <- zoom (kload_bytes (Z.to_nat len) (pgdir p) a) ;;
              r <- exec_args k uargv (i + 1) ;;
              ret ((fun l => s :: l) <$> r)
          end
      end
  end.

Definition sys_exec : M K Z :=
  with_path me 0 (ret (-1)) (fun path =>
    r <- argint me 1 ;;
    match r with
    | None => ret (-1)
    | Some uargv =>
        r <- exec_args (Z.to_nat MAXARG) (u32 uargv) 0 ;;
        match r with
        | None => ret (-1)
        | Some argv => exec path argv
        end
    end).

End exec.
