(* ===== verification/Trap.v ===== *)
(** Traps and interrupts: trap.c and traps.h.

    [trap] is given the CPU it runs on, the process (the per-CPU variable [proc], [None] in
    the scheduler) and the address of the trap frame.  The handlers of the IDE, keyboard and
    serial interrupts are parameters; acknowledging the interrupt ([lapiceoi]) changes
    only the interrupt controller. *)

From Stdlib Require Import ZArith Lia.
From stdpp Require Import base tactics option gmap strings numbers list.
From S2P Require Import Prelude Mem Layout Kalloc PageTable ShmTable Vm ProcState Sched Proc Syscall.
Open Scope Z_scope.

Definition T_SYSCALL : Z := 64.
Definition T_IRQ0 : Z := 32.
Definition IRQ_TIMER : Z := 0.
Definition IRQ_KBD : Z := 1.
Definition IRQ_COM1 : Z := 4.
Definition IRQ_IDE : Z := 14.
Definition IRQ_SPURIOUS : Z := 31.

(** The gates [tvinit] installs: type (trap or interrupt gate), privilege level. *)
Record gate := mkGate { istrap : bool; selector : Z; offset : Z; dpl : Z }.
Definition SEG_KCODE : Z := 1.
Definition tvinit (vectors : Z -> Z) : list gate :=
  (fun i => let i := Z.of_nat i in
     if i =? T_SYSCALL then mkGate true (Z.shiftl SEG_KCODE 3) (vectors i) DPL_USER
     else mkGate false (Z.shiftl SEG_KCODE 3) (vectors i) 0) <$> seq 0 256.

Section trap.
Context {FS : Type} {FO : FileOps FS}.
Abbreviation K := (kstate FS).
Variables (kend kdata forkret_addr trapret_addr : Z).
Context (ideintr kbdintr uartintr : M K unit).
(** The calls of sysfile.c, and the number of wakeups a call may wait for. *)
Context (files : Z -> option (M K Z)) (fuel : nat).

Definition load16 (a : Z) : M K Z :=
  m <- gets (fun s => kmemory (km (vm s))) ;;
  ret (ld8 m a + 2 ^ 8 * ld8 m (a + 1)).

(** [if (proc->killed) exit();] *)
Definition exit_if_killed (me : nat) : M K unit :=
  p <- get_proc me ;;
  when (negb (killed p =? 0)) (exit me).

(** [if (proc && proc->killed && (tf->cs & 3) == DPL_USER) exit();] *)
Definition exit_if_user (me : option nat) (cs : Z) : M K unit :=
  match me with
  | Some i => when (Z.land cs 3 =? DPL_USER) (exit_if_killed i)
  | None => ret tt
  end.

Definition timer_tick (cpu : Z) : M K unit :=
  when (cpu =? 0) (
    acquire LK_ticks ;;
    modify (fun s => set_ticks (u32 (ticks s + 1)) s) ;;
    Sched.wakeup CH_ticks ;;
    release LK_ticks).

(** The [switch] on the trap number. *)
Definition trap_switch (cpu : Z) (me : option nat) (no cs : Z) : M K unit :=
  if no =? T_IRQ0 + IRQ_TIMER then timer_tick cpu
  else if no =? T_IRQ0 + IRQ_IDE then ideintr
  else if no =? T_IRQ0 + IRQ_IDE + 1 then ret tt
  else if no =? T_IRQ0 + IRQ_KBD then kbdintr
  else if no =? T_IRQ0 + IRQ_COM1 then uartintr
  else if (no =? T_IRQ0 + 7) || (no =? T_IRQ0 + IRQ_SPURIOUS) then ret tt
  else
    match me with
    | Some i => if Z.land cs 3 =? 0 then panic "trap" else upd_proc i (set_killed 1)
    | None => panic "trap"
    end.

Definition trap (cpu : Z) (me : option nat) (tf0 : Z) : M K unit :=
  no <- zoom (load32 (tf0 + TF_trapno)) ;;
  cs <- load16 (tf0 + TF_cs) ;;
  if no =? T_SYSCALL then
    match me with
    | Some i =>
        exit_if_killed i ;;
        upd_proc i (set_tf tf0) ;;
        syscall kend kdata forkret_addr trapret_addr i fuel files ;;
        exit_if_killed i
    | None => undef "system call without a process"
    end
  else
    trap_switch cpu me no cs ;;
    exit_if_user me cs ;;
    match me with
    | Some i =>
        p <- get_proc i ;;
        when (bool_decide (state p = RUNNING) && (no =? T_IRQ0 + IRQ_TIMER)) (yield i)
    | None => ret tt
    end ;;
    exit_if_user me cs.

End trap.
