(* ===== verification/Format.v ===== *)
(** Formatted output: [printint] and [cprintf] of console.c, [printint] and [printf] of
    printf.c.

    Arguments are what the format reads from the stack: a word, or for [%s] a pointer to
    characters ([None] for the null pointer).  The functions give the characters sent, in
    order; [None] when the format asks for an argument that was not passed, which C leaves
    undefined. *)

From Stdlib Require Import ZArith Lia.
From stdpp Require Import base tactics option strings numbers list.
From S2P Require Import Prelude CString.
Open Scope Z_scope.

Inductive farg := AInt (x : Z) | AStr (s : option (list Z)).

(** * Digits *)

(** [do { buf[i++] = digits[x % base]; } while ((x /= base) != 0);]: the digits, last first.
    A 32-bit number has at most 32 digits. *)
Fixpoint digits_loop (fuel : nat) (digits : list Z) (x base : Z) : list Z :=
  match fuel with
  | O => []
  | S k =>
      default 0 (zlookup digits (x mod base)) ::
      (if x / base =? 0 then [] else digits_loop k digits (x / base) base)
  end.

Definition lower_digits : list Z := [48;49;50;51;52;53;54;55;56;57;97;98;99;100;101;102].
Definition upper_digits : list Z := [48;49;50;51;52;53;54;55;56;57;65;66;67;68;69;70].

(** console.c; the characters are sent from the last one stored back to the first. *)
Definition kprintint (xx base : Z) (sign : bool) : list Z :=
  let neg := sign && (xx <? 0) in
  let x := u32 (if neg then - xx else xx) in
  let buf := digits_loop 32 lower_digits x base in
  reverse (buf ++ if neg then [45] else []).

(** printf.c *)
Definition printint (xx base : Z) (sgn : bool) : list Z :=
  let neg := sgn && (xx <? 0) in
  let x := u32 (if neg then - xx else xx) in
  let buf := digits_loop 32 upper_digits x base in
  reverse (buf ++ if neg then [45] else []).

Definition null_text : list Z := [40;110;117;108;108;41].
Definition str_text (s : option (list Z)) : list Z :=
  match s with
  | Some s => take (Z.to_nat (strlen s)) s
  | None => null_text
  end.

(** * The formats *)

(** console.c: a [%] at the end of the format ends it. *)
Fixpoint cprintf_text (fmt : list Z) (args : list farg) : option (list Z) :=
  match fmt with
  | [] => Some []
  | c :: fmt' =>
      if c =? 0 then Some [] else
      if negb (c =? 37) then app [c] <$> cprintf_text fmt' args else
      match fmt' with
      | [] => Some []
      | c :: fmt' =>
          if c =? 0 then Some [] else
          if c =? 100 then
            match args with AInt x :: args => app (kprintint x 10 true) <$> cprintf_text fmt' args | _ => None end
          else if (c =? 120) || (c =? 112) then
            match args with AInt x :: args => app (kprintint x 16 false) <$> cprintf_text fmt' args | _ => None end
          else if c =? 115 then
            match args with AStr s :: args => app (str_text s) <$> cprintf_text fmt' args | _ => None end
          else if c =? 37 then app [37] <$> cprintf_text fmt' args
          else app [37; c] <$> cprintf_text fmt' args
      end
  end.

(** printf.c: [state] is [%] after a percent sign. *)
Fixpoint printf_text (state : bool) (fmt : list Z) (args : list farg) : option (list Z) :=
  match fmt with
  | [] => Some []
  | c :: fmt' =>
      if c =? 0 then Some [] else
      if negb state then
        if c =? 37 then printf_text true fmt' args else app [c] <$> printf_text false fmt' args
      else if c =? 100 then
        match args with AInt x :: args => app (printint x 10 true) <$> printf_text false fmt' args | _ => None end
      else if (c =? 120) || (c =? 112) then
        match args with AInt x :: args => app (printint x 16 false) <$> printf_text false fmt' args | _ => None end
      else if c =? 115 then
        match args with AStr s :: args => app (str_text s) <$> printf_text false fmt' args | _ => None end
      else if c =? 99 then
        match args with AInt x :: args => app [u8 x] <$> printf_text false fmt' args | _ => None end
      else if c =? 37 then app [c] <$> printf_text false fmt' args
      else app [37; c] <$> printf_text false fmt' args
  end.
Definition printf (fmt : list Z) (args : list farg) : option (list Z) := printf_text false fmt args.

(** * Theorems *)

(** The number a list of decimal digits stands for, as [atoi] (ulib.c) accumulates it. *)
Lemma atoi_loop_digits ds n :
  Forall (fun c => 48 <= c <= 57) ds ->
  atoi_loop ds n = foldl (fun n c => s32 (n * 10 + c - 48)) n ds.
Proof.
  revert n. induction ds as [|c ds IH]; intros n Hd; [done|]. apply Forall_cons in Hd as [Hc Hd].
  simpl. destruct (Z.leb_spec 48 c), (Z.leb_spec c 57); try lia. by apply IH.
Qed.

Lemma zlookup_digit digits x :
  (forall i, (i < 10)%nat -> digits !! i = Some (48 + Z.of_nat i)) -> 0 <= x < 10 ->
  default 0 (zlookup digits x) = 48 + x.
Proof.
  intros Hd Hx. unfold zlookup. destruct (Z.ltb_spec x 0); [lia|]. rewrite Hd by lia. simpl. lia.
Qed.

Section decimal.
Context (digits : list Z) (Hdig : forall i, (i < 10)%nat -> digits !! i = Some (48 + Z.of_nat i)).

Lemma digits_loop_decimal fuel x :
  0 <= x < 10 ^ Z.of_nat fuel -> (0 < fuel)%nat ->
  Forall (fun c => 48 <= c <= 57) (digits_loop fuel digits x 10).
Proof.
  revert x. induction fuel as [|fuel IH]; intros x Hx Hf; [lia|]. cbn [digits_loop].
  pose proof (Z.mod_pos_bound x 10 ltac:(lia)) as Hm. rewrite (zlookup_digit digits) by done.
  apply Forall_cons. split; [lia|]. destruct (Z.eqb_spec (x / 10) 0) as [|Hne]; [done|].
  assert (x / 10 < 10 ^ Z.of_nat fuel) as Hlt.
  { apply Z.div_lt_upper_bound; [lia|]. rewrite Nat2Z.inj_succ, Z.pow_succ_r in Hx by lia. lia. }
  pose proof (Z.div_pos x 10 ltac:(lia) ltac:(lia)).
  destruct fuel as [|fuel]; [simpl in Hlt; lia|]. apply IH; lia.
Qed.

Lemma atoi_digits fuel x n :
  0 <= x < 10 ^ Z.of_nat fuel -> (0 < fuel)%nat -> x < 2 ^ 31 -> n = 0 ->
  foldl (fun n c => s32 (n * 10 + c - 48)) n (reverse (digits_loop fuel digits x 10)) = x.
Proof.
  revert x. induction fuel as [|fuel IH]; intros x Hx Hf Hs ->; [lia|]. cbn [digits_loop].
  pose proof (Z.mod_pos_bound x 10 ltac:(lia)) as Hm. rewrite (zlookup_digit digits) by done.
  pose proof (Z.div_mod x 10 ltac:(lia)) as Hdm. pose proof (Z.div_pos x 10 ltac:(lia) ltac:(lia)) as Hp.
  rewrite reverse_cons, foldl_app. cbn [foldl].
  destruct (Z.eqb_spec (x / 10) 0) as [E|Hne].
  - change (foldl (fun n c => s32 (n * 10 + c - 48)) 0 (reverse [])) with 0. rewrite s32_small by lia. lia.
  - assert (x / 10 < 10 ^ Z.of_nat fuel) as Hlt.
    { apply Z.div_lt_upper_bound; [lia|]. rewrite Nat2Z.inj_succ, Z.pow_succ_r in Hx by lia. lia. }
    destruct fuel as [|fuel]; [simpl in Hlt; lia|]. rewrite (IH (x / 10)) by (try done; lia).
    rewrite s32_small; lia.
Qed.
End decimal.

Lemma digits_loop_ext d1 d2 fuel x :
  (forall i, (i < 10)%nat -> d1 !! i = Some (48 + Z.of_nat i)) ->
  (forall i, (i < 10)%nat -> d2 !! i = Some (48 + Z.of_nat i)) -> 0 <= x ->
  digits_loop fuel d1 x 10 = digits_loop fuel d2 x 10.
Proof.
  intros H1 H2. revert x. induction fuel as [|fuel IH]; intros x Hx; [done|]. cbn [digits_loop].
  pose proof (Z.mod_pos_bound x 10 ltac:(lia)). rewrite !zlookup_digit by done.
  destruct (x / 10 =? 0); [done|]. by rewrite (IH (x / 10)) by (apply Z.div_pos; lia).
Qed.

(** Numbers survive printing and parsing: for every non-negative [int], [atoi] of what [%d]
    prints - by the kernel's [cprintf] or by the C library's [printf] - is the number; of a
    negative one the printed text is a minus sign and the digits of its absolute value. *)
Theorem printint_atoi x :
  - 2 ^ 31 <= x < 2 ^ 31 ->
  exists ds, printint x 10 true = (if x <? 0 then [45] else []) ++ ds /\
    kprintint x 10 true = printint x 10 true /\
    (x <> - 2 ^ 31 -> atoi ds = Z.abs x).
Proof.
  intros Hx. unfold printint, kprintint. cbn [andb].
  set (n := u32 (if x <? 0 then - x else x)).
  assert (n = Z.abs x) as Hn.
  { unfold n. destruct (Z.ltb_spec x 0); rewrite u32_small; lia. }
  assert (forall dg, (forall i, (i < 10)%nat -> dg !! i = Some (48 + Z.of_nat i)) ->
    reverse (digits_loop 32 dg n 10 ++ (if x <? 0 then [45] else [])) =
    (if x <? 0 then [45] else []) ++ reverse (digits_loop 32 dg n 10)) as Hrev.
  { intros dg _. rewrite reverse_app. by destruct (x <? 0). }
  exists (reverse (digits_loop 32 upper_digits n 10)).
  assert (forall dg, dg = lower_digits \/ dg = upper_digits -> forall i, (i < 10)%nat -> dg !! i = Some (48 + Z.of_nat i)) as Hdg.
  { intros dg Hd i Hi. do 10 (destruct i as [|i]; [by destruct Hd; subst|]). lia. }
  split; [by apply Hrev, Hdg; right|]. split.
  - rewrite (digits_loop_ext lower_digits upper_digits); [done|auto|auto|lia].
  - intros Hm. unfold atoi. rewrite atoi_loop_digits.
    + rewrite (atoi_digits upper_digits); [done|auto|simpl; lia|lia|lia|done].
    + rewrite reverse_Permutation. apply digits_loop_decimal; [auto|simpl; lia|lia].
Qed.

Lemma printint_atoi_witness :
  printint (-120) 10 true = [45; 49; 50; 48] /\ exists ds, printint (-120) 10 true = [45] ++ ds /\ atoi ds = 120.
Proof.
  split; [reflexivity|]. destruct (printint_atoi (-120) ltac:(lia)) as (ds & H1 & _ & H2).
  exists ds. split; [exact H1|]. apply H2. lia.
Defined.
