(* ===== verification/User.v ===== *)
(** User programs over the system calls: cat.c, wc.c, echo.c, rm.c, mkdir.c, ln.c, kill.c and
    ls.c, with [gets] and [stat] of ulib.c.

    The calls are an interface, [UserOps]; [UserLaws] says what a program may rely on when it
    reads a file and writes to another.  A [main] that has returned has called [exit]; a routine
    that may call [exit] itself returns whether its caller goes on.  [argv] is the list of the
    arguments, the name of the program first. *)

From Stdlib Require Import ZArith Lia Ascii.
From stdpp Require Import base tactics option gmap sets strings numbers list.
From S2P Require Import Prelude CString Bytes FsFormat Fs Format.
Open Scope Z_scope.

(** The bytes of a string constant. *)
Definition str (s : string) : list Z := (fun c => Z.of_N (N_of_ascii c)) <$> String.list_ascii_of_string s.
Definition nl : Z := 10.

(** [read] returns the count and the bytes read, [write] is given the bytes. *)
Class UserOps (S : Type) := {
  open : list Z -> Z -> M S Z;
  read : Z -> Z -> M S (Z * list Z);
  write : Z -> list Z -> M S Z;
  close : Z -> M S Z;
  link : list Z -> list Z -> M S Z;
  unlink : list Z -> M S Z;
  mkdir : list Z -> M S Z;
  fstat : Z -> M S (Z * stat);
  kill : Z -> M S Z
}.

Section user.
Context {S : Type} {UO : UserOps S}.

(** * ulib.c and printf.c *)

(** [printf] writes its characters one by one. *)
Definition puts (fd : Z) (t : list Z) : M S unit := for_each t (fun c => write fd [c] ;; ret tt).
Definition printf (fd : Z) (fmt : list Z) (args : list farg) : M S unit :=
  match Format.printf fmt args with
  | Some t => puts fd t
  | None => undef "printf: no argument"
  end.

(** The characters [gets] stores before the NUL; [max] bounds the rounds. *)
Fixpoint gets_loop (room : nat) : M S (list Z) :=
  match room with
  | O => ret []
  | Datatypes.S k =>
      '(cc, b) <- read 0 1 ;;
      if cc <? 1 then ret [] else
      let c := first_char b in
      if (c =? 10) || (c =? 13) then ret [c] else
      l <- gets_loop k ;;
      ret (c :: l)
  end.
Definition ugets (max : Z) : M S (list Z) := gets_loop (Z.to_nat (max - 1)).

Definition ustat (n : list Z) : M S (Z * option stat) :=
  fd <- open n 0 ;;
  if fd <? 0 then ret (-1, None) else
  '(r, st) <- fstat fd ;;
  close fd ;;
  ret (r, if r <? 0 then None else Some st).

(** * Programs that take a list of files

    [cat], [wc] and [grep] have this [main]: [body name fd] for each file, [stdin] without one. *)
Fixpoint each_file (prog : string) (body : list Z -> Z -> M S bool) (files : list (list Z)) : M S unit :=
  match files with
  | [] => ret tt
  | a :: files =>
      fd <- open a 0 ;;
      if fd <? 0 then printf 1 (str prog ++ str ": cannot open %s" ++ [nl]) [AStr (Some a)] else
      go <- body a fd ;;
      if go then close fd ;; each_file prog body files else ret tt
  end.

(** ** cat.c *)

Fixpoint cat (fuel : nat) (fd : Z) : M S bool :=
  match fuel with
  | O => nofuel
  | Datatypes.S k =>
      '(n, buf) <- read fd 512 ;;
      if 0 <? n then write 1 buf ;; cat k fd
      else if n <? 0 then printf 1 (str "cat: read error" ++ [nl]) [] ;; ret false
      else ret true
  end.
Definition cat_main (fuel : nat) (argv : list (list Z)) : M S unit :=
  if Z.of_nat (length argv) <=? 1 then cat fuel 0 ;; ret tt
  else each_file "cat" (fun _ => cat fuel) (tail argv).

(** ** wc.c *)

(** [l], [w], [c] and [inword]. *)
Record counts := mkCounts { lines : Z; words : Z; chars : Z; inword : bool }.

Definition white : list Z := [32; 13; 9; 10; 11].
Definition count_char (k : counts) (b : Z) : counts :=
  let c := s32 (chars k + 1) in
  let l := if b =? 10 then s32 (lines k + 1) else lines k in
  match strchr white b with
  | Some _ => mkCounts l (words k) c false
  | None =>
      if inword k then mkCounts l (words k) c true
      else mkCounts l (s32 (words k + 1)) c true
  end.

Fixpoint wc_loop (fuel : nat) (fd : Z) (k : counts) : M S (option counts) :=
  match fuel with
  | O => nofuel
  | Datatypes.S f =>
      '(n, buf) <- read fd 512 ;;
      if 0 <? n then wc_loop f fd (foldl count_char k buf)
      else if n <? 0 then printf 1 (str "wc: read error" ++ [nl]) [] ;; ret None
      else ret (Some k)
  end.
Definition wc (fuel : nat) (name : list Z) (fd : Z) : M S bool :=
  r <- wc_loop fuel fd (mkCounts 0 0 0 false) ;;
  match r with
  | None => ret false
  | Some k =>
      printf 1 (str "%d %d %d %s" ++ [nl]) [AInt (lines k); AInt (words k); AInt (chars k); AStr (Some name)] ;;
      ret true
  end.
Definition wc_main (fuel : nat) (argv : list (list Z)) : M S unit :=
  if Z.of_nat (length argv) <=? 1 then wc fuel [] 0 ;; ret tt
  else each_file "wc" (wc fuel) (tail argv).

(** * Programs that run a call on each argument *)

(** ** echo.c *)

Fixpoint echo_args (args : list (list Z)) : M S unit :=
  match args with
  | [] => ret tt
  | a :: args =>
      printf 1 (str "%s%s") [AStr (Some a); AStr (Some (match args with [] => [nl] | _ => str " " end))] ;;
      echo_args args
  end.
Definition echo_main (argv : list (list Z)) : M S unit := echo_args (tail argv).

(** ** rm.c and mkdir.c: stop at the first failure *)

Fixpoint until_failure (call : list Z -> M S Z) (fmt : list Z) (args : list (list Z)) : M S unit :=
  match args with
  | [] => ret tt
  | a :: args =>
      r <- call a ;;
      if r <? 0 then printf 2 fmt [AStr (Some a)] else until_failure call fmt args
  end.
Definition rm_main (argv : list (list Z)) : M S unit :=
  if Z.of_nat (length argv) <? 2 then printf 2 (str "Usage: rm files..." ++ [nl]) []
  else until_failure unlink (str "rm: %s failed to delete" ++ [nl]) (tail argv).
Definition mkdir_main (argv : list (list Z)) : M S unit :=
  if Z.of_nat (length argv) <? 2 then printf 2 (str "Usage: mkdir files..." ++ [nl]) []
  else until_failure mkdir (str "mkdir: %s failed to create" ++ [nl]) (tail argv).

(** ** ln.c and kill.c *)

Definition ln_main (argv : list (list Z)) : M S unit :=
  match argv with
  | [_; old; new] =>
      r <- link old new ;;
      when (r <? 0) (printf 2 (str "link %s %s: failed" ++ [nl]) [AStr (Some old); AStr (Some new)])
  | _ => printf 2 (str "Usage: ln old new" ++ [nl]) []
  end.
Definition kill_main (argv : list (list Z)) : M S unit :=
  if Z.of_nat (length argv) <? 2 then printf 2 (str "usage: kill pid..." ++ [nl]) []
  else for_each (tail argv) (fun a => kill (atoi a) ;; ret tt).

(** * ls.c *)

(** [for (p = path + strlen(path); p >= path && *p != '/'; p--); p++;] from [p = path + k - 1]:
    the index of the first character of the last component. *)
Fixpoint after_slash (path : list Z) (k : nat) : nat :=
  match k with
  | O => O
  | Datatypes.S j => if default 0 (path !! j) =? 47 then k else after_slash path j
  end.
Definition fmtname (path : list Z) : list Z :=
  let p := drop (after_slash path (Datatypes.S (length path))) path in
  if DIRSIZ <=? strlen p then p
  else p ++ replicate (Z.to_nat (DIRSIZ - strlen p)) 32.

Definition ls_line (name : list Z) (st : stat) : M S unit :=
  printf 1 (str "%s %d %d %d" ++ [nl]) [AStr (Some (fmtname name)); AInt (st_type st); AInt (s32 (st_ino st)); AInt (s32 (st_size st))].

(** The loop over the entries of a directory; [path] ends in a slash. *)
Fixpoint ls_dir (fuel : nat) (fd : Z) (path : list Z) : M S unit :=
  match fuel with
  | O => nofuel
  | Datatypes.S k =>
      '(n, de) <- read fd DIRENT_SIZE ;;
      if negb (n =? DIRENT_SIZE) then ret tt else
      if de_inum de =? 0 then ls_dir k fd path else
      let buf := path ++ cstr (Z.to_nat DIRSIZ) (de_name de) in
      '(r, st) <- ustat buf ;;
      match st with
      | None => printf 1 (str "ls: cannot stat %s" ++ [nl]) [AStr (Some buf)]
      | Some st => ls_line buf st
      end ;;
      ls_dir k fd path
  end.

Definition ls (fuel : nat) (path : list Z) : M S unit :=
  fd <- open path 0 ;;
  if fd <? 0 then printf 2 (str "ls: cannot open %s" ++ [nl]) [AStr (Some path)] else
  '(r, st) <- fstat fd ;;
  if r <? 0 then
    printf 2 (str "ls: cannot stat %s" ++ [nl]) [AStr (Some path)] ;; close fd ;; ret tt
  else
    (if st_type st =? T_FILE then ls_line path st
     else if st_type st =? T_DIR then
       if 512 <? strlen path + 1 + DIRSIZ + 1 then printf 1 (str "ls: path too long" ++ [nl]) []
       else ls_dir fuel fd (path ++ [47])
     else ret tt) ;;
    close fd ;;
    ret tt.
Definition ls_main (fuel : nat) (argv : list (list Z)) : M S unit :=
  if Z.of_nat (length argv) <? 2 then ls fuel (str ".") else for_each (tail argv) (ls fuel).

End user.

(** * What a program relies on

    [input s fd] is what is left to read from [fd], [output s fd] what was written to it, [None]
    if it cannot be read or written. *)
Class UserLaws (S : Type) {UO : UserOps S} := {
  input : S -> Z -> option (list Z);
  output : S -> Z -> option (list Z);
  read_law : forall s fd n r, input s fd = Some r -> 0 <= n ->
    exists s', run (read fd n s) = ROk (Z.of_nat (length (take (Z.to_nat n) r)), take (Z.to_nat n) r) s' /\
      input s' fd = Some (drop (Z.to_nat n) r) /\ (forall g, g <> fd -> input s' g = input s g) /\
      forall g, output s' g = output s g;
  write_law : forall s fd d o, output s fd = Some o ->
    exists s', run (write fd d s) = ROk (Z.of_nat (length d)) s' /\
      output s' fd = Some (o ++ d) /\ (forall g, g <> fd -> output s' g = output s g) /\
      forall g, input s' g = input s g
}.

Section laws.
Context {S : Type} {UO : UserOps S} {UL : UserLaws S}.

(** Nothing changed but what was read from [fd] and written to 1. *)
Record ran (fd : Z) (s : S) (r : list Z) (o : list Z) (s' : S) : Prop := {
  ran_in : input s' fd = Some r;
  ran_out : output s' 1 = Some o;
  ran_others : forall g, g <> fd -> input s' g = input s g;
  ran_sinks : forall g, g <> 1 -> output s' g = output s g
}.

Lemma ran_trans fd s r o s1 r1 o1 s2 : ran fd s r o s1 -> ran fd s1 r1 o1 s2 -> ran fd s r1 o1 s2.
Proof.
  intros [_ _ C D] [A' B' C' D']. split; [done|done| |]; intros g Hg; [rewrite C', C|rewrite D', D]; done.
Qed.

Lemma read_ran fd n s r o : input s fd = Some r -> output s 1 = Some o -> 0 <= n ->
  exists s', run (read fd n s) = ROk (Z.of_nat (length (take (Z.to_nat n) r)), take (Z.to_nat n) r) s' /\
    ran fd s (drop (Z.to_nat n) r) o s'.
Proof.
  intros Hi Ho Hn. destruct (read_law s fd n r Hi Hn) as (s' & Hr & Hi' & Hg & Hw). exists s'.
  split; [done|]. split; [done|by rewrite Hw|done|done].
Qed.
Lemma write_ran fd d s r o : input s fd = Some r -> output s 1 = Some o ->
  exists s', run (write 1 d s) = ROk (Z.of_nat (length d)) s' /\ ran fd s r (o ++ d) s'.
Proof.
  intros Hi Ho. destruct (write_law s 1 d o Ho) as (s' & Hr & Ho' & Hg & Hin). exists s'.
  split; [done|]. split; [by rewrite Hin|done|done|done].
Qed.

Lemma puts_ran fd t s r o : input s fd = Some r -> output s 1 = Some o ->
  exists s', run (puts 1 t s) = ROk tt s' /\ ran fd s r (o ++ t) s'.
Proof.
  revert s o. induction t as [|c t IH]; intros s o Hi Ho.
  { exists s. rewrite app_nil_r. by split. }
  destruct (write_ran fd [c] s r o Hi Ho) as (s1 & H1 & R1).
  destruct (IH s1 (o ++ [c])) as (s2 & H2 & R2); [apply R1|apply R1|]. exists s2. split.
  - unfold puts in *. cbn [for_each]. rewrite !run_bind, H1. cbn [rbind]. mrun. exact H2.
  - rewrite <- app_assoc in R2. by eapply ran_trans.
Qed.

(** ** cat.c copies the file *)
Lemma cat_spec fuel fd s r o :
  input s fd = Some r -> output s 1 = Some o -> (length r < fuel)%nat ->
  exists s', run (cat fuel fd s) = ROk true s' /\ ran fd s [] (o ++ r) s'.
Proof.
  revert s r o. induction fuel as [|k IH]; intros s r o Hi Ho Hf; [lia|]. cbn [cat].
  destruct (read_ran fd 512 s r o Hi Ho) as (s1 & H1 & R1); [lia|]. mrun. rewrite H1. cbn [rbind].
  change (Z.to_nat 512) with 512%nat in *. destruct r as [|b r'] eqn:Er.
  { exists s1. cbn [take length Z.of_nat]. split; [done|]. by rewrite app_nil_r. }
  rewrite <- Er in *. assert (0 < length r)%nat by (rewrite Er; simpl; lia).
  destruct (Z.ltb_spec 0 (Z.of_nat (length (take 512 r)))); [|rewrite length_take in *; lia].
  destruct (write_ran fd (take 512 r) s1 (drop 512 r) o) as (s2 & H2 & R2); [apply R1|apply R1|].
  mrun. rewrite H2. cbn [rbind].
  destruct (IH s2 (drop 512 r) (o ++ take 512 r)) as (s3 & H3 & R3); [apply R2|apply R2|rewrite length_drop; lia|].
  exists s3. split; [done|]. rewrite <- app_assoc, take_drop in R3. do 2 (eapply ran_trans; [done|]). done.
Qed.

(** ** wc.c *)

Definition is_white (c : Z) : bool := bool_decide (c ∈ white).
Definition count_words (t : list Z) : Z := Z.of_nat (length (parts_by is_white [] t)).
Definition count_lines (t : list Z) : Z := Z.of_nat (length (filter (fun c => c = nl) t)).

Lemma strchr_white c : strchr white c = None <-> is_white c = false.
Proof.
  unfold is_white. rewrite bool_decide_eq_false. split.
  - intros E Hin. unfold white in Hin. rewrite !elem_of_cons, elem_of_nil in Hin. cbn [strchr white Z.eqb] in E.
    destruct Hin as [-> |[-> |[-> |[-> |[-> |[]]]]]]; discriminate E.
  - intros Hn. destruct (strchr white c) as [l|] eqn:E; [|done].
    apply strchr_Some in E as (pre & tl & E & _). exfalso. apply Hn. rewrite E. set_solver.
Qed.

(** A part that is under way counts once, however much of it there is. *)
Lemma length_parts_cur (sep : Z -> bool) cur cur' t : cur <> [] -> cur' <> [] ->
  length (parts_by sep cur t) = length (parts_by sep cur' t).
Proof.
  revert cur cur'. induction t as [|c t IH]; intros cur cur' H H'; cbn [parts_by].
  - unfold emit. by rewrite !decide_False.
  - destruct (sep c); [unfold emit; by rewrite !decide_False|]. apply IH; by destruct cur, cur'.
Qed.

(** What the counters are after [done], with [t] still to come. *)
Definition tally (k : counts) (t : list Z) : Z * Z * Z :=
  (lines k + count_lines t, words k + Z.of_nat (length (parts_by is_white (if inword k then [0] else []) t)) - (if inword k then 1 else 0), chars k + Z.of_nat (length t)).

Definition within (k : counts) (t : list Z) : Prop :=
  0 <= lines k /\ 0 <= words k /\ (lines k <= chars k) /\ words k <= chars k /\ chars k + Z.of_nat (length t) < 2 ^ 31.

Lemma count_char_tally k c t : within k (c :: t) ->
  tally (count_char k c) t = tally k (c :: t) /\ within (count_char k c) t.
Proof.
  intros (Hl & Hw & H1 & H2 & H3). simpl length in H3. unfold count_char, tally, count_lines. rewrite (s32_small (chars k + 1)) by lia.
  rewrite filter_cons. cbn [parts_by]. unfold nl in *.
  assert (s32 (lines k + 1) = lines k + 1) as El by (apply s32_small; lia).
  assert (s32 (words k + 1) = words k + 1) as Ew by (apply s32_small; lia).
  rewrite El, Ew. destruct (strchr white c) as [l|] eqn:E.
  - assert (is_white c = true) as -> by (destruct (is_white c) eqn:E'; [done|]; apply strchr_white in E'; congruence).
    cbn [lines words chars inword]. unfold within. cbn [lines words chars inword].
    destruct (inword k), (Z.eqb_spec c 10); (rewrite decide_True by done) || (rewrite decide_False by done);
      unfold emit; rewrite ?decide_True, ?decide_False by done; simpl length; (split; [repeat apply (f_equal2 pair); lia|lia]).
  - apply strchr_white in E as Ew'. rewrite Ew'. destruct (inword k) eqn:Ek; unfold within; cbn [lines words chars inword].
    + rewrite (length_parts_cur is_white ([0] ++ [c]) [0]) by done.
      destruct (Z.eqb_spec c 10); (rewrite decide_True by done) || (rewrite decide_False by done); simpl length; (split; [repeat apply (f_equal2 pair); lia|lia]).
    + rewrite (length_parts_cur is_white ([] ++ [c]) [0]) by done.
      destruct (Z.eqb_spec c 10); (rewrite decide_True by done) || (rewrite decide_False by done); simpl length; (split; [repeat apply (f_equal2 pair); lia|lia]).
Qed.

Lemma count_chars_tally k p t : within k (p ++ t) ->
  tally (foldl count_char k p) t = tally k (p ++ t) /\ within (foldl count_char k p) t.
Proof.
  revert k. induction p as [|c p IH]; intros k H; [done|]. cbn [foldl app].
  destruct (count_char_tally k c (p ++ t) H) as [E H']. rewrite <- E. by apply IH.
Qed.

Lemma wc_loop_spec fuel fd k s r o :
  input s fd = Some r -> output s 1 = Some o -> (length r < fuel)%nat -> within k r ->
  exists k' s', run (wc_loop fuel fd k s) = ROk (Some k') s' /\ tally k' [] = tally k r /\ ran fd s [] o s'.
Proof.
  revert k s r. induction fuel as [|f IH]; intros k s r Hi Ho Hf Hk; [lia|]. cbn [wc_loop].
  destruct (read_ran fd 512 s r o Hi Ho) as (s1 & H1 & R1); [lia|]. mrun. rewrite H1. cbn [rbind].
  change (Z.to_nat 512) with 512%nat in *. destruct r as [|b r'] eqn:Er.
  { exists k, s1. cbn [take length Z.of_nat]. done. }
  rewrite <- Er in *. assert (0 < length r)%nat by (rewrite Er; simpl; lia).
  destruct (Z.ltb_spec 0 (Z.of_nat (length (take 512 r)))); [|rewrite length_take in *; lia].
  destruct (count_chars_tally k (take 512 r) (drop 512 r)) as [E Hk']; [by rewrite take_drop|]. rewrite take_drop in E.
  destruct (IH (foldl count_char k (take 512 r)) s1 (drop 512 r)) as (k' & s2 & H2 & E2 & R2);
    [apply R1|apply R1|rewrite length_drop; lia|done|].
  exists k', s2. split; [done|]. split; [congruence|]. by eapply ran_trans.
Qed.

(** [wc] against its definition.  On a file of less than 2^31 bytes, in whatever pieces of 512
    bytes it is read, [wc] ends and prints one line: the number of newline characters, the number
    of maximal runs of characters that are not white space (also across the pieces), the number
    of bytes, and the name.  It reads the file to its end and changes nothing else. *)
Theorem wc_counts fuel fd name s r o t :
  input s fd = Some r -> output s 1 = Some o -> (length r < fuel)%nat -> Z.of_nat (length r) < 2 ^ 31 ->
  Format.printf (str "%d %d %d %s" ++ [nl])
    [AInt (count_lines r); AInt (count_words r); AInt (Z.of_nat (length r)); AStr (Some name)] = Some t ->
  exists s', run (wc fuel name fd s) = ROk true s' /\ ran fd s [] (o ++ t) s'.
Proof.
  intros Hi Ho Hf Hr Ht. unfold wc.
  destruct (wc_loop_spec fuel fd (mkCounts 0 0 0 false) s r o Hi Ho Hf) as (k & s1 & H1 & E & R1).
  { unfold within; cbn [lines words chars]. lia. }
  mrun. rewrite H1. cbn [rbind]. mrun. unfold tally in E. cbn [lines words chars inword length] in E.
  change (count_lines []) with 0 in E. injection E as E1 E2 E3.
  assert (lines k = count_lines r) as -> by lia.
  assert (words k = count_words r) as -> by (unfold count_words; destruct (inword k); vm_compute (length (emit _ [])) in E2; lia).
  assert (chars k = Z.of_nat (length r)) as -> by lia.
  unfold printf. rewrite Ht. destruct (puts_ran fd t s1 [] o) as (s2 & H2 & R2); [apply R1|apply R1|].
  rewrite H2. cbn [rbind]. exists s2. split; [done|]. by eapply ran_trans.
Qed.
End laws.

(** * Files in memory

    Descriptors that are read and descriptors that are written, each with its bytes: an instance
    of the interface without a kernel below.  Names cannot be opened. *)
Module Demo.
Record streams := mkStreams { readers : gmap Z (list Z); writers : gmap Z (list Z) }.

Definition demo_read (fd n : Z) : M streams (Z * list Z) := fun s =>
  match readers s !! fd with
  | None => Ret (-1, []) s
  | Some r =>
      let d := take (Z.to_nat n) r in
      Ret (Z.of_nat (length d), d) (mkStreams (<[fd := drop (Z.to_nat n) r]> (readers s)) (writers s))
  end.
Definition demo_write (fd : Z) (d : list Z) : M streams Z := fun s =>
  match writers s !! fd with
  | None => Ret (-1) s
  | Some o => Ret (Z.of_nat (length d)) (mkStreams (readers s) (<[fd := o ++ d]> (writers s)))
  end.

#[global] Instance demo_ops : UserOps streams := {|
  open _ _ := ret (-1); read := demo_read; write := demo_write; close _ := ret 0;
  link _ _ := ret (-1); unlink _ := ret (-1); mkdir _ := ret (-1);
  fstat _ := ret (-1, mkStat 0 0 0 0 0); kill _ := ret (-1)
|}.

#[global] Instance demo_laws : UserLaws streams.
Proof.
  refine {| input s fd := readers s !! fd; output s fd := writers s !! fd |}.
  - intros s fd n r Hr Hn. eexists. cbn [read demo_ops]. unfold demo_read. rewrite Hr. split; [reflexivity|]. cbn [readers writers].
    split; [apply lookup_insert_eq|]. split; [|done]. intros g Hg. by apply lookup_insert_ne.
  - intros s fd d o Ho. eexists. cbn [write demo_ops]. unfold demo_write. rewrite Ho. split; [reflexivity|]. cbn [readers writers].
    split; [apply lookup_insert_eq|]. split; [|done]. intros g Hg. by apply lookup_insert_ne.
Defined.

(** One file, and standard output. *)
Definition start (t : list Z) : streams := mkStreams {[3 := t]} {[1 := []]}.
End Demo.

Lemma wc_counts_witness : exists s', run (wc 20 (str "f") 3 (Demo.start (str "two words"))) = ROk true s' /\
  output s' 1 = Some (str "0 2 9 f" ++ [nl]).
Proof.
  destruct (wc_counts (UL := Demo.demo_laws) 20 3 (str "f") (Demo.start (str "two words")) (str "two words") [] (str "0 2 9 f" ++ [nl])
    ltac:(reflexivity) ltac:(reflexivity) ltac:(by vm_compute; lia) ltac:(by vm_compute) ltac:(by vm_compute)) as (s' & Hr & R).
  exists s'. split; [exact Hr|]. exact (ran_out _ _ _ _ _ R).
Defined.
