(* ===== verification/Grep.v ===== *)
(** grep.c: the matcher of Kernighan and Pike, and the program around it.

    The reference is the textbook meaning of a regular expression: [lang r] is the set of texts
    [r] stands for, [compile] reads the pattern as an expression between optional anchors, and
    [matches] says that a part of the line is in the language.  Patterns and lines are C strings:
    lists of characters, the NUL left out. *)

From Stdlib Require Import ZArith Lia.
From stdpp Require Import base tactics option gmap sets strings numbers list.
From S2P Require Import Prelude CString Format User.
Open Scope Z_scope.

(** * The matcher *)

Definition star : Z := 42.
Definition dot : Z := 46.
Definition dollar : Z := 36.
Definition caret : Z := 94.

(** [matchstar(c, re, text)]; [here] is [matchhere] of the rest of the pattern. *)
Fixpoint matchstar (here : list Z -> bool) (c : Z) (text : list Z) : bool :=
  if here text then true else
  match text with
  | [] => false
  | t :: text' => if (t =? c) || (c =? dot) then matchstar here c text' else false
  end.

Fixpoint matchhere (re text : list Z) {struct re} : bool :=
  match re with
  | [] => true
  | c :: re1 =>
      let single :=
        match text with
        | [] => false
        | t :: text' => if (c =? dot) || (c =? t) then matchhere re1 text' else false
        end in
      match re1 with
      | [] => if c =? dollar then (match text with [] => true | _ => false end) else single
      | d :: re2 => if d =? star then matchstar (matchhere re2) c text else single
      end
  end.

(** The [do ... while] of [match]. *)
Fixpoint match_loop (re text : list Z) : bool :=
  if matchhere re text then true else
  match text with
  | [] => false
  | _ :: text' => match_loop re text'
  end.
Definition match_ (re text : list Z) : bool :=
  if first_char re =? caret then matchhere (tail re) text else match_loop re text.

(** * The program *)

Section grep.
Context {S : Type} {UO : UserOps S}.

(** The loop over the lines of the buffer: [p] is the text from [p] to the end of the buffer, the
    result what is left after the last newline. *)
Fixpoint scan_lines (fuel : nat) (pattern p : list Z) : M S (list Z) :=
  match strchr p nl with
  | None => ret p
  | Some q =>
      match fuel with
      | O => nofuel
      | Datatypes.S k =>
          let line := take (length p - length q) p in
          when (match_ pattern line) (write 1 (line ++ [nl]) ;; ret tt) ;;
          scan_lines k pattern (tail q)
      end
  end.

(** [held] are the [m] bytes in the buffer. *)
Fixpoint grep (fuel : nat) (pattern : list Z) (fd : Z) (held : list Z) : M S unit :=
  match fuel with
  | O => nofuel
  | Datatypes.S k =>
      '(n, b) <- read fd (1024 - Z.of_nat (length held) - 1) ;;
      if n <=? 0 then ret tt else
      let held := held ++ b in
      p <- scan_lines (length held) pattern held ;;
      grep k pattern fd (if decide (length p = length held) then [] else p)
  end.

Definition grep_main (fuel : nat) (argv : list (list Z)) : M S unit :=
  match argv with
  | _ :: pattern :: [] => grep fuel pattern 0 []
  | _ :: pattern :: files => each_file "grep" (fun _ fd => grep fuel pattern fd [] ;; ret true) files
  | _ => printf 2 (str "usage: grep pattern [file ...]" ++ [nl]) []
  end.
End grep.

(** * Regular expressions *)

Inductive regex :=
| Eps
| Chr (c : Z)
| Any
| Cat (r1 r2 : regex)
| Star (r : regex).

Inductive lang : regex -> list Z -> Prop :=
| L_eps : lang Eps []
| L_chr c : lang (Chr c) [c]
| L_any c : lang Any [c]
| L_cat r1 r2 s1 s2 : lang r1 s1 -> lang r2 s2 -> lang (Cat r1 r2) (s1 ++ s2)
| L_star_nil r : lang (Star r) []
| L_star_cons r s1 s2 : lang r s1 -> lang (Star r) s2 -> lang (Star r) (s1 ++ s2).

(** A pattern: an expression, and whether it must start and end where the line does. *)
Record pat := mkPat { at_start : bool; body : regex; at_end : bool }.

Definition matches (p : pat) (text : list Z) : Prop :=
  exists s1 s2 s3, text = s1 ++ s2 ++ s3 /\ lang (body p) s2 /\
    (at_start p = true -> s1 = []) /\ (at_end p = true -> s3 = []).

Definition atom (c : Z) : regex := if c =? dot then Any else Chr c.
Fixpoint compile_body (re : list Z) : regex * bool :=
  match re with
  | [] => (Eps, false)
  | c :: re1 =>
      let single := let '(r, e) := compile_body re1 in (Cat (atom c) r, e) in
      match re1 with
      | [] => if c =? dollar then (Eps, true) else single
      | d :: re2 => if d =? star then let '(r, e) := compile_body re2 in (Cat (Star (atom c)) r, e) else single
      end
  end.
Definition compile (re : list Z) : pat :=
  let anchored := first_char re =? caret in
  let '(r, e) := compile_body (if anchored then tail re else re) in mkPat anchored r e.

(** * The matcher is right *)

Lemma lang_eps s : lang Eps s <-> s = [].
Proof. split; [by inversion 1|]. intros ->. constructor. Qed.
Lemma lang_cat r1 r2 s : lang (Cat r1 r2) s <-> exists s1 s2, s = s1 ++ s2 /\ lang r1 s1 /\ lang r2 s2.
Proof. split; [inversion 1; subst; eauto|]. intros (s1 & s2 & -> & H1 & H2). by constructor. Qed.
Lemma lang_atom c s : lang (atom c) s <-> exists t, s = [t] /\ ((c =? dot) || (c =? t) = true).
Proof.
  unfold atom. destruct (Z.eqb_spec c dot) as [->|Hc]; simpl; split.
  - inversion 1; subst. by eexists.
  - intros (t & -> & _). constructor.
  - inversion 1; subst. eexists. split; [done|]. by apply Z.eqb_refl.
  - intros (t & -> & <-%Z.eqb_eq). constructor.
Qed.
(** Atoms take one character, so a repetition of an atom takes them one by one. *)
Lemma lang_star_atom c s : lang (Star (atom c)) s <->
  s = [] \/ exists t s', s = t :: s' /\ ((c =? dot) || (c =? t) = true) /\ lang (Star (atom c)) s'.
Proof.
  split.
  - inversion 1 as [| | | | |r s1 s2 Ha Hs]; subst; [by left|]. right. apply lang_atom in Ha as (t & -> & Ht). by exists t, s2.
  - intros [->|(t & s' & -> & Ht & Hs)]; [constructor|]. apply (L_star_cons _ [t]); [|done]. apply lang_atom. by exists t.
Qed.

Lemma matchstar_spec here c text :
  matchstar here c text = true <-> exists s1 s2, text = s1 ++ s2 /\ lang (Star (atom c)) s1 /\ here s2 = true.
Proof.
  induction text as [|t text IH]; cbn [matchstar].
  - destruct (here []) eqn:E; split; try done.
    + intros _. exists [], []. repeat split; [constructor|done].
    + intros (s1 & s2 & E2 & _ & H). symmetry in E2. apply app_nil in E2 as [-> ->]. congruence.
  - destruct (here (t :: text)) eqn:E.
    { split; [|done]. intros _. exists [], (t :: text). repeat split; [constructor|done]. }
    assert ((t =? c) || (c =? dot) = (c =? dot) || (c =? t)) as -> by (rewrite orb_comm; f_equal; apply Z.eqb_sym).
    destruct ((c =? dot) || (c =? t)) eqn:Ec.
    + rewrite IH. split; intros (s1 & s2 & E1 & H1 & H2).
      * exists (t :: s1), s2. rewrite E1. split; [done|]. split; [|done]. apply lang_star_atom. right. by exists t, s1.
      * apply lang_star_atom in H1 as [->|(t' & s' & -> & Ht & Hs)]; [simpl in E1; subst; congruence|].
        injection E1 as -> E1. by exists s', s2.
    + split; [done|]. intros (s1 & s2 & E1 & H1 & H2). exfalso.
      apply lang_star_atom in H1 as [->|(t' & s' & -> & Ht & Hs)]; [simpl in E1; subst; congruence|].
      injection E1 as -> _. congruence.
Qed.

Definition begins (re text : list Z) : Prop :=
  exists s2 s3, text = s2 ++ s3 /\ lang (compile_body re).1 s2 /\ ((compile_body re).2 = true -> s3 = []).

(** One character that is not repeated. *)
Lemma begins_single c re text :
  (exists s2 s3, text = s2 ++ s3 /\ lang (Cat (atom c) (compile_body re).1) s2 /\ ((compile_body re).2 = true -> s3 = [])) <->
  exists t text', text = t :: text' /\ ((c =? dot) || (c =? t) = true) /\ begins re text'.
Proof.
  split.
  - intros (s2 & s3 & -> & (a & b & -> & (t & -> & Ht)%lang_atom & Hb)%lang_cat & He).
    exists t, (b ++ s3). split; [done|]. split; [done|]. by exists b, s3.
  - intros (t & text' & -> & Ht & b & s3 & -> & Hb & He). exists (t :: b), s3. split; [done|]. split; [|done].
    apply lang_cat. exists [t], b. split; [done|]. split; [|done]. apply lang_atom. by exists t.
Qed.

Lemma matchhere_spec re text : matchhere re text = true <-> begins re text.
Proof.
  remember (length re) as n eqn:En. assert (length re <= n)%nat as Hn by lia. clear En. revert re text Hn.
  induction n as [|n IH]; intros re text Hn; destruct re as [|c re1]; simpl in Hn; try lia.
  1, 2: (split; [|done]; intros _; exists [], text; split; [done|]; split; [constructor|done]).
  assert (match text with [] => false | t :: text' => if (c =? dot) || (c =? t) then matchhere re1 text' else false end = true <->
    exists t text', text = t :: text' /\ ((c =? dot) || (c =? t) = true) /\ begins re1 text') as Hsingle.
  { destruct text as [|t text']; [split; [done|by intros (? & ? & ? & _)]|].
    destruct ((c =? dot) || (c =? t)) eqn:Et.
    - rewrite IH by lia. split; [intros H; by exists t, text'|]. by intros (? & ? & [= <- <-] & _ & H).
    - split; [done|]. intros (? & ? & [= <- <-] & H & _). congruence. }
  pose proof (begins_single c re1 text) as Hb. destruct re1 as [|d re2].
  - unfold begins at 1. cbn [matchhere compile_body]. destruct (Z.eqb_spec c dollar) as [->|Hc]; cbn [fst snd].
    + split.
      * destruct text; [|done]. intros _. exists [], []. split; [done|]. split; [constructor|done].
      * intros (s2 & s3 & -> & ->%lang_eps & He). by rewrite He.
    + rewrite Hsingle, <- Hb. done.
  - unfold begins at 1. cbn [matchhere compile_body]. destruct (Z.eqb_spec d star) as [->|Hd].
    + rewrite matchstar_spec. destruct (compile_body re2) as [r e] eqn:Ec. cbn [fst snd].
      assert (forall x, matchhere re2 x = true <-> begins re2 x) as IH2 by (intros x; apply IH; simpl in Hn; lia). split.
      * intros (s1 & s2 & -> & Hs1 & (a & b & -> & Ha & He)%IH2). rewrite Ec in Ha, He. exists (s1 ++ a), b.
        rewrite app_assoc. split; [done|]. split; [|done]. apply lang_cat. by exists s1, a.
      * intros (s2 & s3 & -> & (a & b & -> & Ha & Hb2)%lang_cat & He). exists a, (b ++ s3).
        rewrite app_assoc. split; [done|]. split; [done|]. apply IH2. exists b, s3. by rewrite Ec.
    + rewrite Hsingle, <- Hb. cbn [compile_body]. destruct (match re2 with [] => _ | _ :: _ => _ end) as [r e]. done.
Qed.

Lemma match_loop_spec re text : match_loop re text = true <-> exists s1 s2, text = s1 ++ s2 /\ begins re s2.
Proof.
  induction text as [|t text IH]; cbn [match_loop].
  - destruct (matchhere re []) eqn:E.
    + split; [|done]. intros _. exists [], []. split; [done|]. by apply matchhere_spec.
    + split; [done|]. intros (s1 & s2 & E2 & H). symmetry in E2. apply app_nil in E2 as [-> ->]. apply matchhere_spec in H. congruence.
  - destruct (matchhere re (t :: text)) eqn:E.
    + split; [|done]. intros _. exists [], (t :: text). split; [done|]. by apply matchhere_spec.
    + rewrite IH. split; intros (s1 & s2 & E1 & H).
      * exists (t :: s1), s2. by rewrite E1.
      * destruct s1 as [|t' s1]; simpl in E1; [subst; apply matchhere_spec in H; congruence|].
        injection E1 as -> E1. by exists s1, s2.
Qed.

Lemma match_spec re text : match_ re text = true <-> matches (compile re) text.
Proof.
  unfold match_, compile, matches. destruct (first_char re =? caret).
  - rewrite matchhere_spec. unfold begins. destruct (compile_body (tail re)) as [r e]. cbn [fst snd at_start body at_end]. split.
    + intros (s2 & s3 & E & Hs & He). by exists [], s2, s3.
    + intros (s1 & s2 & s3 & E & Hs & H1 & He). rewrite (H1 eq_refl) in E. by exists s2, s3.
  - rewrite match_loop_spec. unfold begins. destruct (compile_body re) as [r e]. cbn [fst snd at_start body at_end]. split.
    + intros (s1 & t & -> & s2 & s3 & -> & Hs & He). by exists s1, s2, s3.
    + intros (s1 & s2 & s3 & -> & Hs & _ & He). exists s1, (s2 ++ s3). split; [done|]. by exists s2, s3.
Qed.

#[export] Instance matches_dec re text : Decision (matches (compile re) text).
Proof.
  destruct (match_ re text) eqn:E; [left|right]; [by apply match_spec|]. intros H%match_spec. congruence.
Defined.

(** C37. The matcher against the meaning of regular expressions.  [match] answers 1 exactly if some
    part of the line is in the language of the pattern - the part at the start of the line if the
    pattern begins with [^], the part at the end if it ends with [$] - where [.] is any character,
    [c*] any number of [c], and every other character itself; in particular it always ends. *)
Theorem match_regexp re text : match_ re text = bool_decide (matches (compile re) text).
Proof.
  destruct (match_ re text) eqn:E; symmetry.
  - apply bool_decide_eq_true. by apply match_spec.
  - apply bool_decide_eq_false. intros H%match_spec. congruence.
Qed.

(** * The lines of a file *)

(** The lines that end in a newline; [cur] is what the line at the front has already. *)
Fixpoint lines_from (cur t : list Z) : list (list Z) :=
  match t with
  | [] => []
  | c :: t' => if c =? nl then cur :: lines_from [] t' else lines_from (cur ++ [c]) t'
  end.
Definition file_lines (t : list Z) : list (list Z) := lines_from [] t.

(** What [grep] prints of a list of lines. *)
Definition printed (pattern : list Z) (l : list (list Z)) : list Z :=
  mjoin ((fun line => line ++ [nl]) <$> filter (matches (compile pattern)) l).

Lemma lines_from_app cur a t : nl ∉ a -> lines_from cur (a ++ t) = lines_from (cur ++ a) t.
Proof.
  revert cur. induction a as [|c a IH]; intros cur Ha; [by rewrite app_nil_r|]. cbn [app lines_from].
  apply not_elem_of_cons in Ha as [Hc Ha]. destruct (Z.eqb_spec c nl); [congruence|]. rewrite IH by done. by rewrite <- app_assoc.
Qed.
Lemma lines_none cur t : nl ∉ t -> lines_from cur t = [].
Proof. intros H. rewrite <- (app_nil_r t). by rewrite lines_from_app. Qed.
Lemma lines_from_nonempty cur t : lines_from cur t <> [] -> nl ∈ t.
Proof. intros H. destruct (decide (nl ∈ t)); [done|]. by rewrite lines_none in H. Qed.
(** A line is at least as long as what is known of it. *)
Lemma lines_from_long cur t l : head (lines_from cur t) = Some l -> (length cur <= length l)%nat.
Proof.
  revert cur. induction t as [|c t IH]; intros cur H; [done|]. cbn [lines_from] in H. destruct (c =? nl).
  - injection H as <-. done.
  - apply IH in H. rewrite length_app in H. lia.
Qed.
Lemma printed_app pattern l l' : printed pattern (l ++ l') = printed pattern l ++ printed pattern l'.
Proof. unfold printed. by rewrite filter_app, fmap_app, join_app. Qed.

Section program.
Context {S : Type} {UO : UserOps S} {UL : UserLaws S} (pattern : list Z) (fd : Z).

Lemma scan_lines_spec fuel p s r o :
  is_text p -> (length p <= fuel)%nat -> input s fd = Some r -> output s 1 = Some o ->
  exists rest l s', run (scan_lines fuel pattern p s) = ROk rest s' /\ ran fd s r (o ++ printed pattern l) s' /\
    nl ∉ rest /\ is_text rest /\ (forall t, file_lines (p ++ t) = l ++ file_lines (rest ++ t)) /\
    (length rest <= length p)%nat /\ (length rest = length p -> rest = p).
Proof.
  revert p s o. induction fuel as [|k IH]; intros p s o Ht Hf Hi Ho; cbn [scan_lines].
  all: destruct (strchr p nl) as [q|] eqn:E.
  2, 4: exists p, [], s; rewrite app_nil_r; split; [done|]; split; [by split|]; split; [by apply strchr_None|done].
  - apply strchr_Some in E as (a & b & -> & _). rewrite length_app in Hf. simpl in Hf. lia.
  - apply strchr_Some in E as (line & b & -> & -> & _ & _ & Hn). rewrite length_app in Hf. simpl in Hf.
    apply Forall_app in Ht as [_ Ht]. apply Forall_cons in Ht as [_ Ht].
    assert (take (length (line ++ nl :: b) - length (nl :: b)) (line ++ nl :: b) = line) as ->.
    { rewrite length_app. replace (_ + _ - _)%nat with (length line) by lia. apply take_app_length. }
    assert (exists s1, run (when (match_ pattern line) (write 1 (line ++ [nl]) ;; ret tt) s) = ROk tt s1 /\
      ran fd s r (o ++ printed pattern [line]) s1) as (s1 & H1 & R1).
    { unfold printed. rewrite filter_cons. mrun. destruct (match_ pattern line) eqn:Em.
      - rewrite decide_True by (by apply match_spec). destruct (write_ran fd (line ++ [nl]) s r o Hi Ho) as (s1 & H1 & R1).
        exists s1. mrun. rewrite H1. cbn [rbind]. split; [done|]. cbn [fmap list_fmap filter list_filter mjoin list_join]. by rewrite app_nil_r.
      - rewrite decide_False by (intros H%match_spec; congruence). exists s. split; [done|]. cbn. rewrite app_nil_r. by split. }
    destruct (IH b s1 (o ++ printed pattern [line])) as (rest & l & s2 & H2 & R2 & Hr & Htr & Hl & Hle & Heq);
      [done|lia|apply R1|apply R1|]. exists rest, (line :: l), s2. rewrite run_bind, H1. cbn [rbind tail]. split; [done|].
    split; [change (line :: l) with ([line] ++ l); rewrite printed_app, app_assoc; by eapply ran_trans|]. split; [done|]. split; [done|].
    rewrite length_app. split; [|simpl; split; lia]. intros t. unfold file_lines. rewrite <- app_assoc, lines_from_app by done.
    cbn [app lines_from]. rewrite Z.eqb_refl. cbn [app]. f_equal. apply Hl.
Qed.

(** C38. What [grep] prints.  On a file without NUL characters, whose lines that end in a newline
    have at most 1022 characters, [grep] ends, reads the file to its end and prints exactly these
    lines that match the pattern, each once and in order, although the file is read in pieces that
    cut lines; a last line without newline is not printed. *)
Theorem grep_selects fuel held s r o :
  is_text (held ++ r) -> nl ∉ held -> (length held < 1023)%nat ->
  Forall (fun l => length l <= 1022)%nat (file_lines (held ++ r)) ->
  input s fd = Some r -> output s 1 = Some o -> (length r < fuel)%nat ->
  exists s', run (grep fuel pattern fd held s) = ROk tt s' /\
    ran fd s [] (o ++ printed pattern (file_lines (held ++ r))) s'.
Proof.
  revert held s r o. induction fuel as [|k IH]; intros held s r o Ht Hn Hl Hs Hi Ho Hf; [lia|]. cbn [grep].
  set (n := 1024 - Z.of_nat (length held) - 1). destruct (read_ran fd n s r o Hi Ho) as (s1 & H1 & R1); [lia|]. mrun. rewrite H1. cbn [rbind].
  destruct (decide (r = [])) as [->|Hr].
  { exists s1. rewrite take_nil. cbn [length Z.of_nat Z.leb Z.compare]. split; [done|]. unfold file_lines. rewrite app_nil_r, lines_none by done.
    rewrite drop_nil in R1. unfold printed. cbn. by rewrite app_nil_r. }
  assert (0 < length r)%nat by (destruct r; [done|simpl; lia]).
  destruct (Z.leb_spec (Z.of_nat (length (take (Z.to_nat n) r))) 0); [rewrite length_take in *; lia|].
  set (h := held ++ take (Z.to_nat n) r). set (r' := drop (Z.to_nat n) r) in *.
  assert (h ++ r' = held ++ r) as Eh by (unfold h, r'; by rewrite <- app_assoc, take_drop).
  assert (length h <= 1023)%nat as Hh by (unfold h; rewrite length_app, length_take; lia).
  assert (is_text h /\ is_text r') as [Hth Htr] by (apply Forall_app; by rewrite Eh).
  destruct (scan_lines_spec (length h) h s1 r' o) as (rest & l & s2 & H2 & R2 & Hnr & Htx & Hlines & Hle & Heq); [done|done|apply R1|apply R1|].
  mrun. rewrite H2. cbn [rbind]. rewrite <- Eh, Hlines in Hs |- *. apply Forall_app in Hs as [_ Hs].
  assert (length r' < k)%nat as Hk by (unfold r'; rewrite length_drop; lia).
  rewrite printed_app, app_assoc. destruct (decide (length rest = length h)) as [E|E].
  - assert (file_lines (rest ++ r') = []) as Enone.
    { destruct (file_lines (rest ++ r')) as [|x xs] eqn:Ex; [done|]. exfalso.
      assert (length h = 1023)%nat as Hfull.
      { assert (nl ∈ rest ++ r') as [|Hin]%elem_of_app by (apply (lines_from_nonempty []); unfold file_lines in Ex; by rewrite Ex); [done|].
        apply list_elem_of_split in Hin as (a & b & Hab). apply (f_equal length) in Hab. unfold r' in Hab. rewrite length_drop, length_app in Hab.
        simpl in Hab. unfold h. rewrite length_app, length_take. lia. }
      unfold file_lines in Ex. rewrite lines_from_app in Ex by done. simpl in Ex.
      pose proof (lines_from_long rest r' x) as Hx. rewrite Ex in Hx. specialize (Hx eq_refl). apply Forall_cons in Hs as [Hs _]. lia. }
    assert (file_lines r' = []) as Er'.
    { apply lines_none. intros Hin. destruct (list_elem_of_split_l r' nl Hin) as (a & b & Hab & Ha). unfold file_lines in Enone.
      rewrite lines_from_app, Hab, lines_from_app in Enone by done. cbn [lines_from] in Enone. by rewrite Z.eqb_refl in Enone. }
    destruct (IH [] s2 r' (o ++ printed pattern l)) as (s3 & H3 & R3); [done|set_solver|simpl; lia| |apply R2|apply R2|done|].
    { change ([] ++ r') with r'. rewrite Er'. constructor. }
    exists s3. split; [done|]. change ([] ++ r') with r' in R3. rewrite Er' in R3. rewrite Enone. do 2 (eapply ran_trans; [done|]). done.
  - destruct (IH rest s2 r' (o ++ printed pattern l)) as (s3 & H3 & R3); [by apply Forall_app|done|lia|done|apply R2|apply R2|done|].
    exists s3. split; [done|]. do 2 (eapply ran_trans; [done|]). done.
Qed.
End program.

Lemma grep_selects_witness : exists s',
  run (grep 30 (str "^a.*c$") 3 [] (Demo.start (str "abbc" ++ [nl] ++ str "xac" ++ [nl] ++ str "ac" ++ [nl]))) = ROk tt s' /\
  output s' 1 = Some (str "abbc" ++ [nl] ++ str "ac" ++ [nl]).
Proof.
  set (t := str "abbc" ++ [nl] ++ str "xac" ++ [nl] ++ str "ac" ++ [nl]).
  assert (is_text t) as Ht by (repeat constructor; done).
  assert (Forall (fun l => length l <= 1022)%nat (file_lines t)) as Hl by (repeat constructor; simpl; lia).
  destruct (grep_selects (UL := Demo.demo_laws) (str "^a.*c$") 3 30 [] (Demo.start t) t [] Ht ltac:(set_solver) ltac:(simpl; lia) Hl
    ltac:(reflexivity) ltac:(reflexivity) ltac:(vm_compute; lia)) as (s' & Hr & R).
  exists s'. split; [exact Hr|]. rewrite (ran_out _ _ _ _ _ R). vm_compute. reflexivity.
Defined.
