(* ===== verification/Sh.v ===== *)
(** The shell's parser: the second half of sh.c, and [getcmd].

    The line is a buffer of characters with a NUL after it; a [char *] into it is its index.  A
    command holds the indices of its words, as the code holds pointers ([argv] and [eargv], [file]
    and [efile]), and [nulterminate] writes a NUL after each word into the same buffer.  The
    position [*ps] is the state the parser runs on; sh.c's [panic] prints its message and exits.
    [malloc] is taken to succeed. *)

From Stdlib Require Import ZArith Lia.
From stdpp Require Import base tactics option gmap sets strings numbers list.
From S2P Require Import Prelude CString Format User Sysfile.
Open Scope Z_scope.

(** * Commands *)

Definition MAXARGS : Z := 10.

Inductive cmd :=
| EXEC (argv : list (nat * nat))
| REDIR (c : cmd) (file efile : nat) (mode fd : Z)
| PIPE (left right : cmd)
| LIST (left right : cmd)
| BACK (c : cmd).

(** [cmd->argv[argc] = q; cmd->eargv[argc] = eq;]: the node of [execcmd] is inside the
    redirections that were put around it since. *)
Fixpoint add_arg (c : cmd) (q eq : nat) : cmd :=
  match c with
  | EXEC argv => EXEC (argv ++ [(q, eq)])
  | REDIR c file efile mode fd => REDIR (add_arg c q eq) file efile mode fd
  | c => c
  end.

(** * Tokens *)

Definition whitespace : list Z := [32; 9; 13; 10; 11].
Definition symbols : list Z := str "<|>&;()".
Definition among (set : list Z) (c : Z) : bool := match strchr set c with Some _ => true | None => false end.

Section parser.
Context (text : list Z).
Abbreviation es := (length text).

Definition char_at (s : nat) : Z := default 0 (text !! s).

(** [while (s < es && f( *s )) s++;] with [n = es - s]. *)
Fixpoint span (f : Z -> bool) (n s : nat) : nat :=
  match n with
  | O => s
  | S k => if f (char_at s) then span f k (S s) else s
  end.
Definition skip_white (s : nat) : nat := span (among whitespace) (es - s) s.
Definition is_word (c : Z) : bool := negb (among whitespace c) && negb (among symbols c).
Definition word_end (s : nat) : nat := span is_word (es - s) s.

(** The token, and the indices [q] and [eq] of its text. *)
Definition gettoken : M nat (Z * nat * nat) := fun s =>
  let q := skip_white s in
  let c := char_at q in
  let '(ret, s) :=
    if c =? 0 then (c, q)
    else if among (str "|();&<") c then (c, S q)
    else if c =? 62 then if char_at (S q) =? 62 then (43, S (S q)) else (c, S q)
    else (97, word_end q) in
  Ret (ret, q, s) (skip_white s).

Definition peek (toks : list Z) : M nat bool := fun s =>
  let s := skip_white s in
  Ret (negb (char_at s =? 0) && among toks (char_at s)) s.

(** * The grammar *)

Fixpoint parseredirs (n : nat) (c : cmd) : M nat cmd :=
  b <- peek (str "<>") ;;
  if negb b then ret c else
  match n with
  | O => nofuel
  | S k =>
      '(tok, _, _) <- gettoken ;;
      '(t, q, eq) <- gettoken ;;
      if negb (t =? 97) then panic "missing file for redirection" else
      parseredirs k
        (if tok =? 60 then REDIR c q eq O_RDONLY 0
         else if tok =? 62 then REDIR c q eq (Z.lor O_WRONLY O_CREATE) 1
         else if tok =? 43 then REDIR c q eq (Z.lor O_WRONLY O_CREATE) 1
         else c)
  end.

(** The [while] of [parseexec]. *)
Fixpoint parseargs (n : nat) (argc : Z) (c : cmd) : M nat cmd :=
  b <- peek (str "|)&;") ;;
  if b then ret c else
  '(tok, q, eq) <- gettoken ;;
  if tok =? 0 then ret c else
  if negb (tok =? 97) then panic "syntax" else
  match n with
  | O => nofuel
  | S k =>
      let c := add_arg c q eq in
      let argc := argc + 1 in
      if MAXARGS <=? argc then panic "too many args" else
      c <- parseredirs es c ;;
      parseargs k argc c
  end.

(** The [while] of [parseline]. *)
Fixpoint parseback (n : nat) (c : cmd) : M nat cmd :=
  b <- peek (str "&") ;;
  if negb b then ret c else
  match n with
  | O => nofuel
  | S k => gettoken ;; parseback k (BACK c)
  end.

Fixpoint parseline (fuel : nat) : M nat cmd :=
  match fuel with
  | O => nofuel
  | S k =>
      c <- parsepipe k ;;
      c <- parseback es c ;;
      b <- peek (str ";") ;;
      if b then gettoken ;; r <- parseline k ;; ret (LIST c r) else ret c
  end
with parsepipe (fuel : nat) : M nat cmd :=
  match fuel with
  | O => nofuel
  | S k =>
      c <- parseexec k ;;
      b <- peek (str "|") ;;
      if b then gettoken ;; r <- parsepipe k ;; ret (PIPE c r) else ret c
  end
with parseexec (fuel : nat) : M nat cmd :=
  match fuel with
  | O => nofuel
  | S k =>
      b <- peek (str "(") ;;
      if b then parseblock k else
      c <- parseredirs es (EXEC []) ;;
      parseargs es 0 c
  end
with parseblock (fuel : nat) : M nat cmd :=
  match fuel with
  | O => nofuel
  | S k =>
      b <- peek (str "(") ;;
      if negb b then panic "parseblock" else
      gettoken ;;
      c <- parseline k ;;
      b <- peek (str ")") ;;
      if negb b then panic "syntax - missing )" else
      gettoken ;;
      parseredirs es c
  end.

(** Up to the call of [nulterminate]; what is left over of the line is printed by [run_line] of ShRun.v. *)
Definition parse (fuel : nat) : M nat cmd :=
  c <- parseline fuel ;;
  peek [] ;;
  s <- gets id ;;
  if negb (s =? es)%nat then panic "syntax" else ret c.
End parser.

(** * The end of words *)

(** [for (i = 0; ecmd->argv[i]; i++) *ecmd->eargv[i] = 0;] and the rest of [nulterminate], on the
    buffer. *)
Definition cut (buf : list Z) (w : nat * nat) : list Z := <[w.2 := 0]> buf.
Fixpoint nulterminate (c : cmd) (buf : list Z) : list Z :=
  match c with
  | EXEC argv => foldl cut buf argv
  | REDIR c file efile _ _ => cut (nulterminate c buf) (file, efile)
  | PIPE l r | LIST l r => nulterminate r (nulterminate l buf)
  | BACK c => nulterminate c buf
  end.

(** [parsecmd(s)] on a line without its NUL: the command and the buffer it points into.  Four
    calls are nested for a character at most. *)
Definition parse_fuel (text : list Z) : nat := (4 * length text + 4)%nat.
Definition parsecmd (text : list Z) : res nat (cmd * list Z) :=
  rbind (run (parse text (parse_fuel text) 0%nat)) (fun c s => ROk (c, nulterminate c (text ++ [0])) s).

(** * The prompt *)

Definition getcmd {S} {UO : UserOps S} (nbuf : Z) : M S (Z * list Z) :=
  printf 2 (str "$ ") [] ;;
  buf <- ugets nbuf ;;
  ret (if first_char buf =? 0 then -1 else 0, buf).

(** * Every line is parsed *)

(** [p] ends: it returns with [Q], or exits with one of the messages. *)
Definition messages : list string := ["missing file for redirection"; "syntax"; "too many args"; "parseblock"; "syntax - missing )"]%string.
Definition ends {A} (p : prog nat A) (Q : A -> nat -> Prop) : Prop :=
  match run p with
  | ROk a s => Q a s
  | RPanic msg => msg ∈ messages
  | _ => False
  end.

Lemma ends_bind {A B} (m : M nat A) (f : A -> M nat B) s R Q :
  ends (m s) R -> (forall a s', R a s' -> ends (f a s') Q) -> ends (bind m f s) Q.
Proof. unfold ends. rewrite run_bind. intros Hm Hf. destruct (run (m s)); cbn [rbind]; try done. by apply Hf. Qed.
Lemma ends_mono {A} (p : prog nat A) (Q Q' : A -> nat -> Prop) :
  ends p Q -> (forall a s, Q a s -> Q' a s) -> ends p Q'.
Proof. unfold ends. destruct (run p); auto. Qed.
Lemma ends_ret {A} (a : A) s (Q : A -> nat -> Prop) : Q a s -> ends (ret a s) Q.
Proof. done. Qed.
Lemma ends_panic {A} msg s (Q : A -> nat -> Prop) : msg ∈ messages -> ends (panic msg s) Q.
Proof. done. Qed.

Lemma among_spec set c : is_text set -> among set c = bool_decide (c ∈ set).
Proof.
  intros Ht. unfold among. destruct (strchr set c) as [l|] eqn:E; symmetry.
  - apply bool_decide_eq_true. apply strchr_Some in E as (a & b & -> & _). set_solver.
  - apply bool_decide_eq_false. by apply strchr_None.
Qed.

Section total.
Context (text : list Z).
Abbreviation es := (length text).
Abbreviation at_ := (char_at text).

Lemma at_end : at_ es = 0.
Proof. unfold char_at. by rewrite lookup_ge_None_2. Qed.
Lemma at_nonzero s : at_ s <> 0 -> (s < es)%nat.
Proof. intros H. destruct (decide (s < es)%nat); [done|]. exfalso. apply H. unfold char_at. by rewrite lookup_ge_None_2 by lia. Qed.

Lemma span_spec f s : (s <= es)%nat ->
  let e := span text f (es - s) s in
  (s <= e <= es)%nat /\ (forall i, (s <= i < e)%nat -> f (at_ i) = true) /\ (e = es \/ f (at_ e) = false).
Proof.
  remember (es - s)%nat as n eqn:En. revert s En. induction n as [|n IH]; intros s En Hs; cbn [span].
  - split; [lia|]. split; [lia|]. left. lia.
  - destruct (f (at_ s)) eqn:E; [|split; [lia|]; split; [lia|by right]].
    destruct (IH (S s)) as (H1 & H2 & H3); [lia|lia|]. split; [lia|]. split; [|done].
    intros i Hi. destruct (decide (i = s)) as [->|]; [done|]. apply H2. lia.
Qed.

(** A word: its characters, and what follows it. *)
Definition word_ok (w : nat * nat) : Prop :=
  (w.1 < w.2 <= es)%nat /\ (forall i, (w.1 <= i < w.2)%nat -> is_word (at_ i) = true) /\ (w.2 = es \/ is_word (at_ w.2) = false).

(** The commands the code builds: fewer than [MAXARGS] words, so that [argv] ends with a null
    pointer inside the array, and the descriptors and modes of the three redirections. *)
Fixpoint cmd_ok (c : cmd) : Prop :=
  match c with
  | EXEC argv => Z.of_nat (length argv) < MAXARGS /\ Forall word_ok argv
  | REDIR c file efile mode fd =>
      cmd_ok c /\ word_ok (file, efile) /\ ((mode = O_RDONLY /\ fd = 0) \/ (mode = Z.lor O_WRONLY O_CREATE /\ fd = 1))
  | PIPE l r | LIST l r => cmd_ok l /\ cmd_ok r
  | BACK c => cmd_ok c
  end.

Lemma skip_white_spec s : (s <= es)%nat -> (s <= skip_white text s <= es)%nat.
Proof. intros Hs. by destruct (span_spec (among whitespace) s Hs) as (H & _). Qed.
Lemma skip_white_stop s : (s <= es)%nat -> among whitespace (at_ (skip_white text s)) = false.
Proof.
  intros Hs. destruct (span_spec (among whitespace) s Hs) as (_ & _ & [E|E]); [|done].
  change (among whitespace (at_ (span text (among whitespace) (es - s) s)) = false). by rewrite E, at_end.
Qed.
Lemma skip_white_idem s : (s <= es)%nat -> skip_white text (skip_white text s) = skip_white text s.
Proof.
  intros Hs. pose proof (skip_white_stop s Hs) as E. unfold skip_white at 1. destruct (es - _)%nat; [done|]. cbn [span]. by rewrite E.
Qed.

Lemma peek_ends toks s : (s <= es)%nat ->
  ends (peek text toks s) (fun b s' => s' = skip_white text s /\ (s <= s' <= es)%nat /\ (b = true -> at_ s' <> 0 /\ among toks (at_ s') = true)).
Proof.
  intros Hs. unfold ends, peek. cbn [run]. split; [done|]. split; [by apply skip_white_spec|].
  intros [H1 H2]%andb_true_iff. split; [|done]. by destruct (Z.eqb_spec (at_ (skip_white text s)) 0).
Qed.

Lemma not_symbol c : among (str "|();&<") c = false -> c <> 62 -> among symbols c = false.
Proof.
  rewrite !among_spec, !bool_decide_eq_false by (repeat constructor; done). intros H1 H2 Hin. apply H1.
  change symbols with [60; 124; 62; 38; 59; 40; 41] in Hin. change (str "|();&<") with [124; 40; 41; 59; 38; 60]. set_solver.
Qed.

(** A token takes at least a character, but for the end of the line. *)
Lemma gettoken_ends s : (s <= es)%nat ->
  ends (gettoken text s) (fun r s' => let '(tok, q, eq) := r in
    (s <= s' <= es)%nat /\ (at_ (skip_white text s) <> 0 -> (skip_white text s < s')%nat) /\ (tok = 0 \/ (s < s')%nat) /\
    (tok = 97 -> word_ok (q, eq))).
Proof.
  intros Hs. unfold ends, gettoken. pose proof (skip_white_spec s Hs) as Hq. pose proof (skip_white_stop s Hs) as Hw.
  set (q := skip_white text s) in *. destruct (Z.eqb_spec (at_ q) 0) as [E0|E0]; cbn [run].
  { rewrite E0. pose proof (skip_white_spec q). split; [lia|]. split; [done|]. split; [by left|done]. }
  pose proof (at_nonzero q E0) as Hlt. destruct (among (str "|();&<") (at_ q)) eqn:E1; cbn [run].
  { pose proof (skip_white_spec (S q)). split; [lia|]. split; [lia|]. split; [right; lia|]. intros E. rewrite E in E1. vm_compute in E1. done. }
  destruct (Z.eqb_spec (at_ q) 62) as [E2|E2]; cbn [run].
  - destruct (Z.eqb_spec (at_ (S q)) 62) as [E3|E3]; cbn [run].
    + assert (S q < es)%nat by (apply at_nonzero; lia). pose proof (skip_white_spec (S (S q))).
      split; [lia|]. split; [lia|]. split; [right; lia|done].
    + pose proof (skip_white_spec (S q)). split; [lia|]. split; [lia|]. split; [right; lia|]. rewrite E2. done.
  - destruct (span_spec is_word q) as (H1 & H2 & H3); [lia|]. fold (word_end text q) in H1, H2, H3.
    assert (is_word (at_ q) = true) as Hwq.
    { unfold is_word. rewrite Hw, not_symbol; done. }
    assert (q < word_end text q)%nat as Hgt.
    { unfold word_end. destruct (es - q)%nat as [|n] eqn:En; [lia|]. cbn [span]. rewrite Hwq.
      pose proof (span_spec is_word (S q) ltac:(lia)) as (H & _). replace (es - S q)%nat with n in H by lia. lia. }
    pose proof (skip_white_spec (word_end text q)). split; [lia|]. split; [lia|]. split; [right; lia|].
    intros _. split; [cbn [fst snd]; lia|done].
Qed.

(** Redirections around an [EXEC] of [k] words. *)
Fixpoint chain (k : Z) (c : cmd) : Prop :=
  match c with
  | EXEC argv => Z.of_nat (length argv) = k
  | REDIR c _ _ _ _ => chain k c
  | _ => False
  end.

Lemma chain_add k c q eq : chain k c -> cmd_ok c -> word_ok (q, eq) -> k + 1 < MAXARGS ->
  chain (k + 1) (add_arg c q eq) /\ cmd_ok (add_arg c q eq).
Proof.
  intros Hk Hc Hw Hlt. induction c as [argv|c IH f e m d| | |]; cbn [chain cmd_ok add_arg] in *; try done.
  - rewrite length_app, Forall_app. cbn [length]. destruct Hc as [_ Hc]. split; [lia|]. split; [lia|]. split; [done|]. by constructor.
  - destruct Hc as (Hc & H). destruct (IH Hk Hc) as [H1 H2]. done.
Qed.

Lemma parseredirs_ends n c s : (s <= es)%nat -> (es - s <= n)%nat -> cmd_ok c ->
  ends (parseredirs text n c s) (fun c' s' => (s <= s' <= es)%nat /\ cmd_ok c' /\ forall k, chain k c -> chain k c').
Proof.
  revert c s. induction n as [|n IH]; intros c s Hs Hn Hc; cbn [parseredirs];
    (eapply ends_bind; [by apply peek_ends|]); intros b s1 (-> & H1 & Hb); (destruct b; cbn [negb]; [|by apply ends_ret]).
  { destruct Hb as [Hb _]; [done|]. apply at_nonzero in Hb. lia. }
  destruct Hb as [Hb _]; [done|]. eapply ends_bind; [apply gettoken_ends; lia|]. intros [[tok q0] e0] s2 (H2 & Hp & _ & _).
  rewrite skip_white_idem in Hp by done. specialize (Hp Hb).
  eapply ends_bind; [apply gettoken_ends; lia|]. intros [[t q] eq] s3 (H3 & _ & _ & Hw).
  destruct (Z.eqb_spec t 97) as [->|]; cbn [negb]; [|apply ends_panic; set_solver]. specialize (Hw eq_refl).
  eapply ends_mono; [apply IH; [lia|lia|]|].
  - repeat case_match; cbn [cmd_ok]; auto 6.
  - intros c' s' (H4 & Hc' & Hk). split; [lia|]. split; [done|]. intros k Hck. apply Hk. by repeat case_match.
Qed.

Lemma parseargs_ends n k c s : (s <= es)%nat -> (es - s <= n)%nat -> cmd_ok c -> chain k c -> 0 <= k ->
  ends (parseargs text n k c s) (fun c' s' => (s <= s' <= es)%nat /\ cmd_ok c').
Proof.
  revert k c s. induction n as [|n IH]; intros k c s Hs Hn Hc Hk H0; cbn [parseargs];
    (eapply ends_bind; [by apply peek_ends|]); intros b s1 (-> & H1 & _); (destruct b; [by apply ends_ret|]);
    (eapply ends_bind; [apply gettoken_ends; lia|]); intros [[tok q] eq] s2 (H2 & _ & Ht & Hw);
    (destruct (Z.eqb_spec tok 0) as [|Hne]; [apply ends_ret; split; [lia|done]|]);
    (destruct (Z.eqb_spec tok 97) as [->|]; cbn [negb]; [|apply ends_panic; set_solver]);
    (destruct Ht as [|Ht]; [done|]); [lia|]. specialize (Hw eq_refl).
  destruct (Z.leb_spec MAXARGS (k + 1)); [apply ends_panic; set_solver|].
  destruct (chain_add k c q eq) as [Hk' Hc']; [done|done|done|lia|].
  eapply ends_bind; [apply parseredirs_ends; [lia|lia|done]|]. intros c2 s3 (H3 & Hc2 & Hk2).
  eapply ends_mono; [apply IH; [lia|lia|done|by apply Hk2|lia]|]. intros c3 s4 [H4 Hc3]. split; [lia|done].
Qed.

Lemma parseback_ends n c s : (s <= es)%nat -> (es - s <= n)%nat -> cmd_ok c ->
  ends (parseback text n c s) (fun c' s' => (s <= s' <= es)%nat /\ cmd_ok c').
Proof.
  revert c s. induction n as [|n IH]; intros c s Hs Hn Hc; cbn [parseback];
    (eapply ends_bind; [by apply peek_ends|]); intros b s1 (-> & H1 & Hb); (destruct b; cbn [negb]; [|by apply ends_ret]);
    (destruct Hb as [Hb _]; [done|]); [apply at_nonzero in Hb; lia|].
  eapply ends_bind; [apply gettoken_ends; lia|]. intros [[tok q] e] s2 (H2 & Hp & _ & _). rewrite skip_white_idem in Hp by done. specialize (Hp Hb).
  eapply ends_mono; [apply IH; [lia|lia|done]|]. intros c' s' [H3 Hc']. split; [lia|done].
Qed.

(** After [peek] has seen a character, [gettoken] takes it. *)
Lemma take_token {A} toks (f : M nat A) (g : M nat A) s Q : (s <= es)%nat ->
  (forall s', (s < s' <= es)%nat -> ends (f s') Q) -> (forall s', (s <= s' <= es)%nat -> ends (g s') Q) ->
  ends (bind (peek text toks) (fun b => if b then (gettoken text ;; f) else g) s) Q.
Proof.
  intros Hs Hf Hg. eapply ends_bind; [by apply peek_ends|]. intros b s1 (-> & H1 & Hb). destruct b; [|apply Hg; lia].
  destruct Hb as [Hb _]; [done|]. eapply ends_bind; [apply gettoken_ends; lia|]. intros [[tok q] e] s2 (H2 & Hp & _ & _).
  rewrite skip_white_idem in Hp by done. specialize (Hp Hb). apply Hf. lia.
Qed.

Definition reaches (s : nat) (c : cmd) (s' : nat) : Prop := (s <= s' <= es)%nat /\ cmd_ok c.
Lemma reaches_le s s' c s2 : (s <= s')%nat -> reaches s' c s2 -> reaches s c s2.
Proof. intros H [H1 H2]. split; [lia|done]. Qed.

(** A call of depth [k] inside a nest needs [4 * (es - s) + k] calls at most. *)
Lemma grammar_ends fuel s : (s <= es)%nat ->
  ((4 * (es - s) + 4 <= fuel)%nat -> ends (parseline text fuel s) (reaches s)) /\
  ((4 * (es - s) + 3 <= fuel)%nat -> ends (parsepipe text fuel s) (reaches s)) /\
  ((4 * (es - s) + 2 <= fuel)%nat -> ends (parseexec text fuel s) (reaches s)) /\
  ((4 * (es - s) + 1 <= fuel)%nat -> ends (parseblock text fuel s) (reaches s)).
Proof.
  revert s. induction fuel as [|k IH]; intros s Hs; [lia|]. split_and!; intros Hf; cbn [parseline parsepipe parseexec parseblock].
  - eapply ends_bind; [apply IH; [done|lia]|]. intros c s1 [H1 Hc].
    eapply ends_bind; [apply parseback_ends; [lia|lia|done]|]. intros c2 s2 [H2 Hc2].
    apply take_token; [lia| |by intros; apply ends_ret; split; [lia|]].
    intros s3 H3. eapply ends_bind; [apply IH; lia|]. intros c4 s4 [H4 Hc4]. apply ends_ret. split; [lia|done].
  - eapply ends_bind; [apply IH; [done|lia]|]. intros c s1 [H1 Hc].
    apply take_token; [lia| |by intros; apply ends_ret; split; [lia|]].
    intros s3 H3. eapply ends_bind; [apply IH; lia|]. intros c4 s4 [H4 Hc4]. apply ends_ret. split; [lia|done].
  - eapply ends_bind; [by apply peek_ends|]. intros b s1 (-> & H1 & _). destruct b.
    { eapply ends_mono; [apply IH; lia|]. intros c s2. apply reaches_le. lia. }
    eapply ends_bind; [apply parseredirs_ends; [lia|lia|done]|]. intros c s2 (H2 & Hc & Hk).
    eapply ends_mono; [apply parseargs_ends; [lia|lia|done|by apply Hk|done]|]. intros c' s3. apply reaches_le. lia.
  - eapply ends_bind; [by apply peek_ends|]. intros b s1 (-> & H1 & Hb). destruct b; cbn [negb]; [|apply ends_panic; set_solver].
    destruct Hb as [Hb _]; [done|]. eapply ends_bind; [apply gettoken_ends; lia|]. intros [[tok q] e] s2 (H2 & Hp & _ & _).
    rewrite skip_white_idem in Hp by done. specialize (Hp Hb).
    eapply ends_bind; [apply IH; lia|]. intros c s3 [H3 Hc].
    eapply ends_bind; [apply peek_ends; lia|]. intros b s4 (-> & H4 & _). destruct b; cbn [negb]; [|apply ends_panic; set_solver].
    eapply ends_bind; [apply gettoken_ends; lia|]. intros [[tok' q'] e'] s5 (H5 & _).
    eapply ends_mono; [apply parseredirs_ends; [lia|lia|done]|]. intros c' s6 (H6 & Hc' & _). split; [lia|done].
Qed.

Lemma parse_ends : ends (parse text (parse_fuel text) 0%nat) (fun c s => s = es /\ cmd_ok c).
Proof.
  unfold parse, parse_fuel. eapply ends_bind; [apply grammar_ends; lia|]. intros c s [H Hc].
  eapply ends_bind; [apply peek_ends; lia|]. intros b s1 (-> & H1 & _).
  unfold ends. mrun. destruct (Nat.eqb_spec (id (skip_white text s)) es) as [E|E]; cbn [negb]; [by apply ends_ret|apply ends_panic; set_solver].
Qed.
End total.

(** * Words in the buffer *)

(** A command with its words in place of their indices; [rd] reads a word. *)
Inductive ast :=
| AExec (argv : list (list Z))
| ARedir (c : ast) (file : list Z) (mode fd : Z)
| APipe (left right : ast)
| AList (left right : ast)
| ABack (c : ast).

Fixpoint view (rd : nat * nat -> list Z) (c : cmd) : ast :=
  match c with
  | EXEC argv => AExec (rd <$> argv)
  | REDIR c file efile mode fd => ARedir (view rd c) (rd (file, efile)) mode fd
  | PIPE l r => APipe (view rd l) (view rd r)
  | LIST l r => AList (view rd l) (view rd r)
  | BACK c => ABack (view rd c)
  end.

(** The characters of the line between the two indices, and the C string in the buffer. *)
Definition slice_of (text : list Z) (w : nat * nat) : list Z := take (w.2 - w.1) (drop w.1 text).
Definition string_at (buf : list Z) (w : nat * nat) : list Z := cstr (length buf) (drop w.1 buf).

Fixpoint words_of (c : cmd) : list (nat * nat) :=
  match c with
  | EXEC argv => argv
  | REDIR c file efile _ _ => words_of c ++ [(file, efile)]
  | PIPE l r | LIST l r => words_of l ++ words_of r
  | BACK c => words_of c
  end.

Lemma nulterminate_words c buf : nulterminate c buf = foldl cut buf (words_of c).
Proof.
  revert buf. induction c as [| |l IHl r IHr|l IHl r IHr|]; intros buf; cbn [nulterminate words_of]; rewrite ?foldl_app, ?IHl, ?IHr; try done.
  by rewrite IHc.
Qed.
Lemma words_ok text c : cmd_ok text c -> Forall (word_ok text) (words_of c).
Proof.
  induction c as [argv|c IH f e m d|l IHl r IHr|l IHl r IHr|c IH]; cbn [cmd_ok words_of]; [by intros [_ H]| | | |done].
  - intros (H & Hw & _). apply Forall_app. split; [auto|by constructor].
  - intros [Hl Hr]. apply Forall_app. auto.
  - intros [Hl Hr]. apply Forall_app. auto.
Qed.

Lemma view_ext rd rd' c : Forall (fun w => rd w = rd' w) (words_of c) -> view rd c = view rd' c.
Proof.
  induction c; cbn [words_of view]; intros H; rewrite ?Forall_app, ?Forall_singleton in H.
  - f_equal. by apply Forall_fmap_ext_1.
  - destruct H as [H ->]. by rewrite IHc.
  - destruct H. by rewrite IHc1, IHc2.
  - destruct H. by rewrite IHc1, IHc2.
  - by rewrite IHc.
Qed.

Section cut.
Context (text : list Z) (Ht : is_text text).

(** The buffer still has the characters of all words. *)
Definition intact (buf : list Z) : Prop :=
  length buf = S (length text) /\
  forall i, (i < length text)%nat -> is_word (char_at text i) = true -> buf !! i = Some (char_at text i).

Lemma intact_cut buf w : intact buf -> word_ok text w -> intact (cut buf w).
Proof.
  intros [Hl Hb] (Hw & _ & Hend). unfold cut. split; [by rewrite length_insert|]. intros i Hi Hwi.
  rewrite list_lookup_insert_ne; [by apply Hb|]. intros <-. destruct Hend; [lia|congruence].
Qed.
Lemma intact_cuts ws buf : intact buf -> Forall (word_ok text) ws ->
  intact (foldl cut buf ws) /\ (forall e, buf !! e = Some 0 -> foldl cut buf ws !! e = Some 0) /\
  Forall (fun w => foldl cut buf ws !! w.2 = Some 0) ws.
Proof.
  revert buf. induction ws as [|w ws IH]; intros buf Hb Hws; [done|]. apply Forall_cons in Hws as [Hw Hws]. cbn [foldl].
  destruct (IH (cut buf w)) as (H1 & H2 & H3); [by apply intact_cut|done|]. split; [done|].
  assert (forall e, buf !! e = Some 0 -> cut buf w !! e = Some 0) as Hz.
  { intros e He. unfold cut. destruct (decide (e = w.2)) as [->|Hne]; [|by rewrite list_lookup_insert_ne].
    apply list_lookup_insert_eq. by apply lookup_lt_Some in He. }
  split; [auto|]. constructor; [|done]. apply H2. apply list_lookup_insert_eq. destruct Hb as [-> _]. destruct Hw as [Hw _]. lia.
Qed.

(** A word ends where the NUL was written. *)
Lemma string_of_word buf w : intact buf -> word_ok text w -> buf !! w.2 = Some 0 -> string_at buf w = slice_of text w.
Proof.
  intros [Hl Hb] (Hw & Hin & _) Hz. destruct w as [q e]. cbn [fst snd] in *. unfold string_at, slice_of. cbn [fst snd].
  assert (drop q buf = take (e - q) (drop q text) ++ 0 :: drop (S e) buf) as ->.
  { rewrite <- (take_drop (e - q) (drop q buf)). rewrite drop_drop. replace (q + (e - q))%nat with e by lia.
    rewrite (drop_S buf 0 e Hz). f_equal. apply list_eq. intros i. destruct (decide (i < e - q)%nat).
    - rewrite !lookup_take_lt, !lookup_drop by done. pose proof (Hb (q + i)%nat ltac:(lia) (Hin (q + i)%nat ltac:(lia))) as E. rewrite E.
      unfold char_at. destruct (lookup_lt_is_Some_2 text (q + i)) as [x ->]; [lia|done].
    - by rewrite !lookup_take_ge by lia. }
  apply cstr_app_nul.
  - intros c Hc. unfold is_text in Ht. rewrite Forall_forall in Ht. apply Ht. apply list_elem_of_lookup in Hc as [i Hi]. apply lookup_take_Some in Hi as [Hi _]. rewrite lookup_drop in Hi. by apply list_elem_of_lookup_2 in Hi.
  - rewrite length_take, length_drop. lia.
Qed.

Lemma nulterminate_view c : cmd_ok text c ->
  length (nulterminate c (text ++ [0])) = S (length text) /\
  view (string_at (nulterminate c (text ++ [0]))) c = view (slice_of text) c.
Proof.
  intros Hc%words_ok. rewrite nulterminate_words.
  destruct (intact_cuts (words_of c) (text ++ [0])) as (H1 & _ & H3); [|done|].
  { split; [rewrite length_app; simpl; lia|]. intros i Hi _. rewrite lookup_app_l by done.
    unfold char_at. destruct (lookup_lt_is_Some_2 text i Hi) as [x ->]. done. }
  split; [apply H1|]. apply view_ext. rewrite Forall_forall in *. intros w Hw. apply string_of_word; auto.
Qed.
End cut.

(** C35. The shell parses every line.  On any line, [parsecmd] ends - it does not run out of calls -
    and either exits with a message or has read the whole line and returns a well-formed command:
    fewer than [MAXARGS] words in each [argv], every word a non-empty stretch of the line without
    blanks and symbols, every redirection with its mode and descriptor; and after [nulterminate]
    each word, read as a C string from the buffer, is its characters in the line. *)
Theorem parsecmd_total text :
  is_text text ->
  match parsecmd text with
  | ROk (c, buf) s =>
      s = length text /\ cmd_ok text c /\ length buf = S (length text) /\
      view (string_at buf) c = view (slice_of text) c
  | RPanic msg => msg ∈ messages
  | _ => False
  end.
Proof.
  intros Ht. pose proof (parse_ends text) as H. unfold ends in H. unfold parsecmd.
  destruct (run (parse text (parse_fuel text) 0%nat)) as [c s|msg| | | |]; cbn [rbind]; try done.
  destruct H as [-> Hc]. split; [done|]. split; [done|]. by apply nulterminate_view.
Qed.
