(* ===== verification/ShPrint.v ===== *)
(** The shell's grammar: printing a command and parsing it back (sh.c).

    [print] writes a command as a line, with parentheses where the grammar needs them; the theorem
    is that [parsecmd] recovers it.  [gives] lemmas say what the routines do at a known place of
    the line: the line from position [s] on is [drop s text]. *)

From Stdlib Require Import ZArith Lia.
From stdpp Require Import base tactics option gmap sets strings numbers list.
From S2P Require Import Prelude CString Format User Sysfile Sh.
Open Scope Z_scope.

(** * Printing *)

Definition word (w : list Z) : Prop := w <> [] /\ Forall (fun c => c <> 0 /\ is_word c = true) w.

(** The commands the shell can run: words without blanks and symbols, fewer than [MAXARGS] to a
    command, and the two kinds of redirection. *)
Fixpoint printable (c : ast) : Prop :=
  match c with
  | AExec argv => Z.of_nat (length argv) < MAXARGS /\ Forall word argv
  | ARedir c file mode fd =>
      printable c /\ word file /\ ((mode = O_RDONLY /\ fd = 0) \/ (mode = Z.lor O_WRONLY O_CREATE /\ fd = 1))
  | APipe l r | AList l r => printable l /\ printable r
  | ABack c => printable c
  end.

Definition args_text (argv : list (list Z)) : list Z := mjoin ((fun w => w ++ [32]) <$> argv).
Definition redir_text (file : list Z) (fd : Z) : list Z := [if fd =? 0 then 60 else 62] ++ file ++ [32].
Definition paren (b : bool) (t : list Z) : list Z := if b then [40] ++ t ++ [41] else t.

(** [level]: 0 where the grammar has a simple command or a block, 1 for a pipe line, 2 for one
    with [&], 3 for a list. *)
Fixpoint print (level : nat) (c : ast) : list Z :=
  match c with
  | AExec argv => args_text argv
  | ARedir c file mode fd => print 0 c ++ redir_text file fd
  | APipe l r => paren (level <? 1)%nat (print 0 l ++ [124] ++ print 1 r)
  | ABack c => paren (level <? 2)%nat (print 2 c ++ [38])
  | AList l r => paren (level <? 3)%nat (print 2 l ++ [59] ++ print 3 r)
  end.

(** Redirections around a command, the innermost first. *)
Definition redir : Type := list Z * Z * Z.
Definition redir_ok (r : redir) : Prop :=
  let '(file, mode, fd) := r in word file /\ ((mode = O_RDONLY /\ fd = 0) \/ (mode = Z.lor O_WRONLY O_CREATE /\ fd = 1)).
Definition wrap (c : ast) (rs : list redir) : ast := foldl (fun c '(file, mode, fd) => ARedir c file mode fd) c rs.
Definition redirs_text (rs : list redir) : list Z := mjoin ((fun '(file, _, fd) => redir_text file fd) <$> rs).
Definition backs (j : nat) (c : ast) : ast := Nat.iter j ABack c.

(** What may follow: nothing, or one of the characters. *)
Definition stops (set t : list Z) : Prop := t = [] \/ exists c t', t = c :: t' /\ c ∈ set.
Definition clean (t : list Z) : Prop := among whitespace (first_char t) = false.

Ltac first_char := change ((?c :: ?l) ++ ?l') with (c :: (l ++ l')); change (first_char (?c :: ?l)) with c in *.

Lemma symbol_not_white c : c ∈ symbols -> among whitespace c = false /\ c <> 0 /\ is_word c = false.
Proof.
  intros H. change symbols with [60; 124; 62; 38; 59; 40; 41] in H. rewrite !elem_of_cons, elem_of_nil in H.
  destruct H as [-> |[-> |[-> |[-> |[-> |[-> |[-> |[]]]]]]]]; by vm_compute.
Qed.
Lemma stops_clean set t : set ⊆ symbols -> stops set t -> clean t.
Proof. intros Hs [->|(c & t' & -> & Hc)]; [done|]. apply symbol_not_white. by apply Hs. Qed.
Lemma word_clean w t : word w -> clean (w ++ t).
Proof.
  intros [Hne Hw]. destruct w as [|c w]; [done|]. apply Forall_cons in Hw as [[_ Hc] _]. unfold clean. first_char.
  unfold is_word in Hc. by destruct (among whitespace c).
Qed.
Lemma clean_symbol c t : c ∈ symbols -> clean (c :: t).
Proof. intros H. unfold clean. first_char. by apply symbol_not_white. Qed.

Section places.
Context (text : list Z).
Abbreviation es := (length text).

(** The rest of the line at [s] is [t]. *)
Definition here (s : nat) (t : list Z) : Prop := (s <= es)%nat /\ drop s text = t.

Lemma here_len s t : here s t -> (es - s)%nat = length t.
Proof. intros [Hs <-]. by rewrite length_drop. Qed.
Lemma here_at s t : here s t -> char_at text s = first_char t.
Proof. intros [Hs <-]. unfold char_at, first_char. rewrite <- (Nat.add_0_r s) at 1. rewrite <- lookup_drop. by destruct (drop s text). Qed.
Lemma here_app s a t : here s (a ++ t) -> here (s + length a) t.
Proof.
  intros H. pose proof (here_len _ _ H) as Hl. destruct H as [Hs E]. rewrite length_app in Hl. split; [lia|].
  rewrite <- drop_drop, E. by rewrite drop_app_length.
Qed.
Lemma here_cons s c t : here s (c :: t) -> here (S s) t.
Proof. intros H. replace (S s) with (s + length [c])%nat by (simpl; lia). by apply (here_app s [c]). Qed.

Lemma span_here f a s t : here s (a ++ t) -> Forall (fun c => f c = true) a -> (t = [] \/ f (first_char t) = false) ->
  span text f (es - s) s = (s + length a)%nat.
Proof.
  revert s. induction a as [|c a IH]; intros s H Ha Hstop; rewrite (here_len _ _ H).
  - rewrite Nat.add_0_r. destruct t as [|c t]; [done|]. cbn [app length span]. rewrite (here_at _ _ H).
    destruct Hstop as [|E]; [done|]. cbn [app] in *. first_char. by rewrite E.
  - apply Forall_cons in Ha as [Hc Ha]. change ((c :: a) ++ t) with (c :: (a ++ t)) in *. change (length (c :: (a ++ t))) with (S (length (a ++ t))).
    cbn [span]. rewrite (here_at _ _ H). first_char. rewrite Hc.
    pose proof (here_cons _ _ _ H) as H'. rewrite <- (here_len _ _ H'), (IH (S s)) by done. simpl. lia.
Qed.

Lemma skip_clean s t : here s t -> clean t -> skip_white text s = s.
Proof. intros H Hc. unfold skip_white. rewrite (span_here _ [] s t H) by (done || by right). simpl. lia. Qed.
Lemma skip_blank s t : here s (32 :: t) -> clean t -> skip_white text s = S s.
Proof.
  intros H Hc. unfold skip_white. rewrite (span_here _ [32] s t H); [simpl; lia| |by right].
  by repeat constructor.
Qed.

Lemma peek_gives toks s t : here s t -> clean t ->
  run (peek text toks s) = ROk (negb (first_char t =? 0) && among toks (first_char t)) s.
Proof. intros H Hc. unfold peek. cbn [run]. by rewrite (skip_clean s t H Hc), (here_at s t H). Qed.
Lemma peek_yes toks s c t : here s (c :: t) -> c ∈ symbols -> among toks c = true -> run (peek text toks s) = ROk true s.
Proof.
  intros H Hc Ht. rewrite (peek_gives toks s (c :: t) H) by (by apply clean_symbol). first_char. rewrite Ht.
  apply symbol_not_white in Hc as (_ & Hc & _). by destruct (Z.eqb_spec c 0).
Qed.
Lemma peek_no toks s t : here s t -> clean t -> among toks (first_char t) = false -> run (peek text toks s) = ROk false s.
Proof. intros H Hc Ht. by rewrite (peek_gives toks s t H Hc), Ht, andb_false_r. Qed.
(** What follows is not one of [toks]. *)
Lemma peek_stop toks set s t : here s t -> stops set t -> set ⊆ symbols -> Forall (fun c => among toks c = false) set ->
  run (peek text toks s) = ROk false s.
Proof.
  intros H Hs Hsub Hset. rewrite (peek_gives toks s t H) by (by eapply stops_clean).
  destruct Hs as [->|(c & t' & -> & Hc)]; [done|]. first_char. rewrite Forall_forall in Hset. by rewrite Hset, andb_false_r.
Qed.

Lemma token_symbol s c t : here s (c :: t) -> among (str "|();&<") c = true -> clean t ->
  run (gettoken text s) = ROk (c, s, S s) (S s).
Proof.
  intros H Hc Ht. assert (c ∈ symbols) as Hsym.
  { rewrite among_spec, bool_decide_eq_true in Hc by (repeat constructor; done).
    change symbols with [60; 124; 62; 38; 59; 40; 41]. change (str "|();&<") with [124; 40; 41; 59; 38; 60] in Hc. set_solver. }
  unfold gettoken. rewrite (skip_clean s _ H) by (by apply clean_symbol). rewrite (here_at s _ H). first_char.
  rewrite Hc. apply symbol_not_white in Hsym as (_ & H0 & _). destruct (Z.eqb_spec c 0); [done|]. cbn [run].
  by rewrite (skip_clean (S s) t (here_cons _ _ _ H) Ht).
Qed.
Lemma token_greater s t : here s (62 :: t) -> first_char t <> 62 -> clean t -> run (gettoken text s) = ROk (62, s, S s) (S s).
Proof.
  intros H Hne Ht. unfold gettoken. rewrite (skip_clean s _ H) by done. rewrite (here_at s _ H), (here_at (S s) t (here_cons _ _ _ H)).
  first_char. change (62 =? 0) with false. change (among (str "|();&<") 62) with false. change (62 =? 62) with true. cbn match.
  destruct (Z.eqb_spec (first_char t) 62); [done|]. cbn [run]. by rewrite (skip_clean (S s) t (here_cons _ _ _ H) Ht).
Qed.
Lemma token_word s w t : here s (w ++ 32 :: t) -> word w -> clean t ->
  run (gettoken text s) = ROk (97, s, (s + length w)%nat) (S (s + length w)).
Proof.
  intros H Hw Ht. unfold gettoken. rewrite (skip_clean s _ H) by (by apply word_clean).
  pose proof (here_app s w _ H) as He. destruct Hw as [Hne Hw]. rewrite (here_at s _ H).
  assert (word_end text s = (s + length w)%nat) as ->.
  { apply (span_here _ w s (32 :: t) H); [|by right]. eapply Forall_impl; [exact Hw|]. by intros c [_ Hc]. }
  destruct w as [|c w]; [done|]. apply Forall_cons in Hw as [[H0 Hc] _]. first_char.
  destruct (Z.eqb_spec c 0); [done|]. unfold is_word in Hc. apply andb_true_iff in Hc as [_ Hc].
  assert (c ∉ symbols) as Hns by (rewrite among_spec in Hc by (repeat constructor; done); by destruct (decide (c ∈ symbols)); [rewrite bool_decide_eq_true_2 in Hc|]).
  rewrite among_spec by (repeat constructor; done).
  change symbols with [60; 124; 62; 38; 59; 40; 41] in Hns. change (str "|();&<") with [124; 40; 41; 59; 38; 60].
  rewrite bool_decide_eq_false_2 by set_solver. destruct (Z.eqb_spec c 62); [exfalso; set_solver|]. cbn [run]. by rewrite (skip_blank _ t He Ht).
Qed.
Lemma token_end s : here s [] -> run (gettoken text s) = ROk (0, s, s) s.
Proof. intros H. unfold gettoken. rewrite (skip_clean s _ H) by done. rewrite (here_at s _ H). change (first_char []) with 0; cbn [Z.eqb run]. by rewrite (skip_clean s _ H). Qed.

Lemma slice_here s w t : here s (w ++ t) -> slice_of text (s, (s + length w)%nat) = w.
Proof. intros [_ E]. unfold slice_of. cbn [fst snd]. rewrite E. replace (s + length w - s)%nat with (length w) by lia. apply take_app_length. Qed.
End places.

(** * Simple commands *)

(** What comes next is not one of [toks]. *)
Definition unlike (toks t : list Z) : Prop := clean t /\ among toks (first_char t) = false.
Definition ends0 : list Z := str "|)&;".
Definition ends1 : list Z := str ")&;".
Definition ends2 : list Z := str ");".
Definition ends3 : list Z := str ")".

Lemma ends_symbols : ends0 ⊆ symbols /\ ends1 ⊆ ends0 /\ ends2 ⊆ ends1 /\ ends3 ⊆ ends2.
Proof.
  change symbols with [60; 124; 62; 38; 59; 40; 41]. change ends0 with [124; 41; 38; 59]. change ends1 with [41; 38; 59].
  change ends2 with [41; 59]. change ends3 with [41]. set_solver.
Qed.
Lemma stops_mono set set' t : set ⊆ set' -> stops set t -> stops set' t.
Proof. intros Hs [->|(c & t' & -> & Hc)]; [by left|right]. exists c, t'. split; [done|]. by apply Hs. Qed.

Lemma unlike_stops toks set t : set ⊆ symbols -> Forall (fun c => among toks c = false) set -> stops set t -> unlike toks t.
Proof.
  intros Hs Hf Ht. split; [by eapply stops_clean|]. destruct Ht as [->|(c & t' & -> & Hc)].
  - unfold among. destruct (strchr toks (first_char [])) as [l|] eqn:E; [|done]. apply strchr_Some in E as (? & ? & _ & _ & H0 & _). done.
  - first_char. rewrite Forall_forall in Hf. by apply Hf.
Qed.
Lemma unlike_symbol toks c t : c ∈ symbols -> among toks c = false -> unlike toks (c :: t).
Proof. intros Hc Ht. split; [by apply clean_symbol|done]. Qed.
Lemma unlike_word toks w t : is_text toks -> toks ⊆ symbols -> word w -> unlike toks (w ++ t).
Proof.
  intros Htx Hs Hw. split; [by apply word_clean|]. destruct Hw as [Hne Hw]. destruct w as [|c w]; [done|]. first_char.
  apply Forall_cons in Hw as [[_ Hc] _]. rewrite among_spec, bool_decide_eq_false by done. intros Hin%Hs.
  apply symbol_not_white in Hin as (_ & _ & Hin). congruence.
Qed.
Lemma op_symbol (d : Z) : (if d =? 0 then 60 else 62) ∈ symbols.
Proof. change symbols with [60; 124; 62; 38; 59; 40; 41]. destruct (d =? 0); set_solver. Qed.
Lemma unlike_redirs toks rs t : among toks 60 = false -> among toks 62 = false -> unlike toks t -> unlike toks (redirs_text rs ++ t).
Proof.
  intros H1 H2 Ht. destruct rs as [|[[f m] d] rs]; [done|]. unfold redirs_text. cbn [fmap list_fmap mjoin list_join]. unfold redir_text.
  rewrite <- !app_assoc. change ([if d =? 0 then 60 else 62] ++ ?t) with ((if d =? 0 then 60 else 62) :: t).
  apply unlike_symbol; [apply op_symbol|by destruct (d =? 0)].
Qed.
Lemma args_text_cons w argv t : args_text (w :: argv) ++ t = w ++ 32 :: (args_text argv ++ t).
Proof. unfold args_text. cbn [fmap list_fmap mjoin list_join]. by rewrite <- !app_assoc. Qed.
Lemma redirs_text_cons f m d rs t : redirs_text ((f, m, d) :: rs) ++ t = (if d =? 0 then 60 else 62) :: (f ++ 32 :: (redirs_text rs ++ t)).
Proof. unfold redirs_text. cbn [fmap list_fmap mjoin list_join]. unfold redir_text. by rewrite <- !app_assoc. Qed.
Lemma unlike_args toks argv t : is_text toks -> toks ⊆ symbols -> Forall word argv -> unlike toks t -> unlike toks (args_text argv ++ t).
Proof.
  intros H1 H2 Hw Ht. destruct argv as [|w argv]; [done|]. rewrite args_text_cons. apply Forall_cons in Hw as [Hw _]. by apply unlike_word.
Qed.

Section grammar.
Context (text : list Z).
Abbreviation es := (length text).
Abbreviation here := (here text).
Abbreviation see := (view (slice_of text)).

Lemma peek_unlike toks s t : here s t -> unlike toks t -> run (peek text toks s) = ROk false s.
Proof. intros H [Hc Ht]. by apply (peek_no text toks s t). Qed.

Lemma redirs_give n c s rs rest :
  here s (redirs_text rs ++ rest) -> Forall redir_ok rs -> unlike (str "<>") rest -> (length rs <= n)%nat ->
  exists c' s', run (parseredirs text n c s) = ROk c' s' /\ here s' rest /\ see c' = wrap (see c) rs /\
    (rs = [] -> c' = c /\ s' = s).
Proof.
  revert n c s. induction rs as [|[[f m] d] rs IH]; intros n c s H Hrs Hrest Hn.
  { exists c, s. split; [|done]. destruct n; cbn [parseredirs]; rewrite run_bind, (peek_unlike _ _ _ H Hrest); done. }
  destruct n as [|n]; [simpl in Hn; lia|]. cbn [parseredirs]. apply Forall_cons in Hrs as [[Hf Hmode] Hrs].
  rewrite redirs_text_cons in H. assert (clean (redirs_text rs ++ rest)) as Hcl.
  { destruct rs as [|[[f' m'] d'] rs]; [apply Hrest|]. rewrite redirs_text_cons. apply clean_symbol, op_symbol. }
  pose proof (here_cons _ _ _ _ H) as H1. pose proof (slice_here _ _ _ _ H1) as Hsl.
  pose proof (here_app _ _ _ _ H1) as H2. apply here_cons in H2. set (op := if d =? 0 then 60 else 62) in *.
  assert (op = 60 /\ d = 0 /\ m = O_RDONLY \/ op = 62 /\ d = 1 /\ m = Z.lor O_WRONLY O_CREATE) as Hop.
  { unfold op. destruct Hmode as [[-> ->]|[-> ->]]; [by left|by right]. }
  rewrite run_bind, (peek_yes text _ s op _ H) by (apply op_symbol || (destruct Hop as [(-> & _)|(-> & _)]; by vm_compute)). cbn [rbind negb].
  assert (run (gettoken text s) = ROk (op, s, S s) (S s)) as Htok.
  { destruct Hop as [(-> & _)|(-> & _)]; [apply (token_symbol text s 60 _ H); [by vm_compute|by apply word_clean]|].
    apply (token_greater text s _ H); [|by apply word_clean]. destruct Hf as [Hne Hf]. destruct f as [|x f]; [done|].
    apply Forall_cons in Hf as [[_ Hx] _]. first_char. intros ->. by vm_compute in Hx. }
  rewrite run_bind, Htok. cbn [rbind]. rewrite run_bind, (token_word text (S s) f _ H1 Hf Hcl). cbn [rbind].
  change (97 =? 97) with true. cbn [negb].
  assert ((if op =? 60 then REDIR c (S s) (S s + length f) O_RDONLY 0
    else if op =? 62 then REDIR c (S s) (S s + length f) (Z.lor O_WRONLY O_CREATE) 1
    else if op =? 43 then REDIR c (S s) (S s + length f) (Z.lor O_WRONLY O_CREATE) 1 else c) = REDIR c (S s) (S s + length f) m d) as ->.
  { by destruct Hop as [(-> & -> & ->)|(-> & -> & ->)]. }
  destruct (IH n (REDIR c (S s) (S s + length f) m d) _ H2) as (c' & s' & Hr & H3 & Hv & _); [done|done|simpl in Hn; lia|].
  exists c', s'. split; [exact Hr|]. split; [done|]. split; [|done]. rewrite Hv. cbn [view wrap foldl]. by rewrite Hsl.
Qed.

(** No argument follows. *)
Lemma args_stop n k c s rest : here s rest -> stops ends0 rest -> run (parseargs text n k c s) = ROk c s.
Proof.
  intros H Hst. assert (run (peek text (str "|)&;") s) = ROk (negb (bool_decide (rest = []))) s) as Hp.
  { destruct Hst as [->|(x & t & -> & Hx)].
    - by rewrite (peek_gives text _ s [] H).
    - apply (peek_yes text _ s x t H); [by apply ends_symbols|]. rewrite among_spec by (repeat constructor; done). by rewrite bool_decide_eq_true. }
  destruct n; cbn [parseargs]; rewrite run_bind, Hp; cbn [rbind]; (destruct (decide (rest = [])) as [->|Hne];
    [rewrite bool_decide_eq_true_2 by done; cbn [negb]; rewrite run_bind, (token_end text s H); done
    |rewrite bool_decide_eq_false_2 by done; done]).
Qed.

Lemma args_give n argv pre s rs rest :
  here s (args_text argv ++ redirs_text rs ++ rest) -> Forall word argv -> Forall redir_ok rs -> stops ends0 rest ->
  Z.of_nat (length pre + length argv) < MAXARGS -> (length argv <= n)%nat -> (length rs <= es)%nat -> (argv = [] -> rs = []) ->
  exists c' s', run (parseargs text n (Z.of_nat (length pre)) (EXEC pre) s) = ROk c' s' /\ here s' rest /\
    see c' = wrap (AExec ((slice_of text <$> pre) ++ argv)) rs.
Proof.
  assert (forall t, stops ends0 t -> unlike (str "<>") t) as Hnr.
  { intros t. apply unlike_stops; [apply ends_symbols|]. by repeat constructor. }
  revert n pre s. induction argv as [|w argv IH]; intros n pre s H Hw Hrs Hst Hlt Hn Hes Hno.
  { rewrite (Hno eq_refl) in *. exists (EXEC pre), s. split; [by eapply args_stop|]. split; [done|]. cbn. by rewrite app_nil_r. }
  destruct n as [|n]; [simpl in Hn; lia|]. cbn [parseargs]. apply Forall_cons in Hw as [Hw Hws]. rewrite args_text_cons in H.
  rewrite run_bind, (peek_unlike _ _ _ H) by (apply unlike_word; [by repeat constructor|apply ends_symbols|done]). cbn [rbind].
  assert (clean (args_text argv ++ redirs_text rs ++ rest)) as Hcl.
  { destruct argv as [|w' argv]; [|rewrite args_text_cons; apply word_clean; by inversion Hws].
    destruct rs as [|[[f m] d] rs]; [eapply stops_clean; [apply ends_symbols|exact Hst]|]. change (args_text [] ++ ?t) with t.
    rewrite redirs_text_cons. apply clean_symbol, op_symbol. }
  pose proof (slice_here _ _ _ _ H) as Hsl. pose proof (here_app _ _ _ _ H) as H1. apply here_cons in H1.
  rewrite run_bind, (token_word text s w _ H Hw Hcl). cbn [rbind]. change (97 =? 0) with false. change (97 =? 97) with true. cbn [negb add_arg].
  cbn [length] in Hlt, Hn. destruct (Z.leb_spec MAXARGS (Z.of_nat (length pre) + 1)); [lia|].
  set (pre' := pre ++ [(s, (s + length w)%nat)]) in *. assert (Z.of_nat (length pre) + 1 = Z.of_nat (length pre')) as ->.
  { unfold pre'. rewrite length_app. simpl. lia. }
  assert (length pre' = S (length pre)) as Hl' by (unfold pre'; rewrite length_app; simpl; lia).
  assert ((slice_of text <$> pre') ++ argv = (slice_of text <$> pre) ++ w :: argv) as Ev.
  { unfold pre'. rewrite fmap_app, <- app_assoc. cbn [fmap list_fmap app]. by rewrite Hsl. }
  destruct (decide (argv = [])) as [->|Hne].
  - destruct (redirs_give es (EXEC pre') _ rs rest H1) as (c' & s' & Hr & H2 & Hv & _); [done|by apply Hnr|done|].
    rewrite run_bind, Hr. cbn [rbind]. rewrite (args_stop _ _ _ _ rest H2 Hst). exists c', s'. split; [done|]. split; [done|].
    rewrite Hv. cbn [view]. rewrite <- Ev. by rewrite app_nil_r.
  - assert (unlike (str "<>") (args_text argv ++ redirs_text rs ++ rest)) as Hun.
    { destruct argv as [|w' argv]; [done|]. rewrite args_text_cons. apply Forall_cons in Hws as [Hw' _].
      apply unlike_word; [by repeat constructor| |done]. change symbols with [60; 124; 62; 38; 59; 40; 41]. change (str "<>") with [60; 62]. set_solver. }
    destruct (redirs_give es (EXEC pre') _ [] _ H1) as (c' & s' & Hr & _ & _ & E); [done|done|simpl; lia|].
    destruct (E eq_refl) as [-> ->]. rewrite run_bind, Hr. cbn [rbind].
    destruct (IH n pre' _ H1) as (c2 & s2 & Hr2 & H2 & Hv); [done|done|done|lia|lia|done|done|].
    exists c2, s2. split; [exact Hr2|]. split; [done|]. by rewrite Hv, Ev.
Qed.
End grammar.

Lemma ends_in (c : Z) (set : list Z) : bool_decide (c ∈ set) = true -> c ∈ set.
Proof. apply bool_decide_eq_true_1. Qed.
Lemma sub_symbols (set : list Z) : forallb (fun c => bool_decide (c ∈ symbols)) set = true -> set ⊆ symbols.
Proof. intros H c Hc. rewrite forallb_forall in H. apply list_elem_of_In, H, bool_decide_eq_true_1 in Hc. done. Qed.

Lemma print_clean level c t : printable c -> clean t -> clean (print level c ++ t).
Proof.
  revert level t. induction c as [argv|c IH f m d|l IHl r IHr|l IHl r IHr|c IH]; intros level t; cbn [printable print].
  - intros [_ Hw] Ht. destruct argv as [|w argv]; [done|]. rewrite args_text_cons. apply word_clean. by inversion Hw.
  - intros [Hc _] _. rewrite <- app_assoc. apply IH; [done|]. unfold redir_text. rewrite <- app_assoc. apply clean_symbol, op_symbol.
  - intros [Hl Hr] Ht. destruct (level <? 1)%nat; cbn [paren]; rewrite <- !app_assoc; [by apply clean_symbol, ends_in|].
    apply IHl; [done|]. by apply clean_symbol, ends_in.
  - intros [Hl Hr] Ht. destruct (level <? 3)%nat; cbn [paren]; rewrite <- !app_assoc; [by apply clean_symbol, ends_in|].
    apply IHl; [done|]. by apply clean_symbol, ends_in.
  - intros Hc Ht. destruct (level <? 2)%nat; cbn [paren]; rewrite <- !app_assoc; [by apply clean_symbol, ends_in|].
    apply IH; [done|]. by apply clean_symbol, ends_in.
Qed.
Lemma length_args argv t : (length argv <= length (args_text argv ++ t))%nat.
Proof. induction argv as [|w argv IH]; [simpl; lia|]. rewrite args_text_cons, length_app. simpl. lia. Qed.
Lemma length_redirs rs t : (length rs <= length (redirs_text rs ++ t))%nat.
Proof. induction rs as [|[[f m] d] rs IH]; [simpl; lia|]. rewrite redirs_text_cons. simpl. rewrite length_app. simpl. lia. Qed.

(** * The levels of the grammar *)

Section levels.
Context (text : list Z).
Abbreviation es := (length text).
Abbreviation here := (here text).
Abbreviation see := (view (slice_of text)).

(** [m] at [s] reads [t] and stops before [rest]. *)
Definition gives (m : M nat cmd) (s : nat) (t : ast) (rest : list Z) : Prop :=
  exists c s', run (m s) = ROk c s' /\ here s' rest /\ see c = t.

Definition by_exec (c : ast) : Prop := forall fuel s rs rest,
  here s (print 0 c ++ redirs_text rs ++ rest) -> Forall redir_ok rs -> stops ends0 rest -> (4 * (es - s) + 2 <= fuel)%nat ->
  gives (parseexec text fuel) s (wrap c rs) rest.
Definition by_pipe (c : ast) : Prop := forall fuel s rest,
  here s (print 1 c ++ rest) -> stops ends1 rest -> (4 * (es - s) + 3 <= fuel)%nat ->
  gives (parsepipe text fuel) s c rest.
Definition by_back (c : ast) : Prop := forall fuel s j rest,
  here s (print 2 c ++ replicate j 38 ++ rest) -> stops ends2 rest -> (4 * (es - s) + 3 <= fuel)%nat ->
  gives (bind (parsepipe text fuel) (parseback text es)) s (backs j c) rest.
Definition by_line (c : ast) : Prop := forall fuel s rest,
  here s (print 3 c ++ rest) -> stops ends3 rest -> (4 * (es - s) + 4 <= fuel)%nat ->
  gives (parseline text fuel) s c rest.

(** One character that the grammar takes. *)
Lemma symbol_gives toks s c t : here s (c :: t) -> among toks c = true -> among (str "|();&<") c = true -> c ∈ symbols -> clean t ->
  run (peek text toks s) = ROk true s /\ run (gettoken text s) = ROk (c, s, S s) (S s) /\ here (S s) t.
Proof.
  intros H Ht Hs Hc Hcl. split; [by apply (peek_yes text toks s c t)|]. split; [by apply (token_symbol text s c t)|]. by eapply here_cons.
Qed.
Lemma symbol_here c : c ∈ ends0 \/ c = 40 -> among (str "|();&<") c = true /\ c ∈ symbols.
Proof.
  change ends0 with [124; 41; 38; 59]. rewrite !elem_of_cons, elem_of_nil. intros [[-> |[-> |[-> |[-> |[]]]]]| ->]; (split; [by vm_compute|by apply ends_in]).
Qed.

Lemma exec_words argv : printable (AExec argv) -> by_exec (AExec argv).
Proof.
  intros [Hlt Hw] fuel s rs rest H Hrs Hst Hf. destruct fuel as [|k]; [lia|]. cbn [print] in H.
  assert (forall toks t, is_text toks -> toks ⊆ symbols -> Forall (fun c => among toks c = false) ends0 -> stops ends0 t -> unlike toks t) as Hu.
  { intros toks t _ _. apply unlike_stops. apply ends_symbols. }
  pose proof (here_len _ _ _ H) as Hl. pose proof (length_args argv (redirs_text rs ++ rest)).
  assert (length rs <= es)%nat as Hrl.
  { rewrite length_app in Hl. pose proof (length_redirs rs rest). destruct H as [Hs _]. lia. }
  unfold gives. cbn [parseexec]. rewrite run_bind, (peek_unlike _ _ _ _ H); cbn [rbind].
  2: { apply unlike_args; [by repeat constructor|by apply sub_symbols|done|]. apply unlike_redirs; [done|done|].
    eapply unlike_stops; [apply ends_symbols| |exact Hst]. by repeat constructor. }
  assert (unlike (str "<>") rest) as Hnr by (eapply unlike_stops; [apply ends_symbols| |exact Hst]; by repeat constructor).
  destruct (decide (argv = [])) as [->|Hne].
  - destruct (redirs_give text es (EXEC []) s rs rest H) as (c & s' & Hr & H' & Hv & _); [done|done|done|].
    rewrite run_bind, Hr. cbn [rbind]. rewrite (args_stop _ _ _ _ _ _ H' Hst). by exists c, s'.
  - destruct (redirs_give text es (EXEC []) s [] _ H) as (c & s' & Hr & _ & _ & E); [done| |simpl; lia|].
    { destruct argv as [|w argv]; [done|]. rewrite args_text_cons. apply Forall_cons in Hw as [Hw _].
      apply unlike_word; [by repeat constructor|by apply sub_symbols|done]. }
    destruct (E eq_refl) as [-> ->]. rewrite run_bind, Hr. cbn [rbind].
    destruct (args_give text es argv [] s rs rest H) as (c & s' & Hr2 & H2 & Hv); [done|done|done|simpl; lia|lia|done|done|].
    by exists c, s'.
Qed.

Lemma exec_redir c f m d : by_exec c -> redir_ok (f, m, d) -> by_exec (ARedir c f m d).
Proof.
  intros IH Hr fuel s rs rest H Hrs Hst Hf. cbn [print] in H. change (wrap (ARedir c f m d) rs) with (wrap c ((f, m, d) :: rs)).
  apply IH; [|by constructor|done|done]. rewrite redirs_text_cons. unfold redir_text in H. by rewrite <- !app_assoc in H.
Qed.

Lemma exec_block c : print 0 c = [40] ++ print 3 c ++ [41] -> printable c -> by_line c -> by_exec c.
Proof.
  intros E Hp IH fuel s rs rest H Hrs Hst Hf. rewrite E, <- !app_assoc in H. destruct fuel as [|[|k]]; [lia|lia|].
  assert (unlike (str "<>") rest) as Hnr by (eapply unlike_stops; [apply ends_symbols| |exact Hst]; by repeat constructor).
  assert (clean (redirs_text rs ++ rest)) as Hcl by (apply (unlike_redirs []); [done|done|]; split; [apply Hnr|done]).
  destruct (symbol_here 40) as [H40 S40]; [by right|]. destruct (symbol_here 41) as [H41 S41]; [left; by apply ends_in|].
  destruct (symbol_gives (str "(") s 40 _ H) as (P1 & G1 & H1); [done|done|done|by apply print_clean, clean_symbol|].
  unfold gives. cbn [parseexec]. rewrite run_bind, P1. cbn [rbind parseblock]. rewrite run_bind, P1. cbn [rbind negb]. rewrite run_bind, G1. cbn [rbind].
  pose proof (here_len _ _ _ H) as L0. pose proof (here_len _ _ _ H1) as L1. cbn [length app] in L0.
  destruct (IH k (S s) ([41] ++ redirs_text rs ++ rest) H1) as (t & s2 & Hr & H2 & Hv); [|lia|].
  { right. exists 41, (redirs_text rs ++ rest). split; [done|]. by apply ends_in. }
  rewrite run_bind, Hr. cbn [rbind]. destruct (symbol_gives (str ")") s2 41 _ H2) as (P2 & G2 & H3); [done|done|done|done|].
  rewrite run_bind, P2. cbn [rbind negb]. rewrite run_bind, G2. cbn [rbind].
  destruct (redirs_give text es t (S s2) rs rest H3) as (c' & s' & Hr' & H' & Hv' & _); [done|done| |].
  { pose proof (here_len _ _ _ H3). pose proof (length_redirs rs rest). lia. }
  exists c', s'. split; [done|]. split; [done|]. by rewrite Hv', Hv.
Qed.

Lemma pipe_exec c : print 1 c = print 0 c -> by_exec c -> by_pipe c.
Proof.
  intros E IH fuel s rest H Hst Hf. rewrite E in H. destruct fuel as [|k]; [lia|].
  destruct (IH k s [] rest H) as (t & s' & Hr & H' & Hv); [done|eapply stops_mono; [apply ends_symbols|done]|lia|].
  exists t, s'. split; [|done]. cbn [parsepipe]. rewrite run_bind, Hr. cbn [rbind]. rewrite run_bind, (peek_unlike _ _ _ _ H'); [done|].
  apply (unlike_stops _ ends1); [by apply sub_symbols|by repeat constructor|exact Hst].
Qed.
Lemma pipe_pipe l r : by_exec l -> by_pipe r -> printable r -> by_pipe (APipe l r).
Proof.
  intros IHl IHr Hp fuel s rest H Hst Hf. cbn [print Nat.ltb Nat.leb paren] in H. rewrite <- !app_assoc in H. destruct fuel as [|k]; [lia|].
  destruct (IHl k s [] ([124] ++ print 1 r ++ rest) H) as (t & s1 & Hr & H1 & Hv); [done| |lia|].
  { right. exists 124, (print 1 r ++ rest). split; [done|]. by apply ends_in. }
  destruct (symbol_here 124) as [H124 S124]; [left; by apply ends_in|].
  assert (clean (print 1 r ++ rest)) as Hcl by (apply print_clean; [done|]; eapply stops_clean; [|exact Hst]; by apply sub_symbols).
  destruct (symbol_gives (str "|") s1 124 _ H1) as (P1 & G1 & H2); [done|done|done|done|].
  pose proof (here_len _ _ _ H) as L0. pose proof (here_len _ _ _ H2) as L2. rewrite length_app in L0. cbn [length app] in L0.
  destruct (IHr k (S s1) rest H2) as (t2 & s2 & Hr2 & H3 & Hv2); [done|lia|].
  exists (PIPE t t2), s2. split; [|split; [done|by cbn [view]; rewrite Hv, Hv2]].
  cbn [parsepipe]. rewrite run_bind, Hr. cbn [rbind]. rewrite run_bind, P1. cbn [rbind]. rewrite run_bind, G1. cbn [rbind]. by rewrite run_bind, Hr2.
Qed.

Lemma back_give n c s j rest : here s (replicate j 38 ++ rest) -> stops ends2 rest -> (j <= n)%nat ->
  exists c' s', run (parseback text n c s) = ROk c' s' /\ here s' rest /\ see c' = backs j (see c).
Proof.
  revert n c s. induction j as [|j IH]; intros n c s H Hst Hn.
  { exists c, s. split; [|done]. assert (run (peek text (str "&") s) = ROk false s) as Hp.
    { apply (peek_unlike _ _ _ _ H). apply (unlike_stops _ ends2); [by apply sub_symbols|by repeat constructor|exact Hst]. }
    destruct n; cbn [parseback]; by rewrite run_bind, Hp. }
  destruct n as [|n]; [lia|]. cbn [replicate app] in H. assert (clean (replicate j 38 ++ rest)) as Hcl.
  { destruct j; [|by apply clean_symbol, ends_in]. eapply stops_clean; [|exact Hst]. by apply sub_symbols. }
  destruct (symbol_here 38) as [H38 S38]; [left; by apply ends_in|].
  destruct (symbol_gives (str "&") s 38 _ H) as (P1 & G1 & H1); [done|done|done|done|].
  destruct (IH n (BACK c) (S s) H1) as (c' & s' & Hr & H' & Hv); [done|lia|]. exists c', s'.
  cbn [parseback]. rewrite run_bind, P1. cbn [rbind negb]. rewrite run_bind, G1. cbn [rbind]. split; [done|]. split; [done|].
  rewrite Hv. cbn [view]. unfold backs. by rewrite Nat.iter_succ, Nat.iter_swap.
Qed.
Lemma back_pipe c : print 2 c = print 1 c -> by_pipe c -> by_back c.
Proof.
  intros E IH fuel s j rest H Hst Hf. rewrite E in H.
  destruct (IH fuel s (replicate j 38 ++ rest) H) as (t & s1 & Hr & H1 & Hv); [|lia|].
  { destruct j; [eapply stops_mono; [apply ends_symbols|done]|]. right. eexists _, _. split; [reflexivity|]. by apply ends_in. }
  destruct (back_give es t s1 j rest H1 Hst) as (c' & s' & Hr' & H' & Hv').
  { pose proof (here_len _ _ _ H1) as L. rewrite length_app, length_replicate in L. lia. }
  exists c', s'. rewrite run_bind, Hr. cbn [rbind]. split; [done|]. split; [done|]. by rewrite Hv', Hv.
Qed.
Lemma back_back c : by_back c -> by_back (ABack c).
Proof.
  intros IH fuel s j rest H Hst Hf. cbn [print Nat.ltb Nat.leb paren] in H. rewrite <- app_assoc in H.
  destruct (IH fuel s (S j) rest H Hst Hf) as (t & s' & Hr & H' & Hv). exists t, s'. split; [done|]. split; [done|].
  rewrite Hv. unfold backs. by rewrite Nat.iter_succ, Nat.iter_swap.
Qed.

Lemma line_back c : print 3 c = print 2 c -> by_back c -> by_line c.
Proof.
  intros E IH fuel s rest H Hst Hf. rewrite E in H. destruct fuel as [|k]; [lia|].
  destruct (IH k s 0%nat rest H) as (t & s' & Hr & H' & Hv); [eapply stops_mono; [apply ends_symbols|done]|lia|].
  exists t, s'. split; [|done]. cbn [parseline]. rewrite run_bind in Hr |- *. destruct (run (parsepipe text k s)) as [c0 s0| | | | |]; try discriminate Hr.
  cbn [rbind] in Hr |- *. rewrite run_bind, Hr. cbn [rbind]. rewrite run_bind, (peek_unlike _ _ _ _ H'); [done|].
  apply (unlike_stops _ ends3); [by apply sub_symbols|by repeat constructor|exact Hst].
Qed.
Lemma line_list l r : by_back l -> by_line r -> printable r -> by_line (AList l r).
Proof.
  intros IHl IHr Hp fuel s rest H Hst Hf. cbn [print Nat.ltb Nat.leb paren] in H. rewrite <- !app_assoc in H. destruct fuel as [|k]; [lia|].
  destruct (IHl k s 0%nat ([59] ++ print 3 r ++ rest) H) as (t & s1 & Hr & H1 & Hv); [|lia|].
  { right. exists 59, (print 3 r ++ rest). split; [done|]. by apply ends_in. }
  destruct (symbol_here 59) as [H59 S59]; [left; by apply ends_in|].
  assert (clean (print 3 r ++ rest)) as Hcl by (apply print_clean; [done|]; eapply stops_clean; [|exact Hst]; by apply sub_symbols).
  destruct (symbol_gives (str ";") s1 59 _ H1) as (P1 & G1 & H2); [done|done|done|done|].
  pose proof (here_len _ _ _ H) as L0. pose proof (here_len _ _ _ H2) as L2. rewrite length_app in L0. cbn [length app replicate] in L0.
  destruct (IHr k (S s1) rest H2) as (t2 & s2 & Hr2 & H3 & Hv2); [done|lia|].
  exists (LIST t t2), s2. split; [|split; [done|by cbn [view]; rewrite Hv, Hv2]].
  cbn [parseline]. rewrite run_bind in Hr |- *. destruct (run (parsepipe text k s)) as [c0 s0| | | | |]; try discriminate Hr.
  cbn [rbind] in Hr |- *. rewrite run_bind, Hr. cbn [rbind]. rewrite run_bind, P1. cbn [rbind]. rewrite run_bind, G1. cbn [rbind]. by rewrite run_bind, Hr2.
Qed.

Lemma parses c : printable c -> by_exec c /\ by_pipe c /\ by_back c /\ by_line c.
Proof.
  induction c as [argv|c IH f m d|l IHl r IHr|l IHl r IHr|c IH]; intros Hp.
  - pose proof (exec_words argv Hp). assert (by_pipe (AExec argv)) by (by apply pipe_exec). assert (by_back (AExec argv)) by (by apply back_pipe).
    assert (by_line (AExec argv)) by (by apply line_back). done.
  - destruct Hp as (Hp & Hf & Hm). destruct (IH Hp) as (He & _). assert (by_exec (ARedir c f m d)) by (by apply exec_redir).
    assert (by_pipe (ARedir c f m d)) by (by apply pipe_exec). assert (by_back (ARedir c f m d)) by (by apply back_pipe).
    assert (by_line (ARedir c f m d)) by (by apply line_back). done.
  - destruct Hp as [Hl Hr]. destruct (IHl Hl) as (He & _), (IHr Hr) as (_ & Hpi & _).
    assert (by_pipe (APipe l r)) by (by apply pipe_pipe). assert (by_back (APipe l r)) by (by apply back_pipe).
    assert (by_line (APipe l r)) by (by apply line_back). split; [|done]. by apply exec_block.
  - destruct Hp as [Hl Hr]. destruct (IHl Hl) as (_ & _ & Hb & _), (IHr Hr) as (_ & _ & _ & Hli).
    assert (by_line (AList l r)) by (by apply line_list). assert (by_exec (AList l r)) by (by apply exec_block).
    assert (by_pipe (AList l r)) by (by apply pipe_exec). assert (by_back (AList l r)) by (by apply back_pipe). done.
  - destruct (IH Hp) as (_ & _ & Hb & _). assert (by_back (ABack c)) by (by apply back_back).
    assert (by_line (ABack c)) by (by apply line_back). assert (by_exec (ABack c)) by (by apply exec_block).
    assert (by_pipe (ABack c)) by (by apply pipe_exec). done.
Qed.
End levels.

Lemma print_text level c : printable c -> is_text (print level c).
Proof.
  assert (forall w, word w -> is_text w) as Hword.
  { intros w [_ Hw]. eapply Forall_impl; [exact Hw|]. by intros c' [H _]. }
  assert (forall t, is_text t -> is_text (paren true t)) as Hpar.
  { intros t Ht. cbn [paren]. constructor; [done|]. apply Forall_app. split; [done|]. by repeat constructor. }
  revert level. induction c as [argv|c IH f m d|l IHl r IHr|l IHl r IHr|c IH]; intros level; cbn [printable print].
  - intros [_ Hw]. induction Hw as [|w argv Hw _ IH]; [constructor|]. rewrite <- (app_nil_r (args_text _)), args_text_cons, app_nil_r.
    apply Forall_app. split; [by apply Hword|]. by constructor.
  - intros (Hc & Hf & _). apply Forall_app. split; [by apply IH|]. unfold redir_text. constructor; [by destruct (d =? 0)|].
    apply Forall_app. split; [by apply Hword|]. by repeat constructor.
  - intros [Hl Hr]. assert (is_text (print 0 l ++ [124] ++ print 1 r)).
    { apply Forall_app. split; [by apply IHl|]. constructor; [done|]. by apply IHr. }
    destruct (level <? 1)%nat; [by apply Hpar|done].
  - intros [Hl Hr]. assert (is_text (print 2 l ++ [59] ++ print 3 r)).
    { apply Forall_app. split; [by apply IHl|]. constructor; [done|]. by apply IHr. }
    destruct (level <? 3)%nat; [by apply Hpar|done].
  - intros Hc. assert (is_text (print 2 c ++ [38])).
    { apply Forall_app. split; [by apply IH|]. by repeat constructor. }
    destruct (level <? 2)%nat; [by apply Hpar|done].
Qed.

(** C36. Printing and parsing.  Every command of the shell - simple commands with redirections,
    pipe lines, lists, background commands and blocks, nested in any way - is recovered by
    [parsecmd] from the line that spells it: the tree has the shape of the command, [|] binds
    tighter than [&] and [&] tighter than [;], [|] and [;] nest to the right, redirections apply
    in order, and the words that [exec] and [open] are given, read from the buffer after
    [nulterminate], are the words of the command. *)
Theorem parsecmd_roundtrip c :
  printable c ->
  exists t buf, parsecmd (print 3 c) = ROk (t, buf) (length (print 3 c)) /\ view (string_at buf) t = c.
Proof.
  intros Hp. set (text := print 3 c). destruct (parses text c Hp) as (_ & _ & _ & Hl).
  assert (here text 0 (print 3 c ++ [])) as H0 by (split; [lia|]; by rewrite drop_0, app_nil_r).
  destruct (Hl (parse_fuel text) 0%nat [] H0) as (t & s & Hr & Hs & Hv); [by left|unfold parse_fuel; lia|].
  assert (s = length text) as -> by (pose proof (here_len _ _ _ Hs) as L; destruct Hs as [Hle _]; cbn [length] in L; lia).
  assert (run (parse text (parse_fuel text) 0%nat) = ROk t (length text)) as Hparse.
  { unfold parse. rewrite run_bind, Hr. cbn [rbind]. rewrite run_bind, (peek_gives text [] _ [] Hs) by done. cbn [rbind]. mrun.
    unfold id. by rewrite Nat.eqb_refl. }
  pose proof (parse_ends text) as He. unfold ends in He. rewrite Hparse in He. destruct He as [_ Hok].
  exists t, (nulterminate t (text ++ [0])). unfold parsecmd. rewrite Hparse. cbn [rbind]. split; [done|].
  rewrite <- Hv. apply nulterminate_view; [|done]. by apply print_text.
Qed.

(** [(grep x <in | wc); ls &]. *)
Definition demo_cmd : ast :=
  AList (APipe (ARedir (AExec [str "grep"; str "x"]) (str "in") O_RDONLY 0) (AExec [str "wc"])) (ABack (AExec [str "ls"])).

Lemma parsecmd_roundtrip_witness : exists t buf,
  parsecmd (str "grep x <in |wc ;ls &") = ROk (t, buf) 20%nat /\ view (string_at buf) t = demo_cmd.
Proof.
  assert (printable demo_cmd) as Hp.
  { repeat split; try (by repeat constructor); try done. }
  destruct (parsecmd_roundtrip demo_cmd Hp) as (t & buf & Hr & Hv). exists t, buf. split; [exact Hr|exact Hv].
Defined.

Lemma parsecmd_total_witness :
  parsecmd (str "a >") = RPanic "missing file for redirection" /\
  exists c buf s, parsecmd (str "a;(b|c)&") = ROk (c, buf) s /\ view (string_at buf) c = view (slice_of (str "a;(b|c)&")) c.
Proof.
  split; [vm_compute; reflexivity|].
  assert (is_text (str "a;(b|c)&")) as Ht by (repeat constructor; done).
  pose proof (parsecmd_total (str "a;(b|c)&") Ht) as H. vm_compute (parsecmd _) in H.
  eexists _, _, _. split; [vm_compute; reflexivity|]. apply H.
Defined.
