(* ===== verification/ShRun.v ===== *)
(** The shell runs commands (sh.c): [runcmd], [main], [panic] and [fork1].

    A process is the tree of the system calls it makes: [fork] goes on in two ways, [exec] goes
    on only if it fails.  A machine of such processes ([step]) interleaves their calls in every way and gives every answer the
    kernel can give; each process has its own descriptors and its children, and [wait] is held up until a child is dead.
    What the commands mean is a term [job] - one after the other, side by side, in the background - and the
    theorem is a simulation: whatever the interleaving and the answers, the calls are those of the
    job, nothing is ever stuck, and no process keeps the end of a pipe. *)

From Stdlib Require Import ZArith Lia.
From stdpp Require Import base tactics option gmap sets strings numbers list.
From S2P Require Import Prelude CString Format Sysfile User Sh.
Open Scope Z_scope.

Inductive act :=
| Exit
| Exec (path : list Z) (argv : list (list Z)) (failed : act)
| Open (path : list Z) (mode : Z) (k : Z -> act)
| Close (fd : Z) (k : act)
| Dup (fd : Z) (k : act)
| Pipe (k : option (Z * Z) -> act)
| Fork (k : Z -> act)
| Wait (k : act)
| Chdir (dir : list Z) (k : Z -> act)
| Print (fd : Z) (fmt : list Z) (args : list farg) (k : act).

(** * sh.c *)

Definition sh_panic (s : string) : act := Print 2 (str "%s" ++ [nl]) [AStr (Some (str s))] Exit.
Definition fork1 (k : Z -> act) : act := Fork (fun pid => if pid =? -1 then sh_panic "fork" else k pid).

Fixpoint runcmd (c : ast) : act :=
  match c with
  | AExec [] => Exit
  | AExec (a :: argv) => Exec a (a :: argv) (Print 2 (str "exec %s failed" ++ [nl]) [AStr (Some a)] Exit)
  | ARedir c file mode fd =>
      Close fd (Open file mode (fun r =>
        if r <? 0 then Print 2 (str "open %s failed" ++ [nl]) [AStr (Some file)] Exit else runcmd c))
  | AList l r => fork1 (fun pid => if pid =? 0 then runcmd l else Wait (runcmd r))
  | APipe l r =>
      Pipe (fun p =>
        match p with
        | None => sh_panic "pipe"
        | Some (p0, p1) =>
            fork1 (fun pid =>
              if pid =? 0 then Close 1 (Dup p1 (Close p0 (Close p1 (runcmd l)))) else
              fork1 (fun pid =>
                if pid =? 0 then Close 0 (Dup p0 (Close p0 (Close p1 (runcmd r)))) else
                Close p0 (Close p1 (Wait (Wait Exit)))))
        end)
  | ABack c => fork1 (fun pid => if pid =? 0 then runcmd c else Exit)
  end.

(** The position that [parsecmd] finds after [parseline] and [peek] if it is not the end. *)
Definition leftovers (text : list Z) : option nat :=
  match run ((parseline text (parse_fuel text) ;; peek text []) 0%nat) with
  | ROk _ s => if (s =? length text)%nat then None else Some s
  | _ => None
  end.

(** [parsecmd] of a line and what follows it in the child; a parser error prints its message,
    after what is left over of the line. *)
Definition run_line (buf : list Z) : act :=
  match parsecmd buf with
  | ROk (c, buf) _ => runcmd (view (string_at buf) c)
  | RPanic msg =>
      match leftovers buf with
      | Some s => Print 2 (str "leftovers: %s" ++ [nl]) [AStr (Some (drop s buf))] (sh_panic msg)
      | None => sh_panic msg
      end
  | _ => Exit
  end.

(** The loop that opens the console; [n] bounds the descriptors. *)
Fixpoint open_console (n : nat) (k : act) : act :=
  match n with
  | O => k
  | S n => Open (str "console") O_RDWR (fun fd => if fd <? 0 then k else if 3 <=? fd then Close fd k else open_console n k)
  end.

(** [lines] are the results of [gets]; an empty one, or none, is the end of the input. *)
Fixpoint sh_loop (lines : list (list Z)) : act :=
  Print 2 (str "$ ") [] (
  match lines with
  | [] | [] :: _ => Exit
  | buf :: lines =>
      if (default 0 (buf !! 0%nat) =? 99) && (default 0 (buf !! 1%nat) =? 100) && (default 0 (buf !! 2%nat) =? 32) then
        let dir := drop 3 (removelast buf) in
        Chdir dir (fun r =>
          if r <? 0 then Print 2 (str "cannot cd %s" ++ [nl]) [AStr (Some dir)] (sh_loop lines) else sh_loop lines)
      else fork1 (fun pid => if pid =? 0 then run_line buf else Wait (sh_loop lines))
  end).
Definition sh_main (lines : list (list Z)) : act := open_console 16 (sh_loop lines).

(** * The machine *)

Inductive obj := OConsole | OFile (path : list Z) (mode : Z) | OPipeR (n : nat) | OPipeW (n : nat).
Abbreviation fds := (gmap Z obj).

(** [fdalloc]: the lowest free descriptor of [NOFILE]. *)
Definition lowest (f : fds) : option Z := find (fun i => bool_decide (f !! i = None)) (seqZ 0 16).
Definition dup_fd (fd : Z) (f : fds) : fds :=
  match f !! fd, lowest f with Some o, Some fd' => <[fd' := o]> f | _, _ => f end.

(** What can be seen of a process: the calls that involve something outside it, each with its answer - [None]
    for a failure, and the pipe that [pipe] made -, and the end of a program. *)
Inductive call :=
| CExec (path : list Z) (argv : list (list Z)) (f : fds)
| CEnd (argv : list (list Z))
| COpen (path : list Z) (mode : Z)
| CPipe
| CFork
| CCd (dir : list Z)
| CSay (o : option obj) (t : option (list Z)).
Definition event : Type := call * option nat.

(** A process of the shell, a program it became, a process that has exited, and one that [wait] has found. *)
Inductive body := Shell (a : act) (f : fds) | Program (argv : list (list Z)) | Zombie | Gone.
Inductive tree := Node (b : body) (kids : list tree).
Definition root (t : tree) : body := let 'Node b _ := t in b.

(** One call of a process with the children [kids]; a call that fails returns -1. *)
Inductive own : body -> list tree -> option event -> body -> list tree -> Prop :=
| own_exit f kids : own (Shell Exit f) kids None Zombie kids
| own_exec path argv k f kids : own (Shell (Exec path argv k) f) kids (Some (CExec path argv f, Some 0%nat)) (Program argv) kids
| own_no_exec path argv k f kids : own (Shell (Exec path argv k) f) kids (Some (CExec path argv f, None)) (Shell k f) kids
| own_end argv kids : own (Program argv) kids (Some (CEnd argv, Some 0%nat)) Zombie kids
| own_open path mode k f fd kids : lowest f = Some fd ->
    own (Shell (Open path mode k) f) kids (Some (COpen path mode, Some 0%nat)) (Shell (k fd) (<[fd := OFile path mode]> f)) kids
| own_no_open path mode k f kids : own (Shell (Open path mode k) f) kids (Some (COpen path mode, None)) (Shell (k (-1)) f) kids
| own_close fd k f kids : own (Shell (Close fd k) f) kids None (Shell k (delete fd f)) kids
| own_dup fd k f kids : own (Shell (Dup fd k) f) kids None (Shell k (dup_fd fd f)) kids
| own_pipe n k f p0 p1 kids : lowest f = Some p0 -> lowest (<[p0 := OPipeR n]> f) = Some p1 ->
    own (Shell (Pipe k) f) kids (Some (CPipe, Some n)) (Shell (k (Some (p0, p1))) (<[p1 := OPipeW n]> (<[p0 := OPipeR n]> f))) kids
| own_no_pipe k f kids : own (Shell (Pipe k) f) kids (Some (CPipe, None)) (Shell (k None) f) kids
| own_fork n k f kids :
    own (Shell (Fork k) f) kids (Some (CFork, Some n)) (Shell (k (Z.of_nat n + 1)) f) (kids ++ [Node (Shell (k 0) f) []])
| own_no_fork k f kids : own (Shell (Fork k) f) kids (Some (CFork, None)) (Shell (k (-1)) f) kids
| own_wait k f l ks r : own (Shell (Wait k) f) (l ++ Node Zombie ks :: r) None (Shell k f) (l ++ Node Gone ks :: r)
| own_no_wait k f kids : Forall (fun t => root t = Gone) kids -> own (Shell (Wait k) f) kids None (Shell k f) kids
| own_cd dir k f kids : own (Shell (Chdir dir k) f) kids (Some (CCd dir, Some 0%nat)) (Shell (k 0) f) kids
| own_no_cd dir k f kids : own (Shell (Chdir dir k) f) kids (Some (CCd dir, None)) (Shell (k (-1)) f) kids
| own_print fd fmt args k f kids :
    own (Shell (Print fd fmt args k) f) kids (Some (CSay (f !! fd) (Format.printf fmt args), Some 0%nat)) (Shell k f) kids.

Inductive step : tree -> option event -> tree -> Prop :=
| step_own b kids o b' kids' : own b kids o b' kids' -> step (Node b kids) o (Node b' kids')
| step_kid b l t r o t' : step t o t' -> step (Node b (l ++ t :: r)) o (Node b (l ++ t' :: r)).

Inductive steps : tree -> list event -> tree -> Prop :=
| steps_nil t : steps t [] t
| steps_silent t t' es t'' : step t None t' -> steps t' es t'' -> steps t es t''
| steps_event t e t' es t'' : step t (Some e) t' -> steps t' es t'' -> steps t (e :: es) t''.

(** The processes of a tree. *)
Inductive process : tree -> body -> Prop :=
| process_root b kids : process (Node b kids) b
| process_kid b l t r b' : process t b' -> process (Node b (l ++ t :: r)) b'.

(** * What a command means *)

(** [Seq p q]: [q] once [p] is done; [Par p q]: both; [Back p q]: [q], with [p] in the background, which nobody waits for;
    [Second p q j]: [p], and [q] with it if a second process can be had, or else [j], with [p] left behind. *)
Inductive job :=
| Stop
| Ask (c : call) (k : option nat -> job)
| Seq (p q : job)
| Par (p q : job)
| Back (p q : job)
| Second (p q j : job).

(** Nothing is left but what runs in the background. *)
Fixpoint done (j : job) : bool :=
  match j with
  | Stop => true
  | Ask _ _ | Second _ _ _ => false
  | Seq p q | Par p q => done p && done q
  | Back _ q => done q
  end.
(** Nothing is left. *)
Fixpoint over (j : job) : bool :=
  match j with
  | Stop => true
  | Ask _ _ | Second _ _ _ => false
  | Seq p q | Par p q | Back p q => over p && over q
  end.

Inductive jstep : job -> event -> job -> Prop :=
| j_ask c k r : jstep (Ask c k) (c, r) (k r)
| j_seq_l p q e p' : jstep p e p' -> jstep (Seq p q) e (Seq p' q)
| j_seq_r p q e q' : done p = true -> jstep q e q' -> jstep (Seq p q) e (Seq p q')
| j_par_l p q e p' : jstep p e p' -> jstep (Par p q) e (Par p' q)
| j_par_r p q e q' : jstep q e q' -> jstep (Par p q) e (Par p q')
| j_back_l p q e p' : jstep p e p' -> jstep (Back p q) e (Back p' q)
| j_back_r p q e q' : jstep q e q' -> jstep (Back p q) e (Back p q')
| j_second_l p q j e p' : jstep p e p' -> jstep (Second p q j) e (Second p' q j)
| j_second n p q j : jstep (Second p q j) (CFork, Some n) (Par p q)
| j_no_second p q j : jstep (Second p q j) (CFork, None) (Back p j).

Inductive jsteps : job -> list event -> job -> Prop :=
| jsteps_nil j : jsteps j [] j
| jsteps_cons j e j' es j'' : jstep j e j' -> jsteps j' es j'' -> jsteps j (e :: es) j''.

Definition say (f : fds) (t : option (list Z)) (j : job) : job := Ask (CSay (f !! 2) t) (fun _ => j).
Definition complain (f : fds) (fmt : string) (x : list Z) (j : job) : job := say f (Format.printf (str fmt ++ [nl]) [AStr (Some x)]) j.
Definition either (c : call) (good bad : job) : job := Ask c (fun r => match r with Some _ => good | None => bad end).
Definition forking (f : fds) (j : job) : job := either CFork j (complain f "%s" (str "fork") Stop).

(** A command that is given the open files [f]: a redirection replaces one
    descriptor, a pipe the output of the left and the input of the right; nothing else. *)
Fixpoint cmd_job (c : ast) (f : fds) : job :=
  match c with
  | AExec [] => Stop
  | AExec (a :: argv) => either (CExec a (a :: argv) f) (Ask (CEnd (a :: argv)) (fun _ => Stop)) (complain f "exec %s failed" a Stop)
  | ARedir c file mode fd =>
      either (COpen file mode) (cmd_job c (<[fd := OFile file mode]> f)) (complain (delete fd f) "open %s failed" file Stop)
  | AList l r => forking f (Seq (cmd_job l f) (cmd_job r f))
  | APipe l r =>
      Ask CPipe (fun p =>
        match p with
        | None => complain f "%s" (str "pipe") Stop
        | Some n => forking f (Second (cmd_job l (<[1 := OPipeW n]> f)) (cmd_job r (<[0 := OPipeR n]> f)) (complain f "%s" (str "fork") Stop))
        end)
  | ABack c => forking f (Back (cmd_job c f) Stop)
  end.

(** A line: its command, or the messages of the parser. *)
Definition line_job (buf : list Z) (f : fds) : job :=
  match parsecmd buf with
  | ROk (c, _) _ => cmd_job (view (slice_of buf) c) f
  | RPanic msg =>
      let j := complain f "%s" (str msg) Stop in
      match leftovers buf with Some s => complain f "leftovers: %s" (drop s buf) j | None => j end
  | _ => Stop
  end.
Fixpoint session (lines : list (list Z)) (f : fds) : job :=
  say f (Some (str "$ "))
    match lines with
    | [] | [] :: _ => Stop
    | buf :: lines =>
        if bool_decide (take 3 buf = str "cd ") then
          let dir := drop 3 (removelast buf) in
          either (CCd dir) (session lines f) (complain f "cannot cd %s" dir (session lines f))
        else forking f (Seq (line_job buf f) (session lines f))
    end.
Definition main_job (lines : list (list Z)) (f : fds) : job := Ask (COpen (str "console") O_RDWR) (fun _ => session lines f).

(** * Theorems *)

(** Standard input, output and error are open and the next two descriptors are free. *)
Definition std (f : fds) : Prop := is_Some (f !! 0) /\ is_Some (f !! 1) /\ is_Some (f !! 2) /\ f !! 3 = None /\ f !! 4 = None.

Lemma lowest_eq f i : 0 <= i < 16 -> f !! i = None -> (forall j, 0 <= j < i -> f !! j <> None) -> lowest f = Some i.
Proof.
  intros Hi Hf Hj. unfold lowest.
  assert (Forall (fun j => bool_decide (f !! j = None) = false) (seqZ 0 i)) as Hall.
  { apply Forall_forall. intros j Hjs%elem_of_seqZ. apply bool_decide_false, Hj. lia. }
  replace (seqZ 0 16) with (seqZ 0 i ++ i :: seqZ (i + 1) (15 - i)).
  2: { replace 16 with (i + (16 - i)) by lia. rewrite seqZ_app by lia. f_equal. rewrite (seqZ_cons (0 + i)) by lia. f_equal. f_equal; lia. }
  induction Hall as [|j l Hjl Hall IH]; cbn [app find]; [by rewrite bool_decide_true|by rewrite Hjl].
Qed.
Lemma std_insert f i x : std f -> i = 0 \/ i = 1 -> std (<[i := x]> f).
Proof. intros (H0 & H1 & H2 & H3 & H4) [-> | ->]; unfold std; split_and!; first [rewrite lookup_insert_ne by done | rewrite lookup_insert_eq]; try done; by eexists. Qed.

(** A descriptor 0 or 1 that is closed is the next one that is given out. *)
Lemma lowest_std f i : std f -> i = 0 \/ i = 1 -> lowest (delete i f) = Some i.
Proof.
  intros (H0 & H1 & _) Hi. apply lowest_eq; [lia|apply lookup_delete_eq|]. intros j Hj. rewrite lookup_delete_ne by lia.
  assert (i = 1 /\ j = 0) as [-> ->] by lia. destruct H0 as [o ->]. done.
Qed.
Lemma lowest_3 f : std f -> lowest f = Some 3.
Proof.
  intros (H0 & H1 & H2 & H3 & _). apply lowest_eq; [lia|done|]. intros j Hj E.
  assert (j = 0 \/ j = 1 \/ j = 2) as [-> | [-> | ->]] by lia; rewrite E in *; by eapply is_Some_None.
Qed.
Lemma lowest_4 f x : std f -> lowest (<[3 := x]> f) = Some 4.
Proof.
  intros (H0 & H1 & H2 & H3 & H4). apply lowest_eq; [lia|by rewrite lookup_insert_ne|]. intros j Hj.
  destruct (decide (j = 3)) as [-> |Hn]; [by rewrite lookup_insert_eq|]. rewrite lookup_insert_ne by done. intros E.
  assert (j = 0 \/ j = 1 \/ j = 2) as [-> | [-> | ->]] by lia; rewrite E in *; by eapply is_Some_None.
Qed.

(** The descriptors of the two children of a pipe, after their calls of [close] and [dup]: the ends [p] of the
    pipe are at 3 and 4, and [i] takes the place of one. *)
Lemma plumb f i o a b : std f -> i = 0 \/ i = 1 -> delete 4 (delete 3 (<[i := o]> (delete i (<[4 := b]> (<[3 := a]> f))))) = <[i := o]> f.
Proof.
  intros (_ & _ & _ & H3 & H4) Hi. apply map_eq. intros j.
  destruct (decide (j = 4)) as [-> |]; [rewrite lookup_delete_eq, lookup_insert_ne by lia; done|]. rewrite lookup_delete_ne by done.
  destruct (decide (j = 3)) as [-> |]; [rewrite lookup_delete_eq, lookup_insert_ne by lia; done|]. rewrite lookup_delete_ne by done.
  destruct (decide (j = i)) as [-> |]; [by rewrite !lookup_insert_eq|]. by rewrite lookup_insert_ne, lookup_delete_ne, !lookup_insert_ne by done.
Qed.
Lemma lowest_plumb f i a b : std f -> i = 0 \/ i = 1 -> lowest (delete i (<[4 := b]> (<[3 := a]> f))) = Some i.
Proof.
  intros (H0 & H1 & _) Hi. apply lowest_eq; [lia|apply lookup_delete_eq|]. intros j Hj. rewrite lookup_delete_ne, !lookup_insert_ne by lia.
  assert (i = 1 /\ j = 0) as [-> ->] by lia. destruct H0 as [o ->]. done.
Qed.

Fixpoint redirs_ok (c : ast) : Prop :=
  match c with
  | AExec _ => True
  | ARedir c _ _ fd => redirs_ok c /\ (fd = 0 \/ fd = 1)
  | APipe l r | AList l r => redirs_ok l /\ redirs_ok r
  | ABack c => redirs_ok c
  end.
Lemma view_redirs text rd c : cmd_ok text c -> redirs_ok (view rd c).
Proof. induction c; cbn; [done| |tauto|tauto|done]. intros (H & _ & [[_ ->]|[_ ->]]); split; auto. Qed.

Lemma is_cd buf : (default 0 (buf !! 0%nat) =? 99) && (default 0 (buf !! 1%nat) =? 100) && (default 0 (buf !! 2%nat) =? 32) = bool_decide (take 3 buf = str "cd ").
Proof.
  change (str "cd ") with [99; 100; 32]. destruct buf as [|a [|b [|c buf]]]; cbn [lookup list_lookup default from_option id take];
    rewrite ?andb_false_r; try (symmetry; apply bool_decide_false; congruence).
  destruct (Z.eqb_spec a 99), (Z.eqb_spec b 100), (Z.eqb_spec c 32); cbn [andb]; symmetry;
    first [apply bool_decide_true; by subst|apply bool_decide_false; by intros [=]].
Qed.

(** ** Jobs *)

Lemma done_jstep j e j' : jstep j e j' -> done j = true -> done j' = true.
Proof. induction 1; cbn; try done; rewrite ?andb_true_iff; naive_solver. Qed.
Lemma over_done j : over j = true -> done j = true.
Proof. induction j; cbn; try done; rewrite ?andb_true_iff; naive_solver. Qed.

(** ** The simulation *)

Section sim.
Context (f0 : fds).

(** The descriptors of the shell, up to 0 and 1. *)
Definition agrees (f : fds) : Prop := forall d, d <> 0 -> d <> 1 -> f !! d = f0 !! d.
Definition like (f : fds) : Prop := std f /\ agrees f.
Lemma like_insert f i x : like f -> i = 0 \/ i = 1 -> like (<[i := x]> f).
Proof. intros [Hs Ha] Hi. split; [by apply std_insert|]. intros d H0 H1. rewrite lookup_insert_ne by lia. by apply Ha. Qed.

(** The calls of [close] and [dup] before the next call that can be seen. *)
Fixpoint settle (a : act) (f : fds) : act * fds :=
  match a with
  | Close fd k => settle k (delete fd f)
  | Dup fd k => settle k (dup_fd fd f)
  | _ => (a, f)
  end.

(** The processes of a pipe. *)
Definition plumbed (n : nat) (f : fds) : fds := <[4 := OPipeW n]> (<[3 := OPipeR n]> f).
Definition pipe_left (l : act) : act := Close 1 (Dup 4 (Close 3 (Close 4 l))).
Definition pipe_right (r : act) : act := Close 0 (Dup 3 (Close 3 (Close 4 r))).
Definition pipe_parent : act := Close 3 (Close 4 (Wait (Wait Exit))).
Definition pipe_2 (r : act) : act := fork1 (fun pid => if pid =? 0 then pipe_right r else pipe_parent).
Definition pipe_1 (l r : act) : act := fork1 (fun pid => if pid =? 0 then pipe_left l else pipe_2 r).
Definition second (r : ast) (n : nat) (f : fds) (p : job) : job := Second p (cmd_job r (<[0 := OPipeR n]> f)) (complain f "%s" (str "fork") Stop).

(** Messages before the end. *)
Inductive parting : act -> fds -> job -> Prop :=
| parting_exit f : parting Exit f Stop
| parting_say fmt args a f j : parting a f j -> parting (Print 2 fmt args a) f (say f (Format.printf fmt args) j).
Inductive core : act -> fds -> job -> Prop :=
| core_parting a f j : parting a f j -> core a f j
| core_cmd c f : redirs_ok c -> like f -> core (runcmd c) f (cmd_job c f)
| core_pipe l r n f : redirs_ok l -> redirs_ok r -> like f ->
    core (pipe_1 (runcmd l) (runcmd r)) (plumbed n f) (forking f (second r n f (cmd_job l (<[1 := OPipeW n]> f))))
| core_main lines : Forall is_text lines -> std f0 -> core (sh_main lines) f0 (main_job lines f0)
| core_loop lines : Forall is_text lines -> std f0 -> core (sh_loop lines) f0 (session lines f0)
| core_read a j lines : Forall is_text lines -> std f0 -> sh_loop lines = Print 2 (str "$ ") [] a -> session lines f0 = say f0 (Some (str "$ ")) j -> core a f0 j
| core_no_cd a lines t j : Forall is_text lines -> std f0 -> sh_loop lines = a -> session lines f0 = j -> core (Print 2 t.1 t.2 a) f0 (say f0 (Format.printf t.1 t.2) j).
Definition fits (a : act) (f : fds) (j : job) : Prop := exists a0 g, settle a f = settle a0 g /\ core a0 g j.

Definition gone (t : tree) : Prop := root t = Gone.
Inductive joining : body -> tree -> tree -> Prop :=
| joining_2 a f g t1 t2 : settle a f = (Wait (Wait Exit), g) -> like g -> joining (Shell a f) t1 t2
| joining_1 g t1 t2 : gone t1 \/ gone t2 -> like g -> joining (Shell (Wait Exit) g) t1 t2
| joining_0 g t1 t2 : gone t1 -> gone t2 -> joining (Shell Exit g) t1 t2
| joining_end b t1 t2 : b = Zombie \/ b = Gone -> gone t1 -> gone t2 -> joining b t1 t2.

Inductive leaving : body -> job -> Prop :=
| leaving_act a f j : parting a f j -> leaving (Shell a f) j
| leaving_end b : b = Zombie \/ b = Gone -> leaving b Stop.

Inductive sim : tree -> job -> Prop :=
| sim_act a f j : fits a f j -> sim (Node (Shell a f) []) j
| sim_program argv : sim (Node (Program argv) []) (Ask (CEnd argv) (fun _ => Stop))
| sim_end b : b = Zombie \/ b = Gone -> sim (Node b []) Stop
| sim_past b t kids p j : gone t -> sim t p -> sim (Node b kids) j -> sim (Node b (t :: kids)) (Seq p j)
| sim_seq a f t p j : sim t p -> fits a f j -> like f -> sim (Node (Shell (Wait a) f) [t]) (Seq p j)
| sim_back b t p j : sim t p -> leaving b j -> sim (Node b [t]) (Back p j)
| sim_second n r f t p : sim t p -> redirs_ok r -> like f ->
    sim (Node (Shell (pipe_2 (runcmd r)) (plumbed n f)) [t]) (second r n f p)
| sim_par b t1 t2 p q : sim t1 p -> sim t2 q -> joining b t1 t2 -> sim (Node b [t1; t2]) (Par p q).

(** A process that has exited is done. *)
Lemma sim_done t j : sim t j -> root t = Zombie \/ root t = Gone -> done j = true.
Proof.
  induction 1 as [a f j|argv|b Hb|b t kids p j Hg _ IHt _ IH|a f t p j|b t p j _ _ Hl|n r f t p|b t1 t2 p q _ IH1 _ IH2 Hj]; cbn [root]; intros Hr; try naive_solver.
  - cbn. unfold gone in Hg. rewrite IHt, IH; auto.
  - by destruct Hl; naive_solver.
  - unfold gone in *. inversion Hj; subst; cbn; unfold gone in *; try naive_solver. rewrite IH1, IH2; auto.
Qed.
Lemma sim_reap kids j : sim (Node Zombie kids) j -> sim (Node Gone kids) j.
Proof.
  remember (Node Zombie kids) as t eqn:E. intros H. revert kids E.
  induction H as [a f j|argv|b Hb|b t ks p j Hg Ht _ Hs IH|a f t p j|b t p j Ht _ Hl|n r f t p|b t1 t2 p q H1 _ H2 _ Hj]; intros kids [= -> <-].
  - apply sim_end. by right.
  - apply sim_past; auto.
  - inversion Hl; subst. apply sim_back; [done|]. apply leaving_end. by right.
  - inversion Hj; subst. apply sim_par; [done|done|]. apply joining_end; auto.
Qed.

(** A child that was waited for does not matter. *)
Lemma own_past b t kids o b' ks : gone t -> own b (t :: kids) o b' ks -> exists ks', ks = t :: ks' /\ own b kids o b' ks'.
Proof.
  intros Hg Ho. remember (t :: kids) as l eqn:El. destruct Ho; subst; try (eexists; split; [reflexivity|by constructor]).
  - destruct l as [|u l]; cbn in El; [by injection El as <- <-|]. injection El as -> <-. exists (l ++ Node Gone ks :: r). split; [done|constructor].
  - eexists. split; [reflexivity|]. apply Forall_cons in H as [_ H]. by constructor.
Qed.
Lemma own_future b t kids o b' ks : gone t -> own b kids o b' ks -> own b (t :: kids) o b' (t :: ks).
Proof.
  intros Hg Ho. destruct Ho; try by constructor.
  - apply (own_wait k f (t :: l) ks r).
  - constructor. by apply Forall_cons.
Qed.

Lemma step_root t o t' : step t o t' -> gone t -> gone t'.
Proof. destruct 1 as [b kids o b' kids' Ho|]; [|done]. unfold gone. cbn. intros ->. inversion Ho. Qed.

Lemma fits_core a f j : core a f j -> fits a f j.
Proof. intros H. by exists a, f. Qed.
Lemma fits_settle a f a' f' j : settle a f = settle a' f' -> fits a' f' j -> fits a f j.
Proof. intros E (a0 & g & E' & H). exists a0, g. split; [congruence|done]. Qed.
Lemma sim_core a f j : core a f j -> sim (Node (Shell a f) []) j.
Proof. intros H. by apply sim_act, fits_core. Qed.

(** ** The calls of the shell *)

Lemma own_Exit f kids o b ks : own (Shell Exit f) kids o b ks -> o = None /\ b = Zombie /\ ks = kids.
Proof. inversion 1; by subst. Qed.
Lemma own_Exec path argv k f kids o b ks : own (Shell (Exec path argv k) f) kids o b ks ->
  ks = kids /\ exists r, o = Some (CExec path argv f, r) /\ b = if r is Some _ then Program argv else Shell k f.
Proof. inversion 1; subst; (split; [done|]); eauto. Qed.
Lemma own_Open path mode k f kids o b ks : own (Shell (Open path mode k) f) kids o b ks ->
  ks = kids /\ ((exists fd, o = Some (COpen path mode, Some 0%nat) /\ lowest f = Some fd /\ b = Shell (k fd) (<[fd := OFile path mode]> f)) \/
                o = Some (COpen path mode, None) /\ b = Shell (k (-1)) f).
Proof. inversion 1; subst; (split; [done|]); eauto. Qed.
Lemma own_Pipe k f kids o b ks : own (Shell (Pipe k) f) kids o b ks ->
  ks = kids /\ ((exists n p0 p1, o = Some (CPipe, Some n) /\ lowest f = Some p0 /\ lowest (<[p0 := OPipeR n]> f) = Some p1 /\
                  b = Shell (k (Some (p0, p1))) (<[p1 := OPipeW n]> (<[p0 := OPipeR n]> f))) \/
                o = Some (CPipe, None) /\ b = Shell (k None) f).
Proof. inversion 1; subst; (split; [done|]); eauto 9. Qed.
Lemma own_Chdir dir k f kids o b ks : own (Shell (Chdir dir k) f) kids o b ks ->
  ks = kids /\ exists r, o = Some (CCd dir, r) /\ b = Shell (k (if r is Some _ then 0 else -1)) f.
Proof. inversion 1; subst; (split; [done|]); eauto. Qed.
Lemma own_Print fd fmt args k f kids o b ks : own (Shell (Print fd fmt args k) f) kids o b ks ->
  o = Some (CSay (f !! fd) (Format.printf fmt args), Some 0%nat) /\ b = Shell k f /\ ks = kids.
Proof. inversion 1; by subst. Qed.
Lemma own_fork1 k f kids o b ks : own (Shell (fork1 k) f) kids o b ks ->
  (exists n, o = Some (CFork, Some n) /\ b = Shell (k (Z.of_nat n + 1)) f /\ ks = kids ++ [Node (Shell (k 0) f) []]) \/
  (o = Some (CFork, None) /\ b = Shell (sh_panic "fork") f /\ ks = kids).
Proof.
  intros Ho. inversion Ho; subst; [left|by right]. exists n. split; [done|]. destruct (Z.eqb_spec (Z.of_nat n + 1) (-1)); [lia|]. done.
Qed.
Lemma pid_pos n : (Z.of_nat n + 1 =? 0) = false.
Proof. apply Z.eqb_neq. lia. Qed.

Definition follows (j : job) (o : option event) (j' : job) : Prop := match o with None => j' = j | Some e => jstep j e j' end.

Lemma ask_follows c k r : follows (Ask c k) (Some (c, r)) (k r).
Proof. constructor. Qed.

(** One call of a process that waits for nobody. *)
Definition goes_on (j : job) (o : option event) (b : body) (ks : list tree) : Prop := exists j', follows j o j' /\ sim (Node b ks) j'.

Lemma goes_ask c k r b ks : sim (Node b ks) (k r) -> goes_on (Ask c k) (Some (c, r)) b ks.
Proof. intros H. exists (k r). split; [constructor|done]. Qed.

(** A message, and the end. *)
Lemma sim_message fmt x f g : g !! 2 = f !! 2 -> sim (Node (Shell (Print 2 (str fmt ++ [nl]) [AStr (Some x)] Exit) g) []) (complain f fmt x Stop).
Proof. intros E. apply sim_core, core_parting. unfold complain, say. rewrite <- E. constructor. constructor. Qed.

Lemma fork1_goes_on k f g j o b ks : g !! 2 = f !! 2 ->
  (forall n, sim (Node (Shell (k (Z.of_nat n + 1)) g) [Node (Shell (k 0) g) []]) j) ->
  own (Shell (fork1 k) g) [] o b ks -> goes_on (forking f j) o b ks.
Proof.
  intros E Hk [(n & -> & -> & ->)|(-> & -> & ->)]%own_fork1; apply goes_ask; [apply Hk|]. by apply sim_message.
Qed.

Lemma plumbed_2 n f : plumbed n f !! 2 = f !! 2.
Proof. unfold plumbed. by rewrite !lookup_insert_ne by done. Qed.
Lemma settle_left l n f : like f -> settle (pipe_left l) (plumbed n f) = settle l (<[1 := OPipeW n]> f).
Proof.
  intros [Hf _]. unfold pipe_left, plumbed. cbn [settle]. unfold dup_fd. rewrite lookup_delete_ne, lookup_insert_eq by done. rewrite lowest_plumb, plumb by (try done; lia). done.
Qed.
Lemma settle_right r n f : like f -> settle (pipe_right r) (plumbed n f) = settle r (<[0 := OPipeR n]> f).
Proof.
  intros [Hf _]. unfold pipe_right, plumbed. cbn [settle]. unfold dup_fd. rewrite lookup_delete_ne, lookup_insert_ne, lookup_insert_eq by done.
  rewrite lowest_plumb, plumb by (try done; lia). done.
Qed.
Lemma settle_parent n f : like f -> settle pipe_parent (plumbed n f) = (Wait (Wait Exit), f).
Proof.
  intros [(_ & _ & _ & H3 & H4) _]. unfold pipe_parent, plumbed. cbn [settle]. f_equal. rewrite delete_insert_ne by done. rewrite !delete_insert_eq. by rewrite !delete_id by (rewrite ?lookup_delete_ne; done).
Qed.

Lemma cmd_goes_on c f o b ks : redirs_ok c -> like f -> own (Shell (settle (runcmd c) f).1 (settle (runcmd c) f).2) [] o b ks -> goes_on (cmd_job c f) o b ks.
Proof.
  intros Hc Hf. destruct c as [[|a argv]|c file mode fd|l r|l r|c].
  - cbn [runcmd settle fst snd cmd_job]. intros (-> & -> & ->)%own_Exit. exists Stop. split; [done|]. apply sim_end. by left.
  - cbn [runcmd settle fst snd cmd_job]. intros (-> & [n|] & -> & ->)%own_Exec; apply goes_ask; [apply sim_program|by apply sim_message].
  - destruct Hc as [Hc Hfd]. cbn [runcmd settle fst snd cmd_job]. intros (-> & [(d & -> & Hl & ->)|(-> & ->)])%own_Open; apply goes_ask; [|by apply sim_message].
    rewrite lowest_std in Hl by (by first [apply Hf | done]). injection Hl as <-. destruct (Z.ltb_spec fd 0); [lia|]. rewrite insert_delete_eq.
    apply sim_core, core_cmd; [done|]. by apply like_insert.
  - destruct Hc as [Hl Hr]. cbn [runcmd settle fst snd cmd_job]. intros (-> & [(n & p0 & p1 & -> & E0 & E1 & ->)|(-> & ->)])%own_Pipe; apply goes_ask; [|by apply sim_message].
    rewrite lowest_3 in E0 by apply Hf. injection E0 as <-. rewrite lowest_4 in E1 by apply Hf. injection E1 as <-. by apply sim_core, core_pipe.
  - destruct Hc as [Hl Hr]. cbn [runcmd settle fork1 fst snd cmd_job]. apply fork1_goes_on; [done|]. intros n. rewrite pid_pos. change (0 =? 0) with true. cbn iota.
    apply sim_seq; [by apply sim_core, core_cmd|by apply fits_core, core_cmd|done].
  - cbn [runcmd settle fork1 fst snd cmd_job]. apply fork1_goes_on; [done|]. intros n. rewrite pid_pos. change (0 =? 0) with true. cbn iota.
    apply sim_back; [by apply sim_core, core_cmd|]. constructor. constructor.
Qed.

Lemma pipe_goes_on l r n f o b ks : redirs_ok l -> redirs_ok r -> like f -> own (Shell (pipe_1 (runcmd l) (runcmd r)) (plumbed n f)) [] o b ks ->
  goes_on (forking f (second r n f (cmd_job l (<[1 := OPipeW n]> f)))) o b ks.
Proof.
  intros Hl Hr Hf. apply fork1_goes_on; [apply plumbed_2|]. intros m. rewrite pid_pos. change (0 =? 0) with true. cbn iota. apply sim_second; [|done|done].
  apply sim_act, (fits_settle _ _ (runcmd l) (<[1 := OPipeW n]> f)); [by apply settle_left|]. apply fits_core, core_cmd; [done|]. apply like_insert; [done|by right].
Qed.

(** The child that is given a line. *)
Lemma line_core buf : is_text buf -> std f0 -> core (run_line buf) f0 (line_job buf f0).
Proof.
  intros Ht Hf. unfold run_line, line_job, parsecmd. pose proof (parse_ends buf) as He. unfold ends in He.
  destruct (run (parse buf (parse_fuel buf) 0%nat)) as [c s| | | | |]; cbn [rbind]; try (apply core_parting; constructor).
  - destruct He as [_ Hc]. destruct (nulterminate_view buf Ht c Hc) as [_ ->]. apply core_cmd; [by eapply view_redirs|by split].
  - apply core_parting. destruct (leftovers buf); unfold complain, sh_panic; repeat constructor.
Qed.

Lemma say_inj f t j j' : say f t j = say f t j' -> j = j'.
Proof. intros E. exact (f_equal (fun x => match x with Ask _ k => k None | _ => Stop end) E). Qed.
Lemma read_goes_on lines a j o b ks : Forall is_text lines -> std f0 -> sh_loop lines = Print 2 (str "$ ") [] a -> session lines f0 = say f0 (Some (str "$ ")) j ->
  own (Shell (settle a f0).1 (settle a f0).2) [] o b ks -> goes_on j o b ks.
Proof.
  intros Hl Hf. destruct Hl as [|buf lines Hb Hl]; cbn [sh_loop session].
  { intros [= <-] <-%say_inj (-> & -> & ->)%own_Exit. exists Stop. split; [done|]. apply sim_end. by left. }
  destruct buf as [|c0 buf0] eqn:Eb.
  { intros [= <-] <-%say_inj (-> & -> & ->)%own_Exit. exists Stop. split; [done|]. apply sim_end. by left. }
  rewrite <- Eb in *. rewrite is_cd. intros [= <-] <-%say_inj. case_bool_decide as Ecd; cbn [settle fst snd].
  - intros (-> & [n|] & -> & ->)%own_Chdir; apply goes_ask.
    + change (0 <? 0) with false. by apply sim_core, core_loop.
    + change (-1 <? 0) with true. apply sim_core. by apply (core_no_cd _ lines (str "cannot cd %s" ++ [nl], [AStr (Some (drop 3 (removelast buf)))])).
  - cbn [fork1 settle fst snd]. apply fork1_goes_on; [done|]. intros n. rewrite pid_pos. change (0 =? 0) with true. cbn iota.
    apply sim_seq; [by apply sim_core, line_core|by apply fits_core, core_loop|by split].
Qed.

Lemma core_goes_on a f j o b ks : core a f j -> own (Shell (settle a f).1 (settle a f).2) [] o b ks -> goes_on j o b ks.
Proof.
  destruct 1 as [a f j Hp|c f Hc Hf|l r n f Hl Hr Hf|lines Hl Hf|lines Hl Hf|a j lines Hl Hf E1 E2|a lines t j Hl Hf <- <-].
  - destruct Hp as [f|fmt args a f j Hp]; cbn [settle fst snd]; [intros (-> & -> & ->)%own_Exit; exists Stop; split; [done|]; apply sim_end; by left|].
    intros (-> & -> & ->)%own_Print. apply goes_ask. by apply sim_core, core_parting.
  - by apply cmd_goes_on.
  - by apply pipe_goes_on.
  - cbn [sh_main open_console settle fst snd]. intros (-> & [(d & -> & E & ->)|(-> & ->)])%own_Open; apply goes_ask.
    + rewrite lowest_3 in E by done. injection E as <-. change (3 <? 0) with false. change (3 <=? 3) with true. cbn iota.
      apply sim_act, (fits_settle _ _ (sh_loop lines) f0); [|by apply fits_core, core_loop]. cbn [settle]. rewrite delete_insert_eq, delete_id; [done|apply Hf].
    + change (-1 <? 0) with true. by apply sim_core, core_loop.
  - assert (exists a j, sh_loop lines = Print 2 (str "$ ") [] a /\ session lines f0 = say f0 (Some (str "$ ")) j) as (a & j & Ea & Ej) by (destruct lines as [|[]]; eauto).
    rewrite Ea, Ej. cbn [settle fst snd]. intros (-> & -> & ->)%own_Print. apply goes_ask. apply sim_core. by eapply core_read.
  - by eapply read_goes_on.
  - cbn [settle fst snd]. intros (-> & -> & ->)%own_Print. apply goes_ask. by apply sim_core, core_loop.
Qed.

Lemma fits_goes_on a f j o b ks : fits a f j -> own (Shell a f) [] o b ks -> goes_on j o b ks.
Proof.
  intros (a0 & g & E & C) Ho.
  assert (fits_next : forall k f', settle a f = settle k f' -> goes_on j None (Shell k f') []).
  { intros k f' E'. exists j. split; [done|]. apply sim_act. exists a0, g. split; [congruence|done]. }
  destruct a; cbn [settle] in E; try (apply (core_goes_on a0 g); [done|]; by rewrite <- E); inversion Ho; subst; by apply fits_next.
Qed.

(** ** Every step *)

Lemma step_inv b kids o t' : step (Node b kids) o t' ->
  (exists b' ks, t' = Node b' ks /\ own b kids o b' ks) \/ (exists l t r t1, kids = l ++ t :: r /\ step t o t1 /\ t' = Node b (l ++ t1 :: r)).
Proof. inversion 1; subst; [left|right]; eauto 9. Qed.
Lemma one_kid {A} (l r : list A) x y : [y] = l ++ x :: r -> l = [] /\ x = y /\ r = [].
Proof. destruct l as [|? [|]]; intros [=]; by subst. Qed.
Lemma two_kids {A} (l r : list A) x y z : [y; z] = l ++ x :: r -> l = [] /\ x = y /\ r = [z] \/ l = [y] /\ x = z /\ r = [].
Proof. destruct l as [|? [|? [|]]]; intros [=]; subst; auto. Qed.

Lemma own_Wait k f kids o b ks : own (Shell (Wait k) f) kids o b ks -> o = None /\ b = Shell k f /\
  ((exists l zs r, kids = l ++ Node Zombie zs :: r /\ ks = l ++ Node Gone zs :: r) \/ (Forall gone kids /\ ks = kids)).
Proof. inversion 1; subst; (split; [done|]); (split; [done|]); eauto 7. Qed.

Lemma joining_kids b t1 t2 u1 u2 : (gone t1 -> gone u1) -> (gone t2 -> gone u2) -> joining b t1 t2 -> joining b u1 u2.
Proof. intros H1 H2 Hj. destruct Hj; [by eapply joining_2|apply joining_1; tauto|apply joining_0; tauto|apply joining_end; tauto]. Qed.
Lemma gone_zombie ks : ~ gone (Node Zombie ks).
Proof. done. Qed.

(** The parent of a pipe calls [close] and [wait]. *)
Lemma joining_own b t1 t2 p q o b' ks : sim t1 p -> sim t2 q -> joining b t1 t2 -> own b [t1; t2] o b' ks -> o = None /\ sim (Node b' ks) (Par p q).
Proof.
  intros S1 S2 Hj Ho.
  assert (reap : forall k g l zs r, b = Shell (Wait k) g -> [t1; t2] = l ++ Node Zombie zs :: r ->
    (forall u1 u2, (gone t1 -> gone u1) -> (gone t2 -> gone u2) -> gone u1 /\ ~ gone t1 \/ gone u2 /\ ~ gone t2 -> joining (Shell k g) u1 u2) ->
    sim (Node (Shell k g) (l ++ Node Gone zs :: r)) (Par p q)).
  { intros k g l zs r -> E Hu. apply two_kids in E as [(-> & <- & ->)|(-> & <- & ->)]; cbn [app]; apply sim_par; try done; try (by apply sim_reap); apply Hu; try done; [left|right]; split; [done|apply gone_zombie|done|apply gone_zombie]. }
  destruct Hj as [a f g t1 t2 E Hg|g t1 t2 Hor Hg|g t1 t2 G1 G2|b t1 t2 Hb G1 G2].
  - destruct a; try discriminate E.
    + inversion Ho; subst. split; [done|]. apply sim_par; [done|done|]. by eapply joining_2.
    + inversion Ho; subst. split; [done|]. apply sim_par; [done|done|]. by eapply joining_2.
    + injection E as -> ->. apply own_Wait in Ho as (-> & -> & [(l & zs & r & E & ->)|[Hall ->]]); (split; [done|]).
      * eapply reap; [done|done|]. intros u1 u2 I1 I2 I3. apply joining_1; [naive_solver|done].
      * apply sim_par; [done|done|]. apply joining_1; [|done]. left. by apply Forall_cons in Hall as [? _].
  - apply own_Wait in Ho as (-> & -> & [(l & zs & r & E & ->)|[Hall ->]]); (split; [done|]).
    + eapply reap; [done|done|]. intros u1 u2 I1 I2 I3. apply joining_0; naive_solver.
    + apply sim_par; [done|done|]. apply Forall_cons in Hall as [? Hall]. apply Forall_cons in Hall as [? _]. by apply joining_0.
  - apply own_Exit in Ho as (-> & -> & ->). split; [done|]. apply sim_par; [done|done|]. apply joining_end; auto.
  - destruct Hb as [-> | ->]; inversion Ho.
Qed.

Lemma leaving_own b t p j o b' ks : sim t p -> leaving b j -> own b [t] o b' ks -> exists j', follows (Back p j) o (Back p j') /\ sim (Node b' ks) (Back p j').
Proof.
  intros St Hl Ho. destruct Hl as [a f j Hp|b [-> | ->]]; [|by inversion Ho..]. destruct Hp as [f|fmt args a f j Hp].
  - apply own_Exit in Ho as (-> & -> & ->). exists Stop. split; [done|]. apply sim_back; [done|]. apply leaving_end. by left.
  - apply own_Print in Ho as (-> & -> & ->). exists j. split; [apply j_back_r; constructor|]. apply sim_back; [done|]. by apply leaving_act.
Qed.

Lemma follows_l (F : job -> job) p o p' : (forall e p', jstep p e p' -> jstep (F p) e (F p')) -> follows p o p' -> follows (F p) o (F p').
Proof. destruct o; cbn; [auto|]. by intros _ ->. Qed.
Lemma follows_done p o p' : follows p o p' -> done p = true -> done p' = true.
Proof. destruct o; cbn; [apply done_jstep|by intros ->]. Qed.

Lemma simulation t j o t' : sim t j -> step t o t' -> exists j', follows j o j' /\ sim t' j'.
Proof.
  intros Hs. revert o t'. induction Hs as [a f j Hj|argv|b Hb|b t kids p j Hg Ht IHt Hk IHk|a f t p j Ht IH Hj Hf|b t p j Ht IH Hl|n r f t p Ht IH Hr Hf|b t1 t2 p q H1 IH1 H2 IH2 Hj];
    intros o t' [(b' & ks & -> & Ho)|(l & u & r' & u' & El & Hu & ->)]%step_inv; try (by destruct l).
  - by eapply fits_goes_on.
  - inversion Ho; subst. exists Stop. split; [constructor|]. apply sim_end. by left.
  - destruct Hb as [-> | ->]; inversion Ho.
  - destruct (own_past _ _ _ _ _ _ Hg Ho) as (ks' & -> & Ho'). destruct (IHk o (Node b' ks')) as (j' & F & S'); [by constructor|].
    exists (Seq p j'). split; [|by apply sim_past]. eapply follows_l; [|done]. intros e x. apply j_seq_r. eapply sim_done; [done|by right].
  - destruct l as [|t0 l]; injection El as -> ->.
    + destruct (IHt o u') as (p' & F & S'); [done|]. exists (Seq p' j). split; [by apply (follows_l (fun p => Seq p j)); [apply j_seq_l|]|]. apply sim_past; [by eapply step_root|done|done].
    + destruct (IHk o (Node b (l ++ u' :: r'))) as (j' & F & S'); [by constructor|]. exists (Seq p j'). split; [|by apply sim_past].
      eapply follows_l; [|done]. intros e x. apply j_seq_r. eapply sim_done; [done|by right].
  - exists (Seq p j). apply own_Wait in Ho as (-> & -> & [(l & zs & r & E & ->)|[Hall ->]]); (split; [done|]).
    + apply one_kid in E as (-> & <- & ->). apply sim_past; [done|by apply sim_reap|by apply sim_act].
    + apply Forall_cons in Hall as [Hall _]. apply sim_past; [done|done|by apply sim_act].
  - apply one_kid in El as (-> & -> & ->). destruct (IH o u') as (p' & F & S'); [done|]. exists (Seq p' j). split; [by apply (follows_l (fun p => Seq p j)); [apply j_seq_l|]|]. by apply sim_seq.
  - destruct (leaving_own b t p j o b' ks) as (j' & F & S'); [done..|]. eauto.
  - apply one_kid in El as (-> & -> & ->). destruct (IH o u') as (p' & F & S'); [done|]. exists (Back p' j). split; [by apply (follows_l (fun p => Back p j)); [apply j_back_l|]|]. by apply sim_back.
  - apply own_fork1 in Ho as [(m & -> & -> & ->)|(-> & -> & ->)].
    + eexists. split; [apply j_second|]. rewrite pid_pos. change (0 =? 0) with true. cbn iota. apply sim_par; [done| |eapply joining_2; [by apply settle_parent|done]].
      apply sim_act, (fits_settle _ _ (runcmd r) (<[0 := OPipeR n]> f)); [by apply settle_right|]. apply fits_core, core_cmd; [done|]. apply like_insert; [done|by left].
    + eexists. split; [apply j_no_second|]. apply sim_back; [done|]. apply leaving_act. unfold complain, say. rewrite <- (plumbed_2 n). constructor. constructor.
  - apply one_kid in El as (-> & -> & ->). destruct (IH o u') as (p' & F & S'); [done|]. exists (second r n f p'). split; [apply (follows_l (second r n f)); [apply j_second_l|done]|]. by apply sim_second.
  - destruct (joining_own b t1 t2 p q o b' ks) as [-> S']; [done..|]. by exists (Par p q).
  - apply two_kids in El as [(-> & -> & ->)|(-> & -> & ->)].
    + destruct (IH1 o u') as (p' & F & S'); [done|]. exists (Par p' q). split; [by apply (follows_l (fun p => Par p q)); [apply j_par_l|]|]. apply sim_par; [done|done|].
      eapply joining_kids; [by eapply step_root|done|done].
    + destruct (IH2 o u') as (q' & F & S'); [done|]. exists (Par p q'). split; [by apply (follows_l (Par p)); [apply j_par_r|]|]. apply sim_par; [done|done|].
      eapply joining_kids; [done|by eapply step_root|done].
Qed.

(** ** Descriptors *)

Lemma process_inv b kids b' : process (Node b kids) b' -> b' = b \/ exists t, t ∈ kids /\ process t b'.
Proof. inversion 1 as [|? l t r ? Ht]; subst; [by left|]. right. exists t. split; [set_solver|done]. Qed.
Lemma core_no_wait a f j k : core a f j -> (settle a f).1 <> Wait k.
Proof.
  destruct 1 as [a f j Hp|c f Hc Hf|l r n f Hl Hr Hf|lines Hl Hf|lines Hl Hf|a j lines Hl Hf E1 E2|a lines t j Hl Hf <- <-]; try done.
  - by destruct Hp.
  - by destruct c as [[|a argv]|c file mode fd|l r|l r|c].
  - by destruct lines as [|[]].
  - destruct lines as [|buf lines]; cbn [sh_loop] in E1; [by injection E1 as <-|]. destruct buf; injection E1 as <-; [done|]. by destruct (_ && _).
Qed.
Lemma fits_no_wait k f j : ~ fits (Wait k) f j.
Proof. intros (a0 & g & E & C). apply (core_no_wait a0 g j k C). by rewrite <- E. Qed.

(** A process that waits has none but the shell's descriptors. *)
Lemma sim_tidy t j k g : sim t j -> process t (Shell (Wait k) g) -> agrees g.
Proof.
  induction 1 as [a f j Hj|argv|b Hb|b t kids p j Hg Ht IHt Hk IHk|a f t p j Ht IH Hj Hf|b t p j Ht IH Hl|n r f t p Ht IH Hr Hf|b t1 t2 p q H1 IH1 H2 IH2 Hj];
    intros [E|(u & Hu & Hp)]%process_inv; try (by apply elem_of_nil in Hu); try (apply list_elem_of_singleton in Hu as ->; by apply IH).
  - injection E as <- <-. by apply fits_no_wait in Hj.
  - done.
  - subst b. by destruct Hb.
  - subst b. apply IHk. constructor.
  - apply elem_of_cons in Hu as [-> |Hu]; [by apply IHt|]. apply IHk. apply list_elem_of_split in Hu as (l & r & ->). by constructor.
  - injection E as <- <-. apply Hf.
  - subst b. inversion Hl as [a f j' Hp|b [|]]; subst; [by inversion Hp|done|done].
  - done.
  - subst b. inversion Hj as [a f g' ? ? E Hg|g' ? ? _ Hg| |? ? ? [|]]; subst; [|by apply Hg|done|done]. injection E as -> ->. apply Hg.
  - apply elem_of_cons in Hu as [-> |Hu]; [by apply IH1|]. apply list_elem_of_singleton in Hu as ->. by apply IH2.
Qed.

(** ** Nothing is stuck *)

Definition ended (t : tree) : Prop := forall b, process t b -> b = Zombie \/ b = Gone.
Definition moves (t : tree) : Prop := exists o t', step t o t'.

Lemma can_act a f kids : (forall k, a <> Wait k) -> moves (Node (Shell a f) kids).
Proof.
  intros Hw. enough (exists o b ks, own (Shell a f) kids o b ks) as (o & b & ks & H) by (exists o, (Node b ks); by constructor).
  destruct a; try (by destruct (Hw a)); do 3 eexists; first [apply (own_fork 0) | econstructor; fail].
Qed.
Lemma kid_moves b t kids : t ∈ kids -> moves t -> moves (Node b kids).
Proof. intros (l & r & ->)%list_elem_of_split (o & t' & H). exists o. eexists. by apply step_kid. Qed.
Lemma ended_node b kids : b = Zombie \/ b = Gone -> (forall t, t ∈ kids -> ended t) -> ended (Node b kids).
Proof. intros Hb Hk b' [-> |(t & Ht & Hp)]%process_inv; [done|]. by apply (Hk t Ht). Qed.
Lemma ended_root t : ended t -> gone t \/ exists zs, t = Node Zombie zs.
Proof. destruct t as [b ks]. intros H. destruct (H b) as [-> | ->]; [constructor| |by left]. right. eauto. Qed.

(** A process that waits while its children have ended. *)
Lemma wait_moves k f kids : (forall t, t ∈ kids -> ended t) -> moves (Node (Shell (Wait k) f) kids).
Proof.
  intros Hk. assert (Forall gone kids \/ exists l zs r, kids = l ++ Node Zombie zs :: r) as [H|(l & zs & r & ->)].
  { induction kids as [|t kids IH]; [by left|]. destruct (ended_root t) as [Hg|(zs & ->)]; [apply Hk; by left| |right; by exists [], zs, kids].
    destruct IH as [IH|(l & zs & r & ->)]; [intros u Hu; apply Hk; by right|left; by constructor|right; by exists (t :: l), zs, r]. }
  - exists None. eexists. constructor. by constructor.
  - exists None. eexists. constructor. constructor.
Qed.

Lemma progress t j : sim t j -> moves t \/ ended t /\ over j = true.
Proof.
  induction 1 as [a f j Hj|argv|b Hb|b t kids p j Hg Ht IHt Hk IHk|a f t p j Ht IH Hj Hf|b t p j Ht IH Hl|n r f t p Ht IH Hr Hf|b t1 t2 p q H1 IH1 H2 IH2 Hj].
  - left. apply can_act. intros k ->. by apply fits_no_wait in Hj.
  - left. exists (Some (CEnd argv, Some 0%nat)). eexists. constructor. constructor.
  - right. split; [|done]. apply ended_node; [done|]. by intros t ?%elem_of_nil.
  - destruct IHt as [IHt|[IHt Ot]]; [left; apply (kid_moves _ t); [by left|done]|]. destruct IHk as [(o & t' & Hs)|[IHk Ok]].
    + left. exists o. apply step_inv in Hs as [(b' & ks & -> & Ho)|(l & u & r & u' & -> & Hu & ->)]; eexists; [constructor; by apply own_future|].
      rewrite app_comm_cons. by apply step_kid.
    + right. cbn [over]. rewrite Ot, Ok. split; [|done]. apply ended_node; [apply IHk; constructor|]. intros u [-> |Hu]%elem_of_cons; [done|].
      intros b' Hb'. apply IHk. apply list_elem_of_split in Hu as (l & r & ->). by constructor.
  - left. destruct IH as [IH|[IH _]]; [apply (kid_moves _ t); [by left|done]|]. apply wait_moves. by intros u ->%list_elem_of_singleton.
  - destruct IH as [IH|[IH Op]]; [left; apply (kid_moves _ t); [by left|done]|]. destruct Hl as [a f j Hp|b Hb].
    + left. apply can_act. by destruct Hp.
    + right. cbn [over]. rewrite Op. split; [|done]. apply ended_node; [done|]. by intros u ->%list_elem_of_singleton.
  - left. by apply can_act.
  - destruct IH1 as [IH1|[IH1 O1]]; [left; apply (kid_moves _ t1); [by left|done]|]. destruct IH2 as [IH2|[IH2 O2]]; [left; apply (kid_moves _ t2); [by right; left|done]|].
    assert (forall u, u ∈ [t1; t2] -> ended u) as Hu by (intros u [-> | ->%list_elem_of_singleton]%elem_of_cons; done).
    destruct Hj as [a f g t1 t2 E Hg|g t1 t2 Hor Hg|g t1 t2 G1 G2|b t1 t2 Hb G1 G2].
    + left. destruct a; try (by apply can_act). by apply wait_moves.
    + left. by apply wait_moves.
    + left. by apply can_act.
    + right. cbn [over]. rewrite O1, O2. split; [|done]. by apply ended_node.
Qed.
End sim.

(** ** Every run ends *)

Definition later (t' t : tree) : Prop := exists o, step t o t'.
Definition kid_later (ks' ks : list tree) : Prop := exists l t r t', ks = l ++ t :: r /\ later t' t /\ ks' = l ++ t' :: r.
Abbreviation halts := (Acc later).

Lemma kids_cons t ks : halts t -> Acc kid_later ks -> Acc kid_later (t :: ks).
Proof.
  intros Ht. revert ks. induction Ht as [t _ IHt]. intros ks Hk. induction Hk as [ks Hk IHk]. constructor. intros ks' (l & u & r & u' & E & Hu & ->).
  destruct l as [|t0 l]; injection E as -> ->; cbn [app].
  - apply IHt; [done|]. by constructor.
  - apply IHk. by exists l, u, r, u'.
Qed.
Lemma kids_end ks : Forall halts ks -> Acc kid_later ks.
Proof.
  induction 1 as [|t ks Ht _ IH]; [|by apply kids_cons]. constructor. intros ks' (l & u & r & u' & E & _). by destruct l.
Qed.
Lemma node_halts b ks : (forall ks o b' ks', Forall halts ks -> own b ks o b' ks' -> halts (Node b' ks')) -> Forall halts ks -> halts (Node b ks).
Proof.
  intros Hb Hk. pose proof (kids_end ks Hk) as Ha. induction Ha as [ks _ IH]. constructor. intros t' (o & [(b' & ks' & -> & Ho)|(l & u & r & u' & -> & Hu & ->)]%step_inv).
  - by eapply Hb.
  - apply Forall_app in Hk as [Hl [Hu' Hr]%Forall_cons]. apply IH; [by exists l, u, r, u'; split_and!; [|exists o|]|]. apply Forall_app. split; [done|]. constructor; [|done]. eapply Acc_inv; [done|]. by exists o.
Qed.
Lemma halts_kids b ks : halts (Node b ks) -> Forall halts ks.
Proof.
  remember (Node b ks) as t eqn:E. intros Ht. revert b ks E. induction Ht as [t Ht IH]. intros b ks ->. apply Forall_forall. intros u (l & r & ->)%list_elem_of_split.
  constructor. intros u' (o & Hu). assert (later (Node b (l ++ u' :: r)) (Node b (l ++ u :: r))) as Hl by (exists o; by constructor).
  pose proof (IH _ Hl b _ eq_refl) as H. by apply Forall_app in H as [_ [H _]%Forall_cons].
Qed.
Lemma dead_halts b ks : b = Zombie \/ b = Gone -> Forall halts ks -> halts (Node b ks).
Proof. intros Hb. apply node_halts. intros ks' o b' ks'' _ Ho. destruct Hb as [-> | ->]; inversion Ho. Qed.
Lemma shell_halts a f ks : Forall halts ks -> halts (Node (Shell a f) ks).
Proof.
  revert f ks. induction a as [|path argv a IH|path mode k IH|fd a IH|fd a IH|k IH|k IH|a IH|dir k IH|fd fmt args a IH]; intros f ks; apply node_halts; clear ks; intros ks o b ks' Hk Ho.
  1, 2, 3, 4, 5, 6, 9, 10: inversion Ho; subst; eauto using dead_halts.
  - apply node_halts; [|done]. clear. intros ks o b ks' Hk Ho. inversion Ho; subst. apply dead_halts; [by left|done].
  - inversion Ho; subst; [|auto]. apply IH. apply Forall_app. split; [done|]. constructor; [|done]. apply IH. constructor.
  - apply own_Wait in Ho as (-> & -> & [(l & zs & r & -> & ->)|[_ ->]]); [|auto]. apply IH. apply Forall_app in Hk as [Hl [Hz Hr]%Forall_cons]. apply Forall_app.
    split; [done|]. constructor; [|done]. apply dead_halts; [by right|]. by eapply halts_kids.
Qed.

(** ** The shell *)

Lemma steps_sim f0 t es t' j : steps t es t' -> sim f0 t j -> exists j', jsteps j es j' /\ sim f0 t' j'.
Proof.
  intros Hs. revert j. induction Hs as [t|t t' es t'' H _ IH|t e t' es t'' H _ IH]; intros j S.
  - exists j. split; [constructor|done].
  - destruct (simulation f0 t j None t' S H) as (j' & -> & S'). by apply IH.
  - destruct (simulation f0 t j _ t' S H) as (j' & F & S'). destruct (IH j' S') as (j'' & J & S''). exists j''. split; [by econstructor|done].
Qed.

(** C8. The shell does what its commands say.  Started with its three descriptors, [main] - through the parser,
    [runcmd], and the calls of [close], [open], [dup], [pipe], [fork], [exec] and [wait] it makes - behaves, however the
    kernel interleaves the processes and whichever of their calls fail, as its job: each line's programs are run with the arguments of the
    line and precisely the open files of the command (a redirection replaces descriptor 0 or 1, a pipe joins
    descriptor 1 of the left to descriptor 0 of the right); the right side of [;] is started when the left one has
    ended, both sides of a pipe run together, nobody waits for a command in the background, and the next prompt comes when
    both sides of a pipe have ended; the failures are reported, the parser's included.  A process that waits holds no descriptor
    but the shell's own besides 0 and 1 - both ends of every pipe are closed in it -, so nothing leaks.  Every run ends, and
    none gets stuck before every process has exited and the whole session is done. *)
Theorem shell_session lines f : std f -> Forall is_text lines ->
  let start := Node (Shell (sh_main lines) f) [] in
  Acc later start /\
  forall es t, steps start es t -> exists j,
    jsteps (main_job lines f) es j /\
    (forall k g, process t (Shell (Wait k) g) -> agrees f g) /\
    (moves t \/ ended t /\ over j = true).
Proof.
  intros Hf Hl start. split; [by apply shell_halts|]. intros es t Hs.
  destruct (steps_sim f start es t (main_job lines f) Hs) as (j & J & S); [by apply sim_core, core_main|].
  exists j. split; [done|]. split; [intros k g; by eapply sim_tidy|by eapply progress].
Qed.

(** A run can be continued until nothing moves. *)
Lemma run_to_end t (Q : list event -> tree -> Prop) : Acc later t -> (forall es t', steps t es t' -> moves t' \/ Q es t') -> exists es t', steps t es t' /\ Q es t'.
Proof.
  intros Ht. revert Q. induction Ht as [t _ IH]. intros Q HQ. destruct (HQ [] t) as [(o & t' & H)|H]; [constructor| |exists [], t; split; [constructor|done]].
  destruct (IH t' (ex_intro _ o H) (fun es => Q (option_list o ++ es))) as (es & t'' & Hs & Hq).
  - intros es t'' Hs. apply HQ. destruct o; by econstructor.
  - exists (option_list o ++ es), t''. split; [|done]. destruct o; by econstructor.
Qed.

(** "cat < f | wc", a command in the background, and a line that is not a command. *)
Definition demo_fds : gmap Z obj := {[ 0 := OConsole; 1 := OConsole; 2 := OConsole ]}.
Definition demo_lines : list (list Z) := [str "cat < f | wc" ++ [nl]; str "a & b" ++ [nl]; str "a )" ++ [nl]].
Lemma shell_session_witness :
  exists es t j, steps (Node (Shell (sh_main demo_lines) demo_fds) []) es t /\ ended t /\ jsteps (main_job demo_lines demo_fds) es j /\ over j = true.
Proof.
  destruct (shell_session demo_lines demo_fds) as [Ha Hs].
  - unfold std. split_and!; try (by vm_compute; eexists); by vm_compute.
  - repeat constructor; by vm_compute.
  - destruct (run_to_end _ (fun es t => exists j, ended t /\ jsteps (main_job demo_lines demo_fds) es j /\ over j = true) Ha) as (es & t & Hr & j & H1 & H2 & H3).
    + intros es t Hr. destruct (Hs es t Hr) as (j & J & _ & [Hm|[He Ho]]); [by left|right; by exists j].
    + by exists es, t, j.
Defined.
