(* ===== verification/Umalloc.v ===== *)
(** The memory allocator of user programs: umalloc.c.

    Free blocks are on a circular list through their own headers ([ptr] and [size], eight bytes,
    the size counted in headers), which starts at the static header [base].  The heap grows by
    [sbrk]; whether the kernel grants a request is the parameter [grow].  The loops take as fuel
    the number of headers they may visit. *)

From Stdlib Require Import ZArith Lia.
From stdpp Require Import base tactics option gmap sets strings numbers list.
From S2P Require Import Prelude Mem.
Open Scope Z_scope.

Record heap := mkHeap { umem : mem; freep : Z; brk : Z }.

Definition HDR : Z := 8.
Definition set_umem v s := mkHeap v (freep s) (brk s).
Definition set_freep v s := mkHeap (umem s) v (brk s).
Definition set_brk v s := mkHeap (umem s) (freep s) v.

(** The fields of a header. *)
Definition get_ptr (p : Z) : M heap Z := gets (fun s => ld32 (umem s) p).
Definition get_size (p : Z) : M heap Z := gets (fun s => ld32 (umem s) (p + 4)).
Definition put_ptr (p v : Z) : M heap unit := modify (fun s => set_umem (st32 (umem s) p v) s).
Definition put_size (p v : Z) : M heap unit := modify (fun s => set_umem (st32 (umem s) (p + 4) v) s).

(** [p + n] of a [Header *]. *)
Definition hdr_add (p n : Z) : Z := u32 (p + HDR * n).

Section umalloc.
Context (base : Z) (grow : Z -> Z -> bool).

Definition sbrk (n : Z) : M heap Z := fun s =>
  if grow (brk s) n then Ret (brk s) (set_brk (brk s + n) s) else Ret (-1) s.

(** The loop of [free]. *)
Fixpoint free_scan (fuel : nat) (bp p : Z) : M heap Z :=
  nx <- get_ptr p ;;
  if (p <? bp) && (bp <? nx) then ret p
  else if (nx <=? p) && ((p <? bp) || (bp <? nx)) then ret p
  else match fuel with
       | O => nofuel
       | S k => free_scan k bp nx
       end.

(** [if (x + x->s.size == nx) { x->s.size += nx->s.size; x->s.ptr = nx->s.ptr; } else x->s.ptr = nx;],
    which [free] does with [bp] and the header after it, then with [p] and [bp]. *)
Definition link_join (x nx : Z) : M heap unit :=
  sz <- get_size x ;;
  if hdr_add x sz =? nx then
    t <- get_size nx ;;
    put_size x (sz + t) ;;
    nn <- get_ptr nx ;;
    put_ptr x nn
  else put_ptr x nx.

Definition free (fuel : nat) (ap : Z) : M heap unit :=
  let bp := ap - HDR in
  p <- gets freep ;;
  p <- free_scan fuel bp p ;;
  nx <- get_ptr p ;;
  link_join bp nx ;;
  link_join p bp ;;
  modify (set_freep p).

Definition morecore (fuel : nat) (nu : Z) : M heap Z :=
  let nu := if nu <? 4096 then 4096 else nu in
  p <- sbrk (s32 (u32 (nu * HDR))) ;;
  if p =? -1 then ret 0 else
  put_size p nu ;;
  free fuel (p + HDR) ;;
  gets freep.

(** The body of [if (p->s.size >= nunits)]. *)
Definition carve (nunits prevp p : Z) : M heap Z :=
  sz <- get_size p ;;
  p <- (if sz =? nunits then
          nx <- get_ptr p ;;
          put_ptr prevp nx ;;
          ret p
        else
          put_size p (sz - nunits) ;;
          let p := hdr_add p (sz - nunits) in
          put_size p nunits ;;
          ret p) ;;
  modify (set_freep prevp) ;;
  ret (p + HDR).

Fixpoint malloc_loop (fuel : nat) (nunits prevp p : Z) : M heap Z :=
  sz <- get_size p ;;
  if nunits <=? sz then carve nunits prevp p else
  match fuel with
  | O => nofuel
  | S k =>
      fp <- gets freep ;;
      if p =? fp then
        p <- morecore k nunits ;;
        if p =? 0 then ret 0 else
        nx <- get_ptr p ;;
        malloc_loop k nunits p nx
      else
        nx <- get_ptr p ;;
        malloc_loop k nunits p nx
  end.

Definition units (nbytes : Z) : Z := u32 (u32 (nbytes + HDR - 1) / HDR + 1).

Definition malloc (fuel : nat) (nbytes : Z) : M heap Z :=
  let nunits := units nbytes in
  fp <- gets freep ;;
  when (fp =? 0) (put_ptr base base ;; modify (set_freep base) ;; put_size base 0) ;;
  prevp <- gets freep ;;
  p <- get_ptr prevp ;;
  malloc_loop fuel nunits prevp p.
End umalloc.
