(* ===== verification/UmallocFacts.v ===== *)
(** The allocator of umalloc.c is right.

    [heap_ok s al fl]: the blocks in use are [al], the free blocks are [fl], in the order of their
    addresses and never adjacent; the circular list runs through [base] and [fl]; no two blocks
    overlap, and all are aligned to the size of a header.  A block is its address and its size in headers, its own header included. *)

From Stdlib Require Import ZArith Lia Sorted.
From stdpp Require Import base tactics option gmap sets strings numbers list.
From S2P Require Import Prelude Mem Umalloc.
Open Scope Z_scope.

Abbreviation blk := (Z * Z)%type.
Definition stop (x : blk) : Z := x.1 + HDR * x.2.
Definition apart (x y : blk) : Prop := stop x <= y.1 \/ stop y <= x.1.

(** * Lists of headers *)

(** Where a list that ends at [last] starts. *)
Definition start (last : Z) (l : list blk) : Z := match l with [] => last | x :: _ => x.1 end.

Fixpoint chain (m : mem) (last : Z) (l : list blk) : Prop :=
  match l with
  | [] => True
  | x :: l' => ld32 m x.1 = start last l' /\ ld32 m (x.1 + 4) = x.2 /\ chain m last l'
  end.

Lemma chain_app m last l1 l2 : chain m last (l1 ++ l2) <-> chain m (start last l2) l1 /\ chain m last l2.
Proof.
  induction l1 as [|x l1 IH]; cbn [app chain]; [tauto|]. rewrite IH.
  assert (start last (l1 ++ l2) = start (start last l2) l1) as -> by (by destruct l1). tauto.
Qed.

Definition same_hdr (m m' : mem) (a : Z) : Prop := ld32 m' a = ld32 m a /\ ld32 m' (a + 4) = ld32 m (a + 4).
Lemma chain_ext m m' last l : (forall x, x ∈ l -> same_hdr m m' x.1) -> chain m last l -> chain m' last l.
Proof.
  induction l as [|x l IH]; [done|]. cbn [chain]. intros H (H1 & H2 & H3).
  destruct (H x) as [E1 E2]; [by left|]. rewrite E1, E2. split; [done|]. split; [done|]. apply IH; [|done]. intros y Hy. apply H. by right.
Qed.
Lemma chain_lookup m last l j x : chain m last l -> l !! j = Some x ->
  ld32 m x.1 = match l !! S j with Some y => y.1 | None => last end /\ ld32 m (x.1 + 4) = x.2.
Proof.
  revert j. induction l as [|y l IH]; intros j Hc Hj; [done|]. destruct Hc as (H1 & H2 & H3). destruct j as [|j].
  - injection Hj as ->. split; [|done]. rewrite H1. by destruct l.
  - by apply IH.
Qed.

(** Writing a header leaves the headers at a distance. *)
Definition far (a b : Z) : Prop := a + HDR <= b \/ b + HDR <= a.
Lemma st_ptr_far m a v b : far a b -> same_hdr m (st32 m a v) b.
Proof. unfold far, HDR. intros H. split; apply ld32_st32_ne; lia. Qed.
Lemma st_size_far m a v b : far a b -> same_hdr m (st32 m (a + 4) v) b.
Proof. unfold far, HDR. intros H. split; apply ld32_st32_ne; lia. Qed.
Lemma same_trans m1 m2 m3 a : same_hdr m1 m2 a -> same_hdr m2 m3 a -> same_hdr m1 m3 a.
Proof. intros [] []. split; congruence. Qed.

(** Only the header at [a] has changed. *)
Definition only (m m' : mem) (a : Z) : Prop :=
  (forall b, far a b -> same_hdr m m' b) /\ forall x, ~ (a <= x < a + HDR) -> ld8 m' x = ld8 m x.
Lemma only_ptr m a v : only m (st32 m a v) a.
Proof.
  split; [intros b; apply st_ptr_far|]. intros x Hx. rewrite ld8_st32. unfold in_range, HDR in *.
  destruct (Z.leb_spec a x), (Z.ltb_spec x (a + 4)); simpl; try done; lia.
Qed.
Lemma only_size m a v : only m (st32 m (a + 4) v) a.
Proof.
  split; [intros b; apply st_size_far|]. intros x Hx. rewrite ld8_st32. unfold in_range, HDR in *.
  destruct (Z.leb_spec (a + 4) x), (Z.ltb_spec x (a + 4 + 4)); simpl; try done; lia.
Qed.
Lemma only_trans m1 m2 m3 a : only m1 m2 a -> only m2 m3 a -> only m1 m3 a.
Proof.
  intros [A B] [A' B']. split; [intros b Hb; eapply same_trans; eauto|]. intros x Hx. by rewrite B', B.
Qed.

(** * Joining neighbours *)

Definition join (x : blk) (l : list blk) : list blk :=
  match l with
  | y :: l' => if stop x =? y.1 then (x.1, x.2 + y.2) :: l' else x :: l
  | [] => [x]
  end.

(** Bytes inside one of the blocks. *)
Definition covers (l : list blk) (a : Z) : Prop := exists y, y ∈ l /\ y.1 <= a < stop y.

Lemma join_head x l : exists h t, join x l = h :: t /\ h.1 = x.1 /\ (Forall (fun y => 0 < y.2) l -> x.2 <= h.2).
Proof.
  destruct l as [|y l]; cbn [join]; [by exists x, []|]. destruct (stop x =? y.1); [|by exists x, (y :: l)].
  exists (x.1, x.2 + y.2), l. split; [done|]. split; [done|]. intros [H _]%Forall_cons. cbn [snd]. lia.
Qed.
Lemma join_Forall (P : blk -> Prop) x l :
  (forall u v, P u -> P v -> stop u = v.1 -> P (u.1, u.2 + v.2)) -> P x -> Forall P l -> Forall P (join x l).
Proof.
  intros Hj Hx Hl. destruct l as [|y l]; cbn [join]; [by repeat constructor|]. apply Forall_cons in Hl as [Hy Hl].
  destruct (Z.eqb_spec (stop x) y.1); [|by repeat constructor]. constructor; [by apply Hj|done].
Qed.
Lemma join_covers x l a : 0 <= x.2 -> Forall (fun y => 0 < y.2) l -> covers (join x l) a <-> (x.1 <= a < stop x) \/ covers l a.
Proof.
  intros Hx Hl. destruct l as [|y l]; cbn [join].
  - unfold covers. split; [intros (z & ->%list_elem_of_singleton & H); by left|]. intros [H|(z & Hz & _)]; [|by apply elem_of_nil in Hz].
    exists x. split; [by apply list_elem_of_singleton|done].
  - apply Forall_cons in Hl as [Hy _]. destruct (Z.eqb_spec (stop x) y.1) as [E|E]; unfold covers, stop, HDR in *.
    + split.
      * intros (z & [->|Hz]%elem_of_cons & H); cbn [fst snd] in H; [|right; exists z; split; [by right|done]].
        destruct (decide (a < x.1 + 8 * x.2)); [left; lia|]. right. exists y. split; [by left|lia].
      * intros [H|(z & [->|Hz]%elem_of_cons & H)]; [| |exists z; split; [by right|done]];
          exists (x.1, x.2 + y.2); (split; [by left|cbn [fst snd]; lia]).
    + split.
      * intros (z & [->|Hz]%elem_of_cons & H); [by left|]. right. by exists z.
      * intros [H|(z & Hz & H)]; [exists x; split; [by left|done]|exists z; split; [by right|done]].
Qed.
Lemma join_sorted x l : 0 <= x.2 -> Forall (fun y => 0 < y.2 /\ stop x <= y.1) l -> StronglySorted (fun x y => stop x < y.1) l ->
  StronglySorted (fun x y => stop x < y.1) (join x l).
Proof.
  intros Hx Hl Hs. destruct l as [|y l]; cbn [join]; [by repeat constructor|]. apply Forall_cons in Hl as [[Hy0 Hy] Hl].
  apply StronglySorted_inv in Hs as [Hs Hyl]. destruct (Z.eqb_spec (stop x) y.1) as [E|E].
  - constructor; [done|]. eapply Forall_impl; [exact Hyl|]. unfold stop, HDR in *. cbn [fst snd]. intros z Hz. lia.
  - constructor; [by constructor|]. constructor; [lia|]. eapply Forall_impl; [exact Hyl|]. unfold stop, HDR in *. intros z Hz. lia.
Qed.

(** [link_join] on a header in front of a list. *)
Lemma start_range last l : 0 <= last < 2 ^ 31 -> Forall (fun y => 0 < y.2 /\ stop y < 2 ^ 31 /\ 0 <= y.1) l -> 0 <= start last l < 2 ^ 31.
Proof. intros Hb Hl. destruct l as [|y l]; [done|]. apply Forall_cons in Hl as [Hy _]. cbn [start]. unfold stop, HDR in Hy. lia. Qed.

Lemma link_join_spec s last x l :
  chain (umem s) last l -> ld32 (umem s) (x.1 + 4) = x.2 -> (forall y, y ∈ l -> far x.1 y.1) -> (l = [] -> stop x <> last) ->
  0 <= last < 2 ^ 31 -> 0 <= x.1 -> 0 <= x.2 -> stop x < 2 ^ 31 -> Forall (fun y => 0 < y.2 /\ stop y < 2 ^ 31 /\ 0 <= y.1) l ->
  exists m', run (link_join x.1 (start last l) s) = ROk tt (set_umem m' s) /\ chain m' last (join x l) /\ only (umem s) m' x.1.
Proof.
  intros Hc Hx Hf Hne Hb H0 H1 H2 Hl. unfold link_join, get_size, get_ptr, put_ptr, put_size. mrun. rewrite Hx. unfold hdr_add.
  assert (u32 (x.1 + HDR * x.2) = stop x) as -> by (apply u32_small; unfold stop, HDR in *; lia).
  pose proof (start_range last l Hb Hl) as Hst.
  assert (exists m', run (modify (fun s => set_umem (st32 (umem s) x.1 (start last l)) s) s) = ROk tt (set_umem m' s) /\
    chain m' last (x :: l) /\ only (umem s) m' x.1) as Hlink.
  { eexists. split; [reflexivity|]. split; [|apply only_ptr]. cbn [chain]. rewrite ld32_st32_eq, ld32_st32_ne by lia.
    split; [apply u32_small; lia|]. split; [done|]. eapply chain_ext; [|exact Hc]. intros y Hy. apply st_ptr_far. by apply Hf. }
  destruct l as [|y l]; cbn [start join] in *.
  { destruct (Z.eqb_spec (stop x) last); [by destruct Hne|]. exact Hlink. }
  destruct (Z.eqb_spec (stop x) y.1) as [E|E]; [|exact Hlink]. clear Hlink. cbn [chain] in Hc. destruct Hc as (Hn & Hs & Hc).
  apply Forall_cons in Hl as [(Hy1 & Hy2 & Hy3) Hl]. pose proof (Hf y (list_elem_of_here _ _)) as Hfy. unfold far, HDR in Hfy. mrun.
  eexists. split; [reflexivity|]. split; [|eapply only_trans; [apply only_size|apply only_ptr]]. cbn [umem set_umem chain fst snd].
  rewrite (ld32_st32_ne _ _ y.1) by lia. rewrite Hn, Hs. rewrite ld32_st32_eq, ld32_st32_ne, ld32_st32_eq by lia.
  split; [apply u32_small; pose proof (start_range last l Hb Hl); lia|]. split; [apply u32_small; unfold stop, HDR in *; lia|].
  eapply chain_ext; [|exact Hc]. intros z Hz. eapply same_trans; [apply st_size_far|apply st_ptr_far]; apply Hf; by right.
Qed.

(** * The heap *)

Section facts.
Context (base : Z) (grow : Z -> Z -> bool).

(** The kernel lets a process grow only inside the user half of memory. *)
Context (grow_user : forall b n, grow b n = true -> b + n < 2 ^ 31).

Definition nodes (fl : list blk) : list blk := (base, 0) :: fl.

Definition placed (s : heap) (x : blk) : Prop := base + HDR <= x.1 /\ 0 < x.2 /\ stop x <= brk s.

Record heap_ok (s : heap) (al fl : list blk) : Prop := {
  h_chain : chain (umem s) base (nodes fl);
  h_sorted : StronglySorted (fun x y => stop x < y.1) fl;
  h_used : Forall (fun x => ld32 (umem s) (x.1 + 4) = x.2) al;
  h_placed : Forall (placed s) (al ++ fl);
  h_apart : forall x y, x ∈ al -> y ∈ fl -> apart x y;
  h_nodup : NoDup al;
  h_disjoint : forall x y, x ∈ al -> y ∈ al -> x <> y -> apart x y;
  h_freep : freep s ∈ (nodes fl).*1;
  h_room : 0 < base /\ base + HDR <= brk s < 2 ^ 31;
  h_aligned : (HDR | brk s) /\ Forall (fun x => (HDR | x.1)) (al ++ fl)
}.

(** Blocks of the heap are headers at a distance of each other. *)
Lemma apart_far s x y : placed s x -> placed s y -> apart x y -> far x.1 y.1.
Proof. unfold placed, apart, far, stop, HDR. intros (_ & Hx & _) (_ & Hy & _) [H|H]; [left|right]; lia. Qed.
Lemma base_far s x : placed s x -> far base x.1.
Proof. unfold placed, far. intros (H & _). by left. Qed.

Lemma sorted_lookup fl i j x y : StronglySorted (fun x y => stop x < y.1) fl -> fl !! i = Some x -> fl !! j = Some y -> (i < j)%nat -> stop x < y.1.
Proof.
  intros Hs. revert i j. induction Hs as [|z l Hl IH Hz]; intros i j Hi Hj Hij; [done|]. destruct i as [|i], j as [|j]; try lia.
  - injection Hi as ->. rewrite Forall_forall in Hz. apply Hz. apply (list_elem_of_lookup_2 l j). exact Hj.
  - apply (IH i j); [done|done|lia].
Qed.
Lemma sorted_app l1 l2 : StronglySorted (fun x y => stop x < y.1) (l1 ++ l2) <->
  StronglySorted (fun x y => stop x < y.1) l1 /\ StronglySorted (fun x y => stop x < y.1) l2 /\ forall x y, x ∈ l1 -> y ∈ l2 -> stop x < y.1.
Proof.
  induction l1 as [|z l1 IH]; cbn [app].
  - split; [|by intros (_ & H & _)]. intros H. split; [constructor|]. split; [done|]. set_solver.
  - split.
    + intros H. apply StronglySorted_inv in H as [H Hz]. apply IH in H as (H1 & H2 & H3). rewrite Forall_app in Hz. destruct Hz as [Hz1 Hz2].
      split; [by constructor|]. split; [done|]. intros x y [->|Hx]%elem_of_cons Hy; [|by apply H3]. rewrite Forall_forall in Hz2. by apply Hz2.
    + intros (H1 & H2 & H3). apply StronglySorted_inv in H1 as [H1 Hz]. constructor.
      * apply IH. split; [done|]. split; [done|]. intros x y Hx Hy. apply H3; [by right|done].
      * apply Forall_app. split; [done|]. apply Forall_forall. intros y Hy. apply H3; [by left|done].
Qed.

(** The header before an address that is in no free block. *)
Lemma split_before fl a : StronglySorted (fun x y => stop x < y.1) fl -> Forall (fun x => 0 <= x.2 /\ x.1 <> a) fl ->
  exists l1 l2, fl = l1 ++ l2 /\ (forall x, x ∈ l1 -> x.1 < a) /\ forall x, x ∈ l2 -> a < x.1.
Proof.
  intros Hs. induction Hs as [|z l Hl IH Hz]; intros Hne.
  { exists [], []. split; [done|]. set_solver. }
  apply Forall_cons in Hne as [[H0 Hz0] Hne]. destruct (decide (z.1 < a)).
  - destruct (IH Hne) as (l1 & l2 & -> & H1 & H2). exists (z :: l1), l2. split; [done|]. split; [|done].
    intros x [->|Hx]%elem_of_cons; [done|by apply H1].
  - exists [], (z :: l). split; [done|]. split; [set_solver|]. intros x [->|Hx]%elem_of_cons; [lia|].
    rewrite Forall_forall in Hz. pose proof (Hz x Hx) as H. unfold stop, HDR in H. lia.
Qed.

Section one.
Context (s : heap) (al fl : list blk) (OK : heap_ok s al fl).

Lemma fl_placed x : x ∈ fl -> placed s x.
Proof. intros Hx. pose proof (h_placed _ _ _ OK) as H. rewrite Forall_forall in H. apply H. set_solver. Qed.
Lemma al_placed x : x ∈ al -> placed s x.
Proof. intros Hx. pose proof (h_placed _ _ _ OK) as H. rewrite Forall_forall in H. apply H. set_solver. Qed.

Lemma nodes_order i j x y : nodes fl !! i = Some x -> nodes fl !! j = Some y -> (i < j)%nat -> x.1 < y.1.
Proof.
  intros Hi Hj Hij. destruct j as [|j]; [lia|]. change (fl !! j = Some y) in Hj. pose proof (fl_placed y (list_elem_of_lookup_2 _ _ _ Hj)) as (Hy & _).
  unfold HDR in *. destruct i as [|i]; [injection Hi as <-; cbn [fst]; lia|]. change (fl !! i = Some x) in Hi.
  pose proof (sorted_lookup fl i j x y (h_sorted _ _ _ OK) Hi Hj ltac:(lia)) as H.
  pose proof (fl_placed x (list_elem_of_lookup_2 _ _ _ Hi)) as (_ & Hx & _). unfold stop, HDR in H. lia.
Qed.

Section scan.
Context (bp : Z) (l1 l2 : list blk) (Efl : fl = l1 ++ l2).
Context (H1 : forall x, x ∈ l1 -> x.1 < bp) (H2 : forall x, x ∈ l2 -> bp < x.1) (Hb : base < bp).

Lemma before_or_after j x : nodes fl !! j = Some x -> if decide (j <= length l1)%nat then x.1 < bp else bp < x.1.
Proof.
  intros Hj. destruct j as [|j]; [injection Hj as <-; done|]. change (fl !! j = Some x) in Hj. rewrite Efl in Hj. case_decide.
  - rewrite lookup_app_l in Hj by lia. apply H1. by apply list_elem_of_lookup_2 in Hj.
  - rewrite lookup_app_r in Hj by lia. apply H2. by apply list_elem_of_lookup_2 in Hj.
Qed.

Definition next (j : nat) : Z := match nodes fl !! S j with Some y => y.1 | None => base end.

(** The loop of [free] stops exactly there. *)
Lemma scan_test j x : nodes fl !! j = Some x ->
  (x.1 <? bp) && (bp <? next j) || (next j <=? x.1) && ((x.1 <? bp) || (bp <? next j)) = bool_decide (j = length l1).
Proof.
  intros Hj. pose proof (before_or_after j x Hj) as Hx. pose proof (lookup_lt_Some _ _ _ Hj) as Hlt.
  assert (length (nodes fl) = S (length l1 + length l2)) as Hlen by (rewrite Efl; cbn; by rewrite length_app).
  unfold next. destruct (nodes fl !! S j) as [y|] eqn:Hy.
  - pose proof (before_or_after (S j) y Hy) as Hy'. pose proof (nodes_order j (S j) x y Hj Hy ltac:(lia)).
    destruct (Z.leb_spec y.1 x.1); [lia|]. cbn [andb]. rewrite orb_false_r.
    case_bool_decide; repeat case_decide; try lia; destruct (Z.ltb_spec x.1 bp), (Z.ltb_spec bp y.1); lia || done.
  - apply lookup_ge_None in Hy. assert (base <= x.1).
    { destruct j as [|j]; [injection Hj as <-; done|]. pose proof (nodes_order 0 (S j) (base, 0) x eq_refl Hj ltac:(lia)) as H. cbn [fst] in H. lia. }
    destruct (Z.ltb_spec bp base); [lia|]. rewrite andb_false_r, orb_false_r. cbn [orb].
    case_bool_decide; repeat case_decide; try lia; destruct (Z.ltb_spec x.1 bp), (Z.leb_spec base x.1); lia || done.
Qed.

(** How many headers are between node [j] and the one before [bp]. *)
Definition distance (j : nat) : nat := if decide (j <= length l1)%nat then length l1 - j else (length (nodes fl) - j + length l1)%nat.

Lemma free_scan_spec fuel j x pn : nodes fl !! j = Some x -> nodes fl !! length l1 = Some pn -> (distance j <= fuel)%nat ->
  run (free_scan fuel bp x.1 s) = ROk pn.1 s.
Proof.
  assert (length (nodes fl) = S (length l1 + length l2)) as Hlen by (rewrite Efl; cbn; by rewrite length_app).
  revert j x. induction fuel as [|k IH]; intros j x Hj Hp Hd; pose proof (lookup_lt_Some _ _ _ Hj) as Hlt;
    destruct (chain_lookup _ _ _ _ _ (h_chain _ _ _ OK) Hj) as [Hnx _]; fold (next j) in Hnx; cbn [free_scan]; unfold get_ptr; mrun; rewrite Hnx;
    pose proof (scan_test j x Hj) as Ht; destruct (bool_decide_reflect (j = length l1)) as [->|Hne].
  1, 3: rewrite Hj in Hp; injection Hp as <-; apply orb_true_iff in Ht as [->| ->]; [|destruct ((x.1 <? bp) && _)]; done.
  all: apply orb_false_iff in Ht as [-> ->]; unfold distance in Hd.
  - repeat case_decide; lia.
  - unfold next. destruct (nodes fl !! S j) as [y|] eqn:Hy.
    + apply (IH (S j) y); [done|done|]. pose proof (lookup_lt_Some _ _ _ Hy). unfold distance. repeat case_decide; lia.
    + apply lookup_ge_None in Hy. apply (IH 0%nat (base, 0)); [done|done|]. unfold distance. repeat case_decide; lia.
Qed.
End scan.

(** The bytes of the blocks [l] are the same. *)
Definition kept (l : list blk) (m m' : mem) : Prop := forall z a, z ∈ l -> z.1 <= a < stop z -> ld8 m' a = ld8 m a.

Lemma kept_only l m m' p : only m m' p -> (forall z, z ∈ l -> stop z <= p \/ p + HDR <= z.1) -> kept l m m'.
Proof. intros [_ H] Hd z a Hz Ha. apply H. destruct (Hd z Hz); lia. Qed.
Lemma kept_trans l m1 m2 m3 : kept l m1 m2 -> kept l m2 m3 -> kept l m1 m3.
Proof. intros A B z a Hz Ha. by rewrite (B z a), (A z a). Qed.
Lemma kept_size l m m' z : kept l m m' -> z ∈ l -> 0 < z.2 -> ld32 m' (z.1 + 4) = ld32 m (z.1 + 4).
Proof. intros H Hz H0. apply ld32_ext. intros i Hi. apply (H z); [done|]. unfold stop, HDR. lia. Qed.

Section free.
Context (x : blk) (al' : list blk) (Hal : al ≡ₚ x :: al').

Lemma x_used : x ∈ al.
Proof. rewrite Hal. by left. Qed.
Lemma rest_used z : z ∈ al' -> z ∈ al.
Proof. rewrite Hal. by right. Qed.
Lemma rest_apart z : z ∈ al' -> apart z x.
Proof.
  intros Hz. apply (h_disjoint _ _ _ OK); [by apply rest_used|apply x_used|]. intros ->.
  pose proof (h_nodup _ _ _ OK) as Hn. rewrite Hal in Hn. by apply NoDup_cons in Hn as [Hn _].
Qed.

(** A block of the heap: what joining needs. *)
Definition sane (y : blk) : Prop := placed s y /\ forall z, z ∈ al' -> apart z y.
Lemma sane_join u v : sane u -> sane v -> stop u = v.1 -> sane (u.1, u.2 + v.2).
Proof.
  unfold sane, placed, apart, stop, HDR. cbn [fst snd]. intros [Hu Hu'] [Hv Hv'] E. split; [lia|].
  intros z Hz. pose proof (al_placed z (rest_used z Hz)) as (_ & Hz0 & _). destruct (Hu' z Hz), (Hv' z Hz); lia.
Qed.
Lemma sane_fl y : y ∈ fl -> sane y.
Proof. intros Hy. split; [by apply fl_placed|]. intros z Hz. apply (h_apart _ _ _ OK); [by apply rest_used|done]. Qed.
Lemma sane_x : sane x.
Proof. split; [apply al_placed, x_used|apply rest_apart]. Qed.
Lemma sane_bounds y : sane y -> 0 < y.2 /\ stop y < 2 ^ 31 /\ 0 <= y.1.
Proof. intros [(H1 & H2 & H3) _]. pose proof (h_room _ _ _ OK). unfold HDR in *. lia. Qed.

Context (l1 l2 : list blk) (Efl : fl = l1 ++ l2).
Context (H1 : forall y, y ∈ l1 -> y.1 < x.1) (H2 : forall y, y ∈ l2 -> x.1 < y.1).

Lemma sane_l1 : Forall sane l1.
Proof. apply Forall_forall. intros y Hy. apply sane_fl. rewrite Efl. set_solver. Qed.
Lemma sane_l2 : Forall sane l2.
Proof. apply Forall_forall. intros y Hy. apply sane_fl. rewrite Efl. set_solver. Qed.
Lemma x_after y : y ∈ l2 -> stop x <= y.1.
Proof.
  intros Hy. destruct (h_apart _ _ _ OK x y x_used ltac:(rewrite Efl; set_solver)) as [H|H]; [done|].
  pose proof (H2 y Hy). pose proof (sane_fl y ltac:(rewrite Efl; set_solver)) as [(_ & Hy0 & _) _]. unfold stop, HDR in *. lia.
Qed.
Lemma x_before y : y ∈ l1 -> stop y <= x.1.
Proof.
  intros Hy. destruct (h_apart _ _ _ OK x y x_used ltac:(rewrite Efl; set_solver)) as [H|H]; [|done].
  pose proof (H1 y Hy). pose proof sane_x as [(_ & Hx0 & _) _]. unfold stop, HDR in *. lia.
Qed.

(** The free list with [x] in its place. *)
Definition inserted : list blk :=
  match last l1 with
  | None => join x l2
  | Some p => removelast l1 ++ join p (join x l2)
  end.

Lemma right_ok : Forall sane (join x l2) /\ StronglySorted (fun x y => stop x < y.1) (join x l2) /\
  forall y, y ∈ l1 -> Forall (fun z => stop y <= z.1) (join x l2).
Proof.
  pose proof (h_sorted _ _ _ OK) as Hs. rewrite Efl in Hs. apply sorted_app in Hs as (Hs1 & Hs2 & Hs12). split_and!.
  - apply join_Forall; [apply sane_join|apply sane_x|apply sane_l2].
  - apply join_sorted; [pose proof (sane_bounds x sane_x); lia| |done]. apply Forall_forall. intros y Hy. split; [|by apply x_after].
    apply sane_bounds, sane_fl. rewrite Efl. set_solver.
  - intros y Hy. apply join_Forall; [done|by apply x_before|]. apply Forall_forall. intros z Hz. pose proof (Hs12 y z Hy Hz). lia.
Qed.

Lemma inserted_ok : Forall sane inserted /\ StronglySorted (fun x y => stop x < y.1) inserted.
Proof.
  destruct right_ok as (R1 & R2 & R3). unfold inserted. destruct (last l1) as [p|] eqn:El; [|done].
  apply last_Some in El as [l Hl]. assert (removelast l1 = l) as -> by (rewrite Hl; apply removelast_last).
  pose proof (h_sorted _ _ _ OK) as Hs. rewrite Efl, Hl in Hs. apply sorted_app in Hs as (Hs & _ & _). apply sorted_app in Hs as (Hs1 & _ & Hs3).
  pose proof sane_l1 as S1. rewrite Hl, Forall_app in S1. destruct S1 as [S1 Sp]. apply Forall_cons in Sp as [Sp _]. split.
  - apply Forall_app. split; [done|]. by apply join_Forall; [apply sane_join| |].
  - apply sorted_app. split; [done|]. split.
    + apply join_sorted; [pose proof (sane_bounds p Sp); lia| |done]. rewrite Forall_forall in R1. pose proof (R3 p ltac:(rewrite Hl; set_solver)) as R3'.
      rewrite Forall_forall in R3'. apply Forall_forall. intros y Hy. split; [by apply sane_bounds, R1|by apply R3'].
    + intros a b Ha Hb. pose proof (Hs3 a p Ha ltac:(set_solver)) as Hap.
      assert (Forall (fun z => p.1 <= z.1) (join p (join x l2))) as Hj.
      { apply join_Forall; [done|done|]. eapply Forall_impl; [apply (R3 p); rewrite Hl; set_solver|]. cbn beta. intros z Hz.
        pose proof (sane_bounds p Sp). unfold stop, HDR in Hz. lia. }
      rewrite Forall_forall in Hj. pose proof (Hj b Hb). lia.
Qed.

Lemma inserted_aligned : (HDR | x.1) -> Forall (fun y => (HDR | y.1)) fl -> Forall (fun y => (HDR | y.1)) inserted.
Proof.
  intros Hx Hl. rewrite Efl, Forall_app in Hl. destruct Hl as [A1 A2]. assert (Forall (fun y => (HDR | y.1)) (join x l2)) as A by (by apply join_Forall).
  unfold inserted. destruct (last l1) as [p|] eqn:El; [|done]. apply last_Some in El as [l Hl]. assert (removelast l1 = l) as -> by (rewrite Hl; apply removelast_last).
  rewrite Hl, Forall_app in A1. destruct A1 as [A1 Ap]. apply Forall_cons in Ap as [Ap _]. apply Forall_app. split; [done|]. by apply join_Forall.
Qed.

Lemma inserted_covers a : covers inserted a <-> covers fl a \/ x.1 <= a < stop x.
Proof.
  assert (forall l l' b, covers (l ++ l') b <-> covers l b \/ covers l' b) as Happ.
  { intros l l' b. unfold covers. split; [intros (y & [Hy|Hy]%elem_of_app & H); eauto|].
    intros [(y & Hy & H)|(y & Hy & H)]; exists y; (split; [set_solver|done]). }
  assert (forall l, Forall sane l -> Forall (fun y => 0 < y.2) l) as Hpos.
  { intros l H. eapply Forall_impl; [exact H|]. intros y Hy. by apply sane_bounds. }
  destruct right_ok as (R1 & _ & _). pose proof sane_l2 as S2. pose proof (sane_bounds x sane_x). rewrite Efl, Happ. unfold inserted.
  destruct (last l1) as [p|] eqn:El.
  - apply last_Some in El as [l Hl]. assert (removelast l1 = l) as -> by (rewrite Hl; apply removelast_last).
    pose proof sane_l1 as S1. rewrite Hl, Forall_app in S1. destruct S1 as [_ Sp]. apply Forall_cons in Sp as [Sp _].
    rewrite Happ, join_covers, join_covers, Hl, Happ by (auto || (pose proof (sane_bounds p Sp); lia) || lia).
    assert (covers [p] a <-> p.1 <= a < stop p) as ->; [|tauto].
    unfold covers. split; [by intros (y & ->%list_elem_of_singleton & Hy)|]. intros Hy. exists p. split; [by apply list_elem_of_singleton|done].
  - apply last_None in El as ->. rewrite join_covers by (auto || lia). unfold covers at 2. split; [tauto|].
    intros [[(y & Hy & _)|H']|H']; [by apply elem_of_nil in Hy|tauto|tauto].
Qed.

Lemma inserted_big : exists y, y ∈ inserted /\ y.1 <= x.1 /\ x.2 <= y.2.
Proof.
  assert (forall l, Forall sane l -> Forall (fun y => 0 < y.2) l) as Hpos.
  { intros l H. eapply Forall_impl; [exact H|]. intros y Hy. by apply sane_bounds. }
  destruct right_ok as (R1 & _ & _). destruct (join_head x l2) as (h & t & Ej & Eh & Hh). specialize (Hh (Hpos _ sane_l2)).
  unfold inserted. destruct (last l1) as [p|] eqn:El; rewrite Ej.
  - cbn [join]. apply last_Some in El as [l Hl]. assert (p.1 < x.1) by (apply H1; rewrite Hl; set_solver).
    pose proof sane_l1 as S1. rewrite Hl, Forall_app in S1. destruct S1 as [_ Sp]. apply Forall_cons in Sp as [Sp _]. apply sane_bounds in Sp.
    destruct (Z.eqb_spec (stop p) h.1).
    + exists (p.1, p.2 + h.2). cbn [fst snd]. split; [set_solver|lia].
    + exists h. split; [set_solver|lia].
  - exists h. split; [set_solver|lia].
Qed.

(** The header [p] that [free] links to. *)
Definition prev : blk := default (base, 0) (last l1).

Lemma prev_nodes : exists pre, nodes l1 = pre ++ [prev] /\ nodes fl = pre ++ prev :: l2 /\ length pre = length l1 /\
  nodes inserted = pre ++ join prev (join x l2).
Proof.
  unfold prev, inserted. destruct (last l1) as [p|] eqn:El.
  - apply last_Some in El as [l Hl]. exists ((base, 0) :: l). change (default (base, 0) (Some p)) with p.
    assert (removelast l1 = l) as -> by (rewrite Hl; apply removelast_last). rewrite Efl, Hl. unfold nodes. rewrite <- app_assoc, length_app.
    cbn [app length]. split_and!; try done. lia.
  - apply last_None in El as El'. exists []. rewrite Efl, El'. cbn [app length]. split_and!; try done.
    destruct (join_head x l2) as (h & t & -> & Eh & _). change (default (base, 0) None) with (base, 0). unfold nodes. cbn [join]. unfold stop at 1. cbn [fst snd].
    destruct (Z.eqb_spec (base + HDR * 0) h.1) as [E|]; [|done]. pose proof sane_x as [(Hx & _) _]. unfold HDR in *. lia.
Qed.

Lemma prev_cases : prev = (base, 0) \/ prev ∈ l1.
Proof. unfold prev. destruct (last l1) as [p|] eqn:El; [right|by left]. apply last_Some in El as [l ->]. set_solver. Qed.
Lemma prev_facts : 0 <= prev.1 /\ 0 <= prev.2 /\ stop prev < 2 ^ 31 /\ far x.1 prev.1 /\ (forall z, z ∈ al' -> stop z <= prev.1 \/ prev.1 + HDR <= z.1).
Proof.
  pose proof (h_room _ _ _ OK) as [Hb1 Hb2]. pose proof sane_x as [Px _]. destruct prev_cases as [->|Hp].
  - unfold stop. cbn [fst snd]. unfold placed, far, HDR in *. split_and!; try lia. intros z Hz. pose proof (al_placed z (rest_used z Hz)) as (H & _).
    unfold HDR in H. lia.
  - pose proof (Forall_forall sane l1) as [F _]. pose proof (F sane_l1 prev Hp) as Sp. destruct (sane_bounds prev Sp) as (B1 & B2 & B3).
    pose proof (x_before prev Hp). split_and!; try lia; [right; unfold stop, HDR in *; lia|]. intros z Hz. destruct Sp as [_ Sp]. destruct (Sp z Hz) as [H'|H']; [by left|right].
    unfold stop, HDR in *. lia.
Qed.

Lemma free_linked fuel j : nodes fl !! j = Some (freep s, (nodes fl !!! j).2) -> (length fl <= fuel)%nat ->
  exists m', run (free fuel (x.1 + HDR) s) = ROk tt (mkHeap m' prev.1 (brk s)) /\ chain m' base (nodes inserted) /\ kept al' (umem s) m'.
Proof.
  intros Hj Hf. destruct prev_nodes as (pre & E1 & E2 & Hlen & E3). destruct prev_facts as (P0 & P1 & P2 & P3 & P4).
  destruct right_ok as (R1 & _ & R3). pose proof (h_room _ _ _ OK) as [Hb1 Hb2]. pose proof sane_x as Sx. pose proof (sane_bounds x Sx) as (X1 & X2 & X3).
  assert (0 <= base < 2 ^ 31) as Hbase by (unfold HDR in *; lia).
  assert (base < x.1) as Hbx by (destruct Sx as [(H & _) _]; unfold HDR in H; lia).
  assert (forall l, Forall sane l -> Forall (fun y => 0 < y.2 /\ stop y < 2 ^ 31 /\ 0 <= y.1) l) as Hbd.
  { intros l H. eapply Forall_impl; [exact H|]. intros y Hy. by apply sane_bounds. }
  pose proof (h_chain _ _ _ OK) as Hc. rewrite E2 in Hc. apply chain_app in Hc as [Hc1 Hc2]. cbn [start chain] in Hc1, Hc2. destruct Hc2 as (Hnx & Hsz & Hc2).
  unfold free. replace (x.1 + HDR - HDR) with x.1 by lia. mrun.
  assert (run (free_scan fuel x.1 (freep s) s) = ROk prev.1 s) as ->; [apply (free_scan_spec x.1 l1 l2 Efl H1 H2 Hbx fuel j _ prev Hj)|]; cbn [rbind].
  { rewrite E2. rewrite lookup_app_r by lia. by rewrite Hlen, Nat.sub_diag. }
  { unfold distance. pose proof (lookup_lt_Some _ _ _ Hj) as Hlt. assert (length fl = length l1 + length l2)%nat by (by rewrite Efl, length_app).
    unfold nodes in *. cbn [length] in *. case_decide; lia. }
  unfold get_ptr. mrun. rewrite Hnx.
  destruct (link_join_spec s base x l2) as (m1 & L1 & C1 & O1); try done; try lia.
  { pose proof (h_used _ _ _ OK) as Hu. rewrite Forall_forall in Hu. apply Hu, x_used. }
  { intros y Hy. left. pose proof (x_after y Hy). unfold stop, HDR in *. lia. }
  { intros _. unfold stop, HDR in *. lia. }
  { by apply Hbd, sane_l2. }
  rewrite L1. cbn [rbind]. mrun. destruct O1 as [O1 O1'].
  assert (start base (join x l2) = x.1) as Est by (destruct (join_head x l2) as (h & t & -> & Eh & _); done).
  destruct (link_join_spec (set_umem m1 s) base prev (join x l2)) as (m2 & L2 & C2 & O2); cbn [umem set_umem]; try done; try lia.
  { destruct (O1 prev.1 P3) as [_ ->]. done. }
  { intros y Hy. rewrite Forall_forall in R1. pose proof (R1 y Hy) as [Py _]. destruct prev_cases as [->|Hp]; [by eapply base_far|].
    pose proof (R3 prev Hp) as R3'. rewrite Forall_forall in R3'. pose proof (R3' y Hy) as H'.
    pose proof sane_l1 as S1. rewrite Forall_forall in S1. destruct (sane_bounds prev (S1 _ Hp)) as (B1 & _). left. unfold stop, HDR in *. lia. }
  { destruct (join_head x l2) as (h & t & -> & _). done. }
  { by apply Hbd. }
  rewrite Est in L2. rewrite L2. cbn [rbind]. eexists. split; [reflexivity|]. rewrite E3. split.
  - apply chain_app. split; [|done]. destruct (join_head prev (join x l2)) as (h & t & -> & Eh & _). cbn [start]. rewrite Eh.
    eapply chain_ext; [|exact Hc1]. intros y Hy. apply list_elem_of_lookup in Hy as [i Hi]. pose proof (lookup_lt_Some _ _ _ Hi) as Hil.
    assert (nodes fl !! i = Some y) as Hyi by (rewrite E2; by rewrite lookup_app_l).
    assert (nodes fl !! length pre = Some prev) as Hpi by (rewrite E2, lookup_app_r, Nat.sub_diag by lia; done).
    assert (y.1 + HDR <= prev.1 /\ y.1 + HDR <= x.1) as [Y1 Y2].
    { destruct i as [|i]; [injection Hyi as <-|].
      - destruct prev_cases as [Ep|Hp]; [|pose proof sane_l1 as S1; rewrite Forall_forall in S1; destruct (S1 _ Hp) as [(H & _) _]; destruct Sx as [(H' & _) _]; done].
        pose proof (nodes_order 0 (length pre) (base, 0) prev eq_refl Hpi Hil) as H. rewrite Ep in H. cbn [fst] in H. lia.
      - change (fl !! i = Some y) in Hyi. destruct (length pre) as [|k] eqn:Ek; [lia|]. change (fl !! k = Some prev) in Hpi.
        pose proof (sorted_lookup fl i k y prev (h_sorted _ _ _ OK) Hyi Hpi ltac:(lia)) as Hlt. assert (prev ∈ l1) as Hp.
        { destruct prev_cases as [Ep|]; [|done]. apply list_elem_of_lookup_2 in Hpi. apply fl_placed in Hpi as (H & _). rewrite Ep in H. cbn [fst] in H. unfold HDR in H. lia. }
        pose proof (H1 prev Hp). pose proof (fl_placed y (list_elem_of_lookup_2 _ _ _ Hyi)) as (_ & Hy0 & _). unfold stop, HDR in *. lia. }
    eapply same_trans; [apply O1; right; done|]. apply O2. by right.
  - eapply kept_trans; eapply kept_only; [split; [exact O1|exact O1']| |exact O2|exact P4].
    intros z Hz. destruct (rest_apart z Hz) as [H|H]; [by left|right]. unfold stop, HDR in *. lia.
Qed.
End free.

Lemma free_spec x al' fuel : al ≡ₚ x :: al' -> (length fl <= fuel)%nat ->
  exists fl' s', run (free fuel (x.1 + HDR) s) = ROk tt s' /\ heap_ok s' al' fl' /\ brk s' = brk s /\ kept al' (umem s) (umem s') /\
    (forall a, covers fl' a <-> covers fl a \/ x.1 <= a < stop x) /\ (exists y, y ∈ fl' /\ x.2 <= y.2) /\ (length fl' <= S (length fl))%nat.
Proof.
  intros Hal Hf. destruct (split_before fl x.1 (h_sorted _ _ _ OK)) as (l1 & l2 & Efl & H1 & H2).
  { apply Forall_forall. intros y Hy. pose proof (fl_placed y Hy) as (_ & Hy0 & _). split; [lia|]. intros E.
    pose proof (al_placed x (x_used x al' Hal)) as (_ & Hx0 & _). destruct (h_apart _ _ _ OK x y (x_used x al' Hal) Hy); unfold stop, HDR in *; lia. }
  pose proof (h_freep _ _ _ OK) as Hfp. apply list_elem_of_fmap in Hfp as (y & Ey & Hy). apply list_elem_of_lookup in Hy as [j Hj].
  assert (nodes fl !! j = Some (freep s, (nodes fl !!! j).2)) as Hj' by (rewrite Ey, (list_lookup_total_correct _ _ _ Hj), Hj; by destruct y).
  destruct (free_linked x al' Hal l1 l2 Efl H1 H2 fuel j Hj' Hf) as (m' & Hr & Hc & Hk).
  destruct (inserted_ok x al' Hal l1 l2 Efl H1 H2) as [I1 I2]. destruct (inserted_big x al' Hal l1 l2 Efl H1 H2) as (b & Hb & _ & Hb2).
  exists (inserted x l1 l2), (mkHeap m' (prev l1).1 (brk s)). split; [done|].
  rewrite Forall_forall in I1. assert (forall z, z ∈ al' -> z ∈ al) as Hsub by (intros z; by apply (rest_used x)).
  split; [|split; [done|split; [done|split; [intros a; by apply (inserted_covers x al')|split; [by exists b|]]]]].
  - pose proof (h_room _ _ _ OK). split; cbn [umem freep brk]; [done|done| | | | | | |done|].
    + apply Forall_forall. intros z Hz. pose proof (al_placed z (Hsub z Hz)) as (_ & Hz0 & _). rewrite (kept_size _ _ _ z Hk Hz Hz0).
      pose proof (h_used _ _ _ OK) as Hu. rewrite Forall_forall in Hu. by apply Hu, Hsub.
    + apply Forall_forall. intros z [Hz|Hz]%elem_of_app; [by apply al_placed, Hsub|]. by apply I1.
    + intros z w Hz Hw. by apply I1.
    + pose proof (h_nodup _ _ _ OK) as Hn. rewrite Hal in Hn. by apply NoDup_cons in Hn as [_ Hn].
    + intros z w Hz Hw. apply (h_disjoint _ _ _ OK); by apply Hsub.
    + destruct (prev_nodes x al' Hal l1 l2 Efl) as (pre & _ & _ & _ & ->). destruct (join_head (prev l1) (join x l2)) as (h & t & -> & Eh & _).
      apply list_elem_of_fmap. exists h. split; [done|]. set_solver.
    + destruct (h_aligned _ _ _ OK) as [Hab Hall]. split; [done|]. rewrite Forall_app in Hall. destruct Hall as [Ha Hfl]. rewrite Hal in Ha. apply Forall_cons in Ha as [Hx Ha].
      apply Forall_app. split; [done|]. by apply inserted_aligned.
  - unfold inserted. destruct (last l1) as [p|] eqn:El.
    + apply last_Some in El as [l Hl]. assert (removelast l1 = l) as -> by (rewrite Hl; apply removelast_last). rewrite Efl, Hl, !length_app.
      assert (forall u k, length (join u k) <= S (length k))%nat as Hj2.
      { intros u k. destruct k as [|v k]; cbn [join length]; [lia|]. destruct (stop u =? v.1); cbn [length]; lia. }
      pose proof (Hj2 p (join x l2)). pose proof (Hj2 x l2). cbn [length]. lia.
    + apply last_None in El as ->. rewrite Efl. cbn [app]. destruct l2 as [|v k]; cbn [join length]; [lia|]. destruct (stop x =? v.1); cbn [length]; lia.
Qed.

(** ** Taking a block *)

Section carve.
Context (l1 l2 : list blk) (p : blk) (Efl : fl = l1 ++ p :: l2).

Lemma p_free : p ∈ fl.
Proof. rewrite Efl. set_solver. Qed.
Lemma around y : y ∈ l1 ++ l2 -> (stop y < p.1 \/ stop p < y.1) /\ placed s y.
Proof.
  intros Hy. split; [|apply fl_placed; rewrite Efl; set_solver]. pose proof (h_sorted _ _ _ OK) as Hs. rewrite Efl in Hs.
  apply sorted_app in Hs as (_ & Hs & Hs1). apply StronglySorted_inv in Hs as [_ Hp]. rewrite Forall_forall in Hp.
  apply elem_of_app in Hy as [Hy|Hy]; [left; apply Hs1; set_solver|right; by apply Hp].
Qed.
(** A part of the block, from its start or to its end, is in nobody's way. *)
Lemma part_apart q z : p.1 <= q.1 -> stop q <= stop p -> z ∈ al -> apart z q.
Proof. intros H1 H2 Hz. destruct (h_apart _ _ _ OK z p Hz p_free) as [H|H]; [left|right]; lia. Qed.
Lemma not_in_use q : p.1 <= q.1 -> stop q <= stop p -> 0 < q.2 -> q ∉ al.
Proof. intros H1 H2 H3 Hq. destruct (part_apart q q H1 H2 Hq); unfold stop, HDR in *; lia. Qed.

(** The heap after the block [b] was cut from [p], with [rest] in its place. *)
Lemma carved m' fp b rest :
  chain m' base (nodes (l1 ++ rest ++ l2)) -> ld32 m' (b.1 + 4) = b.2 -> kept al (umem s) m' -> fp ∈ (nodes (l1 ++ rest ++ l2)).*1 ->
  0 < b.2 -> p.1 <= b.1 -> stop b <= stop p ->
  (rest = [] \/ exists r, rest = [r] /\ r.1 = p.1 /\ 0 < r.2 /\ stop r = b.1) -> (HDR | b.1) ->
  heap_ok (mkHeap m' fp (brk s)) (b :: al) (l1 ++ rest ++ l2).
Proof.
  intros Hc Hsz Hk Hfp Hb Hb1 Hb2 Hrest Hbal. pose proof (fl_placed p p_free) as Pp. pose proof (h_sorted _ _ _ OK) as Hs. rewrite Efl in Hs.
  apply sorted_app in Hs as (Hs1 & Hs2 & Hs12). apply StronglySorted_inv in Hs2 as [Hs2 Hp2].
  assert (forall y, y ∈ l1 ++ rest ++ l2 -> y ∈ l1 ++ l2 \/ (rest = [y] /\ y.1 = p.1 /\ 0 < y.2 /\ stop y = b.1)) as Hmem.
  { intros y Hy. destruct Hrest as [->|(r & -> & Hr)]; [left; set_solver|]. rewrite !elem_of_app in Hy. destruct Hy as [Hy|[->%list_elem_of_singleton|Hy]]; [left; set_solver|by right|left; set_solver]. }
  split; cbn [umem freep brk].
  - done.
  - apply sorted_app. split; [done|]. destruct Hrest as [->|(r & -> & Er & Hr0 & Hr)].
    + split; [done|]. intros y z Hy Hz. apply Hs12; [done|]. by right.
    + split; [constructor; [done|]; eapply Forall_impl; [exact Hp2|]; intros z Hz; unfold stop, HDR in *; lia|].
      intros y z Hy [->|Hz]%elem_of_cons; [rewrite Er; apply Hs12; set_solver|]. apply Hs12; [done|]. by right.
  - constructor; [done|]. apply Forall_forall. intros z Hz. rewrite (kept_size _ _ _ z Hk Hz) by (by apply al_placed).
    pose proof (h_used _ _ _ OK) as Hu. rewrite Forall_forall in Hu. by apply Hu.
  - apply Forall_forall. unfold placed in *. cbn [brk]. intros z [->|[Hz|Hz]%elem_of_app]%elem_of_cons; [lia|by apply al_placed|].
    destruct (Hmem z Hz) as [Hz'|(_ & E1 & E2 & E3)]; [by apply around|]. unfold stop, HDR in *. lia.
  - intros z y [->|Hz]%elem_of_cons Hy; (destruct (Hmem y Hy) as [Hy'|(_ & E1 & E2 & E3)]).
    + destruct (around y Hy') as [[H|H] _]; [right|left]; unfold stop, HDR in *; lia.
    + right. lia.
    + apply (h_apart _ _ _ OK); [done|]. rewrite Efl. set_solver.
    + apply part_apart; [lia| |done]. unfold stop, HDR in *. lia.
  - constructor; [by apply not_in_use|apply (h_nodup _ _ _ OK)].
  - intros z w [->|Hz]%elem_of_cons [->|Hw]%elem_of_cons Hne; [done| | |by apply (h_disjoint _ _ _ OK)].
    + destruct (part_apart b w Hb1 Hb2 Hw); [by right|by left].
    + by apply part_apart.
  - done.
  - apply (h_room _ _ _ OK).
  - destruct (h_aligned _ _ _ OK) as [Hab Hall]. split; [done|]. rewrite Efl, !Forall_app, Forall_cons in Hall. destruct Hall as (Ha & H1 & Hp & H2).
    cbn [app]. rewrite Forall_cons, !Forall_app. split_and!; try done. destruct Hrest as [->|(r & -> & Er & _)]; [done|]. constructor; [by rewrite Er|done].
Qed.

(** The bytes that were free are those of the block and those still free. *)
Lemma carved_covers b rest a :
  (rest = [] /\ b = p) \/ (exists r, rest = [r] /\ r.1 = p.1 /\ 0 < r.2 /\ stop r = b.1 /\ 0 <= b.2 /\ stop b = stop p) ->
  covers (l1 ++ rest ++ l2) a \/ b.1 <= a < stop b <-> covers fl a.
Proof.
  assert (forall l l', covers (l ++ l') a <-> covers l a \/ covers l' a) as Happ.
  { intros l l'. unfold covers. split; [intros (y & [Hy|Hy]%elem_of_app & H); eauto|]. intros [(y & Hy & H)|(y & Hy & H)]; exists y; (split; [set_solver|done]). }
  assert (forall y, covers [y] a <-> y.1 <= a < stop y) as Hone.
  { intros y. unfold covers. split; [by intros (z & ->%list_elem_of_singleton & Hz)|]. intros H. exists y. split; [by apply list_elem_of_singleton|done]. }
  assert (~ covers [] a) as Hnil by (intros (z & Hz & _); by apply elem_of_nil in Hz).
  rewrite Efl. change (p :: l2) with ([p] ++ l2). rewrite !Happ, Hone.
  intros [[-> ->]|(r & -> & E1 & H0 & E2 & Hb & E3)]; [tauto|]. rewrite Hone, E1. assert (p.1 <= a < stop r \/ b.1 <= a < stop b <-> p.1 <= a < stop p); [|tauto].
  unfold stop, HDR in *. lia.
Qed.

Lemma carve_spec n pp pre : nodes l1 = pre ++ [pp] -> 0 < n <= p.2 ->
  exists b fl' s', run (carve n pp.1 p.1 s) = ROk (b.1 + HDR) s' /\ b.2 = n /\ heap_ok s' (b :: al) fl' /\ kept al (umem s) (umem s') /\
    brk s' = brk s /\ forall a, covers fl' a \/ b.1 <= a < stop b <-> covers fl a.
Proof.
  intros Epre Hn. pose proof (fl_placed p p_free) as (Pp1 & Pp2 & Pp3). pose proof (h_room _ _ _ OK) as [Hb1 Hb2].
  pose proof (h_chain _ _ _ OK) as Hc. assert (nodes fl = pre ++ pp :: p :: l2) as En by (rewrite Efl; unfold nodes in *; change ((base, 0) :: l1 ++ p :: l2) with (((base, 0) :: l1) ++ p :: l2); rewrite Epre, <- app_assoc; done).
  rewrite En in Hc. apply chain_app in Hc as [Hc1 (Hc2 & Hc3 & Hc4 & Hc5 & Hc6)]. cbn [start] in *.
  assert (pp = (base, 0) \/ pp ∈ l1) as Hpp.
  { destruct pre as [|z pre]; unfold nodes in Epre; cbn [app] in Epre; injection Epre as E1 E2; [by left|right]. rewrite E2. set_solver. }
  assert (pp.1 + HDR <= p.1 /\ forall z, z ∈ al -> stop z <= pp.1 \/ pp.1 + HDR <= z.1) as [Hpp1 Hpp2].
  { destruct Hpp as [->|Hpp]; cbn [fst].
    - split; [done|]. intros z Hz. right. by apply al_placed.
    - destruct (around pp) as [Ha (_ & H0 & _)]; [set_solver|]. pose proof (h_sorted _ _ _ OK) as Hs. rewrite Efl in Hs. apply sorted_app in Hs as (_ & _ & Hs).
      pose proof (Hs pp p Hpp ltac:(set_solver)). unfold stop, HDR in *. split; [lia|]. intros z Hz.
      destruct (h_apart _ _ _ OK z pp Hz ltac:(rewrite Efl; set_solver)); unfold stop, HDR in *; lia. }
  assert (forall z, z ∈ al -> stop z <= p.1 \/ stop p <= z.1) as Hpz.
  { intros z Hz. destruct (h_apart _ _ _ OK z p Hz p_free); [by left|by right]. }
  assert (forall y, y ∈ pre -> y.1 + HDR <= pp.1) as Hpre.
  { intros y Hy. destruct pre as [|z pre]; [by apply elem_of_nil in Hy|]. unfold nodes in Epre. cbn [app] in Epre. injection Epre as <- E2.
    destruct Hpp as [Epp|Hpp']; [pose proof (fl_placed pp) as H; rewrite Efl, E2 in H; destruct H as (H & _); [set_solver|]; rewrite Epp in H; cbn [fst] in H; unfold HDR in H; lia|].
    apply elem_of_cons in Hy as [->|Hy]; [cbn [fst]; destruct (around pp) as [_ (H & _)]; [set_solver|done]|].
    pose proof (h_sorted _ _ _ OK) as Hs. rewrite Efl, E2 in Hs. apply sorted_app in Hs as (Hs & _). apply sorted_app in Hs as (_ & _ & Hs).
    pose proof (Hs y pp Hy ltac:(set_solver)). destruct (around y) as [_ (_ & H0 & _)]; [rewrite E2; set_solver|]. unfold stop, HDR in *. lia. }
  assert (forall y, y ∈ l2 -> stop p < y.1) as Hl2.
  { pose proof (h_sorted _ _ _ OK) as Hs. rewrite Efl in Hs. apply sorted_app in Hs as (_ & Hs & _). apply StronglySorted_inv in Hs as [_ Hs]. by rewrite Forall_forall in Hs. }
  assert (0 <= start base l2 < 2 ^ 31) as Hst.
  { apply start_range; [unfold HDR in *; lia|]. apply Forall_forall. intros y Hy. destruct (around y) as [_ (H & H0 & H')]; [set_solver|]. unfold stop, HDR in *. lia. }
  assert (HDR | p.1) as Hpal by (destruct (h_aligned _ _ _ OK) as [_ Hall]; rewrite Forall_forall in Hall; apply Hall; rewrite Efl; set_solver).
  unfold carve, get_size, get_ptr, put_ptr, put_size. mrun. rewrite Hc5. destruct (Z.eqb_spec p.2 n) as [En'|En'].
  - mrun. rewrite Hc4. exists p, (l1 ++ [] ++ l2). eexists. split; [reflexivity|]. split; [done|].
    assert (kept al (umem s) (st32 (umem s) pp.1 (start base l2))) as Hk by (eapply kept_only; [apply only_ptr|done]).
    split; [|split; [exact Hk|split; [done|intros a; apply carved_covers; by left]]].
    apply (carved (st32 (umem s) pp.1 (start base l2)) pp.1 p []); try done; try lia; try by left.
    + cbn [app]. assert (nodes (l1 ++ l2) = pre ++ pp :: l2) as -> by (unfold nodes in *; change ((base, 0) :: l1 ++ l2) with (((base, 0) :: l1) ++ l2); rewrite Epre, <- app_assoc; done).
      apply chain_app. cbn [start chain]. rewrite ld32_st32_eq, ld32_st32_ne by lia. split; [|split; [apply u32_small|split; [done|]]].
      * eapply chain_ext; [|exact Hc1]. intros y Hy. apply st_ptr_far. right. by apply Hpre.
      * lia.
      * eapply chain_ext; [|exact Hc6]. intros y Hy. apply st_ptr_far. left. pose proof (Hl2 y Hy). unfold stop, HDR in *. lia.
    + rewrite ld32_st32_ne; [done|]. unfold HDR in *. lia.
    + cbn [app]. apply list_elem_of_fmap. exists pp. split; [done|]. unfold nodes. destruct Hpp as [->|Hpp]; set_solver.
  - unfold hdr_add. assert (u32 (p.1 + HDR * (p.2 - n)) = p.1 + HDR * (p.2 - n)) as -> by (apply u32_small; unfold stop, HDR in *; lia).
    set (q := p.1 + HDR * (p.2 - n)). mrun. exists (q, n), (l1 ++ [(p.1, p.2 - n)] ++ l2). eexists. split; [reflexivity|]. split; [done|].
    set (m1 := st32 (umem s) (p.1 + 4) (p.2 - n)). cbn [umem set_umem]. fold m1.
    assert (p.1 + HDR <= q /\ q + HDR <= stop p) as [Hq1 Hq2] by (unfold q, stop, HDR in *; lia).
    assert (kept al (umem s) (st32 m1 (q + 4) n)) as Hk.
    { eapply kept_trans; eapply kept_only; [apply only_size| |apply only_size|]; intros z Hz; destruct (Hpz z Hz); [left|right|left|right]; unfold HDR in *; lia. }
    assert (forall a, far p.1 a -> far q a -> same_hdr (umem s) (st32 m1 (q + 4) n) a) as Hfar.
    { intros a Ha Ha'. apply (same_trans _ m1); by apply st_size_far. }
    split; [|split; [exact Hk|split; [done|intros a; apply carved_covers; right; eexists; (split; [reflexivity|]); unfold q, stop, HDR in *; cbn [fst snd]; lia]]].
    apply (carved (st32 m1 (q + 4) n) pp.1 (q, n) [(p.1, p.2 - n)]); try done; cbn [fst snd]; try lia.
    + assert (nodes (l1 ++ [(p.1, p.2 - n)] ++ l2) = pre ++ pp :: (p.1, p.2 - n) :: l2) as ->.
      { unfold nodes in *. change ((base, 0) :: l1 ++ ?r) with (((base, 0) :: l1) ++ r). rewrite Epre, <- app_assoc. done. }
      apply chain_app. cbn [start chain fst snd]. destruct (Hfar pp.1) as [-> ->]; [right; unfold HDR in *; lia|right; unfold HDR in *; lia|].
      rewrite (ld32_st32_ne m1 (q + 4) p.1), (ld32_st32_ne m1 (q + 4) (p.1 + 4)) by (unfold HDR in *; lia).
      assert (ld32 m1 p.1 = start base l2) as -> by (unfold m1; rewrite ld32_st32_ne by lia; done).
      assert (ld32 m1 (p.1 + 4) = p.2 - n) as -> by (unfold m1; rewrite ld32_st32_eq; apply u32_small; unfold stop, HDR in *; lia).
      split_and!; try done.
      * eapply chain_ext; [|exact Hc1]. intros y Hy. pose proof (Hpre y Hy). apply Hfar; right; unfold HDR in *; lia.
      * eapply chain_ext; [|exact Hc6]. intros y Hy. pose proof (Hl2 y Hy). apply Hfar; left; unfold q, stop, HDR in *; lia.
    + rewrite ld32_st32_eq. apply u32_small. unfold stop, HDR in *. lia.
    + apply list_elem_of_fmap. exists pp. split; [done|]. unfold nodes. destruct Hpp as [->|Hpp]; set_solver.
    + unfold HDR in *. lia.
    + unfold stop, q, HDR. cbn [fst snd]. lia.
    + right. eexists. split; [reflexivity|]. unfold stop, q, HDR. cbn [fst snd]. lia.
    + unfold q. apply Z.divide_add_r; [done|]. apply Z.divide_factor_l.
Qed.
End carve.

(** ** Looking for a block *)

(** How many headers are between node [j] and node [f], around the circle. *)
Definition ahead (j f : nat) : nat := if decide (j <= f)%nat then f - j else (length (nodes fl) - j + f)%nat.

(** From node [j] on, the loop of [malloc] takes the first block that is large enough; it reaches
    [freep], at node [f], only if there is none. *)
Lemma malloc_loop_spec fuel n j f p pp d :
  0 < n -> nodes fl !! j = Some p -> nodes fl !! f = Some (freep s, d) -> (forall i, j = S i -> nodes fl !! i = Some pp) ->
  (ahead j f < fuel)%nat ->
  (exists i pi qi, nodes fl !! i = Some pi /\ nodes fl !! S i = Some qi /\ n <= qi.2 /\
     run (malloc_loop grow fuel n pp.1 p.1 s) = run (carve n pi.1 qi.1 s)) \/
  ((forall i q, nodes fl !! i = Some q -> (ahead i f <= ahead j f)%nat -> q.2 < n) /\
   exists k, (fuel = ahead j f + S k)%nat /\
     run (malloc_loop grow fuel n pp.1 p.1 s) =
     run ((q <- morecore grow k n ;; if q =? 0 then ret 0 else nx <- get_ptr q ;; malloc_loop grow k n q nx) s)).
Proof.
  intros Hn. revert j p pp. induction fuel as [|k IH]; intros j p pp Hj Hf Hpp Hd; [lia|].
  pose proof (lookup_lt_Some _ _ _ Hj) as Hjl. pose proof (lookup_lt_Some _ _ _ Hf) as Hfl.
  destruct (chain_lookup _ _ _ _ _ (h_chain _ _ _ OK) Hj) as [Hnx Hsz].
  assert (run (malloc_loop grow (S k) n pp.1 p.1 s) = if n <=? p.2 then run (carve n pp.1 p.1 s) else
    if p.1 =? freep s then run ((q <- morecore grow k n ;; if q =? 0 then ret 0 else nx <- get_ptr q ;; malloc_loop grow k n q nx) s)
    else run (malloc_loop grow k n p.1 (ld32 (umem s) p.1) s)) as ->.
  { cbn [malloc_loop]. unfold get_size at 1. rewrite run_bind, run_gets. cbn [rbind]. rewrite Hsz. destruct (n <=? p.2); [done|].
    rewrite run_bind, run_gets. cbn [rbind]. by destruct (p.1 =? freep s). }
  rewrite Hnx. clear Hnx. destruct (Z.leb_spec n p.2) as [Hle|Hgt].
  { left. destruct j as [|j]; [injection Hj as <-; cbn [snd] in Hle; lia|]. exists j, pp, p. split_and!; [by apply Hpp|done|done|done]. }
  assert (forall i q, nodes fl !! i = Some q -> ahead i f = ahead j f -> i = j) as Hinj.
  { intros i q Hi E. pose proof (lookup_lt_Some _ _ _ Hi). unfold ahead in E. repeat case_decide; lia. }
  destruct (decide (j = f)) as [->|Hne].
  - rewrite Hf in Hj. injection Hj as <-. cbn [fst]. rewrite Z.eqb_refl. right.
    assert (ahead f f = 0)%nat as E0 by (unfold ahead; case_decide; lia). rewrite E0. split.
    + intros i q Hi Hle. assert (i = f) as ->. { apply (Hinj i q Hi). lia. } rewrite Hf in Hi. by injection Hi as <-.
    + exists k. split; [lia|done].
  - assert (p.1 <> freep s) as Hpf.
    { intros E. destruct (Nat.lt_total j f) as [H|[H|H]]; [|done|].
      - pose proof (nodes_order j f _ _ Hj Hf H) as H'. cbn [fst] in H'. lia.
      - pose proof (nodes_order f j _ _ Hf Hj H) as H'. cbn [fst] in H'. lia. }
    destruct (Z.eqb_spec p.1 (freep s)); [done|].
    assert (exists j' p', nodes fl !! j' = Some p' /\ (match nodes fl !! S j with Some y => y.1 | None => base end) = p'.1 /\
      (forall i, j' = S i -> nodes fl !! i = Some p) /\ ahead j f = S (ahead j' f)) as (j' & p' & Hj' & -> & Hp' & Ha).
    { destruct (nodes fl !! S j) as [y|] eqn:Ey.
      - exists (S j), y. pose proof (lookup_lt_Some _ _ _ Ey). split_and!; try done; [by intros i [= <-]|]. unfold ahead. repeat case_decide; lia.
      - exists 0%nat, (base, 0). apply lookup_ge_None in Ey. split_and!; try done. unfold ahead. repeat case_decide; lia. }
    destruct (IH j' p' p Hj' Hf Hp') as [H|[H (k' & Ek & Hr)]]; [lia|by left|]. right. split.
    + intros i q Hi Hle. destruct (decide (i = j)) as [->|Hij]; [rewrite Hj in Hi; injection Hi as <-; done|].
      apply (H i q Hi). assert (ahead i f <> ahead j f) by (intros E; apply Hij, (Hinj i q Hi E)). lia.
    + exists k'. split; [lia|done].
Qed.

(** From the header after [freep] on, all headers are seen. *)
Lemma ahead_next j f : (f < length (nodes fl))%nat -> (j = S f /\ (S f < length (nodes fl))%nat) \/ (j = 0%nat /\ S f = length (nodes fl)) ->
  forall i, (i < length (nodes fl))%nat -> (ahead i f <= ahead j f <= length fl)%nat.
Proof. unfold ahead, nodes. cbn [length]. intros Hf Hj i Hi. repeat case_decide; lia. Qed.

Lemma next_node p : p ∈ nodes fl -> exists f j q, nodes fl !! f = Some p /\ nodes fl !! j = Some q /\ ld32 (umem s) p.1 = q.1 /\
  (forall i, j = S i -> nodes fl !! i = Some p) /\
  ((j = S f /\ (S f < length (nodes fl))%nat) \/ (j = 0%nat /\ S f = length (nodes fl))).
Proof.
  intros Hp. apply list_elem_of_lookup in Hp as [f Hf]. destruct (chain_lookup _ _ _ _ _ (h_chain _ _ _ OK) Hf) as [Hnx _].
  pose proof (lookup_lt_Some _ _ _ Hf). destruct (nodes fl !! S f) as [q|] eqn:Eq.
  - pose proof (lookup_lt_Some _ _ _ Eq). exists f, (S f), q. split_and!; try done; [by intros i [= <-]|by left].
  - apply lookup_ge_None in Eq. exists f, 0%nat, (base, 0). split_and!; try done. right. split; [done|lia].
Qed.

(** Starting after [freep]: a block, or [morecore]. *)
Lemma malloc_from fuel n : 0 < n -> (length fl < fuel)%nat ->
  (exists b fl' s', run ((p <- get_ptr (freep s) ;; malloc_loop grow fuel n (freep s) p) s) = ROk (b.1 + HDR) s' /\
     b.2 = n /\ heap_ok s' (b :: al) fl' /\ kept al (umem s) (umem s') /\ brk s' = brk s /\
     forall a, covers fl' a \/ b.1 <= a < stop b <-> covers fl a) \/
  ((forall q, q ∈ fl -> q.2 < n) /\ exists k, (fuel <= k + S (length fl))%nat /\
     run ((p <- get_ptr (freep s) ;; malloc_loop grow fuel n (freep s) p) s) =
     run ((q <- morecore grow k n ;; if q =? 0 then ret 0 else nx <- get_ptr q ;; malloc_loop grow k n q nx) s)).
Proof.
  intros Hn Hf. pose proof (h_freep _ _ _ OK) as Hfp. apply list_elem_of_fmap in Hfp as ([fp d] & Ey & Hy). cbn [fst] in Ey. subst fp.
  destruct (next_node _ Hy) as (f & j & q & Hfn & Hj & Hnx & Hpp & Hjf). pose proof (lookup_lt_Some _ _ _ Hfn) as Hfl. pose proof (lookup_lt_Some _ _ _ Hj) as Hjl.
  pose proof (ahead_next j f Hfl Hjf) as Hall. cbn [fst] in Hnx.
  assert (run ((p <- get_ptr (freep s) ;; malloc_loop grow fuel n (freep s) p) s) = run (malloc_loop grow fuel n (freep s) q.1 s)) as ->.
  { unfold get_ptr at 1. rewrite run_bind, run_gets. cbn [rbind]. by rewrite Hnx. }
  destruct (malloc_loop_spec fuel n j f q (freep s, d) d Hn Hj Hfn Hpp) as [(i & pi & qi & Hi & Hq & Hle & Hr)|[Hno (k & Ek & Hr)]].
  { pose proof (Hall j Hjl). lia. }
  - left. cbn [fst] in Hr. rewrite Hr. change (fl !! i = Some qi) in Hq. destruct (list_elem_of_split_length fl i qi Hq) as (l1 & l2 & Efl & El).
    destruct (carve_spec l1 l2 qi Efl n pi (take i (nodes fl))) as (b & fl' & s' & Hc); [|lia|by exists b, fl', s'].
    rewrite <- (take_S_r _ _ _ Hi). unfold nodes. rewrite firstn_cons. f_equal. by rewrite Efl, El, take_app_length.
  - right. split; [|exists k; split; [pose proof (Hall j Hjl); lia|done]]. intros q' Hq'. apply list_elem_of_lookup in Hq' as [i Hi].
    assert (nodes fl !! S i = Some q') as Hi' by done. apply (Hno (S i) q' Hi'). apply Hall. by eapply lookup_lt_Some.
Qed.

End one.

(** [morecore]: either the kernel refuses, or a block of [n] headers is free afterwards. *)
Lemma morecore_spec s al fl k n : heap_ok s al fl -> 0 < n < 2 ^ 28 -> (length fl <= k)%nat ->
  let need := HDR * Z.max 4096 n in
  (run (morecore grow k n s) = ROk 0 s /\ grow (brk s) need = false) \/
  exists fl' s', run (morecore grow k n s) = ROk (freep s') s' /\ freep s' <> 0 /\ heap_ok s' al fl' /\ kept al (umem s) (umem s') /\
    (exists y, y ∈ fl' /\ n <= y.2) /\ (length fl' <= S (length fl))%nat /\ brk s' = brk s + need /\
    forall a, covers fl' a <-> covers fl a \/ brk s <= a < brk s'.
Proof.
  intros OK Hn Hk need. unfold morecore. set (nu := if n <? 4096 then 4096 else n). assert (n <= nu < 2 ^ 28) as Hnu by (unfold nu; destruct (Z.ltb_spec n 4096); lia).
  assert (nu * HDR = need) as Eneed by (unfold need, nu, HDR; destruct (Z.ltb_spec n 4096); lia).
  assert (s32 (u32 (nu * HDR)) = nu * HDR) as -> by (unfold HDR; rewrite u32_small by lia; apply s32_small; lia).
  unfold sbrk. rewrite run_bind. destruct (grow (brk s) (nu * HDR)) eqn:Eg; cbn [run rbind].
  2: { left. split; [done|by rewrite <- Eneed]. }
  right. pose proof (grow_user _ _ Eg) as Hg. pose proof (h_room _ _ _ OK) as [Hb1 Hb2]. destruct (Z.eqb_spec (brk s) (-1)); [unfold HDR in *; lia|].
  unfold put_size. mrun. set (x := (brk s, nu)). set (s1 := mkHeap (st32 (umem s) (brk s + 4) nu) (freep s) (brk s + nu * HDR)).
  change (set_umem (st32 (umem (set_brk (brk s + nu * HDR) s)) (brk s + 4) nu) (set_brk (brk s + nu * HDR) s)) with s1.
  assert (forall y, y ∈ al \/ y ∈ fl -> stop y <= brk s /\ 0 < y.2) as Hbelow.
  { intros y [Hy|Hy]; [apply (al_placed s al fl OK) in Hy as (? & ? & ?)|apply (fl_placed s al fl OK) in Hy as (? & ? & ?)]; done. }
  assert (kept al (umem s) (umem s1)) as Hk1.
  { eapply kept_only; [apply only_size|]. intros z Hz. left. apply Hbelow. by left. }
  assert (heap_ok s1 (x :: al) fl) as OK1.
  { split; cbn [umem freep brk s1].
    - eapply chain_ext; [|apply (h_chain _ _ _ OK)]. intros y [->|Hy]%elem_of_cons; apply st_size_far; right; [cbn [fst]; lia|].
      destruct (Hbelow y) as [H H0]; [by right|]. unfold stop, HDR in *. lia.
    - apply (h_sorted _ _ _ OK).
    - constructor; [cbn [fst snd x]; rewrite ld32_st32_eq; apply u32_small; lia|]. apply Forall_forall. intros z Hz.
      change (ld32 (umem s1) (z.1 + 4) = z.2). rewrite (kept_size _ _ _ z Hk1 Hz) by (apply Hbelow; by left). pose proof (h_used _ _ _ OK) as Hu. rewrite Forall_forall in Hu. by apply Hu.
    - constructor; [unfold placed, stop; cbn [fst snd x brk s1]; unfold HDR in *; lia|]. eapply Forall_impl; [apply (h_placed _ _ _ OK)|].
      intros z (H & H0 & H'). split; [done|]. split; [done|]. cbn [brk s1]. unfold HDR in *. lia.
    - intros z y [->|Hz]%elem_of_cons Hy; [|by apply (h_apart _ _ _ OK)]. right. cbn [fst x]. apply Hbelow. by right.
    - constructor; [|apply (h_nodup _ _ _ OK)]. intros Hx. destruct (Hbelow x (or_introl Hx)) as [H H0]. unfold stop, HDR in *. cbn [fst snd x] in *. lia.
    - intros z w [->|Hz]%elem_of_cons [->|Hw]%elem_of_cons Hne; [done|right|left|by apply (h_disjoint _ _ _ OK)]; cbn [fst x]; apply Hbelow; by left.
    - apply (h_freep _ _ _ OK).
    - unfold HDR in *. lia.
    - destruct (h_aligned _ _ _ OK) as [Hab Hall]. split; [apply Z.divide_add_r; [done|]; apply Z.divide_factor_r|]. by constructor. }
  destruct (free_spec s1 (x :: al) fl OK1 x al k) as (fl' & s' & Hr & OK' & Hbrk & Hk' & Hcov & (y & Hy & Hy2) & Hlen); [done|done|].
  change (brk s + HDR) with (x.1 + HDR). rewrite Hr. cbn [rbind]. mrun. exists fl', s'. split; [done|]. split.
  { pose proof (h_freep _ _ _ OK') as Hfp. apply list_elem_of_fmap in Hfp as (z & Ez & Hz). unfold nodes in Hz. apply elem_of_cons in Hz as [->|Hz]; [cbn [fst] in Ez; lia|].
    pose proof (h_placed _ _ _ OK') as Hp. rewrite Forall_forall in Hp. destruct (Hp z) as (H & _); [set_solver|]. unfold HDR in *. lia. }
  split; [done|]. split; [by eapply kept_trans|]. split; [exists y; split; [done|]; cbn [snd x] in Hy2; lia|]. split; [done|].
  cbn [brk s1] in Hbrk. rewrite <- Eneed. split; [done|]. intros a. rewrite Hcov, Hbrk. unfold stop. cbn [fst snd x]. by rewrite (Z.mul_comm HDR).
Qed.

(** ** [malloc] *)

Lemma units_spec nbytes : 0 <= nbytes < 2 ^ 30 -> 0 < units nbytes < 2 ^ 28 /\ nbytes <= HDR * (units nbytes - 1).
Proof.
  intros Hn. unfold units, HDR. rewrite (u32_small (nbytes + 8 - 1)) by lia.
  pose proof (Z.div_mod (nbytes + 8 - 1) 8 ltac:(lia)) as E. pose proof (Z.mod_pos_bound (nbytes + 8 - 1) 8 ltac:(lia)). rewrite u32_small; lia.
Qed.

(** The blocks in use and the free blocks, before the first call as well. *)
Definition rep (s : heap) (al fl : list blk) : Prop :=
  heap_ok s al fl \/ (freep s = 0 /\ al = [] /\ fl = [] /\ 0 < base /\ base + HDR <= brk s < 2 ^ 31 /\ (HDR | brk s)).

(** The first call sets up the list. *)
Definition ready (s : heap) : heap := if freep s =? 0 then mkHeap (st32 (st32 (umem s) base base) (base + 4) 0) base (brk s) else s.
Lemma ready_ok s al fl : rep s al fl -> heap_ok (ready s) al fl /\ kept al (umem s) (umem (ready s)) /\ brk (ready s) = brk s.
Proof.
  unfold ready. intros [OK|(E & -> & -> & Hb & Hr & Hal)].
  - assert (freep s <> 0) as Hne.
    { pose proof (h_room _ _ _ OK) as [Hb _]. pose proof (h_freep _ _ _ OK) as Hfp. apply list_elem_of_fmap in Hfp as (z & -> & Hz).
      unfold nodes in Hz. apply elem_of_cons in Hz as [->|Hz]; [cbn [fst]; lia|]. destruct (fl_placed s al fl OK z Hz) as (H & _). unfold HDR in H. lia. }
    destruct (Z.eqb_spec (freep s) 0); [done|]. done.
  - rewrite E. cbn [Z.eqb]. split; [|split; [|done]].
    + split; cbn [umem freep brk]; try done.
      * cbn [nodes chain fst snd start]. rewrite ld32_st32_ne, !ld32_st32_eq by lia. split; [apply u32_small; unfold HDR in *; lia|done].
      * constructor.
      * intros x y Hx. by apply elem_of_nil in Hx.
      * constructor.
      * intros x y Hx. by apply elem_of_nil in Hx.
      * by left.
    + intros z a Hz. by apply elem_of_nil in Hz.
Qed.
Lemma malloc_ready fuel n s : run (malloc base grow fuel n s) =
  run ((p <- get_ptr (freep (ready s)) ;; malloc_loop grow fuel (units n) (freep (ready s)) p) (ready s)).
Proof.
  unfold malloc, ready. rewrite run_bind, run_gets. cbn [rbind]. rewrite run_bind, run_when. destruct (freep s =? 0); cbn [rbind].
  - unfold put_ptr, put_size. rewrite !run_bind, !run_modify. cbn [rbind]. rewrite run_bind, run_modify. cbn [rbind]. rewrite run_modify. cbn [rbind].
    rewrite run_bind, run_gets. cbn [rbind]. done.
  - rewrite run_bind, run_gets. cbn [rbind]. done.
Qed.

(** What [malloc] may answer: a block, made of bytes that were free or that the kernel added - which it was asked
    for only if no free block is large enough - or 0, if it was asked and refused. *)
Definition allocated (s : heap) (al fl : list blk) (nbytes : Z) (r : Z) (s' : heap) : Prop :=
  let need := HDR * Z.max 4096 (units nbytes) in
  let none := forall q, q ∈ fl -> q.2 < units nbytes in
  (exists b fl', r = b.1 + HDR /\ (HDR | r) /\ nbytes <= HDR * (b.2 - 1) /\ heap_ok s' (b :: al) fl' /\
     (forall a, covers fl' a \/ b.1 <= a < stop b <-> covers fl a \/ brk s <= a < brk s') /\
     (brk s' = brk s \/ (none /\ grow (brk s) need = true /\ brk s' = brk s + need))) \/
  (r = 0 /\ heap_ok s' al fl /\ none /\ grow (brk s) need = false /\ brk s' = brk s).

Lemma block_aligned s b al fl : heap_ok s (b :: al) fl -> (HDR | b.1 + HDR).
Proof.
  intros OK. destruct (h_aligned _ _ _ OK) as [_ H]. cbn [app] in H. apply Forall_cons in H as [H _]. apply Z.divide_add_r; [done|]. apply Z.divide_refl.
Qed.

Lemma malloc_spec s al fl nbytes fuel : rep s al fl -> 0 <= nbytes < 2 ^ 30 -> (2 * length fl + 4 <= fuel)%nat ->
  exists r s', run (malloc base grow fuel nbytes s) = ROk r s' /\ kept al (umem s) (umem s') /\ allocated s al fl nbytes r s'.
Proof.
  intros R Hn Hf. destruct (ready_ok s al fl R) as (OK & Hk & Hbrk). destruct (units_spec nbytes Hn) as [Hu1 Hu2].
  rewrite malloc_ready. set (s0 := ready s) in *. unfold allocated.
  destruct (malloc_from s0 al fl OK fuel (units nbytes)) as [(b & fl' & s' & Hr & Hb & OK' & Hk' & Hbrk' & Hcov)|[Hno (k & Hk1 & Hr)]]; [lia|lia| |].
  { exists (b.1 + HDR), s'. split; [done|]. split; [by eapply kept_trans|]. left. exists b, fl'. split; [done|]. split; [by eapply block_aligned|].
    rewrite Hb. split; [done|]. split; [done|]. rewrite Hbrk', Hbrk. split; [intros a; rewrite Hcov; assert (~ brk s <= a < brk s) by lia; tauto|by left]. }
  rewrite Hr. clear Hr.
  destruct (morecore_spec s0 al fl k (units nbytes) OK) as [[Hr Hg]|(fl1 & s1 & Hr & Hfp & OK1 & Hk2 & (y & Hy & Hy2) & Hlen & Hbrk1 & Hcov1)]; [lia|lia| |].
  { exists 0, s0. rewrite run_bind, Hr. cbn [rbind Z.eqb]. split; [done|]. split; [done|]. right. rewrite Hbrk in Hg. done. }
  assert (grow (brk s) (HDR * Z.max 4096 (units nbytes)) = true) as Hyes.
  { destruct (grow _ _) eqn:E; [done|]. exfalso. rewrite <- Hbrk in E. apply Hfp. revert Hr. unfold morecore, sbrk. rewrite run_bind.
    set (nu := if units nbytes <? 4096 then 4096 else units nbytes). assert (nu * HDR = HDR * Z.max 4096 (units nbytes)) as En by (unfold nu, HDR; destruct (Z.ltb_spec (units nbytes) 4096); lia).
    rewrite u32_small, s32_small, En, E by (rewrite En; unfold HDR; lia). cbn [run rbind]. change (-1 =? -1) with true. cbn iota. intros [= E0 ->]. done. }
  rewrite run_bind, Hr. cbn [rbind]. destruct (Z.eqb_spec (freep s1) 0); [done|].
  destruct (malloc_from s1 al fl1 OK1 k (units nbytes)) as [(b & fl' & s' & Hr2 & Hb & OK' & Hk' & Hbrk' & Hcov)|[Hno' _]]; [lia|lia| |].
  { exists (b.1 + HDR), s'. split; [exact Hr2|]. split; [eapply kept_trans; [|exact Hk']; by eapply kept_trans|]. left. exists b, fl'. split; [done|].
    split; [by eapply block_aligned|]. rewrite Hb. split; [done|]. split; [done|]. rewrite Hbrk', Hbrk1, Hbrk. split; [|by right].
    intros a. by rewrite Hcov, Hcov1, Hbrk1, Hbrk. }
  pose proof (Hno' y Hy). lia.
Qed.

(** C9. The allocator.  Whatever blocks are in use and free: [malloc] ends; it returns an aligned block of at
    least the size asked for, whose bytes were free or were just added by the kernel and are free no longer, so it overlaps no block in
    use; it asks the kernel only if no free block is large enough, and for just the need rounded up to 4096 headers,
    and answers 0 exactly if it is then refused.  [free] of a block in use ends and makes exactly its bytes
    free.  Neither changes a byte of the other blocks in use, and both leave the list in order:
    circular, sorted by address, aligned, and no two free blocks adjacent. *)
Theorem malloc_free s al fl :
  rep s al fl ->
  (forall nbytes fuel, 0 <= nbytes < 2 ^ 30 -> (2 * length fl + 4 <= fuel)%nat ->
     exists r s', run (malloc base grow fuel nbytes s) = ROk r s' /\ kept al (umem s) (umem s') /\ allocated s al fl nbytes r s') /\
  (forall x al' fuel, al ≡ₚ x :: al' -> (length fl <= fuel)%nat ->
     exists s' fl', run (free fuel (x.1 + HDR) s) = ROk tt s' /\ kept al' (umem s) (umem s') /\ heap_ok s' al' fl' /\
       brk s' = brk s /\ forall a, covers fl' a <-> covers fl a \/ x.1 <= a < stop x).
Proof.
  intros R. split; [intros nbytes fuel; by apply malloc_spec|]. intros x al' fuel Hal Hf.
  destruct R as [OK|(_ & -> & _)]; [|apply Permutation_nil_cons in Hal; done].
  destruct (free_spec s al fl OK x al' fuel Hal Hf) as (fl' & s' & Hr & OK' & Hb & Hk & Hc & _). by exists s', fl'.
Qed.
End facts.

(** A heap before the first call, in a process that may grow to a megabyte. *)
Definition demo_grow (b n : Z) : bool := b + n <? 2 ^ 20.
Definition demo_heap : heap := mkHeap ∅ 0 8192.

Lemma malloc_free_witness : exists r s', run (malloc 4096 demo_grow 10 100 demo_heap) = ROk r s' /\ (HDR | r) /\ brk s' = brk demo_heap + HDR * 4096.
Proof.
  assert (rep 4096 demo_heap [] []) as R by (right; split_and!; try done; by exists 1024).
  assert (forall b n, demo_grow b n = true -> b + n < 2 ^ 31) as Hg by (intros b n H; apply Z.ltb_lt in H; lia).
  destruct (malloc_free 4096 demo_grow Hg demo_heap [] [] R) as [H _].
  destruct (H 100 10%nat ltac:(lia) ltac:(simpl; lia)) as (r & s' & Hr & _ & Hc). exists r, s'. split; [exact Hr|].
  destruct Hc as [(b & fl' & -> & Hal & _ & OK & Hcov & Hbrk)|(_ & _ & _ & Hno & _)]; [|vm_compute in Hno; discriminate Hno].
  split; [exact Hal|]. destruct Hbrk as [E|(_ & _ & E)]; [|exact E].
  exfalso. pose proof (h_placed _ _ _ _ OK) as Hp. rewrite Forall_forall in Hp. destruct (Hp b (list_elem_of_here _ _)) as (_ & Hb & _).
  destruct (proj1 (Hcov b.1)) as [(y & Hy & _)|H0]; [right; unfold stop, HDR; lia|by apply elem_of_nil in Hy|]. rewrite E in H0. lia.
Defined.
