(* ===== verification/Console.v ===== *)
(** Console input and output: console.c, kbd.c with kbd.h, and the output side of uart.c.

    The state is the input buffer with its three indices, the screen, and the bytes sent to the
    serial port.  [getc] of [consoleintr] is the list of the characters it returns until it
    returns -1.  The routines on inodes and [procdump], which [consoleread] and [consoleintr]
    call, are parameters. *)

From Stdlib Require Import ZArith Lia.
From stdpp Require Import base tactics option gmap sets strings numbers list.
From S2P Require Import Prelude CString User.
Open Scope Z_scope.

(** * The keyboard: kbd.h and kbd.c *)

Module Kbd.
Definition SHIFT : Z := 1.
Definition CTL : Z := 2.
Definition ALT : Z := 4.
Definition CAPSLOCK : Z := 8.
Definition NUMLOCK : Z := 16.
Definition SCROLLLOCK : Z := 32.
Definition E0ESC : Z := 64.
(** [C(x)] *)
Definition ctl (c : Z) : Z := c - 64.

(** A table with the entries of [l] from 0 on, and those given by their index. *)
Fixpoint find_key (extra : list (Z * Z)) (k : Z) : option Z :=
  match extra with
  | [] => None
  | (i, v) :: extra' => if i =? k then Some v else find_key extra' k
  end.
Definition table (l : list Z) (extra : list (Z * Z)) (k : Z) : Z :=
  match find_key extra k with Some v => v | None => default 0 (zlookup l k) end.

Definition shiftcode : Z -> Z := table [] [(0x1D, CTL); (0x2A, SHIFT); (0x36, SHIFT); (0x38, ALT); (0x9D, CTL); (0xB8, ALT)].
Definition togglecode : Z -> Z := table [] [(0x3A, CAPSLOCK); (0x45, NUMLOCK); (0x46, SCROLLLOCK)].

(** [KEY_UP] and the others. *)
Definition cursor_keys : list (Z * Z) :=
  [(0xC8, 0xE2); (0xD0, 0xE3); (0xC9, 0xE6); (0xD1, 0xE7); (0xCB, 0xE4); (0xCD, 0xE5); (0x97, 0xE0); (0xCF, 0xE1); (0xD2, 0xE8); (0xD3, 0xE9)].

Definition normalmap : Z -> Z := table
  ([0; 0x1B] ++ str "1234567890-=" ++ [8; 9] ++ str "qwertyuiop[]" ++ [10; 0] ++ str "asdfghjkl;'`" ++ [0; 92] ++ str "zxcvbnm,./" ++ [0] ++
   str "*" ++ [0] ++ str " " ++ replicate 13 0 ++ str "789-456+1230." ++ [0; 0; 0; 0])
  ([(0x9C, 10); (0xB5, 47)] ++ cursor_keys).
Definition shiftmap : Z -> Z := table
  ([0; 27] ++ str "!@#$%^&*()_+" ++ [8; 9] ++ str "QWERTYUIOP{}" ++ [10; 0] ++ str "ASDFGHJKL:" ++ [34] ++ str "~" ++ [0] ++ str "|ZXCVBNM<>?" ++ [0] ++
   str "*" ++ [0] ++ str " " ++ replicate 13 0 ++ str "789-456+1230." ++ [0; 0; 0; 0])
  ([(0x9C, 10); (0xB5, 47)] ++ cursor_keys).
Definition ctlmap : Z -> Z := table
  (replicate 16 0 ++ (ctl <$> str "QWERTYUIOP") ++ [0; 0; 13; 0] ++ (ctl <$> str "ASDFGHJKL") ++ [0; 0; 0; 0] ++ [ctl 92] ++ (ctl <$> str "ZXCVBNM") ++
   [0; 0; u8 (ctl 47); 0; 0])
  ([(0x9C, 13); (0xB5, u8 (ctl 47))] ++ cursor_keys).

Definition charcode (i : Z) : Z -> Z :=
  if i =? 0 then normalmap else if i =? 1 then shiftmap else ctlmap.

(** [kbdgetc] on the byte [data] from the keyboard: the character and the new [shift]. *)
Definition kbdgetc (shift data : Z) : Z * Z :=
  if data =? 0xE0 then (0, Z.lor shift E0ESC)
  else if negb (Z.land data 0x80 =? 0) then
    let data := if negb (Z.land shift E0ESC =? 0) then data else Z.land data 0x7F in
    (0, Z.land shift (Z.lnot (Z.lor (shiftcode data) E0ESC)))
  else
    let '(data, shift) :=
      if negb (Z.land shift E0ESC =? 0) then (Z.lor data 0x80, Z.land shift (Z.lnot E0ESC)) else (data, shift) in
    let shift := Z.lor shift (shiftcode data) in
    let shift := Z.lxor shift (togglecode data) in
    let c := charcode (Z.land shift (Z.lor CTL SHIFT)) data in
    let c :=
      if negb (Z.land shift CAPSLOCK =? 0) then
        if (97 <=? c) && (c <=? 122) then c + (65 - 97)
        else if (65 <=? c) && (c <=? 90) then c + (97 - 65)
        else c
      else c in
    (c, shift).

(** [kbdgetc] called until the controller has no more data: the characters for [bytes]. *)
Fixpoint kbd_chars (shift : Z) (bytes : list Z) : list Z * Z :=
  match bytes with
  | [] => ([], shift)
  | b :: bytes =>
      let '(c, shift) := kbdgetc shift b in
      let '(cs, shift) := kbd_chars shift bytes in
      (c :: cs, shift)
  end.
End Kbd.

(** * Output *)

Definition BACKSPACE : Z := 0x100.
Definition INPUT_BUF : Z := 128.

Record cons := mkCons {
  ibuf : list Z;
  r : Z;
  w : Z;
  e : Z;
  crt : list Z;
  pos : Z;
  sent : list Z;
  uart : bool;
  panicked : bool
}.
Definition set_input b i j k s := mkCons b i j k (crt s) (pos s) (sent s) (uart s) (panicked s).
Definition set_screen c p s := mkCons (ibuf s) (r s) (w s) (e s) c p (sent s) (uart s) (panicked s).
Definition set_sent l s := mkCons (ibuf s) (r s) (w s) (e s) (crt s) (pos s) l (uart s) (panicked s).

Definition uartputc (c : Z) : M cons unit :=
  modify (fun s => if uart s then set_sent (sent s ++ [u8 c]) s else s).

Definition white_on (c : Z) : Z := Z.lor (Z.land c 0xff) 0x0700.

(** The screen after the scroll: 23 lines moved up, the rest cleared. *)
Definition scroll_up (c : list Z) (p : Z) : list Z :=
  let c := take 1840 (drop 80 c) ++ drop 1840 c in
  take (Z.to_nat p) c ++ replicate (Z.to_nat (1920 - p)) 0 ++ drop (Z.to_nat (Z.max p 1920)) c.

Definition cgaputc (c : Z) : M cons unit :=
  p <- gets pos ;;
  m <- gets crt ;;
  let '(p, m) :=
    if c =? 10 then (p + (80 - p mod 80), m)
    else if c =? BACKSPACE then (if 0 <? p then p - 1 else p, m)
    else (p + 1, zinsert p (white_on c) m) in
  if (p <? 0) || (25 * 80 <? p) then panic "pos under/overflow" else
  let '(p, m) := if 24 <=? p / 80 then (p - 80, scroll_up m (p - 80)) else (p, m) in
  modify (set_screen (zinsert p (white_on 32) m) p).

(** On a machine that has panicked the processor stops here. *)
Definition consputc (c : Z) : M cons unit :=
  stopped <- gets panicked ;;
  if stopped then panic "stopped" else
  (if c =? BACKSPACE then uartputc 8 ;; uartputc 32 ;; uartputc 8 else uartputc c) ;;
  cgaputc c.

(** * Input *)

Definition ibuf_at (s : cons) (i : Z) : Z := default 0 (zlookup (ibuf s) (i mod INPUT_BUF)).

(** [while (input.e != input.w && input.buf[(input.e - 1) % INPUT_BUF] != '\n')] *)
Fixpoint kill_line (fuel : nat) : M cons unit :=
  s <- gets id ;;
  if negb (e s =? w s) && negb (ibuf_at s (u32 (e s - 1)) =? 10) then
    match fuel with
    | O => nofuel
    | S k =>
        modify (fun s => set_input (ibuf s) (r s) (w s) (u32 (e s - 1)) s) ;;
        consputc BACKSPACE ;;
        kill_line k
    end
  else ret tt.

(** One round of the loop of [consoleintr]; the result is whether to call [procdump]. *)
Definition type_char (c : Z) : M cons bool :=
  if c =? 16 then ret true
  else if c =? 21 then kill_line (Z.to_nat INPUT_BUF) ;; ret false
  else if (c =? 8) || (c =? 127) then
    s <- gets id ;;
    when (negb (e s =? w s)) (
      modify (fun s => set_input (ibuf s) (r s) (w s) (u32 (e s - 1)) s) ;;
      consputc BACKSPACE) ;;
    ret false
  else
    s <- gets id ;;
    when (negb (c =? 0) && (u32 (e s - r s) <? INPUT_BUF)) (
      let c := if c =? 13 then 10 else c in
      modify (fun s => set_input (zinsert (e s mod INPUT_BUF) (u8 c) (ibuf s)) (r s) (w s) (u32 (e s + 1)) s) ;;
      consputc c ;;
      s <- gets id ;;
      when ((c =? 10) || (c =? 4) || (e s =? u32 (r s + INPUT_BUF))) (
        modify (fun s => set_input (ibuf s) (r s) (e s) (e s) s) ;;
        wakeup CH_input)) ;;
    ret false.

Fixpoint type_chars (cs : list Z) (doprocdump : bool) : M cons bool :=
  match cs with
  | [] => ret doprocdump
  | c :: cs => d <- type_char c ;; type_chars cs (doprocdump || d)
  end.

(** [c = input.buf[input.r++ % INPUT_BUF];] *)
Definition take_char : M cons Z :=
  s <- gets id ;;
  modify (fun s => set_input (ibuf s) (u32 (r s + 1)) (w s) (e s) s) ;;
  ret (ibuf_at s (r s)).
Definition untake_char : M cons unit := modify (fun s => set_input (ibuf s) (u32 (r s - 1)) (w s) (e s) s).

Section console.
Context {T : Type} {L : Lens T cons}.
Context (iunlock ilock : nat -> M T unit) (procdump : M T unit) (killed : T -> bool).

Definition consoleintr (cs : list Z) : M T unit :=
  acquire LK_cons ;;
  doprocdump <- zoom (type_chars cs false) ;;
  release LK_cons ;;
  when doprocdump procdump.

(** The interrupt handlers on the bytes that the devices hold; the keyboard's keeps [shift]. *)
Definition kbdintr (shift : Z) (bytes : list Z) : M T Z :=
  let '(cs, shift) := Kbd.kbd_chars shift bytes in
  consoleintr cs ;;
  ret shift.
Definition uartintr (bytes : list Z) : M T unit :=
  s <- gets lget ;;
  consoleintr (if uart s then bytes else []).

(** [while (input.r == input.w)]; [false] if the process was killed. *)
Fixpoint wait_input (fuel : nat) : M T bool :=
  s <- gets id ;;
  if negb (r (lget s) =? w (lget s)) then ret true else
  if killed s then ret false else
  match fuel with
  | O => nofuel
  | S k => sleep_on CH_input LK_cons ;; wait_input k
  end.

(** The bytes stored in [dst], [None] if the process was killed; [n] are still wanted. *)
Fixpoint read_loop (fuel n : nat) (target : Z) : M T (option (list Z)) :=
  match n with
  | O => ret (Some [])
  | S k =>
      ok <- wait_input fuel ;;
      if negb ok then ret None else
      c <- zoom take_char ;;
      if c =? 4 then
        when (Z.of_nat n <? target) (zoom untake_char) ;;
        ret (Some [])
      else if c =? 10 then ret (Some [c])
      else
        l <- read_loop fuel k target ;;
        ret (app [c] <$> l)
  end.

Definition consoleread (fuel : nat) (ip : nat) (n : Z) : M T (Z * list Z) :=
  iunlock ip ;;
  acquire LK_cons ;;
  d <- read_loop fuel (Z.to_nat n) n ;;
  release LK_cons ;;
  ilock ip ;;
  match d with
  | None => ret (-1, [])
  | Some d => ret (Z.of_nat (length d), d)
  end.

Definition consolewrite (ip : nat) (src : list Z) : M T Z :=
  iunlock ip ;;
  acquire LK_cons ;;
  for_each src (fun c => zoom (consputc (Z.land c 0xff))) ;;
  release LK_cons ;;
  ilock ip ;;
  ret (Z.of_nat (length src)).
End console.
