(* ===== verification/ConsoleFacts.v ===== *)
(** The console refines a line discipline (console.c).

    [tty] is what a user sees: the characters that were entered and wait to be read, and the line
    being edited.  [key] is what a character typed does to it, [line_read] what a read takes. *)

From Stdlib Require Import ZArith Lia.
From stdpp Require Import base tactics option gmap sets strings numbers list.
From S2P Require Import Prelude CString User Console.
Open Scope Z_scope.

Record tty := mkTty { entered : list Z; line : list Z }.

Definition key (t : tty) (c : Z) : tty :=
  if c =? 16 then t
  else if c =? 21 then mkTty (entered t) []
  else if (c =? 8) || (c =? 127) then mkTty (entered t) (removelast (line t))
  else if negb (c =? 0) && bool_decide (length (entered t) + length (line t) < 128)%nat then
    let c := if c =? 13 then 10 else c in
    let l := line t ++ [c] in
    if (c =? 10) || (c =? 4) || bool_decide (length (entered t) + length l = 128)%nat
    then mkTty (entered t ++ l) [] else mkTty (entered t) l
  else t.

(** A read of [n] bytes, [d] of them stored: up to the end of the line; [^D] ends it, and stays for
    the next read unless nothing was stored.  [None]: it waits for input. *)
Fixpoint line_read (n : nat) (fresh : bool) (q : list Z) : option (list Z * list Z) :=
  match n with
  | O => Some ([], q)
  | S k =>
      match q with
      | [] => None
      | c :: q' =>
          if c =? 4 then Some ([], if fresh then q' else q)
          else if c =? 10 then Some ([c], q')
          else '(d, rest) ← line_read k false q'; Some (c :: d, rest)
      end
  end.

(** * The buffer as a queue *)

Definition waiting (t : tty) : list Z := entered t ++ line t.

Record tty_ok (s : cons) (t : tty) : Prop := {
  t_len : length (ibuf s) = 128%nat;
  t_r : 0 <= r s < 2 ^ 32;
  t_w : w s = u32 (r s + Z.of_nat (length (entered t)));
  t_e : e s = u32 (r s + Z.of_nat (length (waiting t)));
  t_fits : (length (waiting t) <= 128)%nat;
  t_chars : forall i x, waiting t !! i = Some x -> ibuf_at s (r s + Z.of_nat i) = x;
  t_line : 10 ∉ line t
}.
Definition screen_ok (s : cons) : Prop := 0 <= pos s < 1920 /\ panicked s = false.
Definition same_input (s s' : cons) : Prop := ibuf s' = ibuf s /\ r s' = r s /\ w s' = w s /\ e s' = e s.

Lemma same_input_ok s s' t : same_input s s' -> tty_ok s t -> tty_ok s' t.
Proof.
  intros (E1 & E2 & E3 & E4) []. split; rewrite ?E1, ?E2, ?E3, ?E4; try done. unfold ibuf_at in *. by rewrite E1.
Qed.

Lemma u32_mod x : u32 x mod INPUT_BUF = x mod INPUT_BUF.
Proof.
  unfold u32, INPUT_BUF. rewrite (Z.div_mod x (2 ^ 32)) at 2 by lia.
  replace (2 ^ 32 * (x / 2 ^ 32) + x mod 2 ^ 32) with (x mod 2 ^ 32 + (2 ^ 25 * (x / 2 ^ 32)) * 128) by lia. by rewrite Z_mod_plus_full.
Qed.
Lemma ibuf_u32 s x : ibuf_at s (u32 x) = ibuf_at s x.
Proof. unfold ibuf_at. by rewrite u32_mod. Qed.
Lemma u32_add x y : u32 (u32 x + y) = u32 (x + y).
Proof. unfold u32. by rewrite Zplus_mod_idemp_l. Qed.
Lemma u32_inj a x y : 0 <= x <= 128 -> 0 <= y <= 128 -> u32 (a + x) = u32 (a + y) -> x = y.
Proof.
  unfold u32. intros Hx Hy E. pose proof (Z.div_mod (a + x) (2 ^ 32) ltac:(lia)). pose proof (Z.div_mod (a + y) (2 ^ 32) ltac:(lia)).
  assert (x - y = 2 ^ 32 * ((a + x) / 2 ^ 32 - (a + y) / 2 ^ 32)) by lia. nia.
Qed.
Lemma u32_diff a x : 0 <= x < 2 ^ 32 -> u32 (u32 (a + x) - a) = x.
Proof. intros Hx. unfold u32. rewrite Zminus_mod_idemp_l. replace (a + x - a) with x by lia. by apply Z.mod_small. Qed.

(** * Output *)

Lemma cgaputc_spec c s : screen_ok s -> exists s', run (cgaputc c s) = ROk tt s' /\ screen_ok s' /\ same_input s s'.
Proof.
  intros [Hp Hq]. unfold cgaputc. mrun.
  assert (exists p m, (if c =? 10 then (pos s + (80 - pos s mod 80), crt s)
    else if c =? BACKSPACE then (if 0 <? pos s then pos s - 1 else pos s, crt s)
    else (pos s + 1, zinsert (pos s) (white_on c) (crt s))) = (p, m) /\ 0 <= p <= 1920) as (p & m & -> & Hr).
  { destruct (c =? 10).
    - eexists _, _. split; [reflexivity|]. pose proof (Z.div_mod (pos s) 80 ltac:(lia)). pose proof (Z.mod_pos_bound (pos s) 80 ltac:(lia)).
      assert (pos s / 80 < 24) by (apply Z.div_lt_upper_bound; lia). lia.
    - destruct (c =? BACKSPACE); (eexists _, _; split; [reflexivity|]); [destruct (Z.ltb_spec 0 (pos s))|]; lia. }
  destruct (Z.ltb_spec p 0), (Z.ltb_spec (25 * 80) p); try lia. cbn [orb].
  destruct (Z.leb_spec 24 (p / 80)) as [H24|H24].
  - mrun. eexists. split; [reflexivity|]. split; [|done]. split; [|done]. cbn [pos set_screen]. assert (24 * 80 <= p) by (pose proof (Z.div_mod p 80 ltac:(lia)); pose proof (Z.mod_pos_bound p 80 ltac:(lia)); lia). lia.
  - mrun. eexists. split; [reflexivity|]. split; [|done]. split; [|done]. cbn [pos set_screen]. pose proof (Z.div_mod p 80 ltac:(lia)); pose proof (Z.mod_pos_bound p 80 ltac:(lia)). lia.
Qed.

Lemma consputc_spec c s : screen_ok s -> exists s', run (consputc c s) = ROk tt s' /\ screen_ok s' /\ same_input s s'.
Proof.
  intros Hs. assert (forall c s, screen_ok s -> exists s', run (uartputc c s) = ROk tt s' /\ screen_ok s' /\ same_input s s') as Hu.
  { clear. intros c s [Hp Hq]. unfold uartputc. mrun. eexists. split; [reflexivity|]. by destruct (uart s). }
  assert (forall a b c, same_input a b -> same_input b c -> same_input a c) as Htr.
  { intros a b d (? & ? & ? & ?) (? & ? & ? & ?). unfold same_input. split_and!; congruence. }
  unfold consputc. rewrite run_bind, run_gets. cbn [rbind]. destruct Hs as [Hp Hq]. rewrite Hq. destruct (c =? BACKSPACE).
  - destruct (Hu 8 s) as (s1 & R1 & S1 & I1); [done|]. destruct (Hu 32 s1) as (s2 & R2 & S2 & I2); [done|]. destruct (Hu 8 s2) as (s3 & R3 & S3 & I3); [done|].
    destruct (cgaputc_spec c s3 S3) as (s4 & R4 & S4 & I4). exists s4. rewrite !run_bind, R1. cbn [rbind]. rewrite !run_bind, R2. cbn [rbind]. rewrite R3. cbn [rbind].
    split; [done|]. split; [done|]. eauto.
  - destruct (Hu c s) as (s1 & R1 & S1 & I1); [done|]. destruct (cgaputc_spec c s1 S1) as (s4 & R4 & S4 & I4). exists s4.
    rewrite !run_bind, R1. cbn [rbind]. split; [done|]. split; [done|]. eauto.
Qed.

(** * Typing *)

(** The last character of the line is dropped. *)
Lemma erase_ok s t c l : tty_ok s t -> line t = l ++ [c] ->
  e s <> w s /\ ibuf_at s (u32 (e s - 1)) = c /\ tty_ok (set_input (ibuf s) (r s) (w s) (u32 (e s - 1)) s) (mkTty (entered t) l).
Proof.
  intros [Hlen Hr Hw He Hf Hc Hl] El. unfold waiting in *. rewrite El, !length_app in *. cbn [length] in *. set (n := length (entered t)) in *.
  assert (u32 (e s - 1) = u32 (r s + Z.of_nat (n + length l))) as Ee.
  { rewrite He. replace (u32 (r s + Z.of_nat (n + (length l + 1))) - 1) with (u32 (r s + Z.of_nat (n + (length l + 1))) + -1) by lia. rewrite u32_add. f_equal. lia. }
  split_and!.
  - rewrite He, Hw. intros E. apply u32_inj in E; lia.
  - rewrite Ee, ibuf_u32. apply (Hc (n + length l)%nat). rewrite lookup_app_r by lia. replace (n + length l - length (entered t))%nat with (length l) by lia.
    rewrite lookup_app_r, Nat.sub_diag by lia. done.
  - rewrite Ee. split; unfold waiting; cbn [ibuf r w e set_input entered line]; rewrite ?length_app; try done; try lia.
    + intros i x Hi. apply Hc. rewrite app_assoc. by apply lookup_app_l_Some.
    + set_solver.
Qed.
Lemma no_line s t : tty_ok s t -> line t = [] -> e s = w s.
Proof. intros [] El. unfold waiting in *. rewrite El, app_nil_r in *. congruence. Qed.

Lemma erase_run s t c l : tty_ok s t -> screen_ok s -> line t = l ++ [c] ->
  exists s', run ((modify (fun s => set_input (ibuf s) (r s) (w s) (u32 (e s - 1)) s) ;; consputc BACKSPACE) s) = ROk tt s' /\
    tty_ok s' (mkTty (entered t) l) /\ screen_ok s'.
Proof.
  intros OK Sc El. destruct (erase_ok s t c l OK El) as (_ & _ & OK'). mrun.
  destruct (consputc_spec BACKSPACE (set_input (ibuf s) (r s) (w s) (u32 (e s - 1)) s)) as (s' & R & S' & I); [done|].
  exists s'. split; [done|]. split; [|done]. by eapply same_input_ok.
Qed.

Lemma kill_line_spec fuel s t : tty_ok s t -> screen_ok s -> (length (line t) <= fuel)%nat ->
  exists s', run (kill_line fuel s) = ROk tt s' /\ tty_ok s' (mkTty (entered t) []) /\ screen_ok s'.
Proof.
  revert s t. induction fuel as [|k IH]; intros s t OK Sc Hf; (destruct (line t) as [|x l0] eqn:El using rev_ind; [|clear IHl0]).
  1, 3: exists s; cbn [kill_line]; rewrite run_bind, run_gets; cbn [rbind]; unfold id; rewrite (no_line s t OK El), Z.eqb_refl; cbn [negb andb];
    split; [done|]; split; [|done]; destruct t; cbn [line entered] in *; by subst.
  { rewrite length_app in Hf. simpl in Hf. lia. }
  destruct (erase_ok s t x l0 OK El) as (Hne & Hx & _). assert (x <> 10) as Hx10.
  { pose proof (t_line _ _ OK) as Hl. rewrite El in Hl. set_solver. }
  cbn [kill_line]. rewrite run_bind, run_gets. cbn [rbind]. unfold id. rewrite Hx. destruct (Z.eqb_spec (e s) (w s)); [done|]. destruct (Z.eqb_spec x 10); [done|]. cbn [negb andb].
  destruct (erase_run s t x l0 OK Sc El) as (s1 & R1 & OK1 & Sc1). rewrite run_bind in R1 |- *. destruct (run (modify _ s)) as [[] s0| | | | |]; try discriminate R1.
  cbn [rbind] in R1 |- *. rewrite run_bind, R1. cbn [rbind]. destruct (IH s1 (mkTty (entered t) l0) OK1 Sc1) as (s2 & R2 & OK2 & Sc2); [cbn [line]; rewrite length_app in Hf; simpl in Hf; lia|].
  by exists s2.
Qed.

(** A character is stored behind those that wait. *)
Definition stored (c : Z) (s : cons) : cons := set_input (zinsert (e s mod INPUT_BUF) (u8 c) (ibuf s)) (r s) (w s) (u32 (e s + 1)) s.

Lemma stored_at s t c i x : tty_ok s t -> (length (waiting t) < 128)%nat -> 0 <= c < 256 ->
  (waiting t ++ [c]) !! i = Some x -> ibuf_at (stored c s) (r s + Z.of_nat i) = x.
Proof.
  intros [Hlen Hr Hw He Hf Hc Hl] Hn Hb Hi. pose proof (lookup_lt_Some _ _ _ Hi) as Hlt. rewrite length_app in Hlt. cbn [length] in Hlt.
  unfold ibuf_at, stored. cbn [ibuf set_input]. rewrite He, u32_mod.
  destruct (decide (i = length (waiting t))) as [-> |Hne].
  - rewrite lookup_app_r, Nat.sub_diag in Hi by lia. injection Hi as <-. rewrite zlookup_zinsert_eq; cbn [default from_option].
    + unfold u8, id. apply Z.mod_small. lia.
    + rewrite Hlen. apply Z.mod_pos_bound. unfold INPUT_BUF. lia.
  - rewrite lookup_app_l in Hi by lia. rewrite zlookup_zinsert_ne; [by apply Hc|]. unfold INPUT_BUF. intros E.
    pose proof (Z.div_mod (r s + Z.of_nat i) 128 ltac:(lia)). pose proof (Z.div_mod (r s + Z.of_nat (length (waiting t))) 128 ltac:(lia)). lia.
Qed.

Lemma stored_end s t c : tty_ok s t -> u32 (e s + 1) = u32 (r s + Z.of_nat (length (waiting t ++ [c]))).
Proof. intros []. rewrite t_e0, u32_add, length_app. f_equal. simpl. lia. Qed.

Lemma append_ok s t c : tty_ok s t -> (length (waiting t) < 128)%nat -> 0 <= c < 256 -> c <> 10 ->
  tty_ok (stored c s) (mkTty (entered t) (line t ++ [c])).
Proof.
  intros OK Hn Hb H10. pose proof (stored_end s t c OK). pose proof (stored_at s t c) as Hat. destruct OK as [Hlen Hr Hw He Hf Hc Hl]. unfold waiting in *.
  split; unfold waiting; cbn [entered line]; rewrite ?app_assoc; try done.
  - by unfold stored; cbn [ibuf set_input]; rewrite length_zinsert.
  - rewrite length_app. cbn [length]. lia.
  - intros i x. by apply Hat.
  - set_solver.
Qed.

(** The line is committed. *)
Lemma commit_ok s t c : tty_ok s t -> (length (waiting t) < 128)%nat -> 0 <= c < 256 ->
  tty_ok (set_input (ibuf (stored c s)) (r s) (u32 (e s + 1)) (u32 (e s + 1)) s) (mkTty (entered t ++ line t ++ [c]) []).
Proof.
  intros OK Hn Hb. pose proof (stored_end s t c OK). pose proof (stored_at s t c) as Hat. destruct OK as [Hlen Hr Hw He Hf Hc Hl]. unfold waiting in *.
  split; unfold waiting; cbn [entered line]; rewrite ?app_nil_r, ?app_assoc; try done.
  - by unfold stored; cbn [ibuf set_input]; rewrite length_zinsert.
  - rewrite length_app. cbn [length]. lia.
  - intros i x. by apply Hat.
  - set_solver.
Qed.

Lemma room s t : tty_ok s t -> u32 (e s - r s) <? INPUT_BUF = bool_decide (length (entered t) + length (line t) < 128)%nat.
Proof.
  intros []. rewrite t_e0, u32_diff by lia. unfold INPUT_BUF, waiting. rewrite length_app.
  by case_bool_decide; destruct (Z.ltb_spec (Z.of_nat (length (entered t) + length (line t))) 128); lia.
Qed.

Lemma filled s t c : tty_ok s t -> (length (entered t) + length (line t) < 128)%nat ->
  u32 (e s + 1) =? u32 (r s + INPUT_BUF) = bool_decide (length (entered t) + length (line t ++ [c]) = 128)%nat.
Proof.
  intros OK Hn. rewrite (stored_end s t c OK). unfold waiting, INPUT_BUF. rewrite !length_app. cbn [length].
  case_bool_decide as Hd.
  - apply Z.eqb_eq. f_equal. lia.
  - apply Z.eqb_neq. intros E. apply u32_inj in E; lia.
Qed.

(** A character is echoed and stored, and the line committed when it ends. *)
Lemma enter_spec s t c : tty_ok s t -> screen_ok s -> 0 <= c < 256 -> (length (entered t) + length (line t) < 128)%nat ->
  exists s', run ((modify (stored c) ;; consputc c ;; s <- gets id ;;
      when ((c =? 10) || (c =? 4) || (e s =? u32 (r s + INPUT_BUF))) (
        modify (fun s => set_input (ibuf s) (r s) (e s) (e s) s) ;; wakeup CH_input)) s) = ROk tt s' /\ screen_ok s' /\
    tty_ok s' (if (c =? 10) || (c =? 4) || bool_decide (length (entered t) + length (line t ++ [c]) = 128)%nat
               then mkTty (entered t ++ line t ++ [c]) [] else mkTty (entered t) (line t ++ [c])).
Proof.
  intros OK Sc Hb Hn. destruct (consputc_spec c (stored c s)) as (s1 & R1 & Sc1 & (I1 & I2 & I3 & I4)); [done|].
  mstep. mstep. mstep. rewrite R1. cbn [rbind]. mstep. mstep. unfold id. rewrite run_when, I2, I4. cbn [e r stored set_input]. rewrite (filled s t c OK Hn).
  assert (length (waiting t) < 128)%nat as Hw by (unfold waiting; rewrite length_app; lia).
  destruct ((c =? 10) || (c =? 4) || bool_decide _) eqn:Ec.
  - mrun. eexists. split; [reflexivity|]. split; [done|]. eapply same_input_ok; [|exact (commit_ok s t c OK Hw Hb)].
    unfold same_input. cbn [ibuf r w e set_input]. rewrite I1, I2, I4. done.
  - exists s1. split; [done|]. split; [done|]. eapply same_input_ok; [|apply (append_ok s t c OK Hw Hb)]; [done|].
    intros ->. done.
Qed.

Lemma removelast_snoc {A} (l : list A) x : removelast (l ++ [x]) = l.
Proof. rewrite removelast_app by done. simpl. apply app_nil_r. Qed.

Lemma type_char_spec s t c : tty_ok s t -> screen_ok s -> 0 <= c < 256 ->
  exists s', run (type_char c s) = ROk (c =? 16) s' /\ tty_ok s' (key t c) /\ screen_ok s'.
Proof.
  intros OK Sc Hb. unfold type_char, key. destruct (c =? 16) eqn:E16; [by exists s; mrun|].
  destruct (c =? 21).
  { destruct (kill_line_spec (Z.to_nat INPUT_BUF) s t OK Sc) as (s' & R' & OK' & Sc'); [|by exists s'; rewrite run_bind, R'; mrun].
    pose proof (t_fits _ _ OK) as Hf. unfold waiting in Hf. rewrite length_app in Hf. unfold INPUT_BUF. lia. }
  destruct ((c =? 8) || (c =? 127)).
  { mstep. mstep. rewrite run_bind, run_when. unfold id. destruct (line t) as [|x l0 _] eqn:El using rev_ind.
    - rewrite (no_line s t OK El), Z.eqb_refl. exists s. mrun. split; [done|]. split; [|done]. destruct t; cbn [line entered] in *. by subst.
    - destruct (erase_ok s t x l0 OK El) as (Hne & _). destruct (erase_run s t x l0 OK Sc El) as (s' & R' & OK' & Sc').
      apply Z.eqb_neq in Hne. rewrite Hne. cbn [negb]. exists s'. rewrite R'. cbn [rbind]. by rewrite removelast_snoc. }
  mstep. mstep. rewrite run_bind, run_when. unfold id. rewrite (room s t OK).
  destruct (negb (c =? 0)); cbn [andb]; [|by exists s].
  case_bool_decide as Hn; [|by exists s].
  destruct (enter_spec s t (if c =? 13 then 10 else c) OK Sc) as (s' & R' & Sc' & OK'); [by destruct (c =? 13)|done|].
  exists s'. unfold stored, id in R'. cbv zeta. rewrite R'. done.
Qed.

Lemma type_chars_spec cs s t d : tty_ok s t -> screen_ok s -> Forall (fun c => 0 <= c < 256) cs ->
  exists s', run (type_chars cs d s) = ROk (d || existsb (Z.eqb 16) cs) s' /\ tty_ok s' (foldl key t cs) /\ screen_ok s'.
Proof.
  revert s t d. induction cs as [|c cs IH]; intros s t d OK Sc Hb; cbn [type_chars existsb foldl].
  { exists s. by rewrite orb_false_r. }
  apply Forall_cons in Hb as [Hc Hb]. destruct (type_char_spec s t c OK Sc Hc) as (s1 & R1 & OK1 & Sc1).
  destruct (IH s1 (key t c) (d || (c =? 16)) OK1 Sc1 Hb) as (s' & R' & OK' & Sc'). exists s'.
  rewrite run_bind, R1. cbn [rbind]. rewrite R', orb_assoc, (Z.eqb_sym 16). done.
Qed.

(** * Reading *)

Lemma take_ok s c q l : tty_ok s (mkTty (c :: q) l) ->
  ibuf_at s (r s) = c /\ tty_ok (set_input (ibuf s) (u32 (r s + 1)) (w s) (e s) s) (mkTty q l).
Proof.
  intros [Hlen Hr Hw He Hf Hc Hl]. unfold waiting in *. cbn [entered line length app] in *. split.
  - rewrite <- (Z.add_0_r (r s)). by apply (Hc 0%nat).
  - split; unfold waiting; cbn [ibuf r w e set_input entered line]; try done; try lia.
    + unfold u32. apply Z.mod_pos_bound. lia.
    + rewrite Hw, u32_add. f_equal. lia.
    + rewrite He, u32_add. f_equal. lia.
    + intros i x Hi. unfold ibuf_at in *. cbn [ibuf set_input]. rewrite <- (Hc (S i) x Hi), <- u32_mod, u32_add, u32_mod. do 3 f_equal. lia.
Qed.

Lemma untake s : 0 <= r s < 2 ^ 32 -> u32 (u32 (r s + 1) - 1) = r s.
Proof.
  intros H. replace (u32 (r s + 1) - 1) with (u32 (r s + 1) + -1) by lia. rewrite u32_add. unfold u32. rewrite <- (Z.mod_small (r s) (2 ^ 32)) at 2 by done.
  f_equal. lia.
Qed.

Section reading.
Context {T : Type} {L : Lens T cons}.
Context (iunlock ilock : nat -> M T unit) (procdump : M T unit) (killed : T -> bool).

(** A routine that returns, and changes neither the console nor [proc->killed].  [ilock] and [iunlock] are assumed to be such routines: the inode of the
    console is unlocked when it is wanted, so [ilock] does not sleep, and is held when it is dropped. *)
Definition quiet (m : M T unit) : Prop :=
  forall t, exists t', run (m t) = ROk tt t' /\ lget t' = lget t /\ killed t' = killed t.
Context (Hput : forall s t, killed (lput s t) = killed t).
Context (Hunlock : forall i, quiet (iunlock i)) (Hlock : forall i, quiet (ilock i)) (Hdump : quiet procdump).

(** The console of [t] holds [y]. *)
Definition holds (t : T) (y : tty) : Prop := tty_ok (lget t) y /\ screen_ok (lget t).

Lemma consoleintr_spec cs t y : holds t y -> Forall (fun c => 0 <= c < 256) cs ->
  exists t', run (consoleintr procdump cs t) = ROk tt t' /\ holds t' (foldl key y cs) /\ killed t' = killed t.
Proof.
  intros [OK Sc] Hb. destruct (type_chars_spec cs (lget t) y false OK Sc Hb) as (s' & R' & OK' & Sc').
  unfold consoleintr. mstep. mstep. mstep. rewrite run_zoom, R'. cbn [rzoom rbind]. mstep. mstep. rewrite run_when.
  assert (holds (lput s' t) (foldl key y cs)) as Hh by (unfold holds; rewrite lget_lput; done).
  destruct (false || existsb (Z.eqb 16) cs); [|by exists (lput s' t)].
  destruct (Hdump (lput s' t)) as (t' & Rt & Et & Ek). exists t'. unfold holds. rewrite Rt, Et, Ek. done.
Qed.

Lemma wait_ready fuel t c q l : holds t (mkTty (c :: q) l) -> run (wait_input killed fuel t) = ROk true t.
Proof.
  intros [[] _]. assert (negb (r (lget t) =? w (lget t)) = true) as E.
  { apply negb_true_iff, Z.eqb_neq. unfold waiting in *. cbn [entered line length] in *. rewrite length_app in *. cbn [length] in *. intros E. rewrite t_w0 in E.
    rewrite <- (Z.mod_small (r (lget t)) (2 ^ 32)) in E at 1 by done. fold (u32 (r (lget t))) in E. rewrite <- (Z.add_0_r (r (lget t))) in E at 1. apply u32_inj in E; lia. }
  destruct fuel; cbn [wait_input]; mstep; mstep; unfold id; rewrite E; done.
Qed.

Lemma wait_blocks k t l : holds t (mkTty [] l) -> killed t = false -> run (wait_input killed (S k) t) = RBlocked CH_input t.
Proof.
  intros [[] _] Hk. cbn [entered length] in *. rewrite Z.add_0_r in t_w0. unfold u32 in t_w0. rewrite Z.mod_small in t_w0 by done.
  cbn [wait_input]. mstep. mstep. unfold id. rewrite t_w0, Z.eqb_refl, Hk. done.
Qed.

Lemma take_spec t c q l : holds t (mkTty (c :: q) l) ->
  exists t', run (zoom take_char t) = ROk c t' /\ holds t' (mkTty q l) /\ killed t' = killed t /\
    exists t'', run (zoom untake_char t') = ROk tt t'' /\ holds t'' (mkTty (c :: q) l) /\ killed t'' = killed t.
Proof.
  intros [OK Sc]. destruct (take_ok _ _ _ _ OK) as [Ec OK']. unfold take_char. mrun. unfold id. rewrite Ec. eexists. split; [reflexivity|].
  unfold holds. rewrite lget_lput, Hput. split; [done|]. split; [done|]. unfold untake_char. mrun. eexists. split; [reflexivity|]. rewrite !lget_lput, !Hput.
  split; [|done]. split; [|done]. eapply same_input_ok; [|exact OK]. unfold same_input. cbn [ibuf r w e set_input]. rewrite untake by apply OK. done.
Qed.

Lemma read_loop_spec k n target q l t : holds t (mkTty q l) -> killed t = false -> Z.of_nat n <= target ->
  match line_read n (Z.of_nat n =? target) q with
  | Some (d, rest) => exists t', run (read_loop killed (S k) n target t) = ROk (Some d) t' /\ holds t' (mkTty rest l) /\ killed t' = false
  | None => exists t', run (read_loop killed (S k) n target t) = RBlocked CH_input t' /\ holds t' (mkTty [] l)
  end.
Proof.
  revert q t. induction n as [|n IH]; intros q t Hh Hk Hn; [by exists t|].
  cbn [line_read read_loop]. destruct q as [|c q].
  { exists t. rewrite run_bind, (wait_blocks k t l Hh Hk). done. }
  rewrite run_bind, (wait_ready (S k) t c q l Hh). cbn [rbind negb]. destruct (take_spec t c q l Hh) as (t1 & R1 & H1 & K1 & t2 & R2 & H2 & K2).
  rewrite run_bind, R1. cbn [rbind]. destruct (c =? 4).
  - rewrite run_bind, run_when. destruct (Z.eqb_spec (Z.of_nat (S n)) target), (Z.ltb_spec (Z.of_nat (S n)) target); try lia.
    + exists t1. rewrite K1. done.
    + exists t2. rewrite R2, K2. done.
  - destruct (c =? 10); [by exists t1; rewrite K1|].
    specialize (IH q t1 H1 ltac:(by rewrite K1) ltac:(lia)). destruct (Z.eqb_spec (Z.of_nat n) target); [lia|].
    destruct (line_read n false q) as [[d rest]|]; destruct IH as (t' & R' & IH'); exists t'; rewrite run_bind, R'; done.
Qed.

End reading.

(** A console whose indices are about to wrap around, with nothing typed. *)
Definition fresh_cons : cons := mkCons (replicate 128 0) (2 ^ 32 - 2) (2 ^ 32 - 2) (2 ^ 32 - 2) (replicate 2000 0) 1919 [] true false.
#[local] Instance lens_self : Lens (cons * bool) cons.
Proof. exact (Build_Lens _ _ fst (fun s t => (s, snd t)) (fun _ _ => eq_refl) (fun t => match t with (_, _) => eq_refl end) (fun _ _ _ => eq_refl)). Defined.

Lemma fresh_holds : holds (fresh_cons, false) (mkTty [] []).
Proof.
  split; [|by split; [vm_compute; split; congruence|]].
  split; [reflexivity|by vm_compute|reflexivity|reflexivity|cbn; lia|by intros|by intros H%elem_of_nil].
Qed.


(** * The keyboard *)

Module KbdFacts.
Import Kbd.

(** The scan codes of the letters. *)
Definition letter_keys : list Z := seqZ 0x10 10 ++ seqZ 0x1E 9 ++ seqZ 0x2C 7.

Definition letter_case (shift c : Z) : bool :=
  if xorb (Z.testbit shift 0) (Z.testbit shift 3) then (65 <=? c) && (c <=? 90) else (97 <=? c) && (c <=? 122).

(** What is said of [kbdgetc] below, for one state and one byte. *)
Definition kbd_good (shift data : Z) : bool :=
  let '(c, shift') := kbdgetc shift data in
  (0 <=? c) && (c <? 256) && (0 <=? shift') && (shift' <? 128) &&
  (if data <? 128 then true else c =? 0) &&
  (if Z.testbit shift 1 || Z.testbit shift 6 || negb (bool_decide (data ∈ letter_keys)) then true else letter_case shift c).

Lemma kbd_table : forallb (fun s => forallb (kbd_good s) (seqZ 0 256)) (seqZ 0 128) = true.
Proof. vm_compute. reflexivity. Qed.

Lemma kbd_good_all shift data : 0 <= shift < 128 -> 0 <= data < 256 -> kbd_good shift data = true.
Proof.
  intros Hs Hd. pose proof kbd_table as H. rewrite forallb_forall in H. specialize (H shift). rewrite forallb_forall in H.
  apply H; apply list_elem_of_In, elem_of_seqZ; lia.
Qed.

Lemma kbd_chars_range bytes shift : 0 <= shift < 128 -> Forall (fun b => 0 <= b < 256) bytes ->
  Forall (fun c => 0 <= c < 256) (kbd_chars shift bytes).1 /\ 0 <= (kbd_chars shift bytes).2 < 128.
Proof.
  revert shift. induction bytes as [|b bytes IH]; intros shift Hs Hb; [by split; [constructor|]|].
  apply Forall_cons in Hb as [Hb Hbs]. pose proof (kbd_good_all shift b Hs Hb) as G. unfold kbd_good in G. cbn [kbd_chars].
  destruct (kbdgetc shift b) as [c s1]. rewrite !andb_true_iff in G. destruct G as [[[[[G1 G2] G3] G4] _] _].
  destruct (IH s1) as [IH1 IH2]; [lia|done|]. destruct (kbd_chars s1 bytes) as [cs s2]. cbn [fst snd] in *. split; [constructor; [lia|done]|done].
Qed.

Section keyboard.
Context {T : Type} {L : Lens T cons} (killed : T -> bool) (procdump : M T unit) (Hput : forall s t, killed (lput s t) = killed t) (Hdump : quiet killed procdump).

(** C40. Whatever bytes the keyboard sends, [kbdintr] terminates without a panic and edits the console as the
    line discipline says with the characters of these bytes; the shift state stays
    in its seven bits, the release of a key gives no character, and a
    letter key (no control, no escape) gives a capital exactly when one of Shift and Caps Lock is on. *)
Theorem kbdintr_typed shift bytes t y : 0 <= shift < 128 -> Forall (fun b => 0 <= b < 256) bytes -> holds t y ->
  (exists t', run (kbdintr procdump shift bytes t) = ROk (kbd_chars shift bytes).2 t' /\ holds t' (foldl key y (kbd_chars shift bytes).1)) /\
  0 <= (kbd_chars shift bytes).2 < 128 /\
  (forall data, 128 <= data < 256 -> (kbdgetc shift data).1 = 0) /\
  (forall data, data ∈ letter_keys -> Z.testbit shift 1 = false -> Z.testbit shift 6 = false -> letter_case shift (kbdgetc shift data).1 = true).
Proof.
  intros Hs Hb Hh. destruct (kbd_chars_range bytes shift Hs Hb) as [Hc Hr]. split_and!; try lia.
  - destruct (consoleintr_spec procdump killed Hput Hdump _ t y Hh Hc) as (t' & R & Hh' & _). exists t'. unfold kbdintr.
    destruct (kbd_chars shift bytes) as [cs s']. cbn [fst snd] in *. rewrite run_bind, R. done.
  - intros data Hd. pose proof (kbd_good_all shift data Hs ltac:(lia)) as G. unfold kbd_good in G. destruct (kbdgetc shift data) as [c s'].
    rewrite !andb_true_iff in G. destruct G as [[_ G] _]. destruct (Z.ltb_spec data 128); [lia|]. by apply Z.eqb_eq in G.
  - intros data Hd H1 H6. assert (0 <= data < 256) as Hr'.
    { revert Hd. unfold letter_keys. rewrite !elem_of_app, !elem_of_seqZ. lia. }
    pose proof (kbd_good_all shift data Hs Hr') as G. unfold kbd_good in G. destruct (kbdgetc shift data) as [c s'].
    rewrite !andb_true_iff in G. destruct G as [_ G]. rewrite H1, H6, bool_decide_true in G by done. done.
Qed.
End keyboard.

(** Shift, "a", release of both, Enter. *)
Lemma kbdintr_typed_witness :
  exists t', run (kbdintr (ret tt) 0 [0x2A; 0x1E; 0x9E; 0xAA; 0x1C] (fresh_cons, false)) = ROk 0 t' /\ holds t' (mkTty [65; 10] []).
Proof.
  assert (holds (fresh_cons, false) (mkTty [] [])) as Hh by apply fresh_holds.
  assert (quiet (snd : cons * bool -> bool) (ret tt)) as Hq by (intros t; by exists t).
  destruct (kbdintr_typed (L := lens_self) snd (ret tt) (fun s t => eq_refl) Hq 0 [0x2A; 0x1E; 0x9E; 0xAA; 0x1C] (fresh_cons, false) (mkTty [] [])) as [H _];
    [lia|repeat constructor; lia|done|]. exact H.
Defined.
End KbdFacts.
