(* ===== verification/FileServer.v ===== *)
(** The file server and its clients: fileserver.c and fss.h.

    A client writes a request into a shared page and signals the server; the server copies the
    file it is about to change below /checkpoint, makes the call, and leaves the result in a second
    page.  The calls are interfaces: [UserOps] for files, [FssOps] for mutexes, condition variables
    and the shared pages.  Strings are the bytes before the NUL; [rdata] is the whole array.

    [stored_path] holds pointers.  The only one ever stored is the address of [tempath], an
    array of a block of [main] that ends with the request: a slot is [SNull] or [SDangling], and a use of
    a dangling slot is undefined. *)

From Stdlib Require Import ZArith Lia.
From stdpp Require Import base tactics option gmap sets strings numbers list.
From S2P Require Import Prelude CString Bytes FsFormat Fs Format Sysfile User.
Open Scope Z_scope.

(** * The shared pages and the calls *)

Record fss_request := mkReq { operation : list Z; arg : Z; rfd : Z; rdata : list Z }.
Inductive slot := SNull | SDangling.
#[export] Instance slot_eq_dec : EqDecision slot.
Proof. solve_decision. Defined.

(** The request, [res] of the response, and [stored_path] of the server. *)
Record fss := mkFss { request : fss_request; res_ : Z; stored_path : list slot }.
Definition set_request r s := mkFss r (res_ s) (stored_path s).
Definition set_res r s := mkFss (request s) r (stored_path s).
Definition set_stored l s := mkFss (request s) (res_ s) l.

(** [shm_get] returns whether there is a page. *)
Class FssOps (S : Type) := {
  fss_lens :: Lens S fss;
  shm_get : list Z -> Z -> M S bool;
  mutex_create : list Z -> Z -> M S Z;
  mutex_lock : Z -> M S unit;
  mutex_unlock : Z -> M S unit;
  cv_wait : Z -> M S unit;
  cv_signal : Z -> M S unit;
  setHighPrio : M S unit;
  write_negative : Z -> Z -> M S Z
}.

Section fss.
Context {S : Type} {UO : UserOps S} {FO : FssOps S}.

Definition say (t : string) : M S unit := printf 1 (str t ++ [nl]) [].
Definition say_str (t : string) (x : option (list Z)) : M S unit := printf 1 (str t ++ [nl]) [AStr x].
Definition say_int (t : string) (x : Z) : M S unit := printf 1 (str t ++ [nl]) [AInt x].

(** A page that is used without a look at what [shm_get] returned. *)
Definition page (name : string) (len : Z) : M S unit :=
  ok <- shm_get (str name) len ;;
  if ok then ret tt else undef "shm_get failed".
Definition get_request : M S fss_request := gets (fun s => request (lget s)).
Definition upd_request (f : fss_request -> fss_request) : M S unit :=
  modify (fun s => lput (set_request (f (request (lget s))) (lget s)) s).

(** [strcpy] into [operation]: its seven bytes and the byte of padding behind them. *)
Definition put_operation (t : string) : M S unit :=
  if (length (str t) <? 8)%nat then upd_request (fun r => mkReq (str t) (arg r) (rfd r) (rdata r)) else undef "operation".
Definition put_arg (n : Z) : M S unit := upd_request (fun r => mkReq (operation r) n (rfd r) (rdata r)).
Definition put_fd (n : Z) : M S unit := upd_request (fun r => mkReq (operation r) (arg r) n (rdata r)).
Definition put_bytes (t : list Z) : M S unit := upd_request (fun r => mkReq (operation r) (arg r) (rfd r) (t ++ drop (length t) (rdata r))).
Definition put_data (t : list Z) : M S unit := if (length t <? 1024)%nat then put_bytes (t ++ [0]) else undef "data".
Definition get_res : M S Z := gets (fun s => res_ (lget s)).
Definition put_res (r : Z) : M S unit := modify (fun s => lput (set_res r (lget s)) s).

(** * fss.h *)

Definition intialize_mutex : M S (Z * Z) :=
  mutexreq <- mutex_create (str "request_mutex") 14 ;;
  mutexresp <- mutex_create (str "response_mutex") 14 ;;
  say "mutexes made" ;;
  ret (mutexreq, mutexresp).

Section mutexes.
Context (mutexreq mutexresp : Z).

Definition fss_write (fd1 : Z) (ptr : list Z) (n : Z) : M S Z :=
  mutex_lock mutexreq ;;
  page "request" 7 ;;
  put_operation "write" ;;
  put_arg n ;;
  put_fd fd1 ;;
  put_data ptr ;;
  r <- get_request ;;
  say_str "operation = %s" (Some (operation r)) ;;
  say "data set" ;;
  cv_signal mutexreq ;;
  cv_wait mutexresp ;;
  say "waiting done" ;;
  page "response" 8 ;;
  mutex_unlock mutexresp ;;
  say "response received" ;;
  get_res.

Definition fss_read (fd1 : Z) (ptr : list Z) (n : Z) : M S Z :=
  mutex_lock mutexreq ;;
  page "request" 7 ;;
  put_operation "read" ;;
  put_arg n ;;
  put_fd fd1 ;;
  put_data ptr ;;
  cv_signal mutexreq ;;
  cv_wait mutexresp ;;
  page "response" 8 ;;
  mutex_unlock mutexresp ;;
  get_res.

Definition fss_open (path : list Z) (fd1 : Z) : M S Z :=
  say "testing open" ;;
  mutex_lock mutexreq ;;
  say "lock taken" ;;
  page "request" 7 ;;
  put_operation "open" ;;
  r <- get_request ;;
  say_str "%s" (Some (operation r)) ;;
  put_fd fd1 ;;
  put_data path ;;
  r <- get_request ;;
  say_str "operation = %s" (Some (operation r)) ;;
  say "data set" ;;
  cv_signal mutexreq ;;
  cv_wait mutexresp ;;
  say "waiting done" ;;
  page "response" 8 ;;
  say "response received" ;;
  retval <- get_res ;;
  mutex_unlock mutexresp ;;
  ret retval.

Definition fss_close (fd1 : Z) : M S Z :=
  mutex_lock mutexreq ;;
  page "request" 7 ;;
  put_operation "close" ;;
  put_fd fd1 ;;
  cv_signal mutexreq ;;
  cv_wait mutexresp ;;
  page "response" 8 ;;
  mutex_unlock mutexresp ;;
  get_res.

Definition fss_mkdir (path : list Z) : M S Z :=
  mutex_lock mutexreq ;;
  page "request" 7 ;;
  put_operation "mkdir" ;;
  put_data path ;;
  say "mkdir test" ;;
  cv_signal mutexreq ;;
  mutex_lock mutexresp ;;
  cv_wait mutexresp ;;
  say "testme" ;;
  page "response" 8 ;;
  mutex_unlock mutexresp ;;
  get_res.

Definition fss_unlink (path : list Z) : M S Z :=
  mutex_lock mutexreq ;;
  page "request" 7 ;;
  put_operation "unlink" ;;
  put_data path ;;
  cv_signal mutexreq ;;
  cv_wait mutexresp ;;
  page "response" 8 ;;
  mutex_unlock mutexresp ;;
  get_res.

Definition fss_restore : M S Z :=
  mutex_lock mutexreq ;;
  page "request" 7 ;;
  put_operation "restore" ;;
  cv_signal mutexreq ;;
  cv_wait mutexresp ;;
  page "response" 8 ;;
  mutex_unlock mutexresp ;;
  get_res.

(** * fileserver.c *)

(** [pre] is the part of the path before [p], [rest] the part from [p] on. *)
Fixpoint r_mkdir_loop (pre rest : list Z) : M S unit :=
  match rest with
  | [] => ret tt
  | c :: rest =>
      when (c =? 47) (
        '(r, _) <- ustat pre ;;
        when (r =? -1) (mkdir pre ;; ret tt)) ;;
      r_mkdir_loop (pre ++ [c]) rest
  end.
Definition r_mkdir (path : list Z) : M S unit := r_mkdir_loop [] path.

(** [dest] is an array of [size] bytes. *)
Definition parse (size : nat) (check path : list Z) : M S (list Z) :=
  if (length (check ++ path) <? size)%nat then ret (check ++ path) else undef "parse".

(** The loop that copies a file, [n] bytes at a time. *)
Fixpoint copy_loop (fuel : nat) (n fd checkfd : Z) : M S unit :=
  match fuel with
  | O => nofuel
  | Datatypes.S k =>
      '(nchars, buf) <- read fd n ;;
      if 0 <? nchars then write checkfd buf ;; copy_loop k n fd checkfd else ret tt
  end.

(** [sizeof(buf)] *)
Definition SIZEOF_PTR : Z := 4.

(** [check] is [stored_path[fd_array]]. *)
Definition checkpoint (fuel : nat) (check : option (list Z)) (dest : list Z) : M S Z :=
  say "now running checkpoint" ;;
  say_str "opening file %s" check ;;
  match check with
  | None => undef "open of a null pointer"
  | Some check =>
      fd <- open check O_RDONLY ;;
      if fd <? 0 then ret (-1) else
      say "preparse" ;;
      path <- parse 1024 dest check ;;
      say_str "filename:%s" (Some path) ;;
      r_mkdir path ;;
      fd1 <- open path O_RDONLY ;;
      when (0 <=? fd1) (close fd1 ;; unlink path ;; ret tt) ;;
      checkfd <- open path (Z.lor O_WRONLY O_CREATE) ;;
      when (checkfd <? 0) (say "Can not create file") ;;
      copy_loop fuel SIZEOF_PTR fd checkfd ;;
      r <- close fd ;;
      when (r =? -1) (say "Can not close origin file") ;;
      r <- close checkfd ;;
      when (r =? -1) (say "Can not close checkpoint file") ;;
      ret 0
  end.

(** The loop over the directory.  [head] is what [buf] holds before [p], empty once [buf] was
    cleared for the copy of a file. *)
Fixpoint restore_loop (fuel : nat) (fd : Z) (path parsed_path head : list Z) : M S unit :=
  match fuel with
  | O => nofuel
  | Datatypes.S k =>
      '(n, de) <- read fd DIRENT_SIZE ;;
      if negb (n =? DIRENT_SIZE) then ret tt else
      if de_inum de =? 0 then restore_loop k fd path parsed_path head else
      let buf := match head with [] => [] | _ => head ++ cstr (Z.to_nat DIRSIZ) (de_name de) end in
      '(r, st) <- ustat buf ;;
      match st with
      | None =>
          say_str "ls: cannot stat %s" (Some buf) ;;
          restore_loop k fd path parsed_path head
      | Some st =>
          if st_type st =? 1 then undef "strcpy to an uninitialised pointer" else
          checkfd <- open parsed_path O_RDONLY ;;
          when (0 <=? checkfd) (close checkfd ;; unlink path ;; ret tt) ;;
          checkfd <- open parsed_path (Z.lor O_WRONLY O_CREATE) ;;
          when (checkfd <? 0) (say "Can not create file") ;;
          copy_loop k 1024 fd checkfd ;;
          say_str "restored file %s" (Some (fmtname [])) ;;
          restore_loop k fd path parsed_path []
      end
  end.

(** [restore] always ends in [exit]. *)
Definition restore (fuel : nat) (path : list Z) : M S unit :=
  say "restore called" ;;
  let parsed_path := drop 12 path in
  say_str "parsed path= %s" (Some parsed_path) ;;
  say "test" ;;
  fd <- open path 0 ;;
  if fd <? 0 then printf 2 (str "restore: cannot open %s" ++ [nl]) [AStr (Some path)] else
  '(r, st) <- fstat fd ;;
  if r <? 0 then
    printf 2 (str "restore: cannot stat %s" ++ [nl]) [AStr (Some path)] ;;
    close fd ;;
    ret tt
  else if (st_type st =? T_FILE) || (st_type st =? T_DIR) then
    if 1024 <? strlen path + 1 + DIRSIZ + 1 then say "ls: path too long"
    else restore_loop fuel fd path parsed_path (path ++ [47]) ;; close fd ;; ret tt
  else close fd ;; ret tt.

(** [stored_path[fd]] as an argument. *)
Definition stored (fd : Z) : M S (option (list Z)) :=
  l <- gets (fun s => stored_path (lget s)) ;;
  match zlookup l fd with
  | None => undef "stored_path index"
  | Some SDangling => undef "stored_path dangles"
  | Some SNull => ret None
  end.
Definition put_stored (fd : Z) (x : slot) : M S unit :=
  l <- gets (fun s => stored_path (lget s)) ;;
  match zlookup l fd with
  | None => undef "stored_path index"
  | Some _ => modify (fun s => lput (set_stored (zinsert fd x l) (lget s)) s)
  end.
Definition print_stored : M S unit :=
  r <- get_request ;;
  p <- stored (rfd r) ;;
  say_str "stored path = %s" p.

(** The string in [data]. *)
Definition data_text : M S (list Z) :=
  r <- get_request ;;
  let t := cstr 1024 (rdata r) in
  if (length t <? 1024)%nat then ret t else undef "data".

Definition to_response : M S unit :=
  mutex_unlock mutexreq ;;
  mutex_lock mutexresp ;;
  ret tt.

(** The branches of [main]. *)
Definition serve_write (fuel : nat) : M S unit :=
  say "writing" ;;
  r <- get_request ;;
  say_int "fd = %d" (rfd r) ;;
  print_stored ;;
  to_response ;;
  say "testing mutex locking inside write" ;;
  page "response" 8 ;;
  say "calling checckpoint" ;;
  print_stored ;;
  r <- get_request ;;
  p <- stored (rfd r) ;;
  checkpoint fuel p (str "/checkpoint/") ;;
  say "sending response" ;;
  r <- get_request ;;
  res <- (if arg r <? 0 then write_negative (rfd r) (arg r)
          else if 1024 <? arg r then undef "data" else write (rfd r) (take (Z.to_nat (arg r)) (rdata r))) ;;
  put_res res ;;
  cv_signal mutexresp.
Definition serve_read : M S unit :=
  to_response ;;
  page "response" 8 ;;
  r <- get_request ;;
  say_int "fd = %d" (rfd r) ;;
  t <- data_text ;;
  printf 1 (str "read data = %s read size %d" ++ [nl]) [AStr (Some t); AInt (arg r)] ;;
  r <- get_request ;;
  '(n, b) <- read (rfd r) (arg r) ;;
  (if (length b <=? 1024)%nat then put_bytes b else undef "data") ;;
  put_res n ;;
  say_int "response was %d" n ;;
  cv_signal mutexresp.
Definition serve_open : M S unit :=
  say "opening" ;;
  to_response ;;
  page "response" 8 ;;
  r <- get_request ;;
  t <- data_text ;;
  res <- open t (rfd r) ;;
  put_res res ;;
  tempath <- data_text ;;
  res <- get_res ;;
  put_stored res SDangling ;;
  say_str "testing store to array= %s" (Some tempath) ;;
  res <- get_res ;;
  say_int "fd =%d" res ;;
  say "sending response" ;;
  cv_signal mutexresp.
Definition serve_mkdir : M S unit :=
  to_response ;;
  page "response" 8 ;;
  t <- data_text ;;
  res <- mkdir t ;;
  put_res res ;;
  cv_signal mutexresp.
Definition serve_close : M S unit :=
  to_response ;;
  page "response" 8 ;;
  r <- get_request ;;
  put_stored (rfd r) SNull ;;
  res <- close (rfd r) ;;
  put_res res ;;
  cv_signal mutexresp.
Definition serve_unlink : M S unit :=
  to_response ;;
  page "response" 8 ;;
  t <- data_text ;;
  path <- parse 1024 (str "/checkpoint/") t ;;
  printf 2 (str "help me dear lord filename:%s" ++ [nl]) [AStr (Some path)] ;;
  r_mkdir path ;;
  t <- data_text ;;
  res <- unlink t ;;
  put_res res ;;
  cv_signal mutexresp.

(** A request, from the return of [cv_wait] on; [false] if the server exits. *)
Definition handle (fuel : nat) : M S bool :=
  say "signal set" ;;
  page "request" 7 ;;
  print_stored ;;
  print_stored ;;
  r <- get_request ;;
  let op := operation r in
  say "servr received response processing type" ;;
  say_str "command is %s" (Some op) ;;
  if bool_decide (op = str "write") then serve_write fuel ;; ret true
  else if bool_decide (op = str "read") then serve_read ;; ret true
  else if bool_decide (op = str "open") then serve_open ;; ret true
  else if bool_decide (op = str "mkdir") then serve_mkdir ;; ret true
  else if bool_decide (op = str "close") then serve_close ;; ret true
  else if bool_decide (op = str "unlink") then serve_unlink ;; ret true
  else if bool_decide (op = str "restore") then restore fuel (str "/checkpoint/") ;; ret false
  else say "didn't catch that" ;; ret false.

(** [n] bounds the requests, [fuel] the loops of one. *)
Fixpoint serve (n fuel : nat) : M S unit :=
  match n with
  | O => nofuel
  | Datatypes.S k =>
      say "done blocking test" ;;
      say "done blocking test2" ;;
      printf 1 (str "$ ") [] ;;
      cv_wait mutexreq ;;
      go <- handle fuel ;;
      if go then serve k fuel else ret tt
  end.
End mutexes.

Definition fileserver_main (n fuel : nat) : M S unit :=
  mkdir (str "checkpoint") ;;
  setHighPrio ;;
  '(mutexreq, mutexresp) <- intialize_mutex ;;
  serve mutexreq mutexresp n fuel.
End fss.
