(* ===== verification/FileServerFacts.v ===== *)
(** The file server makes complete backups, and its table of paths dangles (fileserver.c, fss.h).

    [FileLaws] says what the server relies on of the file calls: names stand for files (numbers)
    or directories, files have contents, descriptors refer to a file and an offset.  The laws are
    those of a file system with room left, for a process that runs in the root directory. *)

From Stdlib Require Import ZArith Lia.
From stdpp Require Import base tactics option gmap sets strings numbers list.
From S2P Require Import Prelude CString Bytes FsFormat Fs Format Sysfile User FileServer.
Open Scope Z_scope.

(** * Paths *)

Definition is_slash (c : Z) : bool := c =? 47.
Definition comps (p : list Z) : list (list Z) := parts_by is_slash [] p.
Definition plain (p : list Z) : Prop :=
  head p = Some 47 /\ Forall (fun c => c <> str "." /\ c <> str ".." /\ (length c <= 14)%nat) (comps p).

Lemma parts_by_sep sep cur q c r : sep c = true -> parts_by sep cur (q ++ c :: r) = parts_by sep cur q ++ parts_by sep [] r.
Proof.
  intros Hc. revert cur. induction q as [|x q IH]; intros cur; cbn [app parts_by].
  - rewrite Hc. unfold emit. by case_decide.
  - destruct (sep x); [|apply IH]. rewrite IH. unfold emit. by case_decide.
Qed.
Lemma comps_slash q r : comps (q ++ 47 :: r) = comps q ++ comps r.
Proof. by apply parts_by_sep. Qed.
Lemma parts_by_none sep cur q : Forall (fun x => sep x = false) q -> parts_by sep cur q = emit (cur ++ q) [].
Proof.
  revert cur. induction q as [|x q IH]; intros cur Hq; cbn [parts_by]; [by rewrite app_nil_r|].
  apply Forall_cons in Hq as [-> Hq]. rewrite IH by done. by rewrite <- app_assoc.
Qed.
Lemma comps_name n : n <> [] -> 47 ∉ n -> comps n = [n].
Proof.
  intros Hn Hs. unfold comps. rewrite parts_by_none; [unfold emit; by case_decide|]. apply Forall_forall. intros x Hx. apply Z.eqb_neq. by intros ->.
Qed.

Lemma parts_by_nil sep cur p : parts_by sep cur p = [] -> cur = [] /\ Forall (fun c => sep c = true) p.
Proof.
  revert cur. induction p as [|c p IH]; intros cur; cbn [parts_by]; unfold emit.
  - case_decide; [by split|done].
  - destruct (sep c) eqn:Ec; [case_decide; [|done]|]; intros E; apply IH in E as [E1 E2]; [by split; [|constructor]|by destruct cur].
Qed.
(** A path that does not end in a slash has one component more than what is before its slashes. *)
Lemma comps_longer p a b : last p <> Some 47 -> p = a ++ 47 :: b -> comps p <> comps a.
Proof.
  intros Hl -> E. rewrite comps_slash in E. apply (f_equal length) in E. rewrite length_app in E.
  destruct (comps b) eqn:Eb; [|simpl in E; lia]. apply parts_by_nil in Eb as [_ Eb]. apply Hl. rewrite last_app_cons.
  destruct (last_cons 47 b) as []. destruct b as [|c b _] using rev_ind; [done|]. rewrite app_comm_cons, last_snoc. apply Forall_app in Eb as [_ Eb].
  apply Forall_cons in Eb as [Eb _]. by apply Z.eqb_eq in Eb as ->.
Qed.

Lemma plain_prefix q r : q <> [] -> plain (q ++ 47 :: r) -> plain q.
Proof.
  intros Hq [Hh Hc]. split; [by destruct q|]. rewrite comps_slash in Hc. by apply Forall_app in Hc as [? _].
Qed.

(** * What the server relies on *)

Inductive fdesc := FdFile (i off : nat) (wr : bool) | FdDir.

Class FileView (S : Type) := {
  isdir : S -> list Z -> bool;
  file : S -> list Z -> option nat;
  contents : S -> nat -> list Z;
  fdt : S -> Z -> option fdesc
}.

Section relations.
Context {S : Type} {FV : FileView S} {FO : FssOps S}.

(** The directories may grow; files, contents and the shared pages stay. *)
Record grown (s s' : S) : Prop := {
  g_dir : forall p, isdir s p = true -> isdir s' p = true;
  g_file : forall p, file s' p = file s p;
  g_data : forall i, contents s' i = contents s i;
  g_fss : lget s' = lget s
}.
Definition same_dirs (s s' : S) : Prop := forall p, isdir s' p = isdir s p.
Definition same_fds (s s' : S) : Prop := forall g, fdt s' g = fdt s g.

(** Nothing but the descriptor [fd] changed. *)
Definition fd_set (fd : Z) (d : option fdesc) (s s' : S) : Prop :=
  grown s s' /\ same_dirs s s' /\ fdt s' fd = d /\ forall g, g <> fd -> fdt s' g = fdt s g.
Definition same (s s' : S) : Prop := grown s s' /\ same_dirs s s' /\ same_fds s s'.

Definition has_parent (s : S) (p : list Z) : Prop :=
  exists q n, p = q ++ 47 :: n /\ isdir s q = true /\ n <> [] /\ 47 ∉ n.
End relations.

Class FileLaws (S : Type) {UO : UserOps S} {FO : FssOps S} {FV : FileView S} := {
  cwd_dir : forall s, isdir s [] = true;
  dir_slash : forall s q, isdir s q = true -> isdir s (q ++ [47]) = true;
  file_not_dir : forall s p i, file s p = Some i -> isdir s p = false;
  open_file : forall s p i, file s p = Some i ->
    exists fd s', run (open p O_RDONLY s) = ROk fd s' /\ 2 < fd /\ fdt s fd = None /\ fd_set fd (Some (FdFile i 0 false)) s s';
  open_dir : forall s p, isdir s p = true ->
    exists fd s', run (open p O_RDONLY s) = ROk fd s' /\ 2 < fd /\ fdt s fd = None /\ fd_set fd (Some FdDir) s s';
  open_none : forall s p, file s p = None -> isdir s p = false ->
    exists s', run (open p O_RDONLY s) = ROk (-1) s' /\ same s s';
  fstat_law : forall s fd d, fdt s fd = Some d -> exists st s', run (fstat fd s) = ROk (0, st) s' /\ same s s';
  close_law : forall s fd d, fdt s fd = Some d -> exists s', run (close fd s) = ROk 0 s' /\ fd_set fd None s s';
  mkdir_law : forall s p, plain p -> has_parent s p -> file s p = None -> isdir s p = false ->
    exists s', run (mkdir p s) = ROk 0 s' /\ isdir s' p = true /\ grown s s' /\ same_fds s s' /\
      forall q, plain q -> isdir s' q = true -> isdir s q = true \/ comps q = comps p;
  unlink_law : forall s p i, file s p = Some i ->
    exists s', run (unlink p s) = ROk 0 s' /\ file s' p = None /\ same_dirs s s' /\ same_fds s s' /\ lget s' = lget s /\
      (forall q j, file s q = Some j -> j <> i -> file s' q = Some j) /\ forall j, j <> i -> contents s' j = contents s j;
  create_law : forall s p, has_parent s p -> file s p = None -> isdir s p = false ->
    exists fd j s', run (open p (Z.lor O_WRONLY O_CREATE) s) = ROk fd s' /\ 2 < fd /\ fdt s fd = None /\
      fdt s' fd = Some (FdFile j 0 true) /\ (forall g, g <> fd -> fdt s' g = fdt s g) /\
      file s' p = Some j /\ contents s' j = [] /\ same_dirs s s' /\ lget s' = lget s /\
      (forall q, file s q <> Some j) /\ (forall g off wr, fdt s g <> Some (FdFile j off wr)) /\
      (forall q i, file s q = Some i -> file s' q = Some i) /\ forall i, i <> j -> contents s' i = contents s i;
  read_file : forall s fd i off n, fdt s fd = Some (FdFile i off false) -> 0 <= n ->
    let b := take (Z.to_nat n) (drop off (contents s i)) in
    exists s', run (read fd n s) = ROk (Z.of_nat (length b), b) s' /\ fd_set fd (Some (FdFile i (off + length b) false)) s s';
  write_file : forall s fd i d, 2 < fd -> fdt s fd = Some (FdFile i (length (contents s i)) true) ->
    exists s', run (write fd d s) = ROk (Z.of_nat (length d)) s' /\ contents s' i = contents s i ++ d /\
      (forall j, j <> i -> contents s' j = contents s j) /\ (forall q, file s' q = file s q) /\ same_dirs s s' /\ lget s' = lget s /\
      fdt s' fd = Some (FdFile i (length (contents s i ++ d)) true) /\ forall g, g <> fd -> fdt s' g = fdt s g;
  write_console : forall s d, exists r s', run (write 1 d s) = ROk r s' /\ same s s'
}.

Section facts.
Context {S : Type} {UO : UserOps S} {FO : FssOps S} {FV : FileView S} {FL : FileLaws S}.

Lemma grown_trans (a b c : S) : grown a b -> grown b c -> grown a c.
Proof. intros [] []. split; [auto|congruence|congruence|congruence]. Qed.
Lemma view_trans (a b c : S) : same a b -> same b c -> same a c.
Proof.
  intros (G & D & F) (G' & D' & F'). split; [by eapply grown_trans|]. split; intros x; [rewrite D'|rewrite F']; auto.
Qed.
Lemma view_refl (s : S) : same s s.
Proof. done. Qed.

(** A descriptor that is opened and closed again leaves no trace. *)
Lemma fd_set_closed fd d (s s1 s2 : S) : fdt s fd = None -> fd_set fd d s s1 -> fd_set fd None s1 s2 -> same s s2.
Proof.
  intros Hn (G & D & E & O) (G' & D' & E' & O'). split; [by eapply grown_trans|]. split; [intros p; by rewrite D', D|].
  intros g. destruct (decide (g = fd)) as [-> |Hg]; [by rewrite E'|]. by rewrite O', O.
Qed.
Lemma fd_set_same fd d (s s1 s2 : S) : fd_set fd d s s1 -> same s1 s2 -> fd_set fd d s s2.
Proof.
  intros (G & D & E & O) (G' & D' & F'). split; [by eapply grown_trans|]. split; [intros p; by rewrite D', D|]. split; [by rewrite F'|].
  intros g Hg. rewrite F'. auto.
Qed.

(** * Printing *)

Lemma puts_same t s : exists s', run (puts 1 t s) = ROk tt s' /\ same s s'.
Proof.
  revert s. induction t as [|c t IH]; intros s; [by exists s|]. destruct (write_console s [c]) as (r & s1 & R1 & S1). destruct (IH s1) as (s2 & R2 & S2).
  exists s2. unfold puts in *. cbn [for_each]. rewrite !run_bind, R1. cbn [rbind]. mrun. split; [exact R2|]. by eapply view_trans.
Qed.
Lemma printf_same fmt args t s : Format.printf fmt args = Some t -> exists s', run (printf 1 fmt args s) = ROk tt s' /\ same s s'.
Proof. intros Ht. unfold printf. rewrite Ht. apply puts_same. Qed.

(** * Directories *)

Lemma ustat_spec p s : exists r st s', run (ustat p s) = ROk (r, st) s' /\ same s s' /\
  (if isdir s p then r = 0 else match file s p with Some _ => r = 0 | None => r = -1 end).
Proof.
  assert (forall d, (exists fd s1, run (open p O_RDONLY s) = ROk fd s1 /\ 2 < fd /\ fdt s fd = None /\ fd_set fd (Some d) s s1) ->
    exists r st s', run (ustat p s) = ROk (r, st) s' /\ same s s' /\ r = 0) as Hok.
  { intros d (fd & s1 & R1 & Hfd & Hn & O1). destruct (fstat_law s1 fd d) as (st & s2 & R2 & S2); [apply O1|].
    destruct (close_law s2 fd d) as (s3 & R3 & O3); [destruct S2 as (_ & _ & F2); rewrite F2; apply O1|].
    exists 0, (Some st), s3. unfold ustat. rewrite run_bind. change (open p 0) with (open p O_RDONLY). rewrite R1. cbn [rbind]. destruct (Z.ltb_spec fd 0); [lia|].
    rewrite run_bind, R2. cbn [rbind]. rewrite run_bind, R3. cbn [rbind]. mrun. split; [done|]. split; [|done].
    eapply fd_set_closed; [exact Hn| |exact O3]. by eapply fd_set_same. }
  destruct (isdir s p) eqn:Ed.
  { apply (Hok FdDir), open_dir, Ed. }
  destruct (file s p) as [i|] eqn:Ef.
  { apply (Hok (FdFile i 0 false)), open_file, Ef. }
  destruct (open_none s p Ef Ed) as (s1 & R1 & S1). exists (-1), None, s1. unfold ustat. rewrite run_bind. change (open p 0) with (open p O_RDONLY). by rewrite R1.
Qed.

(** What precedes the last component of [pre] is a directory. *)
Definition tail_ok (s : S) (pre : list Z) : Prop := pre = [] \/ exists q n, pre = q ++ 47 :: n /\ 47 ∉ n /\ isdir s q = true.

Lemma tail_ok_grown s s' pre : grown s s' -> tail_ok s pre -> tail_ok s' pre.
Proof. intros G [-> |(q & n & E & Hn & Hq)]; [by left|]. right. exists q, n. split; [done|]. split; [done|]. by apply G. Qed.

(** One round of [r_mkdir] at a slash. *)
Lemma ensure_dir s pre : tail_ok s pre -> (pre <> [] -> plain pre) -> file s pre = None ->
  exists s', run (('(r, _) <- ustat pre ;; when (r =? -1) (mkdir pre ;; ret tt)) s) = ROk tt s' /\
    grown s s' /\ same_fds s s' /\ isdir s' pre = true /\
    forall q, plain q -> isdir s' q = true -> isdir s q = true \/ comps q = comps pre.
Proof.
  intros Ht Hp Hf. destruct (ustat_spec pre s) as (r & st & s1 & R1 & (G1 & D1 & F1) & Hr). rewrite run_bind, R1. cbn [rbind]. rewrite run_when.
  destruct (isdir s pre) eqn:Ed.
  { subst r. exists s1. split; [done|]. split; [done|]. split; [done|]. split; [by rewrite D1|]. intros q _ Hq. left. by rewrite <- D1. }
  rewrite Hf in Hr. subst r. change (-1 =? -1) with true. cbn iota.
  assert (has_parent s1 pre /\ pre <> []) as [Hpar Hne].
  { destruct Ht as [-> |(q & n & -> & Hn & Hq)]; [by rewrite cwd_dir in Ed|]. split; [|by destruct q]. exists q, n. split_and!; [done|by rewrite D1| |done].
    intros ->. by rewrite (dir_slash s q Hq) in Ed. }
  destruct (mkdir_law s1 pre (Hp Hne) Hpar) as (s2 & R2 & H2 & G2 & F2 & N2); [by rewrite (g_file _ _ G1)|by rewrite D1|].
  rewrite run_bind, R2. exists s2. split; [done|]. split; [by eapply grown_trans|]. split; [intros g; by rewrite F2|]. split; [done|].
  intros q Hq Hd. destruct (N2 q Hq Hd) as [H|H]; [|by right]. left. by rewrite <- D1.
Qed.

Lemma snoc_cons {A} (l : list A) x r : (l ++ [x]) ++ r = l ++ x :: r.
Proof. by rewrite <- app_assoc. Qed.

(** [r_mkdir] makes every directory on the way to [pre ++ rest]; only prefixes become directories. *)
Lemma r_mkdir_spec pre rest s : tail_ok s pre -> (pre <> [] -> head pre = Some 47) -> plain (pre ++ rest) ->
  (forall q n, pre ++ rest = q ++ 47 :: n -> file s q = None) ->
  exists s', run (r_mkdir_loop pre rest s) = ROk tt s' /\ grown s s' /\ same_fds s s' /\ tail_ok s' (pre ++ rest) /\
    forall q, plain q -> isdir s' q = true -> isdir s q = true \/ exists a b, pre ++ rest = a ++ 47 :: b /\ comps q = comps a.
Proof.
  revert pre s. induction rest as [|c rest IH]; intros pre s Ht Hh Hp Hf; cbn [r_mkdir_loop].
  { exists s. rewrite app_nil_r. split; [done|]. split; [done|]. split; [done|]. split; [done|]. by left. }
  rewrite run_bind, run_when. destruct (Z.eqb_spec c 47) as [-> |Hc].
  - destruct (ensure_dir s pre Ht) as (s1 & R1 & G1 & F1 & D1 & N1).
    { intros Hne. by eapply plain_prefix. }
    { by apply (Hf pre rest). }
    destruct (IH (pre ++ [47]) s1) as (s2 & R2 & G2 & F2 & T2 & N2); rewrite ?snoc_cons; try done.
    { right. exists pre, []. split; [done|]. split; [set_solver|done]. }
    { intros _. destruct pre; [done|]. by apply Hh. }
    { intros q n E. rewrite (g_file _ _ G1). by apply (Hf q n). }
    exists s2. rewrite R1. cbn [rbind]. split; [done|]. split; [by eapply grown_trans|]. split; [intros g; by rewrite F2|]. rewrite snoc_cons in T2, N2. split; [done|].
    intros q Hq Hd. destruct (N2 q Hq Hd) as [H|H]; [|by right]. destruct (N1 q Hq H) as [H'|H']; [by left|]. right. by exists pre, rest.
  - cbn [rbind]. destruct (IH (pre ++ [c]) s) as (s2 & R2 & G2 & F2 & T2 & N2); rewrite ?snoc_cons; try done.
    { destruct Ht as [-> |(q & n & -> & Hn & Hq)].
      - exfalso. destruct Hp as [Hp _]. cbn in Hp. congruence.
      - right. exists q, (n ++ [c]). split; [by rewrite <- app_assoc|]. split; [set_solver|done]. }
    { intros _. destruct pre; [|by apply Hh]. destruct Hp as [Hp _]. done. }
    exists s2. rewrite snoc_cons in T2, N2. split; [done|]. split; [done|]. split; [done|]. by split.
Qed.

(** * The copy *)

(** From [s] to [s'] the file [j] became [d], the descriptors [a] and [b] moved, and nothing else changed. *)
Record copied (a b : Z) (j : nat) (d : list Z) (s s' : S) : Prop := {
  c_data : contents s' j = d;
  c_others : forall k, k <> j -> contents s' k = contents s k;
  c_file : forall q, file s' q = file s q;
  c_dirs : same_dirs s s';
  c_fss : lget s' = lget s;
  c_fds : forall g, g <> a -> g <> b -> fdt s' g = fdt s g;
  c_a : exists x, fdt s' a = Some x;
  c_b : exists x, fdt s' b = Some x
}.

Lemma copy_loop_spec fuel n fd cf i j off s : 0 < n -> i <> j -> fd <> cf -> 2 < cf ->
  fdt s fd = Some (FdFile i off false) -> fdt s cf = Some (FdFile j (length (contents s j)) true) ->
  (length (drop off (contents s i)) < fuel)%nat ->
  exists s', run (copy_loop fuel n fd cf s) = ROk tt s' /\ copied fd cf j (contents s j ++ drop off (contents s i)) s s'.
Proof.
  intros Hn Hij Hfc Hcf2. revert off s. induction fuel as [|k IH]; intros off s Hfd Hcf Hfuel; [lia|]. cbn [copy_loop].
  destruct (read_file s fd i off n Hfd) as (s1 & R1 & G1 & D1 & F1 & O1); [lia|]. cbv zeta in *. set (b := take _ _) in *.
  rewrite run_bind, R1. cbn [rbind]. destruct (Z.ltb_spec 0 (Z.of_nat (length b))) as [Hb|Hb].
  - destruct (write_file s1 cf j b) as (s2 & R2 & W2 & C2 & N2 & D2 & L2 & F2 & O2).
    { done. }
    { rewrite O1, (g_data _ _ G1) by done. done. }
    rewrite run_bind, R2. cbn [rbind]. rewrite !(g_data _ _ G1) in *.
    destruct (IH (off + length b)%nat s2) as (s3 & R3 & C3).
    { by rewrite O2 by done. }
    { by rewrite F2, W2. }
    { rewrite C2, (g_data _ _ G1) by done. assert (length b <= length (drop off (contents s i)))%nat by (unfold b; rewrite length_take; lia).
      rewrite length_drop in *. lia. }
    exists s3. split; [done|]. rewrite W2, C2, (g_data _ _ G1), <- app_assoc in C3 by done.
    replace (b ++ drop (off + length b) (contents s i)) with (drop off (contents s i)) in C3.
    2: { rewrite <- drop_drop. rewrite <- (take_drop (Z.to_nat n) (drop off (contents s i))) at 1. fold b. f_equal.
         unfold b. rewrite length_take. destruct (decide (Z.to_nat n <= length (drop off (contents s i)))%nat); [by rewrite Nat.min_l|].
         rewrite Nat.min_r, !drop_ge by lia. done. }
    destruct C3 as [E1 E2 E3 E4 E5 E6 E7 E8]. split; try done.
    + intros x Hx. by rewrite E2, C2, (g_data _ _ G1).
    + intros q. by rewrite E3, N2, (g_file _ _ G1).
    + intros q. by rewrite E4, D2, D1.
    + by rewrite E5, L2, (g_fss _ _ G1).
    + intros g Ha Hb'. by rewrite E6, O2, O1.
  - assert (drop off (contents s i) = []) as E.
    { unfold b in Hb. rewrite length_take in Hb. apply length_zero_iff_nil. lia. }
    rewrite E, app_nil_r. exists s1. split; [done|]. split; try done.
    + apply G1.
    + intros x _. apply G1.
    + apply G1.
    + apply G1.
    + intros g Ha _. by apply O1.
    + eauto.
    + exists (FdFile j (length (contents s j)) true). by rewrite O1.
Qed.

(** ** Steps of [checkpoint] *)

Lemma run_then {A} (m : M S unit) (k : M S A) s s' : run (m s) = ROk tt s' -> run ((m ;; k) s) = run (k s').
Proof. intros R. by rewrite run_bind, R. Qed.

Lemma say_step {A} t (k : M S A) s out : Format.printf (str t ++ [nl]) [] = Some out ->
  exists s', run ((say t ;; k) s) = run (k s') /\ same s s'.
Proof. intros Ht. destruct (printf_same _ _ _ s Ht) as (s' & R & Sm). exists s'. split; [by apply run_then|done]. Qed.
Lemma say_str_step {A} t x (k : M S A) s out : Format.printf (str t ++ [nl]) [AStr x] = Some out ->
  exists s', run ((say_str t x ;; k) s) = run (k s') /\ same s s'.
Proof. intros Ht. destruct (printf_same _ _ _ s Ht) as (s' & R & Sm). exists s'. split; [by apply run_then|done]. Qed.

(** An older backup is removed. *)
Lemma remove_step {A} path (k : M S A) s : isdir s path = false ->
  exists s', run ((fd1 <- open path O_RDONLY ;; when (0 <=? fd1) (close fd1 ;; unlink path ;; ret tt) ;; k) s) = run (k s') /\
    file s' path = None /\ same_dirs s s' /\ same_fds s s' /\ lget s' = lget s /\
    (forall q j, file s q = Some j -> file s path <> Some j -> file s' q = Some j) /\ forall j, file s path <> Some j -> contents s' j = contents s j.
Proof.
  intros Hd. destruct (file s path) as [i|] eqn:Ef.
  - destruct (open_file s path i Ef) as (fd & s1 & R1 & Hfd & Hn & O1). destruct (close_law s1 fd (FdFile i 0 false)) as (s2 & R2 & O2); [apply O1|].
    pose proof (fd_set_closed _ _ _ _ _ Hn O1 O2) as (G2 & D2 & F2).
    destruct (unlink_law s2 path i) as (s3 & R3 & N3 & D3 & F3 & L3 & K3 & C3); [by rewrite (g_file _ _ G2)|].
    exists s3. rewrite run_bind, R1. cbn [rbind]. rewrite run_bind, run_when. destruct (Z.leb_spec 0 fd); [|lia].
    rewrite run_bind, R2. cbn [rbind]. rewrite run_bind, R3. cbn [rbind]. mrun. split; [done|]. split; [done|]. split; [intros q; by rewrite D3, D2|].
    split; [intros q; by rewrite F3, F2|]. split; [by rewrite L3, (g_fss _ _ G2)|]. split.
    + intros q j Hq Hj. apply K3; [by rewrite (g_file _ _ G2)|congruence].
    + intros j Hj. rewrite C3 by congruence. apply G2.
  - destruct (open_none s path Ef Hd) as (s1 & R1 & G1 & D1 & F1). exists s1. rewrite run_bind, R1. cbn [rbind]. rewrite run_bind, run_when. cbn.
    split; [done|]. rewrite (g_file _ _ G1). split; [done|]. split; [done|]. split; [done|]. split; [apply G1|]. split; [intros q j Hq _; by rewrite (g_file _ _ G1)|].
    intros j _. apply G1.
Qed.

(** After the directories: the new file, the copy, and the two descriptors closed. *)
Lemma backup_step fuel path fd i s : fdt s fd = Some (FdFile i 0 false) -> has_parent s path -> file s path = None -> isdir s path = false ->
  (length (contents s i) < fuel)%nat ->
  exists s', run ((checkfd <- open path (Z.lor O_WRONLY O_CREATE) ;;
      when (checkfd <? 0) (say "Can not create file") ;;
      copy_loop fuel SIZEOF_PTR fd checkfd ;;
      r <- close fd ;;
      when (r =? -1) (say "Can not close origin file") ;;
      r <- close checkfd ;;
      when (r =? -1) (say "Can not close checkpoint file") ;;
      ret 0) s) = ROk 0 s' /\
    (exists j, file s' path = Some j /\ contents s' j = contents s i) /\
    (forall q k, file s q = Some k -> file s' q = Some k /\ contents s' k = contents s k) /\
    same_dirs s s' /\ lget s' = lget s /\ fdt s' fd = None /\ forall g, g <> fd -> fdt s' g = fdt s g.
Proof.
  intros Hfd Hp Hf Hd Hfuel.
  destruct (create_law s path Hp Hf Hd) as (cf & j & s1 & R1 & Hcf & N1 & F1 & O1 & P1 & C1 & D1 & L1 & Q1 & U1 & K1 & E1).
  assert (i <> j) as Hij by (intros ->; by eapply U1). assert (fd <> cf) as Hfc by congruence.
  destruct (copy_loop_spec fuel SIZEOF_PTR fd cf i j 0 s1) as (s2 & R2 & [W2 V2 P2 D2 L2 O2 (xa & A2) (xb & B2)]); try done.
  { by rewrite O1. }
  { by rewrite C1. }
  { by rewrite E1, drop_0. }
  rewrite C1, drop_0, E1 in W2 by done. cbn [app] in W2.
  destruct (close_law s2 fd xa A2) as (s3 & R3 & G3 & D3 & F3 & O3). destruct (close_law s3 cf xb) as (s4 & R4 & G4 & D4 & F4 & O4); [by rewrite O3|].
  exists s4. rewrite run_bind, R1. cbn [rbind]. rewrite run_bind, run_when. destruct (Z.ltb_spec cf 0); [lia|]. cbn [rbind].
  rewrite run_bind, R2. cbn [rbind]. rewrite run_bind, R3. cbn [rbind]. rewrite run_bind, run_when. cbn [rbind Z.eqb]. rewrite run_bind, R4. cbn [rbind]. mrun.
  split; [done|]. assert (forall q, file s4 q = file s1 q) as Hq by (intros q; by rewrite (g_file _ _ G4), (g_file _ _ G3), P2).
  assert (forall k, contents s4 k = contents s2 k) as Hc by (intros k; by rewrite (g_data _ _ G4), (g_data _ _ G3)).
  split_and!.
  - exists j. by rewrite Hq, Hc.
  - intros q k Hk. rewrite Hq, Hc. assert (k <> j) by (intros ->; by eapply Q1). split; [by apply K1|]. by rewrite V2, E1.
  - intros q. by rewrite D4, D3, D2, D1.
  - by rewrite (g_fss _ _ G4), (g_fss _ _ G3), L2.
  - rewrite O4 by done. done.
  - intros g Hg. destruct (decide (g = cf)) as [-> |Hgc]; [by rewrite F4, N1|]. by rewrite O4, O3, O2, O1.
Qed.

(** C6. The backup of the file server is complete: when the path of the file to be written is
    known, [checkpoint] returns 0 and leaves below /checkpoint a file with exactly the contents of
    the original, at the same path; the directories on the way are made, an older backup is replaced, no
    other file changes, and no descriptor stays open. *)
Theorem checkpoint_copies fuel check s i : let path := str "/checkpoint/" ++ check in
  file s check = Some i -> file s path <> Some i -> isdir s path = false ->
  plain path -> last path <> Some 47 -> (length path < 1024)%nat -> (forall q n, path = q ++ 47 :: n -> file s q = None) ->
  (length (contents s i) < fuel)%nat ->
  exists s', run (checkpoint fuel (Some check) (str "/checkpoint/") s) = ROk 0 s' /\
    (exists j, file s' path = Some j /\ contents s' j = contents s i) /\
    (forall q k, file s q = Some k -> file s path <> Some k -> file s' q = Some k /\ contents s' k = contents s k) /\
    lget s' = lget s /\ same_fds s s'.
Proof.
  intros path Hi Hpi Hd Hpl Hl Hlen Hpre Hfuel. unfold checkpoint.
  match goal with |- context [run ((_ ;; ?k) s)] => destruct (say_step "now running checkpoint" k s _ eq_refl) as (s1 & -> & S1) end.
  match goal with |- context [run ((_ ;; ?k) s1)] => destruct (say_str_step "opening file %s" (Some check) k s1 _ eq_refl) as (s2 & -> & S2) end.
  pose proof (view_trans _ _ _ S1 S2) as (G2 & D2 & F2). rewrite <- (g_file _ _ G2) in Hi.
  destruct (open_file s2 check i Hi) as (fd & s3 & R3 & Hfd & N3 & O3). rewrite run_bind, R3. cbn [rbind]. destruct (Z.ltb_spec fd 0); [lia|].
  match goal with |- context [run ((_ ;; ?k) s3)] => destruct (say_step "preparse" k s3 _ eq_refl) as (s4 & -> & S4) end.
  unfold parse. fold path. assert ((length path <? 1024)%nat = true) as -> by (by apply Nat.ltb_lt). rewrite run_bind, run_ret. cbn [rbind].
  match goal with |- context [run ((_ ;; ?k) s4)] => destruct (say_str_step "filename:%s" (Some path) k s4 _ eq_refl) as (s5 & -> & S5) end.
  destruct (fd_set_same _ _ _ _ _ (fd_set_same _ _ _ _ _ O3 S4) S5) as (G5 & D5 & E5 & O5).
  pose proof (grown_trans _ _ _ G2 G5) as H5.
  destruct (r_mkdir_spec [] path s5) as (s6 & R6 & G6 & F6 & T6 & N6); [by left|done|done|intros q n E; rewrite (g_file _ _ H5); by eapply Hpre|].
  rewrite run_bind. unfold r_mkdir. rewrite R6. cbn [rbind]. cbn [app] in *. pose proof (grown_trans _ _ _ H5 G6) as H6.
  assert (isdir s6 path = false) as Hd6.
  { apply not_true_is_false. intros Hd6. destruct (N6 path Hpl Hd6) as [H0|(a & b & E & Hc)]; [by rewrite D5, D2, Hd in H0|]. by eapply comps_longer. }
  match goal with |- context [run ((bind _ (fun fd1 => when _ _ ;; ?k)) s6)] => destruct (remove_step path k s6 Hd6) as (s7 & -> & P7 & D7 & F7 & L7 & K7 & C7) end.
  rewrite (g_file _ _ H6) in K7, C7. rewrite (g_file _ _ G2) in Hi.
  destruct (backup_step fuel path fd i s7) as (s8 & R8 & (j & J1 & J2) & K8 & D8 & L8 & E8 & O8).
  { by rewrite F7, F6, E5. }
  { destruct T6 as [E|(q & n & E & Hn & Hq)]; [done|]. exists q, n. split_and!; [done|by rewrite D7| |done]. intros ->. apply Hl. rewrite E. apply last_snoc. }
  { done. }
  { by rewrite D7. }
  { by rewrite C7, (g_data _ _ H6). }
  exists s8. split; [done|]. split_and!.
  - exists j. split; [done|]. by rewrite J2, C7, (g_data _ _ H6).
  - intros q k Hq Hk. destruct (K8 q k) as [Q1 Q2]; [apply K7; [by rewrite (g_file _ _ H6)|done]|]. split; [done|]. by rewrite Q2, C7, (g_data _ _ H6).
  - by rewrite L8, L7, (g_fss _ _ H6).
  - intros g. destruct (decide (g = fd)) as [-> |Hg]; [by rewrite E8, <- F2, N3|]. by rewrite O8, F7, F6, O5, F2.
Qed.

(** * A client and the server *)

(** The files of [s], with the shared state [x]. *)
Definition with_fss (s : S) (x : fss) (s' : S) : Prop :=
  (forall p, isdir s' p = isdir s p) /\ (forall p, file s' p = file s p) /\ (forall i, contents s' i = contents s i) /\ same_fds s s' /\ lget s' = x.
Lemma with_fss_same s x s1 s2 : with_fss s x s1 -> same s1 s2 -> with_fss s x s2.
Proof.
  intros (D & F & C & O & L) (G & D' & F'). split_and!; [intros p; by rewrite D'|intros p; by rewrite (g_file _ _ G)|intros j; by rewrite (g_data _ _ G)|intros g; by rewrite F'|].
  by rewrite (g_fss _ _ G).
Qed.

Definition calm (m : M S unit) : Prop := forall s, exists s', run (m s) = ROk tt s' /\ same s s'.

Lemma calm_say t out : Format.printf (str t ++ [nl]) [] = Some out -> calm (say t).
Proof. intros Ht s. by eapply printf_same. Qed.
Lemma calm_say_str t x out : Format.printf (str t ++ [nl]) [AStr x] = Some out -> calm (say_str t x).
Proof. intros Ht s. by eapply printf_same. Qed.
Lemma calm_say_int t x out : Format.printf (str t ++ [nl]) [AInt x] = Some out -> calm (say_int t x).
Proof. intros Ht s. by eapply printf_same. Qed.

Section steps.
Context {A : Type} (Q : res S A -> Prop) (s0 : S) (x : fss) (s : S) (Hs : with_fss s0 x s).

Lemma step_calm (m : M S unit) (k : M S A) : calm m -> (forall s', with_fss s0 x s' -> Q (run (k s'))) -> Q (run ((m ;; k) s)).
Proof. intros Hm Hk. destruct (Hm s) as (s' & R & Sm). rewrite (run_then _ _ _ _ R). apply Hk. by eapply with_fss_same. Qed.
Lemma step_request (k : fss_request -> M S A) : Q (run (k (request x) s)) -> Q (run ((r <- get_request ;; k r) s)).
Proof. intros Hk. unfold get_request. mrun. destruct Hs as (_ & _ & _ & _ & ->). exact Hk. Qed.
Lemma step_res (k : Z -> M S A) : Q (run (k (res_ x) s)) -> Q (run ((r <- get_res ;; k r) s)).
Proof. intros Hk. unfold get_res. mrun. destruct Hs as (_ & _ & _ & _ & ->). exact Hk. Qed.
Lemma step_assoc {B C} (m : M S B) (f : B -> M S C) (k : C -> M S A) : Q (run ((b <- m ;; c <- f b ;; k c) s)) -> Q (run ((c <- (b <- m ;; f b) ;; k c) s)).
Proof.
  intros Hk. rewrite !run_bind in *. destruct (run (m s)) as [b s'| | | | |]; cbn [rbind] in *; try exact Hk. by rewrite run_bind in Hk.
Qed.
Lemma step_stored (k : option (list Z) -> M S A) fd : zlookup (stored_path x) fd = Some SNull -> Q (run (k None s)) -> Q (run ((p <- stored fd ;; k p) s)).
Proof. intros Hz Hk. unfold stored. mrun. destruct Hs as (_ & _ & _ & _ & ->). rewrite Hz. mrun. exact Hk. Qed.
Lemma step_dangling (k : option (list Z) -> M S A) fd : zlookup (stored_path x) fd <> Some SNull -> (forall msg, Q (RUndef msg)) -> Q (run ((p <- stored fd ;; k p) s)).
Proof. intros Hz Hk. unfold stored. mrun. destruct Hs as (_ & _ & _ & _ & ->). destruct (zlookup _ fd) as [[]|]; [done| |]; mrun; apply Hk. Qed.
End steps.

Section server.
Context (mutexreq mutexresp : Z) (fuel : nat).
Context (Hlput : forall y s, with_fss s y (lput y s)).
Context (Hshm : forall nm n s, exists s', run (shm_get nm n s) = ROk true s' /\ same s s').
Context (Hlock : forall m, calm (mutex_lock m)) (Hunlock : forall m, calm (mutex_unlock m)) (Hsignal : forall m, calm (cv_signal m)).
(** The server takes the request while the client waits for the response. *)
Context (Hwait : forall s, run (cv_wait mutexresp s) = rbind (run (handle mutexreq mutexresp fuel s)) (fun _ s' => ROk tt s')).

Lemma calm_page nm n : calm (page nm n).
Proof. intros s. unfold page. destruct (Hshm (str nm) n s) as (s' & R & Sm). exists s'. by rewrite run_bind, R. Qed.

Lemma step_fss {A} (Q : res S A -> Prop) s0 x s (k : M S A) (f : fss -> fss) : with_fss s0 x s ->
  (forall s', with_fss s0 (f x) s' -> Q (run (k s'))) -> Q (run ((modify (fun s => lput (f (lget s)) s) ;; k) s)).
Proof.
  intros Hs Hk. mrun. destruct Hs as (D & F & C & O & L). rewrite L. apply Hk. destruct (Hlput (f x) s) as (D' & F' & C' & O' & L').
  split_and!; [intros p; by rewrite D'|intros p; by rewrite F'|intros j; by rewrite C'|intros g; by rewrite O'|done].
Qed.
Lemma step_upd {A} (Q : res S A -> Prop) s0 x s (k : M S A) f : with_fss s0 x s ->
  (forall s', with_fss s0 (set_request (f (request x)) x) s' -> Q (run (k s'))) -> Q (run ((upd_request f ;; k) s)).
Proof. intros Hs Hk. unfold upd_request. by apply (step_fss Q s0 x s k (fun y => set_request (f (request y)) y)). Qed.

Definition undefined {A} (r : res S A) : Prop := exists msg, r = RUndef msg.

Ltac calm_step Hs :=
  eapply (step_calm _ _ _ _ Hs);
  [first [apply calm_page | apply Hlock | apply Hunlock | apply Hsignal | by eapply calm_say | by eapply calm_say_str | by eapply calm_say_int]|];
  clear Hs; intros ? Hs.

(** Any request for a descriptor whose path was stored, or beyond the table. *)
Lemma handle_undefined s0 x s : with_fss s0 x s -> zlookup (stored_path x) (rfd (request x)) <> Some SNull ->
  undefined (run (handle mutexreq mutexresp fuel s)).
Proof.
  intros Hs Hz. unfold handle. calm_step Hs. calm_step Hs. unfold print_stored. eapply step_assoc, (step_request _ _ _ _ Hs), step_assoc, (step_dangling _ _ _ _ Hs); [done|].
  intros msg. by exists msg.
Qed.

Lemma print_stored_calm {A} (Q : res S A -> Prop) s0 x s (k : M S A) : with_fss s0 x s -> zlookup (stored_path x) (rfd (request x)) = Some SNull ->
  (forall s', with_fss s0 x s' -> Q (run (k s'))) -> Q (run ((print_stored ;; k) s)).
Proof.
  intros Hs Hz Hk. unfold print_stored. eapply step_assoc, (step_request _ _ _ _ Hs), step_assoc, (step_stored _ _ _ _ Hs); [done|].
  eapply (step_calm _ _ _ _ Hs); [by eapply calm_say_str|]. exact Hk.
Qed.

Lemma step_data_text {A} (Q : res S A -> Prop) s0 x s (k : list Z -> M S A) t : with_fss s0 x s -> cstr 1024 (rdata (request x)) = t -> (length t < 1024)%nat ->
  Q (run (k t s)) -> Q (run ((t <- data_text ;; k t) s)).
Proof.
  intros Hs Ht Hl Hk. unfold data_text. eapply step_assoc, (step_request _ _ _ _ Hs). rewrite Ht. apply Nat.ltb_lt in Hl. rewrite Hl. rewrite run_bind, run_ret. exact Hk.
Qed.

Lemma step_to_response {A} (Q : res S A -> Prop) s0 x s (k : M S A) : with_fss s0 x s -> (forall s', with_fss s0 x s' -> Q (run (k s'))) ->
  Q (run ((to_response mutexreq mutexresp ;; k) s)).
Proof. intros Hs Hk. unfold to_response. apply step_assoc. calm_step Hs. apply step_assoc. calm_step Hs. rewrite run_bind, run_ret. by apply Hk. Qed.

(** What the server does with an open: the table gets a pointer that dangles. *)
Lemma handle_open s0 x s path i : with_fss s0 x s -> operation (request x) = str "open" -> rfd (request x) = O_RDONLY ->
  cstr 1024 (rdata (request x)) = path -> (length path < 1024)%nat -> file s0 path = Some i ->
  zlookup (stored_path x) 0 = Some SNull -> length (stored_path x) = 100%nat ->
  (forall s1 fd s2, same_fds s0 s1 -> run (open path O_RDONLY s1) = ROk fd s2 -> fd < 100) ->
  exists fd s', run (handle mutexreq mutexresp fuel s) = ROk true s' /\ 2 < fd < 100 /\ fdt s' fd = Some (FdFile i 0 false) /\
    res_ (lget s') = fd /\ zlookup (stored_path (lget s')) fd = Some SDangling.
Proof.
  intros Hs Hop Hfl Hdt Hlen Hi Hz Hl Hfd. set (Q := fun r : res S bool => exists fd s', r = ROk true s' /\ 2 < fd < 100 /\ fdt s' fd = Some (FdFile i 0 false) /\
    res_ (lget s') = fd /\ zlookup (stored_path (lget s')) fd = Some SDangling). change (Q (run (handle mutexreq mutexresp fuel s))). unfold handle.
  calm_step Hs. calm_step Hs. eapply (print_stored_calm _ _ _ _ _ Hs); [by rewrite Hfl|]. clear Hs. intros ? Hs.
  eapply (print_stored_calm _ _ _ _ _ Hs); [by rewrite Hfl|]. clear Hs. intros ? Hs.
  eapply (step_request _ _ _ _ Hs). rewrite Hop. cbv zeta. calm_step Hs. calm_step Hs.
  rewrite !bool_decide_false by done. rewrite bool_decide_true by done.
  unfold serve_open. apply step_assoc. calm_step Hs. apply step_assoc. eapply (step_to_response _ _ _ _ _ Hs). clear Hs; intros ? Hs.
  apply step_assoc. calm_step Hs. apply step_assoc. eapply (step_request _ _ _ _ Hs). apply step_assoc.
  eapply (step_data_text _ _ _ _ _ _ Hs); [done|done|]. rewrite Hfl.
  destruct Hs as (D & F & C & O & L). match goal with |- context [run (_ ?s1)] => destruct (open_file s1 path i) as (fd & s2 & R2 & H2 & N2 & (G2 & D2 & E2 & O2)); [by rewrite F|]; pose proof (Hfd s1 fd s2 O R2) as Hlt end.
  apply step_assoc. rewrite run_bind, R2. cbn [rbind].
  assert (with_fss s2 x s2) as Hs by (split_and!; try done; by rewrite (g_fss _ _ G2)).
  apply step_assoc. unfold put_res. eapply (step_fss _ _ _ _ _ (set_res fd) Hs). clear Hs; intros ? Hs.
  apply step_assoc. eapply (step_data_text _ _ _ _ _ _ Hs); [done|done|]. apply step_assoc, (step_res _ _ _ _ Hs). cbn [res_ set_res].
  apply step_assoc. unfold put_stored. rewrite run_bind, run_bind, run_gets. cbn [rbind]. rewrite (proj2 (proj2 (proj2 (proj2 Hs)))). cbn [stored_path set_res].
  assert (exists z, zlookup (stored_path x) fd = Some z) as [z Hz'].
  { unfold zlookup. destruct (Z.ltb_spec fd 0); [lia|]. apply lookup_lt_is_Some_2. lia. }
  rewrite Hz'. rewrite <- run_bind.
  eapply (step_fss _ _ _ _ _ (set_stored (zinsert fd SDangling (stored_path x))) Hs). clear Hs; intros ? Hs.
  apply step_assoc. calm_step Hs. apply step_assoc, (step_res _ _ _ _ Hs), step_assoc. calm_step Hs. apply step_assoc. calm_step Hs. calm_step Hs.
  rewrite run_ret. destruct Hs as (_ & _ & _ & Of & Lf). exists fd. eexists. split; [reflexivity|]. split; [lia|]. rewrite Of, Lf. split; [done|]. split; [done|].
  cbn [stored_path set_stored]. apply zlookup_zinsert_eq. lia.
Qed.

Lemma step_put_data {A} (Q : res S A -> Prop) s0 x s (k : M S A) t : with_fss s0 x s -> (length t < 1024)%nat ->
  (forall s', with_fss s0 (set_request (mkReq (operation (request x)) (arg (request x)) (rfd (request x)) ((t ++ [0]) ++ drop (length (t ++ [0])) (rdata (request x)))) x) s' -> Q (run (k s'))) ->
  Q (run ((put_data t ;; k) s)).
Proof. intros Hs Hl Hk. unfold put_data. apply Nat.ltb_lt in Hl. rewrite Hl. unfold put_bytes. by eapply step_upd. Qed.

(** The client until the server takes over. *)
Lemma fss_open_request path flags s (Q : res S Z -> Prop) : (length path < 1024)%nat ->
  (forall s', with_fss s (mkFss (mkReq (str "open") (arg (request (lget s))) flags ((path ++ [0]) ++ drop (length (path ++ [0])) (rdata (request (lget s))))) (res_ (lget s)) (stored_path (lget s))) s' ->
    Q (run ((cv_wait mutexresp ;; say "waiting done" ;; page "response" 8 ;; say "response received" ;; retval <- get_res ;; mutex_unlock mutexresp ;; ret retval) s'))) ->
  Q (run (fss_open mutexreq mutexresp path flags s)).
Proof.
  intros Hl Hk. assert (with_fss s (lget s) s) as Hs by done. unfold fss_open. calm_step Hs. calm_step Hs. calm_step Hs. calm_step Hs.
  unfold put_operation. change (length (str "open") <? 8)%nat with true. cbn iota. eapply (step_upd _ _ _ _ _ _ Hs). clear Hs; intros ? Hs.
  eapply (step_request _ _ _ _ Hs). calm_step Hs. unfold put_fd. eapply (step_upd _ _ _ _ _ _ Hs). clear Hs; intros ? Hs.
  eapply (step_put_data _ _ _ _ _ _ Hs); [done|]. clear Hs; intros ? Hs. eapply (step_request _ _ _ _ Hs). calm_step Hs. calm_step Hs. calm_step Hs.
  by apply Hk.
Qed.

Lemma fss_write_undefined fd d n s : (length d < 1024)%nat -> zlookup (stored_path (lget s)) fd <> Some SNull -> undefined (run (fss_write mutexreq mutexresp fd d n s)).
Proof.
  intros Hl Hz. assert (with_fss s (lget s) s) as Hs by done. unfold fss_write. calm_step Hs. calm_step Hs.
  unfold put_operation. change (length (str "write") <? 8)%nat with true. cbn iota. eapply (step_upd _ _ _ _ _ _ Hs). clear Hs; intros ? Hs.
  unfold put_arg. eapply (step_upd _ _ _ _ _ _ Hs). clear Hs; intros ? Hs. unfold put_fd. eapply (step_upd _ _ _ _ _ _ Hs). clear Hs; intros ? Hs.
  eapply (step_put_data _ _ _ _ _ _ Hs); [done|]. clear Hs; intros ? Hs. eapply (step_request _ _ _ _ Hs). calm_step Hs. calm_step Hs. calm_step Hs.
  rewrite run_bind, Hwait. destruct (handle_undefined _ _ _ Hs Hz) as [msg ->]. by exists msg.
Qed.

(** C7. The server cannot be used to write: an open with [O_CREATE] (any flags from 100 on) makes
    it index [stored_path] with the flags, beyond the table; and an open for reading succeeds, but leaves in the table
    the address of an array that is gone, so that the next write to this descriptor uses a dangling
    pointer, whatever is written. *)
Theorem fss_write_after_open path s : (length path < 1024)%nat -> is_text path -> length (stored_path (lget s)) = 100%nat ->
  (forall flags, 100 <= flags -> undefined (run (fss_open mutexreq mutexresp path flags s))) /\
  (forall i, file s path = Some i -> zlookup (stored_path (lget s)) 0 = Some SNull ->
    (forall s1 fd s2, same_fds s s1 -> run (open path O_RDONLY s1) = ROk fd s2 -> fd < 100) ->
    exists fd s', run (fss_open mutexreq mutexresp path O_RDONLY s) = ROk fd s' /\ fdt s' fd = Some (FdFile i 0 false) /\
      forall d n, (length d < 1024)%nat -> undefined (run (fss_write mutexreq mutexresp fd d n s'))).
Proof.
  intros Hl Ht Hlen. split.
  - intros flags Hf. apply fss_open_request; [done|]. intros s' Hs. rewrite run_bind, Hwait.
    destruct (handle_undefined _ _ _ Hs) as [msg ->]; [|by exists msg]. cbn [stored_path request rfd]. unfold zlookup.
    destruct (Z.ltb_spec flags 0); [lia|]. rewrite lookup_ge_None_2 by lia. done.
  - intros i Hi Hz Hfd. set (Q := fun r : res S Z => exists fd s', r = ROk fd s' /\ fdt s' fd = Some (FdFile i 0 false) /\
      forall d n, (length d < 1024)%nat -> undefined (run (fss_write mutexreq mutexresp fd d n s'))).
    apply (fss_open_request path O_RDONLY s Q Hl). intros s' Hs. rewrite run_bind, Hwait.
    destruct (handle_open _ _ _ path i Hs) as (fd & s1 & R1 & H1 & E1 & L1 & Z1); try done.
    { cbn [request rdata]. rewrite <- app_assoc. apply cstr_app_nul; [|lia]. intros c Hc. by apply (proj1 (Forall_forall _ _) Ht). }
    rewrite R1. cbn [rbind]. assert (with_fss s1 (lget s1) s1) as Hs1 by done. calm_step Hs1. calm_step Hs1. calm_step Hs1.
    eapply (step_res _ _ _ _ Hs1). rewrite L1. calm_step Hs1. rewrite run_ret. destruct Hs1 as (_ & _ & _ & Of & Lf). exists fd. eexists. split; [reflexivity|].
    rewrite Of. split; [done|]. intros d n Hd. apply fss_write_undefined; [done|]. rewrite Lf, Z1. done.
Qed.
End server.
End facts.
