(* ===== verification/FileServerDemo.v ===== *)
(** A file system in memory that satisfies the laws of the file server, and the two theorems on
    it. *)

From Stdlib Require Import ZArith Lia.
From stdpp Require Import base tactics option gmap sets strings numbers list.
From S2P Require Import Prelude CString Bytes FsFormat Fs Format Sysfile User FileServer FileServerFacts.
Open Scope Z_scope.

Record disk := mkDisk {
  dirs : list (list (list Z));
  names : gmap (list (list Z)) nat;
  bodies : gmap nat (list Z);
  fdtab : gmap Z fdesc;
  shared : fss
}.
Definition set_fdtab v d := mkDisk (dirs d) (names d) (bodies d) v (shared d).
Definition set_bodies v d := mkDisk (dirs d) (names d) v (fdtab d) (shared d).

#[export] Instance disk_view : FileView disk := {|
  isdir d p := bool_decide (comps p = [] \/ comps p ∈ dirs d);
  file d p := if bool_decide (comps p = [] \/ comps p ∈ dirs d) then None else names d !! comps p;
  contents d i := default [] (bodies d !! i);
  fdt d fd := fdtab d !! fd
|}.

(** Numbers that are not in use. *)
Definition new_fd (d : disk) : Z := 1 + foldr Z.max 2 (map_to_list (fdtab d)).*1.
Definition file_of (x : fdesc) : option nat := match x with FdFile i _ _ => Some i | FdDir => None end.
Definition ids (d : disk) : list nat := (map_to_list (names d)).*2 ++ omap file_of (map_to_list (fdtab d)).*2.
Definition new_id (d : disk) : nat := S (foldr Nat.max 0%nat (ids d)).

Definition disk_open (p : list Z) (flags : Z) : M disk Z := fun d =>
  let add x d := Ret (new_fd d) (set_fdtab (<[new_fd d := x]> (fdtab d)) d) in
  if flags =? O_RDONLY then
    if isdir d p then add FdDir d else
    match file d p with Some i => add (FdFile i 0 false) d | None => Ret (-1) d end
  else
    if isdir d p || bool_decide (is_Some (file d p)) then Ret (-1) d else
    let j := new_id d in
    add (FdFile j 0 true) (mkDisk (dirs d) (<[comps p := j]> (names d)) (<[j := []]> (bodies d)) (fdtab d) (shared d)).
Definition disk_read (fd n : Z) : M disk (Z * list Z) := fun d =>
  match fdt d fd with
  | Some (FdFile i off false) =>
      let b := take (Z.to_nat n) (drop off (contents d i)) in
      Ret (Z.of_nat (length b), b) (set_fdtab (<[fd := FdFile i (off + length b) false]> (fdtab d)) d)
  | _ => Ret (-1, []) d
  end.
Definition disk_write (fd : Z) (t : list Z) : M disk Z := fun d =>
  if fd <=? 2 then Ret (Z.of_nat (length t)) d else
  match fdt d fd with
  | Some (FdFile i off true) =>
      let c := take off (contents d i) ++ t ++ drop (off + length t) (contents d i) in
      Ret (Z.of_nat (length t)) (set_fdtab (<[fd := FdFile i (off + length t) true]> (fdtab d)) (set_bodies (<[i := c]> (bodies d)) d))
  | _ => Ret (-1) d
  end.

#[export] Instance disk_ops : UserOps disk := {|
  open := disk_open; read := disk_read; write := disk_write;
  close fd := fun d => Ret 0 (set_fdtab (delete fd (fdtab d)) d);
  link _ _ := ret (-1);
  unlink p := fun d => match file d p with
    | None => Ret (-1) d
    | Some _ => Ret 0 (mkDisk (dirs d) (delete (comps p) (names d)) (bodies d) (fdtab d) (shared d)) end;
  mkdir p := fun d => Ret 0 (mkDisk (comps p :: dirs d) (names d) (bodies d) (fdtab d) (shared d));
  fstat _ := ret (0, mkStat 0 0 0 0 0);
  kill _ := ret (-1)
|}.

Definition disk_lens : Lens disk fss.
Proof.
  refine {| lget := shared; lput x d := mkDisk (dirs d) (names d) (bodies d) (fdtab d) x |}; [done|by intros []|done].
Defined.
(** [wait] is what happens while a client waits. *)
Definition disk_fss (wait : M disk unit) : FssOps disk := {|
  fss_lens := disk_lens; shm_get _ _ := ret true; mutex_create _ _ := ret 1; mutex_lock _ := ret tt; mutex_unlock _ := ret tt;
  cv_wait _ := wait; cv_signal _ := ret tt; setHighPrio := ret tt; write_negative _ _ := ret (-1)
|}.

Lemma foldr_max_le (l : list Z) x : x ∈ l -> x <= foldr Z.max 2 l.
Proof. induction l as [|y l IH]; [by intros ?%elem_of_nil|]. intros [-> |Hx%IH]%elem_of_cons; cbn; lia. Qed.
Lemma foldr_max_ge (l : list Z) : 2 <= foldr Z.max 2 l.
Proof. induction l; cbn; lia. Qed.
Lemma foldr_nmax_le (l : list nat) x : x ∈ l -> (x <= foldr Nat.max 0 l)%nat.
Proof. induction l as [|y l IH]; [by intros ?%elem_of_nil|]. intros [-> |Hx%IH]%elem_of_cons; cbn; lia. Qed.

Lemma new_fd_fresh d : fdtab d !! new_fd d = None.
Proof.
  destruct (fdtab d !! new_fd d) as [x|] eqn:E; [|done]. exfalso. apply elem_of_map_to_list in E.
  assert (new_fd d <= foldr Z.max 2 (map_to_list (fdtab d)).*1); [|unfold new_fd in *; lia].
  apply foldr_max_le, list_elem_of_fmap. by eexists (_, _).
Qed.
Lemma new_fd_big d : 2 < new_fd d.
Proof. unfold new_fd. pose proof (foldr_max_ge (map_to_list (fdtab d)).*1). lia. Qed.
Lemma new_id_fresh d : new_id d ∉ ids d.
Proof. intros H%foldr_nmax_le. unfold new_id in H. lia. Qed.
Lemma new_id_names d q : names d !! q <> Some (new_id d).
Proof.
  intros E. apply (new_id_fresh d). unfold ids. apply elem_of_app. left. apply list_elem_of_fmap. eexists (_, _). split; [done|]. by apply elem_of_map_to_list.
Qed.
Lemma new_id_fds d g off wr : fdtab d !! g <> Some (FdFile (new_id d) off wr).
Proof.
  intros E. apply (new_id_fresh d). unfold ids. apply elem_of_app. right. apply list_elem_of_omap. exists (FdFile (new_id d) off wr). split; [|done].
  apply list_elem_of_fmap. exists (g, FdFile (new_id d) off wr). split; [done|]. by apply elem_of_map_to_list.
Qed.

(** A new descriptor. *)
Lemma add_fd_set wait x d : fd_set (FO := disk_fss wait) (new_fd d) (Some x) d (set_fdtab (<[new_fd d := x]> (fdtab d)) d).
Proof. split; [by split|]. split; [done|]. split; [apply lookup_insert_eq|]. intros g Hg. by apply lookup_insert_ne. Qed.

Section laws.
Context (wait : M disk unit).
#[local] Existing Instance disk_fss.

Lemma disk_open_ro p d : run (open p O_RDONLY d) =
  if isdir d p then ROk (new_fd d) (set_fdtab (<[new_fd d := FdDir]> (fdtab d)) d)
  else match file d p with Some i => ROk (new_fd d) (set_fdtab (<[new_fd d := FdFile i 0 false]> (fdtab d)) d) | None => ROk (-1) d end.
Proof. cbn [open disk_ops]. unfold disk_open. rewrite Z.eqb_refl. destruct (isdir d p); [done|]. by destruct (file d p). Qed.

Lemma file_isdir d p : isdir d p = true -> file d p = None.
Proof. cbn. by intros ->. Qed.
Lemma file_names d p : isdir d p = false -> file d p = names d !! comps p.
Proof. cbn. by intros ->. Qed.
Lemma isdir_comps d p q : comps p = comps q -> isdir d p = isdir d q.
Proof. cbn. by intros ->. Qed.
Lemma file_comps d p q : comps p = comps q -> file d p = file d q.
Proof. cbn. by intros ->. Qed.

#[export] Instance disk_laws : FileLaws disk (FO := disk_fss wait).
Proof.
  split.
  - intros d. by apply bool_decide_true; left.
  - intros d q Hq. rewrite <- Hq. apply isdir_comps. rewrite comps_slash. apply app_nil_r.
  - intros d p i Hf. destruct (isdir d p) eqn:E; [|done]. by rewrite file_isdir in Hf.
  - intros d p i Hf. rewrite disk_open_ro. destruct (isdir d p) eqn:E; [by rewrite file_isdir in Hf|]. rewrite Hf.
    eexists _, _. split; [done|]. split; [apply new_fd_big|]. split; [apply new_fd_fresh|]. apply add_fd_set.
  - intros d p Hd. rewrite disk_open_ro, Hd. eexists _, _. split; [done|]. split; [apply new_fd_big|]. split; [apply new_fd_fresh|]. apply add_fd_set.
  - intros d p Hf Hd. rewrite disk_open_ro, Hd, Hf. by eexists.
  - intros d fd x _. by eexists _, _.
  - intros d fd x _. eexists. split; [done|]. split; [by split|]. split; [done|]. split; [apply lookup_delete_eq|]. intros g Hg. by apply lookup_delete_ne.
  - intros d p _ _ Hf Hd. eexists. split; [done|]. split; [apply bool_decide_true; right; apply list_elem_of_here|].
    assert (forall q, isdir d q = true -> bool_decide (comps q = [] \/ comps q ∈ comps p :: dirs d) = true) as Hm.
    { intros q [Hq|Hq]%bool_decide_eq_true; apply bool_decide_true; [by left|right; by right]. }
    assert (forall q, bool_decide (comps q = [] \/ comps q ∈ comps p :: dirs d) = true -> isdir d q = true \/ comps q = comps p) as Hi.
    { intros q [Hq|[Hq|Hq]%elem_of_cons]%bool_decide_eq_true; [left; by apply bool_decide_true; left|by right|left; by apply bool_decide_true; right]. }
    split; [split; [exact Hm| |done|done]|].
    + intros q. cbn [file disk_view dirs names]. destruct (bool_decide (comps q = [] \/ comps q ∈ comps p :: dirs d)) eqn:E.
      * symmetry. change (file d q = None). destruct (Hi q E) as [H|H]; [by apply file_isdir|]. by rewrite (file_comps d q p).
      * symmetry. change (file d q = names d !! comps q). apply file_names. destruct (isdir d q) eqn:Eq; [|done]. by rewrite Hm in E.
    + split; [done|]. intros q _ Hq. by apply Hi.
  - intros d p i Hf. destruct (isdir d p) eqn:E; [by rewrite file_isdir in Hf|]. eexists. cbn [unlink disk_ops]. rewrite Hf. split; [done|].
    rewrite file_names in Hf by done. split; [cbn [file disk_view dirs names]; cbn [isdir disk_view] in E; rewrite E; apply lookup_delete_eq|].
    split; [done|]. split; [done|]. split; [done|]. split; [|done]. intros q j Hq Hj. destruct (isdir d q) eqn:Eq; [by rewrite file_isdir in Hq|].
    rewrite file_names in Hq by done. cbn [file disk_view dirs names]. cbn [isdir disk_view] in Eq. rewrite Eq. rewrite lookup_delete_ne; [done|congruence].
  - intros d p _ Hf Hd. set (d' := mkDisk (dirs d) (<[comps p := new_id d]> (names d)) (<[new_id d := []]> (bodies d)) (fdtab d) (shared d)).
    exists (new_fd d), (new_id d), (set_fdtab (<[new_fd d := FdFile (new_id d) 0 true]> (fdtab d)) d').
    assert (forall q, file d' q = if isdir d q then None else (<[comps p := new_id d]> (names d)) !! comps q) as Hfile by done.
    split; [|split; [apply new_fd_big|split; [apply new_fd_fresh|split; [apply lookup_insert_eq|split; [intros g Hg; by apply lookup_insert_ne|]]]]].
    { cbn [open disk_ops]. unfold disk_open. cbn [Z.lor O_WRONLY O_CREATE Z.eqb O_RDONLY Pos.lor]. rewrite Hd, Hf. done. }
    split; [change (file d' p = Some (new_id d)); rewrite Hfile, Hd; apply lookup_insert_eq|].
    split; [change (default [] (<[new_id d := []]> (bodies d) !! new_id d) = []); by rewrite lookup_insert_eq|]. split; [done|]. split; [done|].
    split; [intros q; destruct (isdir d q) eqn:Eq; [by rewrite file_isdir|rewrite file_names by done; apply new_id_names]|].
    split; [intros g off wr; apply new_id_fds|]. split.
    + intros q i Hq. change (file d' q = Some i). rewrite Hfile. destruct (isdir d q) eqn:Eq; [by rewrite file_isdir in Hq|].
      rewrite lookup_insert_ne; [by rewrite <- file_names|]. intros E. rewrite (file_comps d q p) in Hq by done. congruence.
    + intros i Hi. change (default [] (<[new_id d := []]> (bodies d) !! i) = default [] (bodies d !! i)). by rewrite lookup_insert_ne.
  - intros d fd i off n Hfd Hn b. eexists. cbn [read disk_ops]. unfold disk_read. rewrite Hfd. split; [done|].
    split; [by split|]. split; [done|]. split; [apply lookup_insert_eq|]. intros g Hg. by apply lookup_insert_ne.
  - intros d fd i t H2 Hfd. eexists. cbn [write disk_ops]. unfold disk_write. destruct (Z.leb_spec fd 2); [lia|]. rewrite Hfd. split; [done|].
    assert (take (length (contents d i)) (contents d i) ++ t ++ drop (length (contents d i) + length t) (contents d i) = contents d i ++ t) as E.
    { rewrite take_ge, drop_ge by lia. by rewrite app_nil_r. }
    rewrite E. cbn [contents disk_view bodies set_fdtab set_bodies]. rewrite lookup_insert_eq. split; [done|].
    split; [intros j Hj; by rewrite lookup_insert_ne|]. split; [done|]. split; [done|]. split; [done|]. split; [rewrite length_app; apply lookup_insert_eq|].
    intros g Hg. by apply lookup_insert_ne.
  - intros d t. by eexists _, _.
Qed.
End laws.

(** One file, "a", and a server that has not served anything. *)
Definition start : disk :=
  mkDisk [] {[ [str "a"] := 5%nat ]} {[ 5%nat := [1; 2; 3; 4; 5] ]} ∅ (mkFss (mkReq [] 0 0 (replicate 1024 0)) 0 (replicate 100 SNull)).

Lemma start_prefixes q n : str "/checkpoint/a" = q ++ 47 :: n -> file start q = None.
Proof.
  intros E. apply (f_equal comps) in E. rewrite comps_slash in E. destruct (isdir start q) eqn:Ed; [by apply file_isdir|]. rewrite file_names by done.
  cbn [names start]. destruct (decide (comps q = [str "a"])) as [Eq|Hne]; [|by apply lookup_singleton_ne].
  rewrite Eq in E. discriminate E.
Qed.

Lemma checkpoint_copies_witness :
  exists s', run (checkpoint 10 (Some (str "a")) (str "/checkpoint/") start) = ROk 0 s' /\
    exists j, file s' (str "/checkpoint/a") = Some j /\ contents s' j = [1; 2; 3; 4; 5].
Proof.
  destruct (checkpoint_copies (FO := disk_fss (ret tt)) 10 (str "a") start 5) as (s' & R & H & _).
  - reflexivity.
  - by vm_compute.
  - by vm_compute.
  - split; [reflexivity|]. repeat constructor; by vm_compute; try lia.
  - by vm_compute.
  - vm_compute. lia.
  - apply start_prefixes.
  - vm_compute. lia.
  - exists s'. split; [exact R|]. exact H.
Defined.

(** A client waits while the server handles its request. *)
Definition disk_server : FssOps disk := disk_fss (handle (FO := disk_fss (ret tt)) 1 2 10 ;; ret tt).

Lemma fss_write_after_open_witness :
  undefined (run (fss_open (FO := disk_server) 1 2 (str "b") (Z.lor O_CREATE O_RDWR) start)) /\
  exists fd s', run (fss_open (FO := disk_server) 1 2 (str "a") O_RDONLY start) = ROk fd s' /\
    undefined (run (fss_write (FO := disk_server) 1 2 fd (str "x") 1 s')).
Proof.
  assert (forall s : disk, exists s', run (ret tt s) = ROk tt s' /\ same (FO := disk_server) s s') as Hc by (intros s; by exists s).
  assert (forall (nm : list Z) (n : Z) (s : disk), exists s', run (ret true s) = ROk true s' /\ same (FO := disk_server) s s') as Hshm by (intros nm n s; by exists s).
  assert (forall s : disk, run (cv_wait (FssOps := disk_server) 2 s) = rbind (run (handle (FO := disk_server) 1 2 10 s)) (fun _ s' => ROk tt s')) as Hw.
  { intros s. exact (run_bind (handle (FO := disk_fss (ret tt)) 1 2 10) (fun _ => ret tt) s). }
  assert (forall y s, with_fss (FO := disk_server) s y (lput (Lens := fss_lens (FssOps := disk_server)) y s)) as Hl by done.
  split.
  - apply (fss_write_after_open (FO := disk_server) 1 2 10 Hl Hshm (fun _ => Hc) (fun _ => Hc) (fun _ => Hc) Hw (str "b") start).
    + vm_compute. lia.
    + repeat constructor; by vm_compute.
    + reflexivity.
    + vm_compute. congruence.
  - destruct (fss_write_after_open (FO := disk_server) 1 2 10 Hl Hshm (fun _ => Hc) (fun _ => Hc) (fun _ => Hc) Hw (str "a") start) as [_ H].
    + vm_compute. lia.
    + repeat constructor; by vm_compute.
    + reflexivity.
    + destruct (H 5%nat) as (fd & s' & R & _ & U); [reflexivity|reflexivity| |].
      * intros s1 fd s2 Hs R. rewrite disk_open_ro in R. assert (new_fd s1 = 3) as E3.
        { unfold new_fd. replace (fdtab s1) with (∅ : gmap Z fdesc); [done|]. apply map_eq. intros g. symmetry. apply (Hs g). }
        rewrite E3 in R. destruct (isdir s1 (str "a")); [by injection R as <- _|]. destruct (file s1 (str "a")); by injection R as <- _.
      * exists fd, s'. split; [exact R|]. apply U. vm_compute. lia.
Defined.
