(* ===== verification/Ide.v ===== *)
(** The IDE driver: ide.c.

    Requests wait in a queue that is linked through the buffers ([qnext]); the first one is at the
    disk, and its interrupt completes it and starts the next.  The controller is reached through its ports,
    an interface [IdePorts]; [IdeLaws] says what the driver relies on: the registers keep what is
    written to them, a command acts on the sector they select, a read of a sector that cannot be read ends with an error, and the controller is busy for a
    bounded time.  Enabling the interrupt and creating the lock are left out. *)

From Stdlib Require Import ZArith Lia.
From stdpp Require Import base tactics option gmap sets strings numbers list.
From S2P Require Import Prelude Layout Bytes Bio.
Open Scope Z_scope.

Definition SECTOR_SIZE : Z := 512.
Definition IDE_BSY : Z := 0x80.
Definition IDE_DRDY : Z := 0x40.
Definition IDE_DF : Z := 0x20.
Definition IDE_ERR : Z := 0x01.
Definition IDE_CMD_READ : Z := 0x20.
Definition IDE_CMD_WRITE : Z := 0x30.
Definition FSSIZE : Z := 1000.

(** [insl] is given the number of words. *)
Class IdePorts (D : Type) := {
  inb : Z -> D -> Z * D;
  outb : Z -> Z -> D -> D;
  outsl : Z -> list Z -> D -> D;
  insl : Z -> Z -> D -> list Z * D
}.

Record ide (D : Type) := mkIde { idequeue : option nat; havedisk1 : Z; hw : D }.
Arguments mkIde {D} idequeue havedisk1 hw.
Arguments idequeue {D} i.
Arguments havedisk1 {D} i.
Arguments hw {D} i.

Section ide.
Context {D : Type} {P : IdePorts D}.
Abbreviation M := (M (bstate (ide D))).

Definition upd_ide (f : ide D -> ide D) : M unit := modify (fun s => mkB (bufs s) (f (disk s))).
Definition set_idequeue (q : option nat) (d : ide D) : ide D := mkIde q (havedisk1 d) (hw d).
Definition set_hw (h : D) (d : ide D) : ide D := mkIde (idequeue d) (havedisk1 d) h.
Definition in_port (p : Z) : M Z := fun s => let '(r, h) := inb p (hw (disk s)) in Ret r (mkB (bufs s) (set_hw h (disk s))).
Definition out_port (p v : Z) : M unit := upd_ide (fun d => set_hw (outb p v (hw d)) d).

(** [fuel] bounds the polls. *)
Fixpoint idewait (fuel : nat) (checkerr : bool) : M Z :=
  r <- in_port 0x1f7 ;;
  if Z.land r (Z.lor IDE_BSY IDE_DRDY) =? IDE_DRDY then
    ret (if checkerr && negb (Z.land r (Z.lor IDE_DF IDE_ERR) =? 0) then -1 else 0)
  else match fuel with O => nofuel | S k => idewait k checkerr end.

(** [for (i = 0; i < n; i++) if (inb(0x1f7) != 0) { havedisk1 = 1; break; }] *)
Fixpoint find_disk1 (n : nat) : M unit :=
  match n with
  | O => ret tt
  | S k =>
      r <- in_port 0x1f7 ;;
      if negb (r =? 0) then upd_ide (fun d => mkIde (idequeue d) 1 (hw d)) else find_disk1 k
  end.
Definition ideinit (fuel : nat) : M unit :=
  idewait fuel false ;;
  out_port 0x1f6 (Z.lor 0xe0 (Z.shiftl 1 4)) ;;
  find_disk1 1000 ;;
  out_port 0x1f6 (Z.lor 0xe0 (Z.shiftl 0 4)).

Definition idestart (fuel : nat) (b : option nat) : M unit :=
  match b with
  | None => panic "idestart"
  | Some i =>
      x <- get_buf i ;;
      if FSSIZE <=? blockno x then panic "incorrect blockno" else
      let sector_per_block := BSIZE / SECTOR_SIZE in
      let sector := blockno x * sector_per_block in
      if 7 <? sector_per_block then panic "idestart" else
      idewait fuel false ;;
      out_port 0x3f6 0 ;;
      out_port 0x1f2 sector_per_block ;;
      out_port 0x1f3 (Z.land sector 0xff) ;;
      out_port 0x1f4 (Z.land (Z.shiftr sector 8) 0xff) ;;
      out_port 0x1f5 (Z.land (Z.shiftr sector 16) 0xff) ;;
      out_port 0x1f6 (Z.lor (Z.lor 0xe0 (Z.shiftl (Z.land (dev x) 1) 4)) (Z.land (Z.shiftr sector 24) 0x0f)) ;;
      if has B_DIRTY x then
        out_port 0x1f7 IDE_CMD_WRITE ;;
        upd_ide (fun d => set_hw (outsl 0x1f0 (slice (data x) 0 BSIZE) (hw d)) d)
      else out_port 0x1f7 IDE_CMD_READ
  end.

Definition ideintr (fuel : nat) : M unit :=
  acquire LK_ide ;;
  d <- gets disk ;;
  match idequeue d with
  | None => release LK_ide
  | Some i =>
      x <- get_buf i ;;
      upd_ide (set_idequeue (qnext x)) ;;
      (if has B_DIRTY x then ret tt else
       r <- idewait fuel true ;;
       when (0 <=? r) (
         d <- gets disk ;;
         let '(b, h) := insl 0x1f0 (BSIZE / 4) (hw d) in
         upd_ide (set_hw h) ;;
         upd_buf i (set_data b))) ;;
      upd_buf i (set_flag B_VALID) ;;
      upd_buf i (clear_flag B_DIRTY) ;;
      wakeup (CH_buf (Z.of_nat i)) ;;
      d <- gets disk ;;
      when (bool_decide (idequeue d <> None)) (idestart fuel (idequeue d)) ;;
      release LK_ide
  end.

(** A pointer to a link: [None] is [&idequeue], [Some i] is [&bufs[i].qnext]. *)
Definition get_link (pp : option nat) : M (option nat) :=
  match pp with
  | None => d <- gets disk ;; ret (idequeue d)
  | Some i => x <- get_buf i ;; ret (qnext x)
  end.
Definition put_link (pp : option nat) (b : option nat) : M unit :=
  match pp with
  | None => upd_ide (set_idequeue b)
  | Some i => upd_buf i (set_qnext b)
  end.
(** [for (pp = &idequeue; *pp; pp = &( *pp )->qnext);] *)
Fixpoint last_link (fuel : nat) (pp : option nat) : M (option nat) :=
  l <- get_link pp ;;
  match l with
  | None => ret pp
  | Some i => match fuel with O => nofuel | S k => last_link k (Some i) end
  end.

(** [fuel] bounds the wakeups. *)
Fixpoint wait_done (fuel : nat) (i : nat) : M unit :=
  x <- get_buf i ;;
  if Z.land (flags x) (Z.lor B_VALID B_DIRTY) =? B_VALID then ret tt else
  match fuel with
  | O => nofuel
  | S k => sleep_on (CH_buf (Z.of_nat i)) LK_ide ;; wait_done k i
  end.

Definition iderw (fuel : nat) (i : nat) : M unit :=
  x <- get_buf i ;;
  if negb (has B_BUSY x) then panic "iderw: buf not busy" else
  if Z.land (flags x) (Z.lor B_VALID B_DIRTY) =? B_VALID then panic "iderw: nothing to do" else
  d <- gets disk ;;
  if negb (dev x =? 0) && (havedisk1 d =? 0) then panic "iderw: ide disk 1 not present" else
  acquire LK_ide ;;
  upd_buf i (set_qnext None) ;;
  n <- gets (fun s => length (bufs s)) ;;
  pp <- last_link n None ;;
  put_link pp (Some i) ;;
  d <- gets disk ;;
  when (bool_decide (idequeue d = Some i)) (idestart fuel (Some i)) ;;
  wait_done fuel i ;;
  release LK_ide.
End ide.
