(* ===== verification/IdeFacts.v ===== *)
(** The IDE driver serves its requests in order and wakes those who made them (ide.c).

    The reference is [sync]: what a request does to the disk and to its buffer when it is done at
    once.  The driver splits it between the process that starts it, the interrupt that completes
    it, and a queue.  Processes that ask, interrupts, and the turns of processes that were woken come in any order ([action]); what they do
    to the pool of processes is compared with a queue ([server]). *)

From Stdlib Require Import ZArith Lia.
From stdpp Require Import base tactics option gmap sets strings numbers list.
From S2P Require Import Prelude Pool Layout Bytes Bio Ide.
Open Scope Z_scope.

(** * The controller *)

Class IdeView (D : Type) := {
  reg : D -> Z -> Z;
  medium : D -> Z -> Z -> list Z;
  cmd : D -> option (Z * Z);
  delay : D -> nat;
  unreadable : Z -> Z -> bool
}.
Arguments unreadable D {_} a b.

Section view.
Context {D : Type} {V : IdeView D}.
Definition unit_sel (d : D) : Z := reg d 0x1f6 / 16 mod 2.
Definition lba (d : D) : Z := reg d 0x1f3 + 2 ^ 8 * reg d 0x1f4 + 2 ^ 16 * reg d 0x1f5 + 2 ^ 24 * (reg d 0x1f6 mod 16).
Definition same_medium (d d' : D) : Prop := forall a b, medium d' a b = medium d a b.
Definition same_hw (d d' : D) : Prop := (forall p, reg d' p = reg d p) /\ same_medium d d' /\ cmd d' = cmd d.
End view.

(** A write to the sector [b] of drive [a]. *)
Definition upd_medium (m : Z -> Z -> list Z) (a b : Z) (x : list Z) : Z -> Z -> list Z :=
  fun a' b' => if bool_decide (a' = a /\ b' = b) then x else m a' b'.

Class IdeLaws (D : Type) {P : IdePorts D} {V : IdeView D} := {
  limit : nat;
  delay_limit : forall d, (delay d <= limit)%nat;
  poll_busy : forall d k, delay d = S k -> exists r d', inb 0x1f7 d = (r, d') /\ Z.land r (Z.lor IDE_BSY IDE_DRDY) <> IDE_DRDY /\ delay d' = k /\ same_hw d d';
  poll_ready : forall d, delay d = 0%nat -> exists r d', inb 0x1f7 d = (r, d') /\ Z.land r (Z.lor IDE_BSY IDE_DRDY) = IDE_DRDY /\
    (forall a b, cmd d = Some (a, b) -> Z.land r (Z.lor IDE_DF IDE_ERR) = 0 <-> unreadable D a b = false) /\ delay d' = 0%nat /\ same_hw d d';
  out_reg : forall p v d, 0x1f2 <= p <= 0x1f6 ->
    (forall q, reg (outb p v d) q = if q =? p then v else reg d q) /\ same_medium d (outb p v d);
  out_control : forall v d, same_hw d (outb 0x3f6 v d);
  out_read : forall d, reg d 0x1f2 = 1 -> cmd (outb 0x1f7 IDE_CMD_READ d) = Some (unit_sel d, lba d) /\ same_medium d (outb 0x1f7 IDE_CMD_READ d);
  out_write : forall d b a s, reg d 0x1f2 = 1 -> length b = 512%nat ->
    medium (outsl 0x1f0 b (outb 0x1f7 IDE_CMD_WRITE d)) a s = upd_medium (medium d) (unit_sel d) (lba d) b a s;
  in_data : forall d a s, cmd d = Some (a, s) -> delay d = 0%nat -> exists d', insl 0x1f0 128 d = (medium d a s, d') /\ same_medium d d'
}.

Section facts.
Context {D : Type} {P : IdePorts D} {V : IdeView D} {L : IdeLaws D}.
Abbreviation state := (bstate (ide D)).

Lemma same_hw_trans (a b c : D) : same_hw a b -> same_hw b c -> same_hw a c.
Proof. intros (R & M & C) (R' & M' & C'). split_and!; [intros p; by rewrite R'|intros x y; by rewrite M'|congruence]. Qed.

Definition with_hw (h : D) (s : state) : state := mkB (bufs s) (set_hw h (disk s)).

Lemma idewait_spec fuel c s : (delay (hw (disk s)) <= fuel)%nat ->
  exists r h, run (idewait fuel c s) = ROk r (with_hw h s) /\ same_hw (hw (disk s)) h /\ delay h = 0%nat /\
    forall a b, cmd (hw (disk s)) = Some (a, b) -> r = if c && unreadable D a b then -1 else 0.
Proof.
  revert s. induction fuel as [|k IH]; intros s Hd; (destruct (delay (hw (disk s))) as [|n] eqn:En;
    [destruct (poll_ready _ En) as (r & h & E & H1 & H2 & H3 & H4)|destruct (poll_busy _ _ En) as (r & h & E & H1 & H2 & H3)]); try lia.
  1, 2: eexists _, h; cbn [idewait]; rewrite run_bind; unfold in_port; rewrite E; cbn [run rbind]; rewrite (proj2 (Z.eqb_eq _ _) H1);
    split; [reflexivity|]; (split; [done|]); (split; [done|]); intros a b Hc; specialize (H2 a b Hc); destruct (Z.eqb_spec (Z.land r (Z.lor IDE_DF IDE_ERR)) 0) as [Hz|Hz];
    (destruct (unreadable D a b), c; naive_solver).
  destruct (IH (with_hw h s)) as (r' & h' & R & S' & Z' & C'); [cbn [with_hw disk hw set_hw]; lia|]. exists r', h'. cbn [idewait]. rewrite run_bind. unfold in_port. rewrite E. cbn [run rbind].
  rewrite (proj2 (Z.eqb_neq _ _) H1). fold (with_hw h s). rewrite R. split; [by destruct s as [? []]|]. split; [by eapply same_hw_trans|]. split; [done|].
  intros a b Hc. apply C'. cbn [with_hw disk hw set_hw]. destruct H3 as (_ & _ & ->). done.
Qed.

(** * Starting a request *)

(** The registers select the sector [n] of drive [k]. *)
Lemma select_sector n k : 0 <= n < 1000 -> 0 <= k < 2 ->
  Z.land n 0xff + 2 ^ 8 * Z.land (Z.shiftr n 8) 0xff + 2 ^ 16 * Z.land (Z.shiftr n 16) 0xff +
    2 ^ 24 * (Z.lor (Z.lor 0xe0 (Z.shiftl k 4)) (Z.land (Z.shiftr n 24) 0x0f) mod 16) = n /\
  Z.lor (Z.lor 0xe0 (Z.shiftl k 4)) (Z.land (Z.shiftr n 24) 0x0f) / 16 mod 2 = k.
Proof.
  intros Hn Hk. rewrite !Z.shiftr_div_pow2 by lia. change 0xff with (Z.ones 8). rewrite !Z.land_ones by lia.
  rewrite (Z.div_small n (2 ^ 16)), (Z.div_small n (2 ^ 24)) by lia. rewrite (Z.mod_small (n / 2 ^ 8)).
  2: { split; [apply Z.div_pos; lia|apply Z.div_lt_upper_bound; lia]. }
  change (0 mod 2 ^ 8) with 0. change (Z.land 0 0x0f) with 0. rewrite Z.lor_0_r. assert (k = 0 \/ k = 1) as [-> | ->] by lia; (split; [|reflexivity]).
  - change (Z.lor 0xe0 (Z.shiftl 0 4) mod 16) with 0. pose proof (Z.div_mod n (2 ^ 8) ltac:(lia)). lia.
  - change (Z.lor 0xe0 (Z.shiftl 1 4) mod 16) with 0. pose proof (Z.div_mod n (2 ^ 8) ltac:(lia)). lia.
Qed.

Definition unit_of (x : buf) : Z := Z.land (dev x) 1.
Definition request_ok (x : buf) : Prop := 0 <= blockno x < FSSIZE /\ length (data x) = 512%nat.

(** What the controller was told: a write is done, a read is pending. *)
Definition started (h h' : D) (x : buf) : Prop :=
  if has B_DIRTY x then forall a b, medium h' a b = upd_medium (medium h) (unit_of x) (blockno x) (data x) a b
  else same_medium h h' /\ cmd h' = Some (unit_of x, blockno x).

Lemma unit_range x : 0 <= unit_of x < 2.
Proof. unfold unit_of. change 1 with (Z.ones 1). rewrite Z.land_ones by lia. apply Z.mod_pos_bound. lia. Qed.

(** The registers after the writes. *)
Lemma programmed h v2 v3 v4 v5 v6 :
  let h' := outb 0x1f6 v6 (outb 0x1f5 v5 (outb 0x1f4 v4 (outb 0x1f3 v3 (outb 0x1f2 v2 (outb 0x3f6 0 h))))) in
  reg h' 0x1f2 = v2 /\ reg h' 0x1f3 = v3 /\ reg h' 0x1f4 = v4 /\ reg h' 0x1f5 = v5 /\ reg h' 0x1f6 = v6 /\ same_medium h h'.
Proof.
  cbv zeta. destruct (out_control 0 h) as (_ & M0 & _). set (h0 := outb 0x3f6 0 h) in *.
  destruct (out_reg 0x1f2 v2 h0) as [R2 M2]; [lia|]. set (h2 := outb 0x1f2 v2 h0) in *.
  destruct (out_reg 0x1f3 v3 h2) as [R3 M3]; [lia|]. set (h3 := outb 0x1f3 v3 h2) in *.
  destruct (out_reg 0x1f4 v4 h3) as [R4 M4]; [lia|]. set (h4 := outb 0x1f4 v4 h3) in *.
  destruct (out_reg 0x1f5 v5 h4) as [R5 M5]; [lia|]. set (h5 := outb 0x1f5 v5 h4) in *.
  destruct (out_reg 0x1f6 v6 h5) as [R6 M6]; [lia|]. set (h6 := outb 0x1f6 v6 h5) in *.
  rewrite !R6, !R5, !R4, !R3, !R2. split_and!; try reflexivity. intros a b. by rewrite M6, M5, M4, M3, M2, M0.
Qed.

Lemma idestart_spec fuel i x s : bufs s !! i = Some x -> request_ok x -> (limit <= fuel)%nat ->
  exists h, run (idestart fuel (Some i) s) = ROk tt (with_hw h s) /\ started (hw (disk s)) h x.
Proof.
  intros Hx [Hb Hl] Hf. unfold idestart. rewrite run_bind. unfold get_buf at 1. rewrite Hx. cbn [run rbind].
  destruct (Z.leb_spec FSSIZE (blockno x)); [lia|]. change (BSIZE / SECTOR_SIZE) with 1. rewrite Z.mul_1_r. change (7 <? 1) with false. cbv zeta iota.
  destruct (idewait_spec fuel false s) as (r0 & h & R & (_ & Hm & _) & _); [pose proof (delay_limit (hw (disk s))); lia|]. rewrite run_bind, R. cbn [rbind].
  unfold out_port, upd_ide. mrun. unfold with_hw, set_hw. cbn [bufs disk hw idequeue havedisk1].
  match goal with |- context [outb 0x1f6 ?v6 (outb 0x1f5 ?v5 (outb 0x1f4 ?v4 (outb 0x1f3 ?v3 (outb 0x1f2 ?v2 (outb 0x3f6 0 h)))))] =>
    destruct (programmed h v2 v3 v4 v5 v6) as (R2 & R3 & R4 & R5 & R6 & Hp); set (h6 := outb 0x1f6 v6 _) in * end.
  destruct (select_sector (blockno x) (unit_of x)) as [Hlba Hdrive]; [unfold FSSIZE in Hb; lia|apply unit_range|].
  assert (lba h6 = blockno x) as El by (unfold lba; rewrite R3, R4, R5, R6; exact Hlba). assert (unit_sel h6 = unit_of x) as Ed by (unfold unit_sel; rewrite R6; exact Hdrive).
  assert (slice (data x) 0 BSIZE = data x) as Es by (unfold slice, BSIZE; cbn; rewrite drop_0; apply take_ge; lia).
  unfold started. destruct (has B_DIRTY x).
  - mrun. cbn [bufs disk hw idequeue havedisk1]. rewrite Es. eexists. split; [reflexivity|]. intros a b. rewrite out_write by done. rewrite El, Ed. unfold upd_medium. by rewrite Hp, Hm.
  - mrun. cbn [bufs disk hw idequeue havedisk1]. eexists. split; [reflexivity|]. destruct (out_read h6 R2) as [Hc Hm']. rewrite Hc, El, Ed. split; [|done].
    intros a b. by rewrite Hm', Hp, Hm.
Qed.

(** * The queue *)

Fixpoint chain (bs : list buf) (q : list nat) : Prop :=
  match q with
  | [] => True
  | i :: q' => (exists x, bs !! i = Some x /\ qnext x = head q' /\ request_ok x) /\ chain bs q'
  end.

(** The queue [q], and the disk [m] without the request that was started. *)
Definition at_disk (m : Z -> Z -> list Z) (h : D) (x : buf) : Prop :=
  if has B_DIRTY x then forall a b, medium h a b = upd_medium m (unit_of x) (blockno x) (data x) a b
  else (forall a b, medium h a b = m a b) /\ cmd h = Some (unit_of x, blockno x).
Record queued (s : state) (q : list nat) (m : Z -> Z -> list Z) : Prop := {
  q_head : idequeue (disk s) = head q;
  q_nodup : NoDup q;
  q_chain : chain (bufs s) q;
  q_disk : match head q with
           | None => forall a b, medium (hw (disk s)) a b = m a b
           | Some i => exists x, bufs s !! i = Some x /\ at_disk m (hw (disk s)) x
           end
}.

Lemma queue_out bs q j f : j ∉ q -> chain bs q -> chain (alter f j bs) q.
Proof.
  induction q as [|i q IH]; [done|]. intros [Hj Hq]%not_elem_of_cons [(x & Hx & Hr) Hc]. split; [|auto]. exists x. by rewrite list_lookup_alter_ne.
Qed.
Lemma queue_lookup bs q i : chain bs q -> i ∈ q -> exists x, bs !! i = Some x /\ request_ok x.
Proof. induction q as [|j q IH]; [by intros _ ?%elem_of_nil|]. intros [(x & Hx & _ & Hr) Hc] [-> |Hi]%elem_of_cons; eauto. Qed.

Definition link_last (q : list nat) (i : nat) (bs : list buf) : list buf :=
  match last q with None => bs | Some l => alter (set_qnext (Some i)) l bs end.

Lemma queue_app bs q i x : NoDup q -> i ∉ q -> chain bs q -> bs !! i = Some x -> qnext x = None -> request_ok x -> chain (link_last q i bs) (q ++ [i]).
Proof.
  intros Hnd Hi Hc Hx Hn Hr. induction q as [|a q IH].
  { split; [|done]. by exists x. }
  apply NoDup_cons in Hnd as [Ha Hnd]. apply not_elem_of_cons in Hi as [Hia Hi]. destruct Hc as [(y & Hy & Hyq & Hyr) Hc]. specialize (IH Hnd Hi Hc). destruct q as [|b q].
  - cbn. split; [exists (set_qnext (Some i) y); by rewrite list_lookup_alter_eq, Hy|]. split; [|done]. exists x. by rewrite list_lookup_alter_ne.
  - split; [|exact IH]. exists y. split; [|done]. unfold link_last. change (last (a :: b :: q)) with (last (b :: q)).
    destruct (last (b :: q)) as [l|] eqn:El; [|done]. rewrite list_lookup_alter_ne; [done|]. intros ->. apply Ha. by apply last_Some_elem_of.
Qed.

Lemma run_get_buf i x (s : state) : bufs s !! i = Some x -> run (get_buf i s) = ROk x s.
Proof. intros H. unfold get_buf. by rewrite H. Qed.

Lemma last_link_spec fuel pp q (s : state) : run (get_link pp s) = ROk (head q) s -> chain (bufs s) q -> (length q <= fuel)%nat ->
  run (last_link fuel pp s) = ROk (match last q with None => pp | Some i => Some i end) s.
Proof.
  revert pp q. induction fuel as [|k IH]; intros pp q Hg Hc Hl; cbn [last_link]; rewrite run_bind, Hg; (destruct q as [|i q]; [done|]); cbn [rbind head]; cbn in Hl; [lia|].
  destruct Hc as [(x & Hx & Hq & _) Hc]. rewrite (IH (Some i) q); [|cbn [get_link]; rewrite run_bind, (run_get_buf i x) by done; cbn [rbind]; by rewrite Hq|done|lia].
  destruct q as [|j q]; [done|]. change (last (i :: j :: q)) with (last (j :: q)). by destruct (last (j :: q)) eqn:E; [|by apply last_None in E].
Qed.

(** The requests that [iderw] accepts. *)
Definition requestable (s : state) (x : buf) : Prop :=
  has B_BUSY x = true /\ Z.land (flags x) (Z.lor B_VALID B_DIRTY) <> B_VALID /\ (dev x = 0 \/ havedisk1 (disk s) <> 0) /\ request_ok x.
Definition strip (x : buf) : buf := set_qnext None x.

Lemma strip_alter (i : nat) v (bs : list buf) : strip <$> alter (set_qnext v) i bs = strip <$> bs.
Proof.
  apply list_eq. intros j. rewrite !list_lookup_fmap. destruct (decide (i = j)) as [-> |]; [|by rewrite list_lookup_alter_ne].
  rewrite list_lookup_alter_eq. by destruct (bs !! j).
Qed.

Lemma queue_length bs q : NoDup q -> chain bs q -> (length q <= length bs)%nat.
Proof.
  intros Hnd Hc. rewrite <- (length_seq (length bs) 0). apply submseteq_length, NoDup_submseteq; [done|]. intros i Hi.
  destruct (queue_lookup _ _ _ Hc Hi) as (x & Hx & _). apply elem_of_seq. apply lookup_lt_Some in Hx. lia.
Qed.

Lemma wait_sleeps k i x (s : state) : bufs s !! i = Some x -> Z.land (flags x) (Z.lor B_VALID B_DIRTY) <> B_VALID ->
  run (wait_done (S k) i s) = RBlocked (CH_buf (Z.of_nat i)) s.
Proof. intros Hx Hf. cbn [wait_done]. rewrite run_bind, (run_get_buf i x) by done. cbn [rbind]. apply Z.eqb_neq in Hf. by rewrite Hf. Qed.

Lemma link_last_lookup q i bs x : i ∉ q -> bs !! i = Some x -> link_last q i bs !! i = Some x.
Proof.
  intros Hi Hx. unfold link_last. destruct (last q) as [l|] eqn:El; [|done]. rewrite list_lookup_alter_ne; [done|]. intros ->. apply Hi. by apply last_Some_elem_of.
Qed.
Lemma link_last_strip q i bs : strip <$> link_last q i bs = strip <$> bs.
Proof. unfold link_last. destruct (last q); [apply strip_alter|done]. Qed.

(** What was at the disk still is: only links change. *)
Lemma at_disk_strip m h x y : strip x = strip y -> at_disk m h x -> at_disk m h y.
Proof. destruct x, y. unfold strip, set_qnext. cbn. intros [=]. subst. intros H. exact H. Qed.
Lemma lookup_strip (bs bs' : list buf) i x : strip <$> bs' = strip <$> bs -> bs !! i = Some x -> exists y, bs' !! i = Some y /\ strip x = strip y.
Proof.
  intros E Hx. apply (f_equal (fun l => l !! i)) in E. rewrite !list_lookup_fmap, Hx in E. destruct (bs' !! i) as [y|]; [|done]. apply (inj Some) in E. by exists y.
Qed.

(** [iderw] queues its buffer, starts the disk if it is idle, and sleeps. *)
Lemma ide_request fuel i x s q m : queued s q m -> i ∉ q -> bufs s !! i = Some x -> requestable s x -> (limit <= fuel)%nat ->
  exists s', run (iderw (S fuel) i s) = RBlocked (CH_buf (Z.of_nat i)) s' /\ queued s' (q ++ [i]) m /\
    strip <$> bufs s' = strip <$> bufs s /\ havedisk1 (disk s') = havedisk1 (disk s).
Proof.
  intros [Hh Hnd Hc Hd] Hi Hx (Hb & Hf & Hdev & Hok) Hlim. unfold iderw. rewrite run_bind, (run_get_buf i x) by done. cbn [rbind]. rewrite Hb. cbn [negb].
  rewrite (proj2 (Z.eqb_neq _ _) Hf). mstep. mstep. assert (negb (dev x =? 0) && (havedisk1 (disk s) =? 0) = false) as ->.
  { destruct Hdev as [-> |H]; [done|]. apply Z.eqb_neq in H. rewrite H. apply andb_false_r. }
  mstep. mstep. unfold upd_buf. mstep. mstep. mstep. mstep. cbn [bufs disk].
  set (bs1 := alter (set_qnext None) i (bufs s)). set (s1 := mkB bs1 (disk s)).
  assert (bs1 !! i = Some (set_qnext None x)) as Hx1 by (unfold bs1; by rewrite list_lookup_alter_eq, Hx).
  assert (chain bs1 q) as Hc1 by (by apply queue_out).
  rewrite run_bind, (last_link_spec _ None q s1); [|cbn [get_link]; mrun; cbn [s1 disk]; by rewrite Hh|done|by apply queue_length]. cbn [rbind].
  assert (forall bs, chain bs (q ++ [i]) -> strip <$> bs = strip <$> bs1 -> strip <$> bs = strip <$> bufs s) as Hst.
  { intros bs _ E. rewrite E. apply strip_alter. }
  pose proof (queue_app bs1 q i _ Hnd Hi Hc1 Hx1 eq_refl Hok) as Hc2. pose proof (link_last_strip q i bs1) as Hs2. pose proof (link_last_lookup q i bs1 _ Hi Hx1) as Hx2.
  assert (NoDup (q ++ [i])) as Hnd2 by (apply NoDup_app; split_and!; [done|set_solver|apply NoDup_singleton]).
  unfold link_last in *. destruct q as [|a q].
  - cbn [last put_link] in *. unfold upd_ide. mrun. cbn [disk bufs set_idequeue idequeue s1]. rewrite bool_decide_true by done.
    destruct (idestart_spec (S fuel) i (set_qnext None x) (mkB bs1 (set_idequeue (Some i) (disk s)))) as (h & R & St); [done|done|lia|].
    rewrite R. cbn [rbind]. rewrite run_bind, (wait_sleeps fuel i (set_qnext None x)) by done. cbn [rbind].
    eexists. split; [reflexivity|]. split; [|split; [by apply Hst|done]]. split; [done|done|done|]. cbn [head app]. exists (set_qnext None x). split; [done|].
    cbn [with_hw disk hw set_hw]. cbn [head] in Hd. unfold at_disk, started, same_medium in *. cbn [disk hw set_idequeue] in St. destruct (has B_DIRTY (set_qnext None x)).
    + intros a b. rewrite St. unfold upd_medium. case_bool_decide; [done|]. apply Hd.
    + destruct St as [St1 St2]. split; [|done]. intros a b. by rewrite St1.
  - destruct (last (a :: q)) as [l|] eqn:El; [|by apply last_None in El]. cbn [put_link]. unfold upd_buf. mrun. cbn [disk bufs s1]. rewrite Hh. cbn [head].
    rewrite bool_decide_false by (intros [= ->]; set_solver). cbn [rbind]. rewrite run_bind, (wait_sleeps fuel i (set_qnext None x)) by done. cbn [rbind].
    eexists. split; [reflexivity|]. split; [|split; [by apply Hst|done]]. split; [done|done|done|]. cbn [head app]. cbn [head] in Hd. destruct Hd as (y & Hy & Hya).
    destruct (lookup_strip (bufs s) _ a y (Hst _ Hc2 Hs2) Hy) as (z & Hz & E). exists z. split; [done|]. by eapply at_disk_strip.
Qed.

(** * The interrupt *)

(** What a request does when it is done at once; a sector that cannot be read leaves the data as it was. *)
Definition read_in (m : Z -> Z -> list Z) (x : buf) : buf :=
  if has B_DIRTY x || unreadable D (unit_of x) (blockno x) then x else set_data (m (unit_of x) (blockno x)) x.
Definition done_buf (m : Z -> Z -> list Z) (x : buf) : buf :=
  clear_flag B_DIRTY (set_flag B_VALID (read_in m x)).
Definition done_medium (m : Z -> Z -> list Z) (x : buf) : Z -> Z -> list Z :=
  if has B_DIRTY x then upd_medium m (unit_of x) (blockno x) (data x) else m.

Lemma next_started fuel q m (s : state) : idequeue (disk s) = head q -> NoDup q -> chain (bufs s) q -> (forall a b, medium (hw (disk s)) a b = m a b) -> (limit <= fuel)%nat ->
  exists s', run ((d <- gets disk ;; when (bool_decide (idequeue d <> None)) (idestart fuel (idequeue d)) ;; release LK_ide) s) = ROk tt s' /\
    queued s' q m /\ bufs s' = bufs s /\ havedisk1 (disk s') = havedisk1 (disk s).
Proof.
  intros Hh Hnd Hc Hm Hlim. mstep. mstep. rewrite Hh. destruct q as [|j q].
  { exists s. cbn. split; [done|]. by split. }
  cbn [head]. rewrite bool_decide_true by done. rewrite run_bind, run_when. destruct Hc as [(y & Hy & Hyq & Hyr) Hc].
  destruct (idestart_spec fuel j y s Hy Hyr Hlim) as (h & R & St). rewrite R. cbn [rbind]. rewrite run_release. exists (with_hw h s). split; [done|]. split; [|done].
  split; [done|done|split; [by exists y|done]|]. cbn [head]. exists y. split; [done|]. cbn [with_hw disk hw set_hw]. unfold at_disk, started, same_medium in *. destruct (has B_DIRTY y).
  - intros a b. rewrite St. unfold upd_medium. case_bool_decide; [done|]. apply Hm.
  - destruct St as [St1 St2]. split; [|done]. intros a b. by rewrite St1.
Qed.

(** The first part of the interrupt: the data of a read, if there is any. *)
Definition read_part (fuel i : nat) (x : buf) : M state unit :=
  if has B_DIRTY x then ret tt else
  r <- idewait fuel true ;;
  when (0 <=? r) (
    d <- gets disk ;;
    let '(b, h) := insl 0x1f0 (BSIZE / 4) (hw d) in
    upd_ide (set_hw h) ;;
    upd_buf i (set_data b)).
Lemma read_done fuel i x s m l : bufs s !! i = Some x -> at_disk m (hw (disk s)) x -> idequeue (disk s) = l -> (limit <= fuel)%nat ->
  exists s', run (read_part fuel i x s) = ROk tt s' /\ bufs s' = <[i := read_in m x]> (bufs s) /\ idequeue (disk s') = l /\
    havedisk1 (disk s') = havedisk1 (disk s) /\ forall a b, medium (hw (disk s')) a b = done_medium m x a b.
Proof.
  intros Hx Hd Hl Hlim. unfold read_part, at_disk, done_medium, read_in in *. destruct (has B_DIRTY x).
  { exists s. split; [done|]. split; [by rewrite list_insert_id|done]. }
  destruct Hd as [Hm Hcmd]. destruct (idewait_spec fuel true s) as (r & h & R & (_ & M1 & C1) & Z1 & E); [pose proof (delay_limit (hw (disk s))); lia|].
  rewrite run_bind, R. cbn [rbind]. rewrite run_when. rewrite (E _ _ Hcmd). cbn [orb andb]. destruct (unreadable D (unit_of x) (blockno x)).
  - change (0 <=? -1) with false. cbv iota. exists (with_hw h s). split; [done|]. cbn [with_hw bufs disk set_hw idequeue havedisk1 hw]. split; [by rewrite list_insert_id|].
    split; [done|]. split; [done|]. intros a b. by rewrite M1.
  - change (0 <=? 0) with true. cbv iota. mstep. mstep. cbn [with_hw disk set_hw hw]. change (BSIZE / 4) with 128.
    destruct (in_data h (unit_of x) (blockno x)) as (h' & -> & M'); [by rewrite C1|done|]. unfold upd_ide, upd_buf. mrun. eexists. split; [reflexivity|]. cbn [bufs disk set_hw idequeue havedisk1 hw].
    rewrite (alter_lookup _ i (bufs s) x) by done. rewrite M1, Hm. split; [done|]. split; [done|]. split; [done|]. intros a b. by rewrite M', M1.
Qed.

Lemma ideintr_spec fuel i x s q m : queued s (i :: q) m -> bufs s !! i = Some x -> (limit <= fuel)%nat ->
  exists s', run (ideintr fuel s) = ROk tt s' /\ bufs s' = <[i := done_buf m x]> (bufs s) /\ queued s' q (done_medium m x) /\ havedisk1 (disk s') = havedisk1 (disk s).
Proof.
  intros [Hh Hnd Hc Hd] Hx Hlim. apply NoDup_cons in Hnd as [Hi Hnd]. destruct Hc as [(x' & Hx' & Hq & Hok) Hc]. assert (x' = x) as -> by congruence.
  cbn [head] in *. destruct Hd as (x' & Hx2 & Hd). assert (x' = x) as -> by congruence. clear Hx' Hx2.
  unfold ideintr. mstep. mstep. mstep. mstep. rewrite Hh. rewrite run_bind, (run_get_buf i x) by done. cbn [rbind]. unfold upd_ide at 1. mstep. mstep. cbn [bufs disk]. rewrite Hq.
  set (s1 := mkB (bufs s) (set_idequeue (head q) (disk s))).
  destruct (read_done fuel i x s1 m (head q)) as (s2 & R2 & B2 & I2 & V2 & M2); [done..|]. change (bufs s1) with (bufs s) in B2.
  rewrite run_bind. fold (read_part fuel i x). rewrite R2. cbn [rbind]. unfold upd_buf. mstep. mstep. mstep. mstep. cbn [bufs disk]. mstep. mstep.
  assert (alter (clear_flag B_DIRTY) i (alter (set_flag B_VALID) i (bufs s2)) = <[i := done_buf m x]> (bufs s)) as E.
  { pose proof (lookup_lt_Some _ _ _ Hx). rewrite B2. rewrite (alter_lookup (set_flag B_VALID) i _ (read_in m x)) by (by apply list_lookup_insert_eq).
    rewrite list_insert_insert_eq. erewrite alter_lookup by (apply list_lookup_insert_eq; lia). by rewrite list_insert_insert_eq. }
  rewrite E. destruct (next_started fuel q (done_medium m x) (mkB (<[i := done_buf m x]> (bufs s)) (disk s2))) as (s' & R' & Q' & B' & V'); try done.
  { cbn [bufs]. rewrite <- (alter_lookup (fun _ => done_buf m x) i (bufs s) x) by done. by apply queue_out. }
  exists s'. split; [done|]. split; [done|]. split; [done|]. by rewrite V'.
Qed.

(** * Many requests *)

Definition sync (ms : (Z -> Z -> list Z) * list buf) (i : nat) : (Z -> Z -> list Z) * list buf :=
  match ms.2 !! i with
  | Some x => (done_medium ms.1 x, <[i := done_buf ms.1 x]> ms.2)
  | None => ms
  end.

Lemma requestable_strip (s s' : state) x y : strip x = strip y -> havedisk1 (disk s') = havedisk1 (disk s) -> requestable s x -> requestable s' y.
Proof. destruct x, y. unfold strip, set_qnext, requestable, request_ok, has. cbn. intros [=] ->. by subst. Qed.

Lemma done_buf_strip m x : strip (done_buf m x) = done_buf m (strip x).
Proof. unfold done_buf, read_in. by destruct x as [f d b p n q dt]; cbn; destruct (has _ _ || _). Qed.

Lemma sync_bufs m (s s' : state) i x : bufs s !! i = Some x -> bufs s' = <[i := done_buf m x]> (bufs s) ->
  sync (m, strip <$> bufs s) i = (done_medium m x, strip <$> bufs s').
Proof. intros Hx B. unfold sync. cbn [fst snd]. rewrite list_lookup_fmap, Hx. cbn. by rewrite B, list_fmap_insert, done_buf_strip. Qed.

Lemma done_flags m x : Z.land (flags (done_buf m x)) (Z.lor B_VALID B_DIRTY) = B_VALID.
Proof.
  assert (forall f, Z.land (Z.land (Z.lor f 2) (Z.lnot 4)) 6 = 2) as H.
  { intros f. apply Z.bits_inj'. intros n Hn. rewrite !Z.land_spec, Z.lor_spec, Z.lnot_spec by done.
    destruct (decide (n = 1)) as [-> |H1]; [cbn; by rewrite orb_true_r|]. destruct (decide (n = 2)) as [-> |H2]; [cbn; by rewrite andb_false_r|].
    change 6 with (Z.lor (2 ^ 1) (2 ^ 2)). rewrite Z.lor_spec, !Z.pow2_bits_eqb by lia. destruct (Z.eqb_spec 1 n), (Z.eqb_spec 2 n); try lia.
    rewrite andb_false_r. symmetry. change 2 with (2 ^ 1). rewrite Z.pow2_bits_eqb by lia. destruct (Z.eqb_spec 1 n); [lia|done]. }
  unfold done_buf, clear_flag, set_flag. cbn [flags set_flags]. apply H.
Qed.

Lemma sync_other q ms i : i ∉ q -> (foldl sync ms q).2 !! i = ms.2 !! i.
Proof.
  revert ms. induction q as [|j q IH]; intros ms Hi; [done|]. apply not_elem_of_cons in Hi as [Hij Hi]. cbn [foldl]. rewrite IH by done.
  unfold sync. destruct (ms.2 !! j); [|done]. cbn [snd]. by rewrite list_lookup_insert_ne.
Qed.
(** A buffer of the list is done in the end. *)
Lemma synced q ms i : NoDup q -> i ∈ q -> (i < length ms.2)%nat -> exists m x, (foldl sync ms q).2 !! i = Some (done_buf m x).
Proof.
  revert ms. induction q as [|j q IH]; intros ms Hnd Hi Hl; [by apply elem_of_nil in Hi|]. apply NoDup_cons in Hnd as [Hj Hnd]. cbn [foldl].
  assert (length (sync ms j).2 = length ms.2) as El by (unfold sync; destruct (ms.2 !! j); [cbn [snd]; apply length_insert|done]).
  apply elem_of_cons in Hi as [-> |Hi]; [|apply IH; [done|done|lia]]. rewrite sync_other by done. unfold sync. destruct (lookup_lt_is_Some_2 _ _ Hl) as [x Hx]. rewrite Hx. cbn [snd].
  rewrite list_lookup_insert_eq by done. eauto.
Qed.

(** * Sleeping and waking *)

Lemma calm_get_buf i : calm (get_buf i : M state buf).
Proof. intros s. unfold get_buf. by destruct (bufs s !! i). Qed.
Lemma calm_in_port p : calm (in_port p : M state Z).
Proof. intros s. unfold in_port. by destruct (inb p (hw (disk s))). Qed.
Lemma calm_idewait fuel c : calm (idewait fuel c : M state Z).
Proof. induction fuel; cbn [idewait]; (apply calm_bind; [apply calm_in_port|]); calm_split; eauto with calm. Qed.
Lemma calm_idestart fuel b : calm (idestart fuel b : M state unit).
Proof. unfold idestart, out_port, upd_ide. calm_split; eauto using calm_get_buf, calm_idewait with calm. Qed.
Lemma calm_read_part fuel i x : calm (read_part fuel i x).
Proof. unfold read_part, upd_ide, upd_buf. calm_split; eauto using calm_idewait with calm. Qed.
Lemma calm_get_link pp : calm (get_link pp : M state (option nat)).
Proof. unfold get_link. calm_split; eauto using calm_get_buf with calm. Qed.
Lemma calm_last_link fuel pp : calm (last_link fuel pp : M state (option nat)).
Proof. revert pp. induction fuel; intros pp; cbn [last_link]; (apply calm_bind; [apply calm_get_link|]); calm_split; eauto with calm. Qed.
Lemma calm_put_link pp b : calm (put_link pp b : M state unit).
Proof. unfold put_link, upd_ide, upd_buf. calm_split; eauto with calm. Qed.

(** The rest of a process that sleeps in [iderw]: it returns as soon as its buffer is done. *)
Definition finishes (i : nat) (k : state -> prog state unit) : Prop :=
  forall s x, bufs s !! i = Some x -> Z.land (flags x) (Z.lor B_VALID B_DIRTY) = B_VALID -> run (k s) = ROk tt s /\ signals (k s) = [].

Ltac past_calm H := apply calm_blocked in H as (? & ? & _ & H & ->);
  [|solve [eauto using calm_get_buf, calm_idestart, calm_last_link, calm_put_link, calm_modify, calm_gets, calm_acquire, calm_when]].

Lemma wait_finished fuel i (s : state) x : bufs s !! i = Some x -> Z.land (flags x) (Z.lor B_VALID B_DIRTY) = B_VALID -> wait_done fuel i s = Ret tt s.
Proof. intros Hx Hf. destruct fuel; cbn [wait_done]; unfold bind, get_buf; rewrite Hx; cbn [pbind]; by rewrite Hf. Qed.

Lemma wait_blocked fuel i (s : state) x : blocked ((wait_done fuel i ;; release LK_ide) s) = Some x ->
  signals ((wait_done fuel i ;; release LK_ide) s) = [] /\ finishes i x.2.
Proof.
  assert ((wait_done fuel i ;; release LK_ide) s =
    match bufs s !! i with
    | Some y => if Z.land (flags y) (Z.lor B_VALID B_DIRTY) =? B_VALID then release LK_ide s
                else match fuel with O => OutOfFuel | S k => Sync (ESleep (CH_buf (Z.of_nat i)) LK_ide) s (fun s' => (wait_done k i ;; release LK_ide) s') end
    | None => Undef "stray buf pointer"
    end) as ->.
  { destruct fuel; unfold bind; cbn [wait_done]; unfold bind, get_buf; destruct (bufs s !! i) as [y|]; try done; cbn [pbind]; by destruct (_ =? _). }
  destruct (bufs s !! i) as [y|]; [|done]. destruct (_ =? _); [done|]. destruct fuel as [|k]; [done|]. cbn [blocked signals]. intros [= <-]. split; [done|].
  cbn [snd]. intros s' z Hz Hf. unfold bind. by rewrite (wait_finished k i s' z).
Qed.
Lemma iderw_blocked fuel i (s : state) x : blocked (iderw fuel i s) = Some x -> signals (iderw fuel i s) = [] /\ finishes i x.2.
Proof.
  unfold iderw, upd_buf. intros H. past_calm H.
  revert H. destruct (negb _); [done|]. destruct (Z.eqb _ _); [done|]. intros H. past_calm H. revert H. destruct (negb _ && _); [done|]. intros H.
  repeat past_calm H. by apply wait_blocked.
Qed.
Lemma ideintr_signals fuel (s s' : state) : run (ideintr fuel s) = ROk tt s' ->
  signals (ideintr fuel s) = match idequeue (disk s) with Some i => [CH_buf (Z.of_nat i)] | None => [] end.
Proof.
  unfold ideintr. intros H.
  apply calm_signals in H as (u & s1 & R & H & ->); [|apply calm_acquire]. injection R as _ <-.
  apply calm_signals in H as (d & s1 & R & H & ->); [|apply calm_gets]. injection R as <- <-. revert H. destruct (idequeue (disk s)) as [i|]; [|done]. intros H.
  apply calm_signals in H as (b & s1 & _ & H & ->); [|apply calm_get_buf].
  apply calm_signals in H as (? & s2 & _ & H & ->); [|apply calm_modify].
  apply calm_signals in H as (? & s3 & _ & H & ->); [|apply calm_read_part].
  apply calm_signals in H as (? & s4 & _ & H & ->); [|apply calm_modify].
  apply calm_signals in H as (? & s5 & _ & H & ->); [|apply calm_modify].
  rewrite signals_bind, run_wakeup. cbn [signals wakeup Prelude.sync app]. f_equal. rewrite run_bind in H. cbn [run rbind wakeup Prelude.sync] in H.
  apply calm_signals in H as (? & s6 & _ & H & ->); [|apply calm_gets].
  by apply calm_signals in H as (? & s7 & _ & H & ->); [|apply calm_when, calm_idestart].
Qed.
(** * Processes and interrupts in any order *)

(** The process [i] asks for the buffer [i], the disk interrupts, the process [i] gets a turn. *)
Inductive action := Request (i : nat) | Interrupt | Resume (i : nat).
Definition act (fuel : nat) (a : action) (y : pool state) : option (pool state) :=
  match a with
  | Request i => run_as (Some i) (iderw fuel i (shared y)) y
  | Interrupt => run_as None (ideintr fuel (shared y)) y
  | Resume i => resume i y
  end.
Definition acts (fuel : nat) (sched : list action) (y : pool state) : option (pool state) :=
  foldl (fun o a => o ≫= act fuel a) (Some y) sched.
Definition requests (sched : list action) : list nat := omap (fun a => match a with Request i => Some i | _ => None end) sched.

(** What a queue should do: a process waits its turn, each interrupt serves the one that has waited longest,
    and a process that was served returns when it runs. *)
Record server := mkServer { waiting : list nat; served : list nat; finished : list nat }.
Definition idle : server := mkServer [] [] [].
Definition serve (v : server) (a : action) : server :=
  match a with
  | Request i => mkServer (waiting v ++ [i]) (served v) (finished v)
  | Interrupt => mkServer (tail (waiting v)) (served v ++ option_list (head (waiting v))) (finished v)
  | Resume i => if decide (i ∈ served v /\ i ∉ finished v) then mkServer (waiting v) (served v) (finished v ++ [i]) else v
  end.
Definition woken (v : server) : list nat := filter (fun i => i ∉ finished v) (served v).

Lemma serve_order sched v : served (foldl serve v sched) ++ waiting (foldl serve v sched) = (served v ++ waiting v) ++ requests sched.
Proof.
  revert v. induction sched as [|a sched IH]; intros v; cbn [foldl]; [by rewrite app_nil_r|]. rewrite IH. destruct a as [i| |i]; cbn [serve requests omap list_omap].
  - cbn [served waiting]. by rewrite <- !app_assoc.
  - f_equal. cbn [served waiting]. rewrite <- app_assoc. by destruct (waiting v).
  - by destruct (decide _).
Qed.
Lemma serve_finished v a : NoDup (finished v) -> finished v ⊆ served v -> NoDup (finished (serve v a)) /\ finished (serve v a) ⊆ served (serve v a).
Proof.
  intros Hn Hs. destruct a as [i| |i]; cbn [serve]; [done|split; [done|]; set_solver|]. destruct (decide _) as [[H1 H2]|]; [|done]. cbn [finished served].
  split; [|set_solver]. apply NoDup_app. split_and!; [done|set_solver|apply NoDup_singleton].
Qed.
Lemma serve_all n v : (length (waiting v) <= n)%nat -> foldl serve v (replicate n Interrupt) = mkServer [] (served v ++ waiting v) (finished v).
Proof.
  revert v. induction n as [|n IH]; intros [w d f] Hl; cbn [waiting served finished] in *.
  - destruct w; [by rewrite app_nil_r|cbn in Hl; lia].
  - cbn [replicate foldl]. rewrite IH; cbn [serve waiting served finished]; [|destruct w; cbn in *; lia]. f_equal. rewrite <- app_assoc. by destruct w.
Qed.
Lemma finish_all l v : let v' := foldl serve v (Resume <$> l) in
  waiting v' = waiting v /\ served v' = served v /\ finished v ⊆ finished v' /\ forall i, i ∈ l -> i ∈ served v -> i ∈ finished v'.
Proof.
  cbv zeta. revert v. induction l as [|j l IH]; intros v; [cbn; split_and!; set_solver|]. cbn [fmap list_fmap foldl].
  destruct (IH (serve v (Resume j))) as (W & E & F & G). cbn [serve] in *. destruct (decide (j ∈ served v /\ j ∉ finished v)) as [[H1 H2]|H]; cbn [waiting served finished] in *.
  - split_and!; [done|done|set_solver|]. intros i [-> |Hi]%elem_of_cons Hv; [set_solver|auto].
  - split_and!; [done|done|done|]. intros i [-> |Hi]%elem_of_cons Hv; [|auto]. destruct (decide (j ∈ finished v)); [set_solver|naive_solver].
Qed.
Lemma requests_app l k : requests (l ++ k) = requests l ++ requests k.
Proof. apply omap_app. Qed.
Lemma requests_rest n l : requests (replicate n Interrupt ++ (Resume <$> l)) = [].
Proof. rewrite requests_app. replace (requests (replicate n Interrupt)) with (@nil nat) by (by induction n). by induction l. Qed.

Section server.
Context (fuel : nat) (s0 : state) (m0 : Z -> Z -> list Z).
Hypothesis Hlim : (limit <= fuel)%nat.

(** The disk and the buffers when the requests [q] were done one at a time. *)
Definition after (q : list nat) : (Z -> Z -> list Z) * list buf := foldl sync (m0, strip <$> bufs s0) q.

Record serves (y : pool state) (v : server) : Prop := {
  sv_queue : queued (shared y) (waiting v) (after (served v)).1;
  sv_bufs : strip <$> bufs (shared y) = (after (served v)).2;
  sv_disk1 : havedisk1 (disk (shared y)) = havedisk1 (disk s0);
  sv_asleep : Forall2 (fun i x => x.1 = (i, CH_buf (Z.of_nat i)) /\ finishes i x.2) (waiting v) (asleep y);
  sv_ready : Forall2 (fun i x => x.1 = i /\ finishes i x.2) (woken v) (ready y);
  sv_returned : returned y = finished v;
  sv_length : length (bufs (shared y)) = length (bufs s0);
  sv_nodup : NoDup (served v ++ waiting v);
  sv_bound : forall i, i ∈ served v -> (i < length (bufs s0))%nat;
  sv_finished : NoDup (finished v) /\ finished v ⊆ served v
}.

Lemma serves_idle : queued s0 [] m0 -> serves (mkPool s0 [] [] []) idle.
Proof. clear fuel Hlim. intros Hq. split; try done; [constructor|set_solver|by split; [constructor|]]. Qed.

Lemma request_serves i x y v : serves y v -> i ∉ served v ++ waiting v -> bufs s0 !! i = Some x -> requestable s0 x ->
  exists y', act (S fuel) (Request i) y = Some y' /\ serves y' (serve v (Request i)).
Proof.
  intros Y Hi Hx Hr. assert (exists z, bufs (shared y) !! i = Some z /\ strip x = strip z) as (z & Hz & E).
  { pose proof (sync_other (served v) (m0, strip <$> bufs s0) i ltac:(set_solver)) as E. fold (after (served v)) in E. rewrite <- (sv_bufs _ _ Y) in E. cbn [snd] in E.
    rewrite !list_lookup_fmap, Hx in E. destruct (bufs (shared y) !! i) as [z|]; [|done]. apply (inj Some) in E. by exists z. }
  destruct (ide_request fuel i z (shared y) _ _ (sv_queue _ _ Y) ltac:(set_solver) Hz) as (s' & R & Q & B & V1); [|done|].
  { eapply requestable_strip; [done|apply Y|done]. }
  apply run_blocked in R as (k & R). destruct (iderw_blocked _ _ _ _ R) as [Hs Hf]. cbn [act]. rewrite (run_as_sleeps _ _ _ _ _ _ R), Hs. eexists. split; [reflexivity|].
  destruct Y. cbn [serve wakes foldl]. split; cbn [shared asleep ready returned waiting served finished]; try done; [by rewrite B|by rewrite V1|by apply Forall2_app; [|constructor; [|constructor]]| |].
  { apply (f_equal length) in B. rewrite !length_fmap in B. congruence. }
  rewrite app_assoc. apply NoDup_app. split_and!; [done|set_solver|apply NoDup_singleton].
Qed.

(** A wakeup of one process. *)
Lemma wake_first i q (l : list (nat * chan * (state -> prog state unit))) : NoDup (i :: q) ->
  Forall2 (fun i x => x.1 = (i, CH_buf (Z.of_nat i)) /\ finishes i x.2) (i :: q) l ->
  exists x l', l = x :: l' /\ x.1.1 = i /\ filter (fun x => x.1.2 = CH_buf (Z.of_nat i)) l = [x] /\ filter (fun x => x.1.2 <> CH_buf (Z.of_nat i)) l = l'.
Proof.
  intros [Hi _]%NoDup_cons (x & l' & (Ex & _) & Hl & ->)%Forall2_cons_inv_l. exists x, l'. split; [done|]. split; [by rewrite Ex|].
  assert (forall z, z ∈ l' -> z.1.2 <> CH_buf (Z.of_nat i)) as Hne.
  { intros z (n & Hn)%list_elem_of_lookup E. destruct (Forall2_lookup_r _ _ _ _ _ Hl Hn) as (j & Hj & Ez & _). rewrite Ez in E. injection E as E.
    apply Nat2Z.inj in E as ->. apply Hi. by eapply list_elem_of_lookup_2. }
  rewrite !filter_cons, decide_True, decide_False by (rewrite Ex; naive_solver). split.
  - by rewrite filter_none.
  - by rewrite filter_all.
Qed.

Lemma interrupt_serves y v : serves y v -> exists y', act (S fuel) Interrupt y = Some y' /\ serves y' (serve v Interrupt).
Proof.
  intros Y. pose proof (sv_queue _ _ Y) as Q. cbn [act serve]. destruct (waiting v) as [|i q] eqn:Ew.
  - assert (run (ideintr (S fuel) (shared y)) = ROk tt (shared y)) as R by (unfold ideintr; mrun; rewrite (q_head _ _ _ Q); done).
    rewrite (run_as_returns _ _ _ _ _ R), (ideintr_signals _ _ _ R), (q_head _ _ _ Q). cbn [wakes foldl head option_list tail]. rewrite !app_nil_r. eexists. split; [reflexivity|].
    destruct v, Y. cbn [waiting] in *. by subst.
  - destruct (queue_lookup _ _ i (q_chain _ _ _ Q)) as (x & Hx & _); [by left|].
    destruct (ideintr_spec (S fuel) i x (shared y) q _ Q Hx) as (s' & R & B & Q' & V'); [lia|].
    rewrite (run_as_returns _ _ _ _ _ R), (ideintr_signals _ _ _ R), (q_head _ _ _ Q). cbn [head option_list tail wakes foldl]. eexists. split; [reflexivity|].
    destruct Y as [_ Yb Yd Ya Yr Yf Yk Yn Yl [Yn2 Yf2]]. rewrite Ew in *. assert (i ∉ served v) as Hi by (apply NoDup_app in Yn as (_ & Yn & _); intros H; by apply (Yn i H); left).
    destruct (wake_first i q (asleep y)) as (z & l' & El & Ez & F1 & F2); [by apply NoDup_app in Yn as (_ & _ & ?)|done|].
    assert (after (served v ++ [i]) = (done_medium (after (served v)).1 x, strip <$> bufs s')) as Ea.
    { unfold after. rewrite foldl_app. cbn [foldl]. fold (after (served v)). rewrite (surjective_pairing (after (served v))), <- Yb. by apply sync_bufs. }
    unfold wake. rewrite F1, F2. rewrite El in Ya. apply Forall2_cons in Ya as [[_ Hz] Ya].
    change (option_list (Some i)) with [i]. change (option_list (@None nat)) with (@nil nat).
    split; cbn [shared asleep ready returned waiting served finished]; rewrite ?Ea; try done.
    + by rewrite V'.
    + unfold woken. cbn [served finished]. rewrite filter_app. apply Forall2_app; [done|]. rewrite filter_cons, decide_True by set_solver. constructor; [|constructor]. done.
    + by rewrite Yf, app_nil_r.
    + by rewrite B, length_insert.
    + by rewrite <- app_assoc.
    + intros j [Hj|Hj]%elem_of_app; [by apply Yl|]. apply list_elem_of_singleton in Hj as ->. apply lookup_lt_Some in Hx.
      by rewrite <- Yk.
    + split; [done|set_solver].
Qed.

(** The buffer of a request that was served is valid and clean. *)
Lemma served_done y v i : serves y v -> i ∈ served v -> exists x, bufs (shared y) !! i = Some x /\ Z.land (flags x) (Z.lor B_VALID B_DIRTY) = B_VALID.
Proof.
  intros Y Hi. destruct (synced (served v) (m0, strip <$> bufs s0) i) as (m & x & E); [by pose proof (sv_nodup _ _ Y) as (? & _ & _)%NoDup_app|done| |].
  { cbn [snd]. rewrite length_fmap. by apply Y. }
  fold (after (served v)) in E. rewrite <- (sv_bufs _ _ Y), list_lookup_fmap in E. destruct (bufs (shared y) !! i) as [z|]; [|done]. apply (inj Some) in E. exists z. split; [done|].
  change (flags z) with (flags (strip z)). rewrite E. apply done_flags.
Qed.

Lemma elem_woken v i : i ∈ woken v <-> i ∈ served v /\ i ∉ finished v.
Proof. unfold woken. rewrite list_elem_of_filter. tauto. Qed.

Lemma resume_serves i y v : serves y v -> exists y', act (S fuel) (Resume i) y = Some y' /\ serves y' (serve v (Resume i)).
Proof.
  intros Y. cbn [act serve]. unfold resume. destruct (list_find (fun x => x.1 = i) (ready y)) as [[n [j k]]|] eqn:Ef.
  - apply list_find_Some in Ef as (Hn & Ej & _). cbn in Ej. subst j. destruct (Forall2_lookup_r _ _ _ _ _ (sv_ready _ _ Y) Hn) as (j & Hj & Ej & Hk). cbn in Ej, Hk. subst j.
    assert (i ∈ woken v) as [Hi Hni]%elem_woken by (by eapply list_elem_of_lookup_2). rewrite decide_True by done.
    destruct (served_done y v i Y Hi) as (x & Hx & Hf). destruct (Hk _ _ Hx Hf) as [R Hs]. rewrite (run_as_returns _ _ _ _ _ R), Hs. cbn [wakes foldl option_list]. eexists. split; [reflexivity|].
    destruct (serve_finished v (Resume i)) as [F1 F2]; [apply Y..|]. cbn [serve] in F1, F2. rewrite decide_True in F1, F2 by done.
    destruct Y as [Yq Yb Yd Ya Yr Yf Yk Yn Yl _]. split; cbn [shared asleep ready returned waiting served finished]; try done; [|by rewrite Yf].
    assert (woken (mkServer (waiting v) (served v) (finished v ++ [i])) = delete n (woken v)) as ->; [|by apply Forall2_delete].
    rewrite (delete_nodup _ n i); [|by apply NoDup_filter; apply NoDup_app in Yn as (? & _)|done]. unfold woken. cbn [served finished]. rewrite list_filter_filter.
    apply list_filter_iff. intros z. set_solver.
  - apply list_find_None in Ef. rewrite decide_False; [by exists y|]. intros H%elem_woken. apply list_elem_of_lookup in H as (n & Hn).
    destruct (Forall2_lookup_l _ _ _ _ _ (sv_ready _ _ Y) Hn) as (x & Hx & E & _). rewrite Forall_lookup in Ef. by apply (Ef n x).
Qed.

Lemma acts_serves sched y v : serves y v -> NoDup ((served v ++ waiting v) ++ requests sched) ->
  (forall i, i ∈ requests sched -> exists x, bufs s0 !! i = Some x /\ requestable s0 x) ->
  exists y', acts (S fuel) sched y = Some y' /\ serves y' (foldl serve v sched).
Proof.
  revert y v. unfold acts. induction sched as [|a sched IH]; intros y v Y Hnd Hr; [by exists y|]. cbn [foldl].
  assert (exists y', act (S fuel) a y = Some y' /\ serves y' (serve v a)) as (y' & E & Y').
  { destruct a as [i| |i]; [|by apply interrupt_serves|by apply resume_serves]. cbn in Hnd. destruct (Hr i) as (x & Hx & Hxr); [by left|]. eapply request_serves; [done| |done|done].
    intros Hi. apply NoDup_app in Hnd as (_ & Hnd & _). apply (Hnd i Hi). by left. }
  cbn [mbind option_bind]. rewrite E. apply IH; [done| |].
  - pose proof (serve_order [a] v) as E'. cbn [foldl] in E'. rewrite E', <- app_assoc. by destruct a.
  - intros i Hi. apply Hr. destruct a; [by right|done|done].
Qed.
End server.

(** The processes that sleep, and those that are ready. *)
Lemma serves_names s0 m0 y v : serves s0 m0 y v -> (asleep y).*1.*1 = waiting v /\ (ready y).*1 = woken v.
Proof.
  intros [_ _ _ Ya Yr _ _ _ _ _]. split.
  - induction Ya as [|i x q l [E _] _ IH]; [done|]. cbn. by rewrite E, IH.
  - induction Yr as [|i x q l [E _] _ IH]; [done|]. cbn. by rewrite E, IH.
Qed.
Lemma acts_app fuel l k y : acts fuel (l ++ k) y = acts fuel l y ≫= acts fuel k.
Proof.
  unfold acts. rewrite foldl_app. destruct (foldl _ (Some y) l); [done|]. cbn. by induction k.
Qed.

(** C10. The IDE driver serves requests in order and wakes those who asked.  However processes that call [iderw] for
    different buffers, disk interrupts - spurious ones too - and the turns of the processes that were woken follow each other,
    nothing panics, and exactly the requests that were not served yet are queued and their processes asleep; each interrupt serves
    the oldest one and wakes its process, which returns when it runs; and the disk and the buffers are
    exactly what the requests served, done one at a time in the order in which they were made, make of them - reads see the writes queued before them, and a
    sector that cannot be read leaves its buffer's data as it was.  After as many interrupts as there are requests every request is served, and
    every process returns when it gets a turn. *)
Theorem ide_fifo fuel sched s m : queued s [] m -> NoDup (requests sched) -> (limit <= fuel)%nat ->
  (forall i, i ∈ requests sched -> exists x, bufs s !! i = Some x /\ requestable s x) ->
  let v := foldl serve idle sched in
  let reqs := requests sched in
  exists y, acts (S fuel) sched (mkPool s [] [] []) = Some y /\ served v ++ waiting v = reqs /\
    (asleep y).*1.*1 = waiting v /\ (ready y).*1 = woken v /\ returned y = finished v /\
    queued (shared y) (waiting v) (after s m (served v)).1 /\ strip <$> bufs (shared y) = (after s m (served v)).2 /\
  exists z, acts (S fuel) (replicate (length reqs) Interrupt ++ (Resume <$> reqs)) y = Some z /\
    asleep z = [] /\ ready z = [] /\ returned z ≡ₚ reqs /\ idequeue (disk (shared z)) = None /\
    (forall a b, medium (hw (disk (shared z))) a b = (after s m reqs).1 a b) /\ strip <$> bufs (shared z) = (after s m reqs).2.
Proof.
  intros Hq Hnd Hlim Hr v reqs. pose proof (serves_idle s m Hq) as Y0. pose proof (serve_order sched idle) as Ho. cbn [idle served waiting app] in Ho.
  destruct (acts_serves fuel s m Hlim sched _ _ Y0 Hnd Hr) as (y & Ey & Y). exists y. fold v in Y, Ho. fold reqs in Ho. destruct (serves_names _ _ _ _ Y) as [N1 N2].
  split; [done|]. split; [done|]. split; [done|]. split; [done|]. split; [apply Y|]. split; [apply Y|]. split; [apply Y|].
  set (rest := replicate (length reqs) Interrupt ++ (Resume <$> reqs)). assert (requests rest = []) as Er by apply requests_rest.
  destruct (acts_serves fuel s m Hlim rest y v Y) as (z & Ez & Z); [rewrite Er, Ho, app_nil_r; done|rewrite Er; by intros i ?%elem_of_nil|].
  exists z. split; [done|]. unfold rest in Z. rewrite foldl_app, serve_all in Z; [|rewrite <- Ho, length_app; lia]. rewrite Ho in Z.
  destruct (finish_all reqs (mkServer [] reqs (finished v))) as (W & E & _ & G). set (v' := foldl serve _ (Resume <$> reqs)) in *. cbn [waiting served] in W, E, G.
  destruct Z as [Zq Zb _ Za Zr Zf _ _ _ [Zn Zs]]. rewrite W, E in *. apply Forall2_nil_inv_l in Za as ->.
  assert (woken v' = []) as Ew by (unfold woken; apply filter_none; intros i Hi Hn; apply Hn, G; by rewrite <- ?E).
  rewrite Ew in Zr. apply Forall2_nil_inv_l in Zr as ->. split; [done|]. split; [done|]. split; [|split; [apply Zq|split; [apply Zq|done]]].
  rewrite Zf. apply NoDup_Permutation; [done|done|]. intros i. split; [apply Zs|]. intros Hi. by apply G.
Qed.
End facts.

(** * A controller that is busy for three polls and has a bad sector *)

Module Demo.
Record ctl := mkCtl { regs : Z -> Z; sectors : Z -> Z -> list Z; pending : option (Z * Z); busy : nat }.
#[global] Instance ctl_view : IdeView ctl := {| reg := regs; medium := sectors; cmd := pending; delay d := Nat.min 3 (busy d); unreadable a b := (a =? 0) && (b =? 9) |}.
#[global] Instance ctl_ports : IdePorts ctl := {|
  inb p d := match delay d with O => (match pending d with Some (a, b) => if unreadable ctl a b then 0x41 else 0x40 | None => 0x40 end, mkCtl (regs d) (sectors d) (pending d) 0) | S k => (0x80, mkCtl (regs d) (sectors d) (pending d) k) end;
  outb p v d :=
    if p =? 0x1f7 then mkCtl (regs d) (sectors d) (if v =? IDE_CMD_READ then Some (unit_sel d, lba d) else None) 3
    else if p =? 0x3f6 then d else mkCtl (fun q => if q =? p then v else regs d q) (sectors d) (pending d) (busy d);
  outsl p b d := mkCtl (regs d) (upd_medium (sectors d) (unit_sel d) (lba d) b) (pending d) (busy d);
  insl p n d := match pending d with Some (a, s) => (sectors d a s, d) | None => ([], d) end
|}.
#[global] Instance ctl_laws : IdeLaws ctl.
Proof.
  refine {| limit := 3 |}.
  - intros d. apply Nat.le_min_l.
  - intros d k E. eexists _, _. cbn [inb ctl_ports]. rewrite E. split; [done|]. split; [done|]. split; [|done].
    change (Nat.min 3 (busy d) = S k) in E. change (Nat.min 3 k = k). lia.
  - intros d E. eexists _, _. cbn [inb ctl_ports]. rewrite E. split; [reflexivity|]. cbn [cmd ctl_view]. split; [by destruct (pending d) as [[a b]|]; [destruct (unreadable ctl a b)|]|].
    split; [|done]. intros a b ->. by destruct (unreadable ctl a b).
  - intros p v d Hp. cbn [outb ctl_ports]. destruct (Z.eqb_spec p 0x1f7), (Z.eqb_spec p 0x3f6); try lia. done.
  - done.
  - done.
  - done.
  - intros d a s Hc _. cbn in *. rewrite Hc. by eexists.
Defined.

Definition start : bstate (ide ctl) :=
  mkB [mkBuf 5 0 5 0 0 None (replicate 512 7); mkBuf 1 0 5 0 0 None (replicate 512 0); mkBuf 1 0 9 0 0 None (replicate 512 3)]
    (mkIde None 0 (mkCtl (fun _ => 0) (fun _ _ => replicate 512 0) None 0)).
(** A write and a read of the same block and a read of the bad sector. *)
Definition sched : list action := [Request 0; Request 1; Interrupt; Request 2; Resume 0].
End Demo.

Lemma ide_fifo_witness :
  exists y, acts 4 Demo.sched (mkPool Demo.start [] [] []) = Some y /\ (asleep y).*1.*1 = [1; 2]%nat /\ returned y = [0%nat] /\
  exists z, acts 4 (replicate 3 Interrupt ++ [Resume 0; Resume 1; Resume 2]) y = Some z /\ asleep z = [] /\ returned z ≡ₚ [0; 1; 2]%nat /\
    data <$> bufs (shared z) = [replicate 512 7; replicate 512 7; replicate 512 3] /\ medium (hw (disk (shared z))) 0 5 = replicate 512 7.
Proof.
  assert (queued Demo.start [] (fun _ _ => replicate 512 0)) as Hq by (split; [done|by constructor|done|done]).
  destruct (ide_fifo 3 Demo.sched Demo.start (fun _ _ => replicate 512 0) Hq) as (y & R & _ & A & _ & F & _ & _ & z & R' & A' & _ & F' & _ & Hm & Hb).
  - by apply (bool_decide_unpack _).
  - done.
  - intros i [-> |[-> |[-> |[]%elem_of_nil]%elem_of_cons]%elem_of_cons]%elem_of_cons; (eexists; split; [reflexivity|]); (split; [done|]); (split; [by vm_compute|]); split; [by left| |by left| |by left|]; by vm_compute.
  - exists y. split; [exact R|]. split; [exact A|]. split; [exact F|]. exists z. split; [exact R'|]. split; [exact A'|]. split; [exact F'|]. split; [|rewrite Hm; by vm_compute].
    assert (data <$> bufs (shared z) = data <$> (strip <$> bufs (shared z))) as -> by (rewrite <- list_fmap_compose; by apply list_fmap_ext).
    rewrite Hb. by vm_compute.
Defined.
