(* ===== verification/Mkfs.v ===== *)
(** The disk image builder: mkfs.c.

    The program runs on the host.  The image file is the list of its blocks; a write beyond its end
    fills the gap with zeroes, a read there fails.  [host] gives the contents of the files named on
    the command line, [None] for one that cannot be opened, and [creat] says whether the image can
    be created; reads of host files return the bytes asked for or all that is left.  [exit] and a
    failed [assert] are [panic].  The host is little-endian, as the i386 is. *)

From Stdlib Require Import ZArith Lia.
From stdpp Require Import base tactics option strings numbers list.
From S2P Require Import Prelude Layout Bytes Crash CString Bio Cache FsFormat Fs.
Open Scope Z_scope.

Definition NINODES : Z := 200.
Definition nbitmap : Z := FSSIZE / (BSIZE * 8) + 1.
Definition ninodeblocks : Z := NINODES / IPB + 1.
Definition nlog : Z := LOGSIZE.
(** [main] sets [nmeta], [nblocks] and [sb] before anything else uses them. *)
Definition nmeta : Z := 2 + nlog + ninodeblocks + nbitmap.
Definition nblocks : Z := FSSIZE - nmeta.

(** The bytes of [y] are those of [x] in Intel order. *)
Definition xshort (x : Z) : Z := le_dec [u8 x; u8 (Z.shiftr x 8)].
Definition xint (x : Z) : Z := le_dec [u8 x; u8 (Z.shiftr x 8); u8 (Z.shiftr x 16); u8 (Z.shiftr x 24)].

Definition sb : superblock :=
  mkSb (xint FSSIZE) (xint nblocks) (xint NINODES) (xint nlog) (xint 2) (xint (2 + nlog)) (xint (2 + nlog + ninodeblocks)).

Definition set_di_size v x := mkDinode (di_type x) (di_major x) (di_minor x) (di_nlink x) v (di_addrs x).
Definition set_di_addrs l x := mkDinode (di_type x) (di_major x) (di_minor x) (di_nlink x) (di_size x) l.

Definition zeroes : block := replicate (Z.to_nat BSIZE) 0.

Record state := mkMk {
  img : list block;
  freeinode : Z;
  freeblock : Z
}.
Definition set_img v s := mkMk v (freeinode s) (freeblock s).
Definition set_freeinode i s := mkMk (img s) i (freeblock s).
Definition set_freeblock b s := mkMk (img s) (freeinode s) b.
Abbreviation M := (M state).

(** The block at which [lseek(fsfd, sec * BSIZE, 0)] puts the file offset. *)
Definition lseek (sec : Z) : nat := Z.to_nat (u32 (sec * BSIZE) / BSIZE).

Definition wsect (sec : Z) (buf : block) : M unit :=
  let i := lseek sec in
  modify (fun s => set_img (<[i := buf]> (img s ++ replicate (S i - length (img s)) zeroes)) s).
Definition rsect (sec : Z) : M block :=
  v <- gets img ;;
  match v !! lseek sec with
  | Some buf => ret buf
  | None => panic "read"
  end.

Definition winode (inum : Z) (ip : dinode) : M unit :=
  let bn := IBLOCK inum sb in
  buf <- rsect bn ;;
  wsect bn (splice buf (inum mod IPB * DINODE_SIZE) (dinode_bytes ip)).
Definition rinode (inum : Z) : M dinode :=
  buf <- rsect (IBLOCK inum sb) ;;
  ret (dinode_of buf (inum mod IPB * DINODE_SIZE)).

Definition ialloc (type : Z) : M Z :=
  inum <- gets freeinode ;;
  modify (set_freeinode (u32 (inum + 1))) ;;
  winode inum (mkDinode (s16 (xshort type)) 0 0 (s16 (xshort 1)) (xint 0) (replicate 13 0)) ;;
  ret inum.

Fixpoint balloc_loop (n : nat) (i : Z) (buf : block) : block :=
  match n with
  | O => buf
  | S n => balloc_loop n (i + 1) (put8 buf (i / 8) (Z.lor (get8 buf (i / 8)) (Z.shiftl 1 (i mod 8))))
  end.
Definition balloc (used : Z) : M unit :=
  if negb (used <? BSIZE * 8) then panic "used < BSIZE * 8" else
  wsect (sb_bmapstart sb) (balloc_loop (Z.to_nat used) 0 zeroes).

(** [freeblock++] *)
Definition next_block : M Z :=
  b <- gets freeblock ;;
  modify (set_freeblock (u32 (b + 1))) ;;
  ret b.

(** The block of the image for block [fbn] of the file, and the inode with it. *)
Definition iappend_block (fbn : Z) (din : dinode) : M (Z * dinode) :=
  if fbn <? NDIRECT then
    din <- (if xint (default 0 (zlookup (di_addrs din) fbn)) =? 0 then
              b <- next_block ;; ret (set_di_addrs (zinsert fbn (xint b) (di_addrs din)) din)
            else ret din) ;;
    ret (xint (default 0 (zlookup (di_addrs din) fbn)), din)
  else
    din <- (if xint (default 0 (zlookup (di_addrs din) NDIRECT)) =? 0 then
              b <- next_block ;; ret (set_di_addrs (zinsert NDIRECT (xint b) (di_addrs din)) din)
            else ret din) ;;
    let ib := xint (default 0 (zlookup (di_addrs din) NDIRECT)) in
    indirect <- rsect ib ;;
    indirect <- (if get32 indirect (4 * (fbn - NDIRECT)) =? 0 then
                   b <- next_block ;;
                   let indirect := put32 indirect (4 * (fbn - NDIRECT)) (xint b) in
                   wsect ib indirect ;; ret indirect
                 else ret indirect) ;;
    ret (xint (get32 indirect (4 * (fbn - NDIRECT))), din).

(** Every round takes a byte of [p] at least, so the length of [p] is fuel enough. *)
Fixpoint iappend_loop (fuel : nat) (p : list Z) (off : Z) (din : dinode) : M (Z * dinode) :=
  if negb (0 <? Z.of_nat (length p)) then ret (off, din) else
  match fuel with
  | O => nofuel
  | S fuel =>
      let fbn := off / BSIZE in
      if negb (fbn <? MAXFILE) then panic "fbn < MAXFILE" else
      ' (x, din) <- iappend_block fbn din ;;
      let n1 := Z.min (Z.of_nat (length p)) (u32 ((fbn + 1) * BSIZE - off)) in
      buf <- rsect x ;;
      wsect x (splice buf (off - fbn * BSIZE) (take (Z.to_nat n1) p)) ;;
      iappend_loop fuel (drop (Z.to_nat n1) p) (u32 (off + n1)) din
  end.
Definition iappend (inum : Z) (p : list Z) : M unit :=
  din <- rinode inum ;;
  ' (off, din) <- iappend_loop (length p) p (xint (di_size din)) din ;;
  winode inum (set_di_size (xint off) din).

(** A [struct dirent] with this number and name. *)
Definition de_bytes (inum : Z) (name : list Z) : list Z :=
  le_enc 2 (xshort inum) ++ strncpy (replicate (Z.to_nat DIRSIZ) 0) name DIRSIZ.

(** [while ((cc = read(fd, buf, sizeof(buf))) > 0) iappend(inum, buf, cc);] *)
Fixpoint copy_file (fuel : nat) (inum : Z) (rest : list Z) : M unit :=
  let buf := take (Z.to_nat BSIZE) rest in
  if negb (0 <? Z.of_nat (length buf)) then ret tt else
  match fuel with
  | O => nofuel
  | S fuel => iappend inum buf ;; copy_file fuel inum (drop (Z.to_nat BSIZE) rest)
  end.

Section main.
Context (creat : list Z -> bool) (host : list Z -> option (list Z)).

(** Skip the leading underscore of the name of a binary. *)
Definition skip_underscore (name : list Z) : list Z := if first_char name =? 95 then tail name else name.

Definition add_file (rootino : Z) (arg : list Z) : M unit :=
  if bool_decide (is_Some (strchr arg 47)) then panic "index(argv[i], '/') == 0" else
  match host arg with
  | None => panic "open"
  | Some bytes =>
      inum <- ialloc T_FILE ;;
      iappend rootino (de_bytes inum (skip_underscore arg)) ;;
      copy_file (length bytes) inum bytes
  end.

Definition main (argv : list (list Z)) : M unit :=
  match argv with
  | _ :: image :: files =>
      if negb (creat image) then panic "open" else
      modify (fun _ => mkMk [] 1 nmeta) ;;
      for_each (seqZ 0 FSSIZE) (fun i => wsect i zeroes) ;;
      wsect 1 (splice zeroes 0 (sb_bytes sb)) ;;
      rootino <- ialloc T_DIR ;;
      if negb (rootino =? ROOTINO) then panic "rootino == ROOTINO" else
      iappend rootino (de_bytes rootino [46]) ;;
      iappend rootino (de_bytes rootino [46; 46]) ;;
      for_each files (add_file rootino) ;;
      din <- rinode rootino ;;
      let off := xint (di_size din) in
      let off := u32 ((off / BSIZE + 1) * BSIZE) in
      winode rootino (set_di_size (xint off) din) ;;
      used <- gets freeblock ;;
      balloc used
  | _ => panic "Usage: mkfs fs.img files..."
  end.
End main.
