(* ===== verification/MkfsFacts.v ===== *)
(** The image [mkfs] builds is the file system the kernel reads (mkfs.c, fs.c).

    [holds] describes one file while it grows: its first [m] blocks are there, each registered in
    [own] under the number of the file and its place in it, so that no block has two places.  [built]
    describes the image between two calls of [iappend].  The last part states it in the kernel's
    terms: [file_rep], [contents] and [used] of FsFile and FsInode. *)

From Stdlib Require Import ZArith Lia.
From stdpp Require Import base tactics option gmap sets strings numbers list.
From S2P Require Import Prelude Layout Bytes Crash CString Bio Cache FsFormat Tx Fs FsBlocks FsFile FsMap FsRw FsInode Mkfs.
Open Scope Z_scope.

(** * Sectors *)

Lemma xint_id x : 0 <= x < 2 ^ 32 -> xint x = x.
Proof.
  intros Hx. change (xint x) with (le_dec [u8 x; u8 (x ≫ 8); u8 (x ≫ 16); u8 (x ≫ 24)]).
  replace (x ≫ 16) with ((x ≫ 8) ≫ 8) by (by rewrite Z.shiftr_shiftr).
  replace (x ≫ 24) with (((x ≫ 8) ≫ 8) ≫ 8) by (by rewrite !Z.shiftr_shiftr).
  change [_; _; _; _] with (le_enc 4 x). rewrite le_dec_enc. by apply Z.mod_small.
Qed.
Lemma xshort_id x : 0 <= x < 2 ^ 16 -> xshort x = x.
Proof.
  intros Hx. change (xshort x) with (le_dec (le_enc 2 x)). rewrite le_dec_enc. by apply Z.mod_small.
Qed.

Lemma lseek_small b : 0 <= b < 2 ^ 23 -> lseek b = Z.to_nat b.
Proof. intros Hb. unfold lseek. change BSIZE with 512. rewrite u32_small by lia. by rewrite Z.div_mul. Qed.

Section sector.
Context (s : state) (b : Z) (Hb : 0 <= b < Z.of_nat (length (img s))) (Hl : Z.of_nat (length (img s)) <= 2 ^ 23).

Lemma run_wsect d : run (wsect b d s) = ROk tt (set_img (zinsert b d (img s)) s).
Proof.
  unfold wsect. rewrite lseek_small by lia. cbn. do 2 f_equal.
  replace (S (Z.to_nat b) - length (img s))%nat with 0%nat by lia. cbn [replicate]. rewrite app_nil_r.
  unfold zinsert. destruct (Z.ltb_spec b 0); [lia|done].
Qed.
Lemma run_rsect : run (rsect b s) = ROk (blk (img s) b) s.
Proof.
  unfold rsect. rewrite run_bind. cbn [run gets rbind]. rewrite lseek_small by lia.
  destruct (lookup_lt_is_Some_2 (img s) (Z.to_nat b)) as [d Hd]; [lia|]. rewrite Hd. unfold blk, zlookup.
  destruct (Z.ltb_spec b 0); [lia|]. by rewrite Hd.
Qed.
End sector.

Lemma blk_zinsert v b d c : 0 <= b < Z.of_nat (length v) -> blk (zinsert b d v) c = if c =? b then d else blk v c.
Proof.
  intros Hb. unfold blk. destruct (Z.eqb_spec c b) as [->|Hne]; [by rewrite zlookup_zinsert_eq|by rewrite zlookup_zinsert_ne].
Qed.

(** * One file *)

(** The inode the kernel makes of the inode [d] of number [k]. *)
Definition ino (k : Z) (d : dinode) : inode :=
  mkInode ROOTDEV k 0 0 (di_type d) (di_major d) (di_minor d) (di_nlink d) (di_size d) (di_addrs d).
Lemma to_dinode_ino k d : to_dinode (ino k d) = d.
Proof. by destruct d. Qed.

(** The image below [FSSIZE]: blocks are whole, and those from [fb] on are not written yet. *)
Record good (v : list block) (fb : Z) : Prop := {
  go_len : Z.of_nat (length v) = FSSIZE;
  go_blk : forall b, 0 <= b < FSSIZE -> length (blk v b) = 512%nat;
  go_fb : nmeta <= fb <= FSSIZE;
  go_new : forall b, fb <= b < FSSIZE -> blk v b = zeroes
}.

(** The first [m] blocks of the file are there, and the indirect block if [i]; the bytes are [bs],
    followed by zeroes.  [own b] is the file of block [b] and the place of [b] in it, -1 for an
    indirect block. *)
Record holds (v : list block) (own : Z -> Z * Z) (fb k : Z) (d : dinode) (m : Z) (i : bool) (bs : list Z) : Prop := {
  ho_addrs : length (di_addrs d) = 13%nat;
  ho_m : 0 <= m <= MAXFILE;
  ho_ptr : forall j, 0 <= j < m -> nmeta <= ptr v (ino k d) j < fb /\ own (ptr v (ino k d) j) = (k, j);
  ho_none : forall j, m <= j < MAXFILE -> ptr v (ino k d) j = 0;
  ho_i : NDIRECT < m -> i = true;
  ho_ind : if i then nmeta <= ind (ino k d) < fb /\ own (ind (ino k d)) = (k, -1) else ind (ino k d) = 0;
  ho_byte : forall o, 0 <= o -> o / BSIZE < MAXFILE -> fbyte v (ino k d) o = default 0 (bs !! Z.to_nat o);
  ho_len : Z.of_nat (length bs) <= m * BSIZE
}.

(** What an operation on the file [k] may change. *)
Record kept (k : Z) (v : list block) (own : Z -> Z * Z) (fb : Z) (v' : list block) (own' : Z -> Z * Z) (fb' : Z) : Prop := {
  ke_fb : fb <= fb';
  ke_own : forall b, b < fb -> own' b = own b;
  ke_new : forall b, fb <= b < fb' -> (own' b).1 = k;
  ke_blk : forall b, b < fb -> b < nmeta \/ (own b).1 <> k -> blk v' b = blk v b
}.

Lemma kept_refl k v own fb : kept k v own fb v own fb.
Proof. split; intros; auto; lia. Qed.
Lemma still_trans k v own fb v1 own1 fb1 v2 own2 fb2 :
  kept k v own fb v1 own1 fb1 -> kept k v1 own1 fb1 v2 own2 fb2 -> kept k v own fb v2 own2 fb2.
Proof.
  intros [F1 O1 N1 B1] [F2 O2 N2 B2]. split; [lia| | |].
  - intros b Hb. by rewrite O2, O1 by lia.
  - intros b Hb. destruct (decide (b < fb1)); [rewrite O2 by lia; apply N1; lia|apply N2; lia].
  - intros b Hb Ho. rewrite B2, B1; [done|done|done|lia|]. by rewrite O1.
Qed.

(** The bytes and pointers of a file depend on its own blocks. *)
Lemma ptr_same v v' x j : (ind x <> 0 -> blk v' (ind x) = blk v (ind x)) -> ptr v' x j = ptr v x j.
Proof.
  intros H. unfold ptr. destruct (j <? NDIRECT); [done|]. destruct (j <? MAXFILE); [|done].
  destruct (Z.eqb_spec (ind x) 0); [done|]. by rewrite H.
Qed.

Lemma holds_frame v own fb k d m i bs v' own' fb' :
  fb <= fb' -> (forall b, b < fb -> own' b = own b) ->
  (forall b, nmeta <= b < fb -> (own b).1 = k -> blk v' b = blk v b) ->
  holds v own fb k d m i bs -> holds v' own' fb' k d m i bs.
Proof.
  intros Hfb Hown Hblk [H1 H2 H3 H4 H5 H6 H7 H8].
  assert (forall j, ptr v' (ino k d) j = ptr v (ino k d) j) as Hp.
  { intros j. apply ptr_same. intros Hi. destruct i; [|done]. destruct H6 as [Hr Ho]. apply Hblk; [done|]. by rewrite Ho. }
  split; try done.
  - intros j Hj. rewrite Hp. destruct (H3 j Hj) as [? ?]. rewrite Hown by lia. split; [lia|done].
  - intros j Hj. rewrite Hp. auto.
  - destruct i; [|done]. destruct H6 as [? ?]. rewrite Hown by lia. split; [lia|done].
  - intros o Ho Hm. rewrite <- H7 by done. unfold fbyte. rewrite Hp. destruct (Z.eqb_spec (ptr v (ino k d) (o / BSIZE)) 0) as [|Hne]; [done|].
    destruct (decide (o / BSIZE < m)) as [Hlt|Hge]; [|by rewrite H4 in Hne by lia].
    pose proof (Z.div_pos o BSIZE Ho ltac:(done)). destruct (H3 (o / BSIZE)) as [Hr Hw]; [lia|]. rewrite Hblk; [done|done|]. by rewrite Hw.
Qed.

Lemma kept_other k v own fb v' own' fb' k' d m i bs :
  kept k v own fb v' own' fb' -> k' <> k -> holds v own fb k' d m i bs -> holds v' own' fb' k' d m i bs.
Proof.
  intros [F O N B] Hk. apply holds_frame; [done|done|]. intros b Hb Ho. apply B; [lia|]. right. congruence.
Qed.

(** ** A new block *)

Definition upd (own : Z -> Z * Z) (b : Z) (x : Z * Z) : Z -> Z * Z := fun c => if c =? b then x else own c.
Lemma upd_eq own b x : upd own b x b = x.
Proof. unfold upd. by rewrite Z.eqb_refl. Qed.
Lemma upd_ne own b x c : c <> b -> upd own b x c = own c.
Proof. unfold upd. by destruct (Z.eqb_spec c b). Qed.

Section grow.
Context (v : list block) (own : Z -> Z * Z) (fb k : Z) (d : dinode) (m : Z) (i : bool) (bs : list Z).
Hypothesis (G : good v fb) (H : holds v own fb k d m i bs) (Hfb : fb < FSSIZE).
Abbreviation x := (ino k d).

Lemma fb_pos : 0 < fb.
Proof. pose proof (go_fb _ _ G) as E. change nmeta with 59 in E. lia. Qed.

(** A zero block in place of none changes no byte. *)
Lemma new_byte j : default 0 (zeroes !! j) = 0.
Proof.
  destruct (zeroes !! j) as [c|] eqn:E; [|done]. unfold zeroes in E. by apply lookup_replicate in E as [-> _].
Qed.

Section link.
Context (v' : list block) (d' : dinode).
Hypothesis Hm : m < MAXFILE.
Hypothesis Hi : NDIRECT <= m -> i = true.
Hypothesis Hd' : length (di_addrs d') = 13%nat /\ ind (ino k d') = ind x.
Hypothesis Hptr : forall j, 0 <= j < MAXFILE -> ptr v' (ino k d') j = if j =? m then fb else ptr v x j.
Hypothesis Hsame : forall b, (i = true -> b <> ind x) -> blk v' b = blk v b.

Lemma holds_link : holds v' (upd own fb (k, m)) (fb + 1) k d' (m + 1) i bs.
Proof.
  destruct Hd' as [Hl He]. destruct H as [H1 H2 H3 H4 H5 H6 H7 H8]. pose proof fb_pos. split.
  - done.
  - lia.
  - intros j Hj. rewrite Hptr by lia. destruct (Z.eqb_spec j m) as [->|].
    + rewrite upd_eq. pose proof (go_fb _ _ G). split; [lia|done].
    + destruct (H3 j) as [? ?]; [lia|]. rewrite upd_ne by lia. split; [lia|done].
  - intros j Hj. rewrite Hptr by lia. destruct (Z.eqb_spec j m); [lia|]. apply H4. lia.
  - intros Hlt. apply Hi. lia.
  - rewrite He. destruct i; [|done]. destruct H6 as [? ?]. rewrite upd_ne by lia. split; [lia|done].
  - intros o Ho Hr. rewrite <- H7 by done. pose proof (Z.div_pos o BSIZE Ho ltac:(done)). unfold fbyte.
    rewrite Hptr by lia. destruct (Z.eqb_spec (o / BSIZE) m) as [->|Hne].
    + rewrite H4 by lia. destruct (Z.eqb_spec fb 0); [lia|]. cbn [Z.eqb].
      rewrite Hsame, (go_new _ _ G) by (try lia; intros ->; destruct H6; lia). by rewrite new_byte.
    + destruct (Z.eqb_spec (ptr v x (o / BSIZE)) 0) as [|Hp]; [done|]. rewrite Hsame; [done|]. intros -> E.
      destruct (decide (o / BSIZE < m)) as [|Hge]; [|apply Hp, H4; lia].
      destruct (H3 (o / BSIZE)) as [_ Ho1]; [lia|]. destruct H6 as [_ Ho2]. rewrite E, Ho2 in Ho1. injection Ho1. lia.
  - change BSIZE with 512 in *. lia.
Qed.
End link.

(** The indirect block. *)
Lemma holds_ind : i = false -> m <= NDIRECT ->
  holds v (upd own fb (k, -1)) (fb + 1) k (set_di_addrs (zinsert NDIRECT fb (di_addrs d)) d) m true bs.
Proof.
  intros Hi Hm. destruct H as [H1 H2 H3 H4 H5 H6 H7 H8]. rewrite Hi in H6. pose proof fb_pos. pose proof (go_fb _ _ G).
  set (d' := set_di_addrs _ _). assert (ind (ino k d') = fb) as Ei.
  { unfold ind, d'. cbn [i_addrs ino di_addrs set_di_addrs]. rewrite zlookup_zinsert_eq; [done|]. rewrite H1. change NDIRECT with 12. lia. }
  assert (forall j, 0 <= j < MAXFILE -> ptr v (ino k d') j = ptr v x j) as Hp.
  { intros j Hj. unfold ptr. rewrite Ei, H6. destruct (Z.ltb_spec j NDIRECT).
    - unfold d'. cbn [i_addrs ino di_addrs set_di_addrs]. by rewrite zlookup_zinsert_ne by lia.
    - destruct (Z.ltb_spec j MAXFILE); [|done]. destruct (Z.eqb_spec fb 0); [done|].
      rewrite (go_new _ _ G) by lia. apply get32_zeros. }
  split.
  - unfold d'. cbn [i_addrs ino di_addrs set_di_addrs]. by rewrite length_zinsert.
  - done.
  - intros j Hj. rewrite Hp by lia. destruct (H3 j Hj) as [? ?]. rewrite upd_ne by lia. split; [lia|done].
  - intros j Hj. rewrite Hp by lia. auto.
  - done.
  - rewrite Ei, upd_eq. split; [lia|done].
  - intros o Ho Hr. rewrite <- H7 by done. unfold fbyte. rewrite Hp; [done|]. split; [by apply Z.div_pos|done].
  - done.
Qed.

(** A direct block: the entry of the inode. *)
Lemma holds_direct : m < NDIRECT ->
  holds v (upd own fb (k, m)) (fb + 1) k (set_di_addrs (zinsert m fb (di_addrs d)) d) (m + 1) i bs.
Proof.
  intros Hm. pose proof (ho_m _ _ _ _ _ _ _ _ H). pose proof (ho_addrs _ _ _ _ _ _ _ _ H) as Hl.
  apply holds_link; [change MAXFILE with 140; change NDIRECT with 12 in *; lia|lia| | |done].
  - cbn [i_addrs ino di_addrs set_di_addrs]. rewrite length_zinsert. split; [done|]. unfold ind. cbn [i_addrs ino di_addrs set_di_addrs]. by rewrite zlookup_zinsert_ne by lia.
  - intros j Hj. unfold ptr. cbn [i_addrs ino di_addrs set_di_addrs]. destruct (Z.eqb_spec j m) as [->|Hne].
    + destruct (Z.ltb_spec m NDIRECT); [|lia]. rewrite zlookup_zinsert_eq; [done|]. rewrite Hl. change NDIRECT with 12 in *. lia.
    + rewrite zlookup_zinsert_ne by lia. unfold ind. cbn [i_addrs ino di_addrs set_di_addrs]. by rewrite (zlookup_zinsert_ne _ m NDIRECT) by lia.
Qed.

(** A block reached through the indirect block: the entry there. *)
Abbreviation v1 := (zinsert (ind x) (put32 (blk v (ind x)) (4 * (m - NDIRECT)) fb) v).
Lemma holds_indirect : i = true -> NDIRECT <= m < MAXFILE -> holds v1 (upd own fb (k, m)) (fb + 1) k d (m + 1) i bs.
Proof.
  intros Hi Hm. pose proof (go_fb _ _ G) as Hf. pose proof (ho_addrs _ _ _ _ _ _ _ _ H). pose proof (ho_ind _ _ _ _ _ _ _ _ H) as Hr.
  rewrite Hi in Hr. destruct Hr as [Hr _]. change nmeta with 59 in *. pose proof (go_len _ _ G) as Hlen. pose proof (go_blk _ _ G (ind x) ltac:(lia)) as Hb.
  change NDIRECT with 12 in *. change MAXFILE with 140 in *. change FSSIZE with 1000 in *.
  apply holds_link; [change MAXFILE with 140; lia|done|done| |].
  - intros j Hj. unfold ptr. change MAXFILE with 140 in *. change NDIRECT with 12. destruct (Z.ltb_spec j 12).
    { by destruct (Z.eqb_spec j m); [lia|]. }
    destruct (Z.ltb_spec j 140); [|lia]. destruct (Z.eqb_spec (ind x) 0); [lia|]. rewrite blk_zinsert, Z.eqb_refl by lia.
    destruct (Z.eqb_spec j m) as [->|].
    + rewrite get32_put32 by lia. apply u32_small. lia.
    + apply get32_put32_ne; lia.
  - intros b Hne. rewrite blk_zinsert by lia. destruct (Z.eqb_spec b (ind x)); [|done]. by destruct (Hne Hi).
Qed.
End grow.

Lemma good_new v fb : good v fb -> fb < FSSIZE -> good v (fb + 1).
Proof. intros [H1 H2 H3 H4] Hf. split; [done|done|lia|]. intros b Hb. apply H4. lia. Qed.
Lemma good_put v fb b d : good v fb -> 0 <= b < fb -> length d = 512%nat -> good (zinsert b d v) fb.
Proof.
  intros [H1 H2 H3 H4] Hb Hd. split; [by rewrite length_zinsert| |done|].
  - intros c Hc. rewrite blk_zinsert by lia. destruct (c =? b); auto.
  - intros c Hc. rewrite blk_zinsert by lia. destruct (Z.eqb_spec c b); [lia|auto].
Qed.

Section ops.
Context (v : list block) (own : Z -> Z * Z) (fi fb k : Z) (d : dinode) (m : Z) (bs : list Z) (G : good v fb).
Abbreviation x := (ino k d).

Lemma run_next_block : fb < FSSIZE -> run (next_block (mkMk v fi fb)) = ROk fb (mkMk v fi (fb + 1)).
Proof.
  intros Hfb. pose proof (go_fb _ _ G) as Hf. change nmeta with 59 in Hf. change FSSIZE with 1000 in *.
  unfold next_block. cbn -[u32]. by rewrite u32_small by lia.
Qed.
Lemma run_rsect_img b : 0 <= b < FSSIZE -> run (rsect b (mkMk v fi fb)) = ROk (blk v b) (mkMk v fi fb).
Proof. intros Hb. pose proof (go_len _ _ G). change FSSIZE with 1000 in *. apply run_rsect; cbn [img]; lia. Qed.
Lemma run_wsect_img b e : 0 <= b < FSSIZE -> run (wsect b e (mkMk v fi fb)) = ROk tt (mkMk (zinsert b e v) fi fb).
Proof. intros Hb. pose proof (go_len _ _ G). change FSSIZE with 1000 in *. apply run_wsect; cbn [img]; lia. Qed.

Context (i : bool) (H : holds v own fb k d m i bs).
Lemma xint_fb a : 0 <= a <= fb -> xint a = a.
Proof. intros Ha. pose proof (go_fb _ _ G) as Hf. change FSSIZE with 1000 in Hf. apply xint_id. lia. Qed.
Lemma ptr_xint j : 0 <= j < MAXFILE -> xint (ptr v x j) = ptr v x j.
Proof.
  intros Hj. apply xint_fb. pose proof (go_fb _ _ G) as Hf. change nmeta with 59 in Hf. destruct (decide (j < m)) as [Hm|Hm].
  - destruct (ho_ptr _ _ _ _ _ _ _ _ H j) as [Hr _]; [lia|]. change nmeta with 59 in Hr. lia.
  - rewrite (ho_none _ _ _ _ _ _ _ _ H) by lia. lia.
Qed.
Lemma ind_xint : xint (ind x) = ind x.
Proof.
  apply xint_fb. pose proof (go_fb _ _ G) as Hf. change nmeta with 59 in Hf. pose proof (ho_ind _ _ _ _ _ _ _ _ H) as Hi.
  destruct i; [change nmeta with 59 in Hi; lia|lia].
Qed.
Lemma addrs_ptr j : 0 <= j < NDIRECT -> default 0 (zlookup (di_addrs d) j) = ptr v x j.
Proof. intros Hj. unfold ptr. by destruct (Z.ltb_spec j NDIRECT); [|lia]. Qed.

(** Allocating for the file [k] keeps the others. *)
Lemma kept_alloc p v' :
  (forall b, b < nmeta \/ (own b).1 <> k -> b < fb -> blk v' b = blk v b) -> kept k v own fb v' (upd own fb (k, p)) (fb + 1).
Proof.
  intros Hb. split; [lia| | |auto].
  - intros b Hlt. apply upd_ne. lia.
  - intros b Hlt. replace b with fb by lia. by rewrite upd_eq.
Qed.
(** So does writing to a block of its own. *)
Lemma kept_put b e : nmeta <= b < fb -> (own b).1 = k -> kept k v own fb (zinsert b e v) own fb.
Proof.
  intros Hb Ho. pose proof (go_len _ _ G). pose proof (go_fb _ _ G). change nmeta with 59 in *. split; [lia|done|lia|].
  intros c Hc Hd. rewrite blk_zinsert by lia. destruct (Z.eqb_spec c b) as [->|]; [|done]. change nmeta with 59 in Hd. destruct Hd; [lia|done].
Qed.

(** ** The bytes *)

(** Bytes appended within the last block. *)
Lemma holds_append c :
  let off := Z.of_nat (length bs) in let j := off / BSIZE in
  j < m -> off + Z.of_nat (length c) <= (j + 1) * BSIZE ->
  holds (zinsert (ptr v x j) (splice (blk v (ptr v x j)) (off - j * BSIZE) c) v) own fb k d m i (bs ++ c).
Proof.
  intros off j Hj Hc. pose proof (go_len _ _ G) as Hlen. pose proof (go_fb _ _ G) as Hf. destruct H as [H1 H2 H3 H4 H5 H6 H7 H8].
  assert (0 <= j) as Hj0 by (apply Z.div_pos; [lia|done]).
  destruct (H3 j) as [Hr Ho]; [lia|]. set (b := ptr v x j) in *. change nmeta with 59 in *. change FSSIZE with 1000 in *.
  pose proof (go_blk _ _ G b) as Hb. change FSSIZE with 1000 in Hb. specialize (Hb ltac:(lia)).
  set (v' := zinsert b _ v). assert (forall e, blk v' e = if e =? b then splice (blk v b) (off - j * BSIZE) c else blk v e) as Hblk.
  { intros e. unfold v'. by rewrite blk_zinsert by lia. }
  assert (i = true -> ind x <> b) as Hib.
  { intros ->. intros E. destruct H6 as [_ H6]. rewrite E, Ho in H6. injection H6. lia. }
  assert (forall l, ptr v' x l = ptr v x l) as Hp.
  { intros l. apply ptr_same. intros Hi. rewrite Hblk. destruct (Z.eqb_spec (ind x) b) as [E|]; [|done]. destruct i; [by apply Hib in E|done]. }
  split; try done.
  - intros l Hl. rewrite Hp. auto.
  - intros l Hl. rewrite Hp. auto.
  - intros o Hoo Hr2. unfold fbyte. rewrite Hp. specialize (H7 o Hoo Hr2). unfold fbyte in H7.
    assert (0 <= o / BSIZE) as Hq by (apply Z.div_pos; [lia|done]). pose proof (Z.div_mod off BSIZE ltac:(done)) as Eoff.
    pose proof (Z.mod_pos_bound off BSIZE ltac:(done)). pose proof (Z.div_mod o BSIZE ltac:(done)) as Eo. pose proof (Z.mod_pos_bound o BSIZE ltac:(done)).
    fold j in Eoff. rewrite Hblk. change BSIZE with 512 in *.
    destruct (Z.eqb_spec (ptr v x (o / 512)) b) as [E|E].
    + assert (o / 512 = j) as Ej.
      { destruct (decide (o / 512 < m)) as [|Hge]; [|rewrite H4 in E by lia; lia].
        destruct (H3 (o / 512)) as [_ Ho2]; [lia|]. rewrite E, Ho in Ho2. by injection Ho2. }
      rewrite E in H7 |- *. destruct (Z.eqb_spec b 0); [lia|]. unfold splice. destruct (decide (o < off)) as [Hlt|Hge].
      { rewrite list_lookup_inserts_lt by lia. rewrite H7. by rewrite lookup_app_l by lia. }
      destruct (decide (o < off + Z.of_nat (length c))) as [Hlt2|Hge2].
      * rewrite list_lookup_inserts by lia. rewrite lookup_app_r by lia. do 2 f_equal. lia.
      * rewrite list_lookup_inserts_ge by lia. rewrite H7. rewrite !lookup_ge_None_2; [done| |]; rewrite ?length_app; lia.
    + rewrite H7. destruct (decide (o < off)); [by rewrite lookup_app_l by lia|].
      rewrite (lookup_ge_None_2 bs) by lia. rewrite lookup_ge_None_2; [done|]. rewrite length_app.
      enough (off + Z.of_nat (length c) <= o) by lia. destruct (decide (o / 512 = j)) as [Ej|Ej]; [by rewrite Ej in E|]. lia.
  - rewrite length_app. change BSIZE with 512 in *. lia.
Qed.
End ops.

(** * Appending *)

(** The blocks of the image that a file of [m] blocks takes, and the blocks that [n] bytes take. *)
Definition cost (m : Z) : Z := m + (if NDIRECT <? m then 1 else 0).
Definition nblks (n : Z) : Z := (n + (BSIZE - 1)) / BSIZE.

Lemma cost_mono a b : a <= b -> cost a <= cost b.
Proof. intros. unfold cost. destruct (Z.ltb_spec NDIRECT a), (Z.ltb_spec NDIRECT b); lia. Qed.
Lemma nblks_next n : 0 <= n -> n / BSIZE <= nblks n <= n / BSIZE + 1 /\ nblks n * BSIZE >= n /\ (nblks n = n / BSIZE -> n mod BSIZE = 0).
Proof. unfold nblks. change BSIZE with 512. intros. Z.to_euclidean_division_equations. lia. Qed.
Lemma nblks_within n a : 0 <= n -> 0 < a -> n + a <= (n / BSIZE + 1) * BSIZE -> nblks (n + a) = n / BSIZE + 1.
Proof. unfold nblks. change BSIZE with 512. intros. Z.to_euclidean_division_equations. lia. Qed.
Lemma nblks_mono a b : a <= b -> nblks a <= nblks b.
Proof. intros. unfold nblks. apply Z.div_le_mono; [done|]. lia. Qed.
Lemma nblks_max n : n <= MAXFILE * BSIZE -> nblks n <= MAXFILE.
Proof. unfold nblks. change (MAXFILE * BSIZE) with 71680. change BSIZE with 512. change MAXFILE with 140. intros. Z.to_euclidean_division_equations. lia. Qed.

(** What allocation and writing leave behind. *)
Record appended (v : list block) (own : Z -> Z * Z) (fb k : Z) (d : dinode) (v' : list block) (own' : Z -> Z * Z) (fb' : Z) (d' : dinode)
    (m' : Z) (i' : bool) (bs' : list Z) : Prop := {
  ap_good : good v' fb';
  ap_holds : holds v' own' fb' k d' m' i' bs';
  ap_kept : kept k v own fb v' own' fb';
  ap_same : d' = set_di_addrs (di_addrs d') d
}.

Lemma appended_trans v own fb k d v1 own1 fb1 d1 m1 i1 bs1 v2 own2 fb2 d2 m2 i2 bs2 :
  appended v own fb k d v1 own1 fb1 d1 m1 i1 bs1 -> appended v1 own1 fb1 k d1 v2 own2 fb2 d2 m2 i2 bs2 ->
  appended v own fb k d v2 own2 fb2 d2 m2 i2 bs2.
Proof.
  intros [G1 H1 K1 S1] [G2 H2 K2 S2]. split; [done|done|by eapply still_trans|]. rewrite S2, S1. done.
Qed.
Lemma appended_refl v own fb k d m i bs : good v fb -> holds v own fb k d m i bs -> appended v own fb k d v own fb d m i bs.
Proof. intros. split; [done|done|apply kept_refl|by destruct d]. Qed.

Section append.
Context (fi k : Z).

(** A direct block of the file. *)
Lemma run_direct v own fb d m i bs fbn :
  good v fb -> holds v own fb k d m i bs -> 0 <= fbn < NDIRECT -> fbn <= m ->
  let m' := Z.max m (fbn + 1) in let fb' := fb + (m' - m) in fb' <= FSSIZE ->
  exists d' own', run (iappend_block fbn d (mkMk v fi fb)) = ROk (ptr v (ino k d') fbn, d') (mkMk v fi fb') /\
    appended v own fb k d v own' fb' d' m' i bs.
Proof.
  intros G H Hd Hm m' fb' Hroom. pose proof (go_fb _ _ G) as Hf. change nmeta with 59 in Hf.
  assert (0 <= fbn < MAXFILE) as Hn by (change MAXFILE with 140; change NDIRECT with 12 in Hd; lia).
  unfold iappend_block. destruct (Z.ltb_spec fbn NDIRECT); [|lia].
  rewrite (addrs_ptr v k d fbn) by lia. rewrite (ptr_xint v own fb k d m bs G _ H) by done. destruct (decide (fbn = m)) as [->|Hne].
  - replace fb' with (fb + 1) in * by lia. replace m' with (m + 1) in * by lia.
    rewrite (ho_none _ _ _ _ _ _ _ _ H) by lia. cbn [Z.eqb]. rewrite run_bind, run_bind, (run_next_block _ fi fb G) by lia. cbn [rbind run ret].
    rewrite (xint_fb v fb G fb) by lia.
    pose proof (holds_direct v own fb k d m _ bs G H ltac:(lia) ltac:(lia)) as H'. set (d' := set_di_addrs _ _) in *.
    pose proof (good_new _ _ G ltac:(lia)) as G'.
    exists d', (upd own fb (k, m)). rewrite (addrs_ptr v k d') by lia. rewrite (ptr_xint _ _ _ k d' _ _ G' _ H') by done.
    split; [done|]. split; [done|done|by apply kept_alloc|done].
  - replace fb' with fb by lia. replace m' with m by lia.
    destruct (ho_ptr _ _ _ _ _ _ _ _ H fbn) as [Hr _]; [lia|]. change nmeta with 59 in Hr. destruct (Z.eqb_spec (ptr v (ino k d) fbn) 0); [lia|].
    exists d, own. rewrite run_bind. cbn [run ret rbind]. rewrite (addrs_ptr v k d fbn), (ptr_xint v own fb k d m bs G _ H) by (done || lia).
    split; [done|]. by apply appended_refl.
Qed.

(** The indirect block, and a block reached through it. *)
Definition get_indirect (d : dinode) : M dinode :=
  if xint (default 0 (zlookup (di_addrs d) NDIRECT)) =? 0 then
    b <- next_block ;; ret (set_di_addrs (zinsert NDIRECT (xint b) (di_addrs d)) d)
  else ret d.
Lemma run_get_indirect v own fb d m i bs :
  good v fb -> holds v own fb k d m i bs -> m <= NDIRECT \/ i = true ->
  let fb' := fb + (if i then 0 else 1) in fb' <= FSSIZE ->
  exists d' own', run (get_indirect d (mkMk v fi fb)) = ROk d' (mkMk v fi fb') /\ appended v own fb k d v own' fb' d' m true bs.
Proof.
  intros G H Hm fb' Hroom. pose proof (go_fb _ _ G) as Hf. change nmeta with 59 in Hf. unfold get_indirect.
  change (default 0 _) with (ind (ino k d)). rewrite (ind_xint v own fb k d m bs G _ H). pose proof (ho_ind _ _ _ _ _ _ _ _ H) as Hi.
  destruct i; unfold fb' in *.
  - destruct Hi as [Hi _]. change nmeta with 59 in Hi. destruct (Z.eqb_spec (ind (ino k d)) 0); [lia|]. rewrite Z.add_0_r.
    exists d, own. split; [done|]. by apply appended_refl.
  - rewrite Hi. cbn [Z.eqb]. rewrite run_bind, (run_next_block _ fi fb G) by lia. cbn [rbind run ret]. rewrite (xint_fb v fb G fb) by lia.
    destruct Hm as [Hm|]; [|done]. pose proof (holds_ind v own fb k d m _ bs G H ltac:(lia) eq_refl Hm) as H'.
    eexists _, _. split; [done|]. split; [apply good_new; [done|lia]|done|by apply kept_alloc|done].
Qed.

Lemma run_indirect v own fb d m i bs fbn :
  good v fb -> holds v own fb k d m i bs -> NDIRECT <= fbn < MAXFILE -> fbn <= m -> m <= NDIRECT \/ i = true ->
  let m' := Z.max m (fbn + 1) in let fb' := fb + (m' - m) + (if i then 0 else 1) in fb' <= FSSIZE ->
  exists d' v' own', run (iappend_block fbn d (mkMk v fi fb)) = ROk (ptr v' (ino k d') fbn, d') (mkMk v' fi fb') /\
    appended v own fb k d v' own' fb' d' m' true bs.
Proof.
  intros G0 H0 Hn Hm Hi m' fb' Hroom. pose proof (go_fb _ _ G0) as Hf. unfold iappend_block.
  destruct (Z.ltb_spec fbn NDIRECT) as [|_]; [lia|]. rewrite run_bind. fold (get_indirect d).
  destruct (run_get_indirect v own fb d m i bs G0 H0 Hi) as (d1 & own1 & R1 & A1); [destruct i; lia|]. rewrite R1. cbn [rbind].
  pose proof A1 as [G H K S1]. set (fb1 := fb + (if i then 0 else 1)) in *. assert (fb' = fb1 + (m' - m)) as Ef by lia. clearbody fb1 fb'. subst fb'.
  change (default 0 (zlookup (di_addrs d1) NDIRECT)) with (ind (ino k d1)). rewrite (ind_xint v own1 fb1 k d1 m bs G _ H).
  pose proof (go_fb _ _ G) as Hf1. destruct (ho_ind _ _ _ _ _ _ _ _ H) as [Hr Ho]. change nmeta with 59 in *. change FSSIZE with 1000 in *.
  rewrite run_bind, (run_rsect_img v fi fb1 G) by (change FSSIZE with 1000; lia). cbn [rbind].
  assert (get32 (blk v (ind (ino k d1))) (4 * (fbn - NDIRECT)) = ptr v (ino k d1) fbn) as Eg.
  { unfold ptr. destruct (Z.ltb_spec fbn NDIRECT); [lia|]. destruct (Z.ltb_spec fbn MAXFILE); [|lia]. by destruct (Z.eqb_spec (ind (ino k d1)) 0); [lia|]. }
  rewrite Eg. destruct (decide (fbn = m)) as [->|Hne].
  - replace m' with (m + 1) in * by lia. replace (fb1 + (m + 1 - m)) with (fb1 + 1) in * by lia.
    rewrite (ho_none _ _ _ _ _ _ _ _ H) by lia. cbn [Z.eqb]. rewrite run_bind, run_bind, (run_next_block _ fi fb1 G) by (change FSSIZE with 1000; lia).
    cbn [rbind]. rewrite (xint_fb v fb1 G fb1) by lia. pose proof (good_new _ _ G ltac:(change FSSIZE with 1000; lia)) as G1.
    rewrite run_bind, (run_wsect_img v fi (fb1 + 1) G1) by (change FSSIZE with 1000; lia). cbn [rbind run ret].
    pose proof (holds_indirect v own1 fb1 k d1 m true bs G H ltac:(change FSSIZE with 1000; lia) eq_refl ltac:(lia)) as H'.
    pose proof (go_blk _ _ G (ind (ino k d1)) ltac:(change FSSIZE with 1000; lia)) as H512.
    set (e := put32 (blk v (ind (ino k d1))) (4 * (m - NDIRECT)) fb1) in *.
    assert (good (zinsert (ind (ino k d1)) e v) (fb1 + 1)) as G2 by (apply good_put; [done|lia|by unfold e; rewrite length_put32]).
    exists d1, (zinsert (ind (ino k d1)) e v), (upd own1 fb1 (k, m)). pose proof (go_len _ _ G) as Hlen. change FSSIZE with 1000 in Hlen. split.
    + do 2 f_equal. rewrite <- (ptr_xint _ _ _ k d1 _ _ G2 _ H') by (change NDIRECT with 12 in *; lia). f_equal.
      unfold ptr. destruct (Z.ltb_spec m NDIRECT); [lia|]. destruct (Z.ltb_spec m MAXFILE); [|lia]. destruct (Z.eqb_spec (ind (ino k d1)) 0); [lia|].
      by rewrite blk_zinsert, Z.eqb_refl by lia.
    + eapply appended_trans; [exact A1|]. split; [done|done| |by destruct d1].
      apply kept_alloc. intros b Hb Hlt. rewrite blk_zinsert by lia. destruct (Z.eqb_spec b (ind (ino k d1))) as [->|]; [|done].
      rewrite Ho in Hb. change nmeta with 59 in Hb. destruct Hb; [lia|done].
  - replace m' with m in * by lia. replace (fb1 + (m - m)) with fb1 in * by lia.
    destruct (ho_ptr _ _ _ _ _ _ _ _ H fbn) as [Hp _]; [change NDIRECT with 12 in *; lia|]. change nmeta with 59 in Hp.
    destruct (Z.eqb_spec (ptr v (ino k d1) fbn) 0); [lia|]. exists d1, v, own1. rewrite run_bind. cbn [run ret rbind].
    rewrite Eg, (ptr_xint _ _ _ k d1 _ _ G _ H) by (change NDIRECT with 12 in *; lia). done.
Qed.

(** Block [fbn] of the file is there, or is the next one and the image has room. *)
Lemma run_iappend_block v own fb d m bs fbn :
  good v fb -> holds v own fb k d m (NDIRECT <? m) bs -> 0 <= fbn < MAXFILE -> fbn <= m ->
  let m' := Z.max m (fbn + 1) in let fb' := fb + (cost m' - cost m) in fb' <= FSSIZE ->
  exists d' v' own', run (iappend_block fbn d (mkMk v fi fb)) = ROk (ptr v' (ino k d') fbn, d') (mkMk v' fi fb') /\
    appended v own fb k d v' own' fb' d' m' (NDIRECT <? m') bs.
Proof.
  intros G H Hn Hm m' fb'. unfold fb', cost. destruct (Z.ltb_spec NDIRECT m') as [Hm'|Hm'].
  - destruct (Z.lt_ge_cases fbn NDIRECT) as [Hd|Hd].
    + destruct (Z.ltb_spec NDIRECT m); [|lia]. replace m' with (Z.max m (fbn + 1)) by done. intros Hroom.
      destruct (run_direct v own fb d m true bs fbn) as (d' & own' & R & A); [done|done|lia|lia|lia|].
      replace (Z.max m (fbn + 1)) with m in * by lia. exists d', v, own'. rewrite R. split; [do 2 f_equal; lia|]. by replace (fb + (m + 1 - (m + 1))) with (fb + (m - m)) by lia.
    + intros Hroom. destruct (run_indirect v own fb d m (NDIRECT <? m) bs fbn) as (d' & v' & own' & R & A); [done|done|lia|lia| | |].
      * destruct (Z.ltb_spec NDIRECT m); [by right|by left].
      * fold m'. destruct (NDIRECT <? m); lia.
      * exists d', v', own'. fold m' in R, A. replace (fb + (m' - m) + (if NDIRECT <? m then 0 else 1)) with (fb + (m' + 1 - (m + (if NDIRECT <? m then 1 else 0)))) in * by (destruct (NDIRECT <? m); lia). done.
  - destruct (Z.ltb_spec NDIRECT m); [lia|]. intros Hroom.
    destruct (run_direct v own fb d m false bs fbn) as (d' & own' & R & A); [done|done|lia|lia|fold m'; lia|].
    exists d', v, own'. fold m' in R, A. replace (fb + (m' + 0 - (m + 0))) with (fb + (m' - m)) by lia. done.
Qed.

(** One round: the part of [p] that fits in the block at the end of the file. *)
Lemma run_round v own fb d bs c :
  let off := Z.of_nat (length bs) in let fbn := off / BSIZE in let n := Z.of_nat (length c) in
  good v fb -> holds v own fb k d (nblks off) (NDIRECT <? nblks off) bs -> fbn < MAXFILE -> 0 < n -> off + n <= (fbn + 1) * BSIZE ->
  let fb' := fb + (cost (nblks (off + n)) - cost (nblks off)) in fb' <= FSSIZE ->
  exists d' v1 v' own', run (iappend_block fbn d (mkMk v fi fb)) = ROk (ptr v1 (ino k d') fbn, d') (mkMk v1 fi fb') /\
    run (rsect (ptr v1 (ino k d') fbn) (mkMk v1 fi fb')) = ROk (blk v1 (ptr v1 (ino k d') fbn)) (mkMk v1 fi fb') /\
    run (wsect (ptr v1 (ino k d') fbn) (splice (blk v1 (ptr v1 (ino k d') fbn)) (off - fbn * BSIZE) c) (mkMk v1 fi fb')) = ROk tt (mkMk v' fi fb') /\
    appended v own fb k d v' own' fb' d' (nblks (off + n)) (NDIRECT <? nblks (off + n)) (bs ++ c).
Proof.
  intros off fbn n G H Hmax Hn Hc fb' Hroom. assert (0 <= off) as Hoff by lia. assert (0 <= fbn) as Hfbn by (apply Z.div_pos; [lia|done]).
  pose proof (nblks_within off n Hoff Hn Hc) as En. pose proof (nblks_next off Hoff) as (Hb & _ & _). fold fbn in En, Hb.
  destruct (run_iappend_block v own fb d (nblks off) bs fbn G H) as (d' & v1 & own' & R & A); [lia|lia| |].
  { replace (Z.max _ _) with (nblks (off + n)) by lia. exact Hroom. }
  replace (Z.max (nblks off) (fbn + 1)) with (nblks (off + n)) in * by lia. fold fb' in R, A. pose proof A as [G1 H1 K1 S1].
  destruct (ho_ptr _ _ _ _ _ _ _ _ H1 fbn) as [Hr Ho]; [lia|]. pose proof (go_fb _ _ G1) as Hf. change nmeta with 59 in *.
  exists d', v1. eexists _, own'. split; [exact R|]. split; [apply run_rsect_img; [done|lia]|]. split; [apply run_wsect_img; [done|lia]|].
  eapply appended_trans; [exact A|]. split.
  - apply good_put; [done|lia|]. rewrite length_splice. apply (go_blk _ _ G1). lia.
  - apply holds_append; [done|done|fold off fbn; lia|done].
  - apply kept_put; [done|change nmeta with 59; lia|by rewrite Ho].
  - by destruct d'.
Qed.

Lemma run_iappend_loop fuel p v own fb d bs :
  let off := Z.of_nat (length bs) in let n := Z.of_nat (length p) in
  (length p <= fuel)%nat -> good v fb -> holds v own fb k d (nblks off) (NDIRECT <? nblks off) bs -> off + n <= MAXFILE * BSIZE ->
  let fb' := fb + (cost (nblks (off + n)) - cost (nblks off)) in fb' <= FSSIZE ->
  exists d' v' own', run (iappend_loop fuel p off d (mkMk v fi fb)) = ROk (off + n, d') (mkMk v' fi fb') /\
    appended v own fb k d v' own' fb' d' (nblks (off + n)) (NDIRECT <? nblks (off + n)) (bs ++ p).
Proof.
  revert p v own fb d bs. induction fuel as [|fuel IH]; intros p v own fb d bs off n Hfuel G H Hmax fb' Hroom;
    assert (0 <= off) as Hoff by lia; cbn [iappend_loop]; fold n;
    (destruct (Z.ltb_spec 0 n) as [Hn|Hn]; [|exists d, v, own; assert (p = []) as -> by (apply nil_length_inv; lia);
      unfold fb'; replace (off + n) with off by lia; replace (fb + _) with fb by lia; rewrite app_nil_r; split; [done|by apply appended_refl]]).
  { lia. }
  cbn [negb]. set (fbn := off / BSIZE). pose proof (nblks_next off Hoff) as (Hb & _ & _). fold fbn in Hb.
  pose proof (Z.div_mod off BSIZE ltac:(done)) as Ed. pose proof (Z.mod_pos_bound off BSIZE ltac:(done)) as Hb2. fold fbn in Ed.
  change (MAXFILE * BSIZE) with 71680 in Hmax. assert (0 <= fbn < MAXFILE) as Hfbn.
  { change MAXFILE with 140. change BSIZE with 512 in *. lia. }
  destruct (Z.ltb_spec fbn MAXFILE); [|lia]. cbn [negb]. change BSIZE with 512 in *.
  rewrite (u32_small ((fbn + 1) * 512 - off)) by (change MAXFILE with 140 in *; lia). set (n1 := Z.min n ((fbn + 1) * 512 - off)).
  set (c := take (Z.to_nat n1) p). assert (Z.of_nat (length c) = n1) as Hlc by (unfold c; rewrite length_take; lia).
  assert (cost (nblks (off + n1)) <= cost (nblks (off + n))) as Hle by (apply cost_mono, nblks_mono; lia).
  destruct (run_round v own fb d bs c) as (d1 & v0 & v1 & own1 & R1 & R2 & R3 & A1); fold off fbn; try done; try (change BSIZE with 512; lia).
  { rewrite Hlc. unfold fb' in Hroom. lia. }
  change BSIZE with 512 in R1, R2, R3, A1. fold off fbn in R1, R2, R3, A1. rewrite Hlc in R1, R2, R3, A1.
  rewrite run_bind, R1. cbn [rbind]. rewrite run_bind, R2. cbn [rbind]. rewrite run_bind, R3. cbn [rbind].
  rewrite u32_small by lia. pose proof A1 as [G1 H1 K1 S1]. set (q := drop (Z.to_nat n1) p).
  assert (Z.of_nat (length q) = n - n1) as Hlq by (unfold q; rewrite length_drop; lia).
  assert (Z.of_nat (length (bs ++ c)) = off + n1) as Hlb by (rewrite length_app; lia).
  set (fb1 := fb + (cost (nblks (off + n1)) - cost (nblks off))) in *.
  destruct (IH q v1 own1 fb1 d1 (bs ++ c)) as (d' & v' & own' & R & A); rewrite ?Hlb, ?Hlq; [lia|done|done|change (MAXFILE * 512) with 71680; lia| |].
  { replace (off + n1 + (n - n1)) with (off + n) by lia. unfold fb1. lia. }
  rewrite Hlb, Hlq in R, A. replace (off + n1 + (n - n1)) with (off + n) in R, A by lia.
  replace (fb1 + _) with fb' in R, A by (unfold fb', fb1; lia). rewrite <- app_assoc in A. replace (c ++ q) with p in A by (symmetry; apply take_drop).
  exists d', v', own'. split; [exact R|]. by eapply appended_trans.
Qed.
End append.

(** * Inodes *)

Lemma sb_values : sb = mkSb 1000 941 200 30 2 32 58.
Proof. reflexivity. Qed.

(** Inode numbers the image has room for. *)
Abbreviation slot k := (0 <= k < ninodeblocks * IPB).
Lemma iblock_slot k : slot k -> 32 <= IBLOCK k sb < 58 /\ IBLOCK k sb = k / 8 + 32.
Proof.
  change (ninodeblocks * IPB) with 208. intros Hk. unfold IBLOCK. change (sb_inodestart sb) with 32. change IPB with 8.
  rewrite u32_small; Z.to_euclidean_division_equations; lia.
Qed.

(** The blocks after [winode]. *)
Definition v_winode (k : Z) (d : dinode) (v : list block) : list block :=
  zinsert (IBLOCK k sb) (splice (blk v (IBLOCK k sb)) (k mod IPB * DINODE_SIZE) (dinode_bytes d)) v.

Section winode.
Context (v : list block) (fi fb k : Z) (d : dinode) (G : good v fb) (Hk : slot k).

Lemma run_rinode : run (rinode k (mkMk v fi fb)) = ROk (disk_inode sb v k) (mkMk v fi fb).
Proof.
  destruct (iblock_slot k Hk) as [Hr _]. unfold rinode. rewrite run_bind, (run_rsect_img v fi fb G) by (change FSSIZE with 1000; lia). done.
Qed.
Lemma run_winode : run (winode k d (mkMk v fi fb)) = ROk tt (mkMk (v_winode k d v) fi fb).
Proof.
  destruct (iblock_slot k Hk) as [Hr _]. unfold winode. rewrite run_bind, (run_rsect_img v fi fb G) by (change FSSIZE with 1000; lia).
  cbn [rbind]. by rewrite (run_wsect_img v fi fb G) by (change FSSIZE with 1000; lia).
Qed.
Lemma v_winode_blk b : b <> IBLOCK k sb -> blk (v_winode k d v) b = blk v b.
Proof.
  intros Hb. destruct (iblock_slot k Hk) as [Hr _]. pose proof (go_len _ _ G). change FSSIZE with 1000 in *. unfold v_winode.
  rewrite blk_zinsert by lia. by destruct (Z.eqb_spec b (IBLOCK k sb)).
Qed.
Lemma v_winode_good : good (v_winode k d v) fb.
Proof.
  destruct (iblock_slot k Hk) as [Hr _]. pose proof (go_fb _ _ G) as Hf. change nmeta with 59 in Hf. apply good_put; [done|lia|]. rewrite length_splice.
  apply (go_blk _ _ G). change FSSIZE with 1000. lia.
Qed.
Lemma v_winode_inode j : dinode_ok d -> slot j -> disk_inode sb (v_winode k d v) j = if j =? k then d else disk_inode sb v j.
Proof.
  intros Hd Hj. destruct (iblock_slot k Hk) as [Hr Ek]. destruct (iblock_slot j Hj) as [_ Ej]. pose proof (go_len _ _ G).
  pose proof (go_blk _ _ G (IBLOCK k sb)) as Hl. change FSSIZE with 1000 in *. specialize (Hl ltac:(lia)).
  unfold disk_inode, v_winode. rewrite blk_zinsert by lia. change IPB with 8. change DINODE_SIZE with 64.
  destruct (Z.eqb_spec j k) as [->|Hne].
  - rewrite Z.eqb_refl. apply dinode_roundtrip; [done|..]; Z.to_euclidean_division_equations; lia.
  - destruct (Z.eqb_spec (IBLOCK j sb) (IBLOCK k sb)) as [E|]; [|done]. rewrite E.
    apply dinode_of_splice_other; rewrite ?length_dinode_bytes by done; rewrite Ek, Ej in E; change (ninodeblocks * IPB) with 208 in *;
      clear - Hk Hj Hne E; Z.to_euclidean_division_equations; lia.
Qed.
(** Inode blocks hold no part of a file. *)
Lemma v_winode_holds own e j m i bs : holds v own fb j e m i bs -> holds (v_winode k d v) own fb j e m i bs.
Proof.
  apply holds_frame; [lia|done|]. intros b Hb _. apply v_winode_blk. destruct (iblock_slot k Hk). change nmeta with 59 in Hb. lia.
Qed.
End winode.

(** * The image under construction *)

(** The inode of a file of type [t] with the bytes [bs] at the addresses [l]. *)
Definition inode_for (t : Z) (bs : list Z) (l : list Z) : dinode := mkDinode t 0 0 1 (Z.of_nat (length bs)) l.
Definition whole (v : list block) (own : Z -> Z * Z) (fb k : Z) (d : dinode) (bs : list Z) : Prop :=
  let m := nblks (Z.of_nat (length bs)) in holds v own fb k d m (NDIRECT <? m) bs.
Definition file_cost (f : Z * list Z) : Z := cost (nblks (Z.of_nat (length f.2))).
Definition total (fl : list (Z * list Z)) : Z := foldr (fun f a => file_cost f + a) 0 fl.
Definition free_dinode : dinode := mkDinode 0 0 0 0 0 (replicate 13 0).

(** File [i] of [fl], its type and its bytes, is inode [i + 1]; other inodes are free. *)
Record built (s : state) (own : Z -> Z * Z) (fl : list (Z * list Z)) : Prop := {
  bu_good : good (img s) (freeblock s);
  bu_count : freeblock s = nmeta + total fl;
  bu_inodes : freeinode s = Z.of_nat (length fl) + 1 /\ Z.of_nat (length fl) < NINODES;
  bu_file : forall i t bs, fl !! i = Some (t, bs) -> 0 < t < 4 /\ exists l,
    disk_inode sb (img s) (Z.of_nat i + 1) = inode_for t bs l /\ whole (img s) own (freeblock s) (Z.of_nat i + 1) (inode_for t bs l) bs;
  bu_free : forall k, slot k -> k = 0 \/ Z.of_nat (length fl) < k -> disk_inode sb (img s) k = free_dinode;
  bu_meta : forall b, 0 <= b < 32 -> blk (img s) b = if b =? 1 then splice zeroes 0 (sb_bytes sb) else zeroes
}.

Lemma total_insert fl i f f' : fl !! i = Some f -> total (<[i:=f']> fl) = total fl + (file_cost f' - file_cost f).
Proof.
  revert i. induction fl as [|g fl IH]; intros [|i] Hi; [done..| |].
  - injection Hi as ->. change (file_cost f' + total fl = file_cost f + total fl + (file_cost f' - file_cost f)). lia.
  - change (file_cost g + total (<[i:=f']> fl) = file_cost g + total fl + (file_cost f' - file_cost f)). rewrite (IH i) by done. lia.
Qed.
Lemma total_app fl gl : total (fl ++ gl) = total fl + total gl.
Proof. induction fl as [|g fl IH]; [done|]. unfold total in *. cbn [foldr app]. lia. Qed.
Lemma file_cost_nonneg f : 0 <= file_cost f.
Proof.
  unfold file_cost. assert (0 <= nblks (Z.of_nat (length f.2))) by (apply Z.div_pos; [change BSIZE with 512; lia|done]).
  unfold cost. destruct (NDIRECT <? _); lia.
Qed.

(** The addresses of a file are blocks of the image. *)
Lemma whole_fits v own fb k t bs l :
  good v fb -> whole v own fb k (inode_for t bs l) bs -> 0 < t < 4 -> dinode_ok (inode_for t bs l).
Proof.
  intros G H Ht. set (d := inode_for t bs l) in *. pose proof (ho_m _ _ _ _ _ _ _ _ H) as Hm. pose proof (ho_len _ _ _ _ _ _ _ _ H) as Hn.
  pose proof (ho_addrs _ _ _ _ _ _ _ _ H) as Hl. pose proof (go_fb _ _ G) as Hf. change BSIZE with 512 in Hn. change MAXFILE with 140 in Hm.
  change FSSIZE with 1000 in Hf. change nmeta with 59 in Hf. split.
  - rewrite !Forall_cons. cbn. repeat split; try lia. by constructor.
  - cbn. lia.
  - done.
  - apply Forall_lookup. intros j a Ha. pose proof (lookup_lt_Some _ _ _ Ha) as Hj. rewrite Hl in Hj.
    assert (default 0 (zlookup (di_addrs d) (Z.of_nat j)) = a) as Ea by (by rewrite zlookup_nat, Ha).
    destruct (decide (j = 12)%nat) as [->|].
    + change (ind (ino k d) = a) in Ea. pose proof (ho_ind _ _ _ _ _ _ _ _ H) as Hi. rewrite Ea in Hi. change nmeta with 59 in Hi.
      destruct (NDIRECT <? _); lia.
    + rewrite (addrs_ptr v k d) in Ea by (change NDIRECT with 12; lia). rewrite <- Ea.
      destruct (decide (Z.of_nat j < nblks (Z.of_nat (length bs)))) as [|Hge].
      * destruct (ho_ptr _ _ _ _ _ _ _ _ H (Z.of_nat j)) as [Hr _]; [lia|]. change nmeta with 59 in Hr. lia.
      * rewrite (ho_none _ _ _ _ _ _ _ _ H); [lia|]. change MAXFILE with 140. lia.
Qed.

(** Only the inode changes in [holds]. *)
Lemma holds_inode v own fb k d d' m i bs : di_addrs d' = di_addrs d -> holds v own fb k d m i bs -> holds v own fb k d' m i bs.
Proof.
  intros E [H1 H2 H3 H4 H5 H6 H7 H8].
  assert (forall j, ptr v (ino k d') j = ptr v (ino k d) j) as Hp by (intros j; unfold ptr, ind; cbn [ino i_addrs]; by rewrite E).
  assert (ind (ino k d') = ind (ino k d)) as Hi by (unfold ind; cbn [ino i_addrs]; by rewrite E).
  split; try done; try (by rewrite ?E, ?Hi).
  - intros j. rewrite Hp. auto.
  - intros j. rewrite Hp. auto.
  - intros o Ho Hr. rewrite <- H7 by done. unfold fbyte. by rewrite Hp.
Qed.

Section built.
Context (s : state) (own : Z -> Z * Z) (fl : list (Z * list Z)) (B : built s own fl).

Lemma run_ialloc t : 0 < t < 4 -> Z.of_nat (length fl) + 1 < NINODES ->
  exists s', run (ialloc t s) = ROk (Z.of_nat (length fl) + 1) s' /\ built s' own (fl ++ [(t, [])]).
Proof.
  intros Ht Hn. destruct B as [G C I F R W]. destruct s as [v fi fb]. cbn [img freeinode freeblock] in *. destruct I as [-> _].
  set (k := Z.of_nat (length fl) + 1) in *. change NINODES with 200 in Hn. assert (slot k) as Hk by (change (ninodeblocks * IPB) with 208; lia).
  set (d := inode_for t [] (replicate 13 0)). assert (dinode_ok d) as Hd.
  { split; [|done|done|by repeat constructor]. cbn. rewrite !Forall_cons. repeat split; try lia. by constructor. }
  assert (mkDinode (s16 (xshort t)) 0 0 (s16 (xshort 1)) (xint 0) (replicate 13 0) = d) as Ed.
  { assert (t = 1 \/ t = 2 \/ t = 3) as [-> | [-> | ->]] by lia; reflexivity. }
  exists (mkMk (v_winode k d v) (k + 1) fb). split.
  { unfold ialloc. rewrite Ed, run_bind. cbn [gets run rbind freeinode]. rewrite run_bind. cbn [modify run rbind]. rewrite u32_small by lia.
    unfold set_freeinode. cbn [img freeinode freeblock]. by rewrite run_bind, (run_winode v (k + 1) fb k d G Hk). }
  pose proof (v_winode_inode v fb k d G Hk) as Hino. split; cbn [img freeinode freeblock].
  - by apply v_winode_good.
  - rewrite total_app, C. change (total [(t, [])]) with 0. lia.
  - rewrite length_app. cbn [length]. change NINODES with 200. lia.
  - intros i t' bs Hi. apply lookup_app_Some in Hi as [Hi|[Hge Hi]].
    + destruct (F i t' bs Hi) as (Ht' & l & E & H). split; [done|]. exists l. pose proof (lookup_lt_Some _ _ _ Hi).
      rewrite Hino by (done || lia). destruct (Z.eqb_spec (Z.of_nat i + 1) k); [lia|]. split; [done|]. by apply v_winode_holds.
    + apply list_lookup_singleton_Some in Hi as [Hz Ht2]. injection Ht2 as <- <-. split; [done|]. exists (replicate 13 0).
      replace (Z.of_nat i + 1) with k by lia. rewrite Hino, Z.eqb_refl by done. split; [done|]. fold d.
      assert (forall v j, 0 <= j < MAXFILE -> ptr v (ino k d) j = 0) as Hp.
      { intros v' j Hj. unfold ptr. change (ind (ino k d)) with 0. destruct (Z.ltb_spec j NDIRECT); [|by destruct (j <? MAXFILE)].
        change NDIRECT with 12 in *. cbn [ino i_addrs d inode_for di_addrs]. unfold zlookup. destruct (Z.ltb_spec j 0); [done|].
        by rewrite lookup_replicate_2 by lia. }
      split; [done|done|intros j Hj; change (nblks _) with 0 in Hj; lia|intros j Hj; apply Hp; change (nblks _) with 0 in Hj; lia|done|done| |done].
      intros o Ho Hr. unfold fbyte. rewrite Hp; [done|]. split; [by apply Z.div_pos|done].
  - intros j Hj Hlt. rewrite length_app in Hlt. cbn in Hlt. rewrite Hino by done. destruct (Z.eqb_spec j k); [lia|]. apply R; [done|lia].
  - intros b Hb. rewrite (v_winode_blk v fb k d G Hk); [by apply W|]. destruct (iblock_slot k Hk). lia.
Qed.

Lemma run_iappend i t bs p :
  fl !! i = Some (t, bs) -> Z.of_nat (length (bs ++ p)) <= MAXFILE * BSIZE ->
  nmeta + total (<[i:=(t, bs ++ p)]> fl) <= FSSIZE ->
  exists s' own', run (iappend (Z.of_nat i + 1) p s) = ROk tt s' /\ built s' own' (<[i:=(t, bs ++ p)]> fl).
Proof.
  intros Hi Hmax Hroom. pose proof (lookup_lt_Some _ _ _ Hi) as Hlt. rewrite (total_insert _ _ _ _ Hi) in Hroom.
  destruct B as [G C I F R W]. destruct s as [v fi fb]. cbn [img freeinode freeblock] in *. destruct (F i t bs Hi) as (Ht & l & E & H).
  assert (forall j, (j < length fl)%nat -> slot (Z.of_nat j + 1)) as Hslot by (intros j Hj; change (ninodeblocks * IPB) with 208; change NINODES with 200 in I; lia).
  pose proof (Hslot i Hlt) as Hk. set (k := Z.of_nat i + 1) in *. rewrite length_app, Nat2Z.inj_add in Hmax. change (MAXFILE * BSIZE) with 71680 in Hmax.
  unfold file_cost in Hroom. cbn [snd] in Hroom. rewrite length_app, Nat2Z.inj_add in Hroom.
  destruct (run_iappend_loop fi k (length p) p v own fb (inode_for t bs l) bs) as (d' & v' & own' & R1 & [G1 H1 K1 S1]);
    [done|done|exact H|done|lia|].
  set (fb' := fb + _) in *. set (d := inode_for t (bs ++ p) (di_addrs d')).
  assert (set_di_size (xint (Z.of_nat (length bs) + Z.of_nat (length p))) d' = d) as Ed.
  { rewrite S1, xint_id by lia. unfold d, inode_for. rewrite length_app, Nat2Z.inj_add, S1. done. }
  assert (whole v' own' fb' k d (bs ++ p)) as H2.
  { unfold whole. rewrite length_app, Nat2Z.inj_add. apply (holds_inode _ _ _ _ d'); [done|exact H1]. }
  pose proof (whole_fits _ _ _ _ _ _ _ G1 H2 Ht) as Hfit. fold d in Hfit.
  exists (mkMk (v_winode k d v') fi fb'), own'. split.
  { unfold iappend. rewrite run_bind, (run_rinode v fi fb k G Hk). cbn [rbind]. rewrite E. cbn [inode_for di_size].
    rewrite xint_id by lia. rewrite run_bind. fold (inode_for t bs l). rewrite R1. cbn [rbind]. rewrite Ed. by apply run_winode. }
  pose proof (v_winode_inode v' fb' k d G1 Hk) as Hino.
  assert (forall b, b < nmeta -> blk v' b = blk v b) as Hmeta.
  { intros b Hb. apply (ke_blk _ _ _ _ _ _ _ K1); [|by left]. pose proof (go_fb _ _ G). lia. }
  assert (forall j, slot j -> disk_inode sb v' j = disk_inode sb v j) as Hdisk.
  { intros j Hj. unfold disk_inode. rewrite Hmeta; [done|]. destruct (iblock_slot j Hj). change nmeta with 59. lia. }
  split; cbn [img freeinode freeblock].
  - by apply v_winode_good.
  - rewrite (total_insert _ _ _ _ Hi). unfold file_cost. cbn [snd]. rewrite length_app, Nat2Z.inj_add. unfold fb'. lia.
  - by rewrite length_insert.
  - intros j t' bs' Hj. destruct (decide (j = i)) as [->|Hne].
    + rewrite list_lookup_insert_eq in Hj by done. injection Hj as <- <-. split; [done|]. exists (di_addrs d'). fold k.
      rewrite Hino, Z.eqb_refl by done. split; [done|]. by apply v_winode_holds.
    + rewrite list_lookup_insert_ne in Hj by done. destruct (F j t' bs' Hj) as (Ht' & l' & E' & H'). split; [done|]. exists l'.
      pose proof (Hslot j (lookup_lt_Some _ _ _ Hj)).
      rewrite Hino by done. destruct (Z.eqb_spec (Z.of_nat j + 1) k); [lia|]. rewrite Hdisk by done. split; [done|].
      apply v_winode_holds; [done|done|]. eapply kept_other; [exact K1|lia|exact H'].
  - intros j Hj Hlt'. rewrite length_insert in Hlt'. rewrite Hino by done. destruct (Z.eqb_spec j k); [lia|]. rewrite Hdisk by done. by apply R.
  - intros b Hb. rewrite (v_winode_blk v' fb' k d G1 Hk); [|destruct (iblock_slot k Hk); lia]. rewrite Hmeta; [by apply W|]. change nmeta with 59. lia.
Qed.
End built.

(** * The whole program *)

Lemma total_grow fl i t bs p : fl !! i = Some (t, bs) -> total fl <= total (<[i:=(t, bs ++ p)]> fl).
Proof.
  intros Hi. rewrite (total_insert _ _ _ _ Hi). unfold file_cost. cbn [snd]. rewrite length_app.
  pose proof (cost_mono _ _ (nblks_mono (Z.of_nat (length bs)) (Z.of_nat (length bs + length p)) ltac:(lia))). lia.
Qed.

Lemma total_nonneg fl : 0 <= total fl.
Proof. unfold total. induction fl as [|f fl IH]; cbn [foldr]; [lia|]. pose proof (file_cost_nonneg f). lia. Qed.

Lemma run_copy_file fuel rest s own fl i t bs :
  built s own fl -> fl !! i = Some (t, bs) -> (length rest <= fuel)%nat -> Z.of_nat (length (bs ++ rest)) <= MAXFILE * BSIZE ->
  nmeta + total (<[i:=(t, bs ++ rest)]> fl) <= FSSIZE ->
  exists s' own', run (copy_file fuel (Z.of_nat i + 1) rest s) = ROk tt s' /\ built s' own' (<[i:=(t, bs ++ rest)]> fl).
Proof.
  revert rest s own fl bs. induction fuel as [|fuel IH]; intros rest s own fl bs B Hi Hfuel Hmax Hroom; cbn [copy_file];
    change (Z.to_nat BSIZE) with 512%nat;
    (destruct (Z.ltb_spec 0 (Z.of_nat (length (take 512 rest)))) as [Hn|Hn]; rewrite length_take in Hn;
      [|exists s, own; assert (rest = []) as -> by (apply nil_length_inv; lia); rewrite app_nil_r, list_insert_id by done; done]).
  { lia. }
  cbn [negb]. pose proof (lookup_lt_Some _ _ _ Hi) as Hlt. set (c := take 512 rest) in *.
  set (q := drop 512 rest) in *. assert (bs ++ rest = (bs ++ c) ++ q) as Er by (unfold c, q; by rewrite <- app_assoc, take_drop). rewrite Er in Hroom, Hmax |- *. set (fl1 := <[i:=(t, bs ++ c)]> fl).
  assert (fl1 !! i = Some (t, bs ++ c)) as Hi1 by (by apply list_lookup_insert_eq).
  assert (<[i:=(t, (bs ++ c) ++ q)]> fl = <[i:=(t, (bs ++ c) ++ q)]> fl1) as Efl by (unfold fl1; by rewrite list_insert_insert_eq).
  rewrite Efl in Hroom |- *. pose proof (total_grow fl1 i t (bs ++ c) q Hi1) as Hle.
  destruct (run_iappend s own fl B i t bs c) as (s1 & own1 & R1 & B1); [done|rewrite length_app in Hmax; lia|fold fl1; lia|].
  destruct (IH q s1 own1 fl1 (bs ++ c)) as (s' & own' & R & B'); [done|done|unfold q; rewrite length_drop; lia|done|done|].
  exists s', own'. split; [|done]. rewrite run_bind, R1. exact R.
Qed.

Lemma length_de_bytes k name : length (de_bytes k name) = 16%nat.
Proof.
  unfold de_bytes. rewrite length_app, length_le_enc. rewrite strncpy_spec by (by rewrite length_replicate). cbv zeta.
  rewrite !length_app, length_replicate, length_drop, length_replicate. pose proof (length_cstr (Z.to_nat DIRSIZ) name). change (Z.to_nat DIRSIZ) with 14%nat in *. lia.
Qed.

(** The entries of the root directory for these files, the first with inode [k]. *)
Fixpoint entries (k : Z) (files : list (list Z)) : list Z :=
  match files with
  | [] => []
  | f :: r => de_bytes k (skip_underscore f) ++ entries (k + 1) r
  end.
Lemma length_entries k files : length (entries k files) = (16 * length files)%nat.
Proof. revert k. induction files as [|f r IH]; intros k; [done|]. cbn [entries length]. rewrite length_app, length_de_bytes, IH. lia. Qed.

Lemma strchr_slash f : 47 ∉ f -> strchr f 47 = None.
Proof.
  induction f as [|c f IH]; [done|]. intros [Hc Hf]%not_elem_of_cons. cbn [strchr]. destruct (c =? 0); [done|].
  destruct (Z.eqb_spec c 47); [lia|]. auto.
Qed.

Section files.
Context (host : list Z -> option (list Z)).
(** A file that goes into the image. *)
Record acceptable (f bytes : list Z) : Prop := {
  ac_name : 47 ∉ f;
  ac_bytes : host f = Some bytes;
  ac_size : Z.of_nat (length bytes) <= MAXFILE * BSIZE
}.
Abbreviation tree r fl := ((T_DIR, r) :: fl).

Lemma run_add_file s own r fl f bytes :
  built s own (tree r fl) -> acceptable f bytes -> Z.of_nat (length fl) + 2 < NINODES ->
  let r' := r ++ de_bytes (Z.of_nat (length fl) + 2) (skip_underscore f) in
  Z.of_nat (length r') <= MAXFILE * BSIZE -> nmeta + total (tree r' (fl ++ [(T_FILE, bytes)])) <= FSSIZE ->
  exists s' own', run (add_file host 1 f s) = ROk tt s' /\ built s' own' (tree r' (fl ++ [(T_FILE, bytes)])).
Proof.
  intros B [Hn Hb Hs] Hk r' Hr Hroom. unfold add_file. rewrite strchr_slash by done. rewrite bool_decide_eq_false_2 by (by intros [? ?]). rewrite Hb.
  destruct (run_ialloc s own _ B T_FILE) as (s1 & R1 & B1); [done|cbn [length]; lia|]. cbn [length] in R1.
  replace (Z.of_nat (S (length fl)) + 1) with (Z.of_nat (length fl) + 2) in R1 by lia. rewrite run_bind, R1. cbn [rbind].
  set (fl1 := tree r' (fl ++ [(T_FILE, [])])).
  assert (<[0%nat:=(T_DIR, r')]> (tree r fl ++ [(T_FILE, [])]) = fl1) as E1 by reflexivity.
  assert (fl1 !! S (length fl) = Some (T_FILE, [])) as L1 by (by apply list_lookup_middle).
  assert (<[S (length fl):=(T_FILE, [] ++ bytes)]> fl1 = tree r' (fl ++ [(T_FILE, bytes)])) as E2.
  { unfold fl1. change (T_DIR, r') with ((T_DIR, r') : Z * list Z). cbn [list_insert insert app]. f_equal. rewrite <- (Nat.add_0_r (length fl)). apply (insert_app_r fl). }
  pose proof (total_grow fl1 _ _ [] bytes L1) as Hle. rewrite E2 in Hle.
  destruct (run_iappend s1 own _ B1 0 T_DIR r (de_bytes (Z.of_nat (length fl) + 2) (skip_underscore f))) as (s2 & own2 & R2 & B2); [done|done| |].
  { fold r'. rewrite E1. lia. }
  change (Z.of_nat 0 + 1) with 1 in R2. rewrite run_bind, R2. cbn [rbind]. fold r' in B2. rewrite E1 in B2.
  destruct (run_copy_file (length bytes) bytes s2 own2 fl1 _ _ [] B2 L1) as (s3 & own3 & R3 & B3); [done|done|rewrite E2; done|].
  replace (Z.of_nat (S (length fl)) + 1) with (Z.of_nat (length fl) + 2) in R3 by lia. rewrite E2 in B3. eauto.
Qed.

Lemma run_add_files files data s own r fl :
  built s own (tree r fl) -> Forall2 acceptable files data -> Z.of_nat (length fl + length files) + 1 < NINODES ->
  let r' := r ++ entries (Z.of_nat (length fl) + 2) files in
  Z.of_nat (length r') <= MAXFILE * BSIZE -> nmeta + total (tree r' (fl ++ (pair T_FILE <$> data))) <= FSSIZE ->
  exists s' own', run (for_each files (add_file host 1) s) = ROk tt s' /\ built s' own' (tree r' (fl ++ (pair T_FILE <$> data))).
Proof.
  intros B HF. revert s own r fl B. induction HF as [|f bytes files data Hf HF IH]; intros s own r fl B Hk r' Hr Hroom.
  - exists s, own. unfold r'. cbn [fmap list_fmap entries]. rewrite !app_nil_r. done.
  - cbn [for_each]. cbn [length] in Hk. unfold r' in *. cbn [entries fmap list_fmap] in *. rewrite app_assoc in *.
    set (r1 := r ++ de_bytes _ _) in *. rewrite cons_middle, app_assoc in Hroom |- *. set (fl1 := fl ++ [(T_FILE, bytes)]) in *.
    assert (total (tree r1 fl1) <= total (tree (r1 ++ entries (Z.of_nat (length fl) + 2 + 1) files) (fl1 ++ (pair T_FILE <$> data)))) as Hle.
    { pose proof (total_grow (tree r1 fl1) 0 T_DIR r1 (entries (Z.of_nat (length fl) + 2 + 1) files) eq_refl) as Hg. etrans; [exact Hg|].
      change (total (<[_:=_]> _)) with (total (tree (r1 ++ entries (Z.of_nat (length fl) + 2 + 1) files) fl1)).
      rewrite app_comm_cons, total_app. pose proof (total_nonneg (pair T_FILE <$> data)). lia. }
    destruct (run_add_file s own r fl f bytes) as (s1 & own1 & R1 & B1); [done|done|lia|fold r1; rewrite length_app in Hr; lia|fold r1 fl1; lia|].
    fold r1 fl1 in B1. assert (Z.of_nat (length fl1) = Z.of_nat (length fl) + 1) as Hl by (unfold fl1; rewrite length_app; cbn [length]; lia).
    destruct (IH s1 own1 r1 fl1 B1) as (s' & own' & R & B'); [lia|replace (Z.of_nat (length fl1) + 2) with (Z.of_nat (length fl) + 2 + 1) by lia; done..|].
    exists s', own'. rewrite run_bind, R1. replace (Z.of_nat (length fl1) + 2) with (Z.of_nat (length fl) + 2 + 1) in B' by lia. done.
Qed.
End files.

(** ** The empty image *)

Lemma run_clear n i fi fb :
  (i + n <= 1000)%nat ->
  run (for_each (seqZ (Z.of_nat i) (Z.of_nat n)) (fun b => wsect b zeroes) (mkMk (replicate i zeroes) fi fb)) = ROk tt (mkMk (replicate (i + n) zeroes) fi fb).
Proof.
  revert i. induction n as [|n IH]; intros i Hi.
  - cbn [for_each]. by rewrite Nat.add_0_r.
  - rewrite seqZ_cons by lia. cbn [for_each]. rewrite run_bind. unfold wsect at 1. rewrite lseek_small by lia. cbn [run modify rbind img]. rewrite Nat2Z.id.
    unfold set_img. cbn [img freeinode freeblock]. rewrite length_replicate. replace (S i - i)%nat with 1%nat by lia. rewrite <- replicate_add.
    rewrite insert_replicate. replace (Z.succ (Z.of_nat i)) with (Z.of_nat (S i)) by lia. replace (Z.pred (Z.of_nat (S n))) with (Z.of_nat n) by lia.
    replace (i + 1)%nat with (S i) by lia. rewrite IH by lia. by replace (S i + n)%nat with (i + S n)%nat by lia.
Qed.

Lemma le_dec_zeroes o n : le_dec (slice zeroes o n) = 0.
Proof.
  unfold slice, zeroes. rewrite drop_replicate, take_replicate.
  induction (Z.to_nat n `min` (Z.to_nat BSIZE - Z.to_nat o))%nat as [|m IH]; [done|]. cbn [replicate le_dec]. by rewrite IH.
Qed.
Lemma dinode_of_zeroes o : dinode_of zeroes o = free_dinode.
Proof.
  unfold dinode_of, get16, get32. rewrite !le_dec_zeroes. unfold free_dinode. f_equal.
  apply list_eq. intros j. rewrite list_lookup_fmap. destruct (decide (j < 13)%nat).
  - rewrite lookup_seq_lt, lookup_replicate_2 by done. cbn [fmap option_fmap option_map]. by rewrite le_dec_zeroes.
  - rewrite lookup_seq_ge by lia. symmetry. apply lookup_ge_None_2. rewrite length_replicate. lia.
Qed.

Definition start : list block := zinsert 1 (splice zeroes 0 (sb_bytes sb)) (replicate 1000 zeroes).
Lemma start_blk b : 0 <= b < 1000 -> blk start b = if b =? 1 then splice zeroes 0 (sb_bytes sb) else zeroes.
Proof.
  intros Hb. unfold start. rewrite blk_zinsert by (rewrite length_replicate; lia). destruct (b =? 1); [done|]. unfold blk, zlookup.
  destruct (Z.ltb_spec b 0); [lia|]. by rewrite lookup_replicate_2 by lia.
Qed.
Lemma start_built own : built (mkMk start 1 nmeta) own [].
Proof.
  split; cbn [img freeinode freeblock].
  - split; [unfold start; by rewrite length_zinsert, length_replicate| |done|].
    + intros b Hb. rewrite start_blk by done. destruct (b =? 1); [|done]. by rewrite length_splice.
    + intros b Hb. change nmeta with 59 in Hb. rewrite start_blk by (change FSSIZE with 1000 in Hb; lia). by destruct (Z.eqb_spec b 1); [lia|].
  - done.
  - done.
  - intros i t bs Hi. done.
  - intros k Hk _. destruct (iblock_slot k Hk) as [Hr _]. unfold disk_inode. rewrite start_blk by lia.
    destruct (Z.eqb_spec (IBLOCK k sb) 1); [lia|]. apply dinode_of_zeroes.
  - intros b Hb. apply start_blk. lia.
Qed.

(** ** The free map *)

Lemma length_balloc_loop n i buf : length (balloc_loop n i buf) = length buf.
Proof. revert i buf. induction n as [|n IH]; intros i buf; [done|]. cbn [balloc_loop]. by rewrite IH, length_put8. Qed.
Lemma bit_balloc_loop n i buf j :
  0 <= i -> 0 <= j -> i + Z.of_nat n <= 8 * Z.of_nat (length buf) ->
  bit (balloc_loop n i buf) j = ((i <=? j) && (j <? i + Z.of_nat n)) || bit buf j.
Proof.
  revert i buf. induction n as [|n IH]; intros i buf Hi Hj Hl; cbn [balloc_loop].
  - destruct (Z.leb_spec i j), (Z.ltb_spec j (i + Z.of_nat 0)); (done || lia).
  - change (put8 _ _ _) with (mark buf i). assert (i / 8 < Z.of_nat (length buf)) by (apply Z.div_lt_upper_bound; lia).
    rewrite IH by (unfold mark; rewrite ?length_put8; lia). rewrite bit_mark by (done || lia).
    destruct (Z.eqb_spec j i), (Z.leb_spec (i + 1) j), (Z.leb_spec i j), (Z.ltb_spec j (i + 1 + Z.of_nat n)), (Z.ltb_spec j (i + Z.of_nat (S n))); (done || lia).
Qed.
Lemma bit_zeroes j : bit zeroes j = false.
Proof.
  unfold bit, get8. rewrite le_dec_zeroes. apply Z.testbit_0_l.
Qed.
