(* ===== verification/MkfsImage.v ===== *)
(** The image in the kernel's terms (mkfs.c, fs.c).

    [image_of] is what the kernel needs of the image: the superblock, the layout its proofs assume,
    the free map, and for every file the predicate [file_rep] under which [readi] and [writei] are
    proved correct. *)

From Stdlib Require Import ZArith Lia.
From stdpp Require Import base tactics option gmap sets strings numbers list.
From S2P Require Import Prelude Layout Bytes Crash CString Bio Cache FsFormat Tx Fs FsBlocks FsFile FsMap FsRw FsInode Mkfs MkfsFacts.
Open Scope Z_scope.

(** The inode of number [k] as [ilock] reads it. *)
Definition kernel_inode (v : list block) (k : Z) : inode := ino k (disk_inode sb v k).
Definition root_bytes (files : list (list Z)) : list Z := (de_bytes 1 [46] ++ de_bytes 1 [46; 46]) ++ entries 2 files.
(** [((off / BSIZE) + 1) * BSIZE] *)
Definition rounded (n : Z) : Z := (n / BSIZE + 1) * BSIZE.

Record image_of (v : list block) (fb : Z) (files data : list (list Z)) : Prop := {
  im_size : Z.of_nat (length v) = FSSIZE;
  im_blocks : Forall (fun d => length d = 512%nat) v;
  im_super : sb_of (blk v 1) = sb;
  im_layout : layout (sb_logstart sb) (sb_nlog sb) sb;
  im_log : forall b, 2 <= b < 2 + nlog -> blk v b = zeros;
  im_used : forall b, 0 <= b < FSSIZE -> used sb v b = (b <? fb);
  im_file : forall i bytes, data !! i = Some bytes -> let x := kernel_inode v (Z.of_nat i + 2) in
    file_rep sb v x /\ i_type x = T_FILE /\ i_nlink x = 1 /\ contents v x = bytes;
  im_root : let n := Z.of_nat (length (root_bytes files)) in let x := kernel_inode v ROOTINO in
    i_type x = T_DIR /\ i_nlink x = 1 /\ contents v x = root_bytes files ++ replicate (Z.to_nat (rounded n - n)) 0 /\
    (n mod BSIZE <> 0 -> file_rep sb v x) /\ (n mod BSIZE = 0 -> ptr v x (n / BSIZE) = 0 /\ n < i_size x);
  im_apart : forall j k b, ROOTINO <= j <= Z.of_nat (length data) + 1 -> ROOTINO <= k <= Z.of_nat (length data) + 1 ->
    owned v (kernel_inode v j) b -> owned v (kernel_inode v k) b -> j = k;
  im_free : forall k, Z.of_nat (length data) + 1 < k < NINODES -> i_type (kernel_inode v k) = 0
}.

(** * From [holds] to the kernel's predicates *)

Section holds.
Context (v : list block) (own : Z -> Z * Z) (fb k : Z) (d : dinode) (m : Z) (i : bool) (bs : list Z).
Hypothesis (H : holds v own fb k d m i bs) (Hfb : fb <= FSSIZE) (Hused : forall b, nmeta <= b < fb -> used sb v b = true).
Abbreviation x := (ino k d).

Lemma holds_data b : nmeta <= b < fb -> data_block sb v b.
Proof.
  intros Hb. split; [|by apply Hused]. change (sb_bmapstart sb) with 58. change (sb_size sb) with FSSIZE. change nmeta with 59 in Hb. lia.
Qed.
Lemma ptr_mapped j : 0 <= j < MAXFILE -> ptr v x j <> 0 -> nmeta <= ptr v x j < fb /\ own (ptr v x j) = (k, j).
Proof.
  intros Hj Hp. apply (ho_ptr _ _ _ _ _ _ _ _ H). split; [lia|]. destruct (decide (j < m)); [done|].
  destruct Hp. apply (ho_none _ _ _ _ _ _ _ _ H). lia.
Qed.
Lemma ind_mapped : ind x <> 0 -> nmeta <= ind x < fb /\ own (ind x) = (k, -1).
Proof. intros Hi. pose proof (ho_ind _ _ _ _ _ _ _ _ H) as E. by destruct i. Qed.

Lemma holds_file_ok : file_ok sb v x.
Proof.
  split; [apply (ho_addrs _ _ _ _ _ _ _ _ H)|done| | |].
  - intros j Hj Hp. destruct (ptr_mapped j Hj Hp) as [Hr Ho]. split; [by apply holds_data|]. intros E.
    destruct ind_mapped as [_ Hi]; [by rewrite <- E|]. rewrite E, Hi in Ho. injection Ho. lia.
  - intros Hi. by apply holds_data, ind_mapped.
  - intros j l Hj Hl E Hp. destruct (ptr_mapped j Hj Hp) as [_ Ho]. destruct (ptr_mapped l Hl) as [_ Ho2]; [congruence|]. rewrite E, Ho2 in Ho. by injection Ho.
Qed.
(** A block of the file is registered under its number. *)
Lemma owned_own b : owned v x b -> (own b).1 = k.
Proof.
  intros [Hb [->|(j & Hj & <-)]]; [by destruct (ind_mapped Hb) as [_ ->]|by destruct (ptr_mapped j Hj Hb) as [_ ->]].
Qed.

Lemma holds_file_rep : 0 <= k < NINODES -> dinode_ok d -> disk_inode sb v k = d -> 0 <= di_size d <= m * BSIZE -> di_type d <> T_DEV -> file_rep sb v x.
Proof.
  intros Hk Hd Ed Hs Ht. pose proof (ho_m _ _ _ _ _ _ _ _ H) as Hm. split; rewrite ?to_dinode_ino; try done.
  - apply holds_file_ok.
  - cbn [i_size ino]. change (MAXFILE * BSIZE) with (140 * 512). change MAXFILE with 140 in Hm. change BSIZE with 512 in Hs. lia.
  - intros j Hj Hlt Ep. cbn [i_size ino] in Hlt. destruct (ho_ptr _ _ _ _ _ _ _ _ H j) as [Hr _]; [change BSIZE with 512 in *; lia|]. change nmeta with 59 in Hr. lia.
Qed.

(** The contents up to the size, which may be beyond the bytes. *)
Lemma holds_contents : Z.of_nat (length bs) <= di_size d -> (di_size d - 1) / BSIZE < MAXFILE ->
  contents v x = bs ++ replicate (Z.to_nat (di_size d - Z.of_nat (length bs))) 0.
Proof.
  intros Hs Hm. apply list_eq. intros j. destruct (decide (Z.of_nat j < di_size d)) as [Hj|Hj].
  - rewrite <- (Nat2Z.id j) at 1. rewrite lookup_contents by (cbn [i_size ino]; lia).
    rewrite (ho_byte _ _ _ _ _ _ _ _ H), Nat2Z.id;
      [|lia|eapply Z.le_lt_trans; [apply Z.div_le_mono; [done|]|exact Hm]; lia].
    destruct (decide (j < length bs)%nat) as [Hlt|Hge].
    + rewrite lookup_app_l by done. by destruct (lookup_lt_is_Some_2 bs j Hlt) as [c ->].
    + rewrite lookup_app_r, lookup_replicate_2 by lia. by rewrite lookup_ge_None_2 by lia.
  - rewrite !lookup_ge_None_2; [done| |].
    + rewrite length_app, length_replicate. lia.
    + rewrite length_file_contents. cbn [i_size ino]. lia.
Qed.
End holds.

(** * The last steps of [main] *)

Lemma root_size files : Z.of_nat (length (root_bytes files)) = 16 * (Z.of_nat (length files) + 2).
Proof. unfold root_bytes. rewrite !length_app, !length_de_bytes, length_entries. lia. Qed.

Lemma root_rounded files :
  Z.of_nat (length files) + 1 < NINODES ->
  Z.of_nat (length (root_bytes files)) < rounded (Z.of_nat (length (root_bytes files))) <= 8 * 512.
Proof.
  intros Hmax. pose proof (root_size files) as Hs. change NINODES with 200 in Hmax. unfold rounded. change BSIZE with 512.
  Z.to_euclidean_division_equations. lia.
Qed.

Section finish.
Context (files data : list (list Z)) (s : state) (own : Z -> Z * Z).
Abbreviation rb := (root_bytes files).
Abbreviation n := (Z.of_nat (length rb)).
Hypothesis (Hlen : length data = length files) (Hmax : Z.of_nat (length files) + 1 < NINODES).
Hypothesis B : built s own ((T_DIR, rb) :: (pair T_FILE <$> data)).

(** The root inode with its final size; the final blocks. *)
Definition root_inode : dinode := set_di_size (rounded n) (disk_inode sb (img s) ROOTINO).
Definition map_bytes : block := balloc_loop (Z.to_nat (freeblock s)) 0 zeroes.
Abbreviation v1 := (v_winode ROOTINO root_inode (img s)).
Definition final : list block := zinsert 58 map_bytes v1.

Let G : good (img s) (freeblock s) := bu_good _ _ _ B.
Lemma root_slot : slot ROOTINO.
Proof. by change (ninodeblocks * IPB) with 208. Qed.
Let G1 : good v1 (freeblock s) := v_winode_good _ _ _ _ G root_slot.

Lemma final_blk b : blk final b = if b =? 58 then map_bytes else if b =? 32 then blk v1 b else blk (img s) b.
Proof.
  pose proof (go_len _ _ G1) as Hl. change FSSIZE with 1000 in Hl. unfold final. rewrite blk_zinsert by lia. destruct (Z.eqb_spec b 58); [done|].
  destruct (Z.eqb_spec b 32); [done|]. by apply (v_winode_blk _ _ _ _ G root_slot).
Qed.
Lemma final_holds k d m i bs : holds (img s) own (freeblock s) k d m i bs -> holds final own (freeblock s) k d m i bs.
Proof.
  apply holds_frame; [lia|done|]. intros b Hb _. change nmeta with 59 in Hb. rewrite final_blk.
  destruct (Z.eqb_spec b 58); [lia|]. by destruct (Z.eqb_spec b 32); [lia|].
Qed.
Lemma root_file : exists l, disk_inode sb (img s) ROOTINO = inode_for T_DIR rb l /\
  whole (img s) own (freeblock s) ROOTINO (inode_for T_DIR rb l) rb.
Proof. destruct (bu_file _ _ _ B 0 T_DIR rb eq_refl) as [_ H]. exact H. Qed.
Lemma root_fits : dinode_ok root_inode.
Proof.
  destruct root_file as (l & E & H). unfold root_inode. rewrite E.
  destruct (whole_fits _ _ _ _ _ _ _ G H ltac:(done)) as [H1 H2 H3 H4]. split; [done| |done|done]. cbn [di_size set_di_size inode_for]. pose proof (root_rounded files Hmax). lia.
Qed.
Lemma final_inode k : slot k -> disk_inode sb final k = if k =? ROOTINO then root_inode else disk_inode sb (img s) k.
Proof.
  intros Hk. rewrite <- (v_winode_inode _ _ _ _ G root_slot k root_fits Hk). destruct (iblock_slot k Hk) as [Hr _]. unfold disk_inode.
  pose proof (go_len _ _ G1) as Hl. change FSSIZE with 1000 in Hl. unfold final. rewrite blk_zinsert by lia. by destruct (Z.eqb_spec (IBLOCK k sb) 58); [lia|].
Qed.
Lemma final_used b : 0 <= b -> used sb final b = (b <? freeblock s).
Proof.
  intros Hb. unfold used. change (bitmap sb final) with (blk final 58). rewrite final_blk. cbn [Z.eqb Pos.eqb]. unfold map_bytes.
  pose proof (go_fb _ _ G) as Hf. change nmeta with 59 in Hf. change FSSIZE with 1000 in Hf.
  rewrite bit_balloc_loop, bit_zeroes by (try lia; unfold zeroes; rewrite length_replicate; change (Z.to_nat BSIZE) with 512%nat; lia).
  rewrite orb_false_r, Z.add_0_l, Z2Nat.id by lia. by destruct (Z.leb_spec 0 b); [|lia].
Qed.

(** File [i] as built. *)
Lemma final_file i t bs : ((T_DIR, rb) :: (pair T_FILE <$> data)) !! i = Some (t, bs) -> exists d,
  kernel_inode final (Z.of_nat i + 1) = ino (Z.of_nat i + 1) d /\ disk_inode sb final (Z.of_nat i + 1) = d /\ dinode_ok d /\
  whole final own (freeblock s) (Z.of_nat i + 1) d bs /\ di_type d = t /\ di_nlink d = 1 /\
  di_size d = if decide (i = 0)%nat then rounded n else Z.of_nat (length bs).
Proof.
  intros Hi. pose proof (lookup_lt_Some _ _ _ Hi) as Hlt. cbn [length] in Hlt. rewrite length_fmap, Hlen in Hlt. change NINODES with 200 in Hmax.
  assert (slot (Z.of_nat i + 1)) as Hs by (change (ninodeblocks * IPB) with 208; lia).
  destruct (bu_file _ _ _ B i t bs Hi) as (Ht & l & E & H). pose proof (whole_fits _ _ _ _ _ _ _ G H Ht) as Hok.
  pose proof (final_inode _ Hs) as Ei. unfold kernel_inode. exists (disk_inode sb final (Z.of_nat i + 1)). split; [done|]. split; [done|]. rewrite Ei.
  destruct (decide (i = 0)%nat) as [->|Hne].
  - change (Z.of_nat 0 + 1 =? ROOTINO) with true. cbn iota. split; [apply root_fits|]. unfold root_inode. change ROOTINO with (Z.of_nat 0 + 1). rewrite E.
    split; [|done]. apply final_holds. by apply (holds_inode _ _ _ _ (inode_for t bs l)).
  - destruct (Z.eqb_spec (Z.of_nat i + 1) ROOTINO) as [Ez|]; [change ROOTINO with 1 in Ez; lia|]. rewrite E. split; [done|].
    split; [by apply final_holds|done].
Qed.

Lemma final_owned j b : ROOTINO <= j <= Z.of_nat (length data) + 1 -> owned final (kernel_inode final j) b -> (own b).1 = j.
Proof.
  intros Hj. change ROOTINO with 1 in Hj. destruct (lookup_lt_is_Some_2 ((T_DIR, rb) :: (pair T_FILE <$> data)) (Z.to_nat (j - 1))) as [[t bs] Hi].
  { cbn [length]. rewrite length_fmap. lia. }
  destruct (final_file _ t bs Hi) as (d & Ek & _ & _ & H & _). replace (Z.of_nat (Z.to_nat (j - 1)) + 1) with j in * by lia. rewrite Ek.
  by apply (owned_own _ _ _ _ _ _ _ _ H).
Qed.

Lemma final_image : image_of final (freeblock s) files data.
Proof.
  pose proof (go_fb _ _ G) as Hf. assert (forall b, nmeta <= b < freeblock s -> used sb final b = true) as Hu.
  { intros b Hb. change nmeta with 59 in Hb. rewrite final_used by lia. apply Z.ltb_lt. lia. }
  split.
  - unfold final. rewrite length_zinsert. apply (go_len _ _ G1).
  - apply Forall_lookup. intros i d Hi. pose proof (lookup_lt_Some _ _ _ Hi) as Hlt. pose proof (go_len _ _ G1) as Hl. change FSSIZE with 1000 in Hl.
    unfold final in Hlt. rewrite length_zinsert in Hlt. assert (d = blk final (Z.of_nat i)) as -> by (unfold blk; by rewrite zlookup_nat, Hi).
    unfold final. rewrite blk_zinsert by lia. destruct (Z.eqb_spec (Z.of_nat i) 58); [by unfold map_bytes; rewrite length_balloc_loop; unfold zeroes; rewrite length_replicate|].
    apply (go_blk _ _ G1). change FSSIZE with 1000. lia.
  - rewrite final_blk. cbn [Z.eqb Pos.eqb]. rewrite (bu_meta _ _ _ B) by lia. reflexivity.
  - split; done.
  - intros b Hb. change (2 + nlog) with 32 in Hb. rewrite final_blk. destruct (Z.eqb_spec b 58); [lia|]. destruct (Z.eqb_spec b 32); [lia|].
    rewrite (bu_meta _ _ _ B) by lia. by destruct (Z.eqb_spec b 1); [lia|].
  - intros b Hb. apply final_used. lia.
  - intros i bytes Hi. destruct (final_file (S i) T_FILE bytes) as (d & Ek & Ed & Hok & H & Ht & Hn & Hs).
    { rewrite lookup_cons. by rewrite list_lookup_fmap, Hi. }
    replace (Z.of_nat (S i) + 1) with (Z.of_nat i + 2) in * by lia. cbv zeta. rewrite Ek. destruct (decide (S i = 0)%nat); [lia|].
    pose proof (lookup_lt_Some _ _ _ Hi). change NINODES with 200 in Hmax. pose proof (ho_len _ _ _ _ _ _ _ _ H). pose proof (ho_m _ _ _ _ _ _ _ _ H) as Hm.
    split; [|split; [exact Ht|split; [exact Hn|]]].
    + apply (holds_file_rep _ _ _ _ _ _ _ _ H); [apply Hf|done|change NINODES with 200; lia|done|done|rewrite Hs; lia|by rewrite Ht].
    + rewrite (holds_contents _ _ _ _ _ _ _ _ H), Hs, Z.sub_diag, app_nil_r; [done|lia|]. rewrite Hs. change MAXFILE with 140 in *. change BSIZE with 512 in *.
      apply Z.div_lt_upper_bound; lia.
  - destruct (final_file 0 T_DIR rb eq_refl) as (d & Ek & Ed & Hok & H & Ht & Hn & Hs). change (Z.of_nat 0 + 1) with ROOTINO in *. cbv zeta. rewrite Ek.
    rewrite decide_True in Hs by done. pose proof (root_rounded files Hmax) as Hr. pose proof (nblks_next n ltac:(lia)) as (Hb1 & Hb2 & Hb3).
    split; [exact Ht|]. split; [exact Hn|]. split; [|split].
    + rewrite (holds_contents _ _ _ _ _ _ _ _ H), Hs; [done|rewrite Hs; lia|]. rewrite Hs. change BSIZE with 512. apply Z.div_lt_upper_bound; [lia|]. change MAXFILE with 140. lia.
    + intros Hmod. apply (holds_file_rep _ _ _ _ _ _ _ _ H); [apply Hf|done|done|done|done| |by rewrite Ht].
      rewrite Hs. split; [lia|]. unfold rounded. change BSIZE with 512 in *. nia.
    + intros Hmod. split; [|cbn [ino i_size]; rewrite Hs; lia]. apply (ho_none _ _ _ _ _ _ _ _ H). unfold nblks, rounded in *. change MAXFILE with 140. change BSIZE with 512 in *.
      clear - Hr Hmod. Z.to_euclidean_division_equations. lia.
  - intros j k b Hj Hk Hoj Hok. rewrite <- (final_owned j b Hj Hoj). by apply final_owned.
  - intros k Hk. change NINODES with 200 in *. assert (slot k) as Hs by (change (ninodeblocks * IPB) with 208; lia). unfold kernel_inode. cbn [i_type ino].
    rewrite final_inode by done. destruct (Z.eqb_spec k ROOTINO) as [->|]; [change ROOTINO with 1 in Hk; lia|].
    rewrite (bu_free _ _ _ B); [done|done|]. cbn [length]. rewrite length_fmap. lia.
Qed.
End finish.

(** * The theorem *)

Section main.
Context (creat : list Z -> bool) (host : list Z -> option (list Z)).

(** The root directory with its two entries. *)
Lemma run_root e1 e2 : length e1 = 16%nat -> length e2 = 16%nat -> exists s1 s2 s3 own,
  run (ialloc T_DIR (mkMk start 1 nmeta)) = ROk ROOTINO s1 /\ run (iappend ROOTINO e1 s1) = ROk tt s2 /\
  run (iappend ROOTINO e2 s2) = ROk tt s3 /\ built s3 own [(T_DIR, e1 ++ e2)].
Proof.
  intros H1 H2. destruct (run_ialloc _ (fun _ => (0, 0)) _ (start_built _) T_DIR) as (s1 & R1 & B1); [done|done|].
  change (MkfsFacts.built s1 (fun _ => (0, 0)) [(T_DIR, [])]) in B1.
  assert (forall e, length e = 16%nat \/ length e = 32%nat -> nmeta + total [(T_DIR, e)] <= FSSIZE /\ Z.of_nat (length e) <= MAXFILE * BSIZE) as Hfit.
  { intros e [E|E]; unfold total, file_cost; cbn [foldr snd]; rewrite E; split; by vm_compute. }
  destruct (run_iappend _ _ _ B1 0 T_DIR [] e1 eq_refl) as (s2 & own2 & R2 & B2); [apply (Hfit e1); auto..|].
  change (MkfsFacts.built s2 own2 [(T_DIR, e1)]) in B2.
  destruct (run_iappend _ _ _ B2 0 T_DIR e1 e2 eq_refl) as (s3 & own3 & R3 & B3); [apply (Hfit (e1 ++ e2)); right; rewrite length_app; lia..|].
  exists s1, s2, s3, own3. done.
Qed.

Lemma run_main arg0 image files data s :
  creat image = true -> Forall2 (acceptable host) files data -> Z.of_nat (length files) + 1 < NINODES ->
  let fl := (T_DIR, root_bytes files) :: (pair T_FILE <$> data) in nmeta + total fl <= FSSIZE ->
  exists s', run (main creat host (arg0 :: image :: files) s) = ROk tt s' /\
    freeblock s' = nmeta + total fl /\ image_of (img s') (freeblock s') files data.
Proof.
  intros Hc HF Hn fl Hroom. pose proof (Forall2_length _ _ _ HF) as Hlen. cbn [main]. rewrite Hc. cbn [negb].
  rewrite run_bind. cbn [modify run rbind]. rewrite run_bind. change (seqZ 0 FSSIZE) with (seqZ (Z.of_nat 0) (Z.of_nat 1000)).
  change (mkMk [] 1 nmeta) with (mkMk (replicate 0 zeroes) 1 nmeta). rewrite run_clear by lia. cbn [rbind].
  rewrite run_bind, run_wsect; cbn [img]; [|rewrite length_replicate; lia..]. cbn [rbind]. change (set_img _ _) with (mkMk start 1 nmeta).
  destruct (run_root (de_bytes 1 [46]) (de_bytes 1 [46; 46])) as (s1 & s2 & s3 & own3 & R1 & R2 & R3 & B3); [apply length_de_bytes..|].
  rewrite run_bind, R1. cbn [rbind]. change (negb (ROOTINO =? ROOTINO)) with false. cbn iota. change ROOTINO with 1 in *.
  rewrite run_bind, R2. cbn [rbind]. rewrite run_bind, R3. cbn [rbind].
  destruct (run_add_files host files data _ _ _ [] B3 HF) as (s4 & own4 & R4 & B4); [done|..].
  { change (Z.of_nat (length []) + 2) with 2. fold (root_bytes files). rewrite root_size. change NINODES with 200 in Hn. change (MAXFILE * BSIZE) with 71680. lia. }
  { exact Hroom. }
  change (built s4 own4 fl) in B4. rewrite run_bind, R4. cbn [rbind].
  pose proof (final_image files data s4 own4 (eq_sym Hlen) Hn B4) as FI. pose proof (bu_good _ _ _ B4) as G. pose proof (bu_count _ _ _ B4) as C.
  pose proof (root_rounded files Hn) as Hr. destruct (root_file files data s4 own4 B4) as (l & E & _). destruct s4 as [v fi fb]. cbn [img freeblock] in *.
  rewrite run_bind, (run_rinode v fi fb 1 G root_slot). cbn [rbind]. rewrite run_bind.
  assert (u32 ((xint (di_size (disk_inode sb v 1)) / BSIZE + 1) * BSIZE) = rounded (Z.of_nat (length (root_bytes files)))) as Eoff.
  { change (disk_inode sb v 1) with (disk_inode sb v ROOTINO). rewrite E. cbn [inode_for di_size]. rewrite xint_id by lia. apply u32_small. fold (rounded (Z.of_nat (length (root_bytes files)))). lia. }
  rewrite Eoff, (xint_id (rounded _)) by lia. rewrite (run_winode v fi fb 1 _ G root_slot). cbn [rbind]. rewrite run_bind. cbn [gets run rbind freeblock].
  unfold balloc. pose proof (go_fb _ _ G) as Hf. change FSSIZE with 1000 in Hf. destruct (Z.ltb_spec fb (BSIZE * 8)) as [_|Hb]; [|change (BSIZE * 8) with 4096 in Hb; lia].
  cbn [negb]. change (sb_bmapstart sb) with 58. rewrite (run_wsect_img _ fi fb (v_winode_good _ _ _ _ G root_slot)) by (change FSSIZE with 1000; lia).
  eexists. split; [reflexivity|]. cbn [img freeblock]. split; [done|]. exact FI.
Qed.

(** C5. [mkfs] builds the file system the kernel reads.  When the files can be read, have no slash in their
    names, are no longer than [MAXFILE] blocks, are fewer than 199 and all fit on the disk, the
    program ends normally; the superblock decodes to the layout the kernel's proofs assume, the log
    is empty, exactly the blocks given out are marked in the free map, every file has an inode for
    which the kernel's [file_rep] holds and whose contents are the bytes of the host file, the root
    directory holds ".", ".." and the entries of the files, no block is in two files, and the other
    inodes are free.  The root directory satisfies [file_rep] too, unless its entries fill whole
    blocks: then its rounded size covers a block that is not there. *)
Theorem mkfs_image arg0 image files data s :
  creat image = true -> Forall2 (acceptable host) files data -> Z.of_nat (length files) + 1 < NINODES ->
  let fl := (T_DIR, root_bytes files) :: (pair T_FILE <$> data) in nmeta + total fl <= FSSIZE ->
  exists s', run (main creat host (arg0 :: image :: files) s) = ROk tt s' /\
    freeblock s' = nmeta + total fl /\ image_of (img s') (freeblock s') files data.
Proof. exact (run_main arg0 image files data s). Qed.
End main.

(** One file of thirteen blocks, the last reached through the indirect block. *)
Definition big : list Z := replicate (Z.to_nat 6200) 7.
Lemma mkfs_image_witness : exists s',
  run (main (fun _ => true) (fun _ => Some big) [[]; []; [95; 97]] (mkMk [] 0 0)) = ROk tt s' /\ freeblock s' = 74 /\
  image_of (img s') (freeblock s') [[95; 97]] [big].
Proof.
  apply (mkfs_image (fun _ => true) (fun _ => Some big) [] [] [[95; 97]] [big] (mkMk [] 0 0)).
  - reflexivity.
  - constructor; [|constructor]. split; [|reflexivity|vm_compute; discriminate]. intros H. by apply list_elem_of_lookup_1 in H as [[|[|?]] ?].
  - reflexivity.
  - vm_compute. discriminate.
Defined.

(** What stops the program: no image name, a slash in a name, a file that cannot be read, a file that is too long. *)
Lemma mkfs_usage creat host argv s : (length argv < 2)%nat -> run (main creat host argv s) = RPanic "Usage: mkfs fs.img files...".
Proof. destruct argv as [|? [|? ?]]; cbn [length]; [done|done|lia]. Qed.
Lemma add_file_slash host f s : is_Some (strchr f 47) -> run (add_file host 1 f s) = RPanic "index(argv[i], '/') == 0".
Proof. intros H. unfold add_file. by rewrite bool_decide_eq_true_2. Qed.
Lemma add_file_unreadable host f s : 47 ∉ f -> host f = None -> run (add_file host 1 f s) = RPanic "open".
Proof. intros Hn Hh. unfold add_file. rewrite strchr_slash by done. rewrite bool_decide_eq_false_2 by (by intros [? ?]). by rewrite Hh. Qed.
Lemma iappend_too_long fuel p off d s : p <> [] -> MAXFILE * BSIZE <= off -> run (iappend_loop (S fuel) p off d s) = RPanic "fbn < MAXFILE".
Proof.
  intros Hp Ho. cbn [iappend_loop]. destruct p as [|c p]; [done|]. cbn [length]. destruct (Z.ltb_spec 0 (Z.of_nat (S (length p)))); [|lia]. cbn [negb].
  destruct (Z.ltb_spec (off / BSIZE) MAXFILE) as [Hlt|]; [|done]. apply Z.div_le_mono with (c := BSIZE) in Ho; [|done]. rewrite Z.div_mul in Ho by done. lia.
Qed.
