(* ===== verification/FirstBoot.v ===== *)
(** The first start of the kernel on an image of mkfs (mkfs.c, main.c, proc.c, exec.c; through fs.c, log.c and bio.c).

    [fs_start] is the part of the start of the kernel that concerns the disk; [read_file] is the
    sequence of calls with which exec.c reads a file.  The image [mkfs] builds is a tree in the sense of FsDir.v
    with its files in the root directory, recovery leaves it alone, and so a kernel that starts on it reads back
    every file. *)

From Stdlib Require Import ZArith Lia.
From stdpp Require Import base tactics option gmap gmultiset sets strings numbers list.
From S2P Require Import Prelude Layout Bytes Crash CString Bio BioCache Cache Memide FsFormat Log LogFacts LogSafe Tx TxLog Fs FsBlocks FsFile FsMap FsRw FsInode FsSafe FsPath FsDir.
From S2P Require Import Mkfs MkfsFacts MkfsImage.
Open Scope Z_scope.

(** * Blocks that differ in the log only *)

Section outside.
Context (lo n : Z) (y : superblock) (LY : layout lo n y) (v v' : list block) (SO : same_outside lo (lo + n) v' v).

Lemma disk_inode_outside k : 0 <= k < sb_ninodes y -> disk_inode y v' k = disk_inode y v k.
Proof.
  intros Hk. pose proof (iblock_range lo n y LY (mkInode 0 k 0 0 0 0 0 0 0 []) Hk) as Hb. cbn [i_num] in Hb.
  unfold disk_inode, blk. destruct SO as [_ Hs]. by rewrite Hs by lia.
Qed.
Lemma used_outside b : used y v' b = used y v b.
Proof.
  pose proof (map_pos lo n y LY) as Hm. destruct SO as [_ Hs], (ly_inodes _ _ _ LY), (ly_log _ _ _ LY).
  assert (0 <= (sb_ninodes y - 1) / IPB) by (apply Z.div_pos; [lia|done]). unfold used, bitmap. by rewrite Hs by lia.
Qed.
Lemma data_outside b : data_block y v b -> zlookup v' b = zlookup v b /\ data_block y v' b.
Proof.
  intros [Hb Hu]. split; [|split; [done|by rewrite used_outside]]. destruct SO as [_ Hs], (ly_inodes _ _ _ LY), (ly_log _ _ _ LY).
  assert (0 <= (sb_ninodes y - 1) / IPB) by (apply Z.div_pos; [lia|done]). apply Hs. lia.
Qed.
Lemma ptr_outside x k : file_ok y v x -> ptr v' x k = ptr v x k.
Proof.
  intros FO. unfold ptr. destruct (k <? NDIRECT); [done|]. destruct (k <? MAXFILE); [|done]. destruct (Z.eqb_spec (ind x) 0) as [|Hi]; [done|].
  unfold blk. by destruct (data_outside _ (fo_ind _ _ _ FO Hi)) as [-> _].
Qed.
Lemma rep_outside x : file_rep y v x -> file_rep y v' x /\ contents v' x = contents v x.
Proof.
  intros [FO Hnum Hfit Hdisk Hsz Hmap Hty]. split.
  - split; try done; [|by rewrite disk_inode_outside|intros k Hk Hlt; rewrite ptr_outside by done; by apply Hmap].
    pose proof (fun k => ptr_outside x k FO) as Hp. destruct FO as [F1 F2 F3 F4 F5]. split; try done.
    + intros k Hk. rewrite Hp. intros Hne. destruct (F3 k Hk Hne). split; [by apply data_outside|done].
    + intros Hi. by apply data_outside, F4.
    + intros j k Hj Hk. rewrite !Hp. by apply F5.
  - unfold contents, fbytes. apply list_fmap_ext. intros i o (-> & Hi)%lookup_seqZ. unfold fbyte. rewrite ptr_outside by done.
    destruct (Z.eqb_spec (ptr v x ((0 + Z.of_nat i) / BSIZE)) 0) as [|Hne]; [done|]. unfold blk.
    destruct (fo_ptr _ _ _ FO ((0 + Z.of_nat i) / BSIZE)) as [Hd _]; [|done|by destruct (data_outside _ Hd) as [-> _]].
    change (MAXFILE * BSIZE) with 71680 in Hsz. change BSIZE with 512. change MAXFILE with 140. split; [apply Z.div_pos; lia|apply Z.div_lt_upper_bound; lia].
Qed.

Lemma disk_file_outside k : 0 <= k < sb_ninodes y -> disk_file y v' k = disk_file y v k.
Proof. intros Hk. unfold disk_file. by rewrite disk_inode_outside. Qed.
Lemma live_outside k : live y v' k <-> live y v k.
Proof. unfold live, kind. split; intros [Hk Ht]; (split; [done|]); [rewrite disk_inode_outside in Ht|rewrite disk_inode_outside]; try done; lia. Qed.
Lemma file_outside k : live y v k -> file_rep y v (disk_file y v k) -> file_at y v' k = file_at y v k.
Proof. intros [Hk _] FR. unfold file_at. rewrite disk_file_outside by lia. by apply rep_outside. Qed.

Lemma tree_outside : tree y v -> tree y v'.
Proof.
  intros [T1 T2 T3]. split; [by apply live_outside|intros k Hk%live_outside; destruct Hk as [? ?]; rewrite disk_inode_outside by lia; by apply T2|].
  intros k Hk%live_outside Hd. pose proof Hk as [Hr _]. unfold kind in Hd. rewrite disk_inode_outside in Hd by lia. destruct (T3 k Hk Hd) as [D1 D2 D3 D4].
  pose proof (file_outside k Hk D1) as Ef. split; rewrite ?Ef; [|by rewrite disk_inode_outside by lia|done|].
  - rewrite disk_file_outside by lia. by apply rep_outside.
  - intros e He Hne. apply live_outside. auto.
Qed.
End outside.

(** * The root directory of the image *)

(** The name of a file in the image. *)
Definition stored (f : list Z) : list Z := cstr (Z.to_nat DIRSIZ) (skip_underscore f).

Lemma cstr_pad k txt m : (forall c, c ∈ txt -> c <> 0) -> (length txt <= k)%nat -> cstr k (txt ++ replicate m 0) = txt.
Proof.
  intros Ht Hl. destruct m as [|m]; [rewrite app_nil_r; by apply cstr_all|]. cbn [replicate]. destruct (decide (length txt = k)) as [<-|]; [|apply cstr_app_nul; [done|lia]].
  clear Hl. induction txt as [|c txt IH]; [done|]. cbn [length cstr app]. destruct (Z.eqb_spec c 0); [exfalso; set_solver|]. f_equal. apply IH. set_solver.
Qed.

Lemma dents_cons k nm rest : 0 <= k < 2 ^ 16 -> dents (de_bytes k nm ++ rest) = (k, cstr (Z.to_nat DIRSIZ) nm) :: dents rest.
Proof.
  intros Hk. pose proof (length_de_bytes k nm) as Hl. unfold dents. rewrite length_app, Hl. change (Z.to_nat DIRENT_SIZE) with 16%nat.
  replace (16 + length rest)%nat with (1 * 16 + length rest)%nat by lia. rewrite Nat.div_add_l by lia. cbn [Nat.add seq fmap list_fmap]. f_equal.
  - unfold dent. assert (slice (de_bytes k nm ++ rest) (DIRENT_SIZE * Z.of_nat 0) DIRENT_SIZE = de_bytes k nm) as ->.
    { unfold slice. change (Z.to_nat (DIRENT_SIZE * Z.of_nat 0)) with 0%nat. rewrite drop_0. change (Z.to_nat DIRENT_SIZE) with 16%nat. rewrite <- Hl. by rewrite take_app_length. }
    unfold de_bytes at 1 2. rewrite xshort_id by done. f_equal.
    + unfold de_inum, get16, slice. change (Z.to_nat 2) with (length (le_enc 2 k)). change (Z.to_nat 0) with 0%nat. rewrite drop_0, take_app_length, le_dec_enc. by apply Z.mod_small.
    + unfold de_name, slice. change (Z.to_nat 2) with (length (le_enc 2 k)). rewrite drop_app_length.
      rewrite strncpy_spec by (by rewrite length_replicate). cbv zeta. rewrite drop_ge by (by rewrite length_replicate). rewrite app_nil_r.
      pose proof (length_cstr (Z.to_nat DIRSIZ) nm). change (Z.to_nat DIRSIZ) with 14%nat in *. rewrite take_ge by (rewrite length_app, length_replicate; lia).
      apply cstr_pad; [intros c; apply cstr_nonzero|done].
  - rewrite <- fmap_S_seq, <- list_fmap_compose. apply list_fmap_ext. intros i j _. unfold compose, dent.
    rewrite slice_app_r by (rewrite Hl; change DIRENT_SIZE with 16; lia). rewrite Hl. change DIRENT_SIZE with 16.
    by replace (16 * Z.of_nat (S j) - Z.of_nat 16) with (16 * Z.of_nat j) by lia.
Qed.
Lemma le_dec_zeros m : le_dec (replicate m 0) = 0.
Proof. induction m as [|m IH]; [done|]. cbn [replicate le_dec]. by rewrite IH. Qed.
Lemma dents_zeros m : Forall (fun e => e.1 = 0) (dents (replicate m 0)).
Proof.
  apply Forall_forall. intros e (i & Hi)%list_elem_of_lookup. apply dents_lookup in Hi as [_ ->]. unfold dent, de_inum, get16, slice. cbn [fst].
  rewrite drop_replicate, !take_replicate, drop_replicate, take_replicate. apply le_dec_zeros.
Qed.

(** The entries for the files, the first with inode [k]. *)
Fixpoint file_dents (k : Z) (files : list (list Z)) : list (Z * list Z) :=
  match files with [] => [] | f :: r => (k, stored f) :: file_dents (k + 1) r end.
Lemma dents_entries k files rest : 0 <= k -> k + Z.of_nat (length files) <= 2 ^ 16 -> dents (entries k files ++ rest) = file_dents k files ++ dents rest.
Proof.
  revert k. induction files as [|f r IH]; intros k Hk Hm; [done|]. cbn [entries file_dents length] in *. rewrite <- app_assoc, dents_cons by lia. rewrite IH by lia. done.
Qed.
Lemma lookup_file_dents k files i : file_dents k files !! i = (fun f => (k + Z.of_nat i, stored f)) <$> files !! i.
Proof.
  revert k i. induction files as [|f r IH]; intros k i; [done|]. destruct i as [|i]; [cbn; by rewrite Z.add_0_r|]. cbn [file_dents lookup list_lookup].
  change ((file_dents (k + 1) r) !! i = (fun f => (k + Z.of_nat (S i), stored f)) <$> r !! i). rewrite IH. destruct (r !! i); [cbn; do 2 f_equal; lia|done].
Qed.
Lemma dents_root files m : Z.of_nat (length files) + 1 < NINODES ->
  dents (root_bytes files ++ replicate m 0) = [(1, [46]); (1, [46; 46])] ++ file_dents 2 files ++ dents (replicate m 0).
Proof.
  intros Hn. change NINODES with 200 in Hn. unfold root_bytes. rewrite <- !app_assoc. rewrite !dents_cons by lia. rewrite dents_entries by lia. done.
Qed.

(** The file [f] at place [i] is the first of its name. *)
Record findable (files : list (list Z)) (i : nat) (f : list Z) : Prop := {
  fb_file : files !! i = Some f;
  fb_name : skip_underscore f <> [];
  fb_dots : stored f <> [46] /\ stored f <> [46; 46];
  fb_first : forall j g, (j < i)%nat -> files !! j = Some g -> stored g <> stored f
}.

Lemma names_it_ne nm e : e.2 <> nm -> names_it nm e = false.
Proof. intros H. unfold names_it. rewrite bool_decide_eq_false_2 by done. apply andb_false_r. Qed.

Lemma root_find files m i f : Z.of_nat (length files) + 1 < NINODES -> findable files i f ->
  dir_find (root_bytes files ++ replicate m 0) (stored f) = Some (S (S i), Z.of_nat i + 2).
Proof.
  intros Hn [Hi _ [Hd1 Hd2] Hmin]. pose proof (lookup_lt_Some _ _ _ Hi) as Hlt. unfold dir_find. rewrite dents_root by done.
  set (l := [(1, [46]); (1, [46; 46])] ++ file_dents 2 files ++ dents (replicate m 0)).
  assert (forall j g, files !! j = Some g -> l !! S (S j) = Some (Z.of_nat j + 2, stored g)) as Hl.
  { intros j g Hj. change (l !! S (S j)) with ((file_dents 2 files ++ dents (replicate m 0)) !! j).
    assert (file_dents 2 files !! j = Some (Z.of_nat j + 2, stored g)) as E by (rewrite lookup_file_dents, Hj; cbn; do 2 f_equal; lia).
    rewrite lookup_app_l; [done|]. by eapply lookup_lt_Some. }
  assert (find_index (names_it (stored f)) l = Some (S (S i))) as E; [|rewrite E; unfold mbind, option_bind; by rewrite (Hl i f Hi)].
  apply find_index_Some. split.
  - exists (Z.of_nat i + 2, stored f). split; [by apply Hl|]. unfold names_it. cbn [fst snd]. rewrite bool_decide_eq_true_2 by done.
    destruct (Z.eqb_spec (Z.of_nat i + 2) 0); [lia|done].
  - intros [|[|j]] e Hj He.
    + injection He as <-. by apply names_it_ne.
    + injection He as <-. by apply names_it_ne.
    + destruct (lookup_lt_is_Some_2 files j ltac:(lia)) as [g Hg]. rewrite (Hl j g Hg) in He. injection He as <-. apply names_it_ne. cbn [snd]. apply (Hmin j); [lia|done].
Qed.

Lemma bytes_cstr k s : bytes s -> bytes (cstr k s).
Proof.
  intros H. revert k. induction H as [|c s Hc Hs IH]; intros [|k]; try by constructor. cbn [cstr]. destruct (c =? 0); [constructor|]. constructor; [done|apply IH].
Qed.
Lemma bytes_le_enc k x : bytes (le_enc k x).
Proof. revert x. induction k as [|k IH]; intros x; [constructor|]. cbn [le_enc]. constructor; [apply Z.mod_pos_bound; lia|apply IH]. Qed.
Lemma bytes_zeros m : bytes (replicate m 0).
Proof. by apply Forall_replicate. Qed.
Lemma bytes_de k nm : bytes nm -> bytes (de_bytes k nm).
Proof.
  intros H. unfold de_bytes. apply Forall_app. split; [apply bytes_le_enc|]. rewrite strncpy_spec by (by rewrite length_replicate). cbv zeta.
  apply Forall_app. split; [by apply bytes_cstr|]. apply Forall_app. split; [apply bytes_zeros|]. apply Forall_drop, bytes_zeros.
Qed.
Lemma bytes_root files : Forall bytes files -> bytes (root_bytes files).
Proof.
  intros H. unfold root_bytes. apply Forall_app. split; [apply Forall_app; split; apply bytes_de; by repeat constructor|]. generalize 2.
  induction H as [|f files Hf H IH]; intros k; [constructor|]. cbn [entries]. apply Forall_app. split; [|apply IH]. apply bytes_de. unfold skip_underscore.
  destruct (first_char f =? 95); [|done]. by apply bytes_tail.
Qed.

(** * The image as a tree *)

Section image.
Context (v : list block) (fb : Z) (files data : list (list Z)) (IM : image_of v fb files data).
Hypothesis (Hlen : length data = length files) (Hn : Z.of_nat (length files) + 1 < NINODES).
Hypothesis (Hnames : Forall bytes files) (Hpart : Z.of_nat (length (root_bytes files)) mod BSIZE <> 0).

Lemma image_file i bytes : data !! i = Some bytes -> let k := Z.of_nat i + 2 in
  live sb v k /\ kind sb v k = T_FILE /\ di_nlink (disk_inode sb v k) = 1 /\ file_rep sb v (disk_file sb v k) /\ file_at sb v k = bytes.
Proof.
  intros Hi k. destruct (im_file _ _ _ _ IM i bytes Hi) as (FR & Ht & Hl & Ec). fold k in FR, Ht, Hl, Ec. pose proof (lookup_lt_Some _ _ _ Hi). change NINODES with 200 in Hn.
  split_and!; [|exact Ht|exact Hl|exact FR|exact Ec]. split; [change (sb_ninodes sb) with 200; lia|]. unfold kind. change (di_type (disk_inode sb v k)) with (i_type (kernel_inode v k)).
  by rewrite Ht.
Qed.

(** The allocated inodes are those of the root and the files. *)
Lemma image_live k : live sb v k -> k = ROOTINO \/ exists i bytes, data !! i = Some bytes /\ k = Z.of_nat i + 2.
Proof.
  intros [Hk Ht]. change (sb_ninodes sb) with 200 in Hk. destruct (decide (k <= Z.of_nat (length data) + 1)) as [Hle|Hgt].
  - destruct (decide (k = ROOTINO)) as [|Hr]; [by left|]. change ROOTINO with 1 in Hr. right.
    destruct (lookup_lt_is_Some_2 data (Z.to_nat (k - 2)) ltac:(lia)) as [bytes Hb]. exists (Z.to_nat (k - 2)), bytes. split; [done|lia].
  - destruct Ht. apply (im_free _ _ _ _ IM k). change NINODES with 200. lia.
Qed.

Lemma image_root : exists m, file_at sb v ROOTINO = root_bytes files ++ replicate m 0 /\ kind sb v ROOTINO = T_DIR /\ di_nlink (disk_inode sb v ROOTINO) = 1 /\
  file_rep sb v (disk_file sb v ROOTINO) /\ di_size (disk_inode sb v ROOTINO) mod DIRENT_SIZE = 0.
Proof.
  destruct (im_root _ _ _ _ IM) as (Ht & Hl & Ec & FR & _). eexists. split; [exact Ec|]. split; [exact Ht|]. split; [exact Hl|]. split; [by apply FR|].
  apply (f_equal length) in Ec. rewrite length_file_contents, length_app, length_replicate in Ec. pose proof (root_rounded files Hn) as Hr.
  pose proof (fi_size _ _ _ (FR Hpart)) as Hs. change (di_size (disk_inode sb v ROOTINO)) with (i_size (kernel_inode v ROOTINO)).
  assert (i_size (kernel_inode v ROOTINO) = rounded (Z.of_nat (length (root_bytes files)))) as -> by lia. unfold rounded. change BSIZE with (32 * 16). change DIRENT_SIZE with 16.
  rewrite Z.mul_assoc. by apply Z.mod_mul.
Qed.

Lemma image_tree : tree sb v.
Proof.
  destruct image_root as (m & Er & Hk & Hl & FR & Hs). assert (live sb v ROOTINO) as Hroot by (split; [done|by rewrite Hk]). split.
  - done.
  - intros k [->|(i & bytes & Hi & ->)]%image_live; [by rewrite Hl|]. destruct (image_file i bytes Hi) as (_ & _ & Hl' & _). by rewrite Hl'.
  - intros k [->|(i & bytes & Hi & ->)]%image_live Hd; [|destruct (image_file i bytes Hi) as (_ & Ht & _); by rewrite Ht in Hd].
    split; [done|done|rewrite Er; apply Forall_app; split; [by apply bytes_root|apply bytes_zeros]|].
    rewrite Er, dents_root by done. intros e He Hne. apply elem_of_app in He as [He|He].
    { assert (e.1 = ROOTINO) as -> by (rewrite !elem_of_cons, elem_of_nil in He; by destruct He as [->|[->|[]]]). done. }
    apply elem_of_app in He as [(j & Hj)%list_elem_of_lookup|He]; [|by apply (proj1 (Forall_forall _ _) (dents_zeros m)) in He].
    rewrite lookup_file_dents in Hj. apply fmap_Some in Hj as (f & Hf & ->). cbn [fst]. pose proof (lookup_lt_Some _ _ _ Hf).
    destruct (lookup_lt_is_Some_2 data j ltac:(lia)) as [bytes Hb]. replace (2 + Z.of_nat j) with (Z.of_nat j + 2) by lia. by apply (image_file j bytes).
Qed.
End image.

Lemma parts_single cur nm : 47 ∉ nm -> parts_by (fun c => c =? slash) cur nm = emit (cur ++ nm) [].
Proof.
  revert cur. induction nm as [|c nm IH]; intros cur Hn; [by rewrite app_nil_r|]. apply not_elem_of_cons in Hn as [Hc Hn]. cbn [parts_by].
  destruct (Z.eqb_spec c slash); [done|]. rewrite IH by done. by rewrite <- app_assoc.
Qed.
Lemma components_single nm : nm <> [] -> 47 ∉ nm -> components (47 :: nm) = [nm].
Proof.
  intros H0 Hn. unfold components. cbn [parts_by]. change (47 =? slash) with true. cbn iota. rewrite parts_single by done. unfold emit. cbn [app].
  rewrite decide_True by done. by rewrite decide_False.
Qed.

(** * Starting and reading *)

Section start.
Context {B : Type} {BO : BlockOps B} {BL : BlockLaws B}.
Context (dr : Z -> option (nat -> Z -> Prelude.M (fsstate (lstate B)) (Z * list Z))).
Abbreviation fst0 := (fsstate (lstate B)).

(** [binit] and [ideinit], called by [main]; then [iinit] and [initlog], called by [forkret]. *)
Definition fs_start : Prelude.M fst0 unit :=
  zoom (zoom boot : Prelude.M (lstate B) unit) ;;
  iinit ROOTDEV ;;
  zoom (initlog ROOTDEV).

(** [begin_op(); if ((ip = namei(path)) == 0) { end_op(); return -1; } ilock(ip); readi(ip, dst, 0, m); iunlockput(ip); end_op();] *)
Definition read_file (wake cwd : nat) (path : list Z) (m : Z) : Prelude.M fst0 (option (list Z)) :=
  zoom begin_op ;;
  r <- namei dr wake cwd path ;;
  match r with
  | None => zoom end_op ;; ret None
  | Some ip =>
      ilock wake ip ;;
      b <- readi dr ip 0 m ;;
      iunlockput ip ;;
      zoom end_op ;;
      ret (Some b.2)
  end.

(** One operation is under way. *)
Definition first_tx : TxLaws (lstate B) := log_tx_laws (BL := BL) 1 ltac:(lia).
Abbreviation TL1 := first_tx.
Abbreviation anywhere := (fun _ : list block => True).
Abbreviation on_disk := (fun s : fst0 => anywhere (tdisk (TxLaws := TL1) (tx s))).

(** The superblock as [iinit] reads it, before the log is there. *)
Lemma iinit_spec y ic l b d x :
  crep b (cache_boot d) -> zlookup d 1 = Some x ->
  chl on_disk (iinit ROOTDEV (mkFs y ic (mkL l b))) (fun _ s' => exists b', s' = mkFs (sb_of x) ic (mkL l b') /\ crep b' (cache_boot d)).
Proof.
  intros R Hx. unfold iinit, readsb. cstep.
  eapply (fs_seq (TL := TL1) anywhere).
  { apply (chl_lb anywhere), (bread_law anywhere b _ 1 R I); [by eapply zlookup_Some_range|by rewrite held_blocks_quiet|right; by rewrite held_blocks_quiet, union_empty_r_L]. }
  intros i t1 (b1 & -> & Hi & R1). eapply (fs_seq (TL := TL1) anywhere).
  { apply (chl_lb anywhere), (bdata_law anywhere _ _ i 1 x R1); [apply lookup_insert_eq|done]. }
  intros r t2 (b2 & -> & -> & ->). eapply (fs_seq (TL := TL1) anywhere).
  { apply (chl_lb anywhere), (brelse_law anywhere _ _ i 1 R1); [apply lookup_insert_eq|by cbn; set_solver|done]. }
  intros [] t3 (b3 & -> & R3). cstep. unfold set_sb. cstep. exists b3. split; [done|]. by rewrite hold_drop in R3.
Qed.

(** Starting on a disk with an empty log leaves the blocks outside the log as they were. *)
Lemma fs_start_spec y0 ic (s : lstate B) x h :
  let y := sb_of x in let d := diskof (lb s) in
  zlookup d 1 = Some x -> zlookup d (sb_logstart y) = Some h -> hdr_n h = 0 ->
  1 < sb_logstart y < 2 ^ 31 -> 0 < sb_nlog y < 2 ^ 31 -> sb_logstart y + sb_nlog y <= Z.of_nat (length d) <= 2 ^ 31 ->
  chl on_disk (fs_start (mkFs y0 ic (log_powerfail s))) (fun _ s' => exists t c, s' = mkFs y ic t /\ idle t c /\
    Log.start (lg t) = sb_logstart y /\ lsize (lg t) = sb_nlog y /\ same_outside (sb_logstart y) (sb_logstart y + sb_nlog y) (view c) d).
Proof.
  intros y d Hx Hh Hhn Hst Hsz Hend.
  assert (logged (sb_logstart y) d = []) as Hlog by (unfold logged; rewrite Hh, Hhn; done).
  assert (recoverable (sb_logstart y) (sb_nlog y) d) as RC.
  { split.
    - exists x. split; [done|]. fold y. rewrite !s32_small by lia. done.
    - exists h. rewrite Hhn. change LOGSIZE with 30. split; [done|lia].
    - rewrite Hlog. intros j Hj. by apply elem_of_nil in Hj.
    - rewrite Hlog. apply NoDup_nil_2.
    - lia. }
  unfold fs_start, log_powerfail. eapply (fs_seq (TL := TL1) anywhere); [apply (chl_lb anywhere), (boot_law anywhere), I|]. intros [] t1 (b1 & -> & R1). fold d in R1.
  eapply chl_seq; [by apply (iinit_spec y0 ic log_zero b1 d x)|]. intros [] s2 (b2 & -> & R2). fold y.
  eapply chl_conseq.
  { apply (chl_zoom (L := lens_tx) (fun t => anywhere (diskof (lb t))) (initlog ROOTDEV) (mkFs y ic (mkL log_zero b2))
      (fun _ s' => recovered (sb_logstart y) (sb_nlog y) d s')).
    eapply chl_mono; [|intros ? ? H; exact H|exact (initlog_spec (sb_logstart y) (sb_nlog y) d RC b2 R2)]. done. }
  intros [] [y' ic' t] [(c & bl & R & Hq & Hp & Hl & Hbl & Hs & h' & Hh' & Hn') E]. cbn [lget lput lens_tx Fs.sb icache tx] in *. injection E as -> ->.
  exists t, c. split; [done|]. rewrite (replay_empty _ _ h Hh) in Hs by lia. destruct Hs as [Hslen Hs].
  assert (idle t c) as ID.
  { split; [done|rewrite Hl; cbn; lia|]. rewrite Hl. split; cbn [log_recovered ldev lh_n lh_block Log.start lsize]; try done.
    - apply NoDup_nil_2.
    - intros bn Hbn. by apply elem_of_nil in Hbn.
    - exists x. rewrite Hs by lia. fold y. rewrite !s32_small by lia. done.
    - lia.
    - change NBUF with 30. lia.
    - rewrite Hslen. lia.
    - by exists h'. }
  split; [done|]. rewrite Hl. split; [done|]. split; [done|]. by rewrite (idle_view _ _ ID).
Qed.

Lemma rest_idle y t c t1 :
  idle t c -> volume y c -> log_rep 1 (Log.start (lg t)) (lsize (lg t)) t1 c -> quiet c ->
  at_rest (TL := TL1) (Log.start (lg t)) (lsize (lg t)) anywhere y t1 c.
Proof.
  intros [_ _ T0] VO L [Hh Ht]. split; [by split|done|done|]. rewrite (t_pinned _ _ _ T0). by vm_compute.
Qed.

(** Reading a file by name: the first [m] bytes of what the path names. *)
Lemma read_file_spec R y ic t c wake cwd k0 path m :
  idle t c -> layout (Log.start (lg t)) (lsize (lg t)) y -> volume y c -> tree y (view c) -> cached y (view c) R None ic ->
  (first_char path <> 47 -> at_slot ic cwd k0) -> is_text path -> bytes path ->
  (base.size (dom R) + 2 <= length ic)%nat -> Z.of_nat (base.size R) + 2 < 2 ^ 31 -> 0 <= m < 2 ^ 32 ->
  let w := walk y (view c) false (if first_char path =? 47 then ROOTINO else k0) (components path) in
  (forall k, w = Some k -> file_rep y (view c) (disk_file y (view c) k)) ->
  chl on_disk (read_file wake cwd path m (mkFs y ic t)) (fun r s' => r = (fun k => take (Z.to_nat m) (file_at y (view c) k)) <$> w /\
    exists ic' t' c', s' = mkFs y ic' t' /\ idle t' c' /\ cached y (view c) R None ic').
Proof.
  intros ID LY VO TR C Hcwd Ht Hb Hroom Hmax Hm w Hw. set (lo := Log.start (lg t)) in *. set (n := lsize (lg t)) in *.
  assert (forall ic' t', log_rep 1 lo n t' c -> quiet c -> chl on_disk (zoom end_op (mkFs y ic' t')) (fun _ s' => exists t2 c2, s' = mkFs y ic' t2 /\ idle t2 c2)) as Hend.
  { intros ic' t' L Hq. eapply chl_conseq.
    { apply (chl_zoom (L := lens_tx) (fun t => anywhere (diskof (lb t))) Log.end_op (mkFs y ic' t') _ (end_op_spec anywhere t' c lo n L Hq (fun _ _ => I))). }
    intros [] [y2 ic2 t2] [(c2 & ID2 & _) E]. cbn [lget lput lens_tx Fs.sb icache tx] in *. injection E as -> ->. by exists t2, c2. }
  unfold read_file. eapply (fs_seq (TL := TL1) anywhere); [by apply (begin_op_spec anywhere t c)|]. intros [] t1 [L1 Hq].
  pose proof (rest_idle y t c t1 ID VO L1 Hq) as Hre. fold lo n in Hre, L1.
  assert (forall t', at_rest (TL := TL1) lo n anywhere y t' c -> log_rep 1 lo n t' c) as Hrep by (intros t' [[L _ _] _ _ _]; exact L).
  eapply (chl_seq _ _ _ _ (fun ro s2 => exists nm, found (TL := TL1) lo n anywhere y c R (length ic) false (components path) w (ro, nm) s2)).
  { unfold namei. eapply chl_seq; [apply (namex_spec (TL := TL1) lo n anywhere y LY c TR dr R ic t1 wake cwd k0 path false (replicate (Z.to_nat DIRSIZ) 0)); try done;
      apply bytes_zeros|]. intros [ro nm] s2 Hf. cstep. by exists nm. }
  intros ro s2 (nm & ic2 & t2 & -> & Hre2 & L2 & Hf). destruct w as [k|] eqn:Ew; cbn [fst] in Hf.
  2: { destruct Hf as [-> C2]. eapply chl_seq; [by apply Hend; [apply Hrep|]|]. intros [] s3 (t3 & c3 & -> & ID3). cstep. split; [done|]. by exists ic2, t3, c3. }
  destruct Hf as (i & -> & C2 & A2 & _). specialize (Hw k eq_refl).
  eapply chl_seq; [by eapply (ilock_cached (TL := TL1) lo n anywhere y LY c)|]. intros [] s3 (ic3 & t3 & -> & Hre3 & L3 & C3 & A3).
  destruct (file_slot (TL := TL1) lo n anywhere y c TR _ ic3 t3 i k Hre3 C3 A3 Hw) as (x & Hi & Hop & FR & _ & Ec & _).
  pose proof (lookup_lt_Some _ _ _ Hi) as Hip. pose proof (readi_spec (TL := TL1) lo n anywhere y LY ic3 i Hip dr t3 c x 0 m Hop FR ltac:(apply Hre3) ltac:(lia) Hm) as Hrd.
  rewrite (list_insert_id ic3 i x Hi) in Hrd. eapply chl_seq; [exact Hrd|]. intros b s4 (-> & t4 & -> & Hop4).
  assert (at_rest (TL := TL1) lo n anywhere y t4 c) as Hre4 by (destruct Hop4, Hre3; by split).
  eapply chl_seq; [apply (iunlockput_cached (TL := TL1) lo n anywhere y c TR R ic3 t4 i k); try done; lia|]. intros [] s5 (ic5 & -> & L5 & C5 & _).
  eapply chl_seq; [by apply Hend; [apply Hrep|]|]. intros [] s6 (t6 & c6 & -> & ID6). cstep. split; [|by exists ic5, t6, c6].
  pose proof (fi_size _ _ _ FR) as Hs. change (MAXFILE * BSIZE) with 71680 in Hs. destruct (Z.ltb_spec (i_size x) 0); [lia|]. destruct (Z.leb_spec (2 ^ 32) (0 + m)); [lia|].
  cbn [orb fmap option_fmap option_map snd]. f_equal. rewrite <- Ec. unfold slice. change (Z.to_nat 0) with 0%nat. rewrite drop_0, Z.sub_0_r.
  pose proof (length_file_contents (view c) x). destruct (Z.min_spec m (i_size x)) as [[? ->]|[? ->]]; [done|]. rewrite !take_ge by lia. done.
Qed.
End start.

(** * From the image to the files *)

Lemma cached_zero y v : cached y v ∅ None icache_zero.
Proof.
  assert (forall i x, icache_zero !! i = Some x -> i_ref x = 0) as H.
  { intros i x Hi. apply lookup_replicate in Hi as [-> _]. done. }
  split; try done.
  - intros i x Hi. by rewrite (H i x Hi).
  - intros i x Hi. by rewrite (H i x Hi).
  - intros k Hk. by apply gmultiset_elem_of_empty in Hk.
  - intros i j k (x & Hx & Hr & _). by rewrite (H i x Hx) in Hr.
Qed.

Section first.
Context {B : Type} {BO : BlockOps B} {BL : BlockLaws B}.
Context (dr : Z -> option (nat -> Z -> Prelude.M (fsstate (lstate B)) (Z * list Z))).
Context (v : list block) (fb : Z) (files data : list (list Z)) (IM : image_of v fb files data) (Hfb : nmeta <= fb).
Hypothesis (Hlen : length data = length files) (Hn : Z.of_nat (length files) + 1 < NINODES).
Hypothesis (Hnames : Forall bytes files) (Hpart : Z.of_nat (length (root_bytes files)) mod BSIZE <> 0).
Context (mach : lstate B) (Hdisk : diskof (lb mach) = v) (y0 : superblock) (wake cwd : nat).

(** The file system at rest on the blocks of the image, log area aside. *)
Record on_image (t : lstate B) (c : cache) : Prop := {
  oi_idle : idle t c;
  oi_layout : layout (Log.start (lg t)) (lsize (lg t)) sb;
  oi_same : same_outside (Log.start (lg t)) (Log.start (lg t) + lsize (lg t)) (view c) v;
  oi_volume : volume sb c;
  oi_tree : tree sb (view c)
}.

Lemma boot_image : chl (fun _ => True) (fs_start (mkFs y0 icache_zero (log_powerfail mach))) (fun _ s' => exists t c, s' = mkFs sb icache_zero t /\ on_image t c).
Proof.
  pose proof (im_size _ _ _ _ IM) as Hv. change FSSIZE with 1000 in Hv.
  assert (forall b, 0 <= b < 1000 -> zlookup v b = Some (blk v b)) as Hblk.
  { intros b Hr. unfold blk. destruct (zlookup_range_Some v b) as [x ->]; [lia|done]. }
  pose proof (fs_start_spec y0 icache_zero mach (blk v 1) zeros) as HS. cbv zeta in HS. rewrite Hdisk, (im_super _ _ _ _ IM) in HS.
  change (sb_logstart sb) with 2 in HS. change (sb_nlog sb) with 30 in HS. eapply chl_conseq.
  { eapply chl_mono; [|intros ? ? H; exact H|apply HS]; try done; try lia; [apply Hblk; lia|rewrite Hblk by lia; by rewrite (im_log _ _ _ _ IM) by done]. }
  intros [] s1 (t & c & -> & ID & Hlo & Hsz & SO). clear HS. exists t, c. split; [done|]. rewrite <- Hlo, <- Hsz in SO.
  assert (layout (Log.start (lg t)) (lsize (lg t)) sb) as LY by (rewrite Hlo, Hsz; apply (im_layout _ _ _ _ IM)).
  split; [done|done|done| |eapply tree_outside; [done|done|]; by eapply (image_tree v fb files data)].
  pose proof (idle_view _ _ ID) as Ev. pose proof SO as [Hl _]. split; [rewrite <- Ev; change (sb_size sb) with 1000; lia|]. change (sb_bmapstart sb) with 58.
  intros b Hr. rewrite (used_outside _ _ _ LY v (view c)) by done. rewrite (im_used _ _ _ _ IM) by (change FSSIZE with 1000; lia). apply Z.ltb_lt. change nmeta with 59 in Hfb. lia.
Qed.

(** What a name in the root directory stands for. *)
Abbreviation entry nm := (dir_find (file_at sb v ROOTINO) (take (Z.to_nat DIRSIZ) nm)).
Lemma walk_root t c nm : on_image t c -> nm <> [] -> 47 ∉ nm ->
  walk sb (view c) false (if first_char (47 :: nm) =? 47 then ROOTINO else 0) (components (47 :: nm)) = snd <$> entry nm.
Proof.
  intros [_ LY SO _ _] H0 Hsl. rewrite (components_single nm H0 Hsl). change (first_char (47 :: nm) =? 47) with true. cbn iota.
  destruct (image_root v fb files data IM Hlen Hn Hpart) as (m & Er & Hk & _ & FRr & _). assert (live sb v ROOTINO) as Hroot by (split; [done|by rewrite Hk]).
  cbn [walk]. unfold kind. rewrite (disk_inode_outside _ _ _ LY v (view c) SO ROOTINO) by done. unfold kind in Hk. rewrite Hk. cbn [negb Z.eqb T_DIR andb].
  rewrite (file_outside _ _ _ LY v (view c) SO ROOTINO Hroot FRr). by destruct (entry nm) as [[j k]|].
Qed.

(** A kernel that starts on the image reads what the name stands for. *)
Lemma boot_read nm len :
  nm <> [] -> 47 ∉ nm -> is_text nm -> bytes nm -> 0 <= len < 2 ^ 32 ->
  (forall j k, entry nm = Some (j, k) -> exists i bs, data !! i = Some bs /\ k = Z.of_nat i + 2) ->
  exists s', run ((fs_start ;; read_file dr wake cwd (47 :: nm) len) (mkFs y0 icache_zero (log_powerfail mach))) =
    ROk ((fun e => take (Z.to_nat len) (file_at sb v e.2)) <$> entry nm) s'.
Proof.
  intros H0 Hsl Ht Hb Hm Hfind.
  assert (chl (fun _ => True) ((fs_start ;; read_file dr wake cwd (47 :: nm) len) (mkFs y0 icache_zero (log_powerfail mach)))
    (fun r _ => r = (fun e => take (Z.to_nat len) (file_at sb v e.2)) <$> entry nm)) as (r & s' & Hr & ->)%chl_run; [|by exists s'].
  eapply chl_seq; [apply boot_image|]. intros [] s1 (t & c & -> & OI). pose proof (walk_root t c nm OI H0 Hsl) as Ew. destruct OI as [ID LY SO VO TR].
  eapply chl_conseq.
  { apply (read_file_spec dr ∅ sb icache_zero t c wake cwd 0 (47 :: nm) len ID LY VO TR (cached_zero _ _)); try done; [by constructor|by constructor|vm_compute; lia|].
    rewrite Ew. intros k ([j k'] & Ee & ->)%fmap_Some. destruct (Hfind j k' Ee) as (i & bs & Hi & ->). cbn [snd].
    destruct (image_file v fb files data IM Hlen Hn i bs Hi) as ([Hr _] & _ & _ & FR & _).
    rewrite (disk_file_outside _ _ _ LY v (view c) SO) by lia. by apply (rep_outside _ _ _ LY v (view c) SO). }
  intros r s' [-> _]. rewrite Ew. destruct (entry nm) as [[j k]|]; [|done]. cbn [fmap option_fmap option_map snd]. destruct (Hfind j k eq_refl) as (i & bs & Hi & ->).
  destruct (image_file v fb files data IM Hlen Hn i bs Hi) as (Hl & _ & _ & FR & _). by rewrite (file_outside _ _ _ LY v (view c) SO _ Hl FR).
Qed.

(** A file of the image, by its name. *)
Lemma boot_file i f bs len :
  findable files i f -> 47 ∉ f -> is_text f -> data !! i = Some bs -> Z.of_nat (length bs) <= len < 2 ^ 32 ->
  exists s', run ((fs_start ;; read_file dr wake cwd (47 :: skip_underscore f) len) (mkFs y0 icache_zero (log_powerfail mach))) = ROk (Some bs) s'.
Proof.
  intros F Hsl Ht Hi Hm. destruct (image_root v fb files data IM Hlen Hn Hpart) as (m & Er & _). pose proof (fb_file _ _ _ F) as Hf.
  pose proof (proj1 (Forall_lookup _ _) Hnames i f Hf) as Hb.
  assert (47 ∉ skip_underscore f /\ is_text (skip_underscore f) /\ bytes (skip_underscore f)) as (Hsl' & Ht' & Hb').
  { unfold skip_underscore. destruct (first_char f =? 95); [|done]. destruct f as [|c f]; [done|]. cbn [tail]. apply not_elem_of_cons in Hsl as [_ Hsl].
    apply Forall_cons in Ht as [_ Ht]. apply Forall_cons in Hb as [_ Hb]. done. }
  assert (dir_find (file_at sb v ROOTINO) (take (Z.to_nat DIRSIZ) (skip_underscore f)) = Some (S (S i), Z.of_nat i + 2)) as E.
  { rewrite Er, <- cstr_text by done. by apply root_find. }
  destruct (boot_read (skip_underscore f) len) as (s' & Hr); try done; [apply F|lia| |].
  { intros j k. rewrite E. intros [= _ <-]. eauto. }
  exists s'. rewrite Hr, E. cbn [fmap option_fmap option_map snd].
  destruct (image_file v fb files data IM Hlen Hn i bs Hi) as (_ & _ & _ & _ & ->). by rewrite take_ge by lia.
Qed.

(** A name that is not in the image. *)
Lemma boot_none nm len :
  nm <> [] -> 47 ∉ nm -> is_text nm -> bytes nm -> 0 <= len < 2 ^ 32 -> take (Z.to_nat DIRSIZ) nm <> [46] -> take (Z.to_nat DIRSIZ) nm <> [46; 46] ->
  (forall f, f ∈ files -> stored f <> take (Z.to_nat DIRSIZ) nm) ->
  exists s', run ((fs_start ;; read_file dr wake cwd (47 :: nm) len) (mkFs y0 icache_zero (log_powerfail mach))) = ROk None s'.
Proof.
  intros H0 Hsl Ht Hb Hm Hd1 Hd2 Hno. destruct (image_root v fb files data IM Hlen Hn Hpart) as (m & Er & _).
  assert (dir_find (file_at sb v ROOTINO) (take (Z.to_nat DIRSIZ) nm) = None) as E.
  { rewrite Er. unfold dir_find. rewrite dents_root by done.
    assert (find_index (names_it (take (Z.to_nat DIRSIZ) nm)) ([(1, [46]); (1, [46; 46])] ++ file_dents 2 files ++ dents (replicate m 0)) = None) as ->; [|done].
    apply find_index_None. intros j e He%list_elem_of_lookup_2. apply elem_of_app in He as [He|He].
    { rewrite !elem_of_cons, elem_of_nil in He. destruct He as [->|[->|[]]]; by apply names_it_ne. }
    apply elem_of_app in He as [(k & Hk)%list_elem_of_lookup|He].
    - rewrite lookup_file_dents in Hk. apply fmap_Some in Hk as (f & Hf & ->). apply names_it_ne. cbn [snd]. by eapply Hno, list_elem_of_lookup_2.
    - apply (proj1 (Forall_forall _ _) (dents_zeros m)) in He. unfold names_it. by rewrite He. }
  destruct (boot_read nm len) as (s' & Hr); try done; [by rewrite E|]. exists s'. by rewrite Hr, E.
Qed.
End first.

Section theorem.
Context {B : Type} {BO : BlockOps B} {BL : BlockLaws B}.
Context (dr : Z -> option (nat -> Z -> Prelude.M (fsstate (lstate B)) (Z * list Z))).
Context (creat : list Z -> bool) (host : list Z -> option (list Z)).

(** C3. From mkfs to the running kernel.  [mkfs] ends normally on files that can be read, have no slash in their names and fit, with an image of whole blocks;
    and a kernel started on its image - [binit] and [ideinit], [iinit], [initlog], over any block
    cache that keeps the laws - finds, in the root directory, each file under its name without
    the leading underscore and cut to [DIRSIZ] characters, and reads exactly the bytes the host file had;
    a name of no file is not found.  mkfs.c, bio.c, log.c and fs.c agree on every detail of the format. *)
Theorem first_boot_reads arg0 image files data s :
  creat image = true -> Forall2 (acceptable host) files data -> Z.of_nat (length files) + 1 < NINODES ->
  nmeta + total ((T_DIR, root_bytes files) :: (pair T_FILE <$> data)) <= FSSIZE ->
  Forall bytes files -> Forall is_text files -> Z.of_nat (length (root_bytes files)) mod BSIZE <> 0 ->
  exists s', run (main creat host (arg0 :: image :: files) s) = ROk tt s' /\
    Z.of_nat (length (img s')) = FSSIZE /\ Forall (fun d => length d = 512%nat) (img s') /\
    forall (mach : lstate B) y0 wake cwd len, diskof (lb mach) = img s' -> MAXFILE * BSIZE <= len < 2 ^ 32 ->
      let boot_and_read nm := run ((fs_start ;; read_file dr wake cwd (47 :: nm) len) (mkFs y0 icache_zero (log_powerfail mach))) in
      (forall i f bs, findable files i f -> data !! i = Some bs -> exists k, boot_and_read (skip_underscore f) = ROk (Some bs) k) /\
      (forall nm, nm <> [] -> 47 ∉ nm -> is_text nm -> bytes nm -> take (Z.to_nat DIRSIZ) nm <> [46] -> take (Z.to_nat DIRSIZ) nm <> [46; 46] ->
        (forall f, f ∈ files -> stored f <> take (Z.to_nat DIRSIZ) nm) -> exists k, boot_and_read nm = ROk None k).
Proof.
  intros Hc HF Hn Hroom Hb Ht Hpart. destruct (run_main creat host arg0 image files data s Hc HF Hn Hroom) as (s' & Hr & Hfb & IM).
  pose proof (Forall2_length _ _ _ HF) as Hlen. exists s'. split; [done|]. split; [apply IM|]. split; [apply IM|]. intros mach y0 wake cwd len Hd Hm. change (MAXFILE * BSIZE) with 71680 in Hm.
  pose proof (total_nonneg ((T_DIR, root_bytes files) :: (pair T_FILE <$> data))) as H0. split.
  - intros i f bs F Hi. destruct (Forall2_lookup_lr _ _ _ _ _ _ HF (fb_file _ _ _ F) Hi) as [Hs _ Hsz].
    pose proof (proj1 (Forall_lookup _ _) Ht i f (fb_file _ _ _ F)). change (MAXFILE * BSIZE) with 71680 in Hsz.
    apply (boot_file dr _ _ files data IM ltac:(lia) (eq_sym Hlen) Hn Hb Hpart mach Hd y0 wake cwd i); try done. lia.
  - intros nm. intros. apply (boot_none dr _ _ files data IM ltac:(lia) (eq_sym Hlen) Hn Hb Hpart mach Hd y0 wake cwd); try done. lia.
Qed.
End theorem.

(** * The memory disk on an image *)

Lemma blocks_join v : Forall (fun d => length d = 512%nat) v -> Z.of_nat (length v) < 2 ^ 23 -> blocks (mjoin v) = v.
Proof.
  intros HF Hl. assert (forall w : list block, Forall (fun d => length d = 512%nat) w -> length (mjoin w) = (512 * length w)%nat) as Hj.
  { intros w H. induction H as [|d w Hd H IH]; [done|]. change (mjoin (d :: w)) with (d ++ mjoin w). rewrite length_app, Hd, IH. cbn [length]. lia. }
  assert (Memide.nblocks (mjoin v) = Z.of_nat (length v)) as Hb.
  { unfold Memide.nblocks. rewrite Hj by done. change BSIZE with 512. rewrite u32_small by lia. rewrite Nat2Z.inj_mul. change (Z.of_nat 512) with 512. rewrite Z.mul_comm. by apply Z.div_mul. }
  apply list_eq. intros i. unfold blocks. rewrite list_lookup_fmap, Hb, Nat2Z.id. destruct (v !! i) as [d|] eqn:Ei.
  - pose proof (lookup_lt_Some _ _ _ Ei). rewrite lookup_seq_lt by done. cbn [fmap option_fmap option_map Nat.add]. f_equal.
    rewrite <- (take_drop_middle v i d Ei) at 1. pose proof (proj1 (Forall_lookup _ _) HF i d Ei) as Hd. unfold slice. change BSIZE with 512.
    replace (Z.to_nat (Z.of_nat i * 512)) with (length (mjoin (take i v))) by (rewrite Hj by (by apply Forall_take); rewrite length_take; lia).
    rewrite join_app, drop_app_length. change (mjoin (d :: drop (S i) v)) with (d ++ mjoin (drop (S i) v)). change (Z.to_nat 512) with 512%nat. rewrite <- Hd. apply take_app_length.
  - rewrite lookup_ge_None_2; [done|]. apply lookup_ge_None in Ei. by rewrite length_seq.
Qed.

(** Two files, the second in thirteen blocks and stored without its underscore, on the memory disk. *)
Definition first_files : list (list Z) := [[97]; [95; 98]].
Definition first_host (f : list Z) : option (list Z) := if decide (f = [97]) then Some [1; 2; 3] else Some big.
Definition ram_machine (v : list block) : lstate (bstate ramdisk) := mkL log_zero (mkB bcache_zero (mkRam (mjoin v) 0)).

Lemma first_boot_reads_witness : exists s' k,
  run (main (fun _ => true) first_host ([] :: [] :: first_files) (mkMk [] 0 0)) = ROk tt s' /\
  run ((fs_start (BO := demo_ops) ;; read_file (BO := demo_ops) (fun _ => None) 0 0 [47; 98] 100000)
    (mkFs sb icache_zero (log_powerfail (BO := demo_ops) (ram_machine (img s'))))) = ROk (Some big) k.
Proof.
  destruct (first_boot_reads (BL := demo_laws) (fun _ => None) (fun _ => true) first_host [] [] first_files [[1; 2; 3]; big] (mkMk [] 0 0))
    as (s' & Hr & Hl & Hb & H).
  - reflexivity.
  - repeat constructor; try (vm_compute; discriminate); intros Hin; rewrite !elem_of_cons, elem_of_nil in Hin; intuition discriminate.
  - reflexivity.
  - vm_compute. discriminate.
  - repeat constructor; vm_compute; discriminate.
  - repeat constructor; discriminate.
  - vm_compute. discriminate.
  - destruct (H (ram_machine (img s')) sb 0%nat 0%nat 100000) as [Hf _].
    + apply blocks_join; [exact Hb|]. rewrite Hl. reflexivity.
    + split; [vm_compute; discriminate|reflexivity].
    + destruct (Hf 1%nat [95; 98] big) as [k Hk]; [|reflexivity|].
      * split; [reflexivity|discriminate|split; vm_compute; discriminate|]. intros [|j] g Hj; [intros [= <-]; vm_compute; discriminate|lia].
      * exists s', k. split; [exact Hr|exact Hk].
Defined.

(** The same image while an operation is under way. *)
Definition ram_tx : TxLaws (lstate (bstate ramdisk)) (TO := log_tx (BO := demo_ops)) := first_tx (BL := demo_laws).
Lemma first_image : exists v fb, image_of v fb first_files [[1; 2; 3]; big] /\ nmeta <= fb.
Proof.
  destruct (run_main (fun _ => true) first_host [] [] first_files [[1; 2; 3]; big] (mkMk [] 0 0)) as (s' & _ & Hfb & IM).
  - reflexivity.
  - repeat constructor; try (vm_compute; discriminate); intros Hin; rewrite !elem_of_cons, elem_of_nil in Hin; intuition discriminate.
  - reflexivity.
  - vm_compute. discriminate.
  - exists (img s'), (freeblock s'). split; [exact IM|]. rewrite Hfb. by vm_compute.
Qed.

Lemma namex_walk_witness : exists t r s',
  run (namex (TO := log_tx (BO := demo_ops)) (fun _ => None) 0 0 [47; 98] false (replicate 14 0) (mkFs sb icache_zero t)) = ROk r s' /\
  exists i, r.1 = Some i /\ at_slot (icache s') i 3.
Proof.
  destruct first_image as (v & fb & IM & Hfb).
  assert (diskof (BlockLaws := demo_laws) (lb (ram_machine v)) = v) as Hd.
  { apply blocks_join; [apply IM|]. rewrite (im_size _ _ _ _ IM). reflexivity. }
  pose proof (boot_image (BL := demo_laws) v fb first_files [[1; 2; 3]; big] IM Hfb eq_refl eq_refl ltac:(repeat constructor; vm_compute; discriminate)
    ltac:(vm_compute; discriminate) (ram_machine v) Hd sb) as ([] & s1 & _ & t & c & _ & OI)%chl_run.
  pose proof (walk_root (BL := demo_laws) v fb first_files [[1; 2; 3]; big] IM eq_refl eq_refl ltac:(vm_compute; discriminate) t c [98] OI ltac:(discriminate)
    ltac:(intros Hin%list_elem_of_singleton; discriminate)) as Ew.
  destruct (image_root v fb first_files [[1; 2; 3]; big] IM eq_refl eq_refl ltac:(vm_compute; discriminate)) as (m & Er & _).
  assert (findable first_files 1 [95; 98]) as F.
  { split; [reflexivity|discriminate|split; vm_compute; discriminate|]. intros [|j] g Hj; [intros [= <-]; vm_compute; discriminate|lia]. }
  pose proof (root_find first_files m 1 [95; 98] eq_refl F) as Ef. change (stored [95; 98]) with (take (Z.to_nat DIRSIZ) [98]) in Ef. rewrite Er, Ef in Ew.
  destruct OI as [ID LY _ VO TR].
  pose proof (begin_op_spec (BL := demo_laws) (fun _ => True) t c ID Logic.I) as ([] & t1 & _ & L1 & Hq)%chl_run.
  pose proof (rest_idle (BL := demo_laws) sb t c t1 ID VO L1 Hq) as Hre.
  destruct (namex_walk (TL := ram_tx) (Log.start (lg t)) (lsize (lg t)) (fun _ => True) sb LY c TR (fun _ => None) ∅ icache_zero t1 0 0 0 [47; 98] false (replicate 14 0) Hre
    (cached_zero _ _)) as (r & s' & Hr & ic' & t' & -> & _ & _ & Hf); try done.
  - repeat constructor; discriminate.
  - repeat constructor; vm_compute; discriminate.
  - repeat constructor; vm_compute; discriminate.
  - vm_compute. lia.
  - exists t1, r, (mkFs sb ic' t'). split; [exact Hr|]. rewrite Ew in Hf. destruct Hf as (i & Hi & _ & Ha & _). exists i. split; [exact Hi|exact Ha].
Defined.
