(* ===== verification/Devices.v ===== *)
(** Processors and interrupt controllers: mp.c, lapic.c, ioapic.c, picirq.c, timer.c and [uartinit].

    The devices are behind the interface [Hardware]: ports, memory-mapped registers and the flags of
    the processor.  The state has the memory the BIOS leaves its tables in and the variables of these
    files: [bcpu] is an index into [cpus], of which only the identifiers matter here, [lapic] the
    address of the registers of the local APIC, 0 if there is none.  [said] collects the messages of
    [cprintf].  Loops that wait for a device take fuel. *)

From Stdlib Require Import ZArith Lia.
From stdpp Require Import base tactics option gmap strings numbers list.
From S2P Require Import Prelude Mem Layout Trap.
Open Scope Z_scope.

Class Hardware (D : Type) := {
  inb : Z -> D -> Z * D;
  outb : Z -> Z -> D -> D;
  reg_read : Z -> D -> Z * D;
  reg_write : Z -> Z -> D -> D;
  readeflags : D -> Z
}.

Record machine (D : Type) := mkMachine {
  mmem : mem;
  hw : D;
  bcpu : Z;
  ismp : Z;
  ncpu : Z;
  ioapicid : Z;
  lapic : Z;
  cpu_id : list Z;
  irqmask : Z;
  ioapic : Z;
  uart : Z;
  warned : Z;
  said : list (string * list Z)
}.
Arguments mkMachine {D} mmem hw bcpu ismp ncpu ioapicid lapic cpu_id irqmask ioapic uart warned said.
Arguments mmem {D} m.
Arguments hw {D} m.
Arguments bcpu {D} m.
Arguments ismp {D} m.
Arguments ncpu {D} m.
Arguments ioapicid {D} m.
Arguments lapic {D} m.
Arguments cpu_id {D} m.
Arguments irqmask {D} m.
Arguments ioapic {D} m.
Arguments uart {D} m.
Arguments warned {D} m.
Arguments said {D} m.

Definition NCPU : Z := 8.
Definition IRQ_ERROR : Z := 19.
Definition FL_IF : Z := 0x200.

Section machine.
Context {D : Type} {H : Hardware D}.
Abbreviation M := (M (machine D)).

Definition set_mmem (v : mem) (m : machine D) : machine D :=
  mkMachine v (hw m) (bcpu m) (ismp m) (ncpu m) (ioapicid m) (lapic m) (cpu_id m) (irqmask m) (ioapic m) (uart m) (warned m) (said m).
Definition set_hw (v : D) (m : machine D) : machine D :=
  mkMachine (mmem m) v (bcpu m) (ismp m) (ncpu m) (ioapicid m) (lapic m) (cpu_id m) (irqmask m) (ioapic m) (uart m) (warned m) (said m).
Definition set_bcpu (v : Z) (m : machine D) : machine D :=
  mkMachine (mmem m) (hw m) v (ismp m) (ncpu m) (ioapicid m) (lapic m) (cpu_id m) (irqmask m) (ioapic m) (uart m) (warned m) (said m).
Definition set_ismp (v : Z) (m : machine D) : machine D :=
  mkMachine (mmem m) (hw m) (bcpu m) v (ncpu m) (ioapicid m) (lapic m) (cpu_id m) (irqmask m) (ioapic m) (uart m) (warned m) (said m).
Definition set_ncpu (v : Z) (m : machine D) : machine D :=
  mkMachine (mmem m) (hw m) (bcpu m) (ismp m) v (ioapicid m) (lapic m) (cpu_id m) (irqmask m) (ioapic m) (uart m) (warned m) (said m).
Definition set_ioapicid (v : Z) (m : machine D) : machine D :=
  mkMachine (mmem m) (hw m) (bcpu m) (ismp m) (ncpu m) v (lapic m) (cpu_id m) (irqmask m) (ioapic m) (uart m) (warned m) (said m).
Definition set_lapic (v : Z) (m : machine D) : machine D :=
  mkMachine (mmem m) (hw m) (bcpu m) (ismp m) (ncpu m) (ioapicid m) v (cpu_id m) (irqmask m) (ioapic m) (uart m) (warned m) (said m).
Definition set_cpu_id (v : list Z) (m : machine D) : machine D :=
  mkMachine (mmem m) (hw m) (bcpu m) (ismp m) (ncpu m) (ioapicid m) (lapic m) v (irqmask m) (ioapic m) (uart m) (warned m) (said m).
Definition set_irqmask (v : Z) (m : machine D) : machine D :=
  mkMachine (mmem m) (hw m) (bcpu m) (ismp m) (ncpu m) (ioapicid m) (lapic m) (cpu_id m) v (ioapic m) (uart m) (warned m) (said m).
Definition set_ioapic (v : Z) (m : machine D) : machine D :=
  mkMachine (mmem m) (hw m) (bcpu m) (ismp m) (ncpu m) (ioapicid m) (lapic m) (cpu_id m) (irqmask m) v (uart m) (warned m) (said m).
Definition set_uart (v : Z) (m : machine D) : machine D :=
  mkMachine (mmem m) (hw m) (bcpu m) (ismp m) (ncpu m) (ioapicid m) (lapic m) (cpu_id m) (irqmask m) (ioapic m) v (warned m) (said m).
Definition set_warned (v : Z) (m : machine D) : machine D :=
  mkMachine (mmem m) (hw m) (bcpu m) (ismp m) (ncpu m) (ioapicid m) (lapic m) (cpu_id m) (irqmask m) (ioapic m) (uart m) v (said m).
Definition set_said (v : list (string * list Z)) (m : machine D) : machine D :=
  mkMachine (mmem m) (hw m) (bcpu m) (ismp m) (ncpu m) (ioapicid m) (lapic m) (cpu_id m) (irqmask m) (ioapic m) (uart m) (warned m) v.

Definition in_port (p : Z) : M Z := fun m => let '(v, d) := inb p (hw m) in Ret v (set_hw d m).
Definition out_port (p v : Z) : M unit := modify (fun m => set_hw (outb p (u8 v) (hw m)) m).
Definition load_reg (a : Z) : M Z := fun m => let '(v, d) := reg_read (u32 a) (hw m) in Ret v (set_hw d m).
Definition store_reg (a v : Z) : M unit := modify (fun m => set_hw (reg_write (u32 a) (u32 v) (hw m)) m).
Definition cprintf (fmt : string) (args : list Z) : M unit := modify (fun m => set_said (said m ++ [(fmt, args)]) m).

(** * picirq.c *)

Definition IO_PIC1 : Z := 0x20.
Definition IO_PIC2 : Z := 0xA0.
Definition IRQ_SLAVE : Z := 2.
Definition irqmask0 : Z := Z.land 0xFFFF (Z.lnot (Z.shiftl 1 IRQ_SLAVE)).

Definition picsetmask (mask : Z) : M unit :=
  modify (set_irqmask mask) ;;
  out_port (IO_PIC1 + 1) mask ;;
  out_port (IO_PIC2 + 1) (Z.shiftr mask 8).
Definition picenable (irq : Z) : M unit :=
  mask <- gets irqmask ;;
  picsetmask (u16 (Z.land mask (Z.lnot (Z.shiftl 1 irq)))).
Definition picinit : M unit :=
  out_port (IO_PIC1 + 1) 0xFF ;;
  out_port (IO_PIC2 + 1) 0xFF ;;
  out_port IO_PIC1 0x11 ;;
  out_port (IO_PIC1 + 1) T_IRQ0 ;;
  out_port (IO_PIC1 + 1) (Z.shiftl 1 IRQ_SLAVE) ;;
  out_port (IO_PIC1 + 1) 0x3 ;;
  out_port IO_PIC2 0x11 ;;
  out_port (IO_PIC2 + 1) (T_IRQ0 + 8) ;;
  out_port (IO_PIC2 + 1) IRQ_SLAVE ;;
  out_port (IO_PIC2 + 1) 0x3 ;;
  out_port IO_PIC1 0x68 ;;
  out_port IO_PIC1 0x0a ;;
  out_port IO_PIC2 0x68 ;;
  out_port IO_PIC2 0x0a ;;
  mask <- gets irqmask ;;
  when (negb (mask =? 0xFFFF)) (picsetmask mask).

(** * ioapic.c *)

Definition IOAPIC : Z := 0xFEC00000.
Definition REG_ID : Z := 0x00.
Definition REG_VER : Z := 0x01.
Definition REG_TABLE : Z := 0x10.
Definition INT_DISABLED : Z := 0x00010000.

(** [reg] is the first word of [struct ioapic], [data] the fifth. *)
Definition ioapicread (reg : Z) : M Z :=
  a <- gets ioapic ;;
  store_reg a reg ;;
  load_reg (a + 16).
Definition ioapicwrite (reg data : Z) : M unit :=
  a <- gets ioapic ;;
  store_reg a reg ;;
  store_reg (a + 16) data.
Definition ioapicinit : M unit :=
  mp <- gets ismp ;;
  if mp =? 0 then ret tt else
  modify (set_ioapic IOAPIC) ;;
  ver <- ioapicread REG_VER ;;
  let maxintr := Z.land (Z.shiftr ver 16) 0xFF in
  r <- ioapicread REG_ID ;;
  let id := Z.shiftr r 24 in
  expected <- gets ioapicid ;;
  when (negb (id =? expected)) (cprintf "ioapicinit: id isn't equal to ioapicid; not a MP" []) ;;
  for_each (seqZ 0 (maxintr + 1)) (fun i =>
    ioapicwrite (REG_TABLE + 2 * i) (Z.lor INT_DISABLED (T_IRQ0 + i)) ;;
    ioapicwrite (REG_TABLE + 2 * i + 1) 0).
Definition ioapicenable (irq cpunum : Z) : M unit :=
  mp <- gets ismp ;;
  if mp =? 0 then ret tt else
  ioapicwrite (REG_TABLE + 2 * irq) (T_IRQ0 + irq) ;;
  ioapicwrite (REG_TABLE + 2 * irq + 1) (Z.shiftl cpunum 24).

(** * timer.c *)

Definition IO_TIMER1 : Z := 0x040.
Definition TIMER_FREQ : Z := 1193182.
Definition TIMER_DIV (x : Z) : Z := (TIMER_FREQ + x / 2) / x.
Definition TIMER_MODE : Z := IO_TIMER1 + 3.
Definition TIMER_SEL0 : Z := 0x00.
Definition TIMER_RATEGEN : Z := 0x04.
Definition TIMER_16BIT : Z := 0x30.
Definition timerinit : M unit :=
  out_port TIMER_MODE (Z.lor (Z.lor TIMER_SEL0 TIMER_RATEGEN) TIMER_16BIT) ;;
  out_port IO_TIMER1 (TIMER_DIV 100 mod 256) ;;
  out_port IO_TIMER1 (TIMER_DIV 100 / 256) ;;
  picenable IRQ_TIMER.

(** * uart.c *)

Definition COM1 : Z := 0x3f8.
(** [for (i = 0; i < 128 && !(inb(COM1 + 5) & 0x20); i++) microdelay(10);] *)
Fixpoint uart_wait (n : nat) : M unit :=
  match n with
  | O => ret tt
  | S n =>
      r <- in_port (COM1 + 5) ;;
      if Z.land r 0x20 =? 0 then uart_wait n else ret tt
  end.
Definition uartputc (c : Z) : M unit :=
  u <- gets uart ;;
  if u =? 0 then ret tt else
  uart_wait 128 ;;
  out_port (COM1 + 0) c.
Definition uartinit : M unit :=
  out_port (COM1 + 2) 0 ;;
  out_port (COM1 + 3) 0x80 ;;
  out_port (COM1 + 0) (115200 / 9600) ;;
  out_port (COM1 + 1) 0 ;;
  out_port (COM1 + 3) 0x03 ;;
  out_port (COM1 + 4) 0 ;;
  out_port (COM1 + 1) 0x01 ;;
  st <- in_port (COM1 + 5) ;;
  if st =? 0xFF then ret tt else
  modify (set_uart 1) ;;
  in_port (COM1 + 2) ;;
  in_port (COM1 + 0) ;;
  picenable IRQ_COM1 ;;
  ioapicenable IRQ_COM1 0 ;;
  for_each [120; 118; 54; 46; 46; 46; 10] uartputc.

(** * lapic.c *)

Definition ID : Z := 0x0020 / 4.
Definition VER : Z := 0x0030 / 4.
Definition TPR : Z := 0x0080 / 4.
Definition EOI : Z := 0x00B0 / 4.
Definition SVR : Z := 0x00F0 / 4.
Definition ENABLE : Z := 0x00000100.
Definition ESR : Z := 0x0280 / 4.
Definition ICRLO : Z := 0x0300 / 4.
Definition INIT : Z := 0x00000500.
Definition STARTUP : Z := 0x00000600.
Definition DELIVS : Z := 0x00001000.
Definition ASSERT : Z := 0x00004000.
Definition LEVEL : Z := 0x00008000.
Definition BCAST : Z := 0x00080000.
Definition ICRHI : Z := 0x0310 / 4.
Definition TIMER : Z := 0x0320 / 4.
Definition X1 : Z := 0x0000000B.
Definition PERIODIC : Z := 0x00020000.
Definition PCINT : Z := 0x0340 / 4.
Definition LINT0 : Z := 0x0350 / 4.
Definition LINT1 : Z := 0x0360 / 4.
Definition ERROR : Z := 0x0370 / 4.
Definition MASKED : Z := 0x00010000.
Definition TICR : Z := 0x0380 / 4.
Definition TDCR : Z := 0x03E0 / 4.

(** [lapic[index]] *)
Definition lapic_read (index : Z) : M Z := a <- gets lapic ;; load_reg (a + 4 * index).
Definition lapicw (index value : Z) : M unit :=
  a <- gets lapic ;;
  store_reg (a + 4 * index) value ;;
  lapic_read ID ;;
  ret tt.

(** [while (lapic[ICRLO] & DELIVS);] *)
Fixpoint wait_delivery (fuel : nat) : M unit :=
  r <- lapic_read ICRLO ;;
  if Z.land r DELIVS =? 0 then ret tt else
  match fuel with O => nofuel | S fuel => wait_delivery fuel end.

Definition lapicinit (fuel : nat) : M unit :=
  a <- gets lapic ;;
  if a =? 0 then ret tt else
  lapicw SVR (Z.lor ENABLE (T_IRQ0 + IRQ_SPURIOUS)) ;;
  lapicw TDCR X1 ;;
  lapicw TIMER (Z.lor PERIODIC (T_IRQ0 + IRQ_TIMER)) ;;
  lapicw TICR 10000000 ;;
  lapicw LINT0 MASKED ;;
  lapicw LINT1 MASKED ;;
  ver <- lapic_read VER ;;
  when (4 <=? Z.land (Z.shiftr ver 16) 0xFF) (lapicw PCINT MASKED) ;;
  lapicw ERROR (T_IRQ0 + IRQ_ERROR) ;;
  lapicw ESR 0 ;;
  lapicw ESR 0 ;;
  lapicw EOI 0 ;;
  lapicw ICRHI 0 ;;
  lapicw ICRLO (Z.lor (Z.lor BCAST INIT) LEVEL) ;;
  wait_delivery fuel ;;
  lapicw TPR 0.

(** [ra] is the return address that is printed; [n++ == 0] is the test of [warned]. *)
Definition cpunum (ra : Z) : M Z :=
  fl <- gets (fun m => readeflags (hw m)) ;;
  when (negb (Z.land fl FL_IF =? 0)) (
    n <- gets warned ;;
    modify (set_warned (n + 1)) ;;
    when (n =? 0) (cprintf "cpu called from %x with interrupts enabled" [ra])) ;;
  a <- gets lapic ;;
  if negb (a =? 0) then r <- lapic_read ID ;; ret (Z.shiftr r 24) else ret 0.

Definition lapiceoi : M unit :=
  a <- gets lapic ;;
  when (negb (a =? 0)) (lapicw EOI 0).

Definition CMOS_PORT : Z := 0x70.
Definition CMOS_RETURN : Z := 0x71.
(** [wrv[0] = x; wrv[1] = y;] on words of 16 bits *)
Definition put_wrv (x y : Z) : M unit :=
  let wrv := u32 (Z.lor (Z.shiftl 0x40 4) 0x67 + KERNBASE) in
  modify (fun m => set_mmem (st_bytes (mmem m) wrv [u8 x; u8 (Z.shiftr x 8); u8 y; u8 (Z.shiftr y 8)]) m).
Definition lapicstartap (apicid addr : Z) : M unit :=
  out_port CMOS_PORT 0xF ;;
  out_port (CMOS_PORT + 1) 0x0A ;;
  put_wrv 0 (u16 (Z.shiftr addr 4)) ;;
  lapicw ICRHI (Z.shiftl apicid 24) ;;
  lapicw ICRLO (Z.lor (Z.lor INIT LEVEL) ASSERT) ;;
  lapicw ICRLO (Z.lor INIT LEVEL) ;;
  for_each (seqZ 0 2) (fun _ =>
    lapicw ICRHI (Z.shiftl apicid 24) ;;
    lapicw ICRLO (Z.lor STARTUP (Z.shiftr addr 12))).

Definition CMOS_STATA : Z := 0x0a.
Definition CMOS_STATB : Z := 0x0b.
Definition CMOS_UIP : Z := Z.shiftl 1 7.
Definition SECS : Z := 0x00.
Definition MINS : Z := 0x02.
Definition HOURS : Z := 0x04.
Definition DAY : Z := 0x07.
Definition MONTH : Z := 0x08.
Definition YEAR : Z := 0x09.

Record rtcdate := mkDate { second : Z; minute : Z; hour : Z; day : Z; month : Z; year : Z }.
#[global] Instance rtcdate_eq : EqDecision rtcdate.
Proof. solve_decision. Defined.

Definition cmos_read (reg : Z) : M Z :=
  out_port CMOS_PORT reg ;;
  in_port CMOS_RETURN.
Definition fill_rtcdate : M rtcdate :=
  s <- cmos_read SECS ;;
  i <- cmos_read MINS ;;
  h <- cmos_read HOURS ;;
  d <- cmos_read DAY ;;
  o <- cmos_read MONTH ;;
  y <- cmos_read YEAR ;;
  ret (mkDate s i h d o y).

(** [for (;;)] until two reads agree *)
Fixpoint stable_date (fuel : nat) : M rtcdate :=
  t1 <- fill_rtcdate ;;
  a <- cmos_read CMOS_STATA ;;
  let again := match fuel with O => nofuel | S fuel => stable_date fuel end in
  if negb (Z.land a CMOS_UIP =? 0) then again else
  t2 <- fill_rtcdate ;;
  if bool_decide (t1 = t2) then ret t1 else again.
Definition CONV (x : Z) : Z := u32 (Z.shiftr x 4 * 10 + Z.land x 0xf).
Definition cmostime (fuel : nat) : M rtcdate :=
  sb <- cmos_read CMOS_STATB ;;
  let bcd := Z.land sb (Z.shiftl 1 2) =? 0 in
  t1 <- stable_date fuel ;;
  let t1 := if bcd then mkDate (CONV (second t1)) (CONV (minute t1)) (CONV (hour t1)) (CONV (day t1)) (CONV (month t1)) (CONV (year t1)) else t1 in
  ret (mkDate (second t1) (minute t1) (hour t1) (day t1) (month t1) (u32 (year t1 + 2000))).

(** * mp.c *)

Definition MPBOOT : Z := 0x02.
Definition MPPROC : Z := 0x00.
Definition MPBUS : Z := 0x01.
Definition MPIOAPIC : Z := 0x02.
Definition MPIOINTR : Z := 0x03.
Definition MPLINTR : Z := 0x04.

Definition ld16 (m : mem) (a : Z) : Z := ld8 m a + 2 ^ 8 * ld8 m (a + 1).

Definition mpbcpu : M Z := gets bcpu.

Fixpoint sum_loop (m : mem) (addr : Z) (len : nat) (sum : Z) : Z :=
  match len with
  | O => sum
  | S len => sum_loop m (addr + 1) len (sum + ld8 m addr)
  end.
Definition sum (m : mem) (addr len : Z) : Z := u8 (sum_loop m addr (Z.to_nat len) 0).

(** [memcmp(p, s, n) == 0] for a string of the program *)
Definition mem_is (m : mem) (p : Z) (s : list Z) : bool := bool_decide (ld_bytes m p (length s) = s).

(** Offsets of [struct mp]: [physaddr] 4, [imcrp] 12, size 16; of [struct mpconf]: [length] 4,
    [version] 6, [lapicaddr] 36, size 44; entries: [apicid] and [apicno] 1, [flags] 3. *)
Definition MP_SIZE : Z := 16.
Definition MPCONF_SIZE : Z := 44.
Definition mp_sig : list Z := [95; 77; 80; 95].
Definition conf_sig : list Z := [80; 67; 77; 80].

(** [n] entries of [MP_SIZE] bytes from [p]. *)
Fixpoint mpsearch1_loop (m : mem) (p : Z) (n : nat) : Z :=
  match n with
  | O => 0
  | S n => if mem_is m p mp_sig && (sum m p MP_SIZE =? 0) then p else mpsearch1_loop m (p + MP_SIZE) n
  end.
Definition mpsearch1 (m : mem) (a len : Z) : Z := mpsearch1_loop m (p2v a) (Z.to_nat (len / MP_SIZE)).

Definition mpsearch (m : mem) : Z :=
  let bda := p2v 0x400 in
  let p := Z.shiftl (Z.lor (Z.shiftl (ld8 m (bda + 0x0F)) 8) (ld8 m (bda + 0x0E))) 4 in
  let mp :=
    if negb (p =? 0) then mpsearch1 m p 1024
    else mpsearch1 m (u32 (Z.lor (Z.shiftl (ld8 m (bda + 0x14)) 8) (ld8 m (bda + 0x13)) * 1024 - 1024)) 1024 in
  if negb (mp =? 0) then mp else mpsearch1 m 0xF0000 0x10000.

(** The table and [*pmp]. *)
Definition mpconfig (m : mem) : option (Z * Z) :=
  let mp := mpsearch m in
  if (mp =? 0) || (ld32 m (mp + 4) =? 0) then None else
  let conf := p2v (ld32 m (mp + 4)) in
  if negb (mem_is m conf conf_sig) then None else
  let version := ld8 m (conf + 6) in
  if negb (version =? 1) && negb (version =? 4) then None else
  if negb (sum m conf (ld16 m (conf + 4)) =? 0) then None else
  Some (conf, mp).

(** One round of the loop, by the type of the entry at [p]; the pointer to the next entry. *)
Definition mp_entry (p : Z) : M Z :=
  s <- gets mmem ;;
  let t := ld8 s p in
  if t =? MPPROC then
    n <- gets ncpu ;;
    when (negb (n =? ld8 s (p + 1))) (
      cprintf "mpinit: ncpu=%d apicid=%d" [n; ld8 s (p + 1)] ;;
      modify (set_ismp 0)) ;;
    when (negb (Z.land (ld8 s (p + 3)) MPBOOT =? 0)) (modify (set_bcpu n)) ;;
    ids <- gets cpu_id ;;
    if negb (n <? Z.of_nat (length ids)) then undef "cpus[ncpu]" else
    modify (set_cpu_id (zinsert n (u8 n) ids)) ;;
    modify (set_ncpu (n + 1)) ;;
    ret (p + 20)
  else if t =? MPIOAPIC then
    modify (set_ioapicid (ld8 s (p + 1))) ;;
    ret (p + 8)
  else if (t =? MPBUS) || (t =? MPIOINTR) || (t =? MPLINTR) then ret (p + 8)
  else
    cprintf "mpinit: unknown config type %x" [t] ;;
    modify (set_ismp 0) ;;
    ret p.
Fixpoint mp_entries (fuel : nat) (p e : Z) : M unit :=
  if p <? e then
    match fuel with
    | O => nofuel
    | S fuel => p <- mp_entry p ;; mp_entries fuel p e
    end
  else ret tt.

Definition mpinit (fuel : nat) : M unit :=
  modify (set_bcpu 0) ;;
  s <- gets mmem ;;
  match mpconfig s with
  | None => ret tt
  | Some (conf, mp) =>
      modify (set_ismp 1) ;;
      modify (set_lapic (ld32 s (conf + 36))) ;;
      mp_entries fuel (conf + MPCONF_SIZE) (conf + ld16 s (conf + 4)) ;;
      mp1 <- gets ismp ;;
      if mp1 =? 0 then
        modify (set_ncpu 1) ;;
        modify (set_lapic 0) ;;
        modify (set_ioapicid 0)
      else when (negb (ld8 s (mp + 12) =? 0)) (
        out_port 0x22 0x70 ;;
        v <- in_port 0x23 ;;
        out_port 0x23 (Z.lor v 1))
  end.
End machine.
