(* ===== verification/MpFacts.v ===== *)
(** The survey of the processors (mp.c).

    A configuration table is a list of entries in memory.  [mpinit] reads such a table to its end,
    counts the processors, and keeps the result only if their APIC identifiers are 0, 1, 2 and so on
    in the order of the table. *)

From Stdlib Require Import ZArith Lia.
From stdpp Require Import base tactics option gmap strings numbers list.
From S2P Require Import Prelude Mem Layout Trap Devices.
Open Scope Z_scope.

(** * Tables *)

(** [EOther] is a bus or an interrupt assignment. *)
Inductive entry := EProc (apicid flags : Z) | EIoapic (apicno : Z) | EOther (type : Z).
Definition entry_size (e : entry) : Z := match e with EProc _ _ => 20 | _ => 8 end.
Definition table_size (es : list entry) : Z := foldr (fun e n => entry_size e + n) 0 es.

Definition entry_at (m : mem) (p : Z) (e : entry) : Prop :=
  match e with
  | EProc id fl => ld8 m p = MPPROC /\ ld8 m (p + 1) = id /\ ld8 m (p + 3) = fl
  | EIoapic no => ld8 m p = MPIOAPIC /\ ld8 m (p + 1) = no
  | EOther t => ld8 m p = t /\ t ∈ [MPBUS; MPIOINTR; MPLINTR]
  end.
Fixpoint table_at (m : mem) (p : Z) (es : list entry) : Prop :=
  match es with
  | [] => True
  | e :: es => entry_at m p e /\ table_at m (p + entry_size e) es
  end.

(** What the table says. *)
Definition procs (es : list entry) : list (Z * Z) := omap (fun e => match e with EProc id fl => Some (id, fl) | _ => None end) es.
Definition numbered (n : Z) (ps : list (Z * Z)) : bool := bool_decide (ps.*1 = seqZ n (Z.of_nat (length ps))).
(** The last of the processors [n], [n + 1] and so on that is marked as the one that booted, else [b]. *)
Definition booted (n b : Z) (ps : list (Z * Z)) : Z :=
  foldl (fun b q => if Z.land q.2.2 MPBOOT =? 0 then b else q.1) b (zip (seqZ n (Z.of_nat (length ps))) ps).
Definition last_ioapic (io : Z) (es : list entry) : Z := foldl (fun a e => match e with EIoapic no => no | _ => a end) io es.

Lemma table_size_nonneg es : 0 <= table_size es.
Proof. unfold table_size. induction es as [|[] es IH]; cbn [foldr entry_size]; lia. Qed.
Lemma numbered_cons n id fl ps : numbered n ((id, fl) :: ps) = (n =? id) && numbered (n + 1) ps.
Proof.
  unfold numbered. cbn [fmap list_fmap length fst]. rewrite seqZ_cons by lia. replace (Z.pred (Z.of_nat (S (length ps)))) with (Z.of_nat (length ps)) by lia.
  fold (Z.add n 1). destruct (Z.eqb_spec n id) as [->|Hne]; cbn [andb].
  - apply bool_decide_ext. split; [by intros [= ->]|by intros ->].
  - apply bool_decide_eq_false_2. intros [= E _]. done.
Qed.
Lemma booted_cons n b id fl ps : booted n b ((id, fl) :: ps) = booted (n + 1) (if Z.land fl MPBOOT =? 0 then b else n) ps.
Proof.
  unfold booted. cbn [length]. rewrite seqZ_cons by lia. replace (Z.pred (Z.of_nat (S (length ps)))) with (Z.of_nat (length ps)) by lia. done.
Qed.

Section mp.
Context {D : Type} {H : Hardware D}.
Abbreviation machine := (machine D).

(** * The loop *)

(** The entry in the variables of mp.c. *)
Definition note (m : machine) (e : entry) : machine :=
  match e with
  | EProc id fl =>
      let n := ncpu m in
      let m := if n =? id then m else set_ismp 0 (set_said (said m ++ [("mpinit: ncpu=%d apicid=%d", [n; id])]) m) in
      let m := if Z.land fl MPBOOT =? 0 then m else set_bcpu n m in
      set_ncpu (n + 1) (set_cpu_id (zinsert n (u8 n) (cpu_id m)) m)
  | EIoapic no => set_ioapicid no m
  | EOther _ => m
  end.

Lemma note_fields m e : mmem (note m e) = mmem m /\ hw (note m e) = hw m /\ lapic (note m e) = lapic m /\ length (cpu_id (note m e)) = length (cpu_id m).
Proof.
  destruct e as [id fl|no|t]; cbn [note]; [|done..]. destruct (ncpu m =? id), (Z.land fl MPBOOT =? 0); cbn; by rewrite length_zinsert.
Qed.

Lemma run_mp_entry m p e :
  entry_at (mmem m) p e -> ncpu m < Z.of_nat (length (cpu_id m)) \/ (forall id fl, e <> EProc id fl) ->
  run (mp_entry p m) = ROk (p + entry_size e) (note m e).
Proof.
  intros He Hn. unfold mp_entry. destruct e as [id fl|no|t].
  - destruct He as (E0 & E1 & E3), Hn as [Hn|Hn]; [|by destruct (Hn id fl)]. rewrite run_bind. cbn [gets run rbind]. rewrite E0, E1, E3.
    cbn [Z.eqb MPPROC]. cbn [note entry_size]. rewrite run_bind. cbn [gets run rbind].
    destruct (Z.eqb_spec (ncpu m) id), (Z.eqb_spec (Z.land fl MPBOOT) 0); cbn -[Z.ltb zinsert Z.of_nat]; rewrite (proj2 (Z.ltb_lt _ _) Hn); done.
  - destruct He as (E0 & E1). rewrite run_bind. cbn [gets run rbind]. rewrite E0, E1. done.
  - destruct He as (E0 & Ht). rewrite run_bind. cbn [gets run rbind]. rewrite E0. rewrite !elem_of_cons in Ht.
    by destruct Ht as [-> | [-> | [-> | Ht]]]; [..|by apply not_elem_of_nil in Ht].
Qed.

(** The entries of the table, with fuel for each. *)
Lemma run_mp_entries es fuel p e m :
  table_at (mmem m) p es -> ncpu m + Z.of_nat (length (procs es)) <= Z.of_nat (length (cpu_id m)) -> p + table_size es <= e ->
  run (mp_entries (length es + fuel) p e m) = run (mp_entries fuel (p + table_size es) e (foldl note m es)).
Proof.
  revert p m. induction es as [|x es IH]; intros p m Ht Hn He.
  - cbn. by rewrite Z.add_0_r.
  - destruct Ht as [Hx Ht]. change (table_size (x :: es)) with (entry_size x + table_size es) in *. destruct (note_fields m x) as (F1 & F2 & F3 & F4).
    pose proof (table_size_nonneg es).
    assert (0 < entry_size x) by (by destruct x). cbn [length Nat.add mp_entries foldl]. destruct (Z.ltb_spec p e); [|lia].
    assert (ncpu (note m x) + Z.of_nat (length (procs es)) <= Z.of_nat (length (cpu_id m)) /\ (ncpu m < Z.of_nat (length (cpu_id m)) \/ (forall id fl, x <> EProc id fl))) as [Hn1 Hn2].
    { destruct x as [id fl|no|t]; cbn [procs omap list_omap length] in Hn; fold (procs es) in Hn; cbn [note]; [|split; [done|by right]..].
      destruct (ncpu m =? id), (Z.land fl MPBOOT =? 0); cbn [ncpu set_ncpu]; (split; [|left]); lia. }
    rewrite run_bind, (run_mp_entry m p x) by done. cbn [rbind]. rewrite IH; [by rewrite Z.add_assoc|by rewrite F1|by rewrite F4|lia].
Qed.

(** * What the loop leaves *)

Record surveyed (es : list entry) (m m' : machine) : Prop := {
  su_ncpu : ncpu m' = ncpu m + Z.of_nat (length (procs es));
  su_ismp : ismp m' = if numbered (ncpu m) (procs es) then ismp m else 0;
  su_bcpu : bcpu m' = booted (ncpu m) (bcpu m) (procs es);
  su_ioapic : ioapicid m' = last_ioapic (ioapicid m) es;
  su_ids : forall j, zlookup (cpu_id m') j = if (ncpu m <=? j) && (j <? ncpu m') then Some (u8 j) else zlookup (cpu_id m) j;
  su_same : mmem m' = mmem m /\ hw m' = hw m /\ lapic m' = lapic m
}.

Lemma survey es m :
  0 <= ncpu m -> ncpu m + Z.of_nat (length (procs es)) <= Z.of_nat (length (cpu_id m)) -> surveyed es m (foldl note m es).
Proof.
  revert m. induction es as [|x es IH]; intros m H0 Hn.
  - split; [cbn; lia|done|done|done| |done]. cbn [foldl].
    intros j. destruct (Z.leb_spec (ncpu m) j), (Z.ltb_spec j (ncpu m)); try done; lia.
  - cbn [foldl]. destruct (note_fields m x) as (F1 & F2 & F3 & F4). destruct x as [id fl|no|t].
    + cbn [procs omap list_omap length] in Hn. fold (procs es) in Hn.
      assert (ncpu (note m (EProc id fl)) = ncpu m + 1) as En by (cbn [note]; by destruct (ncpu m =? id), (Z.land fl MPBOOT =? 0)).
      destruct (IH (note m (EProc id fl))) as [A B C E F G]; [lia|rewrite F4; lia|]. rewrite En in *.
      split; change (procs (EProc id fl :: es)) with ((id, fl) :: procs es).
      * rewrite A. cbn [length]. lia.
      * rewrite B, numbered_cons. cbn [note]. destruct (ncpu m =? id), (numbered _ _), (Z.land fl MPBOOT =? 0); done.
      * rewrite C, booted_cons. f_equal. cbn [note]. by destruct (ncpu m =? id), (Z.land fl MPBOOT =? 0).
      * rewrite E. unfold last_ioapic at 2. cbn [foldl]. f_equal. cbn [note]. by destruct (ncpu m =? id), (Z.land fl MPBOOT =? 0).
      * intros j. rewrite F. assert (cpu_id (note m (EProc id fl)) = zinsert (ncpu m) (u8 (ncpu m)) (cpu_id m)) as ->.
        { cbn [note]. by destruct (ncpu m =? id), (Z.land fl MPBOOT =? 0). }
        destruct (decide (j = ncpu m)) as [->|Hne].
        -- rewrite zlookup_zinsert_eq by lia. destruct (Z.leb_spec (ncpu m + 1) (ncpu m)), (Z.leb_spec (ncpu m) (ncpu m)), (Z.ltb_spec (ncpu m) (ncpu (foldl note (note m (EProc id fl)) es))); (done || lia).
        -- rewrite zlookup_zinsert_ne by lia. destruct (Z.leb_spec (ncpu m + 1) j), (Z.leb_spec (ncpu m) j); (done || lia).
      * by rewrite F1, F2, F3 in G.
    + destruct (IH (note m (EIoapic no))) as [A B C E F G]; [done|done|]. by split.
    + destruct (IH (note m (EOther t))) as [A B C E F G]; [done|done|]. by split.
Qed.

(** * mpinit *)

(** The mask of the IMCR, if the machine has one. *)
Definition imcr (present : bool) (d : D) : D :=
  if present then let '(v, d) := inb 0x23 (outb 0x22 0x70 d) in outb 0x23 (u8 (Z.lor v 1)) d else d.

Record configured (es : list entry) (conf mp : Z) (m m' : machine) : Prop := {
  cf_ismp : ismp m' = if numbered 0 (procs es) then 1 else 0;
  cf_ncpu : ncpu m' = if numbered 0 (procs es) then Z.of_nat (length (procs es)) else 1;
  cf_lapic : lapic m' = if numbered 0 (procs es) then ld32 (mmem m) (conf + 36) else 0;
  cf_ioapic : ioapicid m' = if numbered 0 (procs es) then last_ioapic (ioapicid m) es else 0;
  cf_bcpu : bcpu m' = booted 0 0 (procs es);
  cf_ids : forall j, 0 <= j < Z.of_nat (length (procs es)) -> zlookup (cpu_id m') j = Some j;
  cf_hw : hw m' = imcr (numbered 0 (procs es) && negb (ld8 (mmem m) (mp + 12) =? 0)) (hw m)
}.

(** An entry of unknown type is read again and again. *)
Lemma unknown_loops fuel p e (m : machine) : p < e -> 4 < ld8 (mmem m) p -> run (mp_entries fuel p e m) = RFuel.
Proof.
  intros Hp. revert m. induction fuel as [|fuel IH]; intros m Ht; cbn [mp_entries]; (destruct (Z.ltb_spec p e); [|lia]); [done|].
  rewrite run_bind. unfold mp_entry. rewrite run_bind. cbn [gets run rbind].
  assert (forall c, c <= 4 -> (ld8 (mmem m) p =? c) = false) as Hne by (intros c Hc; apply Z.eqb_neq; lia).
  rewrite !Hne by done. cbn [orb]. rewrite run_bind. cbn [cprintf modify run rbind]. rewrite run_bind. cbn [modify run ret rbind]. by apply IH.
Qed.

Section table.
Context (es : list entry) (conf mp : Z) (m : machine).
Hypothesis Hconf : mpconfig (mmem m) = Some (conf, mp).
Hypothesis Htab : table_at (mmem m) (conf + MPCONF_SIZE) es.
Hypothesis (Hn : ncpu m = 0) (Hids : Z.of_nat (length (cpu_id m)) = NCPU) (Hmax : Z.of_nat (length (procs es)) <= NCPU).
Let e : Z := conf + ld16 (mmem m) (conf + 4).
Let p : Z := conf + MPCONF_SIZE + table_size es.
Let m1 : machine := set_lapic (ld32 (mmem m) (conf + 36)) (set_ismp 1 (set_bcpu 0 m)).

Lemma mpinit_table fuel :
  p <= e -> run (mpinit (length es + fuel) m) =
  rbind (run (mp_entries fuel p e (foldl note m1 es))) (fun _ s =>
    run ((mp1 <- gets ismp ;;
      if mp1 =? 0 then modify (set_ncpu 1) ;; modify (set_lapic 0) ;; modify (set_ioapicid 0)
      else when (negb (ld8 (mmem m) (mp + 12) =? 0)) (out_port 0x22 0x70 ;; v <- in_port 0x23 ;; out_port 0x23 (Z.lor v 1))) s)).
Proof.
  intros Hp. unfold mpinit. rewrite run_bind. cbn [modify run rbind]. rewrite run_bind. cbn [gets run rbind]. change (mmem (set_bcpu 0 m)) with (mmem m).
  rewrite Hconf. rewrite run_bind. cbn [modify run rbind]. rewrite run_bind. cbn [modify run rbind]. rewrite run_bind. fold m1.
  rewrite (run_mp_entries es); [done|done|cbn [m1 set_lapic set_ismp set_bcpu ncpu cpu_id]; rewrite Hn; lia|done].
Qed.

Lemma mpinit_ends fuel : p = e -> exists m', run (mpinit (length es + fuel) m) = ROk tt m' /\ configured es conf mp m m'.
Proof.
  intros Hp. rewrite mpinit_table by lia. destruct (survey es m1) as [A B C E F (G1 & G2 & G3)]; [cbn; lia|cbn [m1 set_lapic set_ismp set_bcpu ncpu cpu_id]; rewrite Hn; lia|].
  set (m2 := foldl note m1 es) in *. cbn [m1 set_lapic set_ismp set_bcpu ncpu ismp bcpu ioapicid cpu_id mmem hw lapic] in A, B, C, E, F, G1, G2, G3. rewrite Hn in *.
  assert (run (mp_entries fuel p e m2) = ROk tt m2) as R by (destruct fuel; cbn [mp_entries]; by destruct (Z.ltb_spec p e); [lia|]). rewrite R. cbn [rbind].
  assert (forall j, 0 <= j < Z.of_nat (length (procs es)) -> zlookup (cpu_id m2) j = Some j) as Hj.
  { intros j Hj. rewrite F, A. destruct (Z.leb_spec 0 j), (Z.ltb_spec j (0 + Z.of_nat (length (procs es)))); try lia. cbn [andb]. f_equal. change NCPU with 8 in Hmax.
    unfold u8. apply Z.mod_small. lia. }
  rewrite run_bind. cbn [gets run rbind]. rewrite B. destruct (numbered 0 (procs es)) eqn:En.
  - change (1 =? 0) with false. cbn iota. destruct (ld8 (mmem m) (mp + 12) =? 0) eqn:Ei; cbn [negb when].
    + exists m2. split; [done|]. split; rewrite ?En, ?Ei; done || lia.
    + unfold in_port, out_port. rewrite run_bind. cbn [modify run rbind]. rewrite run_bind. cbn [run rbind hw set_hw].
      destruct (inb 0x23 (outb 0x22 (u8 0x70) (hw m2))) as [v d] eqn:Eb. cbn [run rbind modify hw set_hw]. eexists. split; [done|].
      split; rewrite ?En, ?Ei; try done; cbn [ncpu set_hw hw imcr andb negb].
      change (outb 0x22 0x70 (hw m)) with (outb 0x22 (u8 0x70) (hw m)). rewrite <- G2, Eb. done.
  - change (0 =? 0) with true. cbn iota. rewrite run_bind. cbn [modify run rbind]. rewrite run_bind. cbn [modify run rbind]. eexists. split; [done|].
    split; rewrite ?En; try done.
Qed.

End table.

(** A table in two parts. *)
Lemma table_at_app mm p es1 es2 : table_at mm p (es1 ++ es2) <-> table_at mm p es1 /\ table_at mm (p + table_size es1) es2.
Proof.
  revert p. induction es1 as [|x es1 IH]; intros p; cbn [app table_at].
  - change (table_size []) with 0. rewrite Z.add_0_r. tauto.
  - rewrite IH. change (table_size (x :: es1)) with (entry_size x + table_size es1). rewrite Z.add_assoc. tauto.
Qed.
Lemma table_size_app es1 es2 : table_size (es1 ++ es2) = table_size es1 + table_size es2.
Proof. unfold table_size. induction es1 as [|x es1 IH]; cbn [app foldr]; lia. Qed.
Lemma procs_app es1 es2 : procs (es1 ++ es2) = procs es1 ++ procs es2.
Proof. apply omap_app. Qed.

(** A ninth processor is written behind the end of [cpus]. *)
Lemma mpinit_overrun es1 id fl es2 conf mp (m : machine) fuel :
  mpconfig (mmem m) = Some (conf, mp) -> table_at (mmem m) (conf + MPCONF_SIZE) (es1 ++ EProc id fl :: es2) ->
  ncpu m = 0 -> Z.of_nat (length (cpu_id m)) = NCPU -> Z.of_nat (length (procs es1)) = NCPU ->
  conf + MPCONF_SIZE + table_size es1 < conf + ld16 (mmem m) (conf + 4) ->
  run (mpinit (length es1 + S fuel) m) = RUndef "cpus[ncpu]".
Proof.
  intros Hc [Ht1 [(E0 & E1 & E3) _]]%table_at_app Hn Hl Hp He. rewrite (mpinit_table es1 conf mp m) by (done || lia).
  set (m1 := set_lapic _ _). destruct (survey es1 m1) as [A _ _ _ _ (G & _ & _)]; [cbn; lia|cbn [m1 set_lapic set_ismp set_bcpu ncpu cpu_id]; rewrite Hn; lia|].
  assert (length (cpu_id (foldl note m1 es1)) = length (cpu_id m)) as El.
  { change (cpu_id m) with (cpu_id m1). clear. generalize m1. induction es1 as [|x es1 IH]; intros m0; cbn [foldl]; [done|]. rewrite IH. by destruct (note_fields m0 x) as (_ & _ & _ & ->). }
  set (m2 := foldl note m1 es1) in *. change (mmem m1) with (mmem m) in G. change (ncpu m1) with (ncpu m) in A. cbn [mp_entries].
  destruct (Z.ltb_spec (conf + MPCONF_SIZE + table_size es1) (conf + ld16 (mmem m) (conf + 4))); [|lia]. rewrite run_bind. unfold mp_entry.
  rewrite run_bind. cbn [gets run rbind]. rewrite G, E0, E1, E3. cbn [Z.eqb MPPROC]. rewrite run_bind. cbn [gets run rbind].
  assert ((ncpu m2 <? Z.of_nat (length (cpu_id m2))) = false) as Elt by (apply Z.ltb_ge; lia).
  destruct (Z.eqb_spec (ncpu m2) id), (Z.eqb_spec (Z.land fl MPBOOT) 0); cbn -[Z.ltb zinsert Z.of_nat]; by rewrite Elt.
Qed.

(** [mpsearch1] finds the first floating pointer in the range. *)
Definition floating (mm : mem) (p : Z) : bool := mem_is mm p mp_sig && (sum mm p MP_SIZE =? 0).
Lemma mpsearch1_spec mm p n r : 0 < p -> mpsearch1_loop mm p n = r ->
  (r = 0 /\ forall i, 0 <= i < Z.of_nat n -> floating mm (p + MP_SIZE * i) = false) \/
  (exists i, 0 <= i < Z.of_nat n /\ r = p + MP_SIZE * i /\ floating mm r = true /\ forall j, 0 <= j < i -> floating mm (p + MP_SIZE * j) = false).
Proof.
  revert p r. induction n as [|n IH]; intros p r Hp; cbn [mpsearch1_loop]; [intros <-; left; split; [done|lia]|].
  fold (floating mm p). destruct (floating mm p) eqn:E; intros Hr.
  - right. exists 0. rewrite Z.mul_0_r, Z.add_0_r. subst r. split; [lia|]. split; [done|]. split; [done|lia].
  - assert (forall i, floating mm (p + MP_SIZE * (1 + i)) = floating mm (p + MP_SIZE + MP_SIZE * i)) as Hs by (intros i; f_equal; lia).
    apply IH in Hr; [|change MP_SIZE with 16; lia]. destruct Hr as [[-> Hno]|(i & Hi & -> & Hf & Hmin)].
    + left. split; [done|]. intros i Hi. destruct (decide (i = 0)) as [->|]; [by rewrite Z.mul_0_r, Z.add_0_r|].
      replace i with (1 + (i - 1)) by lia. rewrite Hs. apply Hno. lia.
    + right. exists (1 + i). split; [lia|]. split; [lia|]. split; [done|]. intros j Hj. destruct (decide (j = 0)) as [->|]; [by rewrite Z.mul_0_r, Z.add_0_r|].
      replace j with (1 + (j - 1)) by lia. rewrite Hs. apply Hmin. lia.
Qed.

(** C14. [mpinit] reads the configuration table of the machine.  For a table of processors, I/O APICs, buses and interrupt
    assignments with at most [NCPU] processors it ends after as many rounds as the table has entries:
    if the APIC identifiers are 0, 1, 2, ... in this order the machine is a multiprocessor with that
    many processors, the local APIC of the header, the last I/O APIC and the last processor marked as
    the one that booted, each entry of [cpus] has its index as identifier, and the IMCR is masked if there is one;
    otherwise the uniprocessor fallback is left.  An entry of any other type is never passed: whatever the fuel, the loop does not end. *)
Theorem mpinit_survey es conf mp (m : machine) fuel :
  mpconfig (mmem m) = Some (conf, mp) -> table_at (mmem m) (conf + MPCONF_SIZE) es ->
  ncpu m = 0 -> Z.of_nat (length (cpu_id m)) = NCPU -> Z.of_nat (length (procs es)) <= NCPU ->
  let e := conf + ld16 (mmem m) (conf + 4) in let p := conf + MPCONF_SIZE + table_size es in
  (p = e -> (length es <= fuel)%nat -> exists m', run (mpinit fuel m) = ROk tt m' /\ configured es conf mp m m') /\
  (p < e -> 4 < ld8 (mmem m) p -> run (mpinit fuel m) = RFuel).
Proof.
  intros Hc Ht Hn Hl Hp e p. split.
  - intros Hpe Hf. replace fuel with (length es + (fuel - length es))%nat by lia. by apply mpinit_ends.
  - intros Hpe Hu. destruct (decide (length es <= fuel)%nat) as [Hf|Hf].
    + replace fuel with (length es + (fuel - length es))%nat by lia. rewrite (mpinit_table es conf mp m) by (done || fold p e; lia).
      destruct (survey es (set_lapic (ld32 (mmem m) (conf + 36)) (set_ismp 1 (set_bcpu 0 m)))) as [_ _ _ _ _ (G & _)];
        [cbn; lia|cbn [set_lapic set_ismp set_bcpu ncpu cpu_id]; rewrite Hn; lia|].
      rewrite unknown_loops; [done|done|]. rewrite G. exact Hu.
    + rewrite <- (take_drop fuel es) in Ht. apply table_at_app in Ht as [Ht _].
      assert (procs es = procs (take fuel es) ++ procs (drop fuel es)) as Ep by (by rewrite <- procs_app, take_drop).
      assert (table_size es = table_size (take fuel es) + table_size (drop fuel es)) as Es by (by rewrite <- table_size_app, take_drop).
      pose proof (table_size_nonneg (drop fuel es)). rewrite Ep, length_app in Hp.
      assert (length (take fuel es) = fuel) as El by (rewrite length_take; lia). rewrite <- El at 1. rewrite <- (Nat.add_0_r (length _)).
      rewrite (mpinit_table (take fuel es) conf mp m) by (done || fold e; lia). cbn [mp_entries].
      destruct (Z.ltb_spec (conf + MPCONF_SIZE + table_size (take fuel es)) (conf + ld16 (mmem m) (conf + 4))); [done|]. lia.
Qed.
End mp.

(** * A machine with two processors *)

Module Demo.
#[global] Instance ports : Hardware (list (Z * Z)) :=
  {| inb p d := (0, d); outb p v d := d ++ [(p, v)]; reg_read a d := (0, d); reg_write a v d := d; readeflags d := 0 |}.
Definition pointer : list Z := [95; 77; 80; 95; 0; 16; 0; 0; 1; 4; 16; 0; 128; 0; 0; 0].
Definition header : list Z :=
  [80; 67; 77; 80; 100; 0; 4; 72] ++ replicate 20 0 ++ [0; 0; 0; 0; 0; 0; 4; 0; 0; 0; 0xE0; 0xFE; 0; 0; 0; 0].
Definition two : list entry := [EProc 0 3; EProc 1 1; EIoapic 2; EOther MPBUS].
Definition two_bytes : list Z :=
  ([0; 0; 20; 3] ++ replicate 16 0) ++ ([0; 1; 20; 1] ++ replicate 16 0) ++ [2; 2; 17; 1; 0; 0; 0xC0; 0xFE] ++ [1; 0; 80; 67; 73; 32; 32; 32].
Definition bios : mem := st_bytes (st_bytes ∅ (p2v 0xF0000) pointer) (p2v 0x1000) (header ++ two_bytes).
Definition machine0 : machine (list (Z * Z)) := mkMachine bios [] 0 0 0 0 0 (replicate 8 0) irqmask0 0 0 0 [].
End Demo.

Lemma mpinit_survey_witness : exists m', run (mpinit 4 Demo.machine0) = ROk tt m' /\
  configured Demo.two (p2v 0x1000) (p2v 0xF0000) Demo.machine0 m' /\ ncpu m' = 2.
Proof.
  destruct (mpinit_survey Demo.two (p2v 0x1000) (p2v 0xF0000) Demo.machine0 4) as [A _].
  - vm_compute. reflexivity.
  - repeat split; try (vm_compute; reflexivity). apply list_elem_of_here.
  - reflexivity.
  - reflexivity.
  - vm_compute. discriminate.
  - destruct A as (m' & R & C); [vm_compute; reflexivity|apply le_n|]. exists m'. split; [exact R|]. split; [exact C|].
    rewrite (cf_ncpu _ _ _ _ _ C). reflexivity.
Defined.
