(* ===== verification/IrqFacts.v ===== *)
(** Interrupt routing (picirq.c, ioapic.c) and the clock (lapic.c).

    [IrqHw] states the documented behaviour of the interrupt controllers that the drivers rely on:
    the initialisation sequence and mask of the 8259A, and the select and data registers of the I/O
    APIC with its redirection table.  The theorem says which interrupt lines reach a processor, as
    which vectors, after the initialisation and any sequence of enable calls. *)

From Stdlib Require Import ZArith Lia.
From stdpp Require Import base tactics option gmap strings numbers list.
From S2P Require Import Prelude Mem Layout Trap Devices.
Open Scope Z_scope.

(** * The controllers *)

(** [icw] is the initialisation word that is expected next, 0 in operation. *)
Record pic := mkPic { icw : Z; single : bool; need4 : bool; base : Z; imr : Z }.

(** A write with address line [a0]. *)
Definition pic_write (a0 : bool) (v : Z) (c : pic) : pic :=
  if a0 then
    let then4 := if need4 c then 4 else 0 in
    if icw c =? 2 then mkPic (if single c then then4 else 3) (single c) (need4 c) (Z.land v 0xF8) (imr c)
    else if icw c =? 3 then mkPic then4 (single c) (need4 c) (base c) (imr c)
    else if icw c =? 4 then mkPic 0 (single c) (need4 c) (base c) (imr c)
    else mkPic (icw c) (single c) (need4 c) (base c) v
  else if Z.testbit v 4 then mkPic 2 (Z.testbit v 1) (Z.testbit v 0) (base c) 0
  else c.

(** A write to port [p] as the controller at port [b] sees it. *)
Definition pic_out (b p v : Z) (c : pic) : pic := if p =? b then pic_write false v c else if p =? b + 1 then pic_write true v c else c.

Class IrqHw (D : Type) {H : Hardware D} := {
  master : D -> pic;
  slave : D -> pic;
  sel : D -> Z;
  redir : D -> Z -> Z;
  out_master : forall p v d, master (outb p v d) = pic_out IO_PIC1 p v (master d);
  out_slave : forall p v d, slave (outb p v d) = pic_out IO_PIC2 p v (slave d);
  out_ioapic : forall p v d, sel (outb p v d) = sel d /\ forall j, redir (outb p v d) j = redir d j;
  write_pics : forall a v d, master (reg_write a v d) = master d /\ slave (reg_write a v d) = slave d;
  write_select : forall v d, 0 <= v < 256 -> sel (reg_write IOAPIC v d) = v;
  write_data : forall v d, sel (reg_write (IOAPIC + 16) v d) = sel d;
  write_redir : forall v d j, REG_TABLE <= sel d -> redir (reg_write (IOAPIC + 16) v d) j = if j =? sel d then v else redir d j;
  write_keeps : forall v d j, redir (reg_write IOAPIC v d) j = redir d j;
  read_data : forall d, (reg_read (IOAPIC + 16) d).1 = redir d (sel d);
  read_keeps : forall d, let d' := (reg_read (IOAPIC + 16) d).2 in
    master d' = master d /\ slave d' = slave d /\ sel d' = sel d /\ forall j, redir d' j = redir d j
}.

Section irq.
Context {D : Type} {H : Hardware D} {I : IrqHw D}.
Abbreviation machine := (machine D).

(** The vector with which the 8259A pair delivers line [i]; lines from 8 on pass through line
    [IRQ_SLAVE] of the master. *)
Definition pic_vector (d : D) (i : Z) : option Z :=
  if negb (icw (master d) =? 0) || negb (icw (slave d) =? 0) then None else
  if i <? 8 then if Z.testbit (imr (master d)) i then None else Some (base (master d) + i)
  else if Z.testbit (imr (master d)) IRQ_SLAVE || Z.testbit (imr (slave d)) (i - 8) then None else Some (base (slave d) + (i - 8)).
(** The vector and the processor of line [i] at the I/O APIC. *)
Definition low (i : Z) : Z := REG_TABLE + 2 * i.
Definition ioapic_target (d : D) (i : Z) : option (Z * Z) :=
  if Z.testbit (redir d (low i)) 16 then None else Some (Z.land (redir d (low i)) 0xFF, Z.shiftr (redir d (low i + 1)) 24).
Definition maxintr (d : D) : Z := Z.land (Z.shiftr (redir d REG_VER) 16) 0xFF.

(** * The 8259A *)

Definition same_pics (d d' : D) : Prop := master d' = master d /\ slave d' = slave d.
Definition same_ioapic (d d' : D) : Prop := sel d' = sel d /\ forall j, redir d' j = redir d j.

Lemma same_ioapic_out p v d : same_ioapic d (outb p v d).
Proof. apply out_ioapic. Qed.
Lemma same_ioapic_trans d d1 d2 : same_ioapic d d1 -> same_ioapic d1 d2 -> same_ioapic d d2.
Proof. intros [S1 R1] [S2 R2]. split; [congruence|]. intros j. by rewrite R2. Qed.

Definition operating (b mask : Z) : pic := mkPic 0 false true b mask.

Lemma set_hw_eta (m : machine) : set_hw (hw m) m = m.
Proof. by destruct m. Qed.
Lemma run_out {A} p v d (m : machine) (k : unit -> M machine A) :
  run (bind (out_port p v) k (set_hw d m)) = run (k tt (set_hw (outb p (u8 v) d) m)).
Proof. rewrite run_bind. done. Qed.

Lemma run_picsetmask b1 b2 i1 i2 mask (m : machine) :
  0 <= mask < 2 ^ 16 -> master (hw m) = operating b1 i1 -> slave (hw m) = operating b2 i2 ->
  exists d', run (picsetmask mask m) = ROk tt (set_hw d' (set_irqmask mask m)) /\
    master d' = operating b1 (u8 mask) /\ slave d' = operating b2 (u8 (Z.shiftr mask 8)) /\ same_ioapic (hw m) d'.
Proof.
  intros Hm E1 E2. eexists. split; [reflexivity|]. cbn [hw set_hw set_irqmask]. split; [|split].
  - by rewrite !out_master, E1.
  - by rewrite !out_slave, E2.
  - eapply same_ioapic_trans; apply same_ioapic_out.
Qed.

Lemma run_picinit (m : machine) :
  irqmask m = irqmask0 ->
  exists d', run (picinit m) = ROk tt (set_hw d' (set_irqmask irqmask0 m)) /\
    master d' = operating T_IRQ0 (u8 irqmask0) /\ slave d' = operating (T_IRQ0 + 8) (u8 (Z.shiftr irqmask0 8)) /\ same_ioapic (hw m) d'.
Proof.
  intros Hm. replace (picinit m) with (picinit (set_hw (hw m) m)) by (by rewrite set_hw_eta). unfold picinit. repeat rewrite run_out. rewrite run_bind. cbn [gets run rbind].
  cbn [irqmask set_hw]. rewrite Hm. change (negb (irqmask0 =? 0xFFFF)) with true. cbn [when].
  match goal with |- context [set_hw ?x m] => set (d := x) end.
  destruct (run_picsetmask T_IRQ0 (T_IRQ0 + 8) 0 0 irqmask0 (set_hw d m)) as (d' & R & P1 & P2 & S); [done|..].
  - cbn [hw set_hw]. unfold d. rewrite !out_master. by destruct (master (hw m)).
  - cbn [hw set_hw]. unfold d. rewrite !out_slave. by destruct (slave (hw m)).
  - exists d'. split; [exact R|]. split; [done|]. split; [done|]. eapply same_ioapic_trans; [|exact S]. cbn [hw set_hw]. unfold d.
    repeat (eapply same_ioapic_trans; [|apply same_ioapic_out]). done.
Qed.

(** * The I/O APIC *)

Section ioapic.
Context (m : machine) (Hio : ioapic m = IOAPIC).

Lemma run_ioapicread r : 0 <= r < 256 -> exists d',
  run (ioapicread r m) = ROk (redir (hw m) r) (set_hw d' m) /\ same_pics (hw m) d' /\ forall j, redir d' j = redir (hw m) j.
Proof.
  intros Hr. unfold ioapicread. rewrite run_bind. cbn [gets run rbind]. rewrite Hio, run_bind. unfold store_reg. cbn [modify run rbind].
  unfold load_reg. change (u32 (IOAPIC + 16)) with (IOAPIC + 16). change (u32 IOAPIC) with IOAPIC. rewrite u32_small by lia. cbn [hw set_hw].
  set (d := reg_write IOAPIC r (hw m)). pose proof (read_data d) as Ed. destruct (read_keeps d) as (K1 & K2 & _ & K4).
  destruct (reg_read (IOAPIC + 16) d) as [v d']. cbn [fst snd] in *. destruct (write_pics IOAPIC r (hw m)) as [W1 W2]. fold d in W1, W2.
  exists d'. split; [|split; [split; congruence|]].
  - cbn [run]. f_equal. rewrite Ed. unfold d. by rewrite write_keeps, write_select.
  - intros j. rewrite K4. apply write_keeps.
Qed.

Lemma run_ioapicwrite r v : REG_TABLE <= r < 256 -> exists d',
  run (ioapicwrite r v m) = ROk tt (set_hw d' m) /\ same_pics (hw m) d' /\ forall j, redir d' j = if j =? r then u32 v else redir (hw m) j.
Proof.
  intros Hr. change REG_TABLE with 16 in Hr. unfold ioapicwrite. rewrite run_bind. cbn [gets run rbind]. rewrite Hio, run_bind. unfold store_reg. cbn [modify run rbind].
  change (u32 (IOAPIC + 16)) with (IOAPIC + 16). change (u32 IOAPIC) with IOAPIC. rewrite (u32_small r) by lia. cbn [hw set_hw].
  eexists. split; [reflexivity|]. cbn [hw set_hw]. split.
  - unfold same_pics. destruct (write_pics (IOAPIC + 16) (u32 v) (reg_write IOAPIC r (hw m))) as [-> ->]. apply write_pics.
  - intros j. rewrite write_redir; rewrite write_select by lia; [|change REG_TABLE with 16; lia]. by rewrite write_keeps.
Qed.

End ioapic.

(** Both registers of an entry. *)
Lemma run_entry (m : machine) i lo hi : ioapic m = IOAPIC -> 0 <= i < 120 -> exists d',
  run ((ioapicwrite (low i) lo ;; ioapicwrite (low i + 1) hi) m) = ROk tt (set_hw d' m) /\ same_pics (hw m) d' /\
  forall j, redir d' j = if j =? low i then u32 lo else if j =? low i + 1 then u32 hi else redir (hw m) j.
Proof.
  intros Hio Hi. assert (REG_TABLE <= low i < 256 /\ REG_TABLE <= low i + 1 < 256) as [H1 H2] by (unfold low; change REG_TABLE with 16; lia).
  destruct (run_ioapicwrite m Hio (low i) lo H1) as (d1 & R1 & [P1 P2] & T1). rewrite run_bind, R1. cbn [rbind].
  destruct (run_ioapicwrite (set_hw d1 m) Hio (low i + 1) hi H2) as (d2 & R2 & [Q1 Q2] & T2). cbn [hw set_hw] in *.
  exists d2. split; [exact R2|]. split; [split; congruence|]. intros j. rewrite T2, T1.
  destruct (Z.eqb_spec j (low i)), (Z.eqb_spec j (low i + 1)); try done; lia.
Qed.

(** Entry [i] with its low and high register. *)
Definition entry_is (d : D) (i lo hi : Z) : Prop := redir d (low i) = lo /\ redir d (low i + 1) = hi.
Lemma entry_set d d' i lo hi k lo' hi' :
  (forall j, redir d' j = if j =? low i then lo else if j =? low i + 1 then hi else redir d j) ->
  entry_is d k lo' hi' -> if k =? i then entry_is d' k lo hi else entry_is d' k lo' hi'.
Proof.
  intros Hd [E1 E2]. unfold entry_is. rewrite !Hd. unfold low in *. destruct (Z.eqb_spec k i) as [->|Hne].
  - rewrite !Z.eqb_refl. destruct (Z.eqb_spec (REG_TABLE + 2 * i + 1) (REG_TABLE + 2 * i)); [lia|done].
  - destruct (Z.eqb_spec (REG_TABLE + 2 * k) (REG_TABLE + 2 * i)), (Z.eqb_spec (REG_TABLE + 2 * k) (REG_TABLE + 2 * i + 1)),
      (Z.eqb_spec (REG_TABLE + 2 * k + 1) (REG_TABLE + 2 * i)), (Z.eqb_spec (REG_TABLE + 2 * k + 1) (REG_TABLE + 2 * i + 1)); (done || lia).
Qed.

(** The loop of [ioapicinit]: entries from [i] on are disabled. *)
Definition off_entry (i : Z) : Z := Z.lor INT_DISABLED (T_IRQ0 + i).
Lemma run_disable n (m : machine) i : ioapic m = IOAPIC -> 0 <= i -> i + Z.of_nat n <= 120 -> exists d',
  run (for_each (seqZ i (Z.of_nat n)) (fun i =>
    ioapicwrite (REG_TABLE + 2 * i) (Z.lor INT_DISABLED (T_IRQ0 + i)) ;; ioapicwrite (REG_TABLE + 2 * i + 1) 0) m) = ROk tt (set_hw d' m) /\
  same_pics (hw m) d' /\ (forall k, i <= k < i + Z.of_nat n -> entry_is d' k (off_entry k) 0) /\
  forall k lo hi, k < i -> entry_is (hw m) k lo hi -> entry_is d' k lo hi.
Proof.
  intros Hio. revert m i Hio. induction n as [|n IH]; intros m i Hio Hi Hn.
  - exists (hw m). rewrite set_hw_eta. split; [done|]. split; [done|]. split; [lia|done].
  - rewrite seqZ_cons by lia. cbn [for_each]. rewrite run_bind. replace (Z.pred (Z.of_nat (S n))) with (Z.of_nat n) by lia.
    destruct (run_entry m i (Z.lor INT_DISABLED (T_IRQ0 + i)) 0 Hio) as (d1 & R1 & [P1 P2] & T1); [lia|]. unfold low in R1 at 1 2. rewrite R1. cbn [rbind].
    destruct (IH (set_hw d1 m) (Z.succ i)) as (d' & R & [Q1 Q2] & E & F); [done|lia|lia|]. cbn [hw set_hw] in *.
    exists d'. split; [exact R|]. split; [split; congruence|].
    assert (u32 (Z.lor INT_DISABLED (T_IRQ0 + i)) = off_entry i) as Eo.
    { unfold off_entry. change INT_DISABLED with 65536. change T_IRQ0 with 32. apply u32_small. split; [apply Z.lor_nonneg; lia|].
      apply Z.log2_lt_cancel. rewrite Z.log2_lor by lia. change (Z.log2 (2 ^ 32)) with 32.
      apply Z.max_lub_lt; [done|]. apply Z.log2_lt_pow2; lia. }
    split.
    + intros k Hk. destruct (decide (k = i)) as [->|]; [|apply E; lia]. apply F; [lia|].
      pose proof (entry_set _ _ i _ _ i _ _ T1 (conj eq_refl eq_refl)) as X. rewrite Z.eqb_refl, Eo in X. exact X.
    + intros k lo hi Hk He. apply F; [lia|]. pose proof (entry_set _ _ i _ _ k lo hi T1 He) as X. by destruct (Z.eqb_spec k i); [lia|].
Qed.

Lemma run_ioapicinit (m : machine) : ismp m <> 0 -> maxintr (hw m) < 120 -> exists d' l,
  run (ioapicinit m) = ROk tt (set_said l (set_hw d' (set_ioapic IOAPIC m))) /\ same_pics (hw m) d' /\
  forall i, 0 <= i <= maxintr (hw m) -> entry_is d' i (off_entry i) 0.
Proof.
  intros Hmp Hmax. unfold ioapicinit. rewrite run_bind. cbn [gets run rbind]. destruct (Z.eqb_spec (ismp m) 0); [done|]. rewrite run_bind. cbn [modify run rbind].
  set (m0 := set_ioapic IOAPIC m). destruct (run_ioapicread m0 eq_refl REG_VER) as (d1 & R1 & [P1 P2] & T1); [done|]. rewrite run_bind, R1. cbn [rbind].
  fold (maxintr (hw m)). change (Z.land (Z.shiftr (redir (hw m0) REG_VER) 16) 0xFF) with (maxintr (hw m)).
  destruct (run_ioapicread (set_hw d1 m0) eq_refl REG_ID) as (d2 & R2 & [Q1 Q2] & T2); [done|]. rewrite run_bind, R2. cbn [rbind]. rewrite run_bind. cbn [gets run rbind hw set_hw] in *.
  rewrite run_bind. set (c := negb _). assert (0 <= maxintr (hw m)) as Hpos by (apply Z.land_nonneg; by right).
  assert (exists l, run (when c (cprintf "ioapicinit: id isn't equal to ioapicid; not a MP" []) (set_hw d2 (set_hw d1 m0))) = ROk tt (set_said l (set_hw d2 m0))) as [l R3].
  { destruct c; [eexists; reflexivity|]. exists (said m). reflexivity. }
  rewrite R3. cbn [rbind]. destruct (run_disable (Z.to_nat (maxintr (hw m) + 1)) (set_said l (set_hw d2 m0)) 0 eq_refl) as (d' & R4 & [S1 S2] & E & _); [done|lia|].
  rewrite Z2Nat.id in R4, E by lia. rewrite R4. cbn [hw set_said set_hw] in *. exists d', l. split; [done|]. split; [change (hw m0) with (hw m) in *; split; congruence|].
  intros i Hi. apply E. lia.
Qed.

(** * Enabling *)

(** What a driver does for its line [q.1], to be served by processor [q.2]. *)
Definition enable (q : Z * Z) : M machine unit := picenable q.1 ;; ioapicenable q.1 q.2.
(** The interrupt part of [main]: the controllers, then the drivers. *)
Definition boot_irqs (l : list (Z * Z)) : M machine unit := picinit ;; ioapicinit ;; for_each l enable.

(** The processor of the last call for line [i]. *)
Definition route (l : list (Z * Z)) (i : Z) : option Z := foldl (fun r q => if q.1 =? i then Some q.2 else r) None l.
Lemma route_snoc l q i : route (l ++ [q]) i = if q.1 =? i then Some q.2 else route l i.
Proof. unfold route. by rewrite foldl_app. Qed.

Lemma route_in l i c : route l i = Some c -> (i, c) ∈ l.
Proof.
  induction l as [|[irq cpu] l IH] using rev_ind; [done|]. rewrite route_snoc. cbn [fst snd]. rewrite elem_of_app, list_elem_of_singleton.
  destruct (Z.eqb_spec irq i) as [->|]; [intros [= ->]; by right|auto].
Qed.

Record routed (max : Z) (l : list (Z * Z)) (m : machine) : Prop := {
  ro_ismp : ismp m <> 0;
  ro_io : ioapic m = IOAPIC;
  ro_mask : 0 <= irqmask m < 2 ^ 16;
  ro_bits : forall i, 0 <= i < 16 -> Z.testbit (irqmask m) i = negb ((i =? IRQ_SLAVE) || bool_decide (i ∈ l.*1));
  ro_master : master (hw m) = operating T_IRQ0 (u8 (irqmask m));
  ro_slave : slave (hw m) = operating (T_IRQ0 + 8) (u8 (Z.shiftr (irqmask m) 8));
  ro_table : forall i, 0 <= i <= max ->
    match route l i with None => entry_is (hw m) i (off_entry i) 0 | Some c => entry_is (hw m) i (T_IRQ0 + i) (c * 2 ^ 24) end
}.

Lemma run_enable max l (m : machine) irq cpu :
  routed max l m -> max < 120 -> 0 <= irq < 16 -> irq <= max -> 0 <= cpu < 256 ->
  exists m', run (enable (irq, cpu) m) = ROk tt m' /\ routed max (l ++ [(irq, cpu)]) m'.
Proof.
  intros [A B C E F G T] Hmax Hirq Hle Hcpu. unfold enable. cbn [fst snd]. set (mask := u16 (Z.land (irqmask m) (Z.lnot (Z.shiftl 1 irq)))).
  assert (0 <= mask < 2 ^ 16) as Hmask by (apply Z.mod_pos_bound; lia).
  assert (forall i, 0 <= i < 16 -> Z.testbit mask i = Z.testbit (irqmask m) i && negb (i =? irq)) as Hbits.
  { intros i Hi. unfold mask, u16. rewrite Z.mod_pow2_bits_low by lia. rewrite Z.land_spec, Z.lnot_spec, Z.shiftl_1_l, Z.pow2_bits_eqb by lia. by rewrite Z.eqb_sym. }
  destruct (run_picsetmask _ _ _ _ mask m Hmask F G) as (d1 & R1 & P1 & P2 & _ & T1). rewrite run_bind.
  change (run (picenable irq m)) with (run (picsetmask mask m)). rewrite R1. cbn [rbind]. unfold ioapicenable. rewrite run_bind. cbn [gets run rbind].
  change (ismp (set_hw d1 (set_irqmask mask m))) with (ismp m). destruct (Z.eqb_spec (ismp m) 0); [done|].
  destruct (run_entry (set_hw d1 (set_irqmask mask m)) irq (T_IRQ0 + irq) (Z.shiftl cpu 24) B) as (d2 & R2 & [Q1 Q2] & T2); [lia|].
  unfold low in R2 at 1 2. rewrite R2. cbn [hw set_hw] in *. eexists. split; [done|].
  split; try done; cbn [irqmask set_hw set_irqmask hw].
  - intros i Hi. rewrite Hbits, E by done. rewrite fmap_app. cbn [fmap list_fmap fst]. rewrite (bool_decide_ext (i ∈ l.*1 ++ [irq]) (i ∈ l.*1 \/ i = irq)).
    2: { rewrite elem_of_app, list_elem_of_singleton. done. }
    destruct (Z.eqb_spec i irq) as [->|Hne]; [rewrite (bool_decide_eq_true_2 (_ \/ _)) by auto; by destruct (irq =? IRQ_SLAVE), (bool_decide _)|].
    rewrite andb_true_r. do 2 f_equal. apply bool_decide_ext. naive_solver.
  - by rewrite Q1.
  - by rewrite Q2.
  - intros i Hi. rewrite route_snoc. cbn [fst snd]. specialize (T i Hi). rewrite Z.eqb_sym.
    rewrite (u32_small (T_IRQ0 + irq)), Z.shiftl_mul_pow2, u32_small in T2 by (change T_IRQ0 with 32; lia).
    assert (forall lo hi, entry_is (hw m) i lo hi -> entry_is d1 i lo hi) as Hd1 by (intros lo hi [E1 E2]; split; by rewrite T1).
    destruct (route l i) as [c|]; apply Hd1 in T; pose proof (entry_set _ _ irq _ _ i _ _ T2 T) as X; (destruct (Z.eqb_spec i irq) as [->|]; exact X).
Qed.

Lemma run_enables max l2 l1 (m : machine) :
  routed max l1 m -> max < 120 -> Forall (fun q => 0 <= q.1 < 16 /\ q.1 <= max /\ 0 <= q.2 < 256) l2 ->
  exists m', run (for_each l2 enable m) = ROk tt m' /\ routed max (l1 ++ l2) m'.
Proof.
  intros Hr Hmax HF. revert l1 m Hr. induction HF as [|[irq cpu] l2 (H1 & H2 & H3) HF IH]; intros l1 m Hr.
  - exists m. by rewrite app_nil_r.
  - cbn [for_each]. destruct (run_enable max l1 m irq cpu) as (m1 & R1 & B1); [done..|]. rewrite run_bind, R1. cbn [rbind].
    destruct (IH _ _ B1) as (m' & R & B'). rewrite <- app_assoc in B'. eauto.
Qed.

(** C11. After [picinit], [ioapicinit] and any sequence of enable calls of drivers on a multiprocessor, exactly the lines that were
    enabled are delivered: through the 8259A pair line [i] arrives as vector [T_IRQ0 + i], and through
    the I/O APIC as the same vector at the processor of the last call for it; every other line is masked in both. *)
Theorem irq_routing l (m : machine) :
  ismp m <> 0 -> irqmask m = irqmask0 -> maxintr (hw m) < 120 ->
  Forall (fun q => 0 <= q.1 < 16 /\ q.1 <= maxintr (hw m) /\ 0 <= q.2 < 256) l ->
  exists m', run (boot_irqs l m) = ROk tt m' /\
    (forall i, 0 <= i < 16 -> i <> IRQ_SLAVE -> pic_vector (hw m') i = if bool_decide (i ∈ l.*1) then Some (T_IRQ0 + i) else None) /\
    (forall i, 0 <= i <= maxintr (hw m) -> ioapic_target (hw m') i = (fun c => (T_IRQ0 + i, c)) <$> route l i).
Proof.
  intros Hmp Hmask Hmax HF. unfold boot_irqs. destruct (run_picinit m Hmask) as (d1 & R1 & P1 & P2 & _ & T1). rewrite run_bind, R1. cbn [rbind].
  set (m1 := set_hw d1 (set_irqmask irqmask0 m)). assert (maxintr (hw m1) = maxintr (hw m)) as Em by (unfold maxintr; cbn [m1 hw set_hw]; by rewrite T1).
  destruct (run_ioapicinit m1) as (d2 & msg & R2 & [Q1 Q2] & T2); [done|lia|]. rewrite run_bind, R2. cbn [rbind]. rewrite Em in T2. cbn [m1 hw set_hw] in Q1, Q2.
  destruct (run_enables (maxintr (hw m)) l [] (set_said msg (set_hw d2 (set_ioapic IOAPIC m1)))) as (m' & R3 & [A B C E F G T]); [|done|done|].
  { split; cbn [hw set_said set_hw]; [exact Hmp|done|done| |by rewrite Q1|by rewrite Q2|exact T2].
    intros i Hi. change (irqmask _) with irqmask0. assert (i = 0 \/ i = 1 \/ i = 2 \/ i = 3 \/ i = 4 \/ i = 5 \/ i = 6 \/ i = 7 \/ i = 8 \/ i = 9 \/ i = 10 \/ i = 11 \/ i = 12 \/ i = 13 \/ i = 14 \/ i = 15) as Hc by lia.
    repeat destruct Hc as [-> | Hc]; [reflexivity..|]. by subst i. }
  exists m'. split; [done|]. cbn [app] in *. split.
  - intros i Hi Hs. unfold pic_vector. rewrite F, G. cbn [operating icw imr base negb orb Z.eqb]. unfold u8. destruct (Z.ltb_spec i 8).
    + rewrite Z.mod_pow2_bits_low, E by lia. destruct (Z.eqb_spec i IRQ_SLAVE); [done|]. by destruct (bool_decide _).
    + rewrite !Z.mod_pow2_bits_low, Z.shiftr_spec by (change IRQ_SLAVE with 2; lia). replace (i - 8 + 8) with i by lia. rewrite !E by (change IRQ_SLAVE with 2; lia).
      destruct (Z.eqb_spec i IRQ_SLAVE); [done|]. cbn [Z.eqb IRQ_SLAVE Pos.eqb orb negb]. destruct (bool_decide (i ∈ l.*1)); cbn [negb]; [|done]. f_equal. lia.
  - intros i Hi. specialize (T i Hi). unfold ioapic_target. destruct (route l i) as [c|] eqn:Er; destruct T as [-> ->]; cbn [fmap option_fmap option_map].
    + apply route_in in Er. rewrite Forall_forall in HF. destruct (HF _ Er) as (Hi16 & _ & Hc). cbn [fst snd] in *. change T_IRQ0 with 32.
      rewrite Z.bits_above_log2 by (try lia; apply Z.log2_lt_pow2; lia). change 0xFF with (Z.ones 8). rewrite Z.land_ones, Z.mod_small by lia.
      by rewrite Z.shiftr_div_pow2, Z.div_mul by lia.
    + unfold off_entry. rewrite Z.lor_spec. done.
Qed.
End irq.

(** * The clock *)

(** [index] is the register selected through [CMOS_PORT]; [updating] counts the further reads of
    status register A that show an update in progress. *)
Class RtcHw (D : Type) {H : Hardware D} := {
  index : D -> Z;
  cmos : D -> Z -> Z;
  updating : D -> nat;
  out_select : forall v d, let d' := outb CMOS_PORT v d in index d' = v /\ (forall r, cmos d' r = cmos d r) /\ updating d' = updating d;
  in_value : forall d, let '(v, d') := inb CMOS_RETURN d in
    index d' = index d /\ (forall r, cmos d' r = cmos d r) /\
    if index d =? CMOS_STATA then Z.testbit v 7 = bool_decide (updating d <> 0%nat) /\ updating d' = pred (updating d)
    else v = cmos d (index d) /\ updating d' = updating d
}.

Section rtc.
Context {D : Type} {H : Hardware D} {R : RtcHw D}.
Abbreviation machine := (machine D).

Definition same_clock (d d' : D) : Prop := (forall r, cmos d' r = cmos d r) /\ updating d' = updating d.
Lemma same_clock_trans d d1 d2 : same_clock d d1 -> same_clock d1 d2 -> same_clock d d2.
Proof. intros [A B] [A' B']. split; [intros r; by rewrite A'|congruence]. Qed.

Lemma run_cmos_read r (m : machine) : 0 <= r < 256 -> r <> CMOS_STATA ->
  exists d', run (cmos_read r m) = ROk (cmos (hw m) r) (set_hw d' m) /\ same_clock (hw m) d'.
Proof.
  intros Hr Hne. unfold cmos_read. rewrite run_bind. unfold out_port, in_port. cbn [modify run rbind hw set_hw].
  assert (u8 r = r) as -> by (apply Z.mod_small; lia). destruct (out_select r (hw m)) as (Hi & Hc & Hu). set (d := outb CMOS_PORT r (hw m)) in *.
  pose proof (in_value d) as Hv. destruct (inb CMOS_RETURN d) as [v d']. rewrite Hi in Hv. destruct Hv as (_ & Hc' & Hv).
  destruct (Z.eqb_spec r CMOS_STATA); [done|]. destruct Hv as [-> Hu']. exists d'. cbn [run]. rewrite Hc. split; [done|].
  split; [intros j; by rewrite Hc', Hc|congruence].
Qed.

Lemma run_status_a (m : machine) : exists v d', run (cmos_read CMOS_STATA m) = ROk v (set_hw d' m) /\
  (Z.land v CMOS_UIP =? 0) = bool_decide (updating (hw m) = 0%nat) /\ (forall r, cmos d' r = cmos (hw m) r) /\ updating d' = pred (updating (hw m)).
Proof.
  unfold cmos_read. rewrite run_bind. unfold out_port, in_port. cbn [modify run rbind hw set_hw]. change (u8 CMOS_STATA) with CMOS_STATA.
  destruct (out_select CMOS_STATA (hw m)) as (Hi & Hc & Hu). set (d := outb CMOS_PORT CMOS_STATA (hw m)) in *.
  pose proof (in_value d) as Hv. destruct (inb CMOS_RETURN d) as [v d']. rewrite Hi in Hv. destruct Hv as (_ & Hc' & Hv & Hu').
  exists v, d'. cbn [run]. split; [done|]. rewrite Hu in Hv, Hu'. split; [|split; [intros r; by rewrite Hc', Hc|done]].
  assert ((Z.land v CMOS_UIP =? 0) = negb (Z.testbit v 7)) as ->.
  { destruct (Z.eqb_spec (Z.land v CMOS_UIP) 0) as [E|E].
    - apply (f_equal (fun x => Z.testbit x 7)) in E. rewrite Z.land_spec, Z.testbit_0_l in E. change (Z.testbit CMOS_UIP 7) with true in E. by rewrite andb_true_r in E; rewrite E.
    - destruct (Z.testbit v 7) eqn:E7; [done|]. destruct E. apply Z.bits_inj_0. intros n. rewrite Z.land_spec. change CMOS_UIP with (2 ^ 7).
      destruct (decide (n = 7)) as [->|]; [by rewrite E7|]. rewrite Z.pow2_bits_false by lia. apply andb_false_r. }
  rewrite Hv. destruct (decide (updating (hw m) = 0%nat)) as [E|E]; [by rewrite E|]. by rewrite bool_decide_eq_true_2, bool_decide_eq_false_2.
Qed.

(** The registers as a date. *)
Definition raw (d : D) : rtcdate := mkDate (cmos d SECS) (cmos d MINS) (cmos d HOURS) (cmos d DAY) (cmos d MONTH) (cmos d YEAR).
Lemma raw_same d d' : (forall r, cmos d' r = cmos d r) -> raw d' = raw d.
Proof. intros E. unfold raw. by rewrite !E. Qed.

Lemma run_fill (m : machine) : exists d', run (fill_rtcdate m) = ROk (raw (hw m)) (set_hw d' m) /\ same_clock (hw m) d'.
Proof.
  unfold fill_rtcdate.
  destruct (run_cmos_read SECS m) as (d1 & R1 & S1); [done..|]. rewrite run_bind, R1. cbn [rbind].
  destruct (run_cmos_read MINS (set_hw d1 m)) as (d2 & R2 & S2); [done..|]. rewrite run_bind, R2. cbn [rbind].
  destruct (run_cmos_read HOURS (set_hw d2 m)) as (d3 & R3 & S3); [done..|]. rewrite run_bind. change (set_hw d2 (set_hw d1 m)) with (set_hw d2 m). rewrite R3. cbn [rbind].
  destruct (run_cmos_read DAY (set_hw d3 m)) as (d4 & R4 & S4); [done..|]. rewrite run_bind. change (set_hw d3 (set_hw d2 m)) with (set_hw d3 m). rewrite R4. cbn [rbind].
  destruct (run_cmos_read MONTH (set_hw d4 m)) as (d5 & R5 & S5); [done..|]. rewrite run_bind. change (set_hw d4 (set_hw d3 m)) with (set_hw d4 m). rewrite R5. cbn [rbind].
  destruct (run_cmos_read YEAR (set_hw d5 m)) as (d6 & R6 & S6); [done..|]. rewrite run_bind. change (set_hw d5 (set_hw d4 m)) with (set_hw d5 m). rewrite R6. cbn [rbind run ret].
  cbn [hw set_hw] in *. pose proof (same_clock_trans _ _ _ S1 S2) as T2. pose proof (same_clock_trans _ _ _ T2 S3) as T3. pose proof (same_clock_trans _ _ _ T3 S4) as T4.
  pose proof (same_clock_trans _ _ _ T4 S5) as T5. pose proof (same_clock_trans _ _ _ T5 S6) as T6.
  exists d6. split; [|done]. f_equal. unfold raw. by rewrite (proj1 S1), (proj1 T2), (proj1 T3), (proj1 T4), (proj1 T5).
Qed.

(** A round for each read that shows an update, and one more. *)
Lemma run_stable fuel (m : machine) : (updating (hw m) <= fuel)%nat ->
  exists d', run (stable_date fuel m) = ROk (raw (hw m)) (set_hw d' m) /\ forall r, cmos d' r = cmos (hw m) r.
Proof.
  revert m. induction fuel as [|fuel IH]; intros m Hf; cbn [stable_date].
  all: destruct (run_fill m) as (d1 & R1 & S1 & U1); rewrite run_bind, R1; cbn [rbind].
  all: destruct (run_status_a (set_hw d1 m)) as (v & d2 & R2 & Ev & S2 & U2); rewrite run_bind, R2; cbn [rbind]; cbn [hw set_hw] in *; rewrite Ev, U1.
  all: destruct (decide (updating (hw m) = 0%nat)) as [E|E]; [rewrite bool_decide_eq_true_2 by done; cbn [negb]|rewrite bool_decide_eq_false_2 by done; cbn [negb]].
  1, 3: destruct (run_fill (set_hw d2 m)) as (d3 & R3 & S3 & _); rewrite run_bind; change (set_hw d2 (set_hw d1 m)) with (set_hw d2 m); rewrite R3; cbn [rbind hw set_hw];
    assert (raw d2 = raw (hw m)) as -> by (rewrite (raw_same _ _ S2); by apply raw_same); rewrite bool_decide_eq_true_2 by done;
    exists d3; (split; [done|]); intros r; cbn [hw set_hw] in S3; by rewrite S3, S2, S1.
  - lia.
  - change (set_hw d2 (set_hw d1 m)) with (set_hw d2 m). destruct (IH (set_hw d2 m)) as (d' & R3 & S3); cbn [hw set_hw] in *; [lia|].
    exists d'. rewrite R3. split; [f_equal; rewrite (raw_same _ _ S2); by apply raw_same|]. intros r. by rewrite S3, S2, S1.
Qed.

Definition bcd (x : Z) : Z := x / 10 * 16 + x mod 10.
Lemma CONV_bcd x : 0 <= x < 100 -> CONV (bcd x) = x.
Proof.
  intros Hx. unfold CONV, bcd. pose proof (Z.div_mod x 10 ltac:(lia)). pose proof (Z.mod_pos_bound x 10 ltac:(lia)). set (a := x / 10) in *. set (b := x mod 10) in *.
  rewrite Z.shiftr_div_pow2 by lia. change 0xf with (Z.ones 4). rewrite Z.land_ones by lia. change (2 ^ 4) with 16.
  rewrite Z.div_add_l, (Z.div_small b) by lia. rewrite Z.add_comm at 1. rewrite (Z.add_comm (a * 16)), Z.mod_add, Z.mod_small by lia. rewrite u32_small; lia.
Qed.

(** The clock shows this date: two digits of the year, in BCD unless bit 2 of status register B says binary. *)
Definition shows (d : D) (t : rtcdate) : Prop :=
  let enc := if Z.land (cmos d CMOS_STATB) (Z.shiftl 1 2) =? 0 then bcd else id in
  raw d = mkDate (enc (second t)) (enc (minute t)) (enc (hour t)) (enc (day t)) (enc (month t)) (enc (year t - 2000)).
Definition two_digits (t : rtcdate) : Prop :=
  Forall (fun x => 0 <= x < 100) [second t; minute t; hour t; day t; month t; year t - 2000].

(** [cmostime] returns the date the clock shows, in either encoding, once the update is over. *)
Theorem cmostime_reads (m : machine) fuel t :
  shows (hw m) t -> two_digits t -> (updating (hw m) <= fuel)%nat -> exists m', run (cmostime fuel m) = ROk t m'.
Proof.
  intros Hs Ht Hf. unfold two_digits in Ht. rewrite !Forall_cons in Ht. destruct Ht as (T1 & T2 & T3 & T4 & T5 & T6 & _). destruct t as [s i h d o y].
  cbn [second minute hour day month year] in *. unfold cmostime. destruct (run_cmos_read CMOS_STATB m) as (d1 & R1 & S1 & U1); [done..|]. rewrite run_bind, R1. cbn [rbind].
  destruct (run_stable fuel (set_hw d1 m)) as (d2 & R2 & S2); [cbn [hw set_hw]; lia|]. rewrite run_bind, R2. cbn [rbind run ret hw set_hw]. eexists. f_equal.
  rewrite (raw_same _ _ S1). unfold shows in Hs. cbn [second minute hour day month year] in Hs. rewrite Hs.
  destruct (Z.land (cmos (hw m) CMOS_STATB) (Z.shiftl 1 2) =? 0); cbn [second minute hour day month year id];
    rewrite ?CONV_bcd by done; (replace (y - 2000 + 2000) with y by lia); by rewrite u32_small by lia.
Qed.
End rtc.

(** * A machine with these devices *)

Module Pc.
Record dev := mkDev { p1 : pic; p2 : pic; sel : Z; regs : gmap Z Z; idx : Z; clock : gmap Z Z; busy : nat }.
Definition reg (d : dev) (r : Z) : Z := default 0 (regs d !! r).
Definition out (p v : Z) (d : dev) : dev :=
  mkDev (pic_out IO_PIC1 p v (p1 d)) (pic_out IO_PIC2 p v (p2 d)) (sel d) (regs d) (if p =? CMOS_PORT then v else idx d) (clock d) (busy d).
Definition inp (p : Z) (d : dev) : Z * dev :=
  if (p =? CMOS_RETURN) && (idx d =? CMOS_STATA) then
    (if decide (busy d = 0%nat) then 0 else CMOS_UIP, mkDev (p1 d) (p2 d) (sel d) (regs d) (idx d) (clock d) (pred (busy d)))
  else (default 0 (clock d !! idx d), d).
Definition wr (a v : Z) (d : dev) : dev :=
  if a =? IOAPIC then mkDev (p1 d) (p2 d) v (regs d) (idx d) (clock d) (busy d)
  else if a =? IOAPIC + 16 then mkDev (p1 d) (p2 d) (sel d) (<[sel d := v]> (regs d)) (idx d) (clock d) (busy d)
  else d.
#[global] Instance hardware : Hardware dev :=
  {| inb := inp; outb := out; reg_read a d := (reg d (sel d), d); reg_write := wr; readeflags d := 0 |}.
#[global] Instance irq : IrqHw dev.
Proof.
  refine {| master := p1; slave := p2; IrqFacts.sel := sel; redir := reg |}; try done.
  - intros a v d. unfold reg_write, hardware, wr. by destruct (a =? IOAPIC), (a =? IOAPIC + 16).
  - intros v d j _. unfold reg_write, hardware, wr, reg. change (IOAPIC + 16 =? IOAPIC) with false. rewrite Z.eqb_refl. cbn [regs].
    destruct (Z.eqb_spec j (sel d)) as [->|]; [by rewrite lookup_insert_eq|by rewrite lookup_insert_ne].
Defined.
#[global] Instance rtc : RtcHw dev.
Proof.
  refine {| index := idx; cmos d r := default 0 (clock d !! r); updating := busy |}.
  - intros v d. done.
  - intros d. unfold inb, hardware, inp. rewrite Z.eqb_refl. cbn [andb]. destruct (Z.eqb_spec (idx d) CMOS_STATA) as [E|E]; cbn [idx clock busy].
    + split; [done|]. split; [done|]. split; [|done]. by destruct (decide (busy d = 0%nat)) as [->|]; [|rewrite bool_decide_eq_true_2].
    + done.
Defined.
(** Twenty-four lines; 12:34:56 on 17 November 2025, in BCD. *)
Definition idle : pic := mkPic 0 false false 0 0.
Definition dev0 : dev :=
  mkDev idle idle 0 {[ REG_VER := Z.shiftl 23 16 ]} 0
    (list_to_map [(SECS, 0x56); (MINS, 0x34); (HOURS, 0x12); (DAY, 0x17); (MONTH, 0x11); (YEAR, 0x25); (CMOS_STATB, 2)]) 3.
Definition machine0 : machine dev := mkMachine ∅ dev0 0 1 2 0 0 (replicate 8 0) irqmask0 0 0 0 [].
End Pc.

(** Keyboard, serial line and disk, the disk at processor 1. *)
Lemma irq_routing_witness : exists m', run (boot_irqs [(IRQ_KBD, 0); (IRQ_COM1, 0); (IRQ_IDE, 1)] Pc.machine0) = ROk tt m' /\
  pic_vector (hw m') IRQ_IDE = Some 46 /\ ioapic_target (hw m') IRQ_IDE = Some (46, 1) /\ ioapic_target (hw m') 5 = None.
Proof.
  destruct (irq_routing [(IRQ_KBD, 0); (IRQ_COM1, 0); (IRQ_IDE, 1)] Pc.machine0) as (m' & R & P & T).
  - discriminate.
  - reflexivity.
  - reflexivity.
  - repeat constructor; cbn; discriminate.
  - exists m'. split; [exact R|]. rewrite P, !T; [|split; discriminate..|split; [discriminate|reflexivity]|discriminate].
    rewrite bool_decide_eq_true_2; [split; [reflexivity|split; reflexivity]|]. apply list_elem_of_lookup_2 with 2%nat. reflexivity.
Defined.
Lemma cmostime_reads_witness : exists m', run (cmostime 3 Pc.machine0) = ROk (mkDate 56 34 12 17 11 2025) m'.
Proof.
  apply cmostime_reads; [vm_compute; reflexivity| |apply le_n]. unfold two_digits. repeat constructor; discriminate.
Defined.
