(* ===== verification/Init.v ===== *)
(** The first process (init.c), and zombie.c.

    A process is the tree of its system calls.  [behave] follows the parent through such a tree: an oracle
    gives the results of [open], [fork] and [wait]; a child that [fork] starts follows its own branch
    with a copy of the variables, and only the programs it runs are recorded.  The loop of init has no end: it is cut off
    after a number of rounds, and so is the loop that waits. *)

From Stdlib Require Import ZArith Lia.
From stdpp Require Import base tactics option strings numbers list.
From S2P Require Import Prelude CString Format Sysfile User Sh.
Open Scope Z_scope.

Inductive act :=
| Exit
| Stop
| Exec (path : list Z) (argv : list (list Z)) (failed : act)
| Open (path : list Z) (mode : Z) (k : Z -> act)
| Mknod (path : list Z) (major minor : Z) (k : act)
| Dup (fd : Z) (k : act)
| Fork (k : Z -> act)
| Wait (k : Z -> act)
| Sleep (n : Z) (k : act)
| Print (fd : Z) (text : list Z) (k : act).

(** * init.c *)

(** [while ((wpid = wait()) >= 0 && wpid != pid) printf(1, "zombie!\n");] *)
Fixpoint reap (fuel : nat) (pid : Z) (k : act) : act :=
  match fuel with
  | O => Stop
  | S fuel => Wait (fun wpid => if (0 <=? wpid) && negb (wpid =? pid) then Print 1 (str "zombie!" ++ [nl]) (reap fuel pid k) else k)
  end.

(** The [for (;;)] of [main]; [status] is the variable of the process that runs it. *)
Fixpoint init_loop (rounds fuel : nat) (status : Z) : act :=
  match rounds with
  | O => Stop
  | S rounds =>
      Print 1 (str "init: starting sh" ++ [nl]) (
      Fork (fun pid =>
        if pid <? 0 then Print 1 (str "init: fork failed" ++ [nl]) Exit else
        if pid =? 0 then Exec (str "sh") [str "sh"] (Print 1 (str "init: exec sh failed" ++ [nl]) Exit) else
        Fork (fun pid2 =>
          if pid2 <? 0 then Print 1 (str "init: fork failed" ++ [nl]) Exit else
          if (pid2 =? 0) && (status =? 0) then
            let status := status + 1 in
            Exec (str "fileserver") [str "fileserver"] (Print 1 (str "init: exec fss failed" ++ [nl]) Exit)
          else reap fuel pid (init_loop rounds fuel status))))
  end.
Definition init_main (rounds fuel : nat) : act :=
  let rest := Dup 0 (Dup 0 (init_loop rounds fuel 0)) in
  Open (str "console") O_RDWR (fun fd =>
    if fd <? 0 then Mknod (str "console") 1 1 (Open (str "console") O_RDWR (fun _ => rest)) else rest).

(** * zombie.c *)

Definition zombie_main : act := Fork (fun pid => if 0 <? pid then Sleep 5 Exit else Exit).

(** * What happens *)

Inductive happened := Ran (argv : list (list Z)) | Said (text : list Z) | Made (path : list Z) | Opened (path : list Z) | Duped (fd : Z) | Slept (n : Z) | Exited.

(** The results of [open], [fork] and [wait], in order; an [exec] succeeds unless [missing]. *)
Record oracle := mkOracle { opens : list Z; forks : list Z; waits : list Z }.

Section behave.
Context (missing : list Z -> bool).

(** What a child does before it runs a program or ends; a child that would fork or wait is not followed. *)
Fixpoint child (a : act) : list happened :=
  match a with
  | Exec path argv k => if missing path then child k else [Ran argv]
  | Print _ t k => Said t :: child k
  | Sleep n k => Slept n :: child k
  | Exit => [Exited]
  | _ => []
  end.

Fixpoint behave (a : act) (o : oracle) : list happened :=
  match a with
  | Exit => [Exited]
  | Stop => []
  | Exec path argv k => if missing path then behave k o else [Ran argv]
  | Open path _ k =>
      match opens o with
      | r :: rs => (if 0 <=? r then [Opened path] else []) ++ behave (k r) (mkOracle rs (forks o) (waits o))
      | [] => []
      end
  | Mknod path _ _ k => Made path :: behave k o
  | Dup fd k => Duped fd :: behave k o
  | Fork k =>
      match forks o with
      | r :: rs => (if 0 <? r then child (k 0) else []) ++ behave (k r) (mkOracle (opens o) rs (waits o))
      | [] => []
      end
  | Wait k =>
      match waits o with
      | r :: rs => behave (k r) (mkOracle (opens o) (forks o) rs)
      | [] => []
      end
  | Sleep n k => Slept n :: behave k o
  | Print _ t k => Said t :: behave k o
  end.

(** * Theorems *)

(** A round: the identifiers of the two children, and of the orphans that end before the shell. *)
Record round := mkRound { shell : Z; server : Z; orphans : list Z }.
Definition plausible (r : round) : Prop := 0 < shell r /\ 0 < server r /\ Forall (fun w => 0 <= w /\ w <> shell r) (orphans r).
Definition seen (r : round) : list happened :=
  [Said (str "init: starting sh" ++ [nl]); Ran [str "sh"]; Ran [str "fileserver"]] ++ replicate (length (orphans r)) (Said (str "zombie!" ++ [nl])).
Definition results (rs : list round) (ops : list Z) : oracle :=
  mkOracle ops (rs ≫= fun r => [shell r; server r]) (rs ≫= fun r => orphans r ++ [shell r]).

Lemma behave_reap fuel pid k ws os fs rest :
  Forall (fun w => 0 <= w /\ w <> pid) ws -> (length ws < fuel)%nat ->
  behave (reap fuel pid k) (mkOracle os fs (ws ++ pid :: rest)) = replicate (length ws) (Said (str "zombie!" ++ [nl])) ++ behave k (mkOracle os fs rest).
Proof.
  revert fuel. induction ws as [|w ws IH]; intros [|fuel] Hw Hf; cbn [length] in Hf; try lia; cbn [reap behave app waits opens forks].
  - rewrite Z.eqb_refl, andb_false_r. done.
  - apply Forall_cons in Hw as [[H0 Hne] Hw]. destruct (Z.leb_spec 0 w), (Z.eqb_spec w pid); try done; try lia. cbn [andb negb behave length replicate app].
    f_equal. apply IH; [done|lia].
Qed.

Hypothesis Hsh : missing (str "sh") = false.
Hypothesis Hfs : missing (str "fileserver") = false.

Lemma behave_loop rs rounds fuel ops :
  Forall plausible rs -> Forall (fun r => (length (orphans r) < fuel)%nat) rs -> length rs = rounds ->
  behave (init_loop rounds fuel 0) (results rs ops) = rs ≫= seen.
Proof.
  intros Hp Hf <-. induction Hp as [|r rs (H1 & H2 & H3) Hp IH]; [done|]. apply Forall_cons in Hf as [Hf1 Hf]. specialize (IH Hf).
  destruct r as [p q ws]. cbn [shell server orphans] in *. cbn [length init_loop behave results forks mbind list_bind app shell server orphans].
  destruct (Z.ltb_spec 0 p); [|lia]. destruct (Z.ltb_spec p 0); [lia|]. destruct (Z.eqb_spec p 0); [lia|].
  cbn [Z.ltb Z.compare Z.eqb child behave forks opens waits andb]. rewrite Hsh. destruct (Z.ltb_spec 0 q); [|lia]. rewrite Hfs.
  destruct (Z.ltb_spec q 0); [lia|]. destruct (Z.eqb_spec q 0); [lia|]. cbn [andb].
  change (opens _) with ops. change (waits _) with ((ws ++ [p]) ++ (rs ≫= fun r => orphans r ++ [shell r])). rewrite <- app_assoc. cbn [app].
  rewrite behave_reap by done. unfold seen at 1. cbn [orphans app]. do 3 f_equal. fold (results rs ops). rewrite IH. done.
Qed.

(** init opens the console as descriptors 0, 1 and 2, making the device first if it is not there;
    then it starts a shell again each time the shell ends, whatever orphans it is handed in between.
    The variable [status] of init itself never changes, so each round starts a file server too. *)
Theorem init_keeps_a_shell rs rounds fuel r0 r1 :
  Forall plausible rs -> Forall (fun r => (length (orphans r) < fuel)%nat) rs -> length rs = rounds -> 0 <= r1 ->
  behave (init_main rounds fuel) (results rs [r0; r1]) =
    (if r0 <? 0 then [Made (str "console"); Opened (str "console")] else [Opened (str "console")]) ++ [Duped 0; Duped 0] ++ (rs ≫= seen).
Proof.
  intros Hp Hf Hr H1. unfold init_main. cbn [behave opens results]. destruct (Z.leb_spec 0 r0), (Z.ltb_spec r0 0); try lia.
  - cbn [behave app]. do 3 f_equal. apply (behave_loop rs rounds fuel [r1]); done.
  - cbn [behave app opens]. destruct (Z.leb_spec 0 r1); [|lia]. cbn [app]. do 4 f_equal. apply (behave_loop rs rounds fuel []); done.
Qed.
End behave.

Lemma init_keeps_a_shell_witness :
  behave (fun _ => false) (init_main 2 2) (results [mkRound 2 3 [7]; mkRound 8 9 []] [-1; 0]) =
    [Made (str "console"); Opened (str "console"); Duped 0; Duped 0] ++ seen (mkRound 2 3 [7]) ++ seen (mkRound 8 9 []).
Proof.
  rewrite (init_keeps_a_shell (fun _ => false) eq_refl eq_refl [mkRound 2 3 [7]; mkRound 8 9 []] 2 2 (-1) 0); [reflexivity| |repeat constructor|reflexivity|discriminate].
  repeat constructor; discriminate.
Defined.

(** zombie leaves a child that has ended and that nobody waits for: the parent sleeps, then exits. *)
Lemma zombie_leaves_orphan missing pid : 0 < pid -> behave missing zombie_main (mkOracle [] [pid] []) = [Exited; Slept 5; Exited].
Proof. intros Hp. cbn. destruct (Z.ltb_spec 0 pid); [done|lia]. Qed.
