(* ===== verification/Boot.v ===== *)
(** The boot loader: bootmain.c.

    It loads the kernel, an ELF file that starts at sector 1 of the disk, through the ports of the
    IDE controller ([IdePorts] of Ide.v, with the laws [IdeLaws] that the driver's proofs use).  The memory is
    that of Mem.v; the result of [bootmain] is the entry point it jumps to, [None] if the file is not
    an ELF file.  The theorem says that every segment ends up where its header says, although each
    [readseg] writes whole sectors and so more than it was asked to. *)

From Stdlib Require Import ZArith Lia.
From stdpp Require Import base tactics option gmap strings numbers list.
From S2P Require Import Prelude Mem Layout Bytes Bio Ide IdeFacts Exec.
Open Scope Z_scope.

Definition SECTSIZE : Z := 512.
(** [elf = (struct elfhdr * ) 0x10000] *)
Definition elf : Z := 0x10000.

Record boot (D : Type) := mkBoot { bmem : mem; bhw : D }.
Arguments mkBoot {D} bmem bhw.
Arguments bmem {D} b.
Arguments bhw {D} b.

(** Two bytes at [a]. *)
Definition ld16 (m : mem) (a : Z) : Z := ld8 m a + 2 ^ 8 * ld8 m (a + 1).
Definition PH_PADDR : Z := 12.

Section boot.
Context {D : Type} {P : IdePorts D}.
Abbreviation M := (M (boot D)).

Definition in_port (p : Z) : M Z := fun s => let '(v, d) := inb p (bhw s) in Ret v (mkBoot (bmem s) d).
Definition out_port (p v : Z) : M unit := modify (fun s => mkBoot (bmem s) (outb p (u8 v) (bhw s))).

(** [fuel] bounds the polls. *)
Fixpoint waitdisk (fuel : nat) : M unit :=
  r <- in_port 0x1F7 ;;
  if Z.land r 0xC0 =? 0x40 then ret tt else
  match fuel with O => nofuel | S fuel => waitdisk fuel end.

Definition readsect (fuel : nat) (dst offset : Z) : M unit :=
  waitdisk fuel ;;
  out_port 0x1F2 1 ;;
  out_port 0x1F3 offset ;;
  out_port 0x1F4 (Z.shiftr offset 8) ;;
  out_port 0x1F5 (Z.shiftr offset 16) ;;
  out_port 0x1F6 (Z.lor (Z.shiftr offset 24) 0xE0) ;;
  out_port 0x1F7 0x20 ;;
  waitdisk fuel ;;
  modify (fun s => let '(bs, d) := insl 0x1F0 (SECTSIZE / 4) (bhw s) in mkBoot (st_bytes (bmem s) dst bs) d).

(** [n] sectors are enough when they reach from [pa] to [epa]. *)
Fixpoint readseg_loop (fuel n : nat) (pa epa offset : Z) : M unit :=
  if pa <? epa then
    match n with
    | O => nofuel
    | S n => readsect fuel pa offset ;; readseg_loop fuel n (pa + SECTSIZE) epa (u32 (offset + 1))
    end
  else ret tt.
Definition readseg (fuel : nat) (pa count offset : Z) : M unit :=
  let epa := u32 (pa + count) in
  let pa := u32 (pa - offset mod SECTSIZE) in
  let offset := offset / SECTSIZE + 1 in
  readseg_loop fuel (S (Z.to_nat (epa - pa))) pa epa offset.

(** [n] program headers from [ph] on. *)
Fixpoint load_segments (fuel n : nat) (ph : Z) : M unit :=
  match n with
  | O => ret tt
  | S n =>
      m <- gets bmem ;;
      let pa := ld32 m (ph + PH_PADDR) in
      readseg fuel pa (ld32 m (ph + 16)) (ld32 m (ph + 4)) ;;
      m <- gets bmem ;;
      let filesz := ld32 m (ph + 16) in
      let memsz := ld32 m (ph + 20) in
      when (filesz <? memsz) (modify (fun s => mkBoot (stosb (bmem s) (u32 (pa + filesz)) 0 (Z.to_nat (memsz - filesz))) (bhw s))) ;;
      load_segments fuel n (ph + PROGHDR_SIZE)
  end.
Definition bootmain (fuel : nat) : M (option Z) :=
  readseg fuel elf 4096 0 ;;
  m <- gets bmem ;;
  if negb (ld32 m elf =? ELF_MAGIC) then ret None else
  load_segments fuel (Z.to_nat (ld16 m (elf + 44))) (u32 (elf + ld32 m (elf + 28))) ;;
  m <- gets bmem ;;
  ret (Some (ld32 m (elf + 24))).
End boot.

(** * Sectors *)

Section facts.
Context {D : Type} {P : IdePorts D} {V : IdeView D} {L : IdeLaws D}.

(** Byte [o] of the kernel file. *)
Definition kbyte (d : D) (o : Z) : Z := default 0 (medium d 0 (o / SECTSIZE + 1) !! Z.to_nat (o mod SECTSIZE)).
(** Sectors have 512 bytes. *)
Definition formatted (d : D) : Prop := forall s, 0 <= s -> length (medium d 0 s) = 512%nat /\ Forall (fun b => 0 <= b < 256) (medium d 0 s).

Lemma formatted_same d d' : same_medium d d' -> formatted d -> formatted d'.
Proof. intros E F s Hs. rewrite E. by apply F. Qed.
Lemma kbyte_same d d' o : same_medium d d' -> kbyte d' o = kbyte d o.
Proof. intros E. unfold kbyte. by rewrite E. Qed.

Lemma run_waitdisk fuel (s : boot D) : (delay (bhw s) <= fuel)%nat ->
  exists d, run (waitdisk fuel s) = ROk tt (mkBoot (bmem s) d) /\ same_hw (bhw s) d /\ delay d = 0%nat.
Proof.
  revert s. induction fuel as [|fuel IH]; intros s Hd; (destruct (delay (bhw s)) as [|n] eqn:En;
    [destruct (poll_ready _ En) as (r & d & E & H1 & _ & H3 & H4)|destruct (poll_busy _ _ En) as (r & d & E & H1 & H2 & H3)]); try lia.
  1, 2: exists d; cbn [waitdisk]; rewrite run_bind; unfold in_port; rewrite E; cbn [run rbind]; change 0xC0 with (Z.lor IDE_BSY IDE_DRDY); by rewrite H1.
  destruct (IH (mkBoot (bmem s) d)) as (d' & R & S' & Z'); [cbn [bhw]; lia|]. exists d'. cbn [waitdisk]. rewrite run_bind. unfold in_port. rewrite E. cbn [run rbind].
  change 0xC0 with (Z.lor IDE_BSY IDE_DRDY). change 0x40 with IDE_DRDY. rewrite (proj2 (Z.eqb_neq _ _) H1), R. split; [done|]. split; [by eapply same_hw_trans|done].
Qed.

(** The registers select sector [n] of drive 0. *)
Lemma select_boot n : 0 <= n < 2 ^ 28 ->
  u8 n + 2 ^ 8 * u8 (Z.shiftr n 8) + 2 ^ 16 * u8 (Z.shiftr n 16) + 2 ^ 24 * (u8 (Z.lor (Z.shiftr n 24) 0xE0) mod 16) = n /\
  u8 (Z.lor (Z.shiftr n 24) 0xE0) / 16 mod 2 = 0.
Proof.
  intros Hn. rewrite !Z.shiftr_div_pow2 by lia. unfold u8. assert (0 <= n / 2 ^ 24 < 16) as Hh by (split; [apply Z.div_pos; lia|apply Z.div_lt_upper_bound; lia]).
  set (h := n / 2 ^ 24) in *. assert (Z.lor h 0xE0 = h + 224) as ->.
  { assert (h = 0 \/ h = 1 \/ h = 2 \/ h = 3 \/ h = 4 \/ h = 5 \/ h = 6 \/ h = 7 \/ h = 8 \/ h = 9 \/ h = 10 \/ h = 11 \/ h = 12 \/ h = 13 \/ h = 14 \/ h = 15) as Hc by lia.
    repeat destruct Hc as [-> | Hc]; [reflexivity..|]. by rewrite Hc. }
  rewrite (Z.mod_small (h + 224)) by lia. split; [|clear - Hh; Z.to_euclidean_division_equations; lia].
  replace (h + 224) with (h + 14 * 16) by lia. rewrite Z.mod_add, (Z.mod_small h) by lia. unfold h. clear - Hn.
  change (2 ^ 24) with (2 ^ 8 * 2 ^ 8 * 2 ^ 8). change (2 ^ 16) with (2 ^ 8 * 2 ^ 8). rewrite <- !Z.div_div by lia.
  pose proof (Z.div_mod n (2 ^ 8) ltac:(lia)). pose proof (Z.div_mod (n / 2 ^ 8) (2 ^ 8) ltac:(lia)). pose proof (Z.div_mod (n / 2 ^ 8 / 2 ^ 8) (2 ^ 8) ltac:(lia)). lia.
Qed.

Lemma run_readsect fuel dst n (s : boot D) : (limit <= fuel)%nat -> 0 <= n < 2 ^ 28 ->
  exists d, run (readsect fuel dst n s) = ROk tt (mkBoot (st_bytes (bmem s) dst (medium (bhw s) 0 n)) d) /\ same_medium (bhw s) d.
Proof.
  intros Hf Hn. destruct (run_waitdisk fuel s) as (d0 & R0 & (_ & M0 & _) & _); [pose proof (delay_limit (bhw s)); lia|].
  unfold readsect. rewrite run_bind, R0. cbn [rbind]. repeat (rewrite run_bind; cbn [out_port modify run rbind bmem bhw]). change (u8 1) with 1. change (u8 0x20) with IDE_CMD_READ.
  destruct (out_reg 0x1f2 1 d0) as [Q2 M2]; [lia|]. set (d2 := outb 0x1F2 1 d0) in *.
  destruct (out_reg 0x1f3 (u8 n) d2) as [Q3 M3]; [lia|]. set (d3 := outb 0x1F3 _ d2) in *.
  destruct (out_reg 0x1f4 (u8 (Z.shiftr n 8)) d3) as [Q4 M4]; [lia|]. set (d4 := outb 0x1F4 _ d3) in *.
  destruct (out_reg 0x1f5 (u8 (Z.shiftr n 16)) d4) as [Q5 M5]; [lia|]. set (d5 := outb 0x1F5 _ d4) in *.
  destruct (out_reg 0x1f6 (u8 (Z.lor (Z.shiftr n 24) 0xE0)) d5) as [Q6 M6]; [lia|]. set (d6 := outb 0x1F6 _ d5) in *.
  assert (reg d6 0x1f2 = 1) as E2 by (rewrite Q6, Q5, Q4, Q3, Q2; reflexivity). destruct (out_read d6 E2) as [C7 M7]. set (d7 := outb 0x1F7 IDE_CMD_READ d6) in *.
  assert (unit_sel d6 = 0 /\ lba d6 = n) as [Ed El].
  { unfold unit_sel, lba. rewrite !Q6, !Q5, !Q4, !Q3. cbn [Z.eqb Pos.eqb]. by destruct (select_boot n Hn). }
  rewrite Ed, El in C7. destruct (run_waitdisk fuel (mkBoot (bmem s) d7)) as (d8 & R8 & (_ & M8 & C8) & Z8); [pose proof (delay_limit d7); cbn [bhw]; lia|].
  rewrite R8. cbn [rbind bhw bmem modify run] in *. destruct (in_data d8 0 n) as (d9 & E9 & M9); [congruence|done|]. change (SECTSIZE / 4) with 128. rewrite E9.
  assert (same_medium (bhw s) d8) as S8 by (intros a b; by rewrite M8, M7, M6, M5, M4, M3, M2, M0).
  exists d9. rewrite S8. split; [done|]. intros a b. by rewrite M9, S8.
Qed.

(** * Segments *)

(** Sectors that cover [len] bytes. *)
Definition nsect (len : Z) : Z := Z.max 0 ((len + (SECTSIZE - 1)) / SECTSIZE).

Lemma kbyte_sector d o j : formatted d -> 1 <= o -> 0 <= j < 512 -> u8 (default 0 (medium d 0 o !! Z.to_nat j)) = kbyte d (512 * (o - 1) + j).
Proof.
  intros F Ho Hj. unfold kbyte. change SECTSIZE with 512. rewrite (Z.mul_comm 512), Z.div_add_l, (Z.div_small j), (Z.add_comm (_ * 512)), Z.mod_add, Z.mod_small by lia.
  replace (o - 1 + 0 + 1) with o by lia. destruct (F o ltac:(lia)) as [Hl Hb]. destruct (lookup_lt_is_Some_2 (medium d 0 o) (Z.to_nat j)) as [b Hb2]; [lia|].
  rewrite Hb2. cbn [default from_option id]. rewrite Forall_lookup in Hb. apply Hb in Hb2. unfold u8. apply Z.mod_small. done.
Qed.

Lemma run_readseg_loop fuel n pa epa o (s : boot D) :
  (limit <= fuel)%nat -> formatted (bhw s) -> 1 <= o -> o + nsect (epa - pa) <= 2 ^ 28 -> epa - pa <= 512 * Z.of_nat n ->
  exists m d, run (readseg_loop fuel n pa epa o s) = ROk tt (mkBoot m d) /\ same_medium (bhw s) d /\
    forall a, ld8 m a = if in_range a pa (512 * nsect (epa - pa)) then kbyte (bhw s) (512 * (o - 1) + (a - pa)) else ld8 (bmem s) a.
Proof.
  intros Hf. revert pa o s. induction n as [|n IH]; intros pa o s F Ho Hmax Hn; cbn [readseg_loop].
  1, 2: destruct (Z.ltb_spec pa epa) as [Hlt|Hge]; [try lia|].
  1, 3: assert (nsect (epa - pa) = 0) as -> by (unfold nsect; change SECTSIZE with 512; Z.to_euclidean_division_equations; lia);
    exists (bmem s), (bhw s); (split; [by destruct s|]); (split; [done|]); intros a; unfold in_range; by destruct (Z.leb_spec pa a), (Z.ltb_spec a (pa + 512 * 0)); try lia.
  assert (nsect (epa - pa) = 1 + nsect (epa - (pa + SECTSIZE)) /\ 0 <= nsect (epa - (pa + SECTSIZE))) as [Ek Hk] by (unfold nsect; change SECTSIZE with 512; Z.to_euclidean_division_equations; lia).
  destruct (run_readsect fuel pa o s Hf) as (d1 & R1 & M1); [lia|]. rewrite run_bind, R1. cbn [rbind]. rewrite u32_small by lia.
  destruct (IH (pa + SECTSIZE) (o + 1) (mkBoot (st_bytes (bmem s) pa (medium (bhw s) 0 o)) d1)) as (m & d & R & M & E); cbn [bhw bmem] in *;
    [by eapply formatted_same|lia|lia|change SECTSIZE with 512; lia|].
  exists m, d. split; [exact R|]. split; [intros x y; by rewrite M, M1|]. intros a. rewrite E, Ek, ld8_st_bytes. destruct (F o ltac:(lia)) as [-> _].
  rewrite (kbyte_same _ _ _ M1). change SECTSIZE with 512 in *. set (k := nsect (epa - (pa + 512))) in *. unfold in_range.
  destruct (Z.leb_spec (pa + 512) a), (Z.leb_spec pa a), (Z.ltb_spec a (pa + 512 + 512 * k)), (Z.ltb_spec a (pa + 512 * (1 + k))), (Z.ltb_spec a (pa + Z.of_nat 512)); cbn [andb]; try lia; try done.
  - f_equal. lia.
  - rewrite kbyte_sector by (done || lia). done.
Qed.

Lemma run_readseg fuel pa count off (s : boot D) :
  let lo := pa - off mod SECTSIZE in let len := pa + count - lo in
  (limit <= fuel)%nat -> formatted (bhw s) -> 0 <= off -> 0 <= lo -> 0 <= count -> pa + count < 2 ^ 32 -> off / SECTSIZE + 1 + nsect len <= 2 ^ 28 ->
  exists m d, run (readseg fuel pa count off s) = ROk tt (mkBoot m d) /\ same_medium (bhw s) d /\
    forall a, ld8 m a = if in_range a lo (512 * nsect len) then kbyte (bhw s) (off + (a - pa)) else ld8 (bmem s) a.
Proof.
  intros lo len Hf F Ho Hlo Hc Hmax Hs. pose proof (Z.mod_pos_bound off SECTSIZE ltac:(done)) as Hm. pose proof (Z.div_mod off SECTSIZE ltac:(done)) as Hd.
  pose proof (Z.div_pos off SECTSIZE Ho ltac:(done)). unfold readseg. rewrite (u32_small (pa + count)), (u32_small (pa - _)) by (subst lo; lia). fold lo len.
  destruct (run_readseg_loop fuel (S (Z.to_nat len)) lo (pa + count) (off / SECTSIZE + 1) s) as (m & d & R & M & E); [done|done|lia|done|fold len; lia|].
  exists m, d. split; [exact R|]. split; [done|]. intros a. rewrite E. fold len. destruct (in_range a lo (512 * nsect len)); [|done]. f_equal. subst lo. change SECTSIZE with 512 in *. lia.
Qed.

Record seg := mkSeg { s_off : Z; s_pa : Z; s_filesz : Z; s_memsz : Z }.
Definition s_size (g : seg) : Z := Z.max (s_filesz g) (s_memsz g).
(** The first byte that loading the segment writes, and the first after it. *)
Definition s_low (g : seg) : Z := s_pa g - s_off g mod SECTSIZE.
Definition s_high (g : seg) : Z := Z.max (s_low g + 512 * nsect (s_pa g + s_filesz g - s_low g)) (s_pa g + s_memsz g).

(** The segment is within memory and the disk, and clear of the scratch page with the headers. *)
Record fits (g : seg) : Prop := {
  ft_pos : 0 <= s_off g /\ 0 <= s_low g /\ 0 <= s_filesz g /\ 0 <= s_memsz g;
  ft_mem : s_pa g + s_size g < 2 ^ 32;
  ft_disk : s_off g / SECTSIZE + 1 + nsect (s_pa g + s_filesz g - s_low g) <= 2 ^ 28;
  ft_scratch : s_high g <= elf \/ elf + 4096 <= s_low g
}.
(** Segments are in increasing order: none writes below the end of one before it. *)
Fixpoint increasing (gs : list seg) : Prop :=
  match gs with
  | [] => True
  | g :: gs => Forall (fun h => s_pa g + s_size g <= s_low h) gs /\ increasing gs
  end.
(** The bytes of the file, then zeroes. *)
Definition loaded (d : D) (m : mem) (g : seg) : Prop :=
  forall a, s_pa g <= a < s_pa g + s_size g -> ld8 m a = if a <? s_pa g + s_filesz g then kbyte d (s_off g + (a - s_pa g)) else 0.

(** Words of the file; the header at offset [o]. *)
Definition k32 (d : D) (o : Z) : Z := kbyte d o + 2 ^ 8 * kbyte d (o + 1) + 2 ^ 16 * kbyte d (o + 2) + 2 ^ 24 * kbyte d (o + 3).
Definition k16 (d : D) (o : Z) : Z := kbyte d o + 2 ^ 8 * kbyte d (o + 1).
Definition seg_at (d : D) (o : Z) : seg := mkSeg (k32 d (o + 4)) (k32 d (o + PH_PADDR)) (k32 d (o + 16)) (k32 d (o + 20)).
Definition scratch (d : D) (m : mem) : Prop := forall o, 0 <= o < 4096 -> ld8 m (elf + o) = kbyte d o.

Lemma scratch_ld32 d m o : scratch d m -> 0 <= o -> o + 4 <= 4096 -> ld32 m (elf + o) = k32 d o.
Proof. intros S H0 H1. unfold ld32, k32. rewrite <- !Z.add_assoc, !S by lia. done. Qed.

(** One segment. *)
Lemma run_segment fuel g (s : boot D) :
  (limit <= fuel)%nat -> formatted (bhw s) -> fits g ->
  exists m1 m2 d, run (readseg fuel (s_pa g) (s_filesz g) (s_off g) s) = ROk tt (mkBoot m1 d) /\ same_medium (bhw s) d /\
    run (when (s_filesz g <? s_memsz g) (modify (fun s => mkBoot (stosb (bmem s) (u32 (s_pa g + s_filesz g)) 0 (Z.to_nat (s_memsz g - s_filesz g))) (bhw s))) (mkBoot m1 d)) = ROk tt (mkBoot m2 d) /\
    loaded (bhw s) m2 g /\ (forall a, a < s_low g \/ s_high g <= a -> ld8 m2 a = ld8 (bmem s) a /\ ld8 m1 a = ld8 (bmem s) a).
Proof.
  intros Hf F [(P1 & P2 & P3 & P4) HM HD _]. unfold s_size in HM. destruct (run_readseg fuel (s_pa g) (s_filesz g) (s_off g) s) as (m1 & d & R1 & M1 & E1); [done|done|done|exact P2|done|lia|exact HD|].
  fold (s_low g) in E1. set (len := s_pa g + s_filesz g - s_low g) in *. assert (len <= 512 * nsect len) as Hlen by (unfold nsect; change SECTSIZE with 512; Z.to_euclidean_division_equations; lia).
  pose proof (Z.mod_pos_bound (s_off g) SECTSIZE ltac:(done)) as Hmod. unfold s_low in *. rewrite u32_small by (unfold s_low in *; lia).
  set (lo := s_pa g - s_off g mod SECTSIZE) in *.
  exists m1, (if s_filesz g <? s_memsz g then stosb m1 (s_pa g + s_filesz g) 0 (Z.to_nat (s_memsz g - s_filesz g)) else m1), d.
  split; [exact R1|]. split; [done|]. split; [by destruct (s_filesz g <? s_memsz g)|]. unfold loaded, s_high, s_low, s_size. fold lo len.
  destruct (Z.ltb_spec (s_filesz g) (s_memsz g)) as [Hz|Hz]; (split; [intros a Ha|intros a Ha]); rewrite ?ld8_stosb, !E1; unfold in_range.
  all: destruct (Z.leb_spec lo a), (Z.ltb_spec a (lo + 512 * nsect len)), (Z.leb_spec (s_pa g + s_filesz g) a); cbn [andb]; try lia; try done.
  all: try (destruct (Z.ltb_spec a (s_pa g + s_filesz g)); [|lia]; done).
  all: try (destruct (Z.ltb_spec a (s_pa g + s_filesz g)); [lia|]).
  all: destruct (Z.ltb_spec a (s_pa g + s_filesz g + Z.of_nat (Z.to_nat (s_memsz g - s_filesz g)))); try lia; done.
Qed.

(** The segments of [n] headers from offset [o] of the file on. *)
Fixpoint segments (d : D) (n : nat) (o : Z) : list seg :=
  match n with
  | O => []
  | S n => seg_at d o :: segments d n (o + PROGHDR_SIZE)
  end.

Lemma loaded_same d m m' g : (forall a, a < s_pa g + s_size g -> ld8 m' a = ld8 m a) -> loaded d m g -> loaded d m' g.
Proof. intros E Hl a Ha. rewrite E by lia. by apply Hl. Qed.

Lemma run_load_segments fuel n o d (s : boot D) (before : list seg) :
  (limit <= fuel)%nat -> formatted d -> same_medium d (bhw s) -> scratch d (bmem s) -> 0 <= o -> o + PROGHDR_SIZE * Z.of_nat n <= 4096 ->
  Forall fits (segments d n o) -> increasing (segments d n o) ->
  Forall (loaded d (bmem s)) before -> Forall (fun g => Forall (fun h => s_pa g + s_size g <= s_low h) (segments d n o)) before ->
  exists m d', run (load_segments fuel n (elf + o) s) = ROk tt (mkBoot m d') /\ scratch d m /\ Forall (loaded d m) (before ++ segments d n o).
Proof.
  intros Hf F. revert o s before. induction n as [|n IH]; intros o s before Hs Hsc Ho Hn Hft Hinc Hld Hbe; cbn [load_segments segments] in *.
  - exists (bmem s), (bhw s). rewrite app_nil_r. split; [by destruct s|done].
  - change PROGHDR_SIZE with 32 in *. apply Forall_cons in Hft as [Hg Hft]. destruct Hinc as [Hi Hinc]. set (g := seg_at d o) in *.
    assert (forall m, scratch d m -> ld32 m (elf + o + 4) = s_off g /\ ld32 m (elf + o + PH_PADDR) = s_pa g /\ ld32 m (elf + o + 16) = s_filesz g /\ ld32 m (elf + o + 20) = s_memsz g) as Hhdr.
    { intros m Hm. unfold PH_PADDR. rewrite <- !Z.add_assoc, !(scratch_ld32 d) by (done || lia). done. }
    destruct (run_segment fuel g s Hf) as (m1 & m2 & d1 & R1 & M1 & R2 & L2 & K2); [by eapply formatted_same|done|].
    rewrite run_bind. cbn [gets run rbind]. destruct (Hhdr (bmem s) Hsc) as (-> & -> & -> & _). rewrite run_bind, R1. cbn [rbind]. rewrite run_bind. cbn [gets run rbind bmem].
    assert (forall a, elf <= a < elf + 4096 -> ld8 m2 a = ld8 (bmem s) a /\ ld8 m1 a = ld8 (bmem s) a) as Hkeep by (intros a Ha; apply K2; destruct (ft_scratch _ Hg); lia).
    assert (scratch d m1) as Hsc1 by (intros j Hj; rewrite (proj2 (Hkeep (elf + j) ltac:(lia))); by apply Hsc).
    assert (scratch d m2) as Hsc2 by (intros j Hj; rewrite (proj1 (Hkeep (elf + j) ltac:(lia))); by apply Hsc).
    destruct (Hhdr m1 Hsc1) as (_ & _ & -> & ->). rewrite run_bind, R2. cbn [rbind]. replace (elf + o + 32) with (elf + (o + 32)) by lia.
    assert (loaded d m2 g) as Hl2 by (intros a Ha; rewrite (L2 a Ha); destruct (a <? _); [by apply kbyte_same|done]).
    destruct (IH (o + 32) (mkBoot m2 d1) (before ++ [g])) as (m & d' & R & Sm & Lm); cbn [bmem bhw]; try done; try lia.
    + intros a b. by rewrite M1.
    + apply Forall_app. split; [|by constructor]. eapply Forall_impl; [exact (proj2 (Forall_and _ _) (conj Hld Hbe))|]. intros h [Hh Hb]. apply Forall_cons in Hb as [Hb _].
      eapply loaded_same; [|exact Hh]. intros a Ha. apply K2. lia.
    + apply Forall_app. split; [|by constructor]. eapply Forall_impl; [exact Hbe|]. intros h Hb. by apply Forall_cons in Hb as [_ Hb].
    + exists m, d'. split; [exact R|]. split; [done|]. by rewrite <- app_assoc in Lm.
Qed.

(** C12. The boot loader loads the kernel.  If the kernel file is an ELF file whose program headers lie in its first page, and whose
    segments come in increasing order, clear of the page at 0x10000 that the loader uses, [bootmain]
    jumps to the entry point of the file with every segment in memory at its physical address: its
    bytes of the file, then zeroes up to its size in memory.  A file without the magic number is refused. *)
Theorem bootmain_loads fuel (s : boot D) :
  let d := bhw s in let n := Z.to_nat (k16 d 44) in let gs := segments d n (k32 d 28) in
  (limit <= fuel)%nat -> formatted d ->
  (k32 d 0 = ELF_MAGIC -> k32 d 28 + PROGHDR_SIZE * k16 d 44 <= 4096 -> Forall fits gs -> increasing gs ->
    exists s', run (bootmain fuel s) = ROk (Some (k32 d 24)) s' /\ Forall (loaded d (bmem s')) gs) /\
  (k32 d 0 <> ELF_MAGIC -> exists s', run (bootmain fuel s) = ROk None s').
Proof.
  intros d n gs Hf F. unfold bootmain. destruct (run_readseg fuel elf 4096 0 s) as (m1 & d1 & R1 & M1 & E1); [done|done|lia|done|done|done|by vm_compute|].
  assert (scratch d m1) as Hsc.
  { intros o Ho. rewrite E1. change (elf - 0 mod SECTSIZE) with elf. replace (elf + 4096 - elf) with 4096 by lia. change (512 * nsect 4096) with 4096. unfold in_range.
    destruct (Z.leb_spec elf (elf + o)), (Z.ltb_spec (elf + o) (elf + 4096)); cbn [andb]; try lia. unfold d. f_equal. lia. }
  assert (forall o, 0 <= kbyte d o < 256 \/ o < 0) as Hkb.
  { intros o. destruct (decide (o < 0)); [by right|left]. pose proof (kbyte_sector d (o / 512 + 1) (o mod 512) F) as E. pose proof (Z.div_mod o 512 ltac:(lia)). pose proof (Z.mod_pos_bound o 512 ltac:(lia)).
    pose proof (Z.div_pos o 512 ltac:(lia) ltac:(lia)). replace (512 * (o / 512 + 1 - 1) + o mod 512) with o in E by lia. rewrite <- E by lia. apply u8_range. }
  assert (forall o, 0 <= o -> 0 <= k32 d o) as H32.
  { intros o Ho. unfold k32. pose proof (Hkb o). pose proof (Hkb (o + 1)). pose proof (Hkb (o + 2)). pose proof (Hkb (o + 3)). lia. }
  assert (ld32 m1 elf = k32 d 0 /\ ld32 m1 (elf + 28) = k32 d 28 /\ ld16 m1 (elf + 44) = k16 d 44) as (E0 & E28 & E44).
  { split; [replace elf with (elf + 0) by lia; by apply scratch_ld32|]. split; [by apply scratch_ld32|]. unfold ld16, k16. rewrite <- Z.add_assoc, !Hsc by lia. done. }
  rewrite run_bind, R1. cbn [rbind]. rewrite run_bind. cbn [gets run rbind bmem]. rewrite E0. split.
  - intros Hmag Hph Hft Hinc. rewrite Hmag, Z.eqb_refl. cbn [negb]. rewrite E28, E44. fold n. pose proof (H32 28 ltac:(lia)).
    assert (0 <= k16 d 44) as H16 by (unfold k16; pose proof (Hkb 44); pose proof (Hkb (44 + 1)); lia). change PROGHDR_SIZE with 32 in Hph.
    rewrite u32_small by (unfold elf; lia).
    destruct (run_load_segments fuel n (k32 d 28) d (mkBoot m1 d1) []) as (m & d' & R & Sm & Lm); cbn [bmem bhw]; try done.
    { change PROGHDR_SIZE with 32. unfold n. lia. }
    rewrite run_bind, R. cbn [rbind]. rewrite run_bind. cbn [gets run rbind bmem ret]. rewrite (scratch_ld32 d) by (done || lia). eexists. split; [done|]. exact Lm.
  - intros Hmag. rewrite (proj2 (Z.eqb_neq _ _) Hmag). cbn [negb run ret]. by eexists.
Qed.
End facts.

(** * A small kernel: one segment of 700 bytes at offset 600, 1000 bytes in memory *)

Module Tiny.
Definition file : list Z :=
  ([0x7F; 0x45; 0x4C; 0x46] ++ replicate 20 0 ++ [0; 0; 16; 0] ++ [52; 0; 0; 0] ++ replicate 12 0 ++ [1; 0] ++ replicate 6 0) ++
  ([1; 0; 0; 0] ++ [88; 2; 0; 0] ++ [0; 0; 16; 128] ++ [0; 0; 16; 0] ++ [188; 2; 0; 0] ++ [232; 3; 0; 0] ++ replicate 8 0) ++ replicate 1300 9.
Definition sector (s : Z) : list Z := take 512 (drop (Z.to_nat (512 * (s - 1))) file ++ replicate 512 0).
Definition start : boot Demo.ctl := mkBoot ∅ (Demo.mkCtl (fun _ => 0) (fun _ s => sector s) None 0).
Lemma formatted_start : formatted (bhw start).
Proof.
  intros s Hs. cbn. unfold sector. split; [rewrite length_take, length_app, length_replicate; lia|].
  apply Forall_take, Forall_app. split; [|by apply Forall_replicate]. apply Forall_drop. apply (bool_decide_unpack _). by vm_compute.
Qed.
End Tiny.

Lemma bootmain_loads_witness : exists s', run (bootmain 3 Tiny.start) = ROk (Some 0x100000) s' /\
  ld8 (bmem s') 0x100000 = 9 /\ ld8 (bmem s') 0x1002BB = 9 /\ ld8 (bmem s') 0x1002BC = 0.
Proof.
  destruct (bootmain_loads 3 Tiny.start) as [A _]; [apply le_n|apply Tiny.formatted_start|].
  assert (segments (bhw Tiny.start) (Z.to_nat (k16 (bhw Tiny.start) 44)) (k32 (bhw Tiny.start) 28) = [mkSeg 600 0x100000 700 1000]) as E by (vm_compute; reflexivity).
  rewrite E in A. destruct A as (s' & R & Hl).
  - vm_compute. reflexivity.
  - vm_compute. discriminate.
  - constructor; [|constructor]. split; [vm_compute; repeat split; discriminate|vm_compute; reflexivity|vm_compute; discriminate|right; vm_compute; discriminate].
  - split; constructor.
  - exists s'. split; [rewrite R; f_equal; vm_compute; reflexivity|]. apply Forall_cons in Hl as [Hl _].
    unfold loaded in Hl. cbn [s_pa s_off s_filesz] in Hl. change (s_size _) with 1000 in Hl. split; [|split].
    + rewrite Hl by lia. vm_compute. reflexivity.
    + rewrite Hl by lia. vm_compute. reflexivity.
    + rewrite Hl by lia. reflexivity.
Defined.
