(* ===== verification/Segments.v ===== *)
(** Segments and gates: mmu.h, [seginit], [kvmalloc], [switchkvm] and [switchuvm] of vm.c, [idtinit] of
    trap.c, and the instructions of x86.h that load the registers.

    A descriptor is a record of bit fields; [desc_word] and [gate_word] are the eight bytes the
    processor reads, and [w_base], [w_limit] and the like are how the processor takes them apart.  The state of a processor has
    its descriptor table, the two fields of its task state that are used, and the registers. *)

From Stdlib Require Import ZArith Lia.
From stdpp Require Import base tactics option strings numbers list.
From S2P Require Import Prelude Mem Layout Spinlock Kalloc PageTable Vm ProcState Proc Trap.
Open Scope Z_scope.

(** * mmu.h *)

Definition SEG_KDATA : Z := 2.
Definition SEG_KCPU : Z := 3.
Definition SEG_UCODE : Z := 4.
Definition SEG_UDATA : Z := 5.
Definition SEG_TSS : Z := 6.
Definition STA_X : Z := 0x8.
Definition STA_W : Z := 0x2.
Definition STA_R : Z := 0x2.
Definition STS_T32A : Z := 0x9.
Definition STS_IG32 : Z := 0xE.
Definition STS_TG32 : Z := 0xF.

Record segdesc := mkSegdesc {
  lim_15_0 : Z; base_15_0 : Z; base_23_16 : Z; sd_type : Z; sd_s : Z; sd_dpl : Z; sd_p : Z;
  lim_19_16 : Z; avl : Z; rsv1 : Z; db : Z; sd_g : Z; base_31_24 : Z
}.
(** Assignment to a bit field of [n] bits. *)
Definition field (n x : Z) : Z := x mod 2 ^ n.

Definition SEG (type base lim dpl : Z) : segdesc :=
  mkSegdesc (field 16 (Z.land (Z.shiftr lim 12) 0xffff)) (field 16 (Z.land (u32 base) 0xffff)) (field 8 (Z.land (Z.shiftr (u32 base) 16) 0xff))
    (field 4 type) 1 (field 2 dpl) 1 (field 4 (Z.shiftr (u32 lim) 28)) 0 0 1 1 (field 8 (Z.shiftr (u32 base) 24)).
Definition SEG16 (type base lim dpl : Z) : segdesc :=
  mkSegdesc (field 16 (Z.land lim 0xffff)) (field 16 (Z.land (u32 base) 0xffff)) (field 8 (Z.land (Z.shiftr (u32 base) 16) 0xff))
    (field 4 type) 1 (field 2 dpl) 1 (field 4 (Z.shiftr (u32 lim) 16)) 0 0 1 0 (field 8 (Z.shiftr (u32 base) 24)).
Definition set_sd_s (v : Z) (d : segdesc) : segdesc :=
  mkSegdesc (lim_15_0 d) (base_15_0 d) (base_23_16 d) (sd_type d) v (sd_dpl d) (sd_p d) (lim_19_16 d) (avl d) (rsv1 d) (db d) (sd_g d) (base_31_24 d).

Record gatedesc := mkGatedesc {
  off_15_0 : Z; gd_cs : Z; args : Z; gd_rsv1 : Z; gd_type : Z; gd_s : Z; gd_dpl : Z; gd_p : Z; off_31_16 : Z
}.
Definition SETGATE (g : gate) : gatedesc :=
  mkGatedesc (field 16 (Z.land (u32 (offset g)) 0xffff)) (field 16 (selector g)) 0 0 (field 4 (if istrap g then STS_TG32 else STS_IG32)) 0
    (field 2 (dpl g)) 1 (field 16 (Z.shiftr (u32 (offset g)) 16)).

(** * A processor *)

(** [proc_var] is the variable [proc], a pointer into the process table: [None] is the null pointer.  [c_addr] is the address of its [struct cpu], in which [ts] is at offset 8, [gdt] at 112 and
    the variable [cpu] at 180; a task state has 104 bytes. *)
Definition CPU_TS : Z := 8.
Definition CPU_GDT : Z := 112.
Definition CPU_CPU : Z := 180.
Definition TS_SIZE : Z := 104.
Definition NSEGS : Z := 7.

Record pcpu := mkPcpu {
  c_addr : Z; gdt : list segdesc; ss0 : Z; esp0 : Z; cpu_var : Z; proc_var : option nat;
  gdtr : Z * Z; idtr : Z * Z; gs : Z; tr : Z; cr3 : Z; cli_state : cpu
}.
Definition set_gdt v c := mkPcpu (c_addr c) v (ss0 c) (esp0 c) (cpu_var c) (proc_var c) (gdtr c) (idtr c) (gs c) (tr c) (cr3 c) (cli_state c).
Definition set_stack0 s e c := mkPcpu (c_addr c) (gdt c) s e (cpu_var c) (proc_var c) (gdtr c) (idtr c) (gs c) (tr c) (cr3 c) (cli_state c).
Definition set_local v p c := mkPcpu (c_addr c) (gdt c) (ss0 c) (esp0 c) v p (gdtr c) (idtr c) (gs c) (tr c) (cr3 c) (cli_state c).
Definition set_gdtr v c := mkPcpu (c_addr c) (gdt c) (ss0 c) (esp0 c) (cpu_var c) (proc_var c) v (idtr c) (gs c) (tr c) (cr3 c) (cli_state c).
Definition set_idtr v c := mkPcpu (c_addr c) (gdt c) (ss0 c) (esp0 c) (cpu_var c) (proc_var c) (gdtr c) v (gs c) (tr c) (cr3 c) (cli_state c).
Definition set_gs v c := mkPcpu (c_addr c) (gdt c) (ss0 c) (esp0 c) (cpu_var c) (proc_var c) (gdtr c) (idtr c) v (tr c) (cr3 c) (cli_state c).
Definition set_tr v c := mkPcpu (c_addr c) (gdt c) (ss0 c) (esp0 c) (cpu_var c) (proc_var c) (gdtr c) (idtr c) (gs c) v (cr3 c) (cli_state c).
Definition set_cr3 v c := mkPcpu (c_addr c) (gdt c) (ss0 c) (esp0 c) (cpu_var c) (proc_var c) (gdtr c) (idtr c) (gs c) (tr c) v (cli_state c).
Definition set_cli_state v c := mkPcpu (c_addr c) (gdt c) (ss0 c) (esp0 c) (cpu_var c) (proc_var c) (gdtr c) (idtr c) (gs c) (tr c) (cr3 c) v.

(** * x86.h *)

(** [pd] is the limit and the address in two halves, which the instruction puts together again. *)
Definition pseudo_descriptor (p size : Z) : Z * Z :=
  let pd0 := u16 (size - 1) in let pd1 := u16 (u32 p) in let pd2 := u16 (Z.shiftr (u32 p) 16) in (pd0, pd1 + 2 ^ 16 * pd2).
Definition lgdt (p size : Z) : M pcpu unit := modify (set_gdtr (pseudo_descriptor p size)).
Definition lidt (p size : Z) : M pcpu unit := modify (set_idtr (pseudo_descriptor p size)).
Definition ltr (sel : Z) : M pcpu unit := modify (set_tr (u16 sel)).
Definition loadgs (v : Z) : M pcpu unit := modify (set_gs (u16 v)).
Definition lcr3 (v : Z) : M pcpu unit := modify (set_cr3 (u32 v)).

(** * vm.c and trap.c *)

Definition put_desc (i : Z) (d : segdesc) : M pcpu unit := modify (fun c => set_gdt (zinsert i d (gdt c)) c).

Definition seginit : M pcpu unit :=
  put_desc SEG_KCODE (SEG (Z.lor STA_X STA_R) 0 0xffffffff 0) ;;
  put_desc SEG_KDATA (SEG STA_W 0 0xffffffff 0) ;;
  put_desc SEG_UCODE (SEG (Z.lor STA_X STA_R) 0 0xffffffff DPL_USER) ;;
  put_desc SEG_UDATA (SEG STA_W 0 0xffffffff DPL_USER) ;;
  a <- gets c_addr ;;
  put_desc SEG_KCPU (SEG STA_W (a + CPU_CPU) 8 0) ;;
  lgdt (a + CPU_GDT) (8 * NSEGS) ;;
  loadgs (Z.shiftl SEG_KCPU 3) ;;
  modify (set_local a None).

(** [p->...]; the table is not changed here. *)
Definition deref (ptable : list proc) (p : option nat) : M pcpu proc :=
  match p with
  | None => undef "null process pointer"
  | Some i => match ptable !! i with Some x => ret x | None => undef "stray process pointer" end
  end.

(** The stack is that of the current process, [proc], the page table that of [p]. *)
Definition switchuvm (ptable : list proc) (p : option nat) : M pcpu unit :=
  modify (fun c => set_cli_state (pushcli (cli_state c)) c) ;;
  a <- gets cpu_var ;;
  put_desc SEG_TSS (SEG16 STS_T32A (a + CPU_TS) (TS_SIZE - 1) 0) ;;
  modify (fun c => set_gdt (default (gdt c) ((fun d => zinsert SEG_TSS (set_sd_s 0 d) (gdt c)) <$> zlookup (gdt c) SEG_TSS)) c) ;;
  modify (fun c => set_stack0 (Z.shiftl SEG_KDATA 3) (esp0 c) c) ;;
  cur <- gets proc_var ;;
  x <- deref ptable cur ;;
  modify (fun c => set_stack0 (ss0 c) (u32 (kstack x + KSTACKSIZE)) c) ;;
  ltr (Z.shiftl SEG_TSS 3) ;;
  y <- deref ptable p ;;
  if pgdir y =? 0 then panic "switchuvm: no pgdir" else
  lcr3 (v2p (pgdir y)) ;;
  c <- gets cli_state ;;
  match popcli c with
  | inl msg => panic msg
  | inr c => modify (set_cli_state c)
  end.
Definition switchkvm (kpgdir : Z) : M pcpu unit := lcr3 (v2p kpgdir).
(** [proc = p; switchuvm(p);] and [switchkvm(); proc = 0;], around [swtch] in [scheduler]. *)
Definition to_process (ptable : list proc) (i : nat) : M pcpu unit :=
  modify (fun c => set_local (cpu_var c) (Some i) c) ;;
  switchuvm ptable (Some i).
Definition from_process (kpgdir : Z) : M pcpu unit :=
  switchkvm kpgdir ;;
  modify (fun c => set_local (cpu_var c) None c).
Definition idtinit (idt : Z) : M pcpu unit := lidt idt (256 * 8).

(** The kernel page table is made and loaded: [kvmalloc]. *)
Record early := mkEarly { e_mem : kmem; e_cpu : pcpu; kpgdir : Z }.
#[global] Instance early_mem : Lens early kmem.
Proof. refine {| lget := e_mem; lput m s := mkEarly m (e_cpu s) (kpgdir s) |}; try done. by intros []. Defined.
#[global] Instance early_cpu : Lens early pcpu.
Proof. refine {| lget := e_cpu; lput c s := mkEarly (e_mem s) c (kpgdir s) |}; try done. by intros []. Defined.
Definition kvmalloc (kdata : Z) : M early unit :=
  d <- zoom (L := early_mem) (setupkvm kdata) ;;
  modify (fun s => mkEarly (e_mem s) (e_cpu s) d) ;;
  zoom (L := early_cpu) (switchkvm d).

(** * What the processor reads *)

Definition desc_word (d : segdesc) : Z :=
  lim_15_0 d + 2 ^ 16 * base_15_0 d + 2 ^ 32 * base_23_16 d + 2 ^ 40 * sd_type d + 2 ^ 44 * sd_s d + 2 ^ 45 * sd_dpl d + 2 ^ 47 * sd_p d +
  2 ^ 48 * lim_19_16 d + 2 ^ 52 * avl d + 2 ^ 53 * rsv1 d + 2 ^ 54 * db d + 2 ^ 55 * sd_g d + 2 ^ 56 * base_31_24 d.
Definition gate_word (g : gatedesc) : Z :=
  off_15_0 g + 2 ^ 16 * gd_cs g + 2 ^ 32 * args g + 2 ^ 37 * gd_rsv1 g + 2 ^ 40 * gd_type g + 2 ^ 44 * gd_s g + 2 ^ 45 * gd_dpl g + 2 ^ 47 * gd_p g +
  2 ^ 48 * off_31_16 g.

(** [n] bits of the word from bit [k] on. *)
Definition bits (w k n : Z) : Z := w / 2 ^ k mod 2 ^ n.
Definition w_base (w : Z) : Z := bits w 16 24 + 2 ^ 24 * bits w 56 8.
Definition w_limit (w : Z) : Z := let l := bits w 0 16 + 2 ^ 16 * bits w 48 4 in if bits w 55 1 =? 1 then l * 4096 + 4095 else l.
Record meaning := mkMeaning { m_base : Z; m_limit : Z; m_type : Z; m_system : bool; m_dpl : Z; m_present : bool }.
Definition meaning_of (w : Z) : meaning := mkMeaning (w_base w) (w_limit w) (bits w 40 4) (bits w 44 1 =? 0) (bits w 45 2) (bits w 47 1 =? 1).
Definition g_offset (w : Z) : Z := bits w 0 16 + 2 ^ 16 * bits w 48 16.

Lemma bits_at lo x hi k n : 0 <= k -> 0 <= n -> 0 <= lo < 2 ^ k -> 0 <= x < 2 ^ n -> bits (lo + 2 ^ k * (x + 2 ^ n * hi)) k n = x.
Proof.
  intros Hk Hn Hlo Hx. unfold bits. rewrite (Z.mul_comm (2 ^ k)), Z.div_add, (Z.div_small lo) by lia.
  rewrite Z.add_0_l, (Z.mul_comm (2 ^ n)), Z.mod_add, Z.mod_small by lia. done.
Qed.

(** The fields of a descriptor are in range. *)
Record in_fields (d : segdesc) : Prop := {
  if_lim : 0 <= lim_15_0 d < 2 ^ 16 /\ 0 <= lim_19_16 d < 2 ^ 4;
  if_base : 0 <= base_15_0 d < 2 ^ 16 /\ 0 <= base_23_16 d < 2 ^ 8 /\ 0 <= base_31_24 d < 2 ^ 8;
  if_attr : 0 <= sd_type d < 2 ^ 4 /\ 0 <= sd_s d < 2 /\ 0 <= sd_dpl d < 2 ^ 2 /\ 0 <= sd_p d < 2;
  if_rest : 0 <= avl d < 2 /\ 0 <= rsv1 d < 2 /\ 0 <= db d < 2 /\ 0 <= sd_g d < 2
}.
Lemma desc_meaning d : in_fields d -> meaning_of (desc_word d) =
  mkMeaning (base_15_0 d + 2 ^ 16 * base_23_16 d + 2 ^ 24 * base_31_24 d)
    (let l := lim_15_0 d + 2 ^ 16 * lim_19_16 d in if sd_g d =? 1 then l * 4096 + 4095 else l) (sd_type d) (sd_s d =? 0) (sd_dpl d) (sd_p d =? 1).
Proof.
  intros [(L1 & L2) (B1 & B2 & B3) (A1 & A2 & A3 & A4) (R1 & R2 & R3 & R4)]. destruct d as [l0 b0 b1 ty s dp p l1 av rs db g b2]. cbn [lim_15_0 base_15_0 base_23_16 sd_type sd_s sd_dpl sd_p lim_19_16 avl rsv1 Segments.db sd_g base_31_24] in *.
  unfold meaning_of, w_base, w_limit, desc_word. cbn [lim_15_0 base_15_0 base_23_16 sd_type sd_s sd_dpl sd_p lim_19_16 avl rsv1 Segments.db sd_g base_31_24].
  set (w := l0 + _ + _ + _ + _ + _ + _ + _ + _ + _ + _ + _ + _).
  assert (bits w 0 16 = l0) as -> by (replace w with (0 + 2 ^ 0 * (l0 + 2 ^ 16 * (b0 + 2 ^ 16 * b1 + 2 ^ 24 * ty + 2 ^ 28 * s + 2 ^ 29 * dp + 2 ^ 31 * p + 2 ^ 32 * l1 + 2 ^ 36 * av + 2 ^ 37 * rs + 2 ^ 38 * db + 2 ^ 39 * g + 2 ^ 40 * b2))) by (unfold w; ring); apply bits_at; lia).
  assert (bits w 16 24 = b0 + 2 ^ 16 * b1) as -> by (replace w with (l0 + 2 ^ 16 * (b0 + 2 ^ 16 * b1 + 2 ^ 24 * (ty + 2 ^ 4 * s + 2 ^ 5 * dp + 2 ^ 7 * p + 2 ^ 8 * l1 + 2 ^ 12 * av + 2 ^ 13 * rs + 2 ^ 14 * db + 2 ^ 15 * g + 2 ^ 16 * b2))) by (unfold w; ring); apply bits_at; lia).
  assert (bits w 40 4 = ty) as -> by (replace w with (l0 + 2 ^ 16 * b0 + 2 ^ 32 * b1 + 2 ^ 40 * (ty + 2 ^ 4 * (s + 2 ^ 1 * dp + 2 ^ 3 * p + 2 ^ 4 * l1 + 2 ^ 8 * av + 2 ^ 9 * rs + 2 ^ 10 * db + 2 ^ 11 * g + 2 ^ 12 * b2))) by (unfold w; ring); apply bits_at; lia).
  assert (bits w 44 1 = s) as -> by (replace w with (l0 + 2 ^ 16 * b0 + 2 ^ 32 * b1 + 2 ^ 40 * ty + 2 ^ 44 * (s + 2 ^ 1 * (dp + 2 ^ 2 * p + 2 ^ 3 * l1 + 2 ^ 7 * av + 2 ^ 8 * rs + 2 ^ 9 * db + 2 ^ 10 * g + 2 ^ 11 * b2))) by (unfold w; ring); apply bits_at; lia).
  assert (bits w 45 2 = dp) as -> by (replace w with (l0 + 2 ^ 16 * b0 + 2 ^ 32 * b1 + 2 ^ 40 * ty + 2 ^ 44 * s + 2 ^ 45 * (dp + 2 ^ 2 * (p + 2 ^ 1 * l1 + 2 ^ 5 * av + 2 ^ 6 * rs + 2 ^ 7 * db + 2 ^ 8 * g + 2 ^ 9 * b2))) by (unfold w; ring); apply bits_at; lia).
  assert (bits w 47 1 = p) as -> by (replace w with (l0 + 2 ^ 16 * b0 + 2 ^ 32 * b1 + 2 ^ 40 * ty + 2 ^ 44 * s + 2 ^ 45 * dp + 2 ^ 47 * (p + 2 ^ 1 * (l1 + 2 ^ 4 * av + 2 ^ 5 * rs + 2 ^ 6 * db + 2 ^ 7 * g + 2 ^ 8 * b2))) by (unfold w; ring); apply bits_at; lia).
  assert (bits w 48 4 = l1) as -> by (replace w with (l0 + 2 ^ 16 * b0 + 2 ^ 32 * b1 + 2 ^ 40 * ty + 2 ^ 44 * s + 2 ^ 45 * dp + 2 ^ 47 * p + 2 ^ 48 * (l1 + 2 ^ 4 * (av + 2 ^ 1 * rs + 2 ^ 2 * db + 2 ^ 3 * g + 2 ^ 4 * b2))) by (unfold w; ring); apply bits_at; lia).
  assert (bits w 55 1 = g) as -> by (replace w with (l0 + 2 ^ 16 * b0 + 2 ^ 32 * b1 + 2 ^ 40 * ty + 2 ^ 44 * s + 2 ^ 45 * dp + 2 ^ 47 * p + 2 ^ 48 * l1 + 2 ^ 52 * av + 2 ^ 53 * rs + 2 ^ 54 * db + 2 ^ 55 * (g + 2 ^ 1 * b2)) by (unfold w; ring); apply bits_at; lia).
  assert (bits w 56 8 = b2) as -> by (replace w with (l0 + 2 ^ 16 * b0 + 2 ^ 32 * b1 + 2 ^ 40 * ty + 2 ^ 44 * s + 2 ^ 45 * dp + 2 ^ 47 * p + 2 ^ 48 * l1 + 2 ^ 52 * av + 2 ^ 53 * rs + 2 ^ 54 * db + 2 ^ 55 * g + 2 ^ 56 * (b2 + 2 ^ 8 * 0)) by (unfold w; ring); apply bits_at; lia).
  done.
Qed.

(** * Descriptors mean what the macros say *)

Lemma field_ones n k x : 0 <= n -> n = k -> field n (Z.land x (Z.ones k)) = x mod 2 ^ n.
Proof. intros Hn <-. unfold field. rewrite Z.land_ones by done. apply Z.mod_mod. lia. Qed.
Lemma field_range n x : 0 <= n -> 0 <= field n x < 2 ^ n.
Proof. intros Hn. apply Z.mod_pos_bound. lia. Qed.
Lemma base_digits b : 0 <= b < 2 ^ 32 -> b mod 2 ^ 16 + 2 ^ 16 * (Z.shiftr b 16 mod 2 ^ 8) + 2 ^ 24 * field 8 (Z.shiftr b 24) = b.
Proof.
  intros Hb. rewrite !Z.shiftr_div_pow2 by lia. unfold field. change (2 ^ 24) with (2 ^ 16 * 2 ^ 8). rewrite <- Z.div_div by lia.
  assert (0 <= b / 2 ^ 16 / 2 ^ 8 < 2 ^ 8) by (split; [repeat apply Z.div_pos; lia|repeat (apply Z.div_lt_upper_bound; [lia|]); lia]).
  rewrite (Z.mod_small (b / 2 ^ 16 / 2 ^ 8)) by done. pose proof (Z.div_mod b (2 ^ 16) ltac:(lia)). pose proof (Z.div_mod (b / 2 ^ 16) (2 ^ 8) ltac:(lia)). lia.
Qed.

Section macros.
Context (t b l p : Z) (Ht : 0 <= t < 16) (Hb : 0 <= b < 2 ^ 32) (Hp : 0 <= p < 4).

Lemma SEG_fields : 0 <= l < 2 ^ 32 -> in_fields (SEG t b l p).
Proof. intros Hl. split; cbn [SEG lim_15_0 lim_19_16 base_15_0 base_23_16 base_31_24 sd_type sd_s sd_dpl sd_p avl rsv1 db sd_g]; repeat split; try (apply field_range; lia); lia. Qed.
Lemma SEG16_fields s : 0 <= l < 2 ^ 20 -> 0 <= s < 2 -> in_fields (set_sd_s s (SEG16 t b l p)).
Proof. intros Hl Hs. split; cbn [set_sd_s SEG16 lim_15_0 lim_19_16 base_15_0 base_23_16 base_31_24 sd_type sd_s sd_dpl sd_p avl rsv1 db sd_g]; repeat split; try (apply field_range; lia); lia. Qed.

Lemma SEG_meaning : 0 <= l < 2 ^ 32 -> meaning_of (desc_word (SEG t b l p)) = mkMeaning b (l / 4096 * 4096 + 4095) t false p true.
Proof.
  intros Hl. rewrite desc_meaning by (by apply SEG_fields). unfold SEG. cbn [lim_15_0 lim_19_16 base_15_0 base_23_16 base_31_24 sd_type sd_s sd_dpl sd_p sd_g]. rewrite !u32_small by done.
  change 0xffff with (Z.ones 16). change 0xff with (Z.ones 8). rewrite !field_ones by done. rewrite base_digits by done. unfold field. rewrite (Z.mod_small t), (Z.mod_small p) by lia.
  change (1 =? 1) with true. change (1 =? 0) with false. cbn iota. cbv zeta. f_equal. f_equal. f_equal.
  rewrite !Z.shiftr_div_pow2 by lia. change (2 ^ 28) with (2 ^ 12 * 2 ^ 16). rewrite <- Z.div_div by lia. change 4096 with (2 ^ 12).
  assert (0 <= l / 2 ^ 12 / 2 ^ 16 < 2 ^ 4) by (split; [repeat apply Z.div_pos; lia|repeat (apply Z.div_lt_upper_bound; [lia|]); lia]). rewrite (Z.mod_small (l / 2 ^ 12 / 2 ^ 16)) by done.
  pose proof (Z.div_mod (l / 2 ^ 12) (2 ^ 16) ltac:(lia)). lia.
Qed.
Lemma SEG16_meaning s : 0 <= l < 2 ^ 20 -> 0 <= s < 2 -> meaning_of (desc_word (set_sd_s s (SEG16 t b l p))) = mkMeaning b l t (s =? 0) p true.
Proof.
  intros Hl Hs. rewrite desc_meaning by (by apply SEG16_fields). unfold SEG16, set_sd_s. cbn [lim_15_0 lim_19_16 base_15_0 base_23_16 base_31_24 sd_type sd_s sd_dpl sd_p sd_g].
  rewrite !u32_small by lia. change 0xffff with (Z.ones 16). change 0xff with (Z.ones 8). rewrite !field_ones by done. rewrite base_digits by done.
  unfold field. rewrite (Z.mod_small t), (Z.mod_small p) by lia. change (0 =? 1) with false. change (1 =? 1) with true. cbn iota. cbv zeta. f_equal.
  rewrite Z.shiftr_div_pow2 by lia. assert (0 <= l / 2 ^ 16 < 2 ^ 4) by (split; [apply Z.div_pos; lia|apply Z.div_lt_upper_bound; lia]). rewrite (Z.mod_small (l / 2 ^ 16)) by done.
  pose proof (Z.div_mod l (2 ^ 16) ltac:(lia)). lia.
Qed.
End macros.

(** A gate leads to the whole address of its handler, with interrupts off unless it is a trap gate. *)
Lemma SETGATE_meaning g : 0 <= offset g < 2 ^ 32 -> 0 <= selector g < 2 ^ 16 -> 0 <= dpl g < 4 ->
  let w := gate_word (SETGATE g) in
  g_offset w = offset g /\ bits w 16 16 = selector g /\ bits w 40 4 = (if istrap g then STS_TG32 else STS_IG32) /\ bits w 44 1 = 0 /\ bits w 45 2 = dpl g /\ bits w 47 1 = 1.
Proof.
  intros Ho Hs Hd. destruct g as [it se off dp]. cbn [offset selector dpl istrap] in *. unfold SETGATE, gate_word. cbn [offset selector dpl istrap off_15_0 gd_cs args gd_rsv1 gd_type gd_s gd_dpl gd_p off_31_16].
  rewrite u32_small by done. change 0xffff with (Z.ones 16). rewrite field_ones by done. unfold field. set (ty := if it then STS_TG32 else STS_IG32).
  assert (0 <= ty < 16) as Hty by (unfold ty; destruct it; split; (discriminate || reflexivity)). rewrite (Z.mod_small se), (Z.mod_small ty), (Z.mod_small dp) by lia.
  rewrite Z.shiftr_div_pow2 by lia. assert (0 <= off / 2 ^ 16 < 2 ^ 16) as Hh by (split; [apply Z.div_pos; lia|apply Z.div_lt_upper_bound; lia]). rewrite (Z.mod_small (off / 2 ^ 16)) by done.
  set (h := off / 2 ^ 16) in *. pose proof (Z.mod_pos_bound off (2 ^ 16) ltac:(lia)) as Hlo. pose proof (Z.div_mod off (2 ^ 16) ltac:(lia)) as Ed. fold h in Ed. set (lo := off mod 2 ^ 16) in *.
  set (w := lo + _ + _ + _ + _ + _ + _ + _ + _). unfold g_offset.
  assert (bits w 0 16 = lo) as -> by (replace w with (0 + 2 ^ 0 * (lo + 2 ^ 16 * (se + 2 ^ 24 * ty + 2 ^ 29 * dp + 2 ^ 31 + 2 ^ 32 * h))) by (unfold w; ring); apply bits_at; lia).
  assert (bits w 48 16 = h) as -> by (replace w with (lo + 2 ^ 16 * se + 2 ^ 40 * ty + 2 ^ 45 * dp + 2 ^ 47 + 2 ^ 48 * (h + 2 ^ 16 * 0)) by (unfold w; ring); apply bits_at; lia).
  assert (bits w 16 16 = se) as -> by (replace w with (lo + 2 ^ 16 * (se + 2 ^ 16 * (2 ^ 8 * ty + 2 ^ 13 * dp + 2 ^ 15 + 2 ^ 16 * h))) by (unfold w; ring); apply bits_at; lia).
  assert (bits w 40 4 = ty) as -> by (replace w with (lo + 2 ^ 16 * se + 2 ^ 40 * (ty + 2 ^ 4 * (2 ^ 1 * dp + 2 ^ 3 + 2 ^ 4 * h))) by (unfold w; ring); apply bits_at; lia).
  assert (bits w 44 1 = 0) as -> by (replace w with (lo + 2 ^ 16 * se + 2 ^ 40 * ty + 2 ^ 44 * (0 + 2 ^ 1 * (dp + 2 ^ 2 + 2 ^ 3 * h))) by (unfold w; ring); apply bits_at; lia).
  assert (bits w 45 2 = dp) as -> by (replace w with (lo + 2 ^ 16 * se + 2 ^ 40 * ty + 2 ^ 45 * (dp + 2 ^ 2 * (1 + 2 ^ 1 * h))) by (unfold w; ring); apply bits_at; lia).
  assert (bits w 47 1 = 1) as -> by (replace w with (lo + 2 ^ 16 * se + 2 ^ 40 * ty + 2 ^ 45 * dp + 2 ^ 47 * (1 + 2 ^ 1 * h)) by (unfold w; ring); apply bits_at; lia).
  split_and!; try done. lia.
Qed.

(** * A processor that runs a process *)

Lemma pseudo_descriptor_id p size : 0 <= p < 2 ^ 32 -> 0 < size <= 2 ^ 16 -> pseudo_descriptor p size = (size - 1, p).
Proof.
  intros Hp Hs. unfold pseudo_descriptor, u16. cbv zeta. rewrite u32_small by done. rewrite (Z.mod_small (size - 1)) by lia. f_equal.
  rewrite Z.shiftr_div_pow2 by lia. assert (0 <= p / 2 ^ 16 < 2 ^ 16) by (split; [apply Z.div_pos; lia|apply Z.div_lt_upper_bound; lia]). rewrite (Z.mod_small (p / 2 ^ 16)) by done.
  pose proof (Z.div_mod p (2 ^ 16) ltac:(lia)). lia.
Qed.

Definition desc_at (c : pcpu) (i : Z) : option meaning := (fun d => meaning_of (desc_word d)) <$> zlookup (gdt c) i.

Record set_up (a : Z) (i : nat) (x : proc) (c : pcpu) : Prop := {
  up_kernel : desc_at c SEG_KCODE = Some (mkMeaning 0 (2 ^ 32 - 1) (STA_X + STA_R) false 0 true) /\ desc_at c SEG_KDATA = Some (mkMeaning 0 (2 ^ 32 - 1) STA_W false 0 true);
  up_user : desc_at c SEG_UCODE = Some (mkMeaning 0 (2 ^ 32 - 1) (STA_X + STA_R) false 3 true) /\ desc_at c SEG_UDATA = Some (mkMeaning 0 (2 ^ 32 - 1) STA_W false 3 true);
  up_local : desc_at c SEG_KCPU = Some (mkMeaning (a + CPU_CPU) 4095 STA_W false 0 true) /\ gs c = 8 * SEG_KCPU /\ cpu_var c = a /\ proc_var c = Some i;
  up_task : desc_at c SEG_TSS = Some (mkMeaning (a + CPU_TS) (TS_SIZE - 1) STS_T32A true 0 true) /\ tr c = 8 * SEG_TSS;
  up_stack : ss0 c = 8 * SEG_KDATA /\ esp0 c = kstack x + KSTACKSIZE;
  up_tables : gdtr c = (8 * NSEGS - 1, a + CPU_GDT) /\ cr3 c = pgdir x - KERNBASE
}.

(** [kvmalloc] keeps the table that [setupkvm] made and loads it. *)
Lemma run_kvmalloc kdata k c old d k' : run (setupkvm kdata k) = ROk d k' -> KERNBASE <= d < 2 ^ 32 ->
  exists c', run (kvmalloc kdata (mkEarly k c old)) = ROk tt (mkEarly k' c' d) /\ cr3 c' = d - KERNBASE /\ gdt c' = gdt c.
Proof.
  intros R Hd. change KERNBASE with 0x80000000 in *. exists (set_cr3 (d - 0x80000000) c). unfold kvmalloc. rewrite run_bind, run_zoom. cbn [lget early_mem e_mem]. rewrite R.
  cbn [rzoom rbind]. rewrite run_bind. cbn [modify run rbind]. rewrite run_zoom. unfold switchkvm, lcr3, v2p. change KERNBASE with 0x80000000. rewrite !u32_small by (rewrite ?u32_small; lia).
  split; [reflexivity|]. done.
Qed.

(** What the two leave of the state. *)
Definition seg_table (a : Z) (g : list segdesc) : list segdesc :=
  zinsert SEG_KCPU (SEG STA_W (a + CPU_CPU) 8 0) (zinsert SEG_UDATA (SEG STA_W 0 0xffffffff DPL_USER)
    (zinsert SEG_UCODE (SEG (Z.lor STA_X STA_R) 0 0xffffffff DPL_USER) (zinsert SEG_KDATA (SEG STA_W 0 0xffffffff 0)
      (zinsert SEG_KCODE (SEG (Z.lor STA_X STA_R) 0 0xffffffff 0) g)))).
Lemma run_seginit c : run (seginit c) = ROk tt
  (set_local (c_addr c) None (set_gs (u16 (Z.shiftl SEG_KCPU 3)) (set_gdtr (pseudo_descriptor (c_addr c + CPU_GDT) (8 * NSEGS)) (set_gdt (seg_table (c_addr c) (gdt c)) c)))).
Proof. unfold seginit, put_desc, lgdt, loadgs. by mrun. Qed.

Definition task_table (a : Z) (g : list segdesc) : list segdesc :=
  let g := zinsert SEG_TSS (SEG16 STS_T32A (a + CPU_TS) (TS_SIZE - 1) 0) g in default g ((fun d => zinsert SEG_TSS (set_sd_s 0 d) g) <$> zlookup g SEG_TSS).
Definition loaded (x y : proc) (c : pcpu) : pcpu :=
  set_cr3 (u32 (v2p (pgdir y))) (set_tr (u16 (Z.shiftl SEG_TSS 3)) (set_stack0 (Z.shiftl SEG_KDATA 3) (u32 (kstack x + KSTACKSIZE)) (set_gdt (task_table (cpu_var c) (gdt c)) c))).
Lemma run_deref ptable i x c : ptable !! i = Some x -> run (deref ptable (Some i) c) = ROk x c.
Proof. intros Hx. unfold deref. by rewrite Hx. Qed.
Lemma run_switchuvm c ptable i j x y cl : proc_var c = Some i -> ptable !! i = Some x -> ptable !! j = Some y -> popcli (pushcli (cli_state c)) = inr cl ->
  run (switchuvm ptable (Some j) c) = if pgdir y =? 0 then RPanic "switchuvm: no pgdir" else ROk tt (set_cli_state cl (loaded x y c)).
Proof.
  intros Hi Hx Hy Hc. unfold switchuvm, put_desc, ltr, lcr3. mrun. cbn [proc_var set_stack0 set_gdt set_cli_state]. rewrite Hi, (run_deref _ _ x) by done. cbn [rbind]. mrun.
  rewrite (run_deref _ _ y) by done. cbn [rbind]. destruct (pgdir y =? 0); [done|]. mrun. cbn [cli_state set_cr3 set_tr set_stack0 set_gdt set_cli_state]. rewrite Hc. by mrun.
Qed.
Lemma run_switchuvm_null c ptable p : proc_var c = None -> run (switchuvm ptable p c) = RUndef "null process pointer".
Proof. intros Hi. unfold switchuvm, put_desc. mrun. cbn [proc_var set_stack0 set_gdt set_cli_state]. by rewrite Hi. Qed.

(** C13. [seginit] and then the scheduler's [proc = p; switchuvm(p)] set the processor up for a process.  Kernel and user segments cover the whole address space at
    privilege levels 0 and 3, the segment of [gs] starts at the variables of this processor, which name it and the process, the task register
    points to its task state, whose stack for entering the kernel is the top of the kernel stack of
    the process, the page table is that of the process, and the nesting of interrupt
    disabling and the interrupt flag are as before; [switchkvm] and [proc = 0] then leave all but the page
    table and the process.  A process without a page table panics, and [switchuvm] before any process was chosen follows a null pointer. *)
Theorem processor_for_process (c : pcpu) (ptable : list proc) i x kpgdir :
  length (gdt c) = 7%nat -> cpu_wf (cli_state c) -> 0 <= c_addr c -> c_addr c + 188 <= 2 ^ 32 ->
  ptable !! i = Some x -> 0 <= kstack x -> kstack x + KSTACKSIZE < 2 ^ 32 -> KERNBASE <= kpgdir < 2 ^ 32 ->
  (KERNBASE <= pgdir x < 2 ^ 32 -> exists c', run ((seginit ;; to_process ptable i) c) = ROk tt c' /\ set_up (c_addr c) i x c' /\
    ncli (cli_state c') = ncli (cli_state c) /\ eflags (cli_state c') = eflags (cli_state c) /\
    run (from_process kpgdir c') = ROk tt (set_cr3 (kpgdir - KERNBASE) (set_local (c_addr c) None c'))) /\
  (pgdir x = 0 -> run ((seginit ;; to_process ptable i) c) = RPanic "switchuvm: no pgdir") /\
  run ((seginit ;; switchuvm ptable (Some i)) c) = RUndef "null process pointer".
Proof.
  intros Hg Hc Ha Hmax Hx Hk Hk2 Hkp. destruct (pushcli_popcli_roundtrip (cli_state c) Hc) as (cl & Ep & En & Ee & _). rewrite !run_bind, run_seginit. cbn [rbind].
  set (c1 := set_local (c_addr c) None _). unfold to_process. mrun. set (c2 := set_local (cpu_var c1) (Some i) c1).
  rewrite (run_switchuvm c2 ptable i i x x cl), (run_switchuvm_null c1) by done. split; [|split; [by intros ->|done]].
  intros Hp. change KERNBASE with 0x80000000 in *. destruct (Z.eqb_spec (pgdir x) 0); [lia|].
  assert (forall z, 0x80000000 <= z < 2 ^ 32 -> u32 (v2p z) = z - 0x80000000) as Hv.
  { intros z Hz. unfold v2p. change KERNBASE with 0x80000000. by rewrite !u32_small by (rewrite ?u32_small; lia). }
  eexists. split; [reflexivity|]. split; [|split; [exact En|split; [exact Ee|]]].
  2: { unfold from_process, switchkvm, lcr3. mrun. rewrite Hv by done. done. }
  destruct c as [a g s0 e0 cv pv gr ir gs0 tr0 cr0 cl0]. cbn [c_addr gdt cli_state] in *. destruct g as [|g0 [|g1 [|g2 [|g3 [|g4 [|g5 [|g6 [|]]]]]]]]; try done.
  change CPU_CPU with 180 in *. change CPU_TS with 8 in *. change CPU_GDT with 112 in *. change KSTACKSIZE with 4096 in *.
  assert (forall ty p, 0 <= ty < 16 -> 0 <= p < 4 -> meaning_of (desc_word (SEG ty 0 0xffffffff p)) = mkMeaning 0 (2 ^ 32 - 1) ty false p true) as Hflat.
  { intros ty p Hty Hpp. by rewrite SEG_meaning by (done || lia). }
  split.
  - change (Some (meaning_of (desc_word (SEG 10 0 0xffffffff 0))) = Some (mkMeaning 0 (2 ^ 32 - 1) 10 false 0 true) /\
      Some (meaning_of (desc_word (SEG 2 0 0xffffffff 0))) = Some (mkMeaning 0 (2 ^ 32 - 1) 2 false 0 true)). by rewrite !Hflat by lia.
  - change (Some (meaning_of (desc_word (SEG 10 0 0xffffffff 3))) = Some (mkMeaning 0 (2 ^ 32 - 1) 10 false 3 true) /\
      Some (meaning_of (desc_word (SEG 2 0 0xffffffff 3))) = Some (mkMeaning 0 (2 ^ 32 - 1) 2 false 3 true)). by rewrite !Hflat by lia.
  - split; [|done]. change (Some (meaning_of (desc_word (SEG 2 (a + 180) 8 0))) = Some (mkMeaning (a + 180) 4095 2 false 0 true)). by rewrite SEG_meaning by lia.
  - split; [|done]. change (Some (meaning_of (desc_word (set_sd_s 0 (SEG16 9 (a + 8) 103 0)))) = Some (mkMeaning (a + 8) 103 9 true 0 true)). by rewrite SEG16_meaning by lia.
  - split; [done|]. change (u32 (kstack x + 4096) = kstack x + 4096). apply u32_small. lia.
  - change (pseudo_descriptor (a + 112) 56 = (55, a + 112) /\ u32 (v2p (pgdir x)) = pgdir x - 0x80000000). rewrite pseudo_descriptor_id, Hv by lia. done.
Qed.

(** The kernel's processor takes the process in the second slot. *)
Definition demo_procs : list proc := [proc_zero; set_kstack 0x8DFFF000 (set_pgdir 0x8DFFE000 proc_zero)].
Lemma processor_for_process_witness : exists c',
  run ((seginit ;; to_process demo_procs 1)
    (mkPcpu 0x80112780 (replicate 7 (mkSegdesc 0 0 0 0 0 0 0 0 0 0 0 0 0)) 0 0 0 None (0, 0) (0, 0) 0 0 0 (mkCpu 0 0 0x200))) = ROk tt c' /\
  esp0 c' = 0x8E000000 /\ proc_var c' = Some 1%nat.
Proof.
  destruct (processor_for_process (mkPcpu 0x80112780 (replicate 7 (mkSegdesc 0 0 0 0 0 0 0 0 0 0 0 0 0)) 0 0 0 None (0, 0) (0, 0) 0 0 0 (mkCpu 0 0 0x200)) demo_procs 1
    (set_kstack 0x8DFFF000 (set_pgdir 0x8DFFE000 proc_zero)) 0x803FF000) as [A _];
    [reflexivity|split_and!; [discriminate|discriminate|discriminate]|discriminate|discriminate|reflexivity|discriminate|reflexivity|split; [discriminate|reflexivity]|].
  destruct A as (c' & R & U & _); [split; [discriminate|reflexivity]|]. exists c'. split; [exact R|].
  split; [rewrite (proj2 (up_stack _ _ _ _ U)); reflexivity|apply (up_local _ _ _ _ U)].
Defined.
