(* ===== verification/Main.v ===== *)
(** Start-up: main.c, with the reads of entryother.S.

    [main] calls the initialisers of the other parts in order; they are the operations of [MainOps].  The
    other processors are started one at a time through three words below the code at 0x7000: the page
    table, the stack and the function to enter.  [step] lets the boot processor, in
    [startothers], and the processors it starts, in entryother.S and [mpmain], act in any order, one access to
    the shared words at a time; the waiting loop on [started], whose turns read 0 until the processor is up, is what keeps
    a processor from reading the words of another. *)

From stdpp Require Import base tactics option list gmap sets strings numbers relations.
From Stdlib Require Import ZArith Lia.
From S2P Require Import Prelude Mem Layout Kalloc.
Open Scope Z_scope.

(** * The order of initialisation *)

Class MainOps (S : Type) := {
  kinit1 : Z -> Z -> M S unit;
  kinit2 : Z -> Z -> M S unit;
  kvmalloc : M S unit;
  mpinit : M S unit;
  lapicinit : M S unit;
  seginit : M S unit;
  announce : string -> M S unit;
  picinit : M S unit;
  ioapicinit : M S unit;
  consoleinit : M S unit;
  uartinit : M S unit;
  pinit : M S unit;
  tvinit : M S unit;
  binit : M S unit;
  fileinit : M S unit;
  ideinit : M S unit;
  ismp : M S Z;
  timerinit : M S unit;
  startothers : M S unit;
  userinit : M S unit;
  shm_init : M S unit;
  mxarray_init : M S unit;
  switchkvm : M S unit;
  idtinit : M S unit;
  set_started : M S unit;
  scheduler : M S unit
}.

Section main.
Context {S : Type} {O : MainOps S}.
Variable kend : Z.

Definition mpmain : M S unit :=
  announce "cpu%d: starting" ;;
  idtinit ;;
  set_started ;;
  scheduler.

Definition mpenter : M S unit :=
  switchkvm ;;
  seginit ;;
  lapicinit ;;
  mpmain.

Definition main : M S unit :=
  kinit1 kend (p2v (4 * 1024 * 1024)) ;;
  kvmalloc ;;
  mpinit ;;
  lapicinit ;;
  seginit ;;
  announce "cpu%d: starting xv6" ;;
  picinit ;;
  ioapicinit ;;
  consoleinit ;;
  uartinit ;;
  pinit ;;
  tvinit ;;
  binit ;;
  fileinit ;;
  ideinit ;;
  mp <- ismp ;;
  when (mp =? 0) timerinit ;;
  startothers ;;
  kinit2 (p2v (4 * 1024 * 1024)) (p2v PHYSTOP) ;;
  userinit ;;
  shm_init ;;
  mxarray_init ;;
  mpmain.
End main.

(** * The page table of the first instructions *)

Definition PTE_PS : Z := 0x080.
Definition large : Z := Z.lor (Z.lor (Z.lor 0 0x001) 0x002) PTE_PS.
Definition entrypgdir : list Z :=
  <[Z.to_nat (Z.shiftr KERNBASE PDXSHIFT) := large]> (<[0%nat := large]> (replicate (Z.to_nat NPDENTRIES) 0)).

(** Translation through 4-megabyte pages. *)
Definition large_translate (va : Z) : option Z :=
  e ← entrypgdir !! Z.to_nat (PDX va);
  if negb (Z.land e 0x001 =? 0) && negb (Z.land e PTE_PS =? 0) then Some (e / 2 ^ 22 * 2 ^ 22 + va mod 2 ^ 22) else None.

(** The first four megabytes are at their own address and at [KERNBASE]. *)
Lemma entrypgdir_maps pa : 0 <= pa < 4 * 1024 * 1024 -> large_translate pa = Some pa /\ large_translate (p2v pa) = Some pa.
Proof.
  intros Hpa. unfold large_translate, p2v. change KERNBASE with (512 * 2 ^ 22). rewrite (u32_small (pa + _)) by lia.
  assert (PDX pa = 0) as ->.
  { unfold PDX, PDXSHIFT. rewrite u32_small, Z.shiftr_div_pow2 by lia. rewrite Z.div_small by lia. done. }
  assert (PDX (pa + 512 * 2 ^ 22) = 512) as ->.
  { unfold PDX, PDXSHIFT. rewrite u32_small, Z.shiftr_div_pow2 by lia. rewrite Z.div_add, (Z.div_small pa) by lia. done. }
  assert (entrypgdir !! Z.to_nat 0 = Some large) as -> by (by vm_compute). assert (entrypgdir !! Z.to_nat 512 = Some large) as -> by (by vm_compute).
  change (negb (Z.land large 0x001 =? 0) && negb (Z.land large PTE_PS =? 0)) with true. change (large / 2 ^ 22 * 2 ^ 22) with 0. cbn [mbind option_bind].
  rewrite Z.mod_add, (Z.mod_small pa) by lia. done.
Qed.

(** * Starting the other processors *)

(** [code = p2v(0x7000)] *)
Definition code : Z := p2v 0x7000.

(** Where the boot processor is in the loop of [startothers], at the processor [c]: before the test, after [kalloc] with its
    result, before the second and third store, before [lapicstartap], in the waiting loop, behind the loop. *)
Inductive bpc := BNext (c : nat) | BStack (c : nat) (p : Z) | BEnter (c : nat) | BDir (c : nat) | BIpi (c : nat) | BSpin (c : nat) | BDone.

(** Where another processor is: halted, at the start of entryother.S, with the page table, the stack and
    then the function to enter read, and with [started] set. *)
Inductive apc := Off | Begin | Dir (cr3 : Z) | Stack (cr3 esp : Z) | Enter (cr3 esp eip : Z) | Up (cr3 esp eip : Z).

#[export] Instance bpc_eq_dec : EqDecision bpc.
Proof. solve_decision. Defined.

Record smp := mkSmp { kmm : kmem; bsp : bpc; aps : list apc; started : list bool }.

Section startothers.
(** [ncpu], the boot processor's [cpunum()], and the addresses of [end], [mpenter] and [entrypgdir]. *)
Variables (ncpu me : nat) (kend mpenter_addr entrypgdir_addr : Z).
(** [_binary_entryother_start] and [_binary_entryother_size] *)
Variables (image_start image_size : Z).

Definition poke (a x : Z) (k : kmem) : kmem := set_kmemory (st32 (kmemory k) a x) k.
Abbreviation word k a := (ld32 (kmemory k) a).

(** A step of processor [i]. *)
Inductive step : nat -> smp -> smp -> Prop :=
| step_end k c a s : (ncpu <= c)%nat -> step me (mkSmp k (BNext c) a s) (mkSmp k BDone a s)
| step_self k c a s : (c < ncpu)%nat -> c = me -> step me (mkSmp k (BNext c) a s) (mkSmp k (BNext (S c)) a s)
| step_kalloc k k' p c a s : (c < ncpu)%nat -> c <> me -> run (kalloc k) = ROk p k' ->
    step me (mkSmp k (BNext c) a s) (mkSmp k' (BStack c p) a s)
| step_stack k p c a s : step me (mkSmp k (BStack c p) a s) (mkSmp (poke (code - 4) (p + KSTACKSIZE) k) (BEnter c) a s)
| step_enter k c a s : step me (mkSmp k (BEnter c) a s) (mkSmp (poke (code - 8) mpenter_addr k) (BDir c) a s)
| step_dir k c a s : step me (mkSmp k (BDir c) a s) (mkSmp (poke (code - 12) (v2p entrypgdir_addr) k) (BIpi c) a s)
| step_ipi k c a s : step me (mkSmp k (BIpi c) a s) (mkSmp k (BSpin c) (<[c := Begin]> a) s)
| step_poll k c a s : s !! c = Some false -> step me (mkSmp k (BSpin c) a s) (mkSmp k (BSpin c) a s)
| step_seen k c a s : s !! c = Some true -> step me (mkSmp k (BSpin c) a s) (mkSmp k (BNext (S c)) a s)
| step_on k a s : step me (mkSmp k BDone a s) (mkSmp k BDone a s)
| step_ap_off k b j a s : j <> me -> a !! j = Some Off -> step j (mkSmp k b a s) (mkSmp k b a s)
| step_ap_dir k b j a s : a !! j = Some Begin -> step j (mkSmp k b a s) (mkSmp k b (<[j := Dir (word k (code - 12))]> a) s)
| step_ap_stack k b j d a s : a !! j = Some (Dir d) -> step j (mkSmp k b a s) (mkSmp k b (<[j := Stack d (word k (code - 4))]> a) s)
| step_ap_call k b j d e a s : a !! j = Some (Stack d e) -> step j (mkSmp k b a s) (mkSmp k b (<[j := Enter d e (word k (code - 8))]> a) s)
| step_ap_up k b j d e f a s : a !! j = Some (Enter d e f) -> step j (mkSmp k b a s) (mkSmp k b (<[j := Up d e f]> a) (<[j := true]> s))
| step_ap_on k b j d e f a s : a !! j = Some (Up d e f) -> step j (mkSmp k b a s) (mkSmp k b a s).

(** An execution: [sched t] says who acts at time [t].  It is fair if every processor acts again and again. *)
Definition execution (sched : nat -> nat) (e : nat -> smp) : Prop := forall t, step (sched t) (e t) (e (S t)).
Definition fair (sched : nat -> nat) : Prop := forall i t, (i < ncpu)%nat -> exists u, (t <= u)%nat /\ sched u = i.

(** The code is copied, and the loop starts at [cpus]. *)
Definition copy_code (k : kmem) : kmem := set_kmemory (memmove (kmemory k) code image_start image_size) k.
Definition begin (k : kmem) : smp := mkSmp (copy_code k) (BNext 0) (replicate ncpu Off) (replicate ncpu false).

(** ** The invariant *)

Context (l0 : list Z).

(** The page [startothers] takes for processor [j]: they are given out in order. *)
Definition rank (j : nat) : nat := if decide (me < j)%nat then pred j else j.
Definition page (j : nat) : Z := default 0 (l0 !! rank j).
Abbreviation dir := (u32 (v2p entrypgdir_addr)).
Abbreviation top j := (u32 (page j + KSTACKSIZE)).
Abbreviation entry := (u32 mpenter_addr).

Definition settled (s : smp) (j : nat) : Prop := aps s !! j = Some (Up dir (top j) entry) /\ started s !! j = Some true.
Definition halted (s : smp) (j : nat) : Prop := aps s !! j = Some Off /\ started s !! j = Some false.
Definition booting (s : smp) (j : nat) : Prop :=
  settled s j \/ started s !! j = Some false /\ exists a, aps s !! j = Some a /\
    (a = Begin \/ a = Dir dir \/ a = Stack dir (top j) \/ a = Enter dir (top j) entry).
(** Before [c] everything is up; after it nothing is. *)
Definition before (s : smp) (c : nat) : Prop := forall j, (j < c)%nat -> j <> me -> settled s j.
Definition after (s : smp) (c : nat) : Prop := forall j, (c <= j < ncpu)%nat -> halted s j.
Definition words4 (k : kmem) (c : nat) : Prop := word k (code - 4) = top c.
Definition words8 (k : kmem) (c : nat) : Prop := words4 k c /\ word k (code - 8) = entry.
Definition words12 (k : kmem) (c : nat) : Prop := words8 k c /\ word k (code - 12) = dir.

Definition where_is (s : smp) : Prop :=
  match bsp s with
  | BNext c => (c <= ncpu)%nat /\ kmem_ok kend (kmm s) (drop (rank c) l0) /\ before s c /\ after s c
  | BStack c p => (c < ncpu)%nat /\ c <> me /\ kmem_ok kend (kmm s) (drop (S (rank c)) l0) /\ before s c /\ after s c /\ p = page c
  | BEnter c => (c < ncpu)%nat /\ c <> me /\ kmem_ok kend (kmm s) (drop (S (rank c)) l0) /\ before s c /\ after s c /\ words4 (kmm s) c
  | BDir c => (c < ncpu)%nat /\ c <> me /\ kmem_ok kend (kmm s) (drop (S (rank c)) l0) /\ before s c /\ after s c /\ words8 (kmm s) c
  | BIpi c => (c < ncpu)%nat /\ c <> me /\ kmem_ok kend (kmm s) (drop (S (rank c)) l0) /\ before s c /\ after s c /\ words12 (kmm s) c
  | BSpin c => (c < ncpu)%nat /\ c <> me /\ kmem_ok kend (kmm s) (drop (S (rank c)) l0) /\ before s c /\ after s (S c) /\ words12 (kmm s) c /\ booting s c
  | BDone => kmem_ok kend (kmm s) (drop (rank ncpu) l0) /\ before s ncpu
  end.
Record inv (s : smp) : Prop := {
  iv_len : length (aps s) = ncpu /\ length (started s) = ncpu;
  iv_me : aps s !! me = Some Off;
  iv_where : where_is s
}.

Hypothesis (Hme : (me < ncpu)%nat) (Henough : (ncpu <= S (length l0))%nat) (Hcode : code + PGSIZE <= kend) (Hsize : 0 <= image_size <= PGSIZE).

Lemma rank_S c : rank (S c) = if decide (c = me) then rank c else S (rank c).
Proof. unfold rank. repeat case_decide; lia. Qed.
Lemma rank_lt c : (c < ncpu)%nat -> c <> me -> (rank c < length l0)%nat.
Proof. unfold rank. case_decide; lia. Qed.
Lemma rank_inj i j : i <> me -> j <> me -> rank i = rank j -> i = j.
Proof. unfold rank. repeat case_decide; lia. Qed.

(** The words are below the pages of the allocator. *)
Lemma poke_ok a x k l : code - 12 <= a <= code - 4 -> kmem_ok kend k l -> kmem_ok kend (poke a x k) l.
Proof.
  intros Ha Hok. apply (free_pages_ext kend (kmemory k)); [done|]. intros p Hp. destruct (free_pages_valid _ _ _ _ _ Hok Hp) as (_ & Hk & _).
  cbn [poke set_kmemory kmemory]. apply ld32_st32_ne. change PGSIZE with 4096 in *. lia.
Qed.
Lemma word_same a x k : word (poke a x k) a = u32 x.
Proof. apply ld32_st32_eq. Qed.
Lemma word_other a b x k : a + 4 <= b \/ b + 4 <= a -> word (poke a x k) b = word k b.
Proof. intros H. cbn [poke set_kmemory kmemory]. by apply ld32_st32_ne. Qed.

Lemma copy_ok k l : kmem_ok kend k l -> kmem_ok kend (copy_code k) l.
Proof.
  intros Hok. apply (free_pages_ext kend (kmemory k)); [done|]. intros p Hp. destruct (free_pages_valid _ _ _ _ _ Hok Hp) as (_ & Hk & _).
  cbn [copy_code set_kmemory kmemory]. apply ld32_ext. intros i Hi. rewrite ld8_memmove by lia. change PGSIZE with 4096 in *. addr_cases.
Qed.
Lemma inv_begin k : kmem_ok kend k l0 -> inv (begin k).
Proof.
  intros Hok. split; cbn [begin aps started].
  - by rewrite !length_replicate.
  - by apply lookup_replicate_2.
  - cbn [where_is bsp begin]. split; [lia|]. split; [unfold rank; rewrite decide_False by lia; by apply copy_ok|]. split; [intros j Hj; lia|]. intros j [_ Hj]. split; by apply lookup_replicate_2.
Qed.

(** Only the processor that is waited for is on its way. *)
Lemma on_the_way s j a : inv s -> aps s !! j = Some a -> a <> Off -> (forall d e f, a <> Up d e f) -> bsp s = BSpin j.
Proof.
  intros [[HL _] Hm Hw] Hj Hoff Hup. pose proof (lookup_lt_Some _ _ _ Hj) as Hlt. rewrite HL in Hlt.
  assert (j <> me) as Hne by (intros ->; congruence). assert (~ settled s j) as H1 by (intros [H _]; rewrite Hj in H; by injection H as ->; apply (Hup _ _ _ eq_refl)).
  assert (~ halted s j) as H2 by (intros [H _]; rewrite Hj in H; by injection H as ->).
  assert (forall c, before s c -> after s c -> False) as Hno.
  { intros c B A. destruct (decide (j < c)%nat); [by apply H1, B|]. apply H2, A. lia. }
  unfold where_is in Hw. destruct (bsp s) as [c|c p|c|c|c|c|]; try (exfalso; apply (Hno c); tauto).
  - destruct Hw as (_ & _ & _ & B & A & _). destruct (decide (j = c)) as [->|]; [done|]. exfalso.
    destruct (decide (j < c)%nat); [by apply H1, B|]. apply H2, A. lia.
  - exfalso. destruct Hw as [_ B]. by apply H1, B.
Qed.

(** A state that differs at processor [c] only. *)
Lemma others k k' b b' a a' s s' c j :
  (forall i, i <> c -> a' !! i = a !! i /\ s' !! i = s !! i) -> j <> c ->
  (settled (mkSmp k b a s) j -> settled (mkSmp k' b' a' s') j) /\ (halted (mkSmp k b a s) j -> halted (mkSmp k' b' a' s') j).
Proof. intros H Hj. destruct (H j Hj) as [E1 E2]. unfold settled, halted. cbn [aps started]. by rewrite E1, E2. Qed.

(** A step of the processor that is waited for. *)
Lemma inv_ap k c a s x s' :
  inv (mkSmp k (BSpin c) a s) -> (s' = s \/ s' = <[c := true]> s) ->
  booting (mkSmp k (BSpin c) (<[c := x]> a) s') c -> inv (mkSmp k (BSpin c) (<[c := x]> a) s').
Proof.
  intros [[HL1 HL2] Hm (H1 & H2 & H3 & B & A & W & _)] Hs Hb. cbn [aps started] in *.
  assert (forall i, i <> c -> <[c := x]> a !! i = a !! i /\ s' !! i = s !! i) as Ho.
  { intros i Hi. rewrite list_lookup_insert_ne by done. split; [done|]. destruct Hs as [-> | ->]; [done|]. by rewrite list_lookup_insert_ne. }
  split; cbn [aps started].
  - rewrite length_insert. split; [done|]. destruct Hs as [-> | ->]; by rewrite ?length_insert.
  - by rewrite list_lookup_insert_ne.
  - cbn [where_is bsp kmm]. split_and!; try done.
    + intros j Hj Hne. eapply others; [exact Ho|lia|by apply B].
    + intros j Hj. eapply others; [exact Ho|lia|by apply A].
Qed.

Lemma ap_turn k b j a s x y s' :
  inv (mkSmp k b a s) -> a !! j = Some x -> x <> Off -> (forall d e f, x <> Up d e f) -> (s' = s \/ s' = <[j := true]> s) ->
  ((x = Begin \/ x = Dir dir \/ x = Stack dir (top j) \/ x = Enter dir (top j) entry) -> words12 k j -> <[j := y]> a !! j = Some y -> s !! j = Some false ->
     booting (mkSmp k (BSpin j) (<[j := y]> a) s') j) ->
  inv (mkSmp k b (<[j := y]> a) s').
Proof.
  intros IV Hj Hoff Hup Hs Hb. pose proof (on_the_way _ j x IV Hj Hoff Hup) as E. cbn [bsp] in E. subst b. apply (inv_ap k j a s); [done|done|].
  pose proof (iv_where _ IV) as (_ & _ & _ & _ & _ & W & Hbt). cbn [kmm] in W. destruct Hbt as [[Ht _]|(Hf & z & Hz & Hc)]; cbn [aps started] in *.
  - rewrite Hj in Ht. injection Ht as ->. by destruct (Hup _ _ _ eq_refl).
  - rewrite Hj in Hz. injection Hz as <-. apply Hb; try done. apply list_lookup_insert_eq. by eapply lookup_lt_Some.
Qed.

Lemma smp_inv_step i s s' : inv s -> step i s s' -> inv s'.
Proof.
  intros IV Hst. destruct Hst as [k c a s Hc|k c a s Hc ->|k k' p c a s Hc Hne Hr|k p c a s|k c a s|k c a s|k c a s|k c a s Hs|k c a s Hs|k a s
    |k b j a s Hn Hj|k b j a s Hj|k b j d a s Hj|k b j d e a s Hj|k b j d e f a s Hj|k b j d e f a s Hj]; try exact IV.
  - destruct IV as [HL Hm (Hle & Hk & B & _)]. split; [done|done|]. cbn [where_is bsp kmm] in *. assert (c = ncpu) as -> by lia. done.
  - destruct IV as [HL Hm (Hle & Hk & B & A)]. split; [done|done|]. cbn [where_is bsp kmm] in *. split; [lia|]. split; [by rewrite rank_S, decide_True|]. split.
    + intros j Hj Hne. apply B; [lia|done].
    + intros j Hj. apply A. lia.
  - destruct IV as [HL Hm (Hle & Hk & B & A)]. cbn [kmm] in Hk. pose proof (rank_lt c Hc Hne) as Hlt.
    destruct (lookup_lt_is_Some_2 l0 (rank c) Hlt) as [q Hq]. rewrite (drop_S _ _ _ Hq) in Hk. rewrite (kalloc_spec kend _ _ Hk) in Hr. injection Hr as <- <-.
    destruct (kalloc_ok kend _ _ _ Hk) as [Hk' _]. split; [done|done|]. cbn [where_is bsp kmm] in *. split_and!; try done. unfold page. by rewrite Hq.
  - destruct IV as [HL Hm (H1 & H2 & Hk & B & A & ->)]. split; [done|done|]. cbn [where_is bsp kmm] in *. split_and!; try done; [apply poke_ok; [lia|done]|apply word_same].
  - destruct IV as [HL Hm (H1 & H2 & Hk & B & A & W)]. split; [done|done|]. cbn [where_is bsp kmm] in *. split_and!; try done; [apply poke_ok; [lia|done]|].
    split; [unfold words4; rewrite word_other by lia; exact W|apply word_same].
  - destruct IV as [HL Hm (H1 & H2 & Hk & B & A & W4 & W8)]. split; [done|done|]. cbn [where_is bsp kmm] in *. split_and!; try done; [apply poke_ok; [lia|done]|].
    split; [split; [unfold words4|]; rewrite word_other by lia; done|apply word_same].
  - destruct IV as [[HL1 HL2] Hm (H1 & H2 & Hk & B & A & W)]. cbn [aps started] in *.
    assert (forall i, i <> c -> <[c := Begin]> a !! i = a !! i /\ s !! i = s !! i) as Ho by (intros i Hi; by rewrite list_lookup_insert_ne).
    destruct (A c ltac:(lia)) as [_ Hs]. split; cbn [aps started]; [by rewrite length_insert|by rewrite list_lookup_insert_ne|]. cbn [where_is bsp kmm] in *. split_and!; try done.
    + intros j Hj Hne. eapply others; [exact Ho|lia|by apply B].
    + intros j Hj. eapply others; [exact Ho|lia|apply A; lia].
    + right. split; [done|]. exists Begin. cbn [aps]. rewrite list_lookup_insert_eq by lia. auto.
  - destruct IV as [HL Hm (H1 & H2 & Hk & B & A & W & [Hb|[Hb _]])]; [|cbn [started] in Hb; congruence]. split; [done|done|]. cbn [where_is bsp kmm] in *.
    split; [lia|]. split; [by rewrite rank_S, decide_False|]. split; [|done]. intros j Hj Hne. destruct (decide (j = c)) as [->|]; [done|]. apply B; [lia|done].
  - eapply (ap_turn k b j a s Begin); try done; [by left|]. intros _ [_ W12] Hf Hs. right. split; [done|]. eexists. cbn [aps]. split; [exact Hf|]. rewrite W12. auto.
  - eapply (ap_turn k b j a s (Dir d)); try done; [by left|]. intros Hx [[W4 _] _] Hf Hs. right. split; [done|]. eexists. cbn [aps]. split; [exact Hf|]. rewrite W4.
    destruct Hx as [?|[[= ->]|[?|?]]]; try done. auto.
  - eapply (ap_turn k b j a s (Stack d e)); try done; [by left|]. intros Hx [[_ W8] _] Hf Hs. right. split; [done|]. eexists. cbn [aps]. split; [exact Hf|]. rewrite W8.
    destruct Hx as [?|[?|[[= -> ->]|?]]]; try done. auto.
  - eapply (ap_turn k b j a s (Enter d e f)); try done; [by right|]. intros Hx _ Hf Hs. left. destruct Hx as [?|[?|[?|[= -> -> ->]]]]; try done.
    split; cbn [aps started]; [done|]. rewrite list_lookup_insert_eq; [done|]. by eapply lookup_lt_Some.
Qed.

(** ** Termination *)

Definition weight (a : apc) : nat := match a with Begin => 4 | Dir _ => 3 | Stack _ _ => 2 | Enter _ _ _ => 1 | _ => 0 end.
Definition bweight (b : bpc) : nat :=
  match b with
  | BNext c => 11 * (ncpu - c) + 1 | BStack c _ => 11 * (ncpu - c) | BEnter c => 11 * (ncpu - c) - 1 | BDir c => 11 * (ncpu - c) - 2
  | BIpi c => 11 * (ncpu - c) - 3 | BSpin c => 11 * (ncpu - c) - 8 | BDone => 0
  end.
Definition left_to_do (s : smp) : nat := bweight (bsp s) + sum_list_with weight (aps s).

Lemma sum_insert (l : list apc) j x y : l !! j = Some x -> (sum_list_with weight (<[j := y]> l) + weight x = sum_list_with weight l + weight y)%nat.
Proof.
  revert j. induction l as [|z l IH]; intros [|j] Hj; [done..| |].
  - injection Hj as ->. change (<[0%nat := y]> (x :: l)) with (y :: l). cbn [sum_list_with]. lia.
  - specialize (IH j Hj). change (<[S j := y]> (z :: l)) with (z :: <[j := y]> l). cbn [sum_list_with]. lia.
Qed.

Lemma step_measure i s s' : inv s -> step i s s' -> s' = s \/ (left_to_do s' < left_to_do s)%nat.
Proof.
  intros IV Hst. unfold left_to_do. destruct Hst as [k c a s Hc|k c a s Hc ->|k k' p c a s Hc Hne Hr|k p c a s|k c a s|k c a s|k c a s|k c a s Hs|k c a s Hs|k a s
    |k b j a s Hn Hj|k b j a s Hj|k b j d a s Hj|k b j d e a s Hj|k b j d e f a s Hj|k b j d e f a s Hj]; try (by left); right; cbn [bsp aps bweight]; try (pose proof (iv_where _ IV) as (H1 & _); cbn [bsp] in H1; lia).
  - destruct IV as [_ _ (H1 & _ & _ & _ & A & _)]. destruct (A c ltac:(lia)) as [Ha _]. cbn [aps] in Ha. pose proof (sum_insert a c Off Begin Ha) as E. cbn [weight] in E. lia.
  - pose proof (sum_insert a j _ (Dir (word k (code - 12))) Hj) as E. cbn [weight] in E. lia.
  - pose proof (sum_insert a j _ (Stack d (word k (code - 4))) Hj) as E. cbn [weight] in E. lia.
  - pose proof (sum_insert a j _ (Enter d e (word k (code - 8))) Hj) as E. cbn [weight] in E. lia.
  - pose proof (sum_insert a j _ (Up d e f) Hj) as E. cbn [weight] in E. lia.
Qed.

(** Until the end, there is a processor whose next step leads on. *)
Lemma leads_on s : inv s -> bsp s <> BDone -> exists i, (i < ncpu)%nat /\ forall s', step i s s' -> (left_to_do s' < left_to_do s)%nat.
Proof.
  intros IV Hnd. assert (forall i, (forall s', step i s s' -> s' <> s) -> forall s', step i s s' -> (left_to_do s' < left_to_do s)%nat) as Hgo.
  { intros i H s' Hs. destruct (step_measure i s s' IV Hs); [by destruct (H s' Hs)|done]. }
  pose proof (iv_me _ IV) as Hm. destruct s as [k b a s]. cbn [bsp aps] in *.
  assert ((exists c, b = BSpin c /\ s !! c = Some false) \/ ~ exists c, b = BSpin c /\ s !! c = Some false) as [(c & -> & Hs)|Hno].
  { destruct b as [c|c p|c|c|c|c|]; try (by right; intros (? & ? & _)). destruct (s !! c) as [[]|] eqn:E; [right|left; eauto|right]; intros (? & [= <-] & ?); congruence. }
  - pose proof (iv_where _ IV) as (Hc & Hcm & _ & _ & _ & _ & [[_ Ht]|(_ & x & Hx & Hcase)]); cbn [aps started] in *; [congruence|].
    exists c. split; [done|]. apply Hgo. intros s' Hst ->. inversion Hst; subst; try congruence;
      destruct Hcase as [->|[->|[->| ->]]]; try congruence.
    all: match goal with H : <[?j := ?y]> ?l = ?l, L : ?l !! ?j = Some _ |- _ =>
      apply (f_equal (lookup j)) in H; rewrite list_lookup_insert_eq in H by (by eapply lookup_lt_Some); congruence end.
  - exists me. split; [done|]. apply Hgo. intros s' Hst ->. inversion Hst; subst; try congruence; try lia.
    apply Hno. eauto.
Qed.

(** A fair execution comes to its end. *)
Lemma fair_ends sched e : execution sched e -> fair sched -> inv (e 0%nat) -> forall t, exists u, (t <= u)%nat /\ bsp (e u) = BDone.
Proof.
  intros Hex Hfair H0. assert (forall t, inv (e t)) as IV by (intros t; induction t as [|t IH]; [done|by eapply smp_inv_step]).
  assert (forall i d t, sched (t + d)%nat = i -> (forall s', step i (e t) s' -> (left_to_do s' < left_to_do (e t))%nat) ->
    exists u, (t <= u)%nat /\ (left_to_do (e u) < left_to_do (e t))%nat) as Hless.
  { intros i d. induction d as [|d IH]; intros t Hs Hgo.
    - exists (S t). split; [lia|]. apply Hgo. rewrite Nat.add_0_r in Hs. rewrite <- Hs. apply Hex.
    - destruct (step_measure _ _ _ (IV t) (Hex t)) as [E|]; [|exists (S t); split; [lia|done]].
      destruct (IH (S t)) as (u & Hu & Hl); [by rewrite <- Hs, Nat.add_succ_comm|by rewrite E|]. rewrite E in Hl. exists u. split; [lia|done]. }
  intros t. remember (left_to_do (e t)) as m eqn:Em. revert t Em. induction m as [m IH] using lt_wf_ind. intros t ->.
  destruct (decide (bsp (e t) = BDone)) as [Hd|Hd]; [by exists t|]. destruct (leads_on (e t) (IV t) Hd) as (i & Hi & Hgo).
  destruct (Hfair i t Hi) as (t' & Ht & Hs). destruct (Hless i (t' - t)%nat t) as (u & Hu & Hl); [by replace (t + (t' - t))%nat with t' by lia|done|].
  destruct (IH _ Hl u eq_refl) as (v & Hv & Hb). exists v. split; [lia|done].
Qed.
Lemma stays_done sched e t u : execution sched e -> (t <= u)%nat -> bsp (e t) = BDone -> bsp (e u) = BDone.
Proof.
  intros Hex Hle Hd. induction Hle as [|u Hle IH]; [done|]. pose proof (Hex u) as Hs. destruct (e u) as [k b a s]. cbn [bsp] in IH. subst b. by inversion Hs.
Qed.

(** ** The theorem *)

Definition esp_of (a : apc) : option Z := match a with Stack _ e | Enter _ e _ | Up _ e _ => Some e | _ => None end.

(** How many pages were taken. *)
Definition taken (b : bpc) : nat :=
  match b with BNext c => rank c | BDone => rank ncpu | BStack c _ | BEnter c | BDir c | BIpi c | BSpin c => S (rank c) end.
Lemma inv_free s : inv s -> kmem_ok kend (kmm s) (drop (taken (bsp s)) l0).
Proof. intros [_ _ H]. unfold where_is in H. destruct (bsp s); cbn [taken]; tauto. Qed.

Lemma rank_mono j c : (j < c)%nat -> j <> me -> (rank j < rank c)%nat.
Proof. unfold rank. repeat case_decide; lia. Qed.

Lemma has_stack s j a e : inv s -> aps s !! j = Some a -> esp_of a = Some e -> (j < ncpu)%nat /\ j <> me /\ e = top j /\ (rank j < taken (bsp s))%nat.
Proof.
  intros IV Hj He. pose proof IV as [[HL _] Hm Hw]. pose proof (lookup_lt_Some _ _ _ Hj) as Hlt. rewrite HL in Hlt. split; [done|].
  assert (j <> me) as Hne by (intros ->; rewrite Hm in Hj; by injection Hj as <-). split; [done|].
  assert (settled s j -> e = top j) as Hset by (intros [Hs _]; rewrite Hj in Hs; injection Hs as ->; by injection He).
  assert (~ halted s j) as Hh by (intros [Hs _]; rewrite Hj in Hs; by injection Hs as ->).
  assert (forall c, before s c -> after s c -> settled s j /\ (rank j < rank c)%nat) as HB.
  { intros c B A. destruct (decide (j < c)%nat); [split; [by apply B|by apply rank_mono]|]. destruct Hh. apply A. lia. }
  unfold where_is in Hw. destruct (bsp s) as [c|c p|c|c|c|c|]; cbn [taken];
    try (destruct (HB c ltac:(tauto) ltac:(tauto)); split; [by apply Hset|lia]).
  - destruct Hw as (_ & _ & _ & B & A & _ & Hb). destruct (decide (j = c)) as [->|].
    + split; [|lia]. destruct Hb as [Hb|(_ & x & Hx & Hc)]; [by apply Hset|]. rewrite Hj in Hx. injection Hx as <-.
      destruct Hc as [->|[->|[->| ->]]]; cbn [esp_of] in He; congruence.
    + destruct (decide (j < c)%nat) as [Hl|]; [split; [by apply Hset, B|pose proof (rank_mono j c Hl Hne); lia]|]. destruct Hh. apply A. lia.
  - destruct Hw as [_ B]. split; [by apply Hset, B|by apply rank_mono].
Qed.

Lemma page_lookup j : (j < ncpu)%nat -> j <> me -> l0 !! rank j = Some (page j).
Proof. intros Hj Hne. unfold page. by destruct (lookup_lt_is_Some_2 l0 (rank j) (rank_lt j Hj Hne)) as [q ->]. Qed.

(** C18. Starting the other processors.  However the boot processor and the others take turns, at
    every point the processors that have read their stack stand on the tops of pages of the allocator, a page
    of its own for each, which are no longer free.  If every processor gets a turn again and again, however
    often [startothers] polls in between, [startothers] ends, with every other processor up for good, on the page table [entrypgdir], entered at [mpenter].
    There must be a free page for each of them: the result of [kalloc] is not tested. *)
Theorem startothers_stacks k sched e :
  kmem_ok kend k l0 -> e 0%nat = begin k -> execution sched e ->
  (forall t, exists l, kmem_ok kend (kmm (e t)) l /\ forall i a x, aps (e t) !! i = Some a -> esp_of a = Some x ->
    exists p, x = p + KSTACKSIZE /\ p ∈ l0 /\ p ∉ l /\ forall j b x', j <> i -> aps (e t) !! j = Some b -> esp_of b = Some x' -> x' <> x) /\
  (fair sched -> exists T, forall t, (T <= t)%nat -> bsp (e t) = BDone /\
    forall j, (j < ncpu)%nat -> j <> me -> exists x, aps (e t) !! j = Some (Up dir x entry) /\ started (e t) !! j = Some true).
Proof.
  intros Hok H0 Hex. pose proof (free_pages_NoDup _ _ _ _ Hok) as Hnd.
  assert (forall t, inv (e t)) as Hinv by (intros t; induction t as [|t IH]; [rewrite H0; by apply inv_begin|by eapply smp_inv_step]). split.
  - intros t. pose proof (Hinv t) as IV. set (s := e t) in *.
    exists (drop (taken (bsp s)) l0). split; [by apply inv_free|]. intros i a x Ha He. destruct (has_stack s i a x IV Ha He) as (Hi & Hne & -> & Hr).
    pose proof (page_lookup i Hi Hne) as Hp. pose proof (list_elem_of_lookup_2 _ _ _ Hp) as Hin.
    assert (forall q, q ∈ l0 -> u32 (q + KSTACKSIZE) = q + KSTACKSIZE) as Hu.
    { intros q Hq. destruct (free_pages_valid _ _ _ _ _ Hok Hq) as (_ & _ & H1 & H2). change KSTACKSIZE with 4096. change PGSIZE with 4096 in H2.
      change (KERNBASE + PHYSTOP) with 0x8e000000 in H2. change KERNBASE with 0x80000000 in H1. rewrite u32_small; lia. }
    exists (page i). split; [by apply Hu|]. split; [done|]. split.
    + intros (m & Hm)%list_elem_of_lookup. rewrite lookup_drop in Hm. pose proof (NoDup_lookup _ _ _ _ Hnd Hp Hm). lia.
    + intros j b e' Hji Hb He'. destruct (has_stack s j b e' IV Hb He') as (Hj & Hnej & -> & _). pose proof (page_lookup j Hj Hnej) as Hq.
      rewrite (Hu _ Hin), (Hu _ (list_elem_of_lookup_2 _ _ _ Hq)). intros E. apply Hji. apply rank_inj; [done|done|]. eapply NoDup_lookup; [done|exact Hq|].
      rewrite Hp. f_equal. lia.
  - intros Hfair. destruct (fair_ends sched e Hex Hfair (Hinv 0%nat) 0%nat) as (T & _ & HT). exists T. intros t Ht. pose proof (stays_done sched e T t Hex Ht HT) as E. split; [done|].
    intros j Hj Hne. pose proof (iv_where _ (Hinv t)) as Hw. unfold where_is in Hw. rewrite E in Hw. destruct Hw as [_ B]. destruct (B j Hj Hne) as [H1 H2]. eauto.
Qed.
End startothers.

(** Without a free page the other processors would be given the page at address 0. *)
Lemma startothers_unchecked ncpu me kend mp ep k c a s :
  kmem_ok kend k [] -> (c < ncpu)%nat -> c <> me ->
  exists s1 k', step ncpu me mp ep me (mkSmp k (BNext c) a s) s1 /\ step ncpu me mp ep me s1 (mkSmp k' (BEnter c) a s) /\
    ld32 (kmemory k') (code - 4) = KSTACKSIZE.
Proof.
  intros Hk Hc Hne. eexists _, _. split; [apply step_kalloc; [done|done|exact (kalloc_spec kend _ _ Hk)]|]. split; [apply step_stack|].
  cbn [poke set_kmemory kmemory]. by rewrite ld32_st32_eq.
Qed.

(** ** Executions that start with given steps *)

Inductive path {S} (R : nat -> S -> S -> Prop) : list nat -> S -> S -> Prop :=
| path_nil s : path R [] s s
| path_cons i l s1 s2 s3 : R i s1 s2 -> path R l s2 s3 -> path R (i :: l) s1 s3.

Lemma path_execution {S} (R : nat -> S -> S -> Prop) n l s s' :
  (0 < n)%nat -> path R l s s' -> (forall i, (i < n)%nat -> R i s' s') ->
  exists sched e, e 0%nat = s /\ (forall t, R (sched t) (e t) (e (Datatypes.S t))) /\ forall i t, (i < n)%nat -> exists u, (t <= u)%nat /\ sched u = i.
Proof.
  intros Hn Hp Hidle. induction Hp as [s|i l s1 s2 s3 HR Hp IH].
  - exists (fun t => t mod n)%nat, (fun _ => s). split; [done|]. split; [intros t; apply Hidle, Nat.mod_upper_bound; lia|].
    intros i t Hi. exists (i + t * n)%nat. split; [nia|]. rewrite Nat.Div0.mod_add. by apply Nat.mod_small.
  - destruct (IH Hidle) as (sched & e & H0 & He & Hf). exists (fun t => match t with O => i | S t => sched t end), (fun t => match t with O => s1 | S t => e t end).
    split; [done|]. split; [intros [|t]; [by rewrite H0|apply He]|]. intros j [|t] Hj; destruct (Hf j t Hj) as (u & Hu & E) || destruct (Hf j 0%nat Hj) as (u & Hu & E); exists (Datatypes.S u); (split; [lia|done]).
Qed.

(** Two processors, from the first step to the last. *)
Definition two_pages : list Z := [0x80200000; 0x80201000].
Definition two_kmem : kmem := linked false two_pages ∅.
Lemma two_ok : kmem_ok 0x80200000 two_kmem two_pages.
Proof.
  apply linked_ok; [|apply NoDup_cons; split; [intros H%list_elem_of_singleton; discriminate|apply NoDup_singleton]]. repeat constructor; vm_compute; congruence.
Qed.
Lemma startothers_stacks_witness : exists sched e T,
  execution 2 0 0x80103000 0x8010a000 sched e /\ fair 2 sched /\ e 0%nat = begin 2 0x80109000 138 two_kmem /\ bsp (e T) = BDone /\
  exists a x p, aps (e T) !! 1%nat = Some a /\ esp_of a = Some x /\ x = p + KSTACKSIZE /\ p ∈ two_pages.
Proof.
  assert (kmem_ok 0x80200000 (copy_code 0x80109000 138 two_kmem) two_pages) as Hk.
  { eapply (copy_ok 2 0 0x80200000 0x80109000 138 two_pages); [lia|cbn [length two_pages]; lia|vm_compute; discriminate|vm_compute; split; discriminate|exact two_ok]. }
  assert (exists l s, path (step 2 0 0x80103000 0x8010a000) l (begin 2 0x80109000 138 two_kmem) s /\ forall i, (i < 2)%nat -> step 2 0 0x80103000 0x8010a000 i s s) as (l & s & Hp & Hi).
  { eexists _, _. split.
    - unfold begin. eapply path_cons; [apply step_self; [lia|reflexivity]|]. eapply path_cons; [apply step_kalloc; [lia|discriminate|exact (kalloc_spec _ _ _ Hk)]|].
      eapply path_cons; [apply step_stack|]. eapply path_cons; [apply step_enter|]. eapply path_cons; [apply step_dir|]. eapply path_cons; [apply step_ipi|].
      eapply path_cons; [apply step_poll; reflexivity|]. eapply path_cons; [eapply step_ap_dir with (j := 1%nat); reflexivity|].
      eapply path_cons; [eapply step_ap_stack with (j := 1%nat); reflexivity|]. eapply path_cons; [apply step_poll; reflexivity|].
      eapply path_cons; [eapply step_ap_call with (j := 1%nat); reflexivity|]. eapply path_cons; [eapply step_ap_up with (j := 1%nat); reflexivity|].
      eapply path_cons; [apply step_seen; reflexivity|]. eapply path_cons; [apply step_end; lia|]. apply path_nil.
    - intros [|[|i]] Hi; [apply step_on|eapply step_ap_on with (j := 1%nat); reflexivity|lia]. }
  destruct (path_execution _ 2 l _ s ltac:(lia) Hp Hi) as (sched & e & H0 & He & Hf). exists sched, e.
  destruct (startothers_stacks 2 0 0x80200000 0x80103000 0x8010a000 0x80109000 138 two_pages) with (k := two_kmem) (sched := sched) (e := e) as [H1 H2].
  - lia.
  - cbn [length two_pages]. lia.
  - vm_compute. discriminate.
  - vm_compute. split; discriminate.
  - exact two_ok.
  - exact H0.
  - exact He.
  - destruct (H2 Hf) as (T & HT). exists T. destruct (HT T (Nat.le_refl T)) as [Hb Hup]. split; [exact He|]. split; [exact Hf|]. split; [exact H0|]. split; [exact Hb|].
    destruct (Hup 1%nat) as (x & Hx & _); [lia|discriminate|]. destruct (H1 T) as (fl & _ & Hst). destruct (Hst 1%nat _ x Hx eq_refl) as (p & Ep & Hin & _).
    eexists _, x, p. split; [exact Hx|]. split; [reflexivity|]. split; [exact Ep|exact Hin].
Defined.
